(* ===== verification/_CoqProject ===== *)
-Q . S2P
Prelude.v
PppFsm.v
Bitpool.v
CString.v
IpPool.v
Utils.v
L2tpPacket.v
RadiusPacket.v
RadiusAuth.v
RadiusServ.v
RadiusClient.v
RadiusSafe.v
L2tpTransport.v
L2tpAuth.v
PppLcp.v
Connlimit.v
PppoeSid.v
PppoePacket.v
PppoeDpado.v
PppoeServ.v
PppoeHandshake.v
PppAuth.v
AuthPap.v
AuthChap.v
AuthMschap.v
ChapSecrets.v
IpRange.v
Pptp.v
Dhcpv4.v
PppNcp.v
PppIpcp.v
PppIpv6cp.v
