(* ===== verification/Prelude.v ===== *)
(** * accel-ppp: a verification development

    ** The program

    accel-ppp is an access concentrator: clients reach it over PPPoE, L2TP, PPTP,
    SSTP or IPoE, are authenticated, mostly by a RADIUS server, and get addresses from
    pools.  One daemon (src/accel-pppd) runs handlers in contexts, one per tunnel,
    session or server, on a pool of threads.  The parts modelled here meet as follows.
    A PPPoE server (ctrl/pppoe), an L2TP tunnel (ctrl/l2tp) or a PPTP connection (ctrl/pptp) makes a session; PPP
    runs LCP (ppp/ppp_lcp.c) on the negotiation automaton (ppp/ppp_fsm.c), LCP
    agrees on the authentication protocol; the authentication layer (ppp/ppp_auth.c) runs
    it (auth/) and asks the password databases: a file (extra/chap-secrets.c), or the
    RADIUS client (radius), which takes the credentials to one of its servers and
    accounts for the session until it ends; the address comes from a pool (extra/ippool.c) and is
    agreed on by IPCP (ppp/ppp_ipcp.c), for IPv6 the interface identifiers by IPv6CP
    (ppp/ppp_ipv6cp.c), on the same automaton.  Clients of IPoE speak DHCPv4 (ctrl/ipoe/dhcpv4.c) instead.
    The limiter extra/connlimit.c stands in front of all ways in, the ranges of iprange.c in front of PPTP and IPCP.

    ** Files

    - [Prelude]: machine integers with their wrap-around ([u8], [u16], [u32], [u64],
      [s32]), bytes and byte order, the result type [res] with its monad ([Ok], the
      error return [Fail], and [Oob] for any access outside of an object or to a freed
      one, and for a failed assert), [slice] and [splice] for reading and writing inside buffers, their
      lemmas and the tactics [zbool] and [bools].
    - [CString]: the libc string functions the option parsers use.
    - [Utils]: u_read_be*, u_write_be*, u_randbuf (utils.h, utils.c).
    - [PppFsm]: ppp/ppp_fsm.c.  A layer is a record of operations [ppp_fsm_ops], its
      function pointers; [KeepingLayer] and [AnsweringLayer] are the classes of what a
      layer promises to the automaton.
    - [PppLcp]: ppp/ppp_lcp.c, ppp/lcp_opt_*.c, ppp/ppp_auth.c: LCP as such a layer.
    - [PppAuth]: ppp/ppp_auth.c, pwdb.c and the names of sessions in session.c.  [AuthProto] is
      the record of functions of a protocol and [SoundProto] what it owes to the layer.
    - [AuthPap], [AuthChap], [AuthMschap]: auth/auth_pap.c, auth_chap_md5.c, auth_mschap_v1.c and
      auth_mschap_v2.c as such protocols.
    - [ChapSecrets]: extra/chap-secrets.c as a database of passwords.
    - [Bitpool]: extra/bitpool.h, the bit maps of the pools.
    - [IpPool]: extra/ippool.c: options, allocation, release, reload, restore.
    - [L2tpPacket], [L2tpTransport], [L2tpAuth]: ctrl/l2tp/packet.c, dict.c and the
      reliable delivery and the authentication of a tunnel in ctrl/l2tp/l2tp.c.
    - [RadiusPacket]: radius/packet.c and the look-up functions of radius/dict.c.
    - [RadiusAuth]: radius/auth.c and the authenticators of radius/req.c: what is done
      with the secret shared with a server.
    - [RadiusServ], [RadiusClient], [RadiusSafe]: radius/serv.c and req.c, the choice of a
      server, its window and queues, sending and failover; the handlers of radius/auth.c,
      acct.c and radius.c on top of it, for sessions; what holds of them together.
    - [Connlimit]: extra/connlimit.c, include/connlimit.h.
    - [PppoeSid], [PppoePacket], [PppoeDpado], [PppoeServ], [PppoeHandshake]:
      ctrl/pppoe: identifiers of sessions, packets and cookies, the delay of
      offers, the servers with their sessions, and what they promise a client.
    - [IpRange]: iprange.c and the parsers of utils.c it uses.
    - [Pptp]: ctrl/pptp/pptp.c, a server with its connections.
    - [Dhcpv4]: ctrl/ipoe/dhcpv4.c and dhcpv4_options.c: packets, replies, relaying.
    - [PppNcp]: what ppp/ppp_ipcp.c and ppp/ppp_ipv6cp.c share, as a layer of the automaton.
      [NcpProtocol] is the class of what differs, [NcpLaws] what a protocol owes to the layer.
    - [PppIpcp]: ppp/ipcp_opt_ipaddr.c, ipcp_opt_dns.c and ipcp_opt_wins.c, the instance for IPCP.
    - [PppIpv6cp]: ppp/ipv6cp_opt_intfid.c, the instance for IPv6CP.

    A definition has the name of the C function it translates, with a prefix where
    two files use the same name.  A struct is a record, an enum an inductive type.
    A handler takes the state and returns the new one together with what it passes on:
    frames, events, calls into other contexts.  What comes from outside (clock, random
    bytes, results of system calls, allocation, old contents of the stack) is an
    argument.  Definitions only the statements need stand apart, in most
    files under "Vocabulary of the theorems".

    ** What is proved

    - Automaton: the code does what the table of RFC 1661 says outside four listed
      cells (refinement); the restart timer is off when the layer is open; with a
      silent peer it gives up after the configured number of tries.
    - LCP: no input makes it leave a buffer; with authentication required every
      request sent asks for it; the answer to a request lists exactly the options to
      be refused; a dead peer is noticed; one malformed answer the code gives.
    - Authentication: for each protocol, over any run of the layer, no access leaves the
      receive buffer, nothing is freed twice, an ended session is idle and the network layers
      start only for a name that was accepted; the handshakes of CHAP and MS-CHAP v2 with a
      peer that follows the RFCs, keys for MPPE included; a file of accounts is read back,
      and it may as well have hashes.  Defects proved as such: a repeated challenge ends a
      session under single-session=deny, stray and malformed frames stop the timeout, a
      header alone is read on from old bytes, a weak key for one password in 65536, a null
      pointer.
    - Pools: the word-wise search finds what a search bit by bit finds; allocation,
      release, reload; no two live leases share an address; the gateway is never
      leased; exactly when the search through chained pools ends.
    - L2TP: messages, hidden AVPs included, are read back as they were built and
      reception is safe on any bytes; over loss, repetition and reordering the messages
      are handed out in order, without gaps and once; tunnel invariant; two ends with the
      same secret authenticate, others do not; a double free.
    - RADIUS packets: built within the buffer, read back as built, reception safe on
      any bytes, the authenticator covers what is sent.
    - RADIUS client: over any run of starts, replies, timeouts, pending calls and ends of
      sessions nothing freed is used, no assert fails, counters and queues are exact
      and the window is respected ([radius_client_ok]), [calm] naming the two orders of
      events that are not safe; the server chosen is the best; the password and the
      MPPE keys arrive; only a genuine reply is taken.  Defects proved as such: a call for a
      freed request, a place in the window lost for ever, a loop between servers without
      sockets, requests forgotten on reload.
    - Limiter: the walk over one list is, for each client, a limiter of its own.
    - PPPoE: packets are built within the frame and read back; a cookie is accepted
      exactly if it was sealed for this client and has not run out; allocation
      of identifiers; no sequence of packets, timers and events breaks the invariant
      of all servers ([system_ok]); the whole handshake gives one session; without a
      valid cookie nothing changes; the PADI limit holds in every second; the delay
      follows the number of sessions.  Three defects are proved as such: the release of
      identifiers above 31 of a word, the crossing of delay updates, and a session on a
      freed server.
    - PPTP: every run of connections is safe, each handler returns and the counters are exact;
      messages are put together again from the stream; the handshake.  Defects: two
      messages in one piece, a cleared call that holds its connection, a busy loop.
    - Ranges: exactly the addresses the configuration names.
    - DHCPv4: reception is safe on any bytes; a reply is read back by a client; the checksums of
      the raw frame.  Defects: an end mark behind the buffer, a result that is always an error.
    - IPCP and IPv6CP: over any run with requests that give no option twice, no access leaves a buffer
      or follows a null pointer, and what is acknowledged is the address of the session, or an
      identifier that is neither zero nor the server's; the answer to any request is the one RFC 1661
      asks for.  Defects: repeated options overflow the buffer of a Nak in both, the checks of
      an address can be passed by, a Nak can suggest what it refuses.

    ** Bounds and fuel

    Loops that are not structural take fuel, and fuel is shown to be enough or the
    theorem says when it is: the tag and attribute loops get the length of the packet
    (each round consumes a byte at least), [sid_loop] the number of words (it visits
    each at most once), [parse_ranges] the length of the option ([parse_ranges_fuel]),
    [get_loop] is shown to end exactly when the chain of pools does.  [pppoe_run_ok]
    is for fewer than 2^31 - 1 inputs, as the counters of sessions have 32 bits;
    [rad_req_send] tries each server once, so [fuel_of] is two more than the servers, which
    [radius_client_ok] shows to be enough when a server without socket is given up
    for a time;
    [connlimit_refines_limiters] for a clock within 2^32 ms, where the
    unsigned difference wraps.  Signed counters are kept at their width with [s32].

    [read_loop] of PPTP gets one more than the bytes and results that wait ([read_loop_ok] shows that it ends
    by itself), [parse_options], [opt82_loop] and [answer_opts] more than the bytes they are for
    ([parse_options_fuel], [opt82_loop_fuel], [answer_opts_fuel]: more makes no difference).
    [fgets_all] gets the length of the file, as each line has a byte at least, and
    [chain_loop] one more than the length of the option.

    MD4, MD5, SHA-1, HMAC and DES are OpenSSL's: arguments, with hypotheses on the length of their
    results, that they are bytes, and that decryption inverts encryption.  The witnesses
    instantiate them.

    ** Not modelled

    - Locks and threads: a handler is one step, except where a theorem is about the order
      of smaller steps ([dpado_crossing_blocks], [pppoe_free_race]).
    - Log output; only that the PPPoE packet log reads inside of its packet is.
    - The kernel: sockets, netlink (libnetlink, ctrl/l2tp/netlink.c, vlan-mon, shaper),
      ppp units and channels, drivers; generated code (SNMP tables, dictionaries); Lua
      glue; the command line.
    - In IPCP and IPv6CP the packets written to the log, and the release of a layer; whether CCP is still
      negotiating is an argument.
    - Not yet: the message handlers of L2TP tunnels and sessions, SSTP, the sessions of IPoE,
      IPv6 (DHCPv6, router advertisements, pools), CCP with MPPE, the attributes of RADIUS replies, Accounting-On, Disconnect
      and CoA, the session life cycle, the event core (triton) and the configuration file. *)
From Stdlib Require Export ZArith Lia.
From stdpp Require Export base numbers option list.

Global Open Scope Z_scope.

(** ** Machine integers

    An unsigned w-bit C integer is a [Z] kept in [0, 2^w); the wrap-around of
    an assignment or of an arithmetic operation is written out with these. *)
Definition u8 (x : Z) : Z := x mod 2 ^ 8.
Definition u16 (x : Z) : Z := x mod 2 ^ 16.
Definition u32 (x : Z) : Z := x mod 2 ^ 32.
Definition u64 (x : Z) : Z := x mod 2 ^ 64.

(** A signed 32-bit value read out of an unsigned one (two's complement). *)
Definition s32 (x : Z) : Z := (x + 2 ^ 31) mod 2 ^ 32 - 2 ^ 31.

(** C's truth values. *)
Definition b2z (b : bool) : Z := if b then 1 else 0.

(** A pointer that is not null. *)
Definition isset {A} (o : option A) : bool := match o with Some _ => true | None => false end.

(** ** Bytes and network byte order *)
Definition byte_ok (b : Z) : Prop := 0 <= b < 256.
Definition bytes_ok (l : list Z) : Prop := Forall byte_ok l.

Fixpoint be_encode (n : nat) (v : Z) : list Z :=
  match n with
  | O => []
  | S n' => (v / 256 ^ Z.of_nat n') mod 256 :: be_encode n' v
  end.

Definition be_decode (l : list Z) : Z := foldl (fun acc b => acc * 256 + b) 0 l.

(** ** Results of code that parses untrusted input

    [Fail] is an error return of the C code; [Oob] is a read or a write outside
    of the object the C code points into.  A memory-safety theorem says that
    [Oob] is never the result. *)
Inductive res (A : Type) : Type :=
| Ok (a : A)
| Fail
| Oob.
Arguments Ok {A} a.
Arguments Fail {A}.
Arguments Oob {A}.

#[export] Instance res_ret : MRet res := @Ok.
#[export] Instance res_bind : MBind res := fun A B f m =>
  match m with Ok a => f a | Fail => Fail | Oob => Oob end.

Definition res_of_option {A} (o : option A) : res A :=
  match o with Some a => Ok a | None => Oob end.

(** [r] is not [Oob], and what it returns satisfies [P]. *)
Definition safe {A} (P : A -> Prop) (r : res A) : Prop :=
  match r with Ok a => P a | Fail => True | Oob => False end.

(** The part of [l] that starts at offset [off] and has [n] elements; [Oob]
    when it is not inside [l]. *)
Definition slice {A} (off n : nat) (l : list A) : res (list A) :=
  if decide (off + n <= length l)%nat then Ok (take n (drop off l)) else Oob.

(** Overwrite [length src] elements of [l] from offset [off] on. *)
Definition splice {A} (off : nat) (src l : list A) : res (list A) :=
  if decide (off + length src <= length l)%nat
  then Ok (take off l ++ src ++ drop (off + length src) l) else Oob.

(** ** Tactics *)
Create HintDb accel.

(** A closed list of bytes. *)
Ltac bytes_lit :=
  match goal with |- bytes_ok ?l => let l' := eval vm_compute in l in change (bytes_ok l') end;
  repeat (apply Forall_cons; split; [unfold byte_ok; lia|]); apply Forall_nil_2.

(** Boolean comparisons among the hypotheses as propositions. *)
Ltac zbool :=
  repeat match goal with
  | H : (_ =? _) = true |- _ => apply Z.eqb_eq in H
  | H : (_ =? _) = false |- _ => apply Z.eqb_neq in H
  | H : (_ <=? _) = true |- _ => apply Z.leb_le in H
  | H : (_ <=? _) = false |- _ => apply Z.leb_gt in H
  | H : (_ <? _) = true |- _ => apply Z.ltb_lt in H
  | H : (_ <? _) = false |- _ => apply Z.ltb_ge in H
  end.

(** The same through the boolean connectives; disjunctions are split. *)
Ltac bools :=
  repeat match goal with
  | H : negb _ = true |- _ => apply negb_true_iff in H
  | H : negb _ = false |- _ => apply negb_false_iff in H
  | H : (_ || _) = false |- _ => apply orb_false_iff in H as [? ?]
  | H : (_ && _) = true |- _ => apply andb_true_iff in H as [? ?]
  | H : (_ || _) = true |- _ => apply orb_true_iff in H as [H|H]
  | H : (_ && _) = false |- _ => apply andb_false_iff in H as [H|H]
  end; zbool.

(** Reduce a bind over [res] whose first part is a constructor. *)
Ltac res_simp := cbv [mbind res_bind mret res_ret] in *; cbn in *.

(** Split every match and conditional of the goal, close the arithmetic ones. *)
Ltac split_matches := repeat (case_match; try done; try lia).

(** ** Machine integers: lemmas *)
Lemma safe_bind {A B} (P : B -> Prop) (Q : A -> Prop) (m : res A) (f : A -> res B) :
  safe Q m -> (forall a, Q a -> safe P (f a)) -> safe P (m ≫= f).
Proof. destruct m; cbn; auto. Qed.

Lemma safe_weaken {A} (P Q : A -> Prop) (m : res A) :
  safe Q m -> (forall a, Q a -> P a) -> safe P m.
Proof. destruct m; cbn; auto. Qed.

(** Binds, for terms that [cbn] should not look into. *)
Lemma bind_ok {A B} (a : A) (f : A -> res B) : (Ok a ≫= f) = f a.
Proof. reflexivity. Qed.
Lemma bind_ret {A B} (a : A) (f : A -> res B) : (mret a ≫= f) = f a.
Proof. reflexivity. Qed.

(** Without the reductions that [injection] makes. *)
Lemma ok_inj {A} (a b : A) : Ok a = Ok b -> a = b.
Proof. now intros [=]. Qed.

Lemma u8_range x : 0 <= u8 x < 256.
Proof. apply Z.mod_pos_bound; lia. Qed.
Lemma u16_range x : 0 <= u16 x < 65536.
Proof. apply Z.mod_pos_bound; lia. Qed.
Lemma u32_range x : 0 <= u32 x < 4294967296.
Proof. apply Z.mod_pos_bound; lia. Qed.
Lemma u8_small x : 0 <= x < 256 -> u8 x = x.
Proof. apply Z.mod_small. Qed.
Lemma u16_small x : 0 <= x < 65536 -> u16 x = x.
Proof. apply Z.mod_small. Qed.
Lemma u32_small x : 0 <= x < 4294967296 -> u32 x = x.
Proof. apply Z.mod_small. Qed.
Lemma u64_small x : 0 <= x < 2 ^ 64 -> u64 x = x.
Proof. apply Z.mod_small. Qed.

(** ** Network byte order: lemmas *)
Lemma length_be_encode n v : length (be_encode n v) = n.
Proof. induction n; cbn; congruence. Qed.

Lemma be_encode_ok n v : bytes_ok (be_encode n v).
Proof.
  induction n; cbn; constructor; auto.
  apply Z.mod_pos_bound; lia.
Qed.

Lemma foldl_be_acc l a :
  foldl (fun acc b => acc * 256 + b) a l = a * 256 ^ Z.of_nat (length l) + be_decode l.
Proof.
  unfold be_decode. revert a. induction l as [|b l IH]; intros a; cbn [foldl length].
  - cbn. lia.
  - rewrite IH, (IH (0 * 256 + b)), Nat2Z.inj_succ, Z.pow_succ_r by lia. ring.
Qed.

Lemma be_decode_cons b l :
  be_decode (b :: l) = b * 256 ^ Z.of_nat (length l) + be_decode l.
Proof. unfold be_decode at 1. cbn [foldl]. rewrite foldl_be_acc. lia. Qed.

Lemma be_decode_range l :
  bytes_ok l -> 0 <= be_decode l < 256 ^ Z.of_nat (length l).
Proof.
  induction 1 as [|b l Hb Hl IH]; [cbn; lia|].
  rewrite be_decode_cons. cbn [length]. rewrite Nat2Z.inj_succ, Z.pow_succ_r by lia.
  unfold byte_ok in Hb. nia.
Qed.

Lemma be_decode_encode n v : be_decode (be_encode n v) = v mod 256 ^ Z.of_nat n.
Proof.
  induction n as [|n IH].
  - cbn. now rewrite Z.mod_1_r.
  - cbn [be_encode]. rewrite be_decode_cons, length_be_encode, IH.
    rewrite Nat2Z.inj_succ, Z.pow_succ_r by lia.
    rewrite (Z.mul_comm 256), Z.rem_mul_r by lia. lia.
Qed.

Lemma be_encode_add n v k :
  be_encode n (v + k * 256 ^ Z.of_nat n) = be_encode n v.
Proof.
  revert k. induction n as [|n IH]; intros k; [done|]. cbn [be_encode].
  rewrite Nat2Z.inj_succ, Z.pow_succ_r by lia.
  replace (v + k * (256 * 256 ^ Z.of_nat n))
    with (v + (k * 256) * 256 ^ Z.of_nat n) by ring.
  rewrite IH, Z.div_add by lia. f_equal.
  now rewrite Z.mod_add by lia.
Qed.

Lemma be_encode_decode l : bytes_ok l -> be_encode (length l) (be_decode l) = l.
Proof.
  induction 1 as [|b l Hb Hl IH]; [done|]. cbn [length be_encode].
  rewrite be_decode_cons. pose proof (be_decode_range l Hl). f_equal.
  - rewrite Z.div_add_l, Z.div_small by lia.
    rewrite Z.add_0_r. now apply Z.mod_small.
  - now rewrite Z.add_comm, be_encode_add.
Qed.

(** ** Slices *)
Lemma slice_ok {A} off n (l : list A) :
  (off + n <= length l)%nat -> slice off n l = Ok (take n (drop off l)).
Proof. intros. unfold slice. now rewrite decide_True. Qed.

Lemma slice_length {A} off n (l l' : list A) :
  slice off n l = Ok l' -> length l' = n.
Proof.
  unfold slice. case_decide; intros [= <-].
  rewrite length_take, length_drop. lia.
Qed.

Lemma splice_ok {A} off (src l : list A) :
  (off + length src <= length l)%nat ->
  splice off src l = Ok (take off l ++ src ++ drop (off + length src) l).
Proof. intros. unfold splice. now rewrite decide_True. Qed.

Lemma splice_length {A} off (src l l' : list A) :
  splice off src l = Ok l' -> length l' = length l.
Proof.
  unfold splice. case_decide; intros [= <-].
  rewrite !length_app, length_take, length_drop. lia.
Qed.

Lemma bytes_ok_take n l : bytes_ok l -> bytes_ok (take n l).
Proof. apply Forall_take. Qed.
Lemma bytes_ok_drop n l : bytes_ok l -> bytes_ok (drop n l).
Proof. apply Forall_drop. Qed.
Lemma bytes_ok_app l k : bytes_ok (l ++ k) <-> bytes_ok l /\ bytes_ok k.
Proof. apply Forall_app. Qed.

#[export] Hint Resolve be_encode_ok bytes_ok_take bytes_ok_drop u8_range : accel.

(** ** Reading and writing a part of a list *)
Lemma splice_lookup off (src buf : list Z) :
  (off + length src <= length buf)%nat ->
  exists buf', splice off src buf = Ok buf' /\ length buf' = length buf /\
    forall i, buf' !!! i = if decide (off <= i < off + length src)%nat then src !!! (i - off)%nat
                           else buf !!! i.
Proof.
  intros H. eexists. split; [apply decide_True; exact H|]. split.
  - rewrite !length_app, length_take, length_drop. lia.
  - intros i. rewrite !list_lookup_total_alt. case_decide as E.
    + rewrite lookup_app_r, lookup_app_l; rewrite ?length_take; [|lia..]. do 2 f_equal. lia.
    + destruct (decide (i < off)%nat).
      * rewrite lookup_app_l by (rewrite length_take; lia). now rewrite lookup_take_lt.
      * rewrite lookup_app_r by (rewrite length_take; lia).
        rewrite lookup_app_r by (rewrite length_take; lia). rewrite lookup_drop, length_take.
        do 2 f_equal. lia.
Qed.

Lemma slice_lookup off n (buf : list Z) :
  (off + n <= length buf)%nat ->
  exists b, slice off n buf = Ok b /\ length b = n /\
    forall i, (i < n)%nat -> b !!! i = buf !!! (off + i)%nat.
Proof.
  intros H. eexists. split; [apply decide_True; exact H|]. split.
  - rewrite length_take, length_drop. lia.
  - intros i Hi. rewrite !list_lookup_total_alt, lookup_take_lt, lookup_drop by done. done.
Qed.

Lemma bytes_ok_total l : bytes_ok l <-> forall i, (i < length l)%nat -> byte_ok (l !!! i).
Proof.
  unfold bytes_ok. rewrite Forall_lookup. split.
  - intros H i Hi. destruct (lookup_lt_is_Some_2 l i Hi) as [x Hx].
    rewrite (list_lookup_total_correct _ _ _ Hx). eauto.
  - intros H i x Hx. rewrite <- (list_lookup_total_correct _ _ _ Hx). apply H. eapply lookup_lt_Some; eauto.
Qed.

Lemma list_eq_total (l k : list Z) :
  length l = length k -> (forall i, (i < length l)%nat -> l !!! i = k !!! i) -> l = k.
Proof.
  intros L H. apply list_eq. intros i. destruct (decide (i < length l)%nat) as [Hi|Hi].
  - destruct (lookup_lt_is_Some_2 l i Hi) as [x Hx], (lookup_lt_is_Some_2 k i) as [y Hy]; [lia|].
    rewrite Hx, Hy. f_equal. rewrite <- (list_lookup_total_correct _ _ _ Hx),
      <- (list_lookup_total_correct _ _ _ Hy). auto.
  - rewrite !lookup_ge_None_2 by lia. done.
Qed.

Lemma slice_app_r {A} (pre l : list A) k n : slice (length pre + k) n (pre ++ l) = slice k n l.
Proof.
  unfold slice. rewrite length_app. repeat case_decide; try lia; [|done].
  now rewrite drop_app_add.
Qed.

Lemma splice_app_r {A} (pre l src : list A) k :
  splice (length pre + k) src (pre ++ l) = l' ← splice k src l; mret (pre ++ l').
Proof.
  unfold splice. rewrite length_app. repeat case_decide; try lia; [|done]. cbn.
  unfold mret, res_ret. f_equal. rewrite <- Nat.add_assoc, drop_app_add, take_app_add, <- app_assoc. done.
Qed.

Lemma slice_app_l {A} (l post : list A) : slice 0 (length l) (l ++ post) = Ok l.
Proof. unfold slice. rewrite decide_True by (rewrite length_app; lia). now rewrite drop_0, take_app_length. Qed.

Lemma slice_app_l' {A} (l post : list A) n : n = length l -> slice 0 n (l ++ post) = Ok l.
Proof. intros ->. apply slice_app_l. Qed.

Lemma slice_mid {A} (pre l post : list A) off n : off = length pre -> n = length l -> slice off n (pre ++ l ++ post) = Ok l.
Proof. intros -> ->. rewrite <- (Nat.add_0_r (length pre)), slice_app_r. apply slice_app_l. Qed.

Lemma slice_whole {A} (l : list A) : slice 0 (length l) l = Ok l.
Proof. unfold slice. now rewrite decide_True, drop_0, take_ge by lia. Qed.

Lemma splice_app {A} (old src post : list A) :
  length old = length src -> splice 0 src (old ++ post) = Ok (src ++ post).
Proof.
  intros L. unfold splice. rewrite decide_True by (rewrite length_app; lia).
  cbn. now rewrite <- L, drop_app_length.
Qed.

Lemma splice_after {A} (pre old src post : list A) k :
  k = length pre -> length old = length src ->
  splice k src (pre ++ old ++ post) = Ok (pre ++ src ++ post).
Proof.
  intros -> L. rewrite <- (Nat.add_0_r (length pre)), splice_app_r, splice_app by done. done.
Qed.

(** Inside of the first of two lists. *)
Lemma slice_front {A} off n (m l : list A) : (off + n <= length m)%nat -> slice off n (m ++ l) = slice off n m.
Proof.
  intros H. rewrite !slice_ok by (rewrite ?length_app; lia). f_equal. rewrite drop_app_le by lia.
  rewrite take_app_le; [done|]. rewrite length_drop. lia.
Qed.

(** What was written is read back, what was not is as before. *)
Lemma slice_splice_same {A} off (src l l' : list A) : splice off src l = Ok l' -> slice off (length src) l' = Ok src.
Proof.
  unfold splice. case_decide as H; [intros <-%ok_inj|done].
  assert (L : off = length (take off l)) by (rewrite length_take; lia).
  rewrite L at 1. rewrite <- (Nat.add_0_r (length _)), slice_app_r. apply slice_app_l.
Qed.

Lemma slice_splice_other {A} off (src l l' : list A) off' n :
  splice off src l = Ok l' -> (off' + n <= off \/ off + length src <= off')%nat -> slice off' n l' = slice off' n l.
Proof.
  unfold splice. case_decide as H; [intros <-%ok_inj|done]. intros [D|D].
  - rewrite slice_front by (rewrite length_take; lia). rewrite <- (take_drop off l) at 2. now rewrite slice_front by (rewrite length_take; lia).
  - assert (L1 : length (take off l ++ src) = (off + length src)%nat) by (rewrite length_app, length_take; lia).
    assert (L2 : length (take (off + length src) l) = (off + length src)%nat) by (rewrite length_take; lia).
    replace off' with ((off + length src) + (off' - (off + length src)))%nat by lia. set (k := (off' - _)%nat).
    pose proof (slice_app_r (take off l ++ src) (drop (off + length src) l) k n) as E1. rewrite L1, <- app_assoc in E1.
    pose proof (slice_app_r (take (off + length src) l) (drop (off + length src) l) k n) as E2. rewrite L2, take_drop in E2.
    congruence.
Qed.

Lemma splice_bytes off (src l l' : list Z) : splice off src l = Ok l' -> bytes_ok src -> bytes_ok l -> bytes_ok l'.
Proof.
  unfold splice. case_decide; [intros <-%ok_inj|done]. intros Hs Hl. rewrite !bytes_ok_app. split_and!; [now apply bytes_ok_take|done|now apply bytes_ok_drop].
Qed.

Lemma slice_safe {A} (P : list A -> Prop) off n (l : list A) :
  (off + n <= length l)%nat -> P (take n (drop off l)) -> safe P (slice off n l).
Proof. intros H HP. unfold slice. now rewrite decide_True. Qed.

(** Two writes in a row. *)
Lemma splice_seq {A} off (a d l : list A) :
  (off + length a + length d <= length l)%nat ->
  (l1 ← splice off a l; splice (off + length a) d l1) = splice off (a ++ d) l.
Proof.
  intros H. rewrite (splice_ok off a) by lia. rewrite (splice_ok off (a ++ d)) by (rewrite length_app; lia).
  cbn [mbind res_bind]. rewrite app_assoc.
  assert (E : length (take off l ++ a) = (off + length a)%nat) by (rewrite length_app, length_take; lia).
  rewrite <- E, <- (Nat.add_0_r (length (take off l ++ a))), splice_app_r.
  rewrite splice_ok by (rewrite length_drop, E; lia). cbn [mbind res_bind mret res_ret Nat.add].
  rewrite take_0, drop_drop, E, length_app, <- !app_assoc, Nat.add_assoc, Nat.add_0_r. reflexivity.
Qed.

Lemma lxor_byte a b : byte_ok a -> byte_ok b -> byte_ok (Z.lxor a b).
Proof.
  unfold byte_ok. intros Ha Hb. assert (0 <= Z.lxor a b) by (apply Z.lxor_nonneg; lia).
  split; [done|]. destruct (Z.eq_dec (Z.lxor a b) 0) as [->|Hne]; [lia|].
  change 256 with (2 ^ 8). apply Z.log2_lt_pow2; [lia|].
  eapply Z.le_lt_trans; [apply Z.log2_lxor; lia|].
  assert (forall x, 0 <= x < 256 -> Z.log2 x < 8) as L.
  { intros x Hx. destruct (Z.eq_dec x 0) as [->|]; [done|]. apply Z.log2_lt_pow2; lia. }
  apply Z.max_lub_lt; apply L; lia.
Qed.

Lemma lxor_cancel a b : Z.lxor (Z.lxor a b) b = a.
Proof. rewrite Z.lxor_assoc, Z.lxor_nilpotent. apply Z.lxor_0_r. Qed.
