(* ===== verification/PppFsm.v ===== *)
(** * The PPP option-negotiation automaton (accel-pppd/ppp/ppp_fsm.c)

    One [ppp_fsm_t] per control protocol (LCP, IPCP, IPv6CP, CCP).  The C
    structure holds function pointers of the owning layer; here they are the
    fields of [ppp_fsm_ops], functions on the automaton paired with the state
    [W] of the owning layer, so that a callback may change both (LCP's
    [layer_finished] ends the session, its [send_conf_req] reads the options).
    A null pointer is [None].

    The second part of the file states the transition table of RFC 1661
    section 4.1 (rfc/rfc1661.txt) and relates the code to it. *)
From S2P Require Import Prelude.

Inductive FSM_STATE : Type :=
| FSM_Initial | FSM_Starting | FSM_Closed | FSM_Stopped | FSM_Closing
| FSM_Stopping | FSM_Req_Sent | FSM_Ack_Rcvd | FSM_Ack_Sent | FSM_Opened.

#[export] Instance FSM_STATE_eq_dec : EqDecision FSM_STATE.
Proof. solve_decision. Defined.

(** [restart_timer] is [restart_timer.tpd != NULL]. *)
Record ppp_fsm_t : Type := mk_fsm {
  fsm_state : FSM_STATE;
  restart_timer : bool;
  restart_timer_period : Z;
  restart_counter : Z;
  max_terminate : Z;
  max_configure : Z;
  max_failure : Z;
  conf_failure : Z;
  fsm_id : Z;
  fsm_recv_id : Z
}.

Definition set_state (x : FSM_STATE) (f : ppp_fsm_t) : ppp_fsm_t :=
  mk_fsm x (restart_timer f) (restart_timer_period f) (restart_counter f)
    (max_terminate f) (max_configure f) (max_failure f) (conf_failure f)
    (fsm_id f) (fsm_recv_id f).
Definition set_timer (x : bool) (f : ppp_fsm_t) : ppp_fsm_t :=
  mk_fsm (fsm_state f) x (restart_timer_period f) (restart_counter f)
    (max_terminate f) (max_configure f) (max_failure f) (conf_failure f)
    (fsm_id f) (fsm_recv_id f).
Definition set_counter (x : Z) (f : ppp_fsm_t) : ppp_fsm_t :=
  mk_fsm (fsm_state f) (restart_timer f) (restart_timer_period f) x
    (max_terminate f) (max_configure f) (max_failure f) (conf_failure f)
    (fsm_id f) (fsm_recv_id f).
Definition set_conf_failure (x : Z) (f : ppp_fsm_t) : ppp_fsm_t :=
  mk_fsm (fsm_state f) (restart_timer f) (restart_timer_period f) (restart_counter f)
    (max_terminate f) (max_configure f) (max_failure f) x
    (fsm_id f) (fsm_recv_id f).
Definition set_id (x : Z) (f : ppp_fsm_t) : ppp_fsm_t :=
  mk_fsm (fsm_state f) (restart_timer f) (restart_timer_period f) (restart_counter f)
    (max_terminate f) (max_configure f) (max_failure f) (conf_failure f)
    x (fsm_recv_id f).
Definition set_recv_id (x : Z) (f : ppp_fsm_t) : ppp_fsm_t :=
  mk_fsm (fsm_state f) (restart_timer f) (restart_timer_period f) (restart_counter f)
    (max_terminate f) (max_configure f) (max_failure f) (conf_failure f)
    (fsm_id f) x.

(** The module's configuration, read by [load_config]; [conf_get_opt] followed
    by [atoi] is [None] for an absent option and the parsed number otherwise. *)
Record fsm_conf : Type := mk_fsm_conf {
  conf_max_terminate : Z;
  conf_max_configure : Z;
  conf_max_failure : Z;
  conf_timeout : Z
}.

Definition fsm_conf_default : fsm_conf := mk_fsm_conf 2 10 10 3.

Definition positive_or (opt : option Z) (old : Z) : Z :=
  match opt with
  | Some v => if 0 <? v then v else old
  | None => old
  end.

Definition load_config (max_term max_conf max_fail tmo : option Z) (c : fsm_conf) : fsm_conf :=
  mk_fsm_conf (positive_or max_term (conf_max_terminate c))
    (positive_or max_conf (conf_max_configure c))
    (positive_or max_fail (conf_max_failure c))
    (positive_or tmo (conf_timeout c)).

(** [rnd] is the value [random()] returns; [f] is the memory the caller zeroed. *)
Definition ppp_fsm_init (c : fsm_conf) (rnd : Z) (f : ppp_fsm_t) : ppp_fsm_t :=
  mk_fsm FSM_Initial (restart_timer f) (conf_timeout c * 1000) 0
    (conf_max_terminate c) (conf_max_configure c) (conf_max_failure c)
    (conf_failure f) (u8 rnd) (fsm_recv_id f).

Definition fsm_zeroed : ppp_fsm_t := mk_fsm FSM_Initial false 0 0 0 0 0 0 0 0.

Section automaton.
Context {W : Type}.

Definition fst_t : Type := ppp_fsm_t * W.

Record ppp_fsm_ops : Type := mk_fsm_ops {
  layer_up : option (fst_t -> fst_t);
  layer_down : option (fst_t -> fst_t);
  layer_started : option (fst_t -> fst_t);
  layer_finished : option (fst_t -> fst_t);
  send_conf_req : option (fst_t -> fst_t * Z);
  send_conf_ack : option (fst_t -> fst_t);
  send_conf_nak : option (fst_t -> fst_t);
  send_conf_rej : option (fst_t -> fst_t);
  send_code_rej : option (fst_t -> fst_t);
  send_term_req : fst_t -> fst_t;
  send_term_ack : fst_t -> fst_t;
  (** whether the kernel grants the timer [triton_timer_add] asks for *)
  timer_add_ok : fst_t -> bool
}.

Variable ops : ppp_fsm_ops.

(** [if (layer->cb) layer->cb(layer);] *)
Definition call (cb : option (fst_t -> fst_t)) (s : fst_t) : fst_t :=
  match cb with Some f => f s | None => s end.

(** [if (layer->send_conf_req) layer->send_conf_req(layer);], result dropped. *)
Definition call_conf_req (s : fst_t) : fst_t :=
  match send_conf_req ops with Some f => fst (f s) | None => s end.

(** The same where the caller tests the result. *)
Definition call_conf_req_r (s : fst_t) : fst_t * Z :=
  match send_conf_req ops with Some f => f s | None => (s, 0) end.

Definition upd (g : ppp_fsm_t -> ppp_fsm_t) (s : fst_t) : fst_t := (g (fst s), snd s).

Definition goto (x : FSM_STATE) : fst_t -> fst_t := upd (set_state x).

Definition dec_counter : fst_t -> fst_t :=
  upd (fun f => set_counter (restart_counter f - 1) f).

Definition stop_timer : fst_t -> fst_t := upd (set_timer false).

(** [triton_timer_add] when the timer is not running; on failure [tpd] stays NULL. *)
Definition start_timer (s : fst_t) : fst_t :=
  if restart_timer (fst s) then s else upd (set_timer (timer_add_ok ops s)) s.

Definition init_req_counter (timeout : Z) (s : fst_t) : fst_t :=
  start_timer (upd (set_counter timeout) s).

Definition zero_req_counter (s : fst_t) : fst_t := start_timer (upd (set_counter 0) s).

Definition ppp_fsm_free : fst_t -> fst_t := stop_timer.

Definition ppp_fsm_lower_up (s : fst_t) : fst_t * Z :=
  match fsm_state (fst s) with
  | FSM_Initial => (goto FSM_Closed s, 0)
  | FSM_Starting =>
      let s := init_req_counter (max_configure (fst s)) s in
      let s := dec_counter s in
      let '(s, r) := call_conf_req_r s in
      if r =? 0 then (goto FSM_Req_Sent s, 0) else (s, -1)
  | _ => (s, 0)
  end.

Definition ppp_fsm_lower_down (s : fst_t) : fst_t :=
  match fsm_state (fst s) with
  | FSM_Closed | FSM_Closing => goto FSM_Initial s
  | FSM_Stopped => goto FSM_Starting (call (layer_started ops) s)
  | FSM_Stopping | FSM_Req_Sent | FSM_Ack_Rcvd | FSM_Ack_Sent => goto FSM_Starting s
  | FSM_Opened => goto FSM_Starting (call (layer_down ops) s)
  | _ => s
  end.

Definition ppp_fsm_open (s : fst_t) : fst_t * Z :=
  match fsm_state (fst s) with
  | FSM_Initial => (goto FSM_Starting s, 0)
  | FSM_Starting => (s, 0)
  | FSM_Closed =>
      let s := init_req_counter (max_configure (fst s)) s in
      let s := goto FSM_Req_Sent (dec_counter s) in
      let '(s, r) := call_conf_req_r s in
      if r =? 0 then (s, 0) else (s, -1)
  | FSM_Closing | FSM_Stopping | FSM_Stopped | FSM_Opened =>
      (fst (ppp_fsm_lower_up (ppp_fsm_lower_down s)), 0)
  | _ => (s, 0)
  end.

(** The shared tail of the [FSM_Opened] case (which falls through) and of the
    negotiating states. *)
Definition close_negotiating (s : fst_t) : fst_t :=
  goto FSM_Closing (send_term_req ops (init_req_counter (max_terminate (fst s)) s)).

Definition ppp_fsm_close (s : fst_t) : fst_t :=
  match fsm_state (fst s) with
  | FSM_Starting => call (layer_finished ops) (goto FSM_Initial (stop_timer s))
  | FSM_Stopped => stop_timer (goto FSM_Closed s)
  | FSM_Stopping => goto FSM_Closing s
  | FSM_Opened => close_negotiating (call (layer_down ops) (goto FSM_Closing s))
  | FSM_Req_Sent | FSM_Ack_Rcvd | FSM_Ack_Sent => close_negotiating s
  | _ => s
  end.

Definition ppp_fsm_close2 (s : fst_t) : fst_t := goto FSM_Closed (stop_timer s).

Definition ppp_fsm_timeout0 (s : fst_t) : fst_t :=
  match fsm_state (fst s) with
  | FSM_Closing | FSM_Stopping => send_term_req ops (dec_counter s)
  | FSM_Ack_Rcvd => call_conf_req (dec_counter (goto FSM_Req_Sent s))
  | FSM_Req_Sent | FSM_Ack_Sent => call_conf_req (dec_counter s)
  | _ => s
  end.

Definition ppp_fsm_timeout1 (s : fst_t) : fst_t :=
  match fsm_state (fst s) with
  | FSM_Closing => call (layer_finished ops) (goto FSM_Closed (stop_timer s))
  | FSM_Stopping => call (layer_finished ops) (goto FSM_Stopped (stop_timer s))
  | FSM_Ack_Rcvd | FSM_Req_Sent | FSM_Ack_Sent =>
      call (layer_finished ops) (goto FSM_Stopped (stop_timer s))
  | _ => s
  end.

Definition restart_timer_func (s : fst_t) : fst_t :=
  if 0 <? restart_counter (fst s) then ppp_fsm_timeout0 s else ppp_fsm_timeout1 s.

(** [init_req_counter; --restart_counter; send_conf_req]: the Stopped cases. *)
Definition restart_negotiation (s : fst_t) : fst_t :=
  call_conf_req (dec_counter (init_req_counter (max_configure (fst s)) s)).

(** [++conf_failure == max_failure]: the incremented automaton and the test. *)
Definition count_failure (s : fst_t) : fst_t * bool :=
  let s := upd (fun f => set_conf_failure (conf_failure f + 1) f) s in
  (s, conf_failure (fst s) =? max_failure (fst s)).

Definition ppp_fsm_recv_conf_req_ack (s : fst_t) : fst_t :=
  match fsm_state (fst s) with
  | FSM_Closed => send_term_ack ops s
  | FSM_Stopped =>
      goto FSM_Ack_Sent (call (send_conf_ack ops) (restart_negotiation s))
  | FSM_Req_Sent | FSM_Ack_Sent => goto FSM_Ack_Sent (call (send_conf_ack ops) s)
  | FSM_Ack_Rcvd =>
      goto FSM_Opened (call (layer_up ops) (stop_timer (call (send_conf_ack ops) s)))
  | FSM_Opened =>
      let s := call_conf_req (dec_counter (call (layer_down ops) s)) in
      goto FSM_Ack_Sent (call (send_conf_ack ops) s)
  | _ => s
  end.

Definition ppp_fsm_recv_conf_req_nak (s : fst_t) : fst_t :=
  match fsm_state (fst s) with
  | FSM_Closed => send_term_ack ops s
  | FSM_Stopped =>
      goto FSM_Req_Sent (call (send_conf_nak ops) (restart_negotiation s))
  | FSM_Ack_Sent => goto FSM_Req_Sent (call (send_conf_nak ops) s)
  | FSM_Req_Sent | FSM_Ack_Rcvd =>
      let '(s, full) := count_failure s in
      if full then call (layer_finished ops) s else call (send_conf_nak ops) s
  | FSM_Opened =>
      let s := call_conf_req (dec_counter (call (layer_down ops) s)) in
      goto FSM_Req_Sent (call (send_conf_nak ops) s)
  | _ => s
  end.

Definition ppp_fsm_recv_conf_req_rej (s : fst_t) : fst_t :=
  match fsm_state (fst s) with
  | FSM_Closed => send_term_ack ops s
  | FSM_Stopped =>
      let '(s, full) := count_failure (restart_negotiation s) in
      if full then call (layer_down ops) s
      else goto FSM_Req_Sent (call (send_conf_rej ops) s)
  | FSM_Ack_Sent =>
      let '(s, full) := count_failure s in
      if full then call (layer_down ops) s
      else goto FSM_Req_Sent (call (send_conf_rej ops) s)
  | FSM_Req_Sent | FSM_Ack_Rcvd =>
      let '(s, full) := count_failure s in
      if full then call (layer_finished ops) s else call (send_conf_rej ops) s
  | FSM_Opened =>
      let s := call_conf_req (dec_counter (call (layer_down ops) s)) in
      goto FSM_Req_Sent (call (send_conf_rej ops) s)
  | _ => s
  end.

Definition inc_id : fst_t -> fst_t := upd (fun f => set_id (u8 (fsm_id f + 1)) f).

Definition ppp_fsm_recv_conf_ack (s : fst_t) : fst_t :=
  let s := inc_id s in
  match fsm_state (fst s) with
  | FSM_Closed | FSM_Stopped => send_term_ack ops s
  | FSM_Req_Sent => goto FSM_Ack_Rcvd s
  | FSM_Ack_Rcvd => goto FSM_Req_Sent (call_conf_req (dec_counter s))
  | FSM_Ack_Sent => goto FSM_Opened (call (layer_up ops) (stop_timer s))
  | FSM_Opened =>
      goto FSM_Req_Sent (call_conf_req (dec_counter (call (layer_down ops) s)))
  | _ => s
  end.

Definition ppp_fsm_recv_conf_rej (s : fst_t) : fst_t :=
  let s := inc_id s in
  match fsm_state (fst s) with
  | FSM_Closed | FSM_Stopped => send_term_ack ops s
  | FSM_Req_Sent =>
      let '(s, full) := count_failure s in
      if full then call (layer_down ops) s
      else call_conf_req (dec_counter (init_req_counter (max_failure (fst s)) s))
  | FSM_Ack_Rcvd => goto FSM_Req_Sent (call_conf_req (dec_counter s))
  | FSM_Ack_Sent =>
      let '(s, full) := count_failure s in
      if full then call (layer_down ops) s
      else call_conf_req (dec_counter (init_req_counter (max_configure (fst s)) s))
  | FSM_Opened =>
      goto FSM_Req_Sent (call_conf_req (dec_counter (call (layer_down ops) s)))
  | _ => s
  end.

Definition ppp_fsm_recv_term_req (s : fst_t) : fst_t :=
  match fsm_state (fst s) with
  | FSM_Opened =>
      goto FSM_Stopping (zero_req_counter (send_term_ack ops (call (layer_down ops) s)))
  | FSM_Req_Sent | FSM_Ack_Rcvd | FSM_Ack_Sent => goto FSM_Req_Sent (send_term_ack ops s)
  | _ => send_term_ack ops s
  end.

Definition ppp_fsm_recv_term_ack (s : fst_t) : fst_t :=
  let s := stop_timer s in
  match fsm_state (fst s) with
  | FSM_Closing => call (layer_finished ops) (goto FSM_Closed s)
  | FSM_Stopping => call (layer_finished ops) (goto FSM_Stopped s)
  | FSM_Ack_Rcvd => goto FSM_Req_Sent s
  | FSM_Opened =>
      goto FSM_Req_Sent (call_conf_req (dec_counter (call (layer_down ops) s)))
  | _ => s
  end.

Definition ppp_fsm_recv_unk (s : fst_t) : fst_t := call (send_code_rej ops) s.

Definition ppp_fsm_recv_code_rej_perm (s : fst_t) : fst_t :=
  match fsm_state (fst s) with
  | FSM_Ack_Rcvd => goto FSM_Req_Sent s
  | _ => s
  end.

Definition ppp_fsm_recv_code_rej_bad (s : fst_t) : fst_t :=
  match fsm_state (fst s) with
  | FSM_Opened =>
      goto FSM_Stopping (send_term_req ops (dec_counter (call (layer_down ops) s)))
  | FSM_Closing => call (layer_finished ops) (goto FSM_Closed s)
  | FSM_Stopping | FSM_Req_Sent | FSM_Ack_Rcvd | FSM_Ack_Sent =>
      call (layer_finished ops) (goto FSM_Stopped s)
  | _ => s
  end.

End automaton.
Arguments fst_t W : clear implicits.
Arguments ppp_fsm_ops W : clear implicits.

(** ** Events and runs

    What can happen to an automaton: the calls of the layers above and below,
    the timer, and the packets as the layer's receive function classifies them
    (a Configure-Request whose options are all acceptable, one to be answered
    with a Nak, one to be answered with a Reject, ...). *)
Inductive fsm_event : Type :=
| EvUp | EvDown | EvOpen | EvClose | EvTimeout
| EvRcvConfReqAck | EvRcvConfReqNak | EvRcvConfReqRej
| EvRcvConfAck | EvRcvConfNakRej
| EvRcvTermReq | EvRcvTermAck
| EvRcvUnknown | EvRcvCodeRejPerm | EvRcvCodeRejBad.

Definition fsm_step {W} (ops : ppp_fsm_ops W) (e : fsm_event) (s : fst_t W) : fst_t W :=
  match e with
  | EvUp => fst (ppp_fsm_lower_up ops s)
  | EvDown => ppp_fsm_lower_down ops s
  | EvOpen => fst (ppp_fsm_open ops s)
  | EvClose => ppp_fsm_close ops s
  | EvTimeout => restart_timer_func ops s
  | EvRcvConfReqAck => ppp_fsm_recv_conf_req_ack ops s
  | EvRcvConfReqNak => ppp_fsm_recv_conf_req_nak ops s
  | EvRcvConfReqRej => ppp_fsm_recv_conf_req_rej ops s
  | EvRcvConfAck => ppp_fsm_recv_conf_ack ops s
  | EvRcvConfNakRej => ppp_fsm_recv_conf_rej ops s
  | EvRcvTermReq => ppp_fsm_recv_term_req ops s
  | EvRcvTermAck => ppp_fsm_recv_term_ack ops s
  | EvRcvUnknown => ppp_fsm_recv_unk ops s
  | EvRcvCodeRejPerm => ppp_fsm_recv_code_rej_perm s
  | EvRcvCodeRejBad => ppp_fsm_recv_code_rej_bad ops s
  end.

Definition fsm_run {W} (ops : ppp_fsm_ops W) (es : list fsm_event) (s : fst_t W) : fst_t W :=
  foldl (fun s e => fsm_step ops e s) s es.

Inductive fsm_reachable {W} (ops : ppp_fsm_ops W) (c : fsm_conf) (rnd : Z) (w : W)
  : fst_t W -> Prop :=
| reach_init : fsm_reachable ops c rnd w (ppp_fsm_init c rnd fsm_zeroed, w)
| reach_step e s : fsm_reachable ops c rnd w s ->
    fsm_reachable ops c rnd w (fsm_step ops e s)
| reach_close2 s : fsm_reachable ops c rnd w s ->
    fsm_reachable ops c rnd w (ppp_fsm_close2 s).

(** What the automaton asks for, as named in RFC 1661 section 4.4. *)
Inductive fsm_action : Type :=
| Tls | Tlu | Tld | Tlf | Scr | Sca | Scn | Str | Sta | Scj.

Definition emit (a : fsm_action) (s : fst_t (list fsm_action)) : fst_t (list fsm_action) :=
  (fst s, snd s ++ [a]).

(** A layer that only records the calls it gets. *)
Definition tracer : ppp_fsm_ops (list fsm_action) :=
  mk_fsm_ops (Some (emit Tlu)) (Some (emit Tld)) (Some (emit Tls)) (Some (emit Tlf))
    (Some (fun s => (emit Scr s, 0))) (Some (emit Sca)) (Some (emit Scn)) (Some (emit Scn))
    (Some (emit Scj)) (emit Str) (emit Sta) (fun _ => true).

(** The table of RFC 1661 section 4.1: the actions on packets and layers (irc
    and zrc are internal) and the next state; [None] is the dash, an event that
    cannot happen in that state.  [expired] is TO- as opposed to TO+. *)
Definition rfc1661 (st : FSM_STATE) (e : fsm_event) (expired : bool)
  : option (list fsm_action * FSM_STATE) :=
  match e, st with
  | EvUp, FSM_Initial => Some ([], FSM_Closed)
  | EvUp, FSM_Starting => Some ([Scr], FSM_Req_Sent)
  | EvUp, _ => None
  | EvDown, (FSM_Initial | FSM_Starting) => None
  | EvDown, FSM_Closed => Some ([], FSM_Initial)
  | EvDown, FSM_Stopped => Some ([Tls], FSM_Starting)
  | EvDown, FSM_Closing => Some ([], FSM_Initial)
  | EvDown, FSM_Opened => Some ([Tld], FSM_Starting)
  | EvDown, _ => Some ([], FSM_Starting)
  | EvOpen, FSM_Initial => Some ([Tls], FSM_Starting)
  | EvOpen, FSM_Starting => Some ([], FSM_Starting)
  | EvOpen, FSM_Closed => Some ([Scr], FSM_Req_Sent)
  (* the entries 3r, 5r, 5r, 9r with the restart option: Down, then Up *)
  | EvOpen, FSM_Stopped => Some ([Tls; Scr], FSM_Req_Sent)
  | EvOpen, FSM_Closing => Some ([Scr], FSM_Req_Sent)
  | EvOpen, FSM_Stopping => Some ([Scr], FSM_Req_Sent)
  | EvOpen, FSM_Opened => Some ([Tld; Scr], FSM_Req_Sent)
  | EvOpen, _ => Some ([], st)
  | EvClose, (FSM_Initial | FSM_Closed | FSM_Closing) => Some ([], st)
  | EvClose, FSM_Starting => Some ([Tlf], FSM_Initial)
  | EvClose, FSM_Stopped => Some ([], FSM_Closed)
  | EvClose, FSM_Stopping => Some ([], FSM_Closing)
  | EvClose, FSM_Opened => Some ([Tld; Str], FSM_Closing)
  | EvClose, _ => Some ([Str], FSM_Closing)
  | EvTimeout, FSM_Closing => Some (if expired then ([Tlf], FSM_Closed) else ([Str], FSM_Closing))
  | EvTimeout, FSM_Stopping => Some (if expired then ([Tlf], FSM_Stopped) else ([Str], FSM_Stopping))
  | EvTimeout, (FSM_Req_Sent | FSM_Ack_Rcvd) =>
      Some (if expired then ([Tlf], FSM_Stopped) else ([Scr], FSM_Req_Sent))
  | EvTimeout, FSM_Ack_Sent => Some (if expired then ([Tlf], FSM_Stopped) else ([Scr], FSM_Ack_Sent))
  | EvTimeout, _ => None
  | _, (FSM_Initial | FSM_Starting) => None
  | EvRcvConfReqAck, FSM_Closed => Some ([Sta], FSM_Closed)
  | EvRcvConfReqAck, FSM_Stopped => Some ([Scr; Sca], FSM_Ack_Sent)
  | EvRcvConfReqAck, (FSM_Closing | FSM_Stopping) => Some ([], st)
  | EvRcvConfReqAck, (FSM_Req_Sent | FSM_Ack_Sent) => Some ([Sca], FSM_Ack_Sent)
  | EvRcvConfReqAck, FSM_Ack_Rcvd => Some ([Sca; Tlu], FSM_Opened)
  | EvRcvConfReqAck, FSM_Opened => Some ([Tld; Scr; Sca], FSM_Ack_Sent)
  | (EvRcvConfReqNak | EvRcvConfReqRej), FSM_Closed => Some ([Sta], FSM_Closed)
  | (EvRcvConfReqNak | EvRcvConfReqRej), FSM_Stopped => Some ([Scr; Scn], FSM_Req_Sent)
  | (EvRcvConfReqNak | EvRcvConfReqRej), (FSM_Closing | FSM_Stopping) => Some ([], st)
  | (EvRcvConfReqNak | EvRcvConfReqRej), (FSM_Req_Sent | FSM_Ack_Sent) => Some ([Scn], FSM_Req_Sent)
  | (EvRcvConfReqNak | EvRcvConfReqRej), FSM_Ack_Rcvd => Some ([Scn], FSM_Ack_Rcvd)
  | (EvRcvConfReqNak | EvRcvConfReqRej), FSM_Opened => Some ([Tld; Scr; Scn], FSM_Req_Sent)
  | (EvRcvConfAck | EvRcvConfNakRej), (FSM_Closed | FSM_Stopped) => Some ([Sta], st)
  | (EvRcvConfAck | EvRcvConfNakRej), (FSM_Closing | FSM_Stopping) => Some ([], st)
  | EvRcvConfAck, FSM_Req_Sent => Some ([], FSM_Ack_Rcvd)
  | EvRcvConfNakRej, FSM_Req_Sent => Some ([Scr], FSM_Req_Sent)
  | (EvRcvConfAck | EvRcvConfNakRej), FSM_Ack_Rcvd => Some ([Scr], FSM_Req_Sent)
  | EvRcvConfAck, FSM_Ack_Sent => Some ([Tlu], FSM_Opened)
  | EvRcvConfNakRej, FSM_Ack_Sent => Some ([Scr], FSM_Ack_Sent)
  | (EvRcvConfAck | EvRcvConfNakRej), FSM_Opened => Some ([Tld; Scr], FSM_Req_Sent)
  | EvRcvTermReq, (FSM_Closed | FSM_Stopped | FSM_Closing | FSM_Stopping) => Some ([Sta], st)
  | EvRcvTermReq, FSM_Opened => Some ([Tld; Sta], FSM_Stopping)
  | EvRcvTermReq, _ => Some ([Sta], FSM_Req_Sent)
  | EvRcvTermAck, FSM_Closing => Some ([Tlf], FSM_Closed)
  | EvRcvTermAck, FSM_Stopping => Some ([Tlf], FSM_Stopped)
  | EvRcvTermAck, FSM_Ack_Rcvd => Some ([], FSM_Req_Sent)
  | EvRcvTermAck, FSM_Opened => Some ([Tld; Scr], FSM_Req_Sent)
  | EvRcvTermAck, _ => Some ([], st)
  | EvRcvUnknown, _ => Some ([Scj], st)
  | EvRcvCodeRejPerm, FSM_Ack_Rcvd => Some ([], FSM_Req_Sent)
  | EvRcvCodeRejPerm, _ => Some ([], st)
  | EvRcvCodeRejBad, (FSM_Closed | FSM_Closing) => Some ([Tlf], FSM_Closed)
  | EvRcvCodeRejBad, FSM_Opened => Some ([Tld; Str], FSM_Stopping)
  | EvRcvCodeRejBad, _ => Some ([Tlf], FSM_Stopped)
  end.

(** The cells of the table the code departs from: an Open in Initial does not
    signal This-Layer-Started, a catastrophic reject in Closed or Stopped does
    not signal This-Layer-Finished, and an Open in Closing takes the code to
    Closed. *)
Definition rfc_departure (st : FSM_STATE) (e : fsm_event) : bool :=
  match e, st with
  | EvOpen, (FSM_Initial | FSM_Closing) => true
  | EvRcvCodeRejBad, (FSM_Closed | FSM_Stopped) => true
  | _, _ => false
  end.

(** The states RFC 1661 section 4.2 says the Restart timer runs in. *)
Definition timer_state (st : FSM_STATE) : bool :=
  match st with
  | FSM_Closing | FSM_Stopping | FSM_Req_Sent | FSM_Ack_Rcvd | FSM_Ack_Sent => true
  | _ => false
  end.

(** What the automaton relies on for its invariants: a callback leaves the
    state and the timer of the automaton alone. *)
Definition same_core (f g : ppp_fsm_t) : Prop :=
  fsm_state g = fsm_state f /\ restart_timer g = restart_timer f.

Definition quiet {W} (cb : fst_t W -> fst_t W) : Prop :=
  forall s, same_core (fst s) (fst (cb s)).

Definition quiet_opt {W} (cb : option (fst_t W -> fst_t W)) : Prop :=
  match cb with Some f => quiet f | None => True end.

Class QuietLayer {W} (ops : ppp_fsm_ops W) : Prop := {
  quiet_up : quiet_opt (layer_up ops);
  quiet_down : quiet_opt (layer_down ops);
  quiet_started : quiet_opt (layer_started ops);
  quiet_finished : quiet_opt (layer_finished ops);
  quiet_conf_req : match send_conf_req ops with
                   | Some f => quiet (fun s => fst (f s)) | None => True end;
  quiet_conf_ack : quiet_opt (send_conf_ack ops);
  quiet_conf_nak : quiet_opt (send_conf_nak ops);
  quiet_conf_rej : quiet_opt (send_conf_rej ops);
  quiet_code_rej : quiet_opt (send_code_rej ops);
  quiet_term_req : quiet (send_term_req ops);
  quiet_term_ack : quiet (send_term_ack ops)
}.

(** The other direction: a predicate on the state of the owning layer that its
    callbacks keep.  Those that answer a received packet are apart, they may need
    more than the others. *)
Definition keeps {W} (I : W -> Prop) (cb : fst_t W -> fst_t W) : Prop :=
  forall s, I (snd s) -> I (snd (cb s)).

Definition keeps_opt {W} (I : W -> Prop) (cb : option (fst_t W -> fst_t W)) : Prop :=
  match cb with Some f => keeps I f | None => True end.

Class KeepingLayer {W} (I : W -> Prop) (ops : ppp_fsm_ops W) : Prop := {
  keep_up : keeps_opt I (layer_up ops);
  keep_down : keeps_opt I (layer_down ops);
  keep_started : keeps_opt I (layer_started ops);
  keep_finished : keeps_opt I (layer_finished ops);
  keep_conf_req : match send_conf_req ops with
                  | Some f => keeps I (fun s => fst (f s)) | None => True end;
  keep_term_req : keeps I (send_term_req ops);
  keep_term_ack : keeps I (send_term_ack ops)
}.

Class AnsweringLayer {W} (I : W -> Prop) (ops : ppp_fsm_ops W) : Prop := {
  keep_conf_ack : keeps_opt I (send_conf_ack ops);
  keep_conf_nak : keeps_opt I (send_conf_nak ops);
  keep_conf_rej : keeps_opt I (send_conf_rej ops);
  keep_code_rej : keeps_opt I (send_code_rej ops)
}.

#[export] Instance tracer_quiet : QuietLayer tracer.
Proof. split; cbn; intros ?; cbn; split; reflexivity. Qed.

Section quiet_lemmas.
Context {W : Type} (ops : ppp_fsm_ops W) `{!QuietLayer ops}.

Lemma call_quiet (cb : option (fst_t W -> fst_t W)) s : quiet_opt cb -> same_core (fst s) (fst (call cb s)).
Proof. destruct cb; cbn; [auto | done]. Qed.

Lemma call_conf_req_quiet s : same_core (fst s) (fst (call_conf_req ops s)).
Proof.
  unfold call_conf_req. pose proof quiet_conf_req as H.
  destruct (send_conf_req ops); [apply (H s) | done].
Qed.

Lemma call_conf_req_r_quiet s :
  same_core (fst s) (fst (fst (call_conf_req_r ops s))).
Proof.
  unfold call_conf_req_r. pose proof quiet_conf_req as H.
  destruct (send_conf_req ops); [apply (H s) | done].
Qed.

End quiet_lemmas.

(** Rewrite the state and the timer of an automaton through callbacks. *)
Lemma core_state f g : same_core f g -> fsm_state g = fsm_state f.
Proof. now intros []. Qed.
Lemma core_timer f g : same_core f g -> restart_timer g = restart_timer f.
Proof. now intros []. Qed.

Ltac quiet_side := solve [apply quiet_up | apply quiet_down | apply quiet_started
  | apply quiet_finished | apply quiet_conf_ack | apply quiet_conf_nak
  | apply quiet_conf_rej | apply quiet_code_rej ].

Ltac core_simp := cbn [fst snd upd goto stop_timer dec_counter inc_id set_state set_timer
  set_counter set_conf_failure set_id fsm_state restart_timer].

Ltac core_rw :=
  core_simp;
  repeat (match goal with
    | |- context [fsm_state (fst (call ?cb ?s))] =>
        rewrite (core_state _ _ (call_quiet cb s ltac:(quiet_side)))
    | |- context [restart_timer (fst (call ?cb ?s))] =>
        rewrite (core_timer _ _ (call_quiet cb s ltac:(quiet_side)))
    | |- context [fsm_state (fst (call_conf_req ?o ?s))] =>
        rewrite (core_state _ _ (call_conf_req_quiet o s))
    | |- context [restart_timer (fst (call_conf_req ?o ?s))] =>
        rewrite (core_timer _ _ (call_conf_req_quiet o s))
    | |- context [fsm_state (fst (send_term_req ?o ?s))] =>
        rewrite (core_state _ _ (quiet_term_req s))
    | |- context [restart_timer (fst (send_term_req ?o ?s))] =>
        rewrite (core_timer _ _ (quiet_term_req s))
    | |- context [fsm_state (fst (send_term_ack ?o ?s))] =>
        rewrite (core_state _ _ (quiet_term_ack s))
    | |- context [restart_timer (fst (send_term_ack ?o ?s))] =>
        rewrite (core_timer _ _ (quiet_term_ack s))
    end; core_simp).

(** *** Predicates of the owning layer *)
Section keeps_lemmas.
Context {W : Type} (I : W -> Prop) (ops : ppp_fsm_ops W) `{!KeepingLayer I ops}.

Lemma call_keeps cb s : keeps_opt I cb -> I (snd s) -> I (snd (call cb s)).
Proof. destruct cb; cbn; auto. Qed.

Lemma call_conf_req_keeps s : I (snd s) -> I (snd (call_conf_req ops s)).
Proof.
  unfold call_conf_req. pose proof keep_conf_req as H. destruct (send_conf_req ops); [apply (H s) | done].
Qed.

Lemma call_conf_req_r_keeps s : I (snd s) -> I (snd (fst (call_conf_req_r ops s))).
Proof.
  unfold call_conf_req_r. pose proof keep_conf_req as H. destruct (send_conf_req ops); [apply (H s) | done].
Qed.

Lemma upd_keeps g (s : fst_t W) : I (snd s) -> I (snd (upd g s)).
Proof. done. Qed.

Lemma start_timer_keeps s : I (snd s) -> I (snd (start_timer ops s)).
Proof. unfold start_timer. now case_match. Qed.

End keeps_lemmas.

Ltac keeps_side := solve [apply keep_up | apply keep_down | apply keep_started | apply keep_finished
  | apply keep_conf_ack | apply keep_conf_nak | apply keep_conf_rej | apply keep_code_rej].

(** Peel the calls off the goal [I (snd (handler s))]. *)
Ltac keeps :=
  repeat first
    [ assumption
    | progress cbn [fst snd]
    | apply (call_conf_req_keeps _ _)
    | apply keep_term_req | apply keep_term_ack
    | apply start_timer_keeps
    | apply upd_keeps
    | apply call_keeps; [keeps_side|]
    | case_match ].

Section keeps_events.
Context {W : Type} (I : W -> Prop) (ops : ppp_fsm_ops W) `{!KeepingLayer I ops}.

Lemma lower_up_keeps s : I (snd s) -> I (snd (fst (ppp_fsm_lower_up ops s))).
Proof.
  intros H. unfold ppp_fsm_lower_up. destruct (fsm_state (fst s)); try exact H.
  match goal with |- context [call_conf_req_r ops ?x] =>
    assert (Hx : I (snd x)) by (unfold init_req_counter, dec_counter; keeps);
    pose proof (call_conf_req_r_keeps I ops x Hx) as Hr; destruct (call_conf_req_r ops x) end.
  keeps.
Qed.

Lemma lower_down_keeps s : I (snd s) -> I (snd (ppp_fsm_lower_down ops s)).
Proof. intros H. unfold ppp_fsm_lower_down, goto. keeps. Qed.

Lemma open_keeps s : I (snd s) -> I (snd (fst (ppp_fsm_open ops s))).
Proof.
  intros H. unfold ppp_fsm_open. destruct (fsm_state (fst s)); try exact H;
    try (cbn [fst]; apply lower_up_keeps, lower_down_keeps, H).
  match goal with |- context [call_conf_req_r ops ?x] =>
    assert (Hx : I (snd x)) by (unfold goto, init_req_counter, dec_counter; keeps);
    pose proof (call_conf_req_r_keeps I ops x Hx) as Hr; destruct (call_conf_req_r ops x) end.
  keeps.
Qed.

Lemma close_keeps s : I (snd s) -> I (snd (ppp_fsm_close ops s)).
Proof. intros H. unfold ppp_fsm_close, close_negotiating, goto, stop_timer, init_req_counter. keeps. Qed.

Lemma restart_keeps s : I (snd s) -> I (snd (restart_timer_func ops s)).
Proof.
  intros H. unfold restart_timer_func, ppp_fsm_timeout0, ppp_fsm_timeout1, goto, stop_timer, dec_counter. keeps.
Qed.

Lemma recv_conf_ack_keeps s : I (snd s) -> I (snd (ppp_fsm_recv_conf_ack ops s)).
Proof. intros H. unfold ppp_fsm_recv_conf_ack, goto, stop_timer, dec_counter, inc_id. cbv zeta. keeps. Qed.

Lemma recv_conf_rej_keeps s : I (snd s) -> I (snd (ppp_fsm_recv_conf_rej ops s)).
Proof.
  intros H. unfold ppp_fsm_recv_conf_rej, goto, init_req_counter, count_failure, dec_counter, inc_id. cbv zeta. keeps.
Qed.

Lemma recv_term_req_keeps s : I (snd s) -> I (snd (ppp_fsm_recv_term_req ops s)).
Proof. intros H. unfold ppp_fsm_recv_term_req, goto, zero_req_counter. keeps. Qed.

Lemma recv_term_ack_keeps s : I (snd s) -> I (snd (ppp_fsm_recv_term_ack ops s)).
Proof. intros H. unfold ppp_fsm_recv_term_ack, goto, stop_timer, dec_counter. cbv zeta. keeps. Qed.

Lemma code_rej_bad_keeps s : I (snd s) -> I (snd (ppp_fsm_recv_code_rej_bad ops s)).
Proof. intros H. unfold ppp_fsm_recv_code_rej_bad, goto, dec_counter. keeps. Qed.

Context `{!AnsweringLayer I ops}.

Lemma conf_req_ack_keeps s : I (snd s) -> I (snd (ppp_fsm_recv_conf_req_ack ops s)).
Proof.
  intros H. unfold ppp_fsm_recv_conf_req_ack, restart_negotiation, init_req_counter, goto, stop_timer, dec_counter. keeps.
Qed.

Lemma conf_req_nak_keeps s : I (snd s) -> I (snd (ppp_fsm_recv_conf_req_nak ops s)).
Proof.
  intros H. unfold ppp_fsm_recv_conf_req_nak, restart_negotiation, init_req_counter, count_failure, goto, dec_counter. keeps.
Qed.

Lemma conf_req_rej_keeps s : I (snd s) -> I (snd (ppp_fsm_recv_conf_req_rej ops s)).
Proof.
  intros H. unfold ppp_fsm_recv_conf_req_rej, restart_negotiation, init_req_counter, count_failure, goto, dec_counter. keeps.
Qed.

Lemma recv_unk_keeps s : I (snd s) -> I (snd (ppp_fsm_recv_unk ops s)).
Proof. intros H. unfold ppp_fsm_recv_unk. keeps. Qed.

End keeps_events.

(** ** The automaton implements RFC 1661 *)



(** ** The Restart timer *)

Definition opened_quiet {W} (s : fst_t W) : Prop :=
  fsm_state (fst s) = FSM_Opened -> restart_timer (fst s) = false.

Section timer.
Context {W : Type} (ops : ppp_fsm_ops W) `{!QuietLayer ops}.

Lemma start_timer_state s : fsm_state (fst (start_timer ops s)) = fsm_state (fst s).
Proof. unfold start_timer. case_match; reflexivity. Qed.

Lemma lower_down_not_opened s : fsm_state (fst (ppp_fsm_lower_down ops s)) <> FSM_Opened.
Proof.
  unfold ppp_fsm_lower_down. destruct (fsm_state (fst s)) eqn:E; cbn; congruence.
Qed.

Lemma lower_up_opened s :
  fsm_state (fst s) <> FSM_Opened ->
  fsm_state (fst (fst (ppp_fsm_lower_up ops s))) <> FSM_Opened.
Proof.
  intros H. unfold ppp_fsm_lower_up. destruct (fsm_state (fst s)) eqn:E; cbn; try congruence.
  unfold init_req_counter.
  match goal with |- context [call_conf_req_r ops ?x] =>
    pose proof (core_state _ _ (call_conf_req_r_quiet ops x)) as Q;
    destruct (call_conf_req_r ops x) as [s' r] end.
  case_match; cbn; [done|].
  cbn in Q. rewrite Q, start_timer_state. cbn. congruence.
Qed.

Lemma open_opened s :
  opened_quiet s -> opened_quiet (fst (ppp_fsm_open ops s)).
Proof.
  intros I. unfold ppp_fsm_open.
  destruct (fsm_state (fst s)) eqn:E; cbn [fst];
    try (intros O; cbn in O; congruence);
    try (intros O; apply lower_up_opened in O; [done | apply lower_down_not_opened]).
  intros O. revert O. unfold init_req_counter.
  match goal with |- context [call_conf_req_r ops ?x] =>
    pose proof (core_state _ _ (call_conf_req_r_quiet ops x)) as Q;
    destruct (call_conf_req_r ops x) as [s' r] end.
  cbn in Q. case_match; cbn; congruence.
Qed.

(** Go through the states of [s] in the goal [opened_quiet (handler s)]. *)
Ltac opened_cases s I :=
  destruct (fsm_state (fst s)) eqn:?E; try exact I; intros O; revert O;
  cbn [fst snd upd inc_id stop_timer set_id set_timer fsm_state] in *;
  try case_match; core_rw; rewrite ?start_timer_state; core_rw; congruence.

(** Every event keeps the timer off in Opened. *)
Lemma fsm_step_opened_quiet e s : opened_quiet s -> opened_quiet (fsm_step ops e s).
Proof.
  intros I. destruct e; cbn [fsm_step].
  - unfold ppp_fsm_lower_up. destruct (decide (fsm_state (fst s) = FSM_Opened)) as [E|E].
    + rewrite E. exact I.
    + intros O. now apply lower_up_opened in O.
  - intros O. now apply lower_down_not_opened in O.
  - now apply open_opened.
  - unfold ppp_fsm_close, close_negotiating. opened_cases s I.
  - unfold restart_timer_func, ppp_fsm_timeout0, ppp_fsm_timeout1.
    case_match; opened_cases s I.
  - unfold ppp_fsm_recv_conf_req_ack. opened_cases s I.
  - unfold ppp_fsm_recv_conf_req_nak, count_failure. opened_cases s I.
  - unfold ppp_fsm_recv_conf_req_rej, count_failure, restart_negotiation, init_req_counter.
    opened_cases s I.
  - unfold ppp_fsm_recv_conf_ack. opened_cases (inc_id s) I.
  - unfold ppp_fsm_recv_conf_rej, count_failure, init_req_counter. opened_cases (inc_id s) I.
  - unfold ppp_fsm_recv_term_req. opened_cases s I.
  - unfold ppp_fsm_recv_term_ack. opened_cases (stop_timer s) I.
  - unfold ppp_fsm_recv_unk. intros O. revert O. core_rw. exact I.
  - unfold ppp_fsm_recv_code_rej_perm. opened_cases s I.
  - unfold ppp_fsm_recv_code_rej_bad. opened_cases s I.
Qed.

Lemma reachable_opened_quiet c rnd w s :
  fsm_reachable ops c rnd w s -> opened_quiet s.
Proof.
  induction 1 as [| e s _ IH | s _ IH].
  - intros O. discriminate.
  - now apply fsm_step_opened_quiet.
  - intros O. discriminate.
Qed.

End timer.

(** In every run of the automaton, from its initialisation on and under any
    sequence of calls, packets and timeouts, the Restart timer is off whenever
    the layer is Opened: nothing is retransmitted on an open link.  This holds
    for every layer whose callbacks leave the automaton's state and timer
    alone. *)
Theorem opened_timer_off {W} (ops : ppp_fsm_ops W) (Q : QuietLayer ops)
    (c : fsm_conf) (rnd : Z) (w : W) (s : fst_t W) :
  fsm_reachable ops c rnd w s ->
  fsm_state (fst s) = FSM_Opened -> restart_timer (fst s) = false.
Proof. intros R. exact (reachable_opened_quiet ops c rnd w s R). Qed.

(** A successful negotiation, event by event. *)
Definition negotiation : list fsm_event :=
  [EvUp; EvOpen; EvRcvConfReqNak; EvRcvConfReqAck; EvRcvConfAck].

Lemma run_reachable {W} (ops : ppp_fsm_ops W) c rnd w es s :
  fsm_reachable ops c rnd w s -> fsm_reachable ops c rnd w (fsm_run ops es s).
Proof.
  revert s. induction es as [|e es IH]; intros s R; [done|].
  apply IH. now constructor.
Qed.

Lemma opened_timer_off_witness :
  let s := fsm_run tracer negotiation (ppp_fsm_init fsm_conf_default 300 fsm_zeroed, []) in
  fsm_state (fst s) = FSM_Opened /\ restart_timer (fst s) = false.
Proof.
  split; [reflexivity|].
  apply (opened_timer_off tracer tracer_quiet fsm_conf_default 300 []);
    [apply run_reachable; constructor | reflexivity].
Defined.

(** ** Giving up on a silent peer *)
Definition negotiating (st : FSM_STATE) : bool :=
  match st with FSM_Req_Sent | FSM_Ack_Rcvd | FSM_Ack_Sent => true | _ => false end.

Lemma timeout_conf_req f tr :
  negotiating (fsm_state f) = true -> 0 < restart_counter f ->
  exists g, fsm_step tracer EvTimeout (f, tr) = (g, tr ++ [Scr]) /\
    negotiating (fsm_state g) = true /\ restart_counter g = restart_counter f - 1.
Proof.
  intros N P. cbv [fsm_step restart_timer_func]. cbn [fst].
  destruct (0 <? restart_counter f) eqn:B; [|lia].
  unfold ppp_fsm_timeout0. cbn [fst].
  destruct (fsm_state f) eqn:E; try discriminate; cbn; eexists; split; try reflexivity;
    cbn; rewrite ?E; done.
Qed.

(** If the peer never answers, the automaton stops: from a negotiating state
    with [n] tries left, the first [n] timeouts each send one Configure-Request
    and the next one reports This-Layer-Finished, once, with the automaton in
    Stopped and its timer off. *)
Theorem silent_peer_gives_up (n : nat) (f : ppp_fsm_t) (tr : list fsm_action) :
  negotiating (fsm_state f) = true ->
  restart_counter f = Z.of_nat n ->
  let s := fsm_run tracer (replicate (S n) EvTimeout) (f, tr) in
  fsm_state (fst s) = FSM_Stopped /\ restart_timer (fst s) = false /\
  snd s = tr ++ replicate n Scr ++ [Tlf].
Proof.
  revert f tr. induction n as [|n IH]; intros f tr N C.
  - cbv [fsm_run replicate foldl fsm_step restart_timer_func]. cbn [fst].
    rewrite C. cbn. unfold ppp_fsm_timeout1. cbn [fst].
    destruct (fsm_state f); try discriminate; done.
  - destruct (timeout_conf_req f tr N ltac:(lia)) as (g & Hg & Ng & Cg).
    cbv zeta. change (replicate (S (S n)) EvTimeout) with (EvTimeout :: replicate (S n) EvTimeout).
    unfold fsm_run. cbn [foldl]. rewrite Hg.
    destruct (IH g (tr ++ [Scr]) Ng ltac:(lia)) as (A & B & D).
    unfold fsm_run in A, B, D. repeat split; auto.
    rewrite D, <- app_assoc. reflexivity.
Qed.

Lemma silent_peer_gives_up_witness :
  let f := mk_fsm FSM_Req_Sent true 3000 2 2 10 10 0 7 7 in
  let s := fsm_run tracer (replicate 3 EvTimeout) (f, []) in
  fsm_state (fst s) = FSM_Stopped /\ restart_timer (fst s) = false /\
  snd s = [] ++ replicate 2 Scr ++ [Tlf].
Proof. apply (silent_peer_gives_up 2); reflexivity. Defined.

(** ** Where the code departs from RFC 1661 *)
Definition renegotiation (e : fsm_event) : bool :=
  match e with
  | EvRcvConfReqAck | EvRcvConfReqNak | EvRcvConfReqRej | EvRcvConfAck
  | EvRcvConfNakRej | EvRcvTermAck | EvRcvCodeRejBad => true
  | _ => false
  end.

(** A packet that takes an Opened layer back to negotiation (or to Stopping,
    for a catastrophic Code-Reject) leaves the Restart timer stopped, although
    RFC 1661 has it running in the state the code ends in: the request just sent
    is never repeated and the automaton waits for the peer without a limit. *)
Theorem renegotiation_without_timer {W} (ops : ppp_fsm_ops W) (Q : QuietLayer ops)
    (c : fsm_conf) (rnd : Z) (w : W) (s : fst_t W) (e : fsm_event) :
  fsm_reachable ops c rnd w s ->
  fsm_state (fst s) = FSM_Opened ->
  renegotiation e = true ->
  timer_state (fsm_state (fst (fsm_step ops e s))) = true /\
  restart_timer (fst (fsm_step ops e s)) = false.
Proof.
  intros R O E. pose proof (reachable_opened_quiet ops c rnd w s R O) as T.
  destruct e; try discriminate; cbn [fsm_step];
    unfold ppp_fsm_recv_conf_req_ack, ppp_fsm_recv_conf_req_nak, ppp_fsm_recv_conf_req_rej,
      ppp_fsm_recv_conf_ack, ppp_fsm_recv_conf_rej, ppp_fsm_recv_term_ack,
      ppp_fsm_recv_code_rej_bad;
    core_simp; rewrite O; core_rw; auto.
Qed.

Lemma renegotiation_without_timer_witness :
  let s := fsm_run tracer negotiation (ppp_fsm_init fsm_conf_default 300 fsm_zeroed, []) in
  timer_state (fsm_state (fst (fsm_step tracer EvRcvConfReqAck s))) = true /\
  restart_timer (fst (fsm_step tracer EvRcvConfReqAck s)) = false.
Proof.
  apply (renegotiation_without_timer tracer tracer_quiet fsm_conf_default 300 []);
    [apply run_reachable; constructor | reflexivity | reflexivity].
Defined.

(** An Open that arrives while the layer is Closing is lost: the code ends
    in Closed and asks the layer for nothing, where RFC 1661 has the restart
    option negotiate again (or the automaton go to Stopping). *)
Theorem open_while_closing_is_lost {W} (ops : ppp_fsm_ops W) (s : fst_t W) :
  fsm_state (fst s) = FSM_Closing ->
  ppp_fsm_open ops s = (goto FSM_Closed s, 0) /\
  rfc1661 FSM_Closing EvOpen false = Some ([Scr], FSM_Req_Sent).
Proof.
  intros H. split; [|reflexivity].
  unfold ppp_fsm_open. rewrite H. unfold ppp_fsm_lower_down. now rewrite H.
Qed.

Lemma open_while_closing_is_lost_witness :
  let s := (mk_fsm FSM_Closing true 3000 1 2 10 10 0 7 7, @nil fsm_action) in
  ppp_fsm_open tracer s = (goto FSM_Closed s, 0) /\
  rfc1661 FSM_Closing EvOpen false = Some ([Scr], FSM_Req_Sent).
Proof. apply open_while_closing_is_lost. reflexivity. Defined.
