(* ===== verification/Bitpool.v ===== *)
(** * Fixed-size bit arrays (accel-pppd/extra/bitpool.h)

    The allocation maps of the IPv4 and IPv6 address pools: an array of 64-bit
    words ([bm_word_t] is [unsigned long]), bit set = unit in use.  A bitmap is
    a list of words in [0, 2^64); an access outside of the array is [Oob].

    [bm_find_free], the word-at-a-time search, is related to the obvious search
    bit by bit, [scan_free]. *)
From S2P Require Import Prelude.

Definition BM_WORD_BITS : Z := 64.
Definition BM_NWORDS (n : Z) : Z := (n + BM_WORD_BITS - 1) / BM_WORD_BITS.
Definition BM_INVALID : Z := 2 ^ 64 - 1.

(** [~x] on a 64-bit word. *)
Definition not64 (x : Z) : Z := Z.ldiff (Z.ones 64) x.

Definition bm_get (bm : list Z) (w : Z) : res Z := res_of_option (bm !! Z.to_nat w).
Definition bm_put (bm : list Z) (w x : Z) : res (list Z) :=
  if decide (Z.to_nat w < length bm)%nat then Ok (<[Z.to_nat w := x]> bm) else Oob.

Definition bm_set (bm : list Z) (i : Z) : res (list Z) :=
  w ← bm_get bm (i / BM_WORD_BITS);
  bm_put bm (i / BM_WORD_BITS) (Z.lor w (Z.shiftl 1 (i mod BM_WORD_BITS))).

Definition bm_clear (bm : list Z) (i : Z) : res (list Z) :=
  w ← bm_get bm (i / BM_WORD_BITS);
  bm_put bm (i / BM_WORD_BITS) (Z.land w (not64 (Z.shiftl 1 (i mod BM_WORD_BITS)))).

Definition bm_test (bm : list Z) (i : Z) : res bool :=
  w ← bm_get bm (i / BM_WORD_BITS);
  mret (Z.land (Z.shiftr w (i mod BM_WORD_BITS)) 1 =? 1).

(** [__builtin_ctzl] of a non-zero word: the position of its lowest set bit. *)
Definition ctzl (x : Z) : Z :=
  match List.find (fun i => Z.testbit x i) (seqZ 0 64) with Some i => i | None => 64 end.

(** The loop of [bm_find_free], [k] iterations left of [nwords + 1], [i] done. *)
Fixpoint find_free_loop (bm : list Z) (count nwords fw fb i : Z) (k : nat) : res Z :=
  match k with
  | O => Ok BM_INVALID
  | S k' =>
      let word := fw + i in
      let word := if nwords <=? word then word - nwords else word in
      w ← bm_get bm word;
      let inv := not64 w in
      let inv := if i =? 0 then Z.land inv (not64 (Z.shiftl 1 fb - 1))
                 else if i =? nwords then Z.land inv (Z.shiftl 1 fb - 1) else inv in
      let bit := word * BM_WORD_BITS + ctzl inv in
      if negb (inv =? 0) && (bit <? count) then Ok bit
      else find_free_loop bm count nwords fw fb (i + 1) k'
  end.

Definition bm_find_free (bm : list Z) (count from : Z) : res Z :=
  if count =? 0 then Ok BM_INVALID
  else
    let from := if count <=? from then 0 else from in
    let nwords := BM_NWORDS count in
    find_free_loop bm count nwords (from / BM_WORD_BITS) (from mod BM_WORD_BITS) 0
      (Z.to_nat (nwords + 1)).

(** ** Specification *)

(** Is unit [i] in use? *)
Definition bit (bm : list Z) (i : Z) : bool :=
  match bm !! Z.to_nat (i / 64) with Some w => Z.testbit w (i mod 64) | None => true end.

(** A map for [count] units: as many words as needed, each a 64-bit value, and
    the bits past [count] set, as the header asks of its users. *)
Record bm_wf (bm : list Z) (count : Z) : Prop := {
  bm_count : 0 <= count;
  bm_length : Z.of_nat (length bm) = BM_NWORDS count;
  bm_words : Forall (fun w => 0 <= w < 2 ^ 64) bm;
  bm_tail : forall i, count <= i < 64 * BM_NWORDS count -> bit bm i = true
}.

(** The search the comment describes: the first free unit at or after [from],
    then once more from 0. *)
Definition scan_free (bm : list Z) (count from : Z) : Z :=
  let from := if count <=? from then 0 else from in
  match List.find (fun i => negb (bit bm i)) (seqZ from (count - from) ++ seqZ 0 from) with
  | Some i => i
  | None => BM_INVALID
  end.

(** ** First match in an interval *)
Lemma seqZ_split m n k : 0 <= k <= n -> seqZ m n = seqZ m k ++ seqZ (m + k) (n - k).
Proof.
  intros H. replace n with (k + (n - k)) at 1 by lia. apply seqZ_app; lia.
Qed.

Lemma find_app {A} (P : A -> bool) l k :
  List.find P (l ++ k) = match List.find P l with Some x => Some x | None => List.find P k end.
Proof. induction l as [|a l IH]; cbn; [done|]. now destruct (P a). Qed.

Lemma find_seqZ_None P m n :
  List.find P (seqZ m n) = None <-> (forall y, m <= y < m + n -> P y = false).
Proof.
  split.
  - intros H y Hy. apply (List.find_none _ _ H). apply list_elem_of_In, elem_of_seqZ. lia.
  - intros H. destruct (List.find P (seqZ m n)) as [x|] eqn:E; [|done].
    apply List.find_some in E as [Hin HP].
    apply list_elem_of_In, elem_of_seqZ in Hin. rewrite H in HP; [done|lia].
Qed.

Lemma find_seqZ_first P m n x :
  m <= x < m + n -> P x = true -> (forall y, m <= y < x -> P y = false) ->
  List.find P (seqZ m n) = Some x.
Proof.
  intros Hx HP Hy.
  rewrite (seqZ_split m n (x - m)) by lia. rewrite find_app.
  rewrite (proj2 (find_seqZ_None P m (x - m))) by (intros; apply Hy; lia).
  replace (m + (x - m)) with x by lia.
  rewrite (seqZ_cons x) by lia. cbn. now rewrite HP.
Qed.

Lemma find_seqZ_Some P m n x :
  List.find P (seqZ m n) = Some x ->
  m <= x < m + n /\ P x = true /\ (forall y, m <= y < x -> P y = false).
Proof.
  intros H. pose proof (List.find_some _ _ H) as [Hin HP].
  apply list_elem_of_In, elem_of_seqZ in Hin.
  repeat split; try lia; auto. intros y Hy.
  destruct (P y) eqn:E; [|done].
  rewrite (seqZ_split m n (y - m)) in H by lia. rewrite find_app in H.
  destruct (List.find P (seqZ m (y - m))) as [z|] eqn:F.
  - injection H as ->. apply List.find_some in F as [F _].
    apply list_elem_of_In, elem_of_seqZ in F. lia.
  - replace (m + (y - m)) with y in H by lia.
    rewrite (seqZ_cons y) in H by lia. cbn in H. rewrite E in H.
    injection H as ->. lia.
Qed.

(** Two predicates that agree on an interval have the same first match there,
    up to a translation. *)
Lemma find_seqZ_shift P Q m d n :
  (forall y, m <= y < m + n -> P y = Q (y + d)) ->
  List.find Q (seqZ (m + d) n) = option_map (fun x => x + d) (List.find P (seqZ m n)).
Proof.
  intros H. destruct (List.find P (seqZ m n)) as [x|] eqn:E; cbn.
  - apply find_seqZ_Some in E as (Hx & HP & Hy). apply find_seqZ_first; [lia| |].
    + now rewrite <- H.
    + intros y Hyy. replace y with ((y - d) + d) by lia.
      rewrite <- H by lia. apply Hy. lia.
  - apply find_seqZ_None. intros y Hy. rewrite find_seqZ_None in E.
    replace y with ((y - d) + d) by lia. rewrite <- H by lia. apply E. lia.
Qed.

Lemma nwords_spec n : n <= 64 * BM_NWORDS n < n + 64.
Proof.
  unfold BM_NWORDS, BM_WORD_BITS. pose proof (Z.div_mod (n + 64 - 1) 64 ltac:(lia)).
  pose proof (Z.mod_pos_bound (n + 64 - 1) 64 ltac:(lia)). lia.
Qed.

(** ** One word *)
Lemma testbit_high x i : 0 <= x < 2 ^ 64 -> 64 <= i -> Z.testbit x i = false.
Proof.
  intros Hx Hi. rewrite <- (Z.mod_small x (2 ^ 64)) by lia.
  now apply Z.mod_pow2_bits_high.
Qed.

Lemma not64_spec x i :
  Z.testbit (not64 x) i = (0 <=? i) && (i <? 64) && negb (Z.testbit x i).
Proof.
  unfold not64. rewrite Z.ldiff_spec.
  destruct (Z.leb_spec 0 i).
  - rewrite Z.testbit_ones_nonneg by lia. reflexivity.
  - now rewrite !Z.testbit_neg_r by lia.
Qed.

Lemma low_mask_spec n i :
  0 <= n -> Z.testbit (Z.shiftl 1 n - 1) i = (0 <=? i) && (i <? n).
Proof.
  intros Hn. replace (Z.shiftl 1 n - 1) with (Z.ones n).
  - destruct (Z.leb_spec 0 i); cbn.
    + now rewrite Z.testbit_ones_nonneg by lia.
    + now rewrite Z.testbit_neg_r by lia.
  - unfold Z.ones. lia.
Qed.

Lemma word_range x : (forall i, 64 <= i -> Z.testbit x i = false) -> 0 <= x -> x < 2 ^ 64.
Proof.
  intros H Hx. destruct (Z.lt_ge_cases x (2 ^ 64)) as [|C]; [done|].
  assert (x <> 0) as Hn by lia.
  assert (64 <= Z.log2 x) as L by (apply Z.log2_le_pow2; lia).
  pose proof (Z.bit_log2 x ltac:(lia)) as B. rewrite H in B by lia. discriminate.
Qed.

Lemma not64_range x : 0 <= not64 x < 2 ^ 64.
Proof.
  assert (0 <= not64 x) by (unfold not64; apply Z.ldiff_nonneg; left; vm_compute; discriminate).
  split; [done|]. apply word_range; [|done].
  intros i Hi. rewrite not64_spec.
  destruct (i <? 64) eqn:E; [lia|]. now rewrite andb_false_r.
Qed.

Lemma ctzl_spec x :
  0 <= x < 2 ^ 64 -> x <> 0 ->
  List.find (fun i => Z.testbit x i) (seqZ 0 64) = Some (ctzl x).
Proof.
  intros Hx Hn. unfold ctzl.
  destruct (List.find _ _) eqn:E; [done|]. exfalso. apply Hn.
  rewrite find_seqZ_None in E. apply Z.bits_inj_0. intros i.
  destruct (Z.neg_nonneg_cases i).
  - now apply Z.testbit_neg_r.
  - destruct (Z.lt_ge_cases i 64); [apply E; lia | now apply testbit_high].
Qed.

Lemma bit_at bm w word i :
  0 <= word -> bm !! Z.to_nat word = Some w -> 0 <= i < 64 ->
  bit bm (i + word * 64) = Z.testbit w i.
Proof.
  intros Hw Hl Hi. unfold bit.
  rewrite Z.div_add, Z.div_small, Z.add_0_l, Hl by lia.
  now rewrite Z.mod_add, Z.mod_small by lia.
Qed.

(** A word masked to the positions [a, b) finds the first free unit of the
    corresponding interval. *)
Lemma word_scan bm w word inv a b :
  0 <= word -> bm !! Z.to_nat word = Some w -> 0 <= a -> a <= b -> b <= 64 ->
  (forall i, 0 <= i < 64 -> Z.testbit inv i = (a <=? i) && (i <? b) && negb (Z.testbit w i)) ->
  0 <= inv < 2 ^ 64 ->
  List.find (fun i => negb (bit bm i)) (seqZ (a + word * 64) (b - a))
  = if inv =? 0 then None else Some (word * 64 + ctzl inv).
Proof.
  intros Hw Hl Ha Hab Hb Hbits Hinv.
  rewrite (find_seqZ_shift (fun i => Z.testbit inv i) _ a (word * 64) (b - a)).
  2: { intros y Hy. rewrite Hbits by lia.
       rewrite (bit_at bm w word y) by (auto; lia).
       destruct (a <=? y) eqn:?; destruct (y <? b) eqn:?; cbn; lia || done. }
  destruct (inv =? 0) eqn:E.
  - apply Z.eqb_eq in E. subst inv.
    rewrite (proj2 (find_seqZ_None _ _ _)); [done|]. intros. now rewrite Z.bits_0.
  - apply Z.eqb_neq in E. pose proof (ctzl_spec inv Hinv E) as C.
    apply find_seqZ_Some in C as (Cr & Ct & Cf). cbn in Ct.
    assert (a <= ctzl inv < b) as R.
    { rewrite Hbits in Ct by lia. destruct (a <=? ctzl inv) eqn:?, (ctzl inv <? b) eqn:?; cbn in Ct;
        try discriminate; lia. }
    rewrite (find_seqZ_first _ a (b - a) (ctzl inv)); [cbn; f_equal; lia|lia|done|].
    intros y Hy. apply Cf. lia.
Qed.

(** ** The whole search *)

(** The units the loop has yet to look at when [k] iterations are left: the
    words from the current one up to the wrap and beyond, the start word split
    in two by [fb]. *)
Definition iter_find (bm : list Z) (nwords fw fb i : Z) : option Z :=
  let word := if nwords <=? fw + i then fw + i - nwords else fw + i in
  let lo := if i =? 0 then fb else 0 in
  let hi := if i =? 0 then 64 else if i =? nwords then fb else 64 in
  List.find (fun j => negb (bit bm j)) (seqZ (lo + word * 64) (hi - lo)).

Fixpoint iters_find (bm : list Z) (nwords fw fb i : Z) (k : nat) : option Z :=
  match k with
  | O => None
  | S k' => match iter_find bm nwords fw fb i with
            | Some x => Some x
            | None => iters_find bm nwords fw fb (i + 1) k'
            end
  end.

Lemma iter_mask_spec w nwords fb i j :
  0 <= fb < 64 -> 0 <= j < 64 ->
  let inv := not64 w in
  let inv := if i =? 0 then Z.land inv (not64 (Z.shiftl 1 fb - 1))
             else if i =? nwords then Z.land inv (Z.shiftl 1 fb - 1) else inv in
  let lo := if i =? 0 then fb else 0 in
  let hi := if i =? 0 then 64 else if i =? nwords then fb else 64 in
  Z.testbit inv j = (lo <=? j) && (j <? hi) && negb (Z.testbit w j).
Proof.
  intros Hfb Hj. cbv zeta.
  destruct (i =? 0) eqn:E0; [|destruct (i =? nwords) eqn:E1];
    rewrite ?Z.land_spec, !not64_spec, ?low_mask_spec by lia;
    destruct (Z.testbit w j); cbn; lia.
Qed.

Lemma iter_mask_range w nwords fb i :
  let inv := not64 w in
  let inv := if i =? 0 then Z.land inv (not64 (Z.shiftl 1 fb - 1))
             else if i =? nwords then Z.land inv (Z.shiftl 1 fb - 1) else inv in
  0 <= inv < 2 ^ 64.
Proof.
  cbv zeta. pose proof (not64_range w) as R.
  destruct (i =? 0); [|destruct (i =? nwords); [|done]];
    (split; [apply Z.land_nonneg; lia|]; apply word_range; [|apply Z.land_nonneg; lia];
     intros j Hj; rewrite Z.land_spec, (testbit_high (not64 w)) by lia; done).
Qed.

Section search.
Context (bm : list Z) (count : Z) (wf : bm_wf bm count) (Hc : 0 < count).

Lemma bm_find_lt l x :
  (forall y, y ∈ l -> 0 <= y < 64 * BM_NWORDS count) ->
  List.find (fun i => negb (bit bm i)) l = Some x -> x < count.
Proof.
  intros Hl H. apply List.find_some in H as [Hin Hb].
  apply list_elem_of_In in Hin. specialize (Hl x Hin).
  destruct (Z.lt_ge_cases x count) as [|C]; [done|].
  rewrite (bm_tail bm count wf) in Hb by lia. discriminate.
Qed.

Lemma find_free_loop_iters fw fb i k :
  0 <= fw < BM_NWORDS count -> 0 <= fb < 64 -> 0 <= i ->
  Z.of_nat k = BM_NWORDS count + 1 - i ->
  find_free_loop bm count (BM_NWORDS count) fw fb i k
  = Ok (match iters_find bm (BM_NWORDS count) fw fb i k with
        | Some x => x | None => BM_INVALID end).
Proof.
  intros Hfw Hfb. revert i. induction k as [|k IH]; intros i Hi Hk; [done|].
  cbn [find_free_loop iters_find].
  set (word := if BM_NWORDS count <=? fw + i then fw + i - BM_NWORDS count else fw + i).
  assert (0 <= word < BM_NWORDS count) as Hword
    by (subst word; destruct (BM_NWORDS count <=? fw + i) eqn:?; lia).
  assert (Z.to_nat word < length bm)%nat as Hlt 
    by (pose proof (bm_length bm count wf); lia).
  apply lookup_lt_is_Some in Hlt as [w Hw].
  unfold bm_get. rewrite Hw. cbn [res_of_option mbind res_bind].
  pose proof (iter_mask_spec w (BM_NWORDS count) fb i) as Hbits.
  pose proof (iter_mask_range w (BM_NWORDS count) fb i) as Hr.
  cbv zeta in Hbits, Hr.
  set (inv := if i =? 0 then _ else _) in *.
  assert (iter_find bm (BM_NWORDS count) fw fb i
          = if inv =? 0 then None else Some (word * 64 + ctzl inv)) as Hit.
  { unfold iter_find. fold word. apply (word_scan bm w);
      [lia | done | case_match; lia | repeat case_match; lia | repeat case_match; lia | | done].
    intros j Hj. now apply Hbits. }
  rewrite Hit. destruct (inv =? 0) eqn:E; cbn.
  - apply IH; lia.
  - assert (word * 64 + ctzl inv < count) as Hlt.
    { unfold iter_find in Hit. fold word in Hit. apply (bm_find_lt _ _) in Hit; [done|].
      intros y Hy. apply elem_of_seqZ in Hy. revert Hy. repeat case_match; lia. }
    unfold BM_WORD_BITS. destruct (word * 64 + ctzl inv <? count) eqn:?; [done|lia].
Qed.

(** What is left to look at in iteration [i >= 1]. *)
Definition rest_of (nwords fw fb i : Z) : list Z :=
  if fw + i <? nwords
  then seqZ ((fw + i) * 64) ((nwords - fw - i) * 64) ++ seqZ 0 (fw * 64 + fb)
  else seqZ ((fw + i - nwords) * 64) ((nwords - i) * 64 + fb).

Lemma iters_find_rest nwords fw fb i k :
  0 <= fw < nwords -> 0 <= fb < 64 -> 1 <= i -> Z.of_nat k = nwords + 1 - i ->
  iters_find bm nwords fw fb i k
  = List.find (fun j => negb (bit bm j)) (rest_of nwords fw fb i).
Proof.
  intros Hfw Hfb. revert i. induction k as [|k IH]; intros i Hi Hk.
  - unfold rest_of. destruct (fw + i <? nwords) eqn:E; [lia|].
    cbn. symmetry. apply find_seqZ_None. intros. lia.
  - cbn [iters_find]. rewrite IH by lia. unfold iter_find, rest_of.
    destruct (i =? 0) eqn:?; [lia|].
    destruct (fw + i <? nwords) eqn:E; destruct (nwords <=? fw + i) eqn:?; try lia.
    + destruct (i =? nwords) eqn:?; [lia|].
      rewrite (seqZ_split ((fw + i) * 64) ((nwords - fw - i) * 64) 64) by lia.
      rewrite <- app_assoc, find_app, Z.add_0_l, Z.sub_0_r.
      destruct (List.find _ (seqZ ((fw + i) * 64) 64)); [done|].
      destruct (fw + (i + 1) <? nwords) eqn:?.
      * do 3 f_equal; lia.
      * rewrite (seqZ_nil _ ((nwords - fw - i) * 64 - 64)) by lia. cbn [app].
        f_equal. f_equal; lia.
    + destruct (fw + (i + 1) <? nwords) eqn:?; [lia|]. rewrite Z.add_0_l, Z.sub_0_r.
      destruct (i =? nwords) eqn:?.
      * rewrite (seqZ_nil ((fw + (i + 1) - nwords) * 64)) by lia. cbn [List.find].
        replace ((nwords - i) * 64 + fb) with fb by lia. now destruct (List.find _ _).
      * rewrite (seqZ_split _ ((nwords - i) * 64 + fb) 64), find_app by lia.
        destruct (List.find _ (seqZ _ 64)); [done|]. f_equal. f_equal; lia.
Qed.

(** All the iterations together look at every unit once, in cyclic order. *)
Lemma iters_find_all from :
  0 <= from < count ->
  iters_find bm (BM_NWORDS count) (from / 64) (from mod 64) 0
    (Z.to_nat (BM_NWORDS count + 1))
  = List.find (fun j => negb (bit bm j))
      (seqZ from (64 * BM_NWORDS count - from) ++ seqZ 0 from).
Proof.
  intros Hf. pose proof (Z.div_mod from 64 ltac:(lia)) as D.
  pose proof (Z.mod_pos_bound from 64 ltac:(lia)) as M.
  pose proof (nwords_spec count) as Hn.
  set (fw := from / 64) in *. set (fb := from mod 64) in *. set (nw := BM_NWORDS count) in *.
  assert (0 <= fw) by (subst fw; apply Z.div_pos; lia).
  replace (Z.to_nat (nw + 1)) with (S (Z.to_nat nw)) by lia. cbn [iters_find].
  rewrite iters_find_rest by lia. unfold iter_find, rest_of.
  destruct (nw <=? fw + 0) eqn:?; [lia|]. cbn [Z.eqb].
  rewrite (seqZ_split from (64 * nw - from) (64 - fb)), <- app_assoc, find_app by lia.
  replace (fb + (fw + 0) * 64) with from by lia.
  destruct (List.find _ (seqZ from (64 - fb))); [done|].
  destruct (fw + (0 + 1) <? nw) eqn:?.
  - do 2 f_equal; f_equal; lia.
  - rewrite (seqZ_nil (from + (64 - fb))) by lia. cbn [app]. do 2 f_equal; lia.
Qed.

(** The bits past [count] are set, so looking at them changes nothing. *)
Lemma find_drop_tail from :
  0 <= from < count ->
  List.find (fun j => negb (bit bm j)) (seqZ from (64 * BM_NWORDS count - from) ++ seqZ 0 from)
  = List.find (fun j => negb (bit bm j)) (seqZ from (count - from) ++ seqZ 0 from).
Proof.
  intros Hf.
  pose proof (nwords_spec count) as Hn.
  rewrite (seqZ_split from (64 * BM_NWORDS count - from) (count - from)) by lia.
  rewrite !find_app. destruct (List.find _ (seqZ from (count - from))); [done|].
  rewrite (proj2 (find_seqZ_None _ _ _)); [done|].
  intros y Hy. now rewrite (bm_tail bm count wf) by lia.
Qed.

Lemma bm_find_free_scan from :
  0 <= from -> bm_find_free bm count from = Ok (scan_free bm count from).
Proof.
  intros Hf0. unfold bm_find_free, scan_free.
  destruct (count =? 0) eqn:E; [lia|].
  set (f := if count <=? from then 0 else from).
  assert (0 <= f < count) as Hf by (subst f; case_match; lia).
  pose proof (Z.mod_pos_bound f 64 ltac:(lia)). pose proof (nwords_spec count).
  unfold BM_WORD_BITS. rewrite find_free_loop_iters; try lia.
  - now rewrite iters_find_all, find_drop_tail by lia.
  - split; [apply Z.div_pos; lia|]. apply Z.div_lt_upper_bound; lia.
Qed.

End search.

(** C35. On a well-formed map, [bm_find_free] never reads outside of it and
    returns exactly what the bit-by-bit search returns: the first free unit at
    or after [from], else the first one from 0, else [BM_INVALID]. *)
Theorem bm_find_free_correct (bm : list Z) (count from : Z) :
  bm_wf bm count -> 0 <= from ->
  bm_find_free bm count from = Ok (scan_free bm count from).
Proof.
  intros wf Hf. destruct (Z.eq_dec count 0) as [->|Hn].
  - unfold bm_find_free, scan_free. rewrite (proj2 (Z.leb_le 0 from) Hf). reflexivity.
  - apply bm_find_free_scan; [done | pose proof (bm_count bm count wf); lia | done].
Qed.

(** Units 0 and 1 of three are in use, the search starts at unit 2. *)
Lemma bm_example_wf : bm_wf [Z.lor 3 (not64 7)] 3.
Proof.
  split; [lia | reflexivity | repeat constructor; vm_compute; discriminate |].
  intros i Hi. change (64 * BM_NWORDS 3) with 64 in Hi. unfold bit.
  rewrite Z.div_small, Z.mod_small by lia. 
  change (Z.testbit (Z.lor 3 (not64 7)) i = true).
  rewrite Z.lor_spec, not64_spec. change 7 with (Z.ones 3).
  rewrite Z.testbit_ones_nonneg by lia.
  destruct (i <? 3) eqn:?, (0 <=? i) eqn:?, (i <? 64) eqn:?; lia || apply orb_true_r.
Qed.

Lemma bm_find_free_correct_witness :
  bm_find_free [Z.lor 3 (not64 7)] 3 0 = Ok 2 /\
  bm_find_free [Z.lor 3 (not64 7)] 3 0 = Ok (scan_free [Z.lor 3 (not64 7)] 3 0).
Proof.
  split; [vm_compute; reflexivity|].
  apply bm_find_free_correct; [apply bm_example_wf | lia].
Defined.

(** ** Single-bit operations *)
Lemma bm_word_lookup bm count i :
  bm_wf bm count -> 0 <= i < 64 * BM_NWORDS count ->
  exists w, bm !! Z.to_nat (i / 64) = Some w /\ 0 <= w < 2 ^ 64.
Proof.
  intros wf Hi. pose proof (bm_length bm count wf) as L.
  assert (i / 64 < BM_NWORDS count) by (apply Z.div_lt_upper_bound; lia).
  assert (0 <= i / 64) by (apply Z.div_pos; lia).
  destruct (lookup_lt_is_Some_2 bm (Z.to_nat (i / 64))) as [w Hw]; [lia|].
  exists w. split; [done|]. exact (Forall_lookup_1 _ _ _ _ (bm_words bm count wf) Hw).
Qed.

(** Replacing the word of unit [i] by one that differs in that bit only. *)
Lemma bit_update bm i w w' b :
  0 <= i -> bm !! Z.to_nat (i / 64) = Some w ->
  (forall k, 0 <= k < 64 -> Z.testbit w' k = if k =? i mod 64 then b else Z.testbit w k) ->
  forall j, 0 <= j ->
  bit (<[Z.to_nat (i / 64) := w']> bm) j = if j =? i then b else bit bm j.
Proof.
  intros Hi Hw Hk j Hj. pose proof (lookup_lt_Some _ _ _ Hw) as Hlt. unfold bit.
  pose proof (Z.div_mod i 64 ltac:(lia)). pose proof (Z.div_mod j 64 ltac:(lia)).
  pose proof (Z.mod_pos_bound j 64 ltac:(lia)).
  assert (0 <= i / 64) by (apply Z.div_pos; lia). assert (0 <= j / 64) by (apply Z.div_pos; lia).
  destruct (decide (Z.to_nat (i / 64) = Z.to_nat (j / 64))) as [E|E].
  - rewrite <- E, list_lookup_insert_eq, Hk, Hw by lia.
    destruct (j =? i) eqn:?, (j mod 64 =? i mod 64) eqn:?; try done; lia.
  - rewrite list_lookup_insert_ne by done.
    destruct (j =? i) eqn:?; [|done]. assert (i = j) by lia. subst. done.
Qed.

Lemma bm_wf_update bm count i w w' b :
  bm_wf bm count -> 0 <= i < 64 * BM_NWORDS count -> (count <= i -> b = true) ->
  bm !! Z.to_nat (i / 64) = Some w -> 0 <= w' < 2 ^ 64 ->
  (forall k, 0 <= k < 64 -> Z.testbit w' k = if k =? i mod 64 then b else Z.testbit w k) ->
  bm_wf (<[Z.to_nat (i / 64) := w']> bm) count.
Proof.
  intros wf Hi Hb Hw Hw' Hk. pose proof (bm_count bm count wf). split.
  - done.
  - rewrite length_insert. apply (bm_length bm count wf).
  - apply Forall_insert; [apply (bm_words bm count wf) | done].
  - intros j Hj. rewrite (bit_update bm i w w' b) by (auto; lia).
    destruct (j =? i) eqn:?; [apply Hb; lia | now apply (bm_tail bm count wf)].
Qed.

Lemma set_word w k :
  0 <= w < 2 ^ 64 -> 0 <= k < 64 ->
  0 <= Z.lor w (Z.shiftl 1 k) < 2 ^ 64 /\
  (forall j, 0 <= j < 64 -> Z.testbit (Z.lor w (Z.shiftl 1 k)) j
                            = if j =? k then true else Z.testbit w j).
Proof.
  intros Hw Hk.
  assert (forall j, Z.testbit (Z.shiftl 1 k) j = (j =? k)) as S.
  { intros j. rewrite Z.shiftl_mul_pow2, Z.mul_1_l by lia.
    rewrite Z.pow2_bits_eqb by lia. apply Z.eqb_sym. }
  split.
  - assert (0 <= Z.lor w (Z.shiftl 1 k)) by (apply Z.lor_nonneg; split; [lia | apply Z.shiftl_nonneg; lia]).
    split; [done|]. apply word_range; [|done].
    intros j Hj. rewrite Z.lor_spec, S, testbit_high by lia. destruct (j =? k) eqn:?; [lia|done].
  - intros j Hj. rewrite Z.lor_spec, S. destruct (j =? k); [apply orb_true_r | apply orb_false_r].
Qed.

Lemma clear_word w k :
  0 <= w < 2 ^ 64 -> 0 <= k < 64 ->
  0 <= Z.land w (not64 (Z.shiftl 1 k)) < 2 ^ 64 /\
  (forall j, 0 <= j < 64 -> Z.testbit (Z.land w (not64 (Z.shiftl 1 k))) j
                            = if j =? k then false else Z.testbit w j).
Proof.
  intros Hw Hk.
  assert (forall j, Z.testbit (Z.shiftl 1 k) j = (j =? k)) as S.
  { intros j. rewrite Z.shiftl_mul_pow2, Z.mul_1_l by lia.
    rewrite Z.pow2_bits_eqb by lia. apply Z.eqb_sym. }
  split.
  - assert (0 <= Z.land w (not64 (Z.shiftl 1 k))) by (apply Z.land_nonneg; lia).
    split; [done|]. apply word_range; [|done].
    intros j Hj. now rewrite Z.land_spec, testbit_high by lia.
  - intros j Hj. rewrite Z.land_spec, not64_spec, S.
    destruct (0 <=? j) eqn:?, (j <? 64) eqn:?; try lia.
    destruct (j =? k); [apply andb_false_r | apply andb_true_r].
Qed.

Lemma bm_test_bit bm count i :
  bm_wf bm count -> 0 <= i < 64 * BM_NWORDS count -> bm_test bm i = Ok (bit bm i).
Proof.
  intros wf Hi. destruct (bm_word_lookup bm count i wf Hi) as (w & Hw & _).
  unfold bm_test, bm_get, bit, BM_WORD_BITS. rewrite Hw. cbn. f_equal.
  pose proof (Z.mod_pos_bound i 64 ltac:(lia)).
  change 1 with (Z.ones 1) at 1. rewrite Z.land_ones, Z.pow_1_r, <- Z.bit0_mod by lia.
  rewrite Z.shiftr_spec, Z.add_0_l by lia. now destruct (Z.testbit w (i mod 64)).
Qed.

Lemma bm_set_bit bm count i :
  bm_wf bm count -> 0 <= i < 64 * BM_NWORDS count ->
  exists bm', bm_set bm i = Ok bm' /\ bm_wf bm' count /\
    forall j, 0 <= j -> bit bm' j = if j =? i then true else bit bm j.
Proof.
  intros wf Hi. destruct (bm_word_lookup bm count i wf Hi) as (w & Hw & Hr).
  pose proof (Z.mod_pos_bound i 64 ltac:(lia)).
  destruct (set_word w (i mod 64) Hr ltac:(lia)) as [Hr' Hb].
  unfold bm_set, bm_get, bm_put, BM_WORD_BITS. rewrite Hw. cbn [res_of_option mbind res_bind].
  rewrite decide_True by (eapply lookup_lt_Some; eauto).
  eexists. split; [reflexivity|]. split.
  - apply (bm_wf_update bm count i w _ true); auto.
  - apply (bit_update bm i w); auto; lia.
Qed.

Lemma bm_clear_bit bm count i :
  bm_wf bm count -> 0 <= i < count ->
  exists bm', bm_clear bm i = Ok bm' /\ bm_wf bm' count /\
    forall j, 0 <= j -> bit bm' j = if j =? i then false else bit bm j.
Proof.
  intros wf Hi. pose proof (nwords_spec count).
  destruct (bm_word_lookup bm count i wf ltac:(lia)) as (w & Hw & Hr).
  pose proof (Z.mod_pos_bound i 64 ltac:(lia)).
  destruct (clear_word w (i mod 64) Hr ltac:(lia)) as [Hr' Hb].
  unfold bm_clear, bm_get, bm_put, BM_WORD_BITS. rewrite Hw. cbn [res_of_option mbind res_bind].
  rewrite decide_True by (eapply lookup_lt_Some; eauto).
  eexists. split; [reflexivity|]. split.
  - apply (bm_wf_update bm count i w _ false); auto; lia.
  - apply (bit_update bm i w); auto; lia.
Qed.
