(* ===== verification/CString.v ===== *)
(** * The C string functions that the option parsers use

    A NUL-terminated string is a [string]; a pointer into it is the rest of the
    string from there on.  Only what the modelled sources use of libc is here:
    [strstr], [strchr], [strchrnul], [atoi], [strtol], and the [%u] and literal
    directives of [sscanf]. *)
From Stdlib Require Export Ascii.
From stdpp Require Export strings.
From S2P Require Import Prelude.

Global Open Scope list_scope.
Global Open Scope Z_scope.

Definition prefix_of (p s : string) : bool := String.prefix p s.

(** What is left of [s] after its first [n] characters. *)
Fixpoint str_drop (n : nat) (s : string) : string :=
  match n, s with
  | O, _ => s
  | S n', String _ s' => str_drop n' s'
  | S _, EmptyString => EmptyString
  end.

(** The rest of [s] from the first occurrence of [p]. *)
Fixpoint strstr (s p : string) : option string :=
  if prefix_of p s then Some s
  else match s with EmptyString => None | String _ s' => strstr s' p end.

(** The rest of [s] from the first [c]. *)
Fixpoint strchr (s : string) (c : ascii) : option string :=
  match s with
  | EmptyString => None
  | String a s' => if Ascii.eqb a c then Some s else strchr s' c
  end.

(** [strndup(s, strchrnul(s, c) - s)]: [s] up to the first [c] or its end. *)
Fixpoint str_upto (s : string) (c : ascii) : string :=
  match s with
  | EmptyString => EmptyString
  | String a s' => if Ascii.eqb a c then EmptyString else String a (str_upto s' c)
  end.

Definition is_digit (a : ascii) : bool :=
  (48 <=? Z.of_nat (nat_of_ascii a)) && (Z.of_nat (nat_of_ascii a) <=? 57).
Definition is_space (a : ascii) : bool :=
  let n := Z.of_nat (nat_of_ascii a) in (n =? 32) || ((9 <=? n) && (n <=? 13)).

Fixpoint skip_space (s : string) : string :=
  match s with
  | String a s' => if is_space a then skip_space s' else s
  | EmptyString => s
  end.

(** The value of the digits [s] starts with, and the rest. *)
Fixpoint digits (s : string) (acc : Z) : Z * string :=
  match s with
  | String a s' =>
      if is_digit a then digits s' (acc * 10 + (Z.of_nat (nat_of_ascii a) - 48)) else (acc, s)
  | EmptyString => (acc, s)
  end.

Definition starts_digit (s : string) : bool :=
  match s with String a _ => is_digit a | EmptyString => false end.

(** White space, an optional sign, digits: [None] if there are no digits. *)
Definition scan_num (s : string) : option (bool * Z * string) :=
  let s := skip_space s in
  let '(neg, s) := match s with
                   | String a s' => if Ascii.eqb a "-" then (true, s')
                                    else if Ascii.eqb a "+" then (false, s') else (false, s)
                   | EmptyString => (false, s)
                   end in
  if starts_digit s then let '(v, s') := digits s 0 in Some (neg, v, s') else None.

(** [%u] of [sscanf]: [strtoul] at 64 bits, stored to an [unsigned int]. *)
Definition scan_u (s : string) : option (Z * string) :=
  match scan_num s with
  | Some (neg, v, s') =>
      Some (if 2 ^ 64 <=? v then u32 (2 ^ 64 - 1) else if neg then u32 (- v) else u32 v, s')
  | None => None
  end.

(** A literal character of a [sscanf] format. *)
Definition scan_lit (c : ascii) (s : string) : option string :=
  match s with
  | String a s' => if Ascii.eqb a c then Some s' else None
  | EmptyString => None
  end.

(** [sscanf(s, "%u.%u.%u.%u")]: how many numbers, which, and the rest. *)
Definition scan_quad (s : string) : option (Z * Z * Z * Z * string) :=
  '(f1, s) ← scan_u s; s ← scan_lit "." s;
  '(f2, s) ← scan_u s; s ← scan_lit "." s;
  '(f3, s) ← scan_u s; s ← scan_lit "." s;
  '(f4, s) ← scan_u s; Some (f1, f2, f3, f4, s).

(** [sscanf(s, "%u.%u.%u.%u<c>%u") == 5], with the five numbers. *)
Definition scan_quad_num (c : ascii) (s : string) : option (Z * Z * Z * Z * Z) :=
  '(f1, f2, f3, f4, s) ← scan_quad s;
  s ← scan_lit c s;
  '(f5, s) ← scan_u s; Some (f1, f2, f3, f4, f5).

(** [atoi]: [strtol] at 64 bits, cast to [int]. *)
Definition atoi (s : string) : Z :=
  match scan_num s with
  | Some (neg, v, _) =>
      s32 (if neg then Z.max (- 2 ^ 63) (- v) else Z.min (2 ^ 63 - 1) v)
  | None => 0
  end.

(** [strtol(s, &endptr, 10)], stored to an [int]. *)
Definition strtol_int (s : string) : Z * string :=
  match scan_num s with
  | Some (neg, v, s') => (s32 (if neg then Z.max (- 2 ^ 63) (- v) else Z.min (2 ^ 63 - 1) v), s')
  | None => (0, s)
  end.
