(* ===== verification/IpPool.v ===== *)
(** * The IPv4 address pool (accel-pppd/extra/ippool.c)

    A pool set is what one load of the [ip-pool] section builds: named pools and
    one default pool, each a list of ranges with a bitmap ([Bitpool]) of its
    address blocks, pools chained by [next] for overflow.

    C pointers become indices: a pool is [PDef] or [PNamed i], the [i]-th on
    [set->pools]; a range is an index into its pool's list; [next] is the index
    of a named pool (only [find_pool] sets it).  An [in_addr_t] is represented
    by its value in host order, so [htonl] and [ntohl] are identities.  The spin
    lock of a pool and the read-write lock of the set make each operation
    atomic; the operations are functions on the set. *)
From stdpp Require Import sets.
From S2P Require Import Prelude CString Bitpool.

Definition IPPOOL_MAX_BITS : Z := 2 ^ 24.

Inductive orphan_policy_t : Type := ORPHAN_KEEP | ORPHAN_DISCONNECT.

Record ip_range : Type := mk_range {
  r_start : Z;
  r_end : Z;
  r_step : Z;
  r_gw_offset : Z;
  r_peer_offset : Z;
  r_count : Z;
  r_cursor : Z;
  r_used : Z;
  r_bitmap : list Z
}.

Record ip_pool : Type := mk_pool {
  p_name : option string;
  p_next : option nat;
  p_ranges : list ip_range
}.

Record pool_set : Type := mk_set {
  s_pools : list ip_pool;
  s_def_pool : option ip_pool;
  s_gw_ip_address : Z;
  s_shuffle : bool;
  s_orphan_policy : orphan_policy_t
}.

Inductive pool_ref : Type := PDef | PNamed (i : nat).

#[export] Instance pool_ref_eq_dec : EqDecision pool_ref.
Proof. solve_decision. Defined.

(** [pool] and [range] of a lease are null together, once orphaned. *)
Record ip_lease : Type := mk_lease {
  l_range : option (pool_ref * nat);
  l_addr : Z;
  l_peer_addr : Z
}.

Definition with_bitmap (r : ip_range) (bm : list Z) (used cursor : Z) : ip_range :=
  mk_range (r_start r) (r_end r) (r_step r) (r_gw_offset r) (r_peer_offset r)
    (r_count r) cursor used bm.
Definition with_ranges (p : ip_pool) (rs : list ip_range) : ip_pool :=
  mk_pool (p_name p) (p_next p) rs.
Definition with_next (p : ip_pool) (n : option nat) : ip_pool :=
  mk_pool (p_name p) n (p_ranges p).
Definition with_pools (s : pool_set) (ps : list ip_pool) (d : option ip_pool) : pool_set :=
  mk_set ps d (s_gw_ip_address s) (s_shuffle s) (s_orphan_policy s).

Definition pool_at (s : pool_set) (p : pool_ref) : option ip_pool :=
  match p with PDef => s_def_pool s | PNamed i => s_pools s !! i end.

Definition set_pool (s : pool_set) (p : pool_ref) (x : ip_pool) : pool_set :=
  match p with
  | PDef => with_pools s (s_pools s) (Some x)
  | PNamed i => with_pools s (<[i := x]> (s_pools s)) (s_def_pool s)
  end.

Definition range_at (s : pool_set) (p : pool_ref) (i : nat) : option ip_range :=
  match pool_at s p with Some q => p_ranges q !! i | None => None end.

Definition set_range (s : pool_set) (p : pool_ref) (i : nat) (r : ip_range) : pool_set :=
  match pool_at s p with
  | Some q => set_pool s p (with_ranges q (<[i := r]> (p_ranges q)))
  | None => s
  end.

(** ** Range arithmetic *)

(** [x.x.x.x/mask] *)
Definition parse1 (str : string) : option (Z * Z) :=
  match scan_quad_num "/" str with
  | None => None
  | Some (f1, f2, f3, f4, m) =>
      if (255 <? f1) || (255 <? f2) || (255 <? f3) || (255 <? f4) then None
      else if (m =? 0) || (32 <? m) then None
      else
        let begin := Z.lor (Z.lor (Z.lor (Z.shiftl f1 24) (Z.shiftl f2 16)) (Z.shiftl f3 8)) f4 in
        let m := if m =? 32 then 0 else Z.shiftl 1 (32 - m) - 1 in
        Some (begin, Z.lor begin m)
  end.

(** [x.x.x.x-y] *)
Definition parse2 (str : string) : option (Z * Z) :=
  match scan_quad_num "-" str with
  | None => None
  | Some (f1, f2, f3, f4, f5) =>
      if (255 <? f1) || (255 <? f2) || (255 <? f3) || (255 <? f4) then None
      else if (f5 <? f4) || (255 <? f5) then None
      else
        let net := Z.lor (Z.lor (Z.shiftl f1 24) (Z.shiftl f2 16)) (Z.shiftl f3 8) in
        Some (Z.lor net f4, Z.lor net f5)
  end.

(** [peer_host] and [r_start] are 32-bit; the subtractions are guarded. *)
Definition range_addr_to_bit (r : ip_range) (peer_host : Z) : Z :=
  if peer_host <? u32 (r_peer_offset r) then BM_INVALID
  else
    let base := peer_host - r_peer_offset r in
    if base <? r_start r then BM_INVALID
    else
      let delta := base - r_start r in
      if negb (delta mod r_step r =? 0) then BM_INVALID
      else
        let b := delta / r_step r in
        if r_count r <=? b then BM_INVALID else b.

(** ** Construction of a pool set *)
Fixpoint find_name (name : string) (ps : list ip_pool) (i : nat) : option nat :=
  match ps with
  | [] => None
  | p :: ps' => if decide (p_name p = Some name) then Some i else find_name name ps' (S i)
  end.

(** [create_pool] for a named pool: appended to [set->pools]. *)
Definition create_pool (s : pool_set) (name : string) : pool_set * nat :=
  (with_pools s (s_pools s ++ [mk_pool (Some name) None []]) (s_def_pool s),
   length (s_pools s)).

Definition find_pool (s : pool_set) (name : string) (create : bool) : pool_set * option nat :=
  match find_name name (s_pools s) 0 with
  | Some i => (s, Some i)
  | None =>
      if create then let '(s', i) := create_pool s name in (s', Some i) else (s, None)
  end.

(** [add_range_to_pool]; the error returns leave the pool as it is. *)
Definition add_range_to_pool (p : ip_pool) (str : string) (step gw_offset peer_offset : Z) : ip_pool * Z :=
  let parsed := match parse1 str with Some x => Some x | None => parse2 str end in
  match parsed with
  | None => (p, -1)
  | Some (start, end_) =>
      if end_ <? start then (p, -1)
      else
        let count := (end_ - start + 1) / step in
        if count =? 0 then (p, 0)
        else if IPPOOL_MAX_BITS <? count then (p, -1)
        else
          (with_ranges p (p_ranges p ++
             [mk_range start end_ step gw_offset peer_offset count 0 0 []]), 0)
  end.

(** [for (b = count; b < nw * BM_WORD_BITS; b++) bm_set(bitmap, b);] *)
Definition set_tail (bm : list Z) (count n : Z) : res (list Z) :=
  foldl (fun acc b => m ← acc; bm_set m b) (Ok bm) (seqZ count (n - count)).

Definition finalize_range (gw : Z) (r : ip_range) : res ip_range :=
  let nw := BM_NWORDS (r_count r) in
  bm ← set_tail (replicate (Z.to_nat nw) 0) (r_count r) (nw * BM_WORD_BITS);
  if (r_step r =? 1) && (r_peer_offset r =? 0) && negb (gw =? 0)
     && (r_start r <=? gw) && (gw <=? r_end r) && (gw - r_start r <? r_count r)
  then
    used ← bm_test bm (gw - r_start r);
    if negb used then
      bm ← bm_set bm (gw - r_start r);
      mret (with_bitmap r bm (r_used r + 1) (r_cursor r))
    else mret (with_bitmap r bm (r_used r) (r_cursor r))
  else mret (with_bitmap r bm (r_used r) (r_cursor r)).

Fixpoint finalize_list (gw : Z) (rs : list ip_range) : res (list ip_range) :=
  match rs with
  | [] => mret []
  | r :: rs' => r' ← finalize_range gw r; rs'' ← finalize_list gw rs'; mret (r' :: rs'')
  end.

Definition finalize_ranges (s : pool_set) (p : ip_pool) : res ip_pool :=
  rs ← finalize_list (s_gw_ip_address s) (p_ranges p); mret (with_ranges p rs).

(** [parse_gw_ip_address]; [inet_addr] is libc's, the value in host order. *)
Definition parse_gw_ip_address (inet_addr : string -> Z) (val : option string) (out : Z) : Z :=
  match val with
  | None => out
  | Some v =>
      match strchr v "/" with
      | Some _ =>
          let addr := str_upto v "/" in
          if (15 <? Z.of_nat (String.length addr)) || (Z.of_nat (String.length addr) <? 7)
          then out else inet_addr addr
      | None => inet_addr v
      end
  end.

(** The text after [key] up to the next comma, when the line has [key]. *)
Definition line_opt (opt key : string) : option string :=
  match strstr opt key with
  | Some s => Some (str_upto (str_drop (String.length key) s) ",")
  | None => None
  end.

(** [strncmp(name, lit, n) == 0 && n == strlen(lit)] is equality of the text. *)
Definition parse_allocator (opt : string) : option (Z * Z * Z) :=
  match line_opt opt ",allocator=" with
  | None => Some (1, -1, 0)
  | Some a =>
      if String.eqb a "p2p" then Some (1, -1, 0)
      else if String.eqb a "net30" then Some (4, 1, 2)
      else None
  end.

(** [parse_line_opts]: the set (a pool may be created even when the line is
    then refused), and the pool with [step], [gw_offset] and [peer_offset]. *)
Definition parse_line_opts (s : pool_set) (opt : string)
  : pool_set * option (pool_ref * (Z * Z * Z)) :=
  let '(s, pool) :=
    match line_opt opt ",name=" with
    | Some name => let '(s, i) := find_pool s name true in (s, PNamed <$> i)
    | None =>
        match strchr opt "," with
        | Some rest =>
            match strchr (str_drop 1 rest) "=" with
            | None =>
                let '(s, i) := find_pool s (str_upto (str_drop 1 rest) ",") true in
                (s, PNamed <$> i)
            | Some _ => (s, if isset (s_def_pool s) then Some PDef else None)
            end
        | None => (s, if isset (s_def_pool s) then Some PDef else None)
        end
    end in
  match pool with
  | None => (s, None)
  | Some pool =>
      match parse_allocator opt with
      | None => (s, None)
      | Some alloc =>
          match line_opt opt ",next=" with
          | None => (s, Some (pool, alloc))
          | Some name =>
              let '(s, next) := find_pool s name true in
              match next, pool_at s pool with
              | Some n, Some q => (set_pool s pool (with_next q (Some n)), Some (pool, alloc))
              | _, _ => (s, Some (pool, alloc))
              end
          end
      end
  end.

(** One option of the [ip-pool] section. *)
Record conf_option_t : Type := mk_opt { o_name : string; o_val : option string; o_raw : string }.

(** The body of the option loop of [build_pool_set], in a build without RADIUS
    (whose only options, [vendor] and [attr], do not concern the set). *)
Definition build_opt (inet_addr : string -> Z) (s : pool_set) (opt : conf_option_t) : pool_set :=
  if String.eqb (o_name opt) "gw-ip-address" then
    mk_set (s_pools s) (s_def_pool s)
      (parse_gw_ip_address inet_addr (o_val opt) (s_gw_ip_address s))
      (s_shuffle s) (s_orphan_policy s)
  else if String.eqb (o_name opt) "shuffle" then
    mk_set (s_pools s) (s_def_pool s) (s_gw_ip_address s)
      (match o_val opt with Some v => negb (atoi v =? 0) | None => false end)
      (s_orphan_policy s)
  else if String.eqb (o_name opt) "reload-orphan" then
    mk_set (s_pools s) (s_def_pool s) (s_gw_ip_address s) (s_shuffle s)
      (match o_val opt with
       | Some v => if String.eqb v "disconnect" then ORPHAN_DISCONNECT else ORPHAN_KEEP
       | None => ORPHAN_KEEP
       end)
  else if String.eqb (o_name opt) "gw" then s
  else
    let range_str :=
      if String.eqb (o_name opt) "tunnel" then o_val opt
      else if negb (isset (o_val opt)) || isset (strchr (o_name opt) ",")
      then Some (o_name opt) else None in
    match range_str with
    | None => s
    | Some str =>
        match parse_line_opts s (o_raw opt) with
        | (s, None) => s
        | (s, Some (pool, (step, gw_offset, peer_offset))) =>
            match pool_at s pool with
            | Some q => set_pool s pool (fst (add_range_to_pool q str step gw_offset peer_offset))
            | None => s
            end
        end
    end.

Fixpoint finalize_pools (s : pool_set) (ps : list ip_pool) : res (list ip_pool) :=
  match ps with
  | [] => mret []
  | p :: ps' => p' ← finalize_ranges s p; ps'' ← finalize_pools s ps'; mret (p' :: ps'')
  end.

(** [build_pool_set]: the allocations succeed. *)
Definition build_pool_set (inet_addr : string -> Z) (sect : option (list conf_option_t))
  : res pool_set :=
  let empty := mk_set [] None 0 false ORPHAN_KEEP in
  match sect with
  | None => mret empty
  | Some opts =>
      let s := foldl (build_opt inet_addr) (with_pools empty [] (Some (mk_pool None None []))) opts in
      match s_def_pool s with
      | None => Oob
      | Some d =>
          d' ← finalize_ranges s d;
          ps' ← finalize_pools s (s_pools s);
          mret (with_pools s ps' (Some d'))
      end
  end.

(** ** Address lookup across a set *)
Fixpoint pool_contains_from (rs : list ip_range) (peer_host : Z) (i : nat) : option (nat * Z) :=
  match rs with
  | [] => None
  | r :: rs' =>
      let b := range_addr_to_bit r peer_host in
      if b =? BM_INVALID then pool_contains_from rs' peer_host (S i) else Some (i, b)
  end.

Definition pool_contains (p : ip_pool) (peer_host : Z) : option (nat * Z) :=
  pool_contains_from (p_ranges p) peer_host 0.

Fixpoint find_target_named (ps : list ip_pool) (peer_host : Z) (i : nat)
  : option (pool_ref * nat * Z) :=
  match ps with
  | [] => None
  | p :: ps' =>
      match pool_contains p peer_host with
      | Some (j, b) => Some (PNamed i, j, b)
      | None => find_target_named ps' peer_host (S i)
      end
  end.

Definition find_target (s : pool_set) (peer_host : Z) (pref_name : option string)
  : option (pool_ref * nat * Z) :=
  let pref :=
    match pref_name with
    | Some n =>
        match snd (find_pool s n false) with
        | Some i =>
            match s_pools s !! i with
            | Some p => match pool_contains p peer_host with
                        | Some (j, b) => Some (PNamed i, j, b) | None => None end
            | None => None
            end
        | None => None
        end
    | None => None
    end in
  match pref with
  | Some t => Some t
  | None =>
      let def := match s_def_pool s with
                 | Some p => match pool_contains p peer_host with
                             | Some (j, b) => Some (PDef, j, b) | None => None end
                 | None => None
                 end in
      match def with
      | Some t => Some t
      | None => find_target_named (s_pools s) peer_host 0
      end
  end.

(** ** get and put *)

(** The walk over the ranges of one pool: the first range with a free block. *)
Fixpoint alloc_ranges (shuffle : bool) (rnd : Z) (rs : list ip_range) (i : nat)
  : res (option (nat * Z) * list ip_range) :=
  match rs with
  | [] => mret (None, [])
  | r :: rs' =>
      let from := if shuffle then (if r_count r =? 0 then 0 else rnd mod r_count r)
                  else r_cursor r in
      b ← bm_find_free (r_bitmap r) (r_count r) from;
      if b =? BM_INVALID then
        a ← alloc_ranges shuffle rnd rs' (S i); mret (fst a, r :: snd a)
      else
        bm ← bm_set (r_bitmap r) b;
        mret (Some (i, b), with_bitmap r bm (r_used r + 1) (b + 1) :: rs')
  end.

Definition next_pool (s : pool_set) (p : pool_ref) : option pool_ref :=
  match pool_at s p with
  | Some q => match p_next q with Some i => Some (PNamed i) | None => None end
  | None => None
  end.

(** The [do ... while (pool && pool != start)] loop; [None] is out of fuel. *)
Fixpoint get_loop (fuel : nat) (s : pool_set) (rnd : Z) (start pool : pool_ref)
  : option (res (option (pool_ref * nat * Z) * pool_set)) :=
  match fuel with
  | O => None
  | S fuel' =>
      match pool_at s pool with
      | None => Some Oob
      | Some q =>
          match alloc_ranges (s_shuffle s) rnd (p_ranges q) 0 with
          | Ok (Some (j, b), rs) => Some (Ok (Some (pool, j, b), set_pool s pool (with_ranges q rs)))
          | Ok (None, _) =>
              match next_pool s pool with
              | Some pool' =>
                  if decide (pool' = start) then Some (Ok (None, s))
                  else get_loop fuel' s rnd start pool'
              | None => Some (Ok (None, s))
              end
          | Fail => Some Fail
          | Oob => Some Oob
          end
      end
  end.

(** [get_ip]: [pool_name] and [ppp] come from the session, [rnd] from
    [rand_u64], [mem] says whether the allocation of the lease succeeds. *)
Definition get_ip (fuel : nat) (s : pool_set) (pool_name : option string) (ppp : bool)
    (rnd : Z) (mem : bool) : option (res (option ip_lease * pool_set)) :=
  let pool := match pool_name with
              | Some n => match snd (find_pool s n false) with
                          | Some i => Some (PNamed i) | None => None end
              | None => match s_def_pool s with Some _ => Some PDef | None => None end
              end in
  match pool with
  | None => Some (Ok (None, s))
  | Some pool =>
      match get_loop fuel s (if s_shuffle s then rnd else 0) pool pool with
      | None => None
      | Some (Ok (Some (p, j, b), s')) =>
          match range_at s' p j with
          | None => Some Oob
          | Some r =>
              if mem then
                let base := u32 (r_start r + u32 b * r_step r) in
                Some (Ok (Some (mk_lease (Some (p, j))
                                  (if ppp then s_gw_ip_address s else 0)
                                  (u32 (base + r_peer_offset r))), s'))
              else
                Some (bm ← bm_clear (r_bitmap r) b;
                      mret (None, set_range s' p j
                                    (with_bitmap r bm (r_used r - 1) (r_cursor r))))
          end
      | Some (Ok (None, s')) => Some (Ok (None, s'))
      | Some Fail => Some Fail
      | Some Oob => Some Oob
      end
  end.

Definition put_ip (s : pool_set) (l : ip_lease) : res pool_set :=
  match l_range l with
  | None => mret s
  | Some (p, j) =>
      match range_at s p j with
      | None => Oob
      | Some r =>
          let b := range_addr_to_bit r (l_peer_addr l) in
          if b =? BM_INVALID then mret s
          else
            used ← bm_test (r_bitmap r) b;
            if (used : bool) then
              bm ← bm_clear (r_bitmap r) b;
              mret (set_range s p j (with_bitmap r bm (r_used r - 1) (r_cursor r)))
            else mret s
      end
  end.

(** ** Reload *)

(** Mark the block as used if it is not. *)
Definition reserve (s : pool_set) (p : pool_ref) (j : nat) (b : Z) : res pool_set :=
  match range_at s p j with
  | None => Oob
  | Some r =>
      used ← bm_test (r_bitmap r) b;
      if (used : bool) then mret s
      else
        bm ← bm_set (r_bitmap r) b;
        mret (set_range s p j (with_bitmap r bm (r_used r + 1) (r_cursor r)))
  end.

(** What reload looks at in a session: its address item, with the owner. *)
Inductive session_ipv4 : Type :=
| NoIpv4
| PoolIpv4 (l : ip_lease) (pool_name : option string)
| ForeignIpv4 (peer_addr : Z).

(** [reconcile_v4]: the new set, the session's item and whether the session is
    put on the list of sessions to disconnect ([mem]: the node's allocation). *)
Definition reconcile_v4 (s : pool_set) (ses : session_ipv4) (policy : orphan_policy_t)
    (mem : bool) : res (pool_set * session_ipv4 * bool) :=
  match ses with
  | NoIpv4 => mret (s, ses, false)
  | PoolIpv4 l n =>
      match find_target s (l_peer_addr l) n with
      | Some (p, j, b) =>
          s' ← reserve s p j b;
          mret (s', PoolIpv4 (mk_lease (Some (p, j)) (l_addr l) (l_peer_addr l)) n, false)
      | None =>
          mret (s, PoolIpv4 (mk_lease None (l_addr l) (l_peer_addr l)) n,
                match policy with ORPHAN_DISCONNECT => mem | ORPHAN_KEEP => false end)
      end
  | ForeignIpv4 a =>
      match find_target s a None with
      | Some (p, j, b) => s' ← reserve s p j b; mret (s', ses, false)
      | None => mret (s, ses, false)
      end
  end.

(** The walk of [load_config] over [ses_list]. *)
Fixpoint reconcile_all (s : pool_set) (sess : list session_ipv4) (policy : orphan_policy_t)
    (mem : bool) : res (pool_set * list session_ipv4 * list bool) :=
  match sess with
  | [] => mret (s, [], [])
  | x :: xs =>
      a ← reconcile_v4 s x policy mem;
      let '(s1, x', d) := a in
      b ← reconcile_all s1 xs policy mem;
      let '(s2, xs', ds) := b in
      mret (s2, x' :: xs', d :: ds)
  end.

(** [load_config]: the set that becomes [cur_set], the sessions with their
    leases moved to it, and which sessions are to be disconnected. *)
Definition load_config (inet_addr : string -> Z) (sect : option (list conf_option_t))
    (sess : list session_ipv4) (mem : bool) : res (pool_set * list session_ipv4 * list bool) :=
  new_set ← build_pool_set inet_addr sect;
  reconcile_all new_set sess (s_orphan_policy new_set) mem.

(** [session_restore] after a restart: [mem] is the allocation of the item. *)
Definition session_restore (s : pool_set) (addr peer_addr : Z) (mem : bool)
  : res (pool_set * session_ipv4) :=
  match find_target s peer_addr None with
  | Some (p, j, b) =>
      if mem then
        s' ← reserve s p j b;
        mret (s', PoolIpv4 (mk_lease (Some (p, j)) addr peer_addr) None)
      else mret (s, NoIpv4)
  | None => mret (s, if mem then ForeignIpv4 peer_addr else NoIpv4)
  end.

(** ** Invariant and vocabulary of the theorems *)

(** The number of units in use. *)
Definition used_count (bm : list Z) (n : Z) : Z :=
  Z.of_nat (length (filter (fun i => bit bm i = true) (seqZ 0 n))).

Record range_wf (r : ip_range) : Prop := {
  rw_bm : bm_wf (r_bitmap r) (r_count r);
  rw_count : 0 < r_count r <= IPPOOL_MAX_BITS;
  rw_used : r_used r = used_count (r_bitmap r) (r_count r);
  rw_cursor : 0 <= r_cursor r <= r_count r;
  rw_peer : 0 <= r_peer_offset r < r_step r;
  rw_start : 0 <= r_start r;
  rw_span : r_start r + r_count r * r_step r <= r_end r + 1;
  rw_end : r_end r < 2 ^ 32
}.

Record set_wf (s : pool_set) : Prop := {
  sw_ranges : forall p j r, range_at s p j = Some r -> range_wf r;
  sw_next : forall p q i, pool_at s p = Some q -> p_next q = Some i ->
            (i < length (s_pools s))%nat
}.

(** [r'] is [r] but for the bit of unit [b] (and the counters). *)
Record unit_updated (r : ip_range) (b : Z) (v : bool) (r' : ip_range) : Prop := {
  uu_start : r_start r' = r_start r;
  uu_end : r_end r' = r_end r;
  uu_step : r_step r' = r_step r;
  uu_peer : r_peer_offset r' = r_peer_offset r;
  uu_count : r_count r' = r_count r;
  uu_bit : forall i, 0 <= i -> bit (r_bitmap r') i = if i =? b then v else bit (r_bitmap r) i
}.

Definition range_full (r : ip_range) : Prop :=
  forall i, 0 <= i < r_count r -> bit (r_bitmap r) i = true.
Definition pool_full (s : pool_set) (p : pool_ref) : Prop :=
  exists q, pool_at s p = Some q /\ Forall range_full (p_ranges q).

(** Unit [b] of range [j] of pool [p]: is it marked as used? *)
Definition unit_used (s : pool_set) (u : pool_ref * nat * Z) : bool :=
  let '(p, j, b) := u in
  match range_at s p j with Some r => bit (r_bitmap r) b | None => false end.

(** The unit a lease stands for. *)
Definition lease_unit (s : pool_set) (l : ip_lease) : option (pool_ref * nat * Z) :=
  match l_range l with
  | Some (p, j) =>
      match range_at s p j with
      | Some r => let b := range_addr_to_bit r (l_peer_addr l) in
                  if b =? BM_INVALID then None else Some (p, j, b)
      | None => None
      end
  | None => None
  end.

(** The [n]-th pool of the overflow chain. *)
Fixpoint follow (s : pool_set) (p : pool_ref) (n : nat) : option pool_ref :=
  match n with
  | O => Some p
  | S n' => match next_pool s p with Some p' => follow s p' n' | None => None end
  end.

(** The chain of [start] ends, or comes back to [start], after [n] pools. *)
Definition chain_closes (s : pool_set) (start : pool_ref) (n : nat) : Prop :=
  follow s start (S n) = None \/ follow s start (S n) = Some start.

(** Two sets with the same pools and ranges, whatever is allocated in them. *)
Record same_shape (s s' : pool_set) : Prop := {
  ss_pools : length (s_pools s') = length (s_pools s);
  ss_pool : forall p, match pool_at s p, pool_at s' p with
                      | Some q, Some q' => p_name q' = p_name q /\ p_next q' = p_next q /\
                                           length (p_ranges q') = length (p_ranges q)
                      | None, None => True
                      | _, _ => False
                      end;
  ss_range : forall p j r, range_at s p j = Some r ->
             exists r', range_at s' p j = Some r' /\ r_start r' = r_start r /\
               r_end r' = r_end r /\ r_step r' = r_step r /\
               r_peer_offset r' = r_peer_offset r /\ r_count r' = r_count r
}.

(** What sessions do to one set over time: the set and the leases alive. *)
Inductive pool_step : pool_set * list ip_lease -> pool_set * list ip_lease -> Prop :=
| step_get s s' ls fuel name ppp rnd l :
    0 <= rnd -> get_ip fuel s name ppp rnd true = Some (Ok (Some l, s')) ->
    pool_step (s, ls) (s', l :: ls)
| step_get_fails s s' ls fuel name ppp rnd mem :
    0 <= rnd -> get_ip fuel s name ppp rnd mem = Some (Ok (None, s')) ->
    pool_step (s, ls) (s', ls)
| step_put s s' ls1 l ls2 :
    put_ip s l = Ok s' -> pool_step (s, ls1 ++ l :: ls2) (s', ls1 ++ ls2).

Inductive pool_run (s0 : pool_set) : pool_set * list ip_lease -> Prop :=
| run_start : pool_run s0 (s0, [])
| run_step x y : pool_run s0 x -> pool_step x y -> pool_run s0 y.

(** The outcome of the search when it stops. *)
Definition found_unit (s : pool_set) (u : pool_ref * nat * Z) (s' : pool_set) : Prop :=
  let '(p, j, b) := u in
  exists r r', range_at s p j = Some r /\ 0 <= b < r_count r /\ bit (r_bitmap r) b = false /\
    unit_updated r b true r' /\ range_wf r' /\ s' = set_range s p j r'.

(** What holds along a history from [s0]: a unit is marked exactly when it was
    marked at the start or one live lease stands for it. *)
Record hist_inv (s0 : pool_set) (x : pool_set * list ip_lease) : Prop := {
  hi_wf : set_wf x.1;
  hi_shape : same_shape s0 x.1;
  hi_nodup : NoDup (lease_unit s0 <$> x.2);
  hi_lease : forall l, l ∈ x.2 -> exists u, lease_unit s0 l = Some u /\
             unit_used s0 u = false /\ 0 <= u.2 /\ 0 <= l_peer_addr l < 2 ^ 32;
  hi_used : forall u, 0 <= u.2 ->
            unit_used x.1 u = unit_used s0 u || bool_decide (Some u ∈ lease_unit s0 <$> x.2)
}.

(** A range as [add_range_to_pool] leaves it, before it has a bitmap. *)
Record range_raw (r : ip_range) : Prop := {
  rr_count : 0 < r_count r <= IPPOOL_MAX_BITS;
  rr_fresh : r_used r = 0 /\ r_cursor r = 0;
  rr_peer : 0 <= r_peer_offset r < r_step r;
  rr_start : 0 <= r_start r;
  rr_span : r_start r + r_count r * r_step r <= r_end r + 1;
  rr_end : r_end r < 2 ^ 32
}.

Definition pool_raw (n : nat) (q : ip_pool) : Prop :=
  Forall range_raw (p_ranges q) /\ forall i, p_next q = Some i -> (i < n)%nat.

Record set_raw (s : pool_set) : Prop := {
  sr_pools : Forall (pool_raw (length (s_pools s))) (s_pools s);
  sr_def : exists d, s_def_pool s = Some d /\ pool_raw (length (s_pools s)) d
}.

(** Unit [b] of [r] is the configured gateway address of a p2p range. *)
Definition gateway_unit (gw : Z) (r : ip_range) (b : Z) : bool :=
  (r_step r =? 1) && (r_peer_offset r =? 0) && negb (gw =? 0) && (r_start r + b =? gw).

(** The unit that a live session's address is, in a new set. *)
Definition session_target (s : pool_set) (x : session_ipv4) : option (pool_ref * nat * Z) :=
  match x with
  | NoIpv4 => None
  | PoolIpv4 l n => find_target s (l_peer_addr l) n
  | ForeignIpv4 a => find_target s a None
  end.

(** The session's item after a reload: its lease is moved or orphaned. *)
Definition session_moved (s : pool_set) (x : session_ipv4) : session_ipv4 :=
  match x with
  | PoolIpv4 l n =>
      PoolIpv4 (mk_lease (match session_target s x with Some (p, j, _) => Some (p, j) | None => None end)
                  (l_addr l) (l_peer_addr l)) n
  | _ => x
  end.

Definition session_addr_ok (x : session_ipv4) : Prop :=
  match x with
  | NoIpv4 => True
  | PoolIpv4 l _ => 0 <= l_peer_addr l < 2 ^ 32
  | ForeignIpv4 a => 0 <= a < 2 ^ 32
  end.

(** No address is in two ranges. *)
Definition ranges_disjoint (s : pool_set) : Prop :=
  forall p j r p' j' r', range_at s p j = Some r -> range_at s p' j' = Some r' ->
  (p, j) <> (p', j') -> r_end r < r_start r' \/ r_end r' < r_start r.

(** A configuration with a gateway inside of the default pool, and one whose
    named pools overflow into a cycle that does not contain the first. *)
Definition plain_opt (s : string) : conf_option_t := mk_opt s None s.
Definition gw_addr (_ : string) : Z := 167772161.
Definition gw_conf : list conf_option_t :=
  [mk_opt "gw-ip-address" (Some "10.0.0.1"%string) "gw-ip-address=10.0.0.1"; plain_opt "10.0.0.0/30"].
Definition cycle_conf : list conf_option_t :=
  [mk_opt "10.0.0.0/32,name" (Some "a,next=b"%string) "10.0.0.0/32,name=a,next=b";
   mk_opt "10.0.1.0/32,name" (Some "b,next=c"%string) "10.0.1.0/32,name=b,next=c";
   mk_opt "10.0.2.0/32,name" (Some "c,next=b"%string) "10.0.2.0/32,name=c,next=b"].

Definition set_of (x : res pool_set) : pool_set :=
  match x with Ok s => s | _ => mk_set [] None 0 false ORPHAN_KEEP end.
Definition after_get (s : pool_set) (name : option string) : pool_set :=
  match get_ip 3 s name true 0 true with Some (Ok (_, s')) => s' | _ => s end.
Definition cycle_set0 : pool_set := Eval vm_compute in
  set_of (build_pool_set gw_addr (Some cycle_conf)).
Definition cycle_set1 : pool_set := Eval vm_compute in after_get cycle_set0 (Some "a"%string).
Definition cycle_set2 : pool_set := Eval vm_compute in after_get cycle_set1 (Some "a"%string).
Definition cycle_set : pool_set := Eval vm_compute in after_get cycle_set2 (Some "a"%string).
Definition gw_set : pool_set := Eval vm_compute in set_of (build_pool_set gw_addr (Some gw_conf)).

(** ** Counting the units in use *)
Lemma seqZ_middle n i : 0 <= i < n -> seqZ 0 n = seqZ 0 i ++ i :: seqZ (i + 1) (n - i - 1).
Proof.
  intros H. rewrite (seqZ_split 0 n i) by lia. f_equal. rewrite Z.add_0_l.
  now rewrite (seqZ_cons i) by lia.
Qed.

Lemma filter_same {A} (P Q : A -> Prop) `{!forall x, Decision (P x)} `{!forall x, Decision (Q x)} (l : list A) :
  (forall x, x ∈ l -> P x <-> Q x) -> filter P l = filter Q l.
Proof.
  induction l as [|x l IH]; intros E; [done|]. rewrite !filter_cons.
  rewrite IH by (intros y Hy; apply E; now right). pose proof (E x (list_elem_of_here _ _)).
  repeat case_decide; tauto.
Qed.

Lemma used_count_update bm bm' n i v :
  0 <= i < n ->
  (forall j, 0 <= j -> bit bm' j = if j =? i then v else bit bm j) ->
  bit bm i = negb v ->
  used_count bm' n = used_count bm n + (if v then 1 else -1).
Proof.
  intros Hi Hb Hv. unfold used_count. rewrite (seqZ_middle n i Hi).
  rewrite !filter_app, !filter_cons, !length_app, Hb, Hv, Z.eqb_refl by lia.
  assert (forall m k, 0 <= m -> (i < m \/ m + k <= i) ->
    filter (fun j => bit bm' j = true) (seqZ m k) = filter (fun j => bit bm j = true) (seqZ m k)) as E.
  { intros m k Hm Hk. apply filter_same. intros j Hj%elem_of_seqZ.
    rewrite Hb by lia. destruct (j =? i) eqn:?; [lia|done]. }
  rewrite !E by lia. destruct v; cbn; repeat case_decide; try done; cbn; lia.
Qed.

Lemma used_count_range bm n : 0 <= n -> 0 <= used_count bm n <= n.
Proof.
  intros Hn. unfold used_count. pose proof (length_filter (fun i => bit bm i = true) (seqZ 0 n)).
  rewrite length_seqZ in *. lia.
Qed.

(** ** Lookup and update of a range in a set *)
Lemma pool_at_set_pool s p q x p' :
  pool_at s p = Some q ->
  pool_at (set_pool s p x) p' = if decide (p' = p) then Some x else pool_at s p'.
Proof.
  intros H. destruct p as [|i], p' as [|i']; cbn in *; repeat case_decide; simplify_eq; try done.
  - apply list_lookup_insert_eq. eapply lookup_lt_Some; eauto.
  - apply list_lookup_insert_ne. congruence.
Qed.

Lemma range_at_pool s p j r :
  range_at s p j = Some r -> exists q, pool_at s p = Some q /\ p_ranges q !! j = Some r.
Proof. unfold range_at. destruct (pool_at s p) as [q|]; [eauto | done]. Qed.

Lemma range_at_set_range s p j r x p' j' :
  range_at s p j = Some r ->
  range_at (set_range s p j x) p' j'
  = if decide ((p', j') = (p, j)) then Some x else range_at s p' j'.
Proof.
  intros H. destruct (range_at_pool s p j r H) as (q & Hq & Hj).
  unfold range_at at 1, set_range. rewrite Hq, (pool_at_set_pool s p q) by done.
  case_decide as E; case_decide as F; simplify_eq; cbn.
  - apply list_lookup_insert_eq. eapply lookup_lt_Some; eauto.
  - unfold range_at. rewrite Hq. apply list_lookup_insert_ne. congruence.
  - done.
Qed.

Lemma set_range_pools s p j x : length (s_pools (set_range s p j x)) = length (s_pools s).
Proof.
  unfold set_range. destruct (pool_at s p); [|done]. destruct p; [done|]. apply length_insert.
Qed.

Lemma pool_at_set_range s p j x p' :
  match pool_at s p', pool_at (set_range s p j x) p' with
  | Some q, Some q' => p_name q' = p_name q /\ p_next q' = p_next q /\
                       length (p_ranges q') = length (p_ranges q)
  | None, None => True
  | _, _ => False
  end.
Proof.
  unfold set_range. destruct (pool_at s p) as [q|] eqn:Hq.
  - rewrite (pool_at_set_pool s p q) by done. case_decide as E; subst.
    + rewrite Hq. cbn. now rewrite length_insert.
    + now destruct (pool_at s p').
  - now destruct (pool_at s p').
Qed.

Lemma same_shape_refl s : same_shape s s.
Proof. split; [done | | eauto 10]. intros p. now destruct (pool_at s p). Qed.

Lemma same_shape_trans s1 s2 s3 : same_shape s1 s2 -> same_shape s2 s3 -> same_shape s1 s3.
Proof.
  intros [A1 B1 C1] [A2 B2 C2]. split; [congruence | |].
  - intros p. specialize (B1 p). specialize (B2 p).
    destruct (pool_at s1 p), (pool_at s2 p), (pool_at s3 p); intuition congruence.
  - intros p j r Hr. destruct (C1 p j r Hr) as (r2 & H2 & ?). destruct (C2 p j r2 H2) as (r3 & H3 & ?).
    exists r3. split; [done|]. intuition congruence.
Qed.

Lemma unit_updated_shape s p j r b v r' :
  range_at s p j = Some r -> unit_updated r b v r' -> same_shape s (set_range s p j r').
Proof.
  intros Hr [? ? ? ? ? _]. split.
  - apply set_range_pools.
  - intros p'. apply pool_at_set_range.
  - intros p' j' x Hx. rewrite (range_at_set_range s p j r) by done.
    case_decide as E; simplify_eq; eauto 10.
Qed.

Lemma set_wf_set_range s p j r r' :
  set_wf s -> range_at s p j = Some r -> range_wf r' -> set_wf (set_range s p j r').
Proof.
  intros [W N] Hr Hr'. split.
  - intros p0 j0 x. rewrite (range_at_set_range s p j r) by done. case_decide; [congruence | apply W].
  - intros p0 q i Hq Hn. rewrite set_range_pools.
    pose proof (pool_at_set_range s p j r' p0) as E. rewrite Hq in E.
    destruct (pool_at s p0) as [q0|] eqn:H0; [|done]. apply (N p0 q0 i H0). intuition congruence.
Qed.

(** ** Marking and clearing one unit of a range *)
Lemma range_set_unit r b :
  range_wf r -> 0 <= b < r_count r -> bit (r_bitmap r) b = false ->
  forall c, 0 <= c <= r_count r ->
  exists bm, bm_set (r_bitmap r) b = Ok bm /\
    unit_updated r b true (with_bitmap r bm (r_used r + 1) c) /\
    range_wf (with_bitmap r bm (r_used r + 1) c).
Proof.
  intros W Hb Hf c Hc. pose proof (nwords_spec (r_count r)).
  destruct (bm_set_bit _ _ b (rw_bm r W) ltac:(lia)) as (bm & Hs & Hw & Hbit).
  exists bm. split; [done|]. split; [now split|].
  destruct W. split; cbn; try done.
  rewrite (used_count_update (r_bitmap r) bm _ b true) by done. lia.
Qed.

Lemma range_clear_unit r b :
  range_wf r -> 0 <= b < r_count r -> bit (r_bitmap r) b = true ->
  exists bm, bm_clear (r_bitmap r) b = Ok bm /\
    unit_updated r b false (with_bitmap r bm (r_used r - 1) (r_cursor r)) /\
    range_wf (with_bitmap r bm (r_used r - 1) (r_cursor r)).
Proof.
  intros W Hb Hf.
  destruct (bm_clear_bit _ _ b (rw_bm r W) Hb) as (bm & Hs & Hw & Hbit).
  exists bm. split; [done|]. split; [now split|].
  destruct W. split; cbn; try done.
  rewrite (used_count_update (r_bitmap r) bm _ b false) by done. lia.
Qed.

(** [range_addr_to_bit] inverts the address computation of [get_ip]. *)
Lemma addr_to_bit_spec r a :
  range_wf r -> 0 <= a < 2 ^ 32 ->
  forall b, range_addr_to_bit r a = b -> b <> BM_INVALID ->
  0 <= b < r_count r /\ a = r_start r + b * r_step r + r_peer_offset r.
Proof.
  intros W Ha b Hb Hi. destruct W. unfold range_addr_to_bit, IPPOOL_MAX_BITS in *.
  assert (r_step r <= 2 ^ 32) by nia. 
  rewrite u32_small in Hb by lia.
  repeat (case_match; [congruence|]). subst b.
  pose proof (Z.div_mod (a - r_peer_offset r - r_start r) (r_step r) ltac:(lia)).
  assert (0 <= (a - r_peer_offset r - r_start r) / r_step r) by (apply Z.div_pos; lia).
  nia.
Qed.

Lemma bit_to_addr_spec r b :
  range_wf r -> 0 <= b < r_count r ->
  let a := r_start r + b * r_step r + r_peer_offset r in
  r_start r <= a <= r_end r /\ range_addr_to_bit r a = b /\ b <> BM_INVALID /\
  u32 (u32 (r_start r + u32 b * r_step r) + r_peer_offset r) = a.
Proof.
  intros W Hb a. destruct W. unfold IPPOOL_MAX_BITS in *.
  assert (r_start r <= a <= r_end r) as Ha by nia.
  assert (b * r_step r + r_start r + r_peer_offset r < 2 ^ 32) by nia.
  split; [done|]. split; [|split; [unfold BM_INVALID; lia|]].
  - unfold range_addr_to_bit. rewrite u32_small by nia.
    replace (a - r_peer_offset r - r_start r) with (b * r_step r) by (subst a; lia).
    rewrite Z.mod_mul, Z.div_mul by lia.
    repeat case_match; try done; nia.
  - rewrite (u32_small b) by lia. rewrite (u32_small (_ + b * _)) by nia. apply u32_small. lia.
Qed.

(** ** The search of one pool *)
Lemma find_free_spec r from :
  range_wf r -> 0 <= from ->
  exists b, bm_find_free (r_bitmap r) (r_count r) from = Ok b /\
    if b =? BM_INVALID then range_full r
    else 0 <= b < r_count r /\ bit (r_bitmap r) b = false.
Proof.
  intros W Hf. pose proof (rw_count r W) as Hc. unfold IPPOOL_MAX_BITS in Hc.
  rewrite (bm_find_free_scan (r_bitmap r) (r_count r) (rw_bm r W)) by lia.
  eexists; split; [reflexivity|]. unfold scan_free.
  set (from' := if r_count r <=? from then 0 else from).
  assert (0 <= from' < r_count r) as Hf' by (subst from'; destruct (_ <=? _) eqn:?; lia).
  destruct (List.find _ _) as [i|] eqn:E.
  - apply List.find_some in E as [Hi%list_elem_of_In Hb%negb_true_iff].
    rewrite elem_of_app, !elem_of_seqZ in Hi.
    destruct (i =? BM_INVALID) eqn:Hx; [unfold BM_INVALID in Hx; lia | split; [lia|done]].
  - rewrite Z.eqb_refl. intros i Hi. pose proof (List.find_none _ _ E i) as Hn.
    rewrite <- list_elem_of_In, elem_of_app, !elem_of_seqZ in Hn.
    apply negb_false_iff, Hn. lia.
Qed.

Lemma alloc_ranges_spec sh rnd rs i :
  Forall range_wf rs -> 0 <= rnd ->
  exists o rs', alloc_ranges sh rnd rs i = Ok (o, rs') /\
  match o with
  | None => rs' = rs /\ Forall range_full rs
  | Some (j, b) => exists k r r', j = (i + k)%nat /\ rs !! k = Some r /\
      0 <= b < r_count r /\ bit (r_bitmap r) b = false /\
      unit_updated r b true r' /\ range_wf r' /\
      Forall range_full (take k rs) /\ rs' = <[k := r']> rs
  end.
Proof.
  intros W Hr. revert i. induction W as [|r rs Wr W IH]; intros i; [eexists _, _; split; [done|]; done|].
  cbn [alloc_ranges]. set (from := if sh then _ else _).
  assert (0 <= from).
  { pose proof (rw_cursor r Wr). pose proof (rw_count r Wr). subst from.
    destruct sh; [|lia]. destruct (_ =? _); [lia|]. apply Z.mod_pos_bound; lia. }
  destruct (find_free_spec r from Wr ltac:(done)) as (b & Hb & Spec). rewrite Hb. cbn.
  destruct (b =? BM_INVALID).
  - destruct (IH (S i)) as (o & rs' & Ho & Hs). rewrite Ho. cbn.
    eexists _, _. split; [reflexivity|]. destruct o as [[j b']|].
    + destruct Hs as (k & r0 & r' & -> & Hk & ? & ? & ? & ? & Hfull & ->).
      exists (S k), r0, r'. cbn. split_and!; try done; try lia. now constructor.
    + destruct Hs as [-> ?]. split; [done | now constructor].
  - destruct Spec as [Hlt Hfree].
    destruct (range_set_unit r b Wr Hlt Hfree (b + 1) ltac:(lia)) as (bm & Hs & Hu & Hw).
    rewrite Hs. cbn. eexists _, _. split; [reflexivity|].
    exists 0%nat, r, (with_bitmap r bm (r_used r + 1) (b + 1)).
    split_and!; first [done | lia].
Qed.

(** ** The walk along the overflow chain *)
Lemma pool_ranges_wf s p q : set_wf s -> pool_at s p = Some q -> Forall range_wf (p_ranges q).
Proof.
  intros W Hq. apply Forall_lookup_2. intros j r Hr. apply (sw_ranges s W p j).
  unfold range_at. now rewrite Hq.
Qed.

Lemma next_pool_valid s p p' :
  set_wf s -> next_pool s p = Some p' -> exists q, pool_at s p' = Some q.
Proof.
  intros W H. unfold next_pool in H. destruct (pool_at s p) as [q|] eqn:Hq; [|done].
  destruct (p_next q) as [i|] eqn:Hn; [|done]. simplify_eq.
  apply (lookup_lt_is_Some_2 (s_pools s)), (sw_next s W p q i Hq Hn).
Qed.

Lemma get_loop_spec s rnd start :
  set_wf s -> 0 <= rnd ->
  forall fuel pool x, (exists q, pool_at s pool = Some q) ->
  get_loop fuel s rnd start pool = Some x ->
  (x = Ok (None, s) /\ exists n, (follow s pool (S n) = None \/ follow s pool (S n) = Some start)
     /\ forall k p, (k <= n)%nat -> follow s pool k = Some p -> pool_full s p)
  \/ exists u s', x = Ok (Some u, s') /\ found_unit s u s' /\
      exists n, follow s pool n = Some u.1.1.
Proof.
  intros W Hr fuel. induction fuel as [|fuel IH]; intros pool x [q Hq] H; [done|].
  cbn [get_loop] in H. rewrite Hq in H.
  destruct (alloc_ranges_spec (s_shuffle s) rnd (p_ranges q) 0 (pool_ranges_wf s pool q W Hq) Hr)
    as (o & rs' & Ho & Spec). rewrite Ho in H. destruct o as [[j b]|].
  - destruct Spec as (k & r & r' & -> & Hk & Hb & Hf & Hu & Hw & _ & ->). simplify_eq.
    right. eexists _, _. split; [reflexivity|]. split; [|now exists 0%nat].
    exists r, r'. unfold range_at, set_range. rewrite Hq. auto 10.
  - destruct Spec as [-> Hfull].
    assert (pool_full s pool) as PF by (exists q; auto).
    destruct (next_pool s pool) as [p'|] eqn:Hn.
    + case_decide as E.
      * simplify_eq. left. split; [done|]. exists 0%nat. cbn. rewrite Hn. split; [auto|].
        intros k p Hk Hp. assert (k = 0)%nat as -> by lia. cbn in Hp. congruence.
      * destruct (IH p' x (next_pool_valid s pool p' W Hn) H)
          as [[-> (n & Hc & Hp)] | (u & s' & Hx & Hu & n & Hn')].
        2: { right. exists u, s'. split_and!; auto. exists (S n). cbn. now rewrite Hn. }
        left. split; [done|]. exists (S n). cbn [follow]. rewrite Hn. split; [exact Hc|].
        intros [|k] p Hk Hf; [cbn in Hf; congruence|]. cbn in Hf. rewrite Hn in Hf.
        apply (Hp k); [lia | done].
    + simplify_eq. left. split; [done|]. exists 0%nat. cbn. rewrite Hn. split; [auto|].
      intros k p Hk Hp. assert (k = 0)%nat as -> by lia. cbn in Hp. congruence.
Qed.

Lemma get_loop_fuel s rnd start :
  set_wf s -> 0 <= rnd ->
  forall n pool, (exists q, pool_at s pool = Some q) ->
  follow s pool (S n) = None \/ follow s pool (S n) = Some start \/
  (exists p q, follow s pool n = Some p /\ pool_at s p = Some q /\ ~ Forall range_full (p_ranges q)) ->
  exists x, get_loop (S n) s rnd start pool = Some x.
Proof.
  intros W Hr n. induction n as [|n IH]; intros pool [q Hq] Hc;
    remember (get_loop _ s rnd start pool) as g eqn:Hg;
    cbn [get_loop] in Hg; rewrite Hq in Hg;
    destruct (alloc_ranges_spec (s_shuffle s) rnd (p_ranges q) 0 (pool_ranges_wf s pool q W Hq) Hr)
      as (o & rs' & Ho & Spec); rewrite Ho in Hg;
    (destruct o as [[j b]|]; [eauto|]); destruct Spec as [_ Hfull];
    (destruct (next_pool s pool) as [p'|] eqn:Hn; [|eauto]); 
    (case_decide as E; [eauto|]).
  - exfalso. cbn in Hc. rewrite Hn in Hc. destruct Hc as [?|[?|(p & q' & ? & ? & ?)]]; [done|congruence|].
    simplify_eq. 
  - subst g. apply IH; [eapply next_pool_valid; eauto|].
    cbn [follow] in Hc. rewrite Hn in Hc. exact Hc.
Qed.

Lemma get_loop_stuck s rnd start :
  set_wf s -> 0 <= rnd ->
  forall fuel pool, (exists q, pool_at s pool = Some q) ->
  (forall n, exists p, follow s pool n = Some p /\ pool_full s p) ->
  (forall n, follow s pool (S n) <> Some start) ->
  get_loop fuel s rnd start pool = None.
Proof.
  intros W Hr fuel. induction fuel as [|fuel IH]; intros pool [q Hq] Hf Hs; [done|].
  destruct (get_loop (S fuel) s rnd start pool) as [x|] eqn:Hg; [|done]. exfalso.
  destruct (get_loop_spec s rnd start W Hr _ pool x ltac:(eauto) Hg) as [[_ (n & Hc & _)]|Hx].
  - destruct (Hf (S n)) as (p & Hp & _). destruct Hc; [congruence | now apply (Hs n)].
  - cbn [get_loop] in Hg. rewrite Hq in Hg. destruct (Hf 0%nat) as (p & [= <-] & q' & Hq' & Hfull).
    destruct (alloc_ranges_spec (s_shuffle s) rnd (p_ranges q) 0 (pool_ranges_wf s pool q W Hq) Hr)
      as (o & rs' & Ho & Spec). rewrite Ho in Hg. simplify_eq. destruct o as [[j b]|].
    + destruct Spec as (k & r & r' & _ & Hk & Hb & Hfree & _).
      rewrite Forall_lookup in Hfull. rewrite (Hfull k r Hk b Hb) in Hfree. done.
    + destruct (next_pool s pool) as [p'|] eqn:Hn.
      * assert (forall n, follow s pool (S n) = follow s p' n) as Hsh by (intros; cbn; now rewrite Hn).
        case_decide as E; [subst; apply (Hs 0%nat); rewrite Hsh; done|].
        rewrite IH in Hg; [done | eapply next_pool_valid; eauto | |].
        { intros n. rewrite <- Hsh. apply Hf. } { intros n. cbn [follow].
          specialize (Hs (S n)). rewrite Hsh in Hs. exact Hs. }
      * destruct (Hf 1%nat) as (p & Hp & _). cbn in Hp. rewrite Hn in Hp. done.
Qed.

(** ** Units across operations *)
Lemma unit_used_set_range s p j r b v r' u :
  range_at s p j = Some r -> unit_updated r b v r' -> 0 <= u.2 ->
  unit_used (set_range s p j r') u = if decide (u = (p, j, b)) then v else unit_used s u.
Proof.
  intros Hr U Hu. destruct u as [[p' j'] b']. cbn in *.
  rewrite (range_at_set_range s p j r) by done.
  case_decide as E; case_decide as F; simplify_eq; try done.
  - rewrite (uu_bit _ _ _ _ U), Z.eqb_refl by lia. done.
  - rewrite (uu_bit _ _ _ _ U), Hr by lia. destruct (b' =? b) eqn:?; [|done].
    assert (b' = b) by lia. congruence.
Qed.

Lemma addr_to_bit_shape r r' a :
  r_start r' = r_start r -> r_step r' = r_step r -> r_peer_offset r' = r_peer_offset r ->
  r_count r' = r_count r -> range_addr_to_bit r' a = range_addr_to_bit r a.
Proof. intros E1 E2 E3 E4. unfold range_addr_to_bit. now rewrite E1, E2, E3, E4. Qed.

Lemma same_shape_range s s' p j :
  same_shape s s' ->
  match range_at s p j, range_at s' p j with
  | Some r, Some r' => r_start r' = r_start r /\ r_end r' = r_end r /\ r_step r' = r_step r /\
                       r_peer_offset r' = r_peer_offset r /\ r_count r' = r_count r
  | None, None => True
  | _, _ => False
  end.
Proof.
  intros [_ P R]. destruct (range_at s p j) as [r|] eqn:Hr.
  - destruct (R p j r Hr) as (r' & -> & ?). done.
  - destruct (range_at s' p j) as [r'|] eqn:Hr'; [|done]. specialize (P p).
    unfold range_at in *. destruct (pool_at s p), (pool_at s' p); try done.
    apply lookup_ge_None in Hr. apply lookup_lt_Some in Hr'. lia.
Qed.

Lemma lease_unit_shape s s' l : same_shape s s' -> lease_unit s' l = lease_unit s l.
Proof.
  intros H. unfold lease_unit. destruct (l_range l) as [[p j]|]; [|done].
  pose proof (same_shape_range s s' p j H) as E.
  destruct (range_at s p j), (range_at s' p j); try done.
  rewrite (addr_to_bit_shape i i0) by tauto. done.
Qed.

Lemma lease_unit_inv s l p j b :
  set_wf s -> 0 <= l_peer_addr l < 2 ^ 32 -> lease_unit s l = Some (p, j, b) ->
  exists r, range_at s p j = Some r /\ l_range l = Some (p, j) /\ 0 <= b < r_count r /\
    range_addr_to_bit r (l_peer_addr l) = b /\ b <> BM_INVALID /\
    l_peer_addr l = r_start r + b * r_step r + r_peer_offset r.
Proof.
  intros W Ha H. unfold lease_unit in H. destruct (l_range l) as [[p' j']|]; [|done].
  destruct (range_at s p' j') as [r|] eqn:Hr; [|done].
  destruct (_ =? BM_INVALID) eqn:E; [done|]. simplify_eq. apply Z.eqb_neq in E.
  destruct (addr_to_bit_spec r _ (sw_ranges s W _ _ _ Hr) Ha _ eq_refl E). eauto 10.
Qed.

(** What [get_ip] does when it returns. *)
Lemma get_ip_outcome fuel s name ppp rnd mem x :
  set_wf s -> 0 <= rnd -> get_ip fuel s name ppp rnd mem = Some x ->
  exists o s', x = Ok (o, s') /\ set_wf s' /\ same_shape s s' /\
  match o with
  | Some l => exists p j b r, lease_unit s' l = Some (p, j, b) /\ range_at s p j = Some r /\
      0 <= b < r_count r /\ unit_used s (p, j, b) = false /\
      l_peer_addr l = r_start r + b * r_step r + r_peer_offset r /\
      r_start r <= l_peer_addr l <= r_end r /\
      forall u, 0 <= u.2 -> unit_used s' u = if decide (u = (p, j, b)) then true else unit_used s u
  | None => forall u, 0 <= u.2 -> unit_used s' u = unit_used s u
  end.
Proof.
  intros W Hr H. unfold get_ip in H. set (pool := match name with Some _ => _ | None => _ end) in H.
  assert (forall p, pool = Some p -> exists q, pool_at s p = Some q) as V.
  { intros p Hp. subst pool. destruct name as [n|].
    - unfold find_pool in Hp. destruct (find_name n (s_pools s) 0) as [i|] eqn:Hi; [|done].
      cbn in Hp. simplify_eq. cbn. apply lookup_lt_is_Some_2.
      assert (forall ps k i, find_name n ps k = Some i -> (i < k + length ps)%nat) as B.
      { clear. induction ps as [|q ps IH]; intros k i Hi; cbn in *; [done|].
        case_decide; [simplify_eq; lia | apply IH in Hi; lia]. }
      apply B in Hi. lia.
    - destruct (s_def_pool s) eqn:Hd; [|done]. simplify_eq. eauto. }
  destruct pool as [p0|]; [|simplify_eq; eexists _, _; eauto using same_shape_refl].
  set (rnd' := if s_shuffle s then rnd else 0) in H. assert (0 <= rnd') by (subst rnd'; destruct (s_shuffle s); lia).
  destruct (get_loop fuel s rnd' p0 p0) as [y|] eqn:Hg; [|done].
  destruct (get_loop_spec s rnd' p0 W ltac:(done) _ p0 y (V p0 eq_refl) Hg)
    as [[-> _] | (u & s' & -> & Hf & _)]; [simplify_eq; eexists _, _; eauto using same_shape_refl|].
  destruct u as [[p j] b]. destruct Hf as (r & r' & Hp & Hb & Hfree & U & Wr' & ->).
  rewrite (range_at_set_range s p j r), decide_True in H by done.
  pose proof (unit_updated_shape s p j r b true r' Hp U) as SS.
  pose proof (set_wf_set_range s p j r r' W Hp Wr') as W'.
  assert (range_at (set_range s p j r') p j = Some r') as Hp'
    by (rewrite (range_at_set_range s p j r), decide_True by done; done).
  pose proof (uu_count _ _ _ _ U) as Ec.
  destruct mem; simplify_eq.
  - eexists _, _. split; [reflexivity|]. split; [done|]. split; [done|].
    destruct (bit_to_addr_spec r' b Wr' ltac:(lia)) as (Ha & Hbit & Hi & Hu32).
    rewrite Hu32. exists p, j, b, r. destruct U as [Es Ee Et Eo _ Hbits]. cbn [l_peer_addr].
    split; [unfold lease_unit; cbn; rewrite Hp', Hbit; destruct (b =? BM_INVALID) eqn:?; [lia|done]|].
    split; [done|]. split; [done|]. split; [unfold unit_used; now rewrite Hp|].
    split; [congruence|]. split; [lia|].
    intros u Hu. apply unit_used_set_range with r; [done | now split | done].
  - assert (bit (r_bitmap r') b = true) as Hset
      by (rewrite (uu_bit _ _ _ _ U), Z.eqb_refl by lia; done).
    destruct (range_clear_unit r' b Wr' ltac:(lia) Hset) as (bm & -> & U2 & W2).
    eexists _, _. split; [reflexivity|]. split; [eapply set_wf_set_range; eauto|].
    split; [eapply same_shape_trans; [done | eapply unit_updated_shape; eauto]|].
    intros u Hu. rewrite (unit_used_set_range _ p j r' b false) by done.
    rewrite (unit_used_set_range s p j r b true) by done.
    case_decide as E; [|done]. subst u. unfold unit_used. now rewrite Hp.
Qed.

(** What [put_ip] does for a lease whose unit is marked. *)
Lemma put_ip_outcome s l u :
  set_wf s -> 0 <= l_peer_addr l < 2 ^ 32 -> lease_unit s l = Some u -> unit_used s u = true ->
  exists s', put_ip s l = Ok s' /\ set_wf s' /\ same_shape s s' /\
    forall v, 0 <= v.2 -> unit_used s' v = if decide (v = u) then false else unit_used s v.
Proof.
  intros W Ha Hl Hu. destruct u as [[p j] b].
  destruct (lease_unit_inv s l p j b W Ha Hl) as (r & Hr & El & Hb & Ebit & Hi & _).
  unfold put_ip. rewrite El, Hr, Ebit. destruct (b =? BM_INVALID) eqn:?; [lia|].
  pose proof (sw_ranges s W p j r Hr) as Wr. pose proof (nwords_spec (r_count r)).
  unfold unit_used in Hu. rewrite Hr in Hu.
  rewrite (bm_test_bit _ _ b (rw_bm r Wr)), Hu by lia. cbn.
  destruct (range_clear_unit r b Wr Hb Hu) as (bm & -> & U & W'). cbn.
  eexists; split; [reflexivity|]. split; [eapply set_wf_set_range; eauto|].
  split; [eapply unit_updated_shape; eauto|].
  intros v Hv. now apply unit_used_set_range with r.
Qed.

(** ** Histories of one set *)
Lemma NoDup_fmap_through {A B C} (f : A -> B) (g : A -> C) (l : list A) :
  (forall x y, x ∈ l -> y ∈ l -> g x = g y -> f x = f y) -> NoDup (f <$> l) -> NoDup (g <$> l).
Proof.
  induction l as [|x l IH]; intros H N; [constructor|]. rewrite fmap_cons in *.
  inversion N as [|? ? Hx N']; subst. constructor.
  - intros (y & E & Hy)%list_elem_of_fmap. apply Hx, list_elem_of_fmap. exists y. split; [|done].
    apply H; [left | now right | done].
  - apply IH; [|done]. intros y z Hy Hz. apply H; now right.
Qed.

Lemma hist_inv_get s0 s ls fuel name ppp rnd l s' :
  hist_inv s0 (s, ls) -> 0 <= rnd -> get_ip fuel s name ppp rnd true = Some (Ok (Some l, s')) ->
  hist_inv s0 (s', l :: ls).
Proof.
  intros [W S N L U] Hr H. cbn [fst snd] in *.
  destruct (get_ip_outcome _ _ _ _ _ _ _ W Hr H) as (o & s1 & E & W' & S' & Spec). simplify_eq.
  destruct Spec as (p & j & b & r & Hl & Hrange & Hb & Hfree & Hpeer & Haddr & Hbits).
  assert (lease_unit s0 l = Some (p, j, b)) as Hl0.
  { rewrite <- Hl. symmetry. apply lease_unit_shape. eapply same_shape_trans; eauto. }
  pose proof (sw_ranges s W p j r Hrange) as [? ? ? ? ? ? ? ?].
  rewrite U in Hfree by (cbn; lia). apply orb_false_iff in Hfree as [Hf0 Hin%bool_decide_eq_false].
  split; cbn [fst snd]; try done; [eapply same_shape_trans; eauto| | |].
  - rewrite fmap_cons, Hl0. now constructor.
  - intros l' [->|Hl']%elem_of_cons; [|auto]. exists (p, j, b). cbn. split_and!; auto; lia.
  - intros u Hu. rewrite Hbits by done. rewrite fmap_cons, Hl0, U by done.
    case_decide as E.
    + subst. rewrite bool_decide_eq_true_2 by now left. now rewrite orb_true_r.
    + f_equal. apply bool_decide_ext. rewrite elem_of_cons. intuition congruence.
Qed.

Lemma hist_inv_put s0 s ls1 l ls2 s' :
  hist_inv s0 (s, ls1 ++ l :: ls2) -> put_ip s l = Ok s' -> hist_inv s0 (s', ls1 ++ ls2).
Proof.
  intros [W S N L U] H. cbn [fst snd] in *.
  destruct (L l ltac:(set_solver)) as (u & Hl & Hf0 & Hu & Ha).
  rewrite fmap_app, fmap_cons in N, U.
  assert (unit_used s u = true) as Hused.
  { rewrite U, Hl by done. apply orb_true_iff. right. apply bool_decide_eq_true_2.
    rewrite elem_of_app, elem_of_cons. auto. }
  rewrite <- (lease_unit_shape s0 s) in Hl by done.
  destruct (put_ip_outcome s l u W Ha Hl Hused) as (s1 & E & W' & S' & Hbits).
  rewrite H in E. injection E as <-.
  rewrite (lease_unit_shape s0 s) in Hl by done.
  apply NoDup_app in N as (N1 & N12 & [Nl N2]%NoDup_cons).
  split; cbn [fst snd]; try done; [eapply same_shape_trans; eauto| | |].
  - rewrite fmap_app. apply NoDup_app. set_solver.
  - intros l' Hl'. apply L. set_solver.
  - intros v Hv. rewrite Hbits, U, fmap_app by done. case_decide as E.
    + subst. rewrite Hf0, bool_decide_eq_false_2; [done|].
      rewrite <- Hl, elem_of_app. set_solver.
    + f_equal. apply bool_decide_ext. rewrite !elem_of_app, elem_of_cons, Hl. intuition congruence.
Qed.

Lemma pool_run_inv s0 x : set_wf s0 -> pool_run s0 x -> hist_inv s0 x.
Proof.
  intros W R. induction R as [|x y R IH Step].
  - split; cbn; try done; [apply same_shape_refl | constructor | set_solver |].
    intros u Hu. rewrite bool_decide_eq_false_2 by set_solver. now rewrite orb_false_r.
  - destruct Step.
    + eapply hist_inv_get; eauto.
    + destruct IH as [W1 S N L U]; cbn [fst snd] in *.
      destruct (get_ip_outcome _ _ _ _ _ _ _ W1 ltac:(done) H0) as (o & s2 & E & W' & S' & Spec).
      simplify_eq. split; cbn [fst snd]; auto; [eapply same_shape_trans; eauto|].
      intros u Hu. rewrite Spec by done. auto.
    + eapply hist_inv_put; eauto.
Qed.

Lemma leases_addresses s0 s ls l l' :
  set_wf s0 -> hist_inv s0 (s, ls) -> ranges_disjoint s0 ->
  l ∈ ls -> l' ∈ ls -> l_peer_addr l = l_peer_addr l' -> lease_unit s0 l = lease_unit s0 l'.
Proof.
  intros W [_ _ _ L _] D Hl Hl' E. cbn in *.
  destruct (L l Hl) as ([[p j] b] & Hu & _ & _ & Ha), (L l' Hl') as ([[p' j'] b'] & Hu' & _ & _ & Ha').
  destruct (lease_unit_inv s0 l p j b W Ha Hu) as (r & Hr & _ & Hb & Ebit & _ & Er).
  destruct (lease_unit_inv s0 l' p' j' b' W Ha' Hu') as (r' & Hr' & _ & Hb' & Ebit' & _ & Er').
  rewrite Hu, Hu'. destruct (decide ((p, j) = (p', j'))) as [E1|Ne].
  - simplify_eq. rewrite E. done.
  - exfalso. pose proof (sw_ranges s0 W _ _ _ Hr) as Wr. pose proof (sw_ranges s0 W _ _ _ Hr') as Wr'.
    destruct (bit_to_addr_spec r b Wr Hb) as (? & _). destruct (bit_to_addr_spec r' b' Wr' Hb') as (? & _).
    destruct (D p j r p' j' r' Hr Hr' Ne); lia.
Qed.

(** ** Loading the configuration *)
Lemma lor_range n a b : 0 <= n -> 0 <= a < 2 ^ n -> 0 <= b < 2 ^ n -> 0 <= Z.lor a b < 2 ^ n.
Proof.
  intros Hn Ha Hb. assert (0 <= Z.lor a b) by (apply Z.lor_nonneg; lia). split; [done|].
  destruct (Z.eq_dec (Z.lor a b) 0) as [->|Hne]; [lia|].
  apply Z.log2_lt_pow2; [lia|]. rewrite Z.log2_lor by lia.
  assert (forall x, 0 <= x < 2 ^ n -> x <> 0 -> Z.log2 x < n) as L by (intros; apply Z.log2_lt_pow2; lia).
  destruct (Z.eq_dec a 0) as [->|]; [destruct (Z.eq_dec b 0) as [->|]|].
  - done.
  - rewrite Z.max_r; [apply L; lia | apply Z.log2_nonneg].
  - destruct (Z.eq_dec b 0) as [->|]; [rewrite Z.max_l; [apply L; lia | apply Z.log2_nonneg]|].
    apply Z.max_lub_lt; apply L; lia.
Qed.

Lemma shiftl_byte f k : 0 <= f <= 255 -> 0 <= k <= 24 -> 0 <= Z.shiftl f k < 2 ^ 32.
Proof.
  intros Hf Hk. rewrite Z.shiftl_mul_pow2 by lia.
  assert (0 < 2 ^ k <= 2 ^ 24) by (split; [|apply Z.pow_le_mono_r]; lia). nia.
Qed.

Lemma quad_range f1 f2 f3 f4 :
  0 <= f1 <= 255 -> 0 <= f2 <= 255 -> 0 <= f3 <= 255 -> 0 <= f4 <= 255 ->
  0 <= Z.lor (Z.lor (Z.lor (Z.shiftl f1 24) (Z.shiftl f2 16)) (Z.shiftl f3 8)) f4 < 2 ^ 32.
Proof.
  intros. repeat (apply (lor_range 32); [lia| |]); try (apply shiftl_byte; lia). lia.
Qed.

Lemma scan_u_nonneg s v s' : scan_u s = Some (v, s') -> 0 <= v.
Proof.
  unfold scan_u. destruct (scan_num s) as [[[neg x] r]|]; [|done]. intros [= <- <-].
  repeat case_match; apply u32_range.
Qed.

Lemma scan_quad_num_nonneg c s f1 f2 f3 f4 f5 :
  scan_quad_num c s = Some (f1, f2, f3, f4, f5) ->
  0 <= f1 /\ 0 <= f2 /\ 0 <= f3 /\ 0 <= f4 /\ 0 <= f5.
Proof.
  unfold scan_quad_num, scan_quad. intros H.
  repeat (simplify_option_eq; repeat match goal with x : (_ * _)%type |- _ => destruct x end).
  repeat match goal with H : scan_u _ = Some _ |- _ => apply scan_u_nonneg in H end. auto.
Qed.

Lemma parse1_range str b e : parse1 str = Some (b, e) -> 0 <= b /\ e < 2 ^ 32.
Proof.
  unfold parse1. destruct (scan_quad_num "/" str) as [[[[[f1 f2] f3] f4] m]|] eqn:E; [|done].
  apply scan_quad_num_nonneg in E. intros H. repeat (case_match; [done|]).
  rewrite !orb_false_iff, !Z.ltb_ge, Z.eqb_neq in *. simplify_eq.
  assert (0 <= (if m =? 32 then 0 else Z.shiftl 1 (32 - m) - 1) < 2 ^ 32).
  { destruct (m =? 32) eqn:?; [lia|]. rewrite Z.shiftl_mul_pow2 by lia.
    assert (0 < 2 ^ (32 - m) <= 2 ^ 32) by (split; [|apply Z.pow_le_mono_r]; lia). lia. }
  pose proof (quad_range f1 f2 f3 f4 ltac:(lia) ltac:(lia) ltac:(lia) ltac:(lia)).
  split; [lia|]. now apply (lor_range 32).
Qed.

Lemma parse2_range str b e : parse2 str = Some (b, e) -> 0 <= b /\ e < 2 ^ 32.
Proof.
  unfold parse2. destruct (scan_quad_num "-" str) as [[[[[f1 f2] f3] f4] f5]|] eqn:E; [|done].
  apply scan_quad_num_nonneg in E. intros H. repeat (case_match; [done|]).
  rewrite !orb_false_iff, !Z.ltb_ge in *. simplify_eq.
  pose proof (quad_range f1 f2 f3 f4 ltac:(lia) ltac:(lia) ltac:(lia) ltac:(lia)).
  pose proof (quad_range f1 f2 f3 f5 ltac:(lia) ltac:(lia) ltac:(lia) ltac:(lia)). lia.
Qed.

Lemma add_range_raw n q str step gwo peer :
  pool_raw n q -> 0 <= peer < step -> pool_raw n (fst (add_range_to_pool q str step gwo peer)).
Proof.
  intros Q Hp. unfold add_range_to_pool.
  destruct (match parse1 str with Some x => Some x | None => parse2 str end) as [[b e]|] eqn:E; [|done].
  assert (0 <= b /\ e < 2 ^ 32) as [Hb He].
  { destruct (parse1 str) as [[? ?]|] eqn:P; simplify_eq;
      [eapply parse1_range | eapply parse2_range]; eauto. }
  destruct (e <? b) eqn:?; [done|]. destruct (_ / step =? 0) eqn:?; [done|].
  destruct (IPPOOL_MAX_BITS <? _) eqn:?; [done|]. destruct Q as [R N].
  split; [|exact N]. cbn. apply Forall_app. split; [done|].
  constructor; [|constructor]. rewrite Z.ltb_ge, Z.eqb_neq in *.
  pose proof (Z.mul_div_le (e - b + 1) step ltac:(lia)).
  assert (0 <= (e - b + 1) / step) by (apply Z.div_pos; lia).
  split; cbn; lia.
Qed.

Lemma pool_raw_mono n m q : (n <= m)%nat -> pool_raw n q -> pool_raw m q.
Proof. intros H [R N]. split; [done|]. intros i Hi. specialize (N i Hi). lia. Qed.

Lemma pool_at_raw s p q : set_raw s -> pool_at s p = Some q -> pool_raw (length (s_pools s)) q.
Proof.
  intros [P (d & Hd & D)] H. destruct p as [|i]; cbn in H; [congruence|].
  rewrite Forall_lookup in P. eauto.
Qed.

Lemma set_pool_raw s p q x :
  set_raw s -> pool_at s p = Some q -> pool_raw (length (s_pools s)) x -> set_raw (set_pool s p x).
Proof.
  intros [P (d & Hd & D)] H X. destruct p as [|i]; split; cbn; eauto; rewrite length_insert; eauto.
  now apply Forall_insert.
Qed.

Lemma find_name_bound name ps k i :
  find_name name ps k = Some i -> (k <= i < k + length ps)%nat.
Proof.
  revert k. induction ps as [|q ps IH]; intros k H; cbn in *; [done|].
  case_decide; [simplify_eq; lia | apply IH in H; lia].
Qed.

Lemma find_pool_raw s name :
  set_raw s -> exists s' i, find_pool s name true = (s', Some i) /\ set_raw s' /\
    (i < length (s_pools s'))%nat /\ (length (s_pools s) <= length (s_pools s'))%nat /\
    forall p q, pool_at s p = Some q -> pool_at s' p = Some q.
Proof.
  intros W. unfold find_pool. destruct (find_name name (s_pools s) 0) as [i|] eqn:E.
  - apply find_name_bound in E. eexists _, _. split; [reflexivity|]. split_and!; auto; lia.
  - destruct W as [P (d & Hd & D)]. eexists _, _. split; [reflexivity|]. cbn.
    rewrite length_app. cbn. split; [split|]; cbn; rewrite ?length_app; cbn.
    + apply Forall_app. split; [eapply Forall_impl; [exact P|]; intros ? ?|].
      { eapply pool_raw_mono; [|done]. lia. }
      constructor; [|constructor]. split; [constructor | done].
    + exists d. split; [done|]. eapply pool_raw_mono; [|done]. lia.
    + split_and!; try lia. intros [|i] q H; cbn in *; [done|]. now apply lookup_app_l_Some.
Qed.

Lemma pick_pool_raw s name :
  set_raw s -> exists s' p q, (let '(s1, i) := find_pool s name true in (s1, PNamed <$> i)) = (s', Some p)
    /\ set_raw s' /\ pool_at s' p = Some q.
Proof.
  intros W. destruct (find_pool_raw s name W) as (s' & i & -> & W' & Hi & _ & _).
  destruct (lookup_lt_is_Some_2 (s_pools s') i Hi) as [q Hq]. exists s', (PNamed i), q. auto.
Qed.

Lemma parse_line_opts_raw s opt :
  set_raw s -> exists s' o, parse_line_opts s opt = (s', o) /\ set_raw s' /\
    forall p st gwo pe, o = Some (p, (st, gwo, pe)) -> 0 <= pe < st /\ exists q, pool_at s' p = Some q.
Proof.
  intros W. unfold parse_line_opts.
  set (pick := match line_opt opt ",name=" with Some _ => _ | None => _ end).
  assert (exists s' p q, pick = (s', Some p) /\ set_raw s' /\ pool_at s' p = Some q)
    as (s1 & p & q & -> & W1 & Hq).
  { assert (exists s' p q, (s, if isset (s_def_pool s) then Some PDef else None) = (s', Some p)
                     /\ set_raw s' /\ pool_at s' p = Some q) as Def.
    { destruct (sr_def s W) as (d & Hd & _). rewrite Hd. exists s, PDef, d. auto. }
    subst pick. destruct (line_opt opt ",name="); [now apply pick_pool_raw|].
    destruct (strchr opt ","); [|done]. destruct (strchr _ "="); [done | now apply pick_pool_raw]. }
  destruct (parse_allocator opt) as [alloc|] eqn:A; [|eexists _, _; split; [reflexivity|]; split; [done|]; done].
  assert (forall st gwo pe, alloc = (st, gwo, pe) -> 0 <= pe < st) as B.
  { unfold parse_allocator in A. intros. repeat case_match; simplify_eq; lia. }
  destruct (line_opt opt ",next=") as [name|].
  - destruct (find_pool_raw s1 name W1) as (s2 & n & -> & W2 & Hn & Hlen & Keep).
    rewrite (Keep p q Hq). eexists _, _. split; [reflexivity|]. split.
    + eapply set_pool_raw; eauto. destruct (pool_at_raw s2 p q W2 (Keep p q Hq)) as [R N].
      split; [done|]. cbn. intros i [= <-]. done.
    + intros p' st gwo pe [= <- ->]. split; [eauto|].
      rewrite (pool_at_set_pool s2 p q), decide_True by auto. eauto.
  - eexists _, _. split; [reflexivity|]. split; [done|]. intros p' st gwo pe [= <- ->]. eauto.
Qed.

Lemma build_opt_raw ia s opt : set_raw s -> set_raw (build_opt ia s opt).
Proof.
  intros W. unfold build_opt.
  assert (forall gw sh op, set_raw (mk_set (s_pools s) (s_def_pool s) gw sh op)) as F
    by (intros; destruct W; now split).
  repeat (case_match; [apply F|]). case_match; [done|]. case_match; [|done].
  destruct (parse_line_opts_raw s (o_raw opt) W) as (s' & o & -> & W' & Spec).
  destruct o as [[p [[st gwo] pe]]|]; [|done].
  destruct (Spec p st gwo pe eq_refl) as [Hpe [q Hq]]. rewrite Hq.
  eapply set_pool_raw; eauto. apply add_range_raw; [eapply pool_at_raw; eauto | done].
Qed.

(** ** The bitmaps of a new set *)
Lemma nwords_full n : BM_NWORDS (64 * n) = n.
Proof. pose proof (nwords_spec (64 * n)). lia. Qed.

Lemma set_tail_spec N bm c k :
  bm_wf bm (64 * N) -> 0 <= c -> c + Z.of_nat k <= 64 * N ->
  exists bm', foldl (fun acc b => m ← acc; bm_set m b) (Ok bm) (seqZ c (Z.of_nat k)) = Ok bm' /\
    bm_wf bm' (64 * N) /\
    forall j, 0 <= j -> bit bm' j = ((c <=? j) && (j <? c + Z.of_nat k)) || bit bm j.
Proof.
  revert bm c. induction k as [|k IH]; intros bm c W Hc Hk.
  - exists bm. split; [done|]. split; [done|]. intros j Hj.
    rewrite Z.add_0_r. destruct (c <=? j) eqn:?, (j <? c) eqn:?; first [done | exfalso; zbool; lia].
  - rewrite seqZ_cons by lia. cbn [foldl mbind res_bind].
    destruct (bm_set_bit bm (64 * N) c W) as (bm1 & -> & W1 & B1); [rewrite nwords_full; lia|].
    destruct (IH bm1 (Z.succ c) W1 ltac:(lia) ltac:(lia)) as (bm2 & E & W2 & B2).
    replace (Z.pred (Z.of_nat (S k))) with (Z.of_nat k) by lia.
    exists bm2. split; [exact E|]. split; [done|]. intros j Hj.
    rewrite B2, B1, Nat2Z.inj_succ by done.
    destruct (bit bm j), (Z.succ c <=? j) eqn:?, (j <? Z.succ c + Z.of_nat k) eqn:?,
      (j =? c) eqn:?, (c <=? j) eqn:?, (j <? c + Z.succ (Z.of_nat k)) eqn:?; first [done | exfalso; zbool; lia].
Qed.

Lemma zero_map_wf N : 0 <= N -> bm_wf (replicate (Z.to_nat N) 0) (64 * N) /\
  forall j, 0 <= j < 64 * N -> bit (replicate (Z.to_nat N) 0) j = false.
Proof.
  intros HN. split; [split|].
  - lia.
  - rewrite length_replicate, nwords_full. lia.
  - apply Forall_replicate. lia.
  - rewrite nwords_full. lia.
  - intros j Hj. unfold bit. assert (0 <= j / 64 < N).
    { split; [apply Z.div_pos; lia | apply Z.div_lt_upper_bound; lia]. }
    rewrite lookup_replicate_2 by lia. apply Z.bits_0.
Qed.

Lemma used_count_none bm n : (forall i, 0 <= i < n -> bit bm i = false) -> used_count bm n = 0.
Proof.
  intros H. unfold used_count. rewrite (filter_same _ (fun _ => False)).
  - induction (seqZ 0 n) as [|x l IH]; [done|]. rewrite filter_cons_False; [done | tauto].
  - intros x Hx%elem_of_seqZ. rewrite H by lia. split; [done | tauto].
Qed.

(** The bitmap with only the bits past [count] set. *)
Lemma fresh_map count :
  0 <= count ->
  exists bm, set_tail (replicate (Z.to_nat (BM_NWORDS count)) 0) count
               (BM_NWORDS count * BM_WORD_BITS) = Ok bm /\
    bm_wf bm count /\ forall i, 0 <= i < count -> bit bm i = false.
Proof.
  intros Hc. pose proof (nwords_spec count). set (N := BM_NWORDS count) in *.
  destruct (zero_map_wf N ltac:(lia)) as [W0 B0].
  destruct (set_tail_spec N _ count (Z.to_nat (N * 64 - count)) W0 Hc ltac:(lia)) as (bm & E & W & B).
  rewrite Z2Nat.id in E, B by lia. exists bm. split; [exact E|]. split.
  - destruct W as [_ L F _]. rewrite nwords_full in L. split; try done.
    intros i Hi. fold N in Hi. rewrite B by lia.
    destruct (count <=? i) eqn:?, (i <? count + (N * 64 - count)) eqn:?; first [done | exfalso; zbool; lia].
  - intros i Hi. rewrite B, B0 by lia.
    destruct (count <=? i) eqn:?; first [done | exfalso; zbool; lia].
Qed.

Lemma finalize_range_spec gw r :
  range_raw r -> exists r', finalize_range gw r = Ok r' /\ range_wf r' /\
    (forall b, 0 <= b < r_count r' -> bit (r_bitmap r') b = gateway_unit gw r' b).
Proof.
  intros [Hc [Hu Hcur] Hp Hs Hsp He]. unfold finalize_range.
  destruct (fresh_map (r_count r) ltac:(lia)) as (bm & -> & W & B). cbn [mbind res_bind].
  assert (range_wf (with_bitmap r bm (r_used r) (r_cursor r))) as W0.
  { split; cbn; try done; [|lia]. rewrite (used_count_none bm) by done. done. }
  destruct (_ && _) eqn:C.
  - rewrite !andb_true_iff, Z.ltb_lt, !Z.leb_le, negb_true_iff, Z.eqb_neq, !Z.eqb_eq in C.
    destruct C as [[[[[C1 C2] C3] C4] C5] C6]. pose proof (nwords_spec (r_count r)).
    rewrite (bm_test_bit bm _ _ W), B by lia. cbn [mbind res_bind negb].
    destruct (range_set_unit _ (gw - r_start r) W0 ltac:(cbn; lia) ltac:(cbn; apply B; lia)
                (r_cursor r) ltac:(cbn; lia)) as (bm' & Hs' & U & W').
    cbn in Hs', U, W'. rewrite Hs'. eexists. split; [reflexivity|]. split; [exact W'|].
    intros b Hb. cbn in Hb. rewrite (uu_bit _ _ _ _ U) by lia. cbn. rewrite B by lia.
    unfold gateway_unit. cbn. rewrite C1, C2, (proj2 (Z.eqb_neq _ _) C3). cbn.
    destruct (b =? gw - r_start r) eqn:?; symmetry; [apply Z.eqb_eq | apply Z.eqb_neq]; lia.
  - eexists. split; [reflexivity|]. split; [exact W0|]. intros b Hb. cbn in *. rewrite B by done.
    unfold gateway_unit. cbn. symmetry. apply not_true_iff_false. intros G.
    rewrite !andb_true_iff, negb_true_iff, Z.eqb_neq, !Z.eqb_eq in G.
    destruct G as [[[G1 G2] G3] G4]. apply not_true_iff_false in C. apply C.
    rewrite !andb_true_iff, Z.ltb_lt, !Z.leb_le, negb_true_iff, Z.eqb_neq, !Z.eqb_eq.
    rewrite G1 in *. split_and!; try done; lia.
Qed.

Lemma finalize_list_spec gw rs :
  Forall range_raw rs -> exists rs', finalize_list gw rs = Ok rs' /\
    Forall (fun r => range_wf r /\
      forall b, 0 <= b < r_count r -> bit (r_bitmap r) b = gateway_unit gw r b) rs'.
Proof.
  induction 1 as [|r rs R _ (rs' & IH & F)]; [exists []; auto|]. cbn.
  destruct (finalize_range_spec gw r R) as (r' & -> & ?). cbn. rewrite IH. cbn.
  eexists. split; [reflexivity|]. now constructor.
Qed.

Lemma finalize_pools_spec s n ps :
  Forall (pool_raw n) ps -> exists ps', finalize_pools s ps = Ok ps' /\ length ps' = length ps /\
    Forall (fun q => (forall i, p_next q = Some i -> (i < n)%nat) /\
      Forall (fun r => range_wf r /\
        forall b, 0 <= b < r_count r -> bit (r_bitmap r) b = gateway_unit (s_gw_ip_address s) r b)
        (p_ranges q)) ps'.
Proof.
  induction 1 as [|q ps [R N] _ (ps' & IH & L & F)]; [exists []; auto|]. cbn.
  unfold finalize_ranges at 1.
  destruct (finalize_list_spec (s_gw_ip_address s) (p_ranges q) R) as (rs & -> & ?). cbn.
  rewrite IH. cbn. eexists. split; [reflexivity|]. cbn. split; [lia|]. now constructor.
Qed.

Lemma foldl_build_raw ia opts s : set_raw s -> set_raw (foldl (build_opt ia) s opts).
Proof. revert s. induction opts; intros s H; cbn; auto using build_opt_raw. Qed.

(** Every configuration gives a set, with only the gateway marked. *)
Lemma build_pool_set_spec ia sect :
  exists s, build_pool_set ia sect = Ok s /\ set_wf s /\
    forall p j r b, range_at s p j = Some r -> 0 <= b < r_count r ->
    unit_used s (p, j, b) = gateway_unit (s_gw_ip_address s) r b.
Proof.
  unfold build_pool_set. destruct sect as [opts|].
  2: { eexists. split; [reflexivity|]. split; [split|]; intros [] *; cbn; try done;
         rewrite lookup_nil; done. }
  set (s0 := with_pools _ _ _). assert (set_raw s0) as R0.
  { split; [constructor|]. eexists. split; [reflexivity|]. split; [constructor|done]. }
  pose proof (foldl_build_raw ia opts s0 R0) as [P (d & Hd & D)].
  set (s := foldl _ s0 opts) in *. rewrite Hd.
  destruct (finalize_pools_spec s _ [d] (Forall_cons_2 _ _ _ D (Forall_nil_2 _))) as (ds & Ed & _ & Fd).
  destruct (finalize_pools_spec s _ _ P) as (ps & -> & Lp & Fp).
  cbn in Ed. destruct (finalize_ranges s d) as [d'| |]; try done. cbn in Ed.
  injection Ed as <-.
  apply Forall_cons in Fd as [Fd _]. cbn. eexists. split; [reflexivity|].
  assert (forall p q, pool_at (with_pools s ps (Some d')) p = Some q ->
    (forall i, p_next q = Some i -> (i < length (s_pools s))%nat) /\
      Forall (fun r => range_wf r /\
        forall b, 0 <= b < r_count r -> bit (r_bitmap r) b = gateway_unit (s_gw_ip_address s) r b)
        (p_ranges q)) as A.
  { intros [|i] q Hq; cbn in Hq; [simplify_eq; exact Fd|]. rewrite Forall_lookup in Fp. eauto. }
  split; [split|].
  - intros p j r (q & Hq & Hj)%range_at_pool. destruct (A p q Hq) as [_ F].
    rewrite Forall_lookup in F. exact (proj1 (F j r Hj)).
  - intros p q i Hq Hi. cbn. rewrite Lp. exact (proj1 (A p q Hq) i Hi).
  - intros p j r b Hr Hb. unfold unit_used. rewrite Hr. apply range_at_pool in Hr as (q & Hq & Hj).
    destruct (A p q Hq) as [_ F]. rewrite Forall_lookup in F. exact (proj2 (F j r Hj) b Hb).
Qed.

(** ** Which unit an address is *)
Lemma pool_contains_from_spec rs a i j b :
  Forall range_wf rs -> 0 <= a < 2 ^ 32 -> pool_contains_from rs a i = Some (j, b) ->
  exists k r, j = (i + k)%nat /\ rs !! k = Some r /\ 0 <= b < r_count r.
Proof.
  intros W Ha. revert i. induction W as [|r rs Wr W IH]; intros i H; cbn in H; [done|].
  destruct (_ =? BM_INVALID) eqn:E.
  - destruct (IH (S i) H) as (k & r' & -> & Hk & Hb). exists (S k), r'. split; [lia|]. auto.
  - simplify_eq. zbool. destruct (addr_to_bit_spec r a Wr Ha _ eq_refl E).
    exists 0%nat, r. split; [lia|]. auto.
Qed.

Lemma pool_contains_range s p q a j b :
  set_wf s -> 0 <= a < 2 ^ 32 -> pool_at s p = Some q -> pool_contains q a = Some (j, b) ->
  exists r, range_at s p j = Some r /\ 0 <= b < r_count r.
Proof.
  intros W Ha Hq H.
  destruct (pool_contains_from_spec _ a 0 j b (pool_ranges_wf s p q W Hq) Ha H) as (k & r & -> & Hk & Hb).
  exists r. unfold range_at. now rewrite Hq.
Qed.

Lemma find_target_named_spec ps a i t :
  find_target_named ps a i = Some t ->
  exists k q j b, t = (PNamed (i + k), j, b) /\ ps !! k = Some q /\ pool_contains q a = Some (j, b).
Proof.
  revert i. induction ps as [|q ps IH]; intros i H; cbn in H; [done|].
  destruct (pool_contains q a) as [[j b]|] eqn:E.
  - simplify_eq. exists 0%nat, q, j, b. rewrite Nat.add_0_r. auto.
  - destruct (IH (S i) H) as (k & q' & j & b & -> & Hk & Hc). exists (S k), q', j, b.
    rewrite Nat.add_succ_r. auto.
Qed.

Lemma find_target_spec s a n p j b :
  set_wf s -> 0 <= a < 2 ^ 32 -> find_target s a n = Some (p, j, b) ->
  exists r, range_at s p j = Some r /\ 0 <= b < r_count r.
Proof.
  intros W Ha H. unfold find_target in H.
  set (pref := match n with Some _ => _ | None => _ end) in H.
  assert (forall t, pref = Some t -> exists r, range_at s t.1.1 t.1.2 = Some r /\ 0 <= t.2 < r_count r) as P.
  { intros t Ht. subst pref. destruct n as [n|]; [|done].
    destruct (snd (find_pool s n false)) as [i|]; [|done].
    destruct (s_pools s !! i) as [q|] eqn:Hq; [|done].
    destruct (pool_contains q a) as [[j' b']|] eqn:Hc; [|done]. simplify_eq.
    now apply (pool_contains_range s (PNamed i) q a). }
  destruct pref as [t|]; [simplify_eq; exact (P _ eq_refl)|].
  destruct (s_def_pool s) as [d|] eqn:Hd.
  - destruct (pool_contains d a) as [[j' b']|] eqn:Hc.
    + simplify_eq. now apply (pool_contains_range s PDef d a).
    + apply find_target_named_spec in H as (k & q & j1 & b1 & E & Hk & Hc'). simplify_eq.
      now apply (pool_contains_range s (PNamed k) q a).
  - apply find_target_named_spec in H as (k & q & j1 & b1 & E & Hk & Hc'). simplify_eq.
    now apply (pool_contains_range s (PNamed k) q a).
Qed.

(** [find_target] does not depend on what is allocated. *)
Lemma pool_contains_from_shape rs rs' a i :
  length rs' = length rs ->
  (forall k r r', rs !! k = Some r -> rs' !! k = Some r' ->
     range_addr_to_bit r' a = range_addr_to_bit r a) ->
  pool_contains_from rs' a i = pool_contains_from rs a i.
Proof.
  revert rs' i. induction rs as [|r rs IH]; intros [|r' rs'] i L H; try done. cbn in *.
  rewrite (H 0%nat r r' eq_refl eq_refl).
  destruct (_ =? BM_INVALID); [|done]. apply IH; [lia|]. intros k. apply (H (S k)).
Qed.

Lemma pool_contains_shape s s' p q q' a :
  same_shape s s' -> pool_at s p = Some q -> pool_at s' p = Some q' ->
  pool_contains q' a = pool_contains q a.
Proof.
  intros S Hq Hq'. apply pool_contains_from_shape.
  - pose proof (ss_pool s s' S p) as E. rewrite Hq, Hq' in E. tauto.
  - intros k r r' Hr Hr'. pose proof (same_shape_range s s' p k S) as E. unfold range_at in E.
    rewrite Hq, Hq', Hr, Hr' in E. apply addr_to_bit_shape; tauto.
Qed.

Lemma named_shape s s' i :
  same_shape s s' ->
  match s_pools s !! i, s_pools s' !! i with
  | Some q, Some q' => p_name q' = p_name q /\ forall a, pool_contains q' a = pool_contains q a
  | None, None => True
  | _, _ => False
  end.
Proof.
  intros S. pose proof (ss_pool s s' S (PNamed i)) as E. cbn in E.
  destruct (s_pools s !! i) as [q|] eqn:H, (s_pools s' !! i) as [q'|] eqn:H'; try done.
  split; [tauto|]. intros a. now apply (pool_contains_shape s s' (PNamed i)).
Qed.

Lemma find_name_shape n ps ps' k :
  (forall i, match ps !! i, ps' !! i with
             | Some q, Some q' => p_name q' = p_name q | None, None => True | _, _ => False end) ->
  find_name n ps' k = find_name n ps k.
Proof.
  revert ps' k. induction ps as [|q ps IH]; intros [|q' ps'] k H; pose proof (H 0%nat) as H0; try done.
  cbn in *. rewrite H0. case_decide; [done|]. apply IH. intros i. apply (H (S i)).
Qed.

Lemma find_target_named_shape ps ps' a k :
  (forall i, match ps !! i, ps' !! i with
             | Some q, Some q' => pool_contains q' a = pool_contains q a
             | None, None => True | _, _ => False end) ->
  find_target_named ps' a k = find_target_named ps a k.
Proof.
  revert ps' k. induction ps as [|q ps IH]; intros [|q' ps'] k H; pose proof (H 0%nat) as H0; try done.
  cbn in *. rewrite H0. destruct (pool_contains q a) as [[j b]|]; [done|]. apply IH. intros i. apply (H (S i)).
Qed.

Lemma find_target_shape s s' a n : same_shape s s' -> find_target s' a n = find_target s a n.
Proof.
  intros S. unfold find_target, find_pool.
  rewrite (find_target_named_shape (s_pools s) (s_pools s'))
    by (intros i; pose proof (named_shape s s' i S); repeat case_match; intuition auto).
  pose proof (ss_pool s s' S PDef) as D. cbn in D.
  pose proof (fun q q' => pool_contains_shape s s' PDef q q' a S) as D'. cbn in D'.
  assert (forall m, find_name m (s_pools s') 0 = find_name m (s_pools s) 0) as F
    by (intros m; apply find_name_shape; intros i; pose proof (named_shape s s' i S);
        repeat case_match; intuition auto).
  assert (match s_def_pool s' with
          | Some p => match pool_contains p a with Some (j, b) => Some (PDef, j, b) | None => None end
          | None => None end =
          match s_def_pool s with
          | Some p => match pool_contains p a with Some (j, b) => Some (PDef, j, b) | None => None end
          | None => None end) as ->.
  { destruct (s_def_pool s) as [d|], (s_def_pool s') as [d'|]; try done. now rewrite (D' d d'). }
  destruct n as [n|]; [|done]. rewrite F.
  destruct (find_name n (s_pools s) 0) as [i|]; cbn; [|done].
  pose proof (named_shape s s' i S) as N.
  destruct (s_pools s !! i), (s_pools s' !! i); try done. now rewrite (proj2 N).
Qed.

(** ** Reload *)
Lemma reserve_spec s p j b r :
  set_wf s -> range_at s p j = Some r -> 0 <= b < r_count r ->
  exists s', reserve s p j b = Ok s' /\ set_wf s' /\ same_shape s s' /\
    forall u, 0 <= u.2 -> unit_used s' u = unit_used s u || bool_decide (u = (p, j, b)).
Proof.
  intros W Hr Hb. pose proof (sw_ranges s W p j r Hr) as Wr. pose proof (nwords_spec (r_count r)).
  unfold reserve. rewrite Hr, (bm_test_bit _ _ b (rw_bm r Wr)) by lia. cbn.
  destruct (bit (r_bitmap r) b) eqn:Hbit.
  - eexists. split; [reflexivity|]. split; [done|]. split; [apply same_shape_refl|].
    intros u Hu. destruct (decide (u = (p, j, b))) as [->|Ne].
    + unfold unit_used. now rewrite Hr, Hbit.
    + now rewrite bool_decide_eq_false_2, orb_false_r.
  - destruct (range_set_unit r b Wr Hb Hbit (r_cursor r) (rw_cursor r Wr)) as (bm & -> & U & W'). cbn.
    eexists. split; [reflexivity|]. split; [eapply set_wf_set_range; eauto|].
    split; [eapply unit_updated_shape; eauto|]. intros u Hu.
    rewrite (unit_used_set_range s p j r b true) by done. case_decide as E.
    + now rewrite bool_decide_eq_true_2, orb_true_r.
    + now rewrite bool_decide_eq_false_2, orb_false_r.
Qed.

Lemma reconcile_v4_spec s x pol mem :
  set_wf s -> session_addr_ok x ->
  exists s' d, reconcile_v4 s x pol mem = Ok (s', session_moved s x, d) /\
    set_wf s' /\ same_shape s s' /\
    (d = true -> pol = ORPHAN_DISCONNECT /\ session_target s x = None) /\
    forall u, 0 <= u.2 -> unit_used s' u = unit_used s u || bool_decide (Some u = session_target s x).
Proof.
  intros W Ha.
  assert (forall a n, 0 <= a < 2 ^ 32 -> find_target s a n = None \/
     exists p j b s', find_target s a n = Some (p, j, b) /\ reserve s p j b = Ok s' /\
       set_wf s' /\ same_shape s s' /\
       forall u, 0 <= u.2 -> unit_used s' u = unit_used s u || bool_decide (Some u = Some (p, j, b))) as T.
  { intros a n Hn. destruct (find_target s a n) as [[[p j] b]|] eqn:E; [|auto]. right.
    destruct (find_target_spec s a n p j b W Hn E) as (r & Hr & Hb).
    destruct (reserve_spec s p j b r W Hr Hb) as (s' & Hs & W' & S' & U).
    exists p, j, b, s'. split_and!; auto. intros u Hu. rewrite U by done. f_equal.
    apply bool_decide_ext. split; congruence. }
  assert (forall u, unit_used s u = unit_used s u || bool_decide (Some u = None)) as Z
    by (intros; rewrite bool_decide_eq_false_2, orb_false_r; done).
  destruct x as [|l n|a]; cbn [reconcile_v4 session_target session_moved session_addr_ok] in *.
  - eexists _, _. split; [reflexivity|]. split_and!; eauto using same_shape_refl; done.
  - destruct (T (l_peer_addr l) n Ha) as [E | (p & j & b & s' & E & R & W' & S' & U)]; rewrite E.
    + eexists _, _. split; [reflexivity|]. split_and!; eauto using same_shape_refl.
      destruct pol; naive_solver.
    + rewrite R. cbn. eexists _, _. split; [reflexivity|]. split_and!; auto. done.
  - destruct (T a None Ha) as [E | (p & j & b & s' & E & R & W' & S' & U)]; rewrite E.
    + eexists _, _. split; [reflexivity|]. split_and!; eauto using same_shape_refl; done.
    + rewrite R. cbn. eexists _, _. split; [reflexivity|]. split_and!; auto. done.
Qed.

Lemma session_target_shape s s' x : same_shape s s' -> session_target s' x = session_target s x.
Proof. intros S. destruct x; [done | now apply find_target_shape ..]. Qed.

Lemma session_moved_shape s s' x : same_shape s s' -> session_moved s' x = session_moved s x.
Proof. intros S. unfold session_moved. now rewrite (session_target_shape s s'). Qed.

Lemma reconcile_all_spec pol mem sess s :
  set_wf s -> Forall session_addr_ok sess ->
  exists s' ds, reconcile_all s sess pol mem = Ok (s', session_moved s <$> sess, ds) /\
    set_wf s' /\ same_shape s s' /\ length ds = length sess /\
    (forall i x, ds !! i = Some true -> sess !! i = Some x ->
       pol = ORPHAN_DISCONNECT /\ session_target s x = None) /\
    forall u, 0 <= u.2 ->
      unit_used s' u = unit_used s u || bool_decide (Some u ∈ session_target s <$> sess).
Proof.
  intros W F. revert s W. induction F as [|x xs Hx F IH]; intros s W.
  - exists s, []. split_and!; auto using same_shape_refl; [done|].
    intros u _. rewrite bool_decide_eq_false_2, orb_false_r; [done | apply not_elem_of_nil].
  - cbn [reconcile_all]. destruct (reconcile_v4_spec s x pol mem W Hx) as (s1 & d & -> & W1 & S1 & D1 & U1).
    cbn [mbind res_bind]. destruct (IH s1 W1) as (s2 & ds & -> & W2 & S2 & L & D2 & U2). cbn.
    eexists _, _. split.
    { unfold mret, res_ret. do 4 f_equal. apply list_fmap_ext. intros i y _. now apply session_moved_shape. }
    split_and!; auto; [eapply same_shape_trans; eauto | cbn; lia | |].
    + intros [|i] y; cbn; [intros [= ->] [= <-]; auto|]. intros Hi Hy.
      destruct (D2 i y Hi Hy). rewrite <- (session_target_shape s s1) by done. auto.
    + intros u Hu. rewrite U2, U1 by done.
      rewrite <- orb_assoc. f_equal. 
      rewrite <- bool_decide_or. apply bool_decide_ext. rewrite elem_of_cons.
      replace (session_target s1 <$> xs) with (session_target s <$> xs); [done|].
      apply list_fmap_ext. intros i y _. symmetry. now apply session_target_shape.
Qed.

Lemma reserve_gw s p j b s' : reserve s p j b = Ok s' -> s_gw_ip_address s' = s_gw_ip_address s.
Proof.
  unfold reserve, set_range, set_pool. intros H.
  destruct (range_at s p j) as [r|]; [|done]. destruct (bm_test (r_bitmap r) b) as [[]| |]; try done.
  - cbn in H. now injection H as <-.
  - cbn in H. destruct (bm_set (r_bitmap r) b); try done. cbn in H. injection H as <-.
    destruct (pool_at s p); [|done]. now destruct p.
Qed.

Lemma reconcile_all_gw s sess pol mem s' sess' ds :
  reconcile_all s sess pol mem = Ok (s', sess', ds) -> s_gw_ip_address s' = s_gw_ip_address s.
Proof.
  revert s s' sess' ds. induction sess as [|x xs IH]; intros s s' sess' ds H; cbn in H.
  { now injection H as <- _ _. }
  destruct (reconcile_v4 s x pol mem) as [[[s1 x1] d]| |] eqn:E; try done. cbn in H.
  destruct (reconcile_all s1 xs pol mem) as [[[s2 xs2] ds2]| |] eqn:E2; try done. cbn in H.
  injection H as <- _ _. rewrite (IH _ _ _ _ E2). clear - E.
  unfold reconcile_v4 in E. destruct x as [|l n|a].
  - now injection E as <- _ _.
  - destruct (find_target s (l_peer_addr l) n) as [[[p j] b]|]; [|now injection E as <- _ _].
    destruct (reserve s p j b) eqn:R; try done. cbn in E. injection E as <- _ _. eapply reserve_gw; eauto.
  - destruct (find_target s a None) as [[[p j] b]|]; [|now injection E as <- _ _].
    destruct (reserve s p j b) eqn:R; try done. cbn in E. injection E as <- _ _. eapply reserve_gw; eauto.
Qed.

(** ** The theorems *)
Lemma get_start_valid s name :
  match match name with
        | Some n => match snd (find_pool s n false) with Some i => Some (PNamed i) | None => None end
        | None => match s_def_pool s with Some _ => Some PDef | None => None end
        end with
  | Some p => exists q, pool_at s p = Some q
  | None => True
  end.
Proof.
  destruct name as [n|].
  - unfold find_pool. destruct (find_name n (s_pools s) 0) as [i|] eqn:E; [|done].
    apply find_name_bound in E. cbn. apply lookup_lt_is_Some_2. lia.
  - destruct (s_def_pool s) eqn:E; [|done]. eauto.
Qed.

Lemma gw_set_wf : build_pool_set gw_addr (Some gw_conf) = Ok gw_set /\ set_wf gw_set.
Proof.
  destruct (build_pool_set_spec gw_addr (Some gw_conf)) as (s & E & W & _).
  assert (build_pool_set gw_addr (Some gw_conf) = Ok gw_set) as E' by (vm_compute; reflexivity).
  split; [done|]. rewrite E' in E. injection E as ->. done.
Qed.

(** C5. Over any sequence of address requests and releases on a loaded set, two
    live leases never stand for the same unit, a unit is marked exactly when it
    was reserved at load time or a live lease stands for it, and when the
    configured ranges do not overlap no two live leases have the same address. *)
Theorem live_leases_distinct (s0 s : pool_set) (ls : list ip_lease) :
  set_wf s0 -> pool_run s0 (s, ls) ->
  NoDup (lease_unit s0 <$> ls) /\
  (forall u, 0 <= u.2 ->
     unit_used s u = unit_used s0 u || bool_decide (Some u ∈ lease_unit s0 <$> ls)) /\
  (ranges_disjoint s0 -> NoDup (l_peer_addr <$> ls)).
Proof.
  intros W R. pose proof (pool_run_inv s0 _ W R) as I. split; [apply I|]. split; [apply I|].
  intros D. apply (NoDup_fmap_through (lease_unit s0)); [|apply I].
  intros x y Hx Hy. eapply leases_addresses; eauto.
Qed.

Lemma live_leases_distinct_witness :
  exists s ls, length ls = 2%nat /\ pool_run gw_set (s, ls) /\
    NoDup (lease_unit gw_set <$> ls) /\
    (forall u, 0 <= u.2 ->
       unit_used s u = unit_used gw_set u || bool_decide (Some u ∈ lease_unit gw_set <$> ls)) /\
    (ranges_disjoint gw_set -> NoDup (l_peer_addr <$> ls)).
Proof.
  eexists _, [_; _]. split; [reflexivity|].
  match goal with |- pool_run _ ?x /\ _ => assert (pool_run gw_set x) as R end.
  { eapply run_step; [eapply run_step; [apply run_start|]|];
      (eapply (step_get _ _ _ 1 None true 0); [lia | vm_compute; reflexivity]). }
  split; [exact R|]. apply live_leases_distinct; [apply gw_set_wf | exact R].
Defined.

(** When [get_ip] returns a lease, the lease is a unit that was free, its
    address lies in the configured range, and that unit becomes marked and no
    other changes; when it returns none for lack of units, the session's pool
    does not exist or every range of every pool of its overflow chain is full.
    It never touches memory outside of the bitmaps. *)
Theorem get_ip_correct (fuel : nat) (s : pool_set) (name : option string) (ppp : bool)
    (rnd : Z) (mem : bool) (x : res (option ip_lease * pool_set)) :
  set_wf s -> 0 <= rnd -> get_ip fuel s name ppp rnd mem = Some x ->
  exists o s', x = Ok (o, s') /\ set_wf s' /\ same_shape s s' /\
  match o with
  | Some l => exists p j b r, lease_unit s' l = Some (p, j, b) /\ range_at s p j = Some r /\
      unit_used s (p, j, b) = false /\ r_start r <= l_peer_addr l <= r_end r /\
      forall u, 0 <= u.2 -> unit_used s' u = if decide (u = (p, j, b)) then true else unit_used s u
  | None =>
      (forall u, 0 <= u.2 -> unit_used s' u = unit_used s u) /\
      (mem = true ->
       match name with Some n => find_name n (s_pools s) 0 = None | None => s_def_pool s = None end \/
       exists p n, chain_closes s p n /\
         forall k p', (k <= n)%nat -> follow s p k = Some p' -> pool_full s p')
  end.
Proof.
  intros W Hr H. destruct (get_ip_outcome _ _ _ _ _ _ _ W Hr H) as (o & s' & -> & W' & S' & Spec).
  exists o, s'. split; [done|]. split; [done|]. split; [done|]. destruct o as [l|].
  - destruct Spec as (p & j & b & r & ? & ? & ? & ? & ? & ? & ?). exists p, j, b, r. auto.
  - split; [exact Spec|]. intros ->. unfold get_ip in H. pose proof (get_start_valid s name) as V.
    destruct (match name with Some _ => _ | None => _ end) as [p0|] eqn:E.
    + right. destruct (get_loop fuel s _ p0 p0) as [y|] eqn:Hg; [|done].
      destruct (get_loop_spec s (if s_shuffle s then rnd else 0) p0 W
                  ltac:(destruct (s_shuffle s); lia) _ p0 y V Hg)
        as [[-> (n & Hc & Hf)] | (u & s1 & -> & Hf & _)]; [exists p0, n; auto|].
      destruct u as [[p j] b]. destruct Hf as (r & r' & Hp & _ & _ & _ & _ & ->).
      rewrite (range_at_set_range s p j r), decide_True in H by done. done.
    + left. destruct name as [n|]; [|now destruct (s_def_pool s)].
      unfold find_pool in E. now destruct (find_name n (s_pools s) 0).
Qed.

Lemma get_ip_correct_witness :
  exists l s', get_ip 1 gw_set None true 0 true = Some (Ok (Some l, s')) /\
    l_peer_addr l = 167772160 /\ set_wf s' /\ same_shape gw_set s'.
Proof.
  eexists _, _. split; [vm_compute; reflexivity|]. split; [reflexivity|].
  destruct (get_ip_correct 1 gw_set None true 0 true _ (proj2 gw_set_wf) ltac:(lia)
              ltac:(vm_compute; reflexivity)) as (o & s' & E & W & S & _).
  injection E as <- <-. split; [exact W | exact S].
Defined.

(** Releasing a lease right after it was given undoes the allocation: every
    unit of every pool is marked as it was before, and no access is outside of
    the bitmaps. *)
Theorem put_ip_undoes_get_ip (fuel : nat) (s : pool_set) (name : option string) (ppp : bool)
    (rnd : Z) (l : ip_lease) (s' : pool_set) :
  set_wf s -> 0 <= rnd -> get_ip fuel s name ppp rnd true = Some (Ok (Some l, s')) ->
  exists s'', put_ip s' l = Ok s'' /\ set_wf s'' /\ same_shape s s'' /\
    forall u, 0 <= u.2 -> unit_used s'' u = unit_used s u.
Proof.
  intros W Hr H. destruct (get_ip_outcome _ _ _ _ _ _ _ W Hr H) as (o & s1 & E & W' & S' & Spec).
  injection E as <- <-. destruct Spec as (p & j & b & r & Hl & Hp & Hb & Hf & Ha & Hin & U).
  pose proof (sw_ranges s W p j r Hp) as [? ? ? ? ? ? ? ?].
  destruct (put_ip_outcome s' l (p, j, b) W' ltac:(lia) Hl) as (s2 & E & W2 & S2 & U2).
  { rewrite U by (cbn; lia). now rewrite decide_True. }
  exists s2. split_and!; auto; [eapply same_shape_trans; eauto|].
  intros u Hu. rewrite U2, U by done. case_decide; [now subst | done].
Qed.

Lemma put_ip_undoes_get_ip_witness :
  exists l s' s'', get_ip 1 gw_set None true 0 true = Some (Ok (Some l, s')) /\
    put_ip s' l = Ok s'' /\ forall u, 0 <= u.2 -> unit_used s'' u = unit_used gw_set u.
Proof.
  destruct (put_ip_undoes_get_ip 1 gw_set None true 0 _ _ (proj2 gw_set_wf) ltac:(lia)
              ltac:(vm_compute; reflexivity)) as (s'' & E & _ & _ & U).
  eexists _, _, s''. split; [vm_compute; reflexivity|]. split; [exact E | exact U].
Defined.

(** The search of [get_ip] along the overflow chain ends exactly when the
    chain ends or returns to the pool the search began with, or when it meets a
    pool with a free unit. *)
Theorem get_loop_terminates_iff (s : pool_set) (rnd : Z) (p0 : pool_ref) (q0 : ip_pool) :
  set_wf s -> 0 <= rnd -> pool_at s p0 = Some q0 ->
  (exists fuel x, get_loop fuel s rnd p0 p0 = Some x) <->
  (exists n, chain_closes s p0 n) \/
  (exists n p q, follow s p0 n = Some p /\ pool_at s p = Some q /\ ~ Forall range_full (p_ranges q)).
Proof.
  intros W Hr Hq. split.
  - intros (fuel & x & Hx).
    destruct (get_loop_spec s rnd p0 W Hr fuel p0 x ltac:(eauto) Hx)
      as [[_ (n & Hc & _)] | ([[p j] b] & s' & _ & Hf & n & Hn)]; [left; exists n; exact Hc|].
    right. destruct Hf as (r & r' & Hp & Hb & Hfree & _). apply range_at_pool in Hp as (q & Hpq & Hj).
    exists n, p, q. split; [exact Hn|]. split; [done|]. rewrite Forall_lookup. intros F.
    rewrite (F j r Hj b Hb) in Hfree. done.
  - intros H. assert (exists n, follow s p0 (S n) = None \/ follow s p0 (S n) = Some p0 \/
      (exists p q, follow s p0 n = Some p /\ pool_at s p = Some q /\ ~ Forall range_full (p_ranges q)))
      as [n Hn] by (destruct H as [[n []]|[n ?]]; exists n; auto).
    exists (S n). apply get_loop_fuel; eauto.
Qed.

Lemma get_loop_terminates_iff_witness :
  (exists fuel x, get_loop fuel gw_set 0 PDef PDef = Some x) /\ chain_closes gw_set PDef 0.
Proof.
  assert (chain_closes gw_set PDef 0) as C by (left; reflexivity).
  split; [|exact C].
  eapply (get_loop_terminates_iff gw_set 0 PDef); [apply gw_set_wf | lia | reflexivity |].
  left. exists 0%nat. exact C.
Defined.

Lemma cycle_follow n : follow cycle_set (PNamed 1) n = Some (PNamed 1) \/
  follow cycle_set (PNamed 1) n = Some (PNamed 2).
Proof.
  assert (forall p, p = PNamed 1 \/ p = PNamed 2 ->
    follow cycle_set p n = Some (PNamed 1) \/ follow cycle_set p n = Some (PNamed 2)) as H; [|auto].
  induction n as [|n IH]; intros p [->| ->]; cbn [follow]; auto.
  - apply (IH (PNamed 2)). auto.
  - apply (IH (PNamed 1)). auto.
Qed.

Lemma one_unit_full r w : r_count r = 1 -> r_bitmap r = [w] -> Z.testbit w 0 = true -> range_full r.
Proof.
  intros Hc Hm Hw i Hi. assert (i = 0) as -> by lia. unfold bit. now rewrite Hm.
Qed.

Lemma cycle_set_wf : build_pool_set gw_addr (Some cycle_conf) = Ok cycle_set0 /\ set_wf cycle_set0.
Proof.
  destruct (build_pool_set_spec gw_addr (Some cycle_conf)) as (s & E & W & _).
  assert (build_pool_set gw_addr (Some cycle_conf) = Ok cycle_set0) as E' by (vm_compute; reflexivity).
  split; [done|]. rewrite E' in E. injection E as ->. done.
Qed.

(** The overflow search can spin for ever: with the pools of a configuration
    chained a to b, b to c and c to b, three sessions of pool a exhaust the three
    pools, and the next request for pool a never returns, whatever the bound on
    the number of iterations. *)
Theorem get_ip_overflow_cycle_hangs :
  exists s0 l1 l2 l3, build_pool_set gw_addr (Some cycle_conf) = Ok s0 /\
    pool_run s0 (cycle_set, [l3; l2; l1]) /\
    forall fuel ppp rnd mem, 0 <= rnd -> get_ip fuel cycle_set (Some "a"%string) ppp rnd mem = None.
Proof.
  destruct cycle_set_wf as [E W]. exists cycle_set0. eexists _, _, _. split; [exact E|].
  match goal with |- pool_run _ ?x /\ _ => assert (pool_run cycle_set0 x) as R end.
  { eapply (run_step _ (cycle_set2, [_; _])); [eapply (run_step _ (cycle_set1, [_]));
      [eapply run_step; [apply run_start|]|]|];
      (eapply (step_get _ _ _ 3 (Some "a"%string) true 0); [lia | vm_compute; reflexivity]). }
  split; [exact R|]. pose proof (hi_wf _ _ (pool_run_inv _ _ W R)) as Wc. cbn in Wc.
  intros fuel ppp rnd mem Hr. unfold get_ip.
  change (snd (find_pool cycle_set "a" false)) with (Some 0%nat). cbv iota beta.
  assert (forall p, p = PNamed 0 \/ p = PNamed 1 \/ p = PNamed 2 -> pool_full cycle_set p) as F.
  { intros p [->|[->| ->]]; eexists; (split; [reflexivity|]); (constructor; [|constructor]);
      eapply one_unit_full; reflexivity. }
  rewrite (get_loop_stuck cycle_set); [done | done | | eexists; reflexivity | |].
  - change (s_shuffle cycle_set) with false. lia.
  - intros [|n]; [exists (PNamed 0); auto|]. cbn [follow].
    change (next_pool cycle_set (PNamed 0)) with (Some (PNamed 1)). cbv iota beta.
    destruct (cycle_follow n) as [-> | ->]; eexists; (split; [reflexivity | apply F; auto]).
  - intros n. cbn [follow]. change (next_pool cycle_set (PNamed 0)) with (Some (PNamed 1)). cbv iota beta.
    destruct (cycle_follow n) as [-> | ->]; discriminate.
Qed.

(** A reload never fails on its bitmaps, and in the set it installs a unit is
    marked exactly when it is the configured gateway address of a p2p range or
    the address of a live session; every session's lease points to the unit of
    its address or is orphaned, and only orphaned sessions are disconnected. *)
Theorem load_config_correct (inet_addr : string -> Z) (sect : option (list conf_option_t))
    (sess : list session_ipv4) (mem : bool) :
  Forall session_addr_ok sess ->
  exists s ds, load_config inet_addr sect sess mem = Ok (s, session_moved s <$> sess, ds) /\
    set_wf s /\
    (forall p j r b, range_at s p j = Some r -> 0 <= b < r_count r ->
       unit_used s (p, j, b)
       = gateway_unit (s_gw_ip_address s) r b
         || bool_decide (Some (p, j, b) ∈ session_target s <$> sess)) /\
    (forall i x, ds !! i = Some true -> sess !! i = Some x -> session_target s x = None).
Proof.
  intros F. destruct (build_pool_set_spec inet_addr sect) as (s0 & E & W & G).
  destruct (reconcile_all_spec (s_orphan_policy s0) mem sess s0 W F) as (s & ds & R & W' & S & _ & D & U).
  exists s, ds. unfold load_config. rewrite E. cbn [mbind res_bind]. rewrite R.
  split.
  { do 3 f_equal. apply list_fmap_ext. intros i y _. symmetry. now apply session_moved_shape. }
  split; [done|]. assert (s_gw_ip_address s = s_gw_ip_address s0) as Egw
    by (eapply reconcile_all_gw; eauto).
  split.
  - intros p j r b Hr Hb. rewrite U by (cbn; lia). pose proof (same_shape_range s0 s p j S) as Er.
    rewrite Hr in Er. destruct (range_at s0 p j) as [r0|] eqn:Hr0; [|done].
    rewrite (G p j r0 b Hr0) by lia. destruct Er as (Es & _ & Et & Ep & _).
    unfold gateway_unit. rewrite Es, Et, Ep, Egw. f_equal. apply bool_decide_ext.
    replace (session_target s <$> sess) with (session_target s0 <$> sess); [done|].
    apply list_fmap_ext. intros i y _. symmetry. now apply session_target_shape.
  - intros i x Hi Hx. rewrite (session_target_shape s0 s) by done. now destruct (D i x Hi Hx).
Qed.

Lemma load_config_correct_witness :
  exists s ds, load_config gw_addr (Some gw_conf) [ForeignIpv4 167772162] true
               = Ok (s, [ForeignIpv4 167772162], ds) /\ set_wf s /\
    unit_used s (PDef, 0%nat, 2) = true.
Proof.
  destruct (load_config_correct gw_addr (Some gw_conf) [ForeignIpv4 167772162] true) as (s & ds & E & W & U & _).
  { constructor; [cbn; lia | constructor]. }
  exists s, ds. split; [exact E|]. split; [exact W|].
  assert (E2 : load_config gw_addr (Some gw_conf) [ForeignIpv4 167772162] true
    = load_config gw_addr (Some gw_conf) [ForeignIpv4 167772162] true) by reflexivity.
  rewrite E in E2 at 1. vm_compute in E2. injection E2 as -> _. vm_compute. reflexivity.
Defined.

(** The configured gateway address is never handed out from a point-to-point
    range of a loaded set. *)
Theorem gateway_never_leased (inet_addr : string -> Z) (sect : option (list conf_option_t))
    (s0 s : pool_set) (ls : list ip_lease) (l : ip_lease) (p : pool_ref) (j : nat) (r : ip_range) :
  build_pool_set inet_addr sect = Ok s0 -> pool_run s0 (s, ls) -> l ∈ ls ->
  l_range l = Some (p, j) -> range_at s0 p j = Some r -> r_step r = 1 -> r_peer_offset r = 0 ->
  s_gw_ip_address s0 <> 0 -> l_peer_addr l <> s_gw_ip_address s0.
Proof.
  intros E R Hl Hlr Hr Hst Hpo Hgw Heq.
  destruct (build_pool_set_spec inet_addr sect) as (s1 & E1 & W & G).
  rewrite E in E1. injection E1 as <-.
  destruct (hi_lease _ _ (pool_run_inv s0 _ W R) l Hl) as ([[p' j'] b] & Hu & Hf & _ & Ha).
  destruct (lease_unit_inv s0 l p' j' b W Ha Hu) as (r' & Hr' & Hlr' & Hb & _ & _ & Er).
  rewrite Hlr in Hlr'. simplify_eq. rewrite (G _ _ r b Hr Hb) in Hf.
  unfold gateway_unit in Hf. rewrite Hst, Hpo in Hf. cbn in Hf.
  rewrite (proj2 (Z.eqb_neq _ _) Hgw) in Hf. cbn in Hf. zbool. rewrite Hst, Hpo in Er. lia.
Qed.

Lemma gateway_never_leased_witness :
  exists s l, pool_run gw_set (s, [l]) /\ l_peer_addr l <> s_gw_ip_address gw_set.
Proof.
  eexists _, _. match goal with |- pool_run _ ?x /\ _ => assert (pool_run gw_set x) as R end.
  { eapply run_step; [apply run_start|].
    eapply (step_get _ _ _ 1 None true 0); [lia | vm_compute; reflexivity]. }
  split; [exact R|].
  eapply (gateway_never_leased gw_addr (Some gw_conf)); [apply gw_set_wf | exact R | left | .. ];
    try reflexivity. vm_compute. discriminate.
Defined.
