(* ===== verification/Utils.v ===== *)
(** * Shared helpers (accel-pppd/utils.h, utils.c)

    Big-endian access to unaligned memory, and the random source. *)
From S2P Require Import Prelude.

(** ** Big-endian reads and writes

    The pointer is a buffer and an offset into it. *)
Definition u_read_be16 (buf : list Z) (off : nat) : res Z := b ← slice off 2 buf; mret (be_decode b).
Definition u_read_be32 (buf : list Z) (off : nat) : res Z := b ← slice off 4 buf; mret (be_decode b).
Definition u_read_be64 (buf : list Z) (off : nat) : res Z := b ← slice off 8 buf; mret (be_decode b).

Definition u_write_be16 (buf : list Z) (off : nat) (value : Z) : res (list Z) :=
  splice off (be_encode 2 (u16 value)) buf.
Definition u_write_be32 (buf : list Z) (off : nat) (value : Z) : res (list Z) :=
  splice off (be_encode 4 (u32 value)) buf.
Definition u_write_be64 (buf : list Z) (off : nat) (value : Z) : res (list Z) :=
  splice off (be_encode 8 (u64 value)) buf.

(** ** The random source

    What successive [read] calls on [urandom_fd] return. *)
Inductive read_result : Type :=
| ReadBytes (bs : list Z)
| ReadIntr
| ReadError.

(** [u_randbuf]: [None] is the -1 return; the rest of the reads is kept.
    [read] gives at most the number of bytes asked for. *)
Fixpoint u_randbuf (src : list read_result) (buf_len : nat) : option (list Z) * list read_result :=
  match buf_len with
  | O => (Some [], src)
  | S _ =>
      match src with
      | [] => (None, [])
      | ReadError :: src' => (None, src')
      | ReadIntr :: src' => u_randbuf src' buf_len
      | ReadBytes [] :: src' => (None, src')
      | ReadBytes bs :: src' =>
          let got := take buf_len bs in
          match u_randbuf src' (buf_len - length got) with
          | (Some rest, src'') => (Some (got ++ rest), src'')
          | (None, src'') => (None, src'')
          end
      end
  end.

Definition source_ok (src : list read_result) : Prop :=
  Forall (fun r => match r with ReadBytes bs => bytes_ok bs | _ => True end) src.

(** What [u_randbuf] fills is as long as asked for, and bytes. *)
Lemma u_randbuf_spec src n bs src' :
  source_ok src -> u_randbuf src n = (Some bs, src') ->
  length bs = n /\ bytes_ok bs /\ source_ok src'.
Proof.
  intros Hs. revert n bs src'. induction Hs as [|r src Hr Hs IH]; intros n bs src' H.
  - destruct n; cbn in H; [|done]. simplify_eq. repeat split; constructor.
  - destruct n as [|n]; [cbn in H; simplify_eq; split_and!; [done | constructor | now constructor]|].
    cbn [u_randbuf] in H. destruct r as [b| |]; [|eauto|done].
    destruct b as [|x b]; [done|].
    destruct (u_randbuf src _) as [[rest|] src1] eqn:E; [|done]. simplify_eq.
    apply IH in E as (L & B & S'). rewrite length_app, L.
    split; [|split; [|done]].
    + rewrite length_take. lia.
    + apply bytes_ok_app. split; [|done]. now apply bytes_ok_take.
Qed.

Lemma u_randbuf_rest src n bs src' : source_ok src -> u_randbuf src n = (bs, src') -> source_ok src'.
Proof.
  intros Hs. revert n bs src'. induction Hs as [|r src Hr Hs IH]; intros n bs src' H.
  - destruct n; cbn in H; simplify_eq; constructor.
  - destruct n as [|n]; [cbn in H; simplify_eq; now constructor|].
    cbn [u_randbuf] in H. destruct r as [b| |]; [|eauto|now simplify_eq].
    destruct b as [|x b]; [now simplify_eq|].
    destruct (u_randbuf src _) as [[rest|] src1] eqn:E; simplify_eq; eauto.
Qed.

(** ** 16-bit reads *)
Lemma read_be16_total l off :
  (off + 2 <= length l)%nat -> u_read_be16 l off = Ok (256 * (l !!! off) + l !!! S off).
Proof.
  intros H. unfold u_read_be16.
  destruct (slice_lookup off 2 l H) as (b & -> & L & B). cbn.
  destruct b as [|x [|y [|z b]]]; try (cbn in L; lia).
  pose proof (B 0%nat ltac:(lia)) as B0. pose proof (B 1%nat ltac:(lia)) as B1. cbn in B0, B1.
  rewrite Nat.add_0_r in B0. replace (off + 1)%nat with (S off) in B1 by lia.
  unfold mret, res_ret. f_equal. cbn. lia.
Qed.

Lemma read_be16_app pre v post :
  0 <= v < 65536 -> u_read_be16 (pre ++ be_encode 2 v ++ post) (length pre) = Ok v.
Proof.
  intros Hv. unfold u_read_be16. rewrite <- (Nat.add_0_r (length pre)), slice_app_r.
  rewrite <- (length_be_encode 2 v) at 1. rewrite slice_app_l. cbn [mbind res_bind].
  rewrite be_decode_encode, Z.mod_small by (cbn; lia). done.
Qed.

Lemma read_be16_safe buf off :
  bytes_ok buf -> (off + 2 <= length buf)%nat -> safe (fun v => 0 <= v < 65536) (u_read_be16 buf off).
Proof.
  intros B H. rewrite read_be16_total by done. cbn.
  assert (byte_ok (buf !!! off) /\ byte_ok (buf !!! S off)) as [H0 H1]
    by (split; apply bytes_ok_total; auto; lia).
  unfold byte_ok in *. lia.
Qed.

Lemma u_read_be16_total buf off :
  bytes_ok buf -> (off + 2 <= length buf)%nat -> exists v, u_read_be16 buf off = Ok v /\ 0 <= v < 65536.
Proof.
  intros Hb L. pose proof (read_be16_safe buf off Hb L) as R. rewrite read_be16_total in * by done. eauto.
Qed.
