(* ===== verification/L2tpPacket.v ===== *)
(** * L2TP control messages (accel-pppd/ctrl/l2tp/packet.c, dict.c, l2tp.h, l2tp_prot.h)

    Building, hiding, sending, receiving and uncovering the attribute-value
    pairs (AVPs) of a control message.

    OpenSSL's MD5 is the parameter [md5]; the lemmas that need it say that a
    digest is 16 bytes.  A message is the list of its bytes.  The fields of the
    header are represented by their values in host order.  [recvfrom] and
    [sendto] are the ends of the model: [l2tp_recv] starts from the bytes
    received and [l2tp_packet_send] ends with the bytes to send. *)
From S2P Require Import Prelude Utils.

Inductive attr_type : Type :=
| ATTR_TYPE_NONE | ATTR_TYPE_INT16 | ATTR_TYPE_INT32 | ATTR_TYPE_INT64
| ATTR_TYPE_OCTETS | ATTR_TYPE_STRING.

Definition L2TP_MAX_PACKET_SIZE : Z := 65536.
Definition L2TP_FLAG_T : Z := 32768.
Definition L2TP_FLAG_L : Z := 16384.
Definition L2TP_FLAG_S : Z := 2048.
Definition L2TP_FLAG_O : Z := 512.
Definition L2TP_VER_MASK : Z := 15.
Definition L2TP_AVP_FLAG_M : Z := 32768.
Definition L2TP_AVP_FLAG_H : Z := 16384.
Definition L2TP_AVP_LEN_MASK : Z := 1023.
Definition MD5_DIGEST_LENGTH : nat := 16.
Definition Message_Type : Z := 0.
Definition Random_Vector : Z := 36.

(** [sizeof(struct l2tp_hdr_t)] and [sizeof(struct l2tp_avp_t)] *)
Definition HDR_SIZE : Z := 12.
Definition AVP_SIZE : Z := 6.

Record l2tp_dict_attr_t : Type := mk_da {
  da_id : Z;
  da_type : attr_type;
  da_M : Z;
  da_H : Z
}.

(** The union [l2tp_value_t]: an integer member or a pointer to octets. *)
Inductive l2tp_value_t : Type :=
| VNone
| VInt (v : Z)
| VOctets (o : list Z).

Record l2tp_attr_t : Type := mk_attr {
  a_attr : l2tp_dict_attr_t;
  a_M : bool;
  a_H : bool;
  a_length : Z;
  a_val : l2tp_value_t
}.

Record l2tp_hdr_t : Type := mk_hdr {
  h_flags : Z;
  h_length : Z;
  h_tid : Z;
  h_sid : Z;
  h_Ns : Z;
  h_Nr : Z
}.

Record l2tp_packet_t : Type := mk_packet {
  p_hdr : l2tp_hdr_t;
  p_attrs : list l2tp_attr_t;
  p_last_RV : option l2tp_attr_t;
  p_secret : option (list Z);
  p_hide_avps : bool
}.

Definition l2tp_packet_is_ZLB (pack : l2tp_packet_t) : bool :=
  match p_attrs pack with [] => true | _ => false end.

Definition flag (x mask : Z) : bool := negb (Z.land x mask =? 0).

Fixpoint l2tp_dict_find_attr_by_id (dict : list l2tp_dict_attr_t) (id : Z)
  : option l2tp_dict_attr_t :=
  match dict with
  | [] => None
  | da :: dict' => if da_id da =? id then Some da else l2tp_dict_find_attr_by_id dict' id
  end.

(** [memxor] of [n] bytes of [src] into [buf] at [off]. *)
Definition memxor (buf : list Z) (off : nat) (src : list Z) (n : nat) : res (list Z) :=
  d ← slice off n buf;
  s ← slice 0 n src;
  splice off (zip_with Z.lxor d s) buf.

(** [secret == NULL || secret_len == 0] *)
Definition no_secret (secret : option (list Z)) : bool :=
  match secret with Some (_ :: _) => false | _ => true end.
Definition secret_bytes (secret : option (list Z)) : list Z :=
  match secret with Some s => s | None => [] end.

(** The octets an attribute points to; an attribute of another type has none. *)
Definition octets_of (a : l2tp_attr_t) : res (list Z) :=
  match a_val a with VOctets o => Ok o | _ => Oob end.

Section Md5.
Variable md5 : list Z -> list Z.

(** ** Uncovering a hidden AVP *)

(** One step of the backward loop: uncover the block after block [k]. *)
Definition decode_block (secret : list Z) (val : list Z) (k : nat) (n : nat) : res (list Z) :=
  prev ← slice (k * MD5_DIGEST_LENGTH) MD5_DIGEST_LENGTH val;
  memxor val (k * MD5_DIGEST_LENGTH + MD5_DIGEST_LENGTH) (md5 (secret ++ prev)) n.

(** [while (prev_block >= avp->val)], from block [k - 1] down to block 0. *)
Fixpoint decode_loop (secret : list Z) (val : list Z) (k : nat) : res (list Z) :=
  match k with
  | O => mret val
  | S k' => val' ← decode_block secret val k' MD5_DIGEST_LENGTH; decode_loop secret val' k'
  end.

(** [decode_avp]: [val] is the value part of the AVP as received; the result
    is the value part uncovered in place, and the length it carries. *)
Definition decode_avp (flags type : Z) (val : list Z) (RV : l2tp_attr_t) (secret : list Z)
  : res (list Z * Z) :=
  let avp_len := Z.land flags L2TP_AVP_LEN_MASK in
  if avp_len <? AVP_SIZE + 2 then Fail
  else
    let attr_len := u16 (avp_len - AVP_SIZE) in
    rv ← octets_of RV;
    let p1 := md5 (be_encode 2 type ++ secret ++ rv) in
    val' ←
      (if attr_len <=? Z.of_nat MD5_DIGEST_LENGTH then memxor val 0 p1 (Z.to_nat attr_len)
       else
         first ← slice 0 MD5_DIGEST_LENGTH val;
         p1 ← memxor p1 0 first MD5_DIGEST_LENGTH;
         orig_attr_len ← u_read_be16 p1 0;
         if orig_attr_len <=? Z.of_nat MD5_DIGEST_LENGTH - 2 then splice 0 p1 val
         else if attr_len - 2 <? orig_attr_len then Fail
         else
           let bytes_left := u16 (orig_attr_len + 2 - Z.of_nat MD5_DIGEST_LENGTH) in
           let last_block_len := bytes_left mod Z.of_nat MD5_DIGEST_LENGTH in
           let blocks_left := Z.to_nat (bytes_left / Z.of_nat MD5_DIGEST_LENGTH) in
           val ← (if negb (last_block_len =? 0)
                  then decode_block secret val blocks_left (Z.to_nat last_block_len)
                  else mret val);
           val ← decode_loop secret val blocks_left;
           splice 0 p1 val);
    orig_attr_len ← u_read_be16 val' 0;
    if attr_len - 2 <? orig_attr_len then Fail else mret (val', orig_attr_len).

(** ** Receiving *)

(** [da->M != -1 && !da->M != !(avp->flags & L2TP_AVP_FLAG_M)], also for H. *)
Definition flag_mismatch (want : Z) (have : bool) : bool :=
  negb (want =? -1) && negb (Bool.eqb (want =? 0) (negb have)).

(** The switch on [da->type] that reads the value; [mem] is [_malloc]. *)
Definition read_value (type : attr_type) (orig_avp_len : Z) (val : list Z) (mem : bool)
  : res l2tp_value_t :=
  match type with
  | ATTR_TYPE_NONE => mret VNone
  | ATTR_TYPE_INT16 =>
      if orig_avp_len =? AVP_SIZE + 2 then v ← u_read_be16 val 0; mret (VInt v) else Fail
  | ATTR_TYPE_INT32 =>
      if orig_avp_len =? AVP_SIZE + 4 then v ← u_read_be32 val 0; mret (VInt v) else Fail
  | ATTR_TYPE_INT64 =>
      if orig_avp_len =? AVP_SIZE + 8 then v ← u_read_be64 val 0; mret (VInt v) else Fail
  | ATTR_TYPE_OCTETS | ATTR_TYPE_STRING =>
      if mem then o ← slice 0 (Z.to_nat (orig_avp_len - AVP_SIZE)) val; mret (VOctets o) else Fail
  end.

(** The body of the AVP loop of [l2tp_recv]: the attribute that is added to the
    packet, if any, and the length of the AVP. *)
Definition recv_avp (dict : list l2tp_dict_attr_t) (permissive : bool) (secret : option (list Z))
    (mem : bool) (buf : list Z) (off : nat) (length : Z) (RV : option l2tp_attr_t)
  : res (option l2tp_attr_t * Z) :=
  if length <? AVP_SIZE then Fail
  else
    flags ← u_read_be16 buf off;
    let avp_len := Z.land flags L2TP_AVP_LEN_MASK in
    if avp_len <? AVP_SIZE then Fail
    else if length <? avp_len then Fail
    else
      vendor ← u_read_be16 buf (off + 2);
      type ← u_read_be16 buf (off + 4);
      if negb (vendor =? 0) then mret (None, avp_len)
      else
        match l2tp_dict_find_attr_by_id dict type with
        | None => if flag flags L2TP_AVP_FLAG_M && negb permissive then Fail
                  else mret (None, avp_len)
        | Some da =>
            if flag_mismatch (da_M da) (flag flags L2TP_AVP_FLAG_M) && negb permissive then Fail
            else if flag_mismatch (da_H da) (flag flags L2TP_AVP_FLAG_H) && negb permissive then Fail
            else
              val ← slice (off + 6) (Z.to_nat (avp_len - AVP_SIZE)) buf;
              orig ← (if flag flags L2TP_AVP_FLAG_H then
                        match RV with
                        | None => Fail
                        | Some rv =>
                            if no_secret secret then Fail
                            else d ← decode_avp flags type val rv (secret_bytes secret);
                                 mret (u16 (snd d + AVP_SIZE), drop 2 (fst d))
                        end
                      else mret (avp_len, val));
              v ← read_value (da_type da) (fst orig) (snd orig) mem;
              mret (Some (mk_attr da (flag flags L2TP_AVP_FLAG_M) false (fst orig - AVP_SIZE) v),
                    avp_len)
        end.

(** [while (length > 0)]; every AVP has at least 6 bytes, so [length] steps are
    enough; running out of them is [Oob]. *)
Fixpoint recv_avps (fuel : nat) (dict : list l2tp_dict_attr_t) (permissive : bool)
    (secret : option (list Z)) (mem : bool) (buf : list Z) (off : nat) (length : Z)
    (RV : option l2tp_attr_t) : res (list l2tp_attr_t) :=
  if length <=? 0 then mret []
  else
    match fuel with
    | O => Oob
    | S fuel' =>
        a ← recv_avp dict permissive secret mem buf off length RV;
        let avp_len := snd a in
        let RV' := match fst a with
                   | Some attr => if da_id (a_attr attr) =? Random_Vector then Some attr else RV
                   | None => RV
                   end in
        rest ← recv_avps fuel' dict permissive secret mem buf (off + Z.to_nat avp_len)
                 (length - avp_len) RV';
        mret (match fst a with Some attr => attr :: rest | None => rest end)
    end.

(** [l2tp_recv] from the [n] bytes of [buf] that [recvfrom] returned; [Fail] is
    the return of 0 without a packet. *)
Definition l2tp_recv (dict : list l2tp_dict_attr_t) (permissive : bool)
    (secret : option (list Z)) (mem : bool) (buf : list Z) : res l2tp_packet_t :=
  let n := Z.of_nat (length buf) in
  if n <? HDR_SIZE then Fail
  else
    flags ← u_read_be16 buf 0;
    if negb (flag flags L2TP_FLAG_T) then Fail
    else if negb (flag flags L2TP_FLAG_L) then Fail
    else if negb (flag flags L2TP_FLAG_S) then Fail
    else if negb (((Z.land flags L2TP_VER_MASK =? 2) && negb (flag flags L2TP_FLAG_O))
                  || (Z.land flags L2TP_VER_MASK =? 3)) then Fail
    else
      length ← u_read_be16 buf 2;
      if length <? HDR_SIZE then Fail
      else if n <? length then Fail
      else if negb mem then Fail
      else
        tid ← u_read_be16 buf 4;
        sid ← u_read_be16 buf 6;
        Ns ← u_read_be16 buf 8;
        Nr ← u_read_be16 buf 10;
        attrs ← recv_avps (Z.to_nat length) dict permissive secret mem buf 12 (length - HDR_SIZE) None;
        mret (mk_packet (mk_hdr flags length tid sid Ns Nr) attrs None None false).

(** ** Sending *)

(** The value of an attribute written at [off]. *)
Definition write_value (buf : list Z) (off : nat) (attr : l2tp_attr_t) : res (list Z) :=
  if a_H attr then
    o ← octets_of attr;
    if 0 <? a_length attr then b ← slice 0 (Z.to_nat (a_length attr)) o; splice off b buf else mret buf
  else
    match da_type (a_attr attr), a_val attr with
    | ATTR_TYPE_NONE, _ => mret buf
    | ATTR_TYPE_INT16, VInt v => u_write_be16 buf off v
    | ATTR_TYPE_INT32, VInt v => u_write_be32 buf off v
    | ATTR_TYPE_INT64, VInt v => u_write_be64 buf off v
    | (ATTR_TYPE_STRING | ATTR_TYPE_OCTETS), VOctets o =>
        if 0 <? a_length attr then b ← slice 0 (Z.to_nat (a_length attr)) o; splice off b buf
        else mret buf
    | (ATTR_TYPE_STRING | ATTR_TYPE_OCTETS), VNone => if 0 <? a_length attr then Oob else mret buf
    | _, _ => Oob
    end.

(** The loop over [pack->attrs]; [ptr] is always [buf + len]. *)
Fixpoint send_avps (buf : list Z) (len : Z) (attrs : list l2tp_attr_t) : res (list Z * Z) :=
  match attrs with
  | [] => mret (buf, len)
  | attr :: attrs' =>
      if L2TP_MAX_PACKET_SIZE <=? len + AVP_SIZE + a_length attr then Fail
      else if L2TP_AVP_LEN_MASK <? AVP_SIZE + a_length attr then Fail
      else
        let off := Z.to_nat len in
        buf ← u_write_be16 buf (off + 4) (da_id (a_attr attr));
        buf ← u_write_be16 buf off
                (Z.lor (Z.lor (if a_M attr then L2TP_AVP_FLAG_M else 0)
                              (if a_H attr then L2TP_AVP_FLAG_H else 0))
                       (Z.land (AVP_SIZE + a_length attr) L2TP_AVP_LEN_MASK));
        buf ← write_value buf (off + 6) attr;
        send_avps buf (len + AVP_SIZE + a_length attr) attrs'
  end.

(** [l2tp_packet_send] up to [sendto]: the bytes that are sent. *)
Definition l2tp_packet_send (mem : bool) (pack : l2tp_packet_t) : res (list Z) :=
  if negb mem then Fail
  else
    a ← send_avps (replicate (Z.to_nat L2TP_MAX_PACKET_SIZE) 0) HDR_SIZE (p_attrs pack);
    let len := snd a in
    let h := p_hdr pack in
    buf ← splice 0 (be_encode 2 (u16 (h_flags h)) ++ be_encode 2 (u16 len) ++
                    be_encode 2 (h_tid h) ++ be_encode 2 (h_sid h) ++
                    be_encode 2 (h_Ns h) ++ be_encode 2 (h_Nr h)) (fst a);
    slice 0 (Z.to_nat len) buf.

(** ** Hiding an AVP *)

(** The forward loop of [encode_attr]: hide the block after block [k], [n]
    times, starting at block [k]. *)
Fixpoint encode_loop (secret : list Z) (val : list Z) (k n : nat) : res (list Z) :=
  match n with
  | O => mret val
  | S n' => val' ← decode_block secret val k MD5_DIGEST_LENGTH; encode_loop secret val' (S k) n'
  end.

(** The cipher of [encode_attr] on the hidden AVP subformat [octets]. *)
Definition hide_octets (id : Z) (secret rv octets : list Z) : res (list Z) :=
  let n := length octets in
  let d := md5 (be_encode 2 (u16 id) ++ secret ++ rv) in
  if decide (n <= MD5_DIGEST_LENGTH)%nat then memxor octets 0 d n
  else
    octets ← memxor octets 0 d MD5_DIGEST_LENGTH;
    let blocks_left := (n / MD5_DIGEST_LENGTH - 1)%nat in
    let last_block_len := (n mod MD5_DIGEST_LENGTH)%nat in
    octets ← encode_loop secret octets 0 blocks_left;
    if decide (last_block_len = 0)%nat then mret octets
    else decode_block secret octets blocks_left last_block_len.

(** A [uint16_t] read from the random source on a little-endian machine. *)
Definition le16 (b : list Z) : Z :=
  match b with [x; y] => x + 256 * y | _ => 0 end.

(** [encode_attr]: [None] is the -1 return, otherwise the octets of the
    attribute, whose length is [attr->length]. *)
Definition encode_attr (mem : bool) (pack : l2tp_packet_t) (da : l2tp_dict_attr_t) (val : list Z)
    (src : list read_result) : res (option (list Z) * list read_result) :=
  let val_len := u16 (Z.of_nat (length val)) in
  if no_secret (p_secret pack) then mret (None, src)
  else
    match p_last_RV pack with
    | None => mret (None, src)
    | Some rv =>
        match u_randbuf src 2 with
        | (None, src) => mret (None, src)
        | (Some r, src) =>
            let pad_len := Z.land (le16 r) 127 + 16 in
            let max_len := L2TP_AVP_LEN_MASK - AVP_SIZE in
            if max_len <? 2 + val_len + 16 then mret (None, src)
            else
              let pad_len := if max_len <? 2 + val_len + pad_len
                             then u16 (max_len - 2 - val_len) else pad_len in
              if negb mem then mret (None, src)
              else
                v ← slice 0 (Z.to_nat val_len) val;
                match u_randbuf src (Z.to_nat pad_len) with
                | (None, src) => mret (None, src)
                | (Some pad, src) =>
                    rvo ← octets_of rv;
                    o ← hide_octets (da_id da) (secret_bytes (p_secret pack)) rvo
                          (be_encode 2 val_len ++ v ++ pad);
                    mret (Some o, src)
                end
        end
    end.

(** ** Building a message *)
Definition add_attr (pack : l2tp_packet_t) (a : l2tp_attr_t) : l2tp_packet_t :=
  mk_packet (p_hdr pack) (p_attrs pack ++ [a]) (p_last_RV pack) (p_secret pack) (p_hide_avps pack).
Definition set_last_RV (pack : l2tp_packet_t) (a : l2tp_attr_t) : l2tp_packet_t :=
  mk_packet (p_hdr pack) (p_attrs pack) (Some a) (p_secret pack) (p_hide_avps pack).

(** [attr_alloc]: the attribute's type and its M and H bits. *)
Definition attr_alloc (mem : bool) (dict : list l2tp_dict_attr_t) (id : Z) (M H : bool)
  : option (l2tp_dict_attr_t * bool * bool) :=
  match l2tp_dict_find_attr_by_id dict id with
  | None => None
  | Some da =>
      if negb mem then None
      else Some (da, if da_M da =? -1 then M else negb (da_M da =? 0),
                     if da_H da =? -1 then H else negb (da_H da =? 0))
  end.

Definition l2tp_packet_add_random_vector (mem : bool) (dict : list l2tp_dict_attr_t)
    (pack : l2tp_packet_t) (src : list read_result) : bool * l2tp_packet_t * list read_result :=
  match attr_alloc mem dict Random_Vector true false with
  | None => (false, pack, src)
  | Some (da, M, H) =>
      match u_randbuf src 2 with
      | (None, src) => (false, pack, src)
      | (Some r, src) =>
          let ranvec_len := Z.land (le16 r) 127 + 16 in
          match u_randbuf src (Z.to_nat ranvec_len) with
          | (None, src) => (false, pack, src)
          | (Some o, src) =>
              let attr := mk_attr da M H ranvec_len (VOctets o) in
              (true, set_last_RV (add_attr pack attr) attr, src)
          end
      end
  end.

(** The part the [l2tp_packet_add_*] functions share when the AVP is hidden:
    the random vector, unless there is one, and [encode_attr]. *)
Definition add_hidden (mem : bool) (dict : list l2tp_dict_attr_t) (pack : l2tp_packet_t)
    (da : l2tp_dict_attr_t) (M : bool) (val : list Z) (src : list read_result)
  : res (bool * l2tp_packet_t * list read_result) :=
  let '(ok, pack, src) :=
    match p_last_RV pack with
    | None => l2tp_packet_add_random_vector mem dict pack src
    | Some _ => (true, pack, src)
    end in
  if negb ok then mret (false, pack, src)
  else
    e ← encode_attr mem pack da val src;
    match fst e with
    | None => mret (false, pack, snd e)
    | Some o =>
        mret (true, add_attr pack (mk_attr da M true (Z.of_nat (length o)) (VOctets o)), snd e)
    end.

(** The three integer functions differ in the width [n] of the value. *)
Definition add_int (n : nat) (mem : bool) (dict : list l2tp_dict_attr_t) (pack : l2tp_packet_t)
    (id val : Z) (M : bool) (src : list read_result) : res (bool * l2tp_packet_t * list read_result) :=
  match attr_alloc mem dict id M (p_hide_avps pack) with
  | None => mret (false, pack, src)
  | Some (da, M, H) =>
      let val := val mod 256 ^ Z.of_nat n in
      if (H : bool) then add_hidden mem dict pack da M (be_encode n val) src
      else mret (true, add_attr pack (mk_attr da M false (Z.of_nat n) (VInt val)), src)
  end.

Definition l2tp_packet_add_int16 := add_int 2.
Definition l2tp_packet_add_int32 := add_int 4.
Definition l2tp_packet_add_int64 := add_int 8.

(** [val] is the string up to its terminator. *)
Definition l2tp_packet_add_string (mem : bool) (dict : list l2tp_dict_attr_t) (pack : l2tp_packet_t)
    (id : Z) (val : list Z) (M : bool) (src : list read_result)
  : res (bool * l2tp_packet_t * list read_result) :=
  match attr_alloc mem dict id M (p_hide_avps pack) with
  | None => mret (false, pack, src)
  | Some (da, M, H) =>
      if (H : bool) then add_hidden mem dict pack da M val src
      else mret (true, add_attr pack (mk_attr da M false (Z.of_nat (length val)) (VOctets val)), src)
  end.

(** [val] is the [size] bytes the caller gives. *)
Definition l2tp_packet_add_octets (mem : bool) (dict : list l2tp_dict_attr_t) (pack : l2tp_packet_t)
    (id : Z) (val : list Z) (M : bool) (src : list read_result)
  : res (bool * l2tp_packet_t * list read_result) :=
  match attr_alloc mem dict id M (p_hide_avps pack) with
  | None => mret (false, pack, src)
  | Some (da, M, H) =>
      let size := Z.of_nat (length val) in
      if L2TP_AVP_LEN_MASK <? size then mret (false, pack, src)
      else if (size =? 0) && negb H then
        mret (true, add_attr pack (mk_attr da M H size VNone), src)
      else if (H : bool) then add_hidden mem dict pack da M val src
      else mret (true, add_attr pack (mk_attr da M false size (VOctets val)), src)
  end.

(** [l2tp_packet_alloc]; [None] is a NULL return. *)
Definition l2tp_packet_alloc (mem : bool) (dict : list l2tp_dict_attr_t) (ver msg_type : Z)
    (H : bool) (secret : option (list Z)) (src : list read_result)
  : res (option l2tp_packet_t * list read_result) :=
  if negb mem then mret (None, src)
  else
    let flags := Z.lor (Z.lor (Z.lor L2TP_FLAG_T L2TP_FLAG_L) L2TP_FLAG_S)
                       (Z.land ver L2TP_VER_MASK) in
    let pack := mk_packet (mk_hdr flags 0 0 0 0 0) [] None secret H in
    if msg_type =? 0 then mret (Some pack, src)
    else
      r ← l2tp_packet_add_int16 mem dict pack Message_Type msg_type true src;
      let '(ok, pack, src) := r in
      mret (if (ok : bool) then Some pack else None, src).
End Md5.

(** ** Vocabulary of the theorems *)

(** What OpenSSL documents of MD5: a digest is 16 bytes. *)
Definition digest_ok (md5 : list Z -> list Z) : Prop :=
  forall x, length (md5 x) = MD5_DIGEST_LENGTH /\ bytes_ok (md5 x).

(** The byte that the byte at [i] of the hidden value [c] is combined with: of
    [k0] in the first block, then of the digest of the hidden block before. *)
Definition key_byte (md5 : list Z -> list Z) (secret k0 c : list Z) (i : nat) : Z :=
  if decide (i < 16)%nat then k0 !!! i
  else md5 (secret ++ take 16 (drop (16 * (i / 16 - 1)) c)) !!! (i mod 16)%nat.

(** The dictionary's entry for the random vector: octets, not hidden itself. *)
Definition dict_ok (dict : list l2tp_dict_attr_t) : Prop :=
  (forall da, l2tp_dict_find_attr_by_id dict Random_Vector = Some da ->
     da_type da = ATTR_TYPE_OCTETS /\ (da_H da = -1 \/ da_H da = 0)).

Definition holds_octets (a : l2tp_attr_t) : Prop := exists o, a_val a = VOctets o.

(** Values that an attribute of a type may have, and their bytes on the wire. *)
Definition value_ok (type : attr_type) (v : l2tp_value_t) : Prop :=
  match type, v with
  | ATTR_TYPE_NONE, VNone => True
  | ATTR_TYPE_INT16, VInt x => 0 <= x < 2 ^ 16
  | ATTR_TYPE_INT32, VInt x => 0 <= x < 2 ^ 32
  | ATTR_TYPE_INT64, VInt x => 0 <= x < 2 ^ 64
  | (ATTR_TYPE_OCTETS | ATTR_TYPE_STRING), VOctets o => bytes_ok o
  | _, _ => False
  end.

Definition value_bytes (type : attr_type) (v : l2tp_value_t) : list Z :=
  match type, v with
  | ATTR_TYPE_INT16, VInt x => be_encode 2 x
  | ATTR_TYPE_INT32, VInt x => be_encode 4 x
  | ATTR_TYPE_INT64, VInt x => be_encode 8 x
  | _, VOctets o => o
  | _, _ => []
  end.

(** The value part of an attribute on the wire. *)
Definition attr_bytes (a : l2tp_attr_t) : list Z :=
  if a_H a then match a_val a with VOctets o => o | _ => [] end
  else value_bytes (da_type (a_attr a)) (a_val a).

Definition attr_flags (a : l2tp_attr_t) : Z :=
  Z.lor (Z.lor (if a_M a then L2TP_AVP_FLAG_M else 0) (if a_H a then L2TP_AVP_FLAG_H else 0))
        (Z.land (AVP_SIZE + a_length a) L2TP_AVP_LEN_MASK).

Definition avp_wire (a : l2tp_attr_t) : list Z :=
  be_encode 2 (attr_flags a) ++ [0; 0] ++ be_encode 2 (da_id (a_attr a)) ++ attr_bytes a.

(** [a'] is what a receiver that knows [secret] and has seen the random vector
    [rv] should make of the attribute [a]. *)
Record covers (md5 : list Z -> list Z) (dict : list l2tp_dict_attr_t) (secret : option (list Z))
    (rv : option (list Z)) (a a' : l2tp_attr_t) : Prop := {
  cv_dict : l2tp_dict_find_attr_by_id dict (da_id (a_attr a)) = Some (a_attr a);
  cv_id : 0 <= da_id (a_attr a) < 65536;
  cv_M : flag_mismatch (da_M (a_attr a)) (a_M a) = false;
  cv_H : flag_mismatch (da_H (a_attr a)) (a_H a) = false;
  cv_length : a_length a = Z.of_nat (length (attr_bytes a));
  cv_bytes : bytes_ok (attr_bytes a);
  cv_attr : a_attr a' = a_attr a;
  cv_M' : a_M a' = a_M a;
  cv_H' : a_H a' = false;
  cv_value : value_ok (da_type (a_attr a)) (a_val a');
  cv_length' : a_length a' = Z.of_nat (length (value_bytes (da_type (a_attr a)) (a_val a')));
  cv_bytes' : if a_H a then
                (exists o, a_val a = VOctets o) /\ no_secret secret = false /\
                exists r pad, rv = Some r /\ bytes_ok pad /\
                  hide_octets md5 (da_id (a_attr a)) (secret_bytes secret) r
                    (be_encode 2 (a_length a') ++ value_bytes (da_type (a_attr a)) (a_val a') ++ pad)
                  = Ok (attr_bytes a)
              else attr_bytes a = value_bytes (da_type (a_attr a)) (a_val a') /\
                   (a_val a = a_val a' \/ a_val a = VNone /\ a_length a = 0 /\
                      da_type (a_attr a) = ATTR_TYPE_OCTETS \/ a_val a = VNone /\ a_length a = 0 /\
                      da_type (a_attr a) = ATTR_TYPE_STRING)
}.

(** A header of a control message that a receiver accepts. *)
Definition hdr_ok (h : l2tp_hdr_t) : Prop :=
  0 <= h_flags h < 65536 /\ flag (h_flags h) L2TP_FLAG_T = true /\
  flag (h_flags h) L2TP_FLAG_L = true /\ flag (h_flags h) L2TP_FLAG_S = true /\
  ((Z.land (h_flags h) L2TP_VER_MASK =? 2) && negb (flag (h_flags h) L2TP_FLAG_O))
  || (Z.land (h_flags h) L2TP_VER_MASK =? 3) = true /\
  0 <= h_tid h < 65536 /\ 0 <= h_sid h < 65536 /\ 0 <= h_Ns h < 65536 /\ 0 <= h_Nr h < 65536.

Definition hdr_with_length (h : l2tp_hdr_t) (n : Z) : l2tp_hdr_t :=
  mk_hdr (h_flags h) n (h_tid h) (h_sid h) (h_Ns h) (h_Nr h).

(** The random vector in force after an attribute. *)
Definition next_RV (rv : option (list Z)) (a' : l2tp_attr_t) : option (list Z) :=
  if da_id (a_attr a') =? Random_Vector
  then match a_val a' with VOctets o => Some o | _ => None end else rv.

(** Attribute by attribute, along a message. *)
Inductive msg_covers (md5 : list Z -> list Z) (dict : list l2tp_dict_attr_t) (secret : option (list Z))
  : option (list Z) -> list l2tp_attr_t -> list l2tp_attr_t -> Prop :=
| mc_nil rv : msg_covers md5 dict secret rv [] []
| mc_cons rv a a' l l' :
    covers md5 dict secret rv a a' -> msg_covers md5 dict secret (next_RV rv a') l l' ->
    msg_covers md5 dict secret rv (a :: l) (a' :: l').

(** Calls of the functions that add an attribute. *)
Inductive add_op : Type :=
| AddInt16 (id val : Z) (M : bool)
| AddInt32 (id val : Z) (M : bool)
| AddInt64 (id val : Z) (M : bool)
| AddString (id : Z) (val : list Z) (M : bool)
| AddOctets (id : Z) (val : list Z) (M : bool).

Definition op_id (op : add_op) : Z :=
  match op with
  | AddInt16 id _ _ | AddInt32 id _ _ | AddInt64 id _ _ | AddString id _ _ | AddOctets id _ _ => id
  end.

Definition op_M (op : add_op) : bool :=
  match op with
  | AddInt16 _ _ M | AddInt32 _ _ M | AddInt64 _ _ M | AddString _ _ M | AddOctets _ _ M => M
  end.

Definition op_value (op : add_op) : l2tp_value_t :=
  match op with
  | AddInt16 _ v _ => VInt (v mod 256 ^ 2)
  | AddInt32 _ v _ => VInt (v mod 256 ^ 4)
  | AddInt64 _ v _ => VInt (v mod 256 ^ 8)
  | AddString _ o _ | AddOctets _ o _ => VOctets o
  end.

(** The call is meant for an attribute of this type. *)
Definition op_type_ok (op : add_op) (type : attr_type) : Prop :=
  match op with
  | AddInt16 _ _ _ => type = ATTR_TYPE_INT16
  | AddInt32 _ _ _ => type = ATTR_TYPE_INT32
  | AddInt64 _ _ _ => type = ATTR_TYPE_INT64
  | AddString _ o _ => (type = ATTR_TYPE_STRING \/ type = ATTR_TYPE_OCTETS) /\ bytes_ok o /\ Z.of_nat (length o) < 65536
  | AddOctets _ o _ => (type = ATTR_TYPE_STRING \/ type = ATTR_TYPE_OCTETS) /\ bytes_ok o
  end.

Definition run_add (md5 : list Z -> list Z) (mem : bool) (dict : list l2tp_dict_attr_t)
    (pack : l2tp_packet_t) (op : add_op) (src : list read_result)
  : res (bool * l2tp_packet_t * list read_result) :=
  match op with
  | AddInt16 id v M => l2tp_packet_add_int16 md5 mem dict pack id v M src
  | AddInt32 id v M => l2tp_packet_add_int32 md5 mem dict pack id v M src
  | AddInt64 id v M => l2tp_packet_add_int64 md5 mem dict pack id v M src
  | AddString id o M => l2tp_packet_add_string md5 mem dict pack id o M src
  | AddOctets id o M => l2tp_packet_add_octets md5 mem dict pack id o M src
  end.

(** A sequence of calls that all succeed. *)
Fixpoint run_adds (md5 : list Z -> list Z) (mem : bool) (dict : list l2tp_dict_attr_t)
    (pack : l2tp_packet_t) (ops : list add_op) (src : list read_result) : res l2tp_packet_t :=
  match ops with
  | [] => mret pack
  | op :: ops' =>
      r ← run_add md5 mem dict pack op src;
      let '(ok, pack', src') := r in
      if (ok : bool) then run_adds md5 mem dict pack' ops' src' else Fail
  end.

(** The attribute a receiver should see for a call. *)
Definition op_attr (dict : list l2tp_dict_attr_t) (op : add_op) (a : l2tp_attr_t) : Prop :=
  l2tp_dict_find_attr_by_id dict (op_id op) = Some (a_attr a) /\
  a_M a = (if da_M (a_attr a) =? -1 then op_M op else negb (da_M (a_attr a) =? 0)) /\
  a_val a = op_value op.

(** The state of a message under construction, and the calls made so far. *)
Record pack_inv (md5 : list Z -> list Z) (dict : list l2tp_dict_attr_t) (pack : l2tp_packet_t) (ops : list add_op) : Prop := {
  pi_msg : exists l', msg_covers md5 dict (p_secret pack) None (p_attrs pack) l' /\
           Forall2 (op_attr dict) ops (filter (fun a => da_id (a_attr a) <> Random_Vector) l') /\
           foldl next_RV None l' = (x ← p_last_RV pack; match a_val x with VOctets o => Some o | _ => None end)
}.

(** A digest function, a part of the RFC 2661 dictionary and a message, for
    which the theorems are instantiated. *)
Definition sum_digest (x : list Z) : list Z :=
  (fun i => (7 * i + foldr Z.add 0 x) mod 256) <$> seqZ 0 16.

Definition some_dict : list l2tp_dict_attr_t :=
  [mk_da 0 ATTR_TYPE_INT16 (-1) 0; mk_da 36 ATTR_TYPE_OCTETS 1 0; mk_da 7 ATTR_TYPE_STRING 1 0;
   mk_da 9 ATTR_TYPE_INT16 1 (-1); mk_da 11 ATTR_TYPE_OCTETS 1 (-1)].

Definition some_ops : list add_op :=
  [AddInt16 0 1 true; AddString 7 [108; 110; 115] true; AddInt16 9 513 true;
   AddOctets 11 [1; 2; 3; 4; 5; 6; 7; 8; 9; 10; 11; 12; 13; 14; 15; 16; 17; 18; 19; 20] true].

Definition some_source : list read_result :=
  [ReadBytes [3; 1]; ReadIntr; ReadBytes (replicate 40 77); ReadBytes [5; 9]; ReadBytes (replicate 40 13);
   ReadBytes [0; 0]; ReadBytes (replicate 40 99)].

Definition some_hdr : l2tp_hdr_t := mk_hdr 51202 0 7 9 1 2.
Definition some_secret : option (list Z) := Some [115; 51; 99].
Definition some_pack : l2tp_packet_t := Eval vm_compute in
  match run_adds sum_digest true some_dict (mk_packet some_hdr [] None some_secret true) some_ops some_source with
  | Ok p => p | _ => mk_packet some_hdr [] None some_secret true end.

(** ** Bytes in place *)
Lemma memxor_spec buf off src n :
  (off + n <= length buf)%nat -> (n <= length src)%nat ->
  exists buf', memxor buf off src n = Ok buf' /\ length buf' = length buf /\
    forall i, buf' !!! i = if decide (off <= i < off + n)%nat
                           then Z.lxor (buf !!! i) (src !!! (i - off)%nat) else buf !!! i.
Proof.
  intros Hb Hs. unfold memxor.
  destruct (slice_lookup off n buf Hb) as (d & -> & Ld & Dd).
  destruct (slice_lookup 0 n src Hs) as (s & -> & Ls & Ds). cbn [mbind res_bind].
  assert (length (zip_with Z.lxor d s) = n) as Lz by (rewrite length_zip_with; lia).
  destruct (splice_lookup off (zip_with Z.lxor d s) buf ltac:(lia)) as (buf' & -> & L & B).
  exists buf'. split; [done|]. split; [done|]. intros i. rewrite B, Lz. case_decide as E; [|done].
  assert (i - off < n)%nat as Hi by lia.
  destruct (lookup_lt_is_Some_2 d (i - off)) as [x Hx]; [lia|].
  destruct (lookup_lt_is_Some_2 s (i - off)) as [y Hy]; [lia|].
  rewrite (list_lookup_total_alt (zip_with _ _ _)), lookup_zip_with, Hx. cbn. rewrite Hy. cbn.
  apply list_lookup_total_correct in Hx, Hy. subst.
  rewrite Dd, Ds by done. f_equal; f_equal; lia.
Qed.

Section Cipher.
Context (md5 : list Z -> list Z) (digest : digest_ok md5) (secret k0 : list Z).
Notation key := (key_byte md5 secret k0).

Lemma md5_length x : length (md5 x) = 16%nat.
Proof. apply digest. Qed.

Lemma block_of i b : (16 * b <= i < 16 * b + 16)%nat -> (i / 16 = b /\ i mod 16 = i - 16 * b)%nat.
Proof.
  intros H. pose proof (Nat.div_mod i 16 ltac:(lia)). pose proof (Nat.mod_upper_bound i 16 ltac:(lia)).
  assert (i / 16 = b)%nat by lia. lia.
Qed.

(** The key of a byte depends only on the hidden block before it. *)
Lemma key_ext c c' i :
  length c = length c' -> (forall j, (j < 16 * (i / 16))%nat -> c !!! j = c' !!! j) -> key c i = key c' i.
Proof.
  intros L H. unfold key_byte. case_decide as E; [done|]. do 3 f_equal.
  assert (1 <= i / 16)%nat by (apply Nat.div_le_lower_bound; lia).
  apply list_eq_total; rewrite !length_take, !length_drop; [lia|]. intros j Hj.
  rewrite !list_lookup_total_alt, !lookup_take_lt, !lookup_drop, <- !list_lookup_total_alt by lia.
  apply H. lia.
Qed.

Lemma decode_block_spec val k n :
  (16 * k + 16 + n <= length val)%nat -> (n <= 16)%nat ->
  exists val', decode_block md5 secret val k n = Ok val' /\ length val' = length val /\
    forall i, val' !!! i = if decide (16 * k + 16 <= i < 16 * k + 16 + n)%nat
                           then Z.lxor (val !!! i) (key val i) else val !!! i.
Proof.
  intros Hl Hn. unfold decode_block, MD5_DIGEST_LENGTH.
  rewrite slice_ok by lia. cbn [mbind res_bind].
  destruct (memxor_spec val (k * 16 + 16) (md5 (secret ++ take 16 (drop (k * 16) val))) n)
    as (val' & -> & L & B); [lia | rewrite md5_length; lia |].
  exists val'. split; [done|]. split; [done|]. intros i. rewrite B.
  repeat case_decide; try lia; try done. f_equal.
  destruct (block_of i (S k) ltac:(lia)) as [D M]. unfold key_byte.
  rewrite decide_False, D, M by lia. replace (16 * (S k - 1))%nat with (k * 16)%nat by lia.
  f_equal. lia.
Qed.

Lemma decode_loop_spec k val :
  (16 * k + 16 <= length val)%nat ->
  exists val', decode_loop md5 secret val k = Ok val' /\ length val' = length val /\
    forall i, val' !!! i = if decide (16 <= i < 16 * k + 16)%nat
                           then Z.lxor (val !!! i) (key val i) else val !!! i.
Proof.
  revert val. induction k as [|k IH]; intros val Hl; cbn [decode_loop].
  - exists val. split; [done|]. split; [done|]. intros i. case_decide; [lia|done].
  - destruct (decode_block_spec val k 16 ltac:(lia) ltac:(lia)) as (v1 & E1 & L1 & B1).
    unfold MD5_DIGEST_LENGTH. rewrite E1. cbn [mbind res_bind].
    destruct (IH v1 ltac:(lia)) as (v2 & E2 & L2 & B2).
    exists v2. split; [done|]. split; [lia|]. intros i. rewrite B2, B1.
    repeat case_decide; try lia; try done. f_equal. apply key_ext; [done|].
    intros j Hj. rewrite B1. case_decide; [|done]. pose proof (Nat.mul_div_le i 16). lia.
Qed.

Lemma encode_loop_spec n k val :
  (16 * (k + n) + 16 <= length val)%nat ->
  exists val', encode_loop md5 secret val k n = Ok val' /\ length val' = length val /\
    forall i, val' !!! i = if decide (16 * k + 16 <= i < 16 * (k + n) + 16)%nat
                           then Z.lxor (val !!! i) (key val' i) else val !!! i.
Proof.
  revert k val. induction n as [|n IH]; intros k val Hl; cbn [encode_loop].
  - exists val. split; [done|]. split; [done|]. intros i. case_decide; [lia|done].
  - destruct (decode_block_spec val k 16 ltac:(lia) ltac:(lia)) as (v1 & E1 & L1 & B1).
    unfold MD5_DIGEST_LENGTH. rewrite E1. cbn [mbind res_bind].
    destruct (IH (S k) v1 ltac:(lia)) as (v2 & E2 & L2 & B2).
    exists v2. split; [done|]. split; [lia|]. intros i. rewrite B2.
    repeat case_decide; try lia; rewrite B1; repeat case_decide; try lia; try done.
    f_equal. apply key_ext; [lia|]. intros j Hj. rewrite B2. pose proof (Nat.mul_div_le i 16).
    assert (i / 16 = S k)%nat by (apply block_of; lia).
    case_decide; [lia|]. rewrite B1. case_decide; [lia|done].
Qed.

(** A byte of the key is a byte. *)
Lemma key_byte_ok c i : length k0 = 16%nat -> bytes_ok k0 -> byte_ok (key c i).
Proof.
  intros L0 B0. unfold key_byte. case_decide.
  - apply bytes_ok_total; [done | lia].
  - apply bytes_ok_total; [apply digest|]. rewrite md5_length. apply Nat.mod_upper_bound. lia.
Qed.
End Cipher.

(** The cipher of [encode_attr], byte by byte. *)
Lemma hide_octets_spec md5 id secret rv o :
  digest_ok md5 ->
  let k0 := md5 (be_encode 2 (u16 id) ++ secret ++ rv) in
  exists c, hide_octets md5 id secret rv o = Ok c /\ length c = length o /\
    forall i, (i < length o)%nat -> c !!! i = Z.lxor (o !!! i) (key_byte md5 secret k0 c i).
Proof.
  intros D k0. unfold hide_octets, MD5_DIGEST_LENGTH. fold k0.
  assert (length k0 = 16%nat) as L0 by apply D.
  case_decide as Hn.
  - destruct (memxor_spec o 0 k0 (length o)) as (c & -> & L & B); [lia..|].
    exists c. split; [done|]. split; [done|]. intros i Hi. rewrite B, decide_True by lia. f_equal.
    unfold key_byte. rewrite decide_True by lia. f_equal. lia.
  - destruct (memxor_spec o 0 k0 16) as (o1 & -> & L1 & B1); [lia..|]. cbn [mbind res_bind].
    pose proof (Nat.div_mod (length o) 16 ltac:(lia)) as Hdm.
    pose proof (Nat.mod_upper_bound (length o) 16 ltac:(lia)) as Hm.
    set (q := (length o / 16)%nat) in *. set (l := (length o mod 16)%nat) in *.
    destruct (encode_loop_spec md5 D secret k0 (q - 1) 0 o1 ltac:(lia)) as (o2 & -> & L2 & B2).
    cbn [mbind res_bind].
    assert (forall c i, length c = length o2 -> (forall j, (j < 16 * q)%nat -> c !!! j = o2 !!! j) ->
      (i < 16 * q)%nat -> c !!! i = Z.lxor (o !!! i) (key_byte md5 secret k0 c i)) as Full.
    { intros c i Lc Hc Hi. rewrite Hc by lia. rewrite B2. case_decide as E.
      - rewrite B1, decide_False by lia. f_equal. apply key_ext; [done|]. intros j Hj. symmetry.
        apply Hc. pose proof (Nat.mul_div_le i 16). lia.
      - rewrite B1, decide_True by lia. f_equal. unfold key_byte.
        rewrite decide_True by lia. f_equal. lia. }
    case_decide as El.
    + exists o2. split; [done|]. split; [lia|]. intros i Hi. apply Full; auto. lia.
    + destruct (decode_block_spec md5 D secret k0 o2 (q - 1) l ltac:(lia) ltac:(lia)) as (c & -> & L & B).
      exists c. split; [done|]. split; [lia|]. intros i Hi.
      assert (forall j, (j < 16 * q)%nat -> c !!! j = o2 !!! j) as Same
        by (intros j Hj; rewrite B, decide_False by lia; done).
      destruct (decide (i < 16 * q)%nat); [apply Full; auto|].
      rewrite B, decide_True by lia. rewrite B2, decide_False, B1, decide_False by lia. f_equal.
      apply key_ext; [done|]. intros j Hj. symmetry. apply Same.
      destruct (block_of i q ltac:(lia)) as [E16 _]. rewrite E16 in Hj. done.
Qed.

Lemma hide_octets_length md5 id secret rv o c :
  digest_ok md5 -> hide_octets md5 id secret rv o = Ok c -> length c = length o.
Proof.
  intros D H. destruct (hide_octets_spec md5 id secret rv o D) as (c' & H' & L & _).
  rewrite H in H'. now injection H' as <-.
Qed.

(** [decode_avp] on any bytes: it fails, or it uncovers the value it carries,
    whose length fits; it never leaves the AVP. *)
Lemma decode_avp_spec md5 flags type val da M H rlen rv secret :
  digest_ok md5 -> bytes_ok val ->
  Z.land flags L2TP_AVP_LEN_MASK = AVP_SIZE + Z.of_nat (length val) ->
  let k0 := md5 (be_encode 2 type ++ secret ++ rv) in
  let clear i := Z.lxor (val !!! i) (key_byte md5 secret k0 val i) in
  let r := decode_avp md5 flags type val (mk_attr da M H rlen (VOctets rv)) secret in
  let orig := 256 * clear 0%nat + clear 1%nat in
  (2 <= length val)%nat /\ 0 <= orig <= Z.of_nat (length val) - 2 /\
    (exists val', r = Ok (val', orig) /\ length val' = length val /\
       forall i, Z.of_nat i < orig + 2 -> val' !!! i = clear i)
  \/ r = Fail /\ ((length val < 2)%nat \/ Z.of_nat (length val) - 2 < orig).
Proof.
  intros D Bv Hlen k0 clear r orig. subst r.
  assert (Z.of_nat (length val) <= 1017) as Hmax.
  { assert (Z.land flags L2TP_AVP_LEN_MASK < 1024); [|unfold AVP_SIZE in *; lia].
    unfold L2TP_AVP_LEN_MASK. change 1023 with (Z.ones 10). rewrite Z.land_ones by lia.
    apply Z.mod_pos_bound. lia. }
  assert (length k0 = 16%nat /\ bytes_ok k0) as [L0 B0] by (split; apply D).
  assert (forall i, (i < length val)%nat -> byte_ok (clear i)) as Bc.
  { intros i Hi. apply lxor_byte; [now apply bytes_ok_total | now apply key_byte_ok]. }
  unfold decode_avp, MD5_DIGEST_LENGTH. rewrite Hlen.
  destruct (_ <? AVP_SIZE + 2) eqn:E0; [right; split; [done|]; unfold AVP_SIZE in *; lia|].
  rewrite u16_small by (unfold AVP_SIZE in *; lia). cbn [octets_of a_val mbind res_bind]. fold k0.
  replace (AVP_SIZE + Z.of_nat (length val) - AVP_SIZE) with (Z.of_nat (length val)) by lia.
  assert (2 <= length val)%nat as H2 by (unfold AVP_SIZE in *; lia).
  assert (0 <= orig) as Horig
    by (subst orig; pose proof (Bc 0%nat ltac:(lia)); pose proof (Bc 1%nat ltac:(lia)); unfold byte_ok in *; lia).
  (* the common end: the length is read again and checked *)
  assert (forall val', length val' = length val -> (forall i, Z.of_nat i < 2 -> val' !!! i = clear i) ->
    (orig <= Z.of_nat (length val) - 2 -> forall i, Z.of_nat i < orig + 2 -> val' !!! i = clear i) ->
    let r := orig' ← u_read_be16 val' 0;
             if Z.of_nat (length val) - 2 <? orig' then Fail else mret (val', orig') in
    (2 <= length val)%nat /\ 0 <= orig <= Z.of_nat (length val) - 2 /\
      (exists val'', r = Ok (val'', orig) /\ length val'' = length val /\
         forall i, Z.of_nat i < orig + 2 -> val'' !!! i = clear i)
    \/ r = Fail /\ ((length val < 2)%nat \/ Z.of_nat (length val) - 2 < orig)) as Out.
  { intros val' L V2 V r. subst r. rewrite read_be16_total by lia. cbn [mbind res_bind].
    rewrite !V2 by lia. fold orig. destruct (_ <? orig) eqn:E; zbool.
    - right. auto.
    - left. split; [done|]. split; [lia|]. exists val'. auto. }
  destruct (Z.of_nat (length val) <=? Z.of_nat 16) eqn:E1; zbool.
  - (* one block *)
    destruct (memxor_spec val 0 k0 (length val)) as (val' & Em & L & B); [lia..|].
    rewrite Nat2Z.id, Em. cbn [mbind res_bind]. apply Out; [done| |].
    all: intros; assert (forall i, (i < length val)%nat -> val' !!! i = clear i) as A; [|apply A; lia].
    all: intros j Hj; rewrite B, decide_True by lia; subst clear; cbn beta; f_equal;
         unfold key_byte; rewrite decide_True by lia; f_equal; lia.
  - destruct (slice_lookup 0 16 val ltac:(lia)) as (first & -> & Lf & Bf). cbn [mbind res_bind].
    destruct (memxor_spec k0 0 first 16) as (p1 & -> & Lp & Bp); [lia..|]. cbn [mbind res_bind].
    assert (forall i, (i < 16)%nat -> p1 !!! i = clear i) as P1.
    { intros i Hi. rewrite Bp, decide_True by lia. subst clear. cbn beta. unfold key_byte.
      rewrite decide_True by lia. rewrite Z.lxor_comm. rewrite Bf by lia. f_equal; f_equal; lia. }
    rewrite read_be16_total by lia. cbn [mbind res_bind]. rewrite !P1 by lia. fold orig.
    destruct (orig <=? Z.of_nat 16 - 2) eqn:E2; zbool.
    + destruct (splice_lookup 0 p1 val ltac:(lia)) as (val' & -> & L & B). cbn [mbind res_bind].
      apply Out; [done| |]; intros; rewrite B, decide_True, Nat.sub_0_r by lia; apply P1; lia.
    + destruct (_ - 2 <? orig) eqn:E3; zbool; [right; cbn; split; [done|]; auto|].
      rewrite u16_small by lia.
      set (bl := orig + 2 - Z.of_nat 16) in *.
      pose proof (Z.div_mod bl (Z.of_nat 16) ltac:(lia)). pose proof (Z.mod_pos_bound bl (Z.of_nat 16) ltac:(lia)).
      assert (0 <= bl / Z.of_nat 16) by (apply Z.div_pos; lia).
      set (q := bl / Z.of_nat 16) in *. set (lb := bl mod Z.of_nat 16) in *.
      assert (exists v1, (if negb (lb =? 0) then decode_block md5 secret val (Z.to_nat q) (Z.to_nat lb)
                          else mret val) = Ok v1 /\ length v1 = length val /\
        forall i, v1 !!! i = if decide (16 * Z.to_nat q + 16 <= i < 16 * Z.to_nat q + 16 + Z.to_nat lb)%nat
                             then clear i else val !!! i) as (v1 & Ev1 & L1 & B1).
      { destruct (lb =? 0) eqn:El; zbool.
        - exists val. split; [done|]. split; [done|]. intros i. case_decide; [lia|done].
        - apply (decode_block_spec md5 D secret k0); lia. }
      change (if negb (lb =? 0) then decode_block md5 secret val (Z.to_nat q) (Z.to_nat lb)
              else mret val) with (if negb (lb =? 0) then decode_block md5 secret val (Z.to_nat q) (Z.to_nat lb)
              else Ok val) in Ev1 |- *. rewrite Ev1. cbn [mbind res_bind].
      destruct (decode_loop_spec md5 D secret k0 (Z.to_nat q) v1 ltac:(lia)) as (v2 & -> & L2 & B2).
      cbn [mbind res_bind].
      destruct (splice_lookup 0 p1 v2 ltac:(lia)) as (v3 & -> & L3 & B3). cbn [mbind res_bind].
      apply Out; [lia| |].
      * intros i Hi. rewrite B3, decide_True, Nat.sub_0_r by lia. apply P1. lia.
      * intros _ i Hi. rewrite B3. case_decide; [rewrite Nat.sub_0_r; apply P1; lia|].
        rewrite B2. case_decide.
        -- rewrite B1, decide_False by lia. subst clear. cbn beta. f_equal.
           apply key_ext; [done|]. intros j Hj. rewrite B1. case_decide; [|done].
           pose proof (Nat.mul_div_le i 16). lia.
        -- rewrite B1, decide_True by lia. done.
Qed.

(** ** The flags of an AVP *)
Lemma land_len_small x : 0 <= x < 1024 -> Z.land x L2TP_AVP_LEN_MASK = x.
Proof.
  intros H. unfold L2TP_AVP_LEN_MASK. change 1023 with (Z.ones 10).
  rewrite Z.land_ones by lia. apply Z.mod_small. lia.
Qed.

Lemma attr_flags_spec a :
  0 <= AVP_SIZE + a_length a < 1024 ->
  0 <= attr_flags a < 65536 /\
  Z.land (attr_flags a) L2TP_AVP_LEN_MASK = AVP_SIZE + a_length a /\
  flag (attr_flags a) L2TP_AVP_FLAG_M = a_M a /\ flag (attr_flags a) L2TP_AVP_FLAG_H = a_H a.
Proof.
  intros H. unfold attr_flags. rewrite land_len_small by done. set (n := AVP_SIZE + a_length a) in *.
  assert (forall m, Z.land 1023 m = 0 -> Z.land n m = 0) as Hi.
  { intros m Hm. rewrite <- (land_len_small n), <- Z.land_assoc by done. unfold L2TP_AVP_LEN_MASK.
    rewrite Hm. apply Z.land_0_r. }
  assert (forall h, (h = 0 \/ h = 32768 \/ h = 16384 \/ h = 49152) -> Z.lor h n = h + n) as Hadd.
  { intros h Hh. rewrite <- (Z.add_lor_land h n), (Z.land_comm h n), Hi, Z.add_0_r; [done|].
    destruct Hh as [->|[->|[->| ->]]]; reflexivity. }
  unfold flag, L2TP_AVP_FLAG_M, L2TP_AVP_FLAG_H.
  destruct (a_M a), (a_H a);
    match goal with |- context [Z.lor (Z.lor ?a ?b) n] =>
      let c := eval vm_compute in (Z.lor a b) in change (Z.lor a b) with c end;
    rewrite !Z.land_lor_distr_l, (land_len_small n), (Hi 32768), (Hi 16384) by done;
    rewrite Hadd by auto; (split; [lia|]); split_and!; reflexivity.
Qed.

(** ** What is sent *)
Lemma write_value_spec buf off a a' md5 dict secret rv :
  covers md5 dict secret rv a a' -> (off <= length buf)%nat ->
  write_value buf off a = splice off (attr_bytes a) buf.
Proof.
  intros C Hoff. destruct C as [_ _ _ _ HL _ _ _ _ HV _ HB]. unfold write_value, attr_bytes in *.
  assert (forall o, a_length a = Z.of_nat (length o) ->
    (if 0 <? a_length a then b ← slice 0 (Z.to_nat (a_length a)) o; splice off b buf else mret buf)
    = splice off o buf) as W.
  { intros o Ho. rewrite Ho, Nat2Z.id, slice_whole. destruct o; [|done]. cbn.
    unfold splice. rewrite decide_True by (cbn; lia). cbn.
    rewrite Nat.add_0_r, take_drop. done. }
  destruct (a_H a).
  - destruct HB as ((o & Ho) & _). unfold octets_of. rewrite Ho in *. cbn [mbind res_bind]. auto.
  - destruct HB as [Eb HB].
    destruct (da_type (a_attr a)), (a_val a) eqn:Ev, (a_val a') eqn:Ev'; cbn in *; try done;
      try (exfalso; intuition congruence); try (apply W; congruence).
    all: try (rewrite ?HL; cbn; unfold splice; rewrite decide_True by (cbn; lia); cbn;
              rewrite Nat.add_0_r, take_drop; done).
    all: destruct HB as [HB|[[HB _]|[HB _]]]; try discriminate; injection HB as <-;
         unfold u_write_be16, u_write_be32, u_write_be64; rewrite ?u16_small, ?u32_small, ?u64_small by lia; done.
Qed.

Lemma length_avp_wire a : length (avp_wire a) = (6 + length (attr_bytes a))%nat.
Proof. unfold avp_wire. rewrite !length_app, !length_be_encode. done. Qed.

(** One AVP written over the zeros of the buffer. *)
Lemma write_avp md5 dict secret rv a a' (pre : list Z) (m : nat) :
  covers md5 dict secret rv a a' -> AVP_SIZE + a_length a < 1024 ->
  (length (avp_wire a) <= m)%nat ->
  (buf ← u_write_be16 (pre ++ replicate m 0) (length pre + 4) (da_id (a_attr a));
   buf ← u_write_be16 buf (length pre) (attr_flags a);
   write_value buf (length pre + 6) a)
  = Ok (pre ++ avp_wire a ++ replicate (m - length (avp_wire a)) 0).
Proof.
  intros C Hlen Hm. pose proof C as [_ Hid _ _ HL _ _ _ _ _ _ _]. rewrite length_avp_wire in *.
  destruct (attr_flags_spec a) as (Hf & _); [unfold AVP_SIZE in *; lia|].
  replace m with (6 + (length (attr_bytes a) + (m - (6 + length (attr_bytes a)))))%nat at 1 by lia.
  rewrite replicate_add, (replicate_add (length (attr_bytes a))).
  unfold u_write_be16. rewrite !u16_small by done.
  change (replicate 6 0) with ([0; 0; 0; 0] ++ [0; 0] ++ []).
  rewrite <- !app_assoc. rewrite (app_assoc pre).
  rewrite splice_after by (rewrite ?length_app, ?length_be_encode; cbn; lia). cbn [mbind res_bind].
  rewrite <- !app_assoc. change [0; 0; 0; 0] with ([0; 0] ++ [0; 0]). rewrite <- !app_assoc.
  rewrite splice_after by (rewrite ?length_be_encode; done). cbn [mbind res_bind].
  rewrite (write_value_spec _ _ a a' md5 dict secret rv C)
    by (rewrite !length_app, !length_be_encode; cbn; lia).
  match goal with |- splice _ _ ?l = _ =>
    replace l with ((pre ++ be_encode 2 (attr_flags a) ++ [0; 0] ++ be_encode 2 (da_id (a_attr a))) ++
                    replicate (length (attr_bytes a)) 0 ++
                    replicate (m - (6 + length (attr_bytes a))) 0) by (now rewrite <- !app_assoc) end.
  rewrite splice_after by (rewrite ?length_app, ?length_be_encode, ?length_replicate; cbn; lia).
  unfold avp_wire. now rewrite <- !app_assoc.
Qed.

Lemma send_avps_spec md5 dict secret rv attrs attrs' :
  msg_covers md5 dict secret rv attrs attrs' ->
  forall (pre : list Z) m, Z.of_nat (length pre + m) = L2TP_MAX_PACKET_SIZE ->
  send_avps (pre ++ replicate m 0) (Z.of_nat (length pre)) attrs = Fail \/
  exists m', send_avps (pre ++ replicate m 0) (Z.of_nat (length pre)) attrs
    = Ok (pre ++ concat (avp_wire <$> attrs) ++ replicate m' 0,
          Z.of_nat (length pre + length (concat (avp_wire <$> attrs)))) /\
    Forall (fun a => AVP_SIZE + a_length a < 1024) attrs /\
    (Z.of_nat (length pre) < L2TP_MAX_PACKET_SIZE ->
     Z.of_nat (length pre + length (concat (avp_wire <$> attrs))) < L2TP_MAX_PACKET_SIZE).
Proof.
  induction 1 as [rv|rv a a' l l' C _ IH]; intros pre m Hm.
  - right. exists m. cbn. rewrite Nat.add_0_r. auto.
  - cbn [send_avps]. destruct (L2TP_MAX_PACKET_SIZE <=? _) eqn:E1; [auto|].
    destruct (L2TP_AVP_LEN_MASK <? _) eqn:E2; [auto|]. zbool.
    pose proof (cv_length _ _ _ _ _ _ C) as HL. unfold L2TP_AVP_LEN_MASK, AVP_SIZE in *.
    pose proof (write_avp md5 dict secret rv a a' pre m C ltac:(unfold AVP_SIZE; lia)) as W.
    rewrite length_avp_wire in W. specialize (W ltac:(lia)).
    unfold attr_flags in W. rewrite Nat2Z.id.
    destruct (u_write_be16 _ (length pre + 4) _) as [b1| |]; try done. cbn [mbind res_bind] in *.
    destruct (u_write_be16 b1 _ _) as [b2| |]; try done. cbn [mbind res_bind] in *.
    unfold AVP_SIZE in W. rewrite W. cbn [mbind res_bind].
    rewrite (app_assoc pre).
    replace (Z.of_nat (length pre) + 6 + a_length a) with (Z.of_nat (length (pre ++ avp_wire a)))
      by (rewrite length_app, length_avp_wire; lia).
    destruct (IH (pre ++ avp_wire a) (m - (6 + length (attr_bytes a)))%nat) as [->|(m' & -> & F & T)];
      [rewrite length_app, length_avp_wire; lia | auto |].
    right. exists m'. cbn [fmap list_fmap concat]. rewrite length_app in *.
    split; [f_equal; f_equal; [now rewrite <- !app_assoc|]; rewrite length_app; lia|].
    split; [constructor; [lia|done]|]. intros _. rewrite length_app. rewrite length_avp_wire in *. lia.
Qed.

(** ** What is received *)
Lemma attr_flags_len flags n :
  Z.land flags L2TP_AVP_LEN_MASK = AVP_SIZE + Z.of_nat n -> Z.of_nat n <= 1017.
Proof.
  intros H. assert (Z.land flags L2TP_AVP_LEN_MASK < 1024); [|unfold AVP_SIZE in *; lia].
  unfold L2TP_AVP_LEN_MASK. change 1023 with (Z.ones 10). rewrite Z.land_ones by lia.
  apply Z.mod_pos_bound. lia.
Qed.

Lemma value_bytes_ok type v : value_ok type v -> bytes_ok (value_bytes type v).
Proof. destruct type, v; try done; intros _; try apply be_encode_ok. constructor. Qed.

Lemma read_value_spec type v val :
  value_ok type v -> slice 0 (length (value_bytes type v)) val = Ok (value_bytes type v) ->
  read_value type (AVP_SIZE + Z.of_nat (length (value_bytes type v))) val true = Ok v.
Proof.
  intros V S. unfold read_value, u_read_be16, u_read_be32, u_read_be64, AVP_SIZE.
  destruct type, v; try done; cbn [value_bytes] in *; rewrite ?length_be_encode in *.
  1-3: cbn [Z.of_nat Z.add Z.eqb]; rewrite S; cbn [mbind res_bind];
       rewrite be_decode_encode, Z.mod_small by (cbn in *; lia); done.
  all: replace (6 + Z.of_nat (length o) - 6) with (Z.of_nat (length o)) by lia;
       now rewrite Nat2Z.id, S.
Qed.

(** Uncovering what was hidden with the same secret and random vector. *)
Lemma decode_hidden md5 flags id secret da M H rlen rv vb pad c :
  digest_ok md5 -> 0 <= id < 65536 -> bytes_ok vb -> bytes_ok pad -> bytes_ok c ->
  Z.land flags L2TP_AVP_LEN_MASK = AVP_SIZE + Z.of_nat (length c) ->
  hide_octets md5 id secret rv (be_encode 2 (Z.of_nat (length vb)) ++ vb ++ pad) = Ok c ->
  exists val', decode_avp md5 flags id c (mk_attr da M H rlen (VOctets rv)) secret
               = Ok (val', Z.of_nat (length vb)) /\
    slice 0 (length vb) (drop 2 val') = Ok vb.
Proof.
  intros D Hid Bv Bp Bc Hlen Hh.
  destruct (hide_octets_spec md5 id secret rv (be_encode 2 (Z.of_nat (length vb)) ++ vb ++ pad) D)
    as (c' & Hh' & Lc & Hc). rewrite Hh in Hh'. injection Hh' as <-.
  rewrite !length_app, length_be_encode in Lc.
  pose proof (attr_flags_len flags (length c) Hlen) as Hmax.
  set (o := be_encode 2 (Z.of_nat (length vb)) ++ vb ++ pad) in *.
  rewrite (u16_small id Hid) in Hc. set (k0 := md5 _) in Hc.
  assert (forall i, (i < length o)%nat -> Z.lxor (c !!! i) (key_byte md5 secret k0 c i) = o !!! i) as Clear.
  { intros i Hi. rewrite Hc by done. apply lxor_cancel. }
  assert (length o = length c) as Lo by (subst o; rewrite !length_app, length_be_encode; lia).
  assert (256 * (o !!! 0%nat) + o !!! 1%nat = Z.of_nat (length vb)) as Horig.
  { pose proof (read_be16_app [] (Z.of_nat (length vb)) (vb ++ pad) ltac:(lia)) as R.
    cbn [length app] in R. fold o in R. rewrite read_be16_total in R by lia. now injection R. }
  destruct (decode_avp_spec md5 flags id c da M H rlen rv secret D Bc Hlen)
    as [(_ & _ & val' & E & L & V) | [_ F]]; subst k0.
  2: { rewrite !Clear, Horig in F by lia. lia. }
  rewrite !Clear, Horig in E by lia.
  assert (forall i, (i < 2 + length vb)%nat -> val' !!! i = o !!! i) as V'.
  { intros i Hi. rewrite V by (rewrite !Clear, Horig by lia; lia). apply Clear. lia. }
  exists val'. split; [exact E|].
  assert (take (2 + length vb) val' = be_encode 2 (Z.of_nat (length vb)) ++ vb) as T.
  { apply list_eq_total; rewrite length_take, ?length_app, ?length_be_encode; [lia|]. intros i Hi.
    rewrite list_lookup_total_alt, lookup_take_lt, <- list_lookup_total_alt by lia.
    rewrite V' by lia. subst o. rewrite app_assoc, !list_lookup_total_alt.
    rewrite lookup_app_l by (rewrite length_app, length_be_encode; lia). done. }
  unfold slice. rewrite decide_True by (rewrite length_drop; lia). f_equal. rewrite drop_0.
  rewrite <- (take_drop (2 + length vb) val'), T, <- app_assoc.
  rewrite drop_app_length' by (rewrite length_be_encode; done). now rewrite take_app_length.
Qed.

Lemma recv_avp_wire md5 dict permissive secret rv RV a a' pre post len :
  digest_ok md5 -> covers md5 dict secret rv a a' ->
  AVP_SIZE + a_length a < 1024 -> AVP_SIZE + a_length a <= len ->
  (forall r, rv = Some r -> exists x, RV = Some x /\ a_val x = VOctets r) ->
  recv_avp md5 dict permissive secret true (pre ++ avp_wire a ++ post) (length pre) len RV
  = Ok (Some a', AVP_SIZE + a_length a).
Proof.
  intros D C Hs Hl HRV. pose proof C as [Hd Hid HM HH HL HB Ea EM EH HV HL' HB'].
  destruct (attr_flags_spec a) as (Hf & Hlen & HfM & HfH); [unfold AVP_SIZE in *; lia|].
  unfold recv_avp. destruct (len <? AVP_SIZE) eqn:E; zbool; [unfold AVP_SIZE in *; lia|].
  assert (u_read_be16 (pre ++ avp_wire a ++ post) (length pre) = Ok (attr_flags a)) as ->.
  { unfold avp_wire. rewrite <- app_assoc. now apply read_be16_app. }
  assert (u_read_be16 (pre ++ avp_wire a ++ post) (length pre + 2) = Ok 0) as ->.
  { unfold avp_wire. rewrite <- !app_assoc, (app_assoc pre).
    replace (length pre + 2)%nat with (length (pre ++ be_encode 2 (attr_flags a)))
      by (rewrite length_app, length_be_encode; done).
    change ([0; 0] ++ ?l) with (be_encode 2 0 ++ l). now apply read_be16_app. }
  assert (u_read_be16 (pre ++ avp_wire a ++ post) (length pre + 4) = Ok (da_id (a_attr a))) as ->.
  { unfold avp_wire. rewrite <- !app_assoc, (app_assoc pre), (app_assoc _ [0; 0]).
    replace (length pre + 4)%nat with (length ((pre ++ be_encode 2 (attr_flags a)) ++ [0; 0]))
      by (rewrite !length_app, length_be_encode; cbn; lia).
    now apply read_be16_app. }
  cbn [mbind res_bind]. rewrite Hlen. 
  destruct (_ <? AVP_SIZE) eqn:E1; zbool; [unfold AVP_SIZE in *; lia|].
  destruct (len <? _) eqn:E2; zbool; [lia|]. cbn [negb Z.eqb]. rewrite Hd, HfM, HfH, HM, HH. cbn [andb].
  assert (slice (length pre + 6) (Z.to_nat (AVP_SIZE + a_length a - AVP_SIZE)) (pre ++ avp_wire a ++ post)
          = Ok (attr_bytes a)) as ->.
  { unfold avp_wire. rewrite slice_app_r, <- !app_assoc, !(app_assoc (be_encode 2 (attr_flags a))),
      !(app_assoc (_ ++ _) (be_encode 2 (da_id _))).
    match goal with |- slice 6 _ (?h ++ _) = _ => replace 6%nat with (length h + 0)%nat
      by (rewrite !length_app, !length_be_encode; done) end.
    rewrite slice_app_r. replace (Z.to_nat _) with (length (attr_bytes a)) by lia. apply slice_app_l. }
  cbn [mbind res_bind].
  assert (a' = mk_attr (a_attr a) (a_M a) false (a_length a') (a_val a')) as -> by (destruct a'; cbn in *; congruence).
  cbn [a_length a_val] in *.
  destruct (a_H a).
  - destruct HB' as (_ & Hns & r & pad & -> & Bp & Hh). rewrite Hns.
    destruct (HRV r eq_refl) as (x & -> & Hx). destruct x as [xd xM xH xl xv]; cbn in Hx; subst xv.
    rewrite HL' in Hh.
    destruct (decode_hidden md5 (attr_flags a) (da_id (a_attr a)) (secret_bytes secret) xd xM xH xl r
                (value_bytes (da_type (a_attr a)) (a_val a')) pad (attr_bytes a) D Hid)
      as (val' & Ed & Sv); auto using value_bytes_ok; [lia|].
    rewrite Ed. cbn [mbind res_bind fst snd]. 
    assert (Z.of_nat (length (value_bytes (da_type (a_attr a)) (a_val a'))) < 1024).
    { apply (hide_octets_length _ _ _ _ _ _ D) in Hh. rewrite !length_app in Hh. unfold AVP_SIZE in *. lia. }
    rewrite u16_small by (unfold AVP_SIZE; lia).
    cbn [mbind res_bind mret res_ret fst snd].
    rewrite (Z.add_comm _ AVP_SIZE), (read_value_spec _ _ _ HV Sv). cbn [mbind res_bind]. rewrite HL', (Z.add_comm AVP_SIZE), Z.add_simpl_r. done.
  - destruct HB' as [Eb _]. cbn [mbind res_bind mret res_ret fst snd]. rewrite HL, Eb.
    rewrite (read_value_spec _ _ _ HV) by apply slice_whole. cbn [mbind res_bind].
    rewrite HL', (Z.add_comm AVP_SIZE), Z.add_simpl_r. done.
Qed.

(** The AVP loop reads back a whole message. *)
Lemma recv_avps_wire md5 dict permissive secret rv l l' :
  digest_ok md5 -> msg_covers md5 dict secret rv l l' ->
  Forall (fun a => AVP_SIZE + a_length a < 1024) l ->
  forall pre fuel RV, (length l <= fuel)%nat ->
  (forall r, rv = Some r -> exists x, RV = Some x /\ a_val x = VOctets r) ->
  recv_avps md5 fuel dict permissive secret true (pre ++ concat (avp_wire <$> l)) (length pre)
    (Z.of_nat (length (concat (avp_wire <$> l)))) RV = Ok l'.
Proof.
  intros D M. induction M as [rv|rv a a' l l' C M IH]; intros F pre fuel RV Hf HRV.
  - destruct fuel; reflexivity.
  - destruct (Forall_cons_1 _ _ _ F) as [Fa F']. clear F. pose proof C as [Hd _ _ _ HL _ Ea _ _ HV _ _].
    cbn [length] in Hf. destruct fuel as [|fuel]; [lia|]. cbn [fmap list_fmap concat recv_avps].
    rewrite length_app, length_avp_wire.
    destruct (Z.of_nat _ <=? 0) eqn:E; zbool; [lia|].
    rewrite (recv_avp_wire md5 dict permissive secret rv RV a a' pre _ _ D C Fa)
      by (auto; unfold AVP_SIZE; lia).
    cbn [mbind res_bind fst snd]. rewrite app_assoc.
    replace (length pre + Z.to_nat (AVP_SIZE + a_length a))%nat with (length (pre ++ avp_wire a))
      by (rewrite length_app, length_avp_wire; unfold AVP_SIZE; lia).
    match goal with |- context [recv_avps _ _ _ _ _ _ _ _ ?n] =>
      replace n with (Z.of_nat (length (concat (avp_wire <$> l)))) by (unfold AVP_SIZE; lia) end.
    rewrite IH; [done | done | lia |].
    intros r Hr. unfold next_RV in Hr. destruct (da_id (a_attr a') =? Random_Vector); [|auto].
    destruct (a_val a') eqn:Ev; try done. simplify_eq. eauto.
Qed.

Lemma hdr_reads f0 f1 f2 f3 f4 f5 body :
  Forall (fun f => 0 <= f < 65536) [f0; f1; f2; f3; f4; f5] ->
  let b := (be_encode 2 f0 ++ be_encode 2 f1 ++ be_encode 2 f2 ++ be_encode 2 f3 ++ be_encode 2 f4
            ++ be_encode 2 f5) ++ body in
  u_read_be16 b 0 = Ok f0 /\ u_read_be16 b 2 = Ok f1 /\ u_read_be16 b 4 = Ok f2 /\
  u_read_be16 b 6 = Ok f3 /\ u_read_be16 b 8 = Ok f4 /\ u_read_be16 b 10 = Ok f5.
Proof.
  intros F b. do 6 (apply Forall_cons_1 in F as [? F]).
  assert (forall pre v post k, b = pre ++ be_encode 2 v ++ post -> k = length pre -> 0 <= v < 65536 ->
    u_read_be16 b k = Ok v) as R by (intros ? ? ? ? -> -> ?; now apply read_be16_app).
  subst b. rewrite <- !app_assoc in *.
  split_and!.
  - now apply (R [] f0 _ 0%nat eq_refl).
  - now apply (R (be_encode 2 f0) f1 _ 2%nat eq_refl).
  - eapply (R (be_encode 2 f0 ++ be_encode 2 f1)); [rewrite <- !app_assoc; reflexivity | done..].
  - eapply (R (be_encode 2 f0 ++ be_encode 2 f1 ++ be_encode 2 f2));
      [rewrite <- !app_assoc; reflexivity | done..].
  - eapply (R (be_encode 2 f0 ++ be_encode 2 f1 ++ be_encode 2 f2 ++ be_encode 2 f3));
      [rewrite <- !app_assoc; reflexivity | done..].
  - eapply (R (be_encode 2 f0 ++ be_encode 2 f1 ++ be_encode 2 f2 ++ be_encode 2 f3 ++ be_encode 2 f4));
      [rewrite <- !app_assoc; reflexivity | done..].
Qed.

Lemma wires_length l : (6 * length l <= length (concat (avp_wire <$> l)))%nat.
Proof.
  induction l as [|a l IH]; cbn [length fmap list_fmap concat]; [lia|].
  rewrite length_app, length_avp_wire. lia.
Qed.

(** The bytes that are sent: the header and the AVPs. *)
Lemma send_spec md5 dict secret pack l' :
  msg_covers md5 dict secret None (p_attrs pack) l' -> 
  l2tp_packet_send true pack = Fail \/
  let h := p_hdr pack in let body := concat (avp_wire <$> p_attrs pack) in
  let len := Z.of_nat (12 + length body) in
  len < 65536 /\ Forall (fun a => AVP_SIZE + a_length a < 1024) (p_attrs pack) /\
  l2tp_packet_send true pack
  = Ok ((be_encode 2 (u16 (h_flags h)) ++ be_encode 2 len ++ be_encode 2 (h_tid h) ++
         be_encode 2 (h_sid h) ++ be_encode 2 (h_Ns h) ++ be_encode 2 (h_Nr h)) ++ body).
Proof.
  intros M. unfold l2tp_packet_send. cbn [negb].
  replace (Z.to_nat L2TP_MAX_PACKET_SIZE) with (12 + (Z.to_nat L2TP_MAX_PACKET_SIZE - 12))%nat
    by (unfold L2TP_MAX_PACKET_SIZE; lia). rewrite replicate_add.
  destruct (send_avps_spec md5 dict secret None (p_attrs pack) l' M (replicate 12 0)
              (Z.to_nat L2TP_MAX_PACKET_SIZE - 12)) as [E|(m' & E & F & T)];
    [rewrite length_replicate; unfold L2TP_MAX_PACKET_SIZE; lia | |];
    rewrite length_replicate in *; change (Z.of_nat 12) with HDR_SIZE in E; rewrite E; [auto|].
  right. cbn [mbind res_bind fst snd]. unfold L2TP_MAX_PACKET_SIZE in T. specialize (T ltac:(lia)).
  set (body := concat _) in *. set (len := Z.of_nat (12 + length body)) in *.
  split; [done|]. split; [done|]. rewrite (u16_small len) by lia.
  set (hdr := be_encode 2 (u16 _) ++ _).
  assert (length hdr = 12%nat) as Lh by (subst hdr; rewrite !length_app, !length_be_encode; done).
  rewrite splice_app by (rewrite length_replicate, Lh; done). cbn [mbind res_bind].
  replace (Z.to_nat len) with (length (hdr ++ body)) by (rewrite length_app; lia).
  rewrite app_assoc. apply slice_app_l.
Qed.

(** A message that was sent is read back by a receiver with the same secret. *)
Lemma recv_send md5 dict permissive pack l' bytes secret :
  digest_ok md5 -> msg_covers md5 dict secret None (p_attrs pack) l' ->
  hdr_ok (p_hdr pack) -> l2tp_packet_send true pack = Ok bytes ->
  l2tp_recv md5 dict permissive secret true bytes
  = Ok (mk_packet (hdr_with_length (p_hdr pack) (Z.of_nat (length bytes))) l' None None false).
Proof.
  intros D M (Hfl & HT & HLf & HS & HV & Htid & Hsid & HNs & HNr) Hs.
  destruct (send_spec md5 dict secret pack l' M) as [E|(Hlen & F & E)]; rewrite E in Hs; [done|].
  apply ok_inj in Hs. set (h := p_hdr pack) in *. set (body := concat _) in *.
  set (len := Z.of_nat (12 + length body)) in *. rewrite (u16_small (h_flags h)) in Hs by done.
  destruct (hdr_reads (h_flags h) len (h_tid h) (h_sid h) (h_Ns h) (h_Nr h) body)
    as (R0 & R2 & R4 & R6 & R8 & R10); [repeat constructor; lia|].
  rewrite Hs in R0, R2, R4, R6, R8, R10.
  assert (Z.of_nat (length bytes) = len) as Lb
    by (rewrite <- Hs, !length_app, !length_be_encode; lia).
  unfold l2tp_recv. rewrite Lb, R0, R2, R4, R6, R8, R10.
  destruct (len <? HDR_SIZE) eqn:E1; zbool; [unfold HDR_SIZE in *; lia|].
  cbn [mbind res_bind]. rewrite HT, HLf, HS, HV. cbn [negb].
  rewrite (proj2 (Z.ltb_ge len HDR_SIZE)), Z.ltb_irrefl by lia.
  replace (len - HDR_SIZE) with (Z.of_nat (length body)) by (unfold HDR_SIZE; lia).
  rewrite <- Hs. match goal with |- context [recv_avps _ _ _ _ _ _ (?pre ++ body) _] =>
    pose proof (recv_avps_wire md5 dict permissive secret None _ l' D M F pre (Z.to_nat len) None) as R end.
  fold body in R. rewrite !length_app, !length_be_encode in R. cbn [Nat.add] in R. rewrite R; [done | | done].
  pose proof (wires_length (p_attrs pack)). fold body in H. lia.
Qed.

(** ** No access outside of what was received *)
Lemma read_value_safe type n val :
  0 <= n -> (Z.to_nat n <= length val)%nat ->
  safe (fun v => type = ATTR_TYPE_OCTETS -> exists o, v = VOctets o)
    (read_value type (AVP_SIZE + n) val true).
Proof.
  intros H0 Hn. unfold read_value, u_read_be16, u_read_be32, u_read_be64, AVP_SIZE.
  destruct type; cbn; try done.
  1-3: destruct (6 + n =? _) eqn:E; zbool; [|done];
       do 2 (apply (safe_bind _ (fun _ => True)); [|intros; done]); apply slice_safe; [lia|done].
  all: apply (safe_bind _ (fun _ => True)); [apply slice_safe; [lia|done] | intros; cbn; eauto].
Qed.

Lemma find_attr_id dict id da : l2tp_dict_find_attr_by_id dict id = Some da -> da_id da = id.
Proof.
  induction dict as [|d dict IH]; cbn; [done|]. destruct (da_id d =? id) eqn:E; [|done].
  intros [= <-]. now apply Z.eqb_eq.
Qed.

Lemma recv_avp_safe md5 dict permissive secret buf off len RV :
  digest_ok md5 -> dict_ok dict -> bytes_ok buf ->
  Z.of_nat off + len <= Z.of_nat (length buf) -> (forall x, RV = Some x -> holds_octets x) ->
  safe (fun r => AVP_SIZE <= snd r <= len /\
                 forall a, fst r = Some a -> da_id (a_attr a) = Random_Vector -> holds_octets a)
    (recv_avp md5 dict permissive secret true buf off len RV).
Proof.
  intros D DO B Hlen HRV. unfold recv_avp.
  destruct (len <? AVP_SIZE) eqn:E0; [done|]. zbool. unfold AVP_SIZE in E0.
  eapply safe_bind; [apply read_be16_safe; [done|lia] | intros flags _]. cbn beta.
  destruct (_ <? AVP_SIZE) eqn:E1; [done|]. destruct (len <? _) eqn:E2; [done|]. zbool.
  set (avp_len := Z.land flags L2TP_AVP_LEN_MASK) in *. unfold AVP_SIZE in E1.
  eapply safe_bind; [apply read_be16_safe; [done|lia] | intros vendor _].
  eapply safe_bind; [apply read_be16_safe; [done|lia] | intros type Ht]. cbn beta in Ht.
  destruct (negb (vendor =? 0)); [cbn; unfold AVP_SIZE; split; [lia|done]|].
  destruct (l2tp_dict_find_attr_by_id dict type) as [da|] eqn:Ed;
    [|destruct (_ && _); [done | cbn; unfold AVP_SIZE; split; [lia|done]]].
  destruct (_ && _); [done|]. destruct (_ && _); [done|].
  eapply (safe_bind _ (fun val => bytes_ok val /\ length val = Z.to_nat (avp_len - AVP_SIZE)));
    [apply slice_safe; [unfold AVP_SIZE; lia|] |].
  { split; [now apply bytes_ok_take, bytes_ok_drop|]. rewrite length_take, length_drop. unfold AVP_SIZE. lia. }
  intros val [Bv Lv].
  eapply (safe_bind _ (fun o => exists n, fst o = AVP_SIZE + n /\ 0 <= n /\ (Z.to_nat n <= length (snd o))%nat)).
  - destruct (flag flags L2TP_AVP_FLAG_H).
    + destruct RV as [rv|]; [|done]. destruct (no_secret secret); [done|].
      destruct (HRV rv eq_refl) as [r Hr]. destruct rv as [xd xM xH xl xv]. cbn in Hr. subst xv.
      destruct (decode_avp_spec md5 flags type val xd xM xH xl r (secret_bytes secret) D Bv)
        as [(_ & Ho & val' & -> & L & _) | [-> _]]; [fold avp_len; rewrite Lv; unfold AVP_SIZE; lia | | done].
      cbn [mbind res_bind fst snd]. set (orig := 256 * _ + _) in *. cbn. exists orig.
      assert (Z.of_nat (length val) <= 1017).
      { apply (attr_flags_len flags). fold avp_len. rewrite Lv. unfold AVP_SIZE. lia. }
      rewrite u16_small by (unfold AVP_SIZE; lia). rewrite length_drop. lia.
    + cbn. exists (avp_len - AVP_SIZE). unfold AVP_SIZE in *. lia.
  - intros [n0 v] (n & -> & Hn & Hl). cbn [fst snd] in *.
    eapply safe_bind; [apply read_value_safe; done|]. intros v' Hv. cbn. unfold AVP_SIZE at 1.
    split; [lia|]. intros a [= <-] Ha. cbn in Ha. unfold holds_octets. cbn. apply Hv.
    apply find_attr_id in Ed as Eid. rewrite Ha in Eid. subst type. now apply DO.
Qed.

Lemma recv_avps_safe md5 dict permissive secret buf fuel off len RV :
  digest_ok md5 -> dict_ok dict -> bytes_ok buf -> len <= Z.of_nat fuel ->
  Z.of_nat off + len <= Z.of_nat (length buf) -> (forall x, RV = Some x -> holds_octets x) ->
  safe (fun _ => True) (recv_avps md5 fuel dict permissive secret true buf off len RV).
Proof.
  intros D DO B. revert off len RV. induction fuel as [|fuel IH]; intros off len RV Hf Hlen HRV;
    cbn [recv_avps]; (destruct (len <=? 0) eqn:E; zbool; [done|]); [lia|].
  eapply safe_bind; [now apply recv_avp_safe|]. intros [o n] [Hn Ho]. cbn [fst snd] in *.
  unfold AVP_SIZE in Hn. eapply safe_bind; [apply IH; [lia..|] | intros; done].
  intros x Hx. destruct o as [a|]; [|auto].
  destruct (_ =? Random_Vector) eqn:Er; zbool; [simplify_eq; auto | auto].
Qed.

(** ** Building a message *)
Lemma msg_covers_snoc md5 dict secret rv l l' a a' :
  msg_covers md5 dict secret rv l l' -> covers md5 dict secret (foldl next_RV rv l') a a' ->
  msg_covers md5 dict secret rv (l ++ [a]) (l' ++ [a']).
Proof.
  induction 1 as [rv|rv x x' l l' C M IH]; intros H; cbn in *.
  - apply mc_cons; [done | apply mc_nil].
  - apply mc_cons; auto.
Qed.

Lemma alloc_flag (want : Z) (b : bool) :
  flag_mismatch want (if want =? -1 then b else negb (want =? 0)) = false.
Proof.
  unfold flag_mismatch. destruct (want =? -1); [done|]. cbn. now rewrite negb_involutive, eqb_reflx.
Qed.

Lemma hide_octets_bytes md5 id secret rv o c :
  digest_ok md5 -> bytes_ok o -> hide_octets md5 id secret rv o = Ok c -> bytes_ok c.
Proof.
  intros D B H. destruct (hide_octets_spec md5 id secret rv o D) as (c' & H' & L & E).
  rewrite H in H'. apply ok_inj in H'. subst c'. apply bytes_ok_total. intros i Hi.
  rewrite E by lia. apply lxor_byte; [apply bytes_ok_total; [done|lia]|]. apply key_byte_ok; apply D.
Qed.

Lemma encode_attr_spec md5 pack da val src o src' :
  digest_ok md5 -> bytes_ok val -> Z.of_nat (length val) < 65536 -> source_ok src ->
  encode_attr md5 true pack da val src = Ok (Some o, src') ->
  source_ok src' /\ no_secret (p_secret pack) = false /\
  exists x r pad, p_last_RV pack = Some x /\ a_val x = VOctets r /\ bytes_ok pad /\
    hide_octets md5 (da_id da) (secret_bytes (p_secret pack)) r
      (be_encode 2 (Z.of_nat (length val)) ++ val ++ pad) = Ok o.
Proof.
  intros D B Hl S H. unfold encode_attr in H. rewrite u16_small in H by lia.
  destruct (no_secret (p_secret pack)); [done|].
  destruct (p_last_RV pack) as [x|]; [|done].
  destruct (u_randbuf src 2) as [[r0|] src1] eqn:E1; [|done].
  apply u_randbuf_spec in E1 as (_ & _ & S1); [|done].
  destruct (_ <? _ + 16); [done|]. cbn [negb] in H. rewrite Nat2Z.id, slice_whole in H.
  cbn [mbind res_bind] in H. set (pl := if _ <? _ then _ else _) in H.
  destruct (u_randbuf src1 (Z.to_nat pl)) as [[pad|] src2] eqn:E2; [|done].
  apply u_randbuf_spec in E2 as (_ & Bp & S2); [|done].
  unfold octets_of in H. destruct (a_val x) as [| |r] eqn:Ex; try done. cbn [mbind res_bind] in H.
  destruct (hide_octets _ _ _ _ _) as [o'| |] eqn:Eh; try done. cbn in H.
  apply ok_inj in H. simplify_eq. split; [done|]. split; [done|]. eauto 10.
Qed.

Section Build.
Context (md5 : list Z -> list Z) (dict : list l2tp_dict_attr_t).
Context (digest : digest_ok md5) (DO : dict_ok dict).

Lemma pack_inv_add pack ops a a' op :
  pack_inv md5 dict pack ops -> da_id (a_attr a) <> Random_Vector ->
  (forall rv, rv = (x ← p_last_RV pack; match a_val x with VOctets o => Some o | _ => None end) ->
     covers md5 dict (p_secret pack) rv a a') ->
  op_attr dict op a' -> pack_inv md5 dict (add_attr pack a) (ops ++ [op]).
Proof.
  intros [(l' & M & F & R)] Hid C O. split. exists (l' ++ [a']). cbn [add_attr p_attrs p_secret p_last_RV].
  specialize (C _ R). pose proof (cv_attr _ _ _ _ _ _ C) as Ea.
  split; [now apply msg_covers_snoc|]. split.
  - rewrite filter_app. apply Forall2_app; [done|]. rewrite filter_cons_True by (rewrite Ea; done).
    constructor; [done | constructor].
  - rewrite foldl_app. cbn. unfold next_RV. rewrite Ea, (proj2 (Z.eqb_neq _ _) Hid). done.
Qed.

Lemma random_vector_inv pack ops src ok pack' src' :
  pack_inv md5 dict pack ops -> source_ok src ->
  l2tp_packet_add_random_vector true dict pack src = (ok, pack', src') ->
  source_ok src' /\ pack_inv md5 dict pack' ops /\ p_secret pack' = p_secret pack /\
  p_hide_avps pack' = p_hide_avps pack.
Proof.
  intros [(l' & M & F & R)] S H. unfold l2tp_packet_add_random_vector, attr_alloc in H.
  destruct (l2tp_dict_find_attr_by_id dict Random_Vector) as [da|] eqn:Ed; cbn [negb] in H.
  2: { simplify_eq. split; [done|]. split; [split; eauto|done]. }
  destruct (u_randbuf src 2) as [[r|] s1] eqn:E1.
  2: { simplify_eq. split; [|split; [split; eauto|done]]. now apply u_randbuf_rest in E1. }
  pose proof E1 as E1'. apply u_randbuf_spec in E1 as (Lr & Br & S1); [|done].
  set (n := Z.land (le16 r) 127 + 16) in *.
  destruct (u_randbuf s1 (Z.to_nat n)) as [[o|] s2] eqn:E2.
  2: { simplify_eq. split; [|split; [split; eauto|done]]. now apply u_randbuf_rest in E2. }
  apply u_randbuf_spec in E2 as (Lo & Bo & S2); [|done]. simplify_eq.
  destruct (DO da Ed) as [Ty Hh]. apply find_attr_id in Ed as Eid.
  assert ((if da_H da =? -1 then false else negb (da_H da =? 0)) = false) as EH.
  { destruct Hh as [->| ->]; done. }
  rewrite EH. set (M0 := if da_M da =? -1 then true else _).
  set (a := mk_attr da M0 false n (VOctets o)).
  assert (0 <= n) as Hn0.
  { assert (0 <= Z.land (le16 r) 127); [|lia]. apply Z.land_nonneg. lia. }
  assert (forall rv, covers md5 dict (p_secret pack) rv a a) as C.
  { intros rv. assert (attr_bytes a = o) as Eb by (unfold attr_bytes; cbn; rewrite Ty; done).
    split; rewrite ?Eb; cbn [a a_attr a_M a_H a_length a_val]; try done; rewrite ?Eid, ?Ty; try done;
      try (cbn; lia); try apply alloc_flag; [destruct Hh as [->| ->]; done | auto]. }
  split; [done|]. split; [|done]. split. exists (l' ++ [a]). cbn [set_last_RV add_attr p_attrs p_secret p_last_RV].
  split; [now apply msg_covers_snoc|]. split.
  - rewrite filter_app, filter_cons_False, filter_nil, app_nil_r by (cbn; tauto). done.
  - rewrite foldl_app. cbn. unfold next_RV. cbn. now rewrite Eid.
Qed.

Lemma add_hidden_inv pack ops op da M v src pack' src' :
  pack_inv md5 dict pack ops -> source_ok src ->
  l2tp_dict_find_attr_by_id dict (op_id op) = Some da -> 0 <= op_id op < 65536 ->
  op_id op <> Random_Vector ->
  M = (if da_M da =? -1 then op_M op else negb (da_M da =? 0)) -> flag_mismatch (da_H da) true = false ->
  v = op_value op -> value_ok (da_type da) v -> Z.of_nat (length (value_bytes (da_type da) v)) < 65536 ->
  add_hidden md5 true dict pack da M (value_bytes (da_type da) v) src = Ok (true, pack', src') ->
  source_ok src' /\ pack_inv md5 dict pack' (ops ++ [op]) /\ p_secret pack' = p_secret pack /\
  p_hide_avps pack' = p_hide_avps pack.
Proof.
  intros I S Hd Hid Hrv HM HH Hv V Hl H. unfold add_hidden in H.
  set (pre := match p_last_RV pack with Some _ => _ | None => _ end) in H.
  assert (exists ok p1 s1, pre = (ok, p1, s1) /\ source_ok s1 /\ pack_inv md5 dict p1 ops /\
    p_secret p1 = p_secret pack /\ p_hide_avps p1 = p_hide_avps pack)
    as (ok & p1 & s1 & E & S1 & I1 & Es & Eh).
  { subst pre. destruct (p_last_RV pack); [eauto 10|].
    destruct (l2tp_packet_add_random_vector true dict pack src) as [[ok p1] s1] eqn:E.
    apply (random_vector_inv pack ops) in E; [|done..]. exists ok, p1, s1. tauto. }
  rewrite E in H. destruct ok; [|done]. cbn [negb] in H.
  destruct (encode_attr md5 true p1 da _ s1) as [[[o|] s2]| |] eqn:Ee; try done.
  cbn [mbind res_bind fst snd] in H. apply ok_inj in H. simplify_eq.
  apply encode_attr_spec in Ee as (S2 & Hns & x & r & pad & Hx & Hr & Bp & Hh);
    [|done|now apply value_bytes_ok|done|done].
  split; [done|]. split; [|done].
  apply find_attr_id in Hd as Eid.
  eapply (pack_inv_add p1 ops _ (mk_attr da (if da_M da =? -1 then op_M op else negb (da_M da =? 0)) false
           (Z.of_nat (length (value_bytes (da_type da) (op_value op)))) (op_value op)) op I1); [cbn; congruence | | repeat split; done].
  intros rv ->. rewrite Hx. cbn [mbind option_bind]. rewrite Hr.
  split; cbn [a_attr a_M a_H a_length a_val]; try done; try (rewrite Eid; done).
  - apply alloc_flag.
  - unfold attr_bytes. cbn. apply hide_octets_bytes in Hh; [exact Hh | done |].
    rewrite !bytes_ok_app. split; [apply be_encode_ok|]. split; [now apply value_bytes_ok | done].
  - split; [eauto|]. split; [done|]. exists r, pad. split; [done|]. split; [done|]. exact Hh.
Qed.

Lemma add_clear_inv pack ops op da M v v' n :
  pack_inv md5 dict pack ops -> l2tp_dict_find_attr_by_id dict (op_id op) = Some da -> 0 <= op_id op < 65536 ->
  op_id op <> Random_Vector ->
  M = (if da_M da =? -1 then op_M op else negb (da_M da =? 0)) -> flag_mismatch (da_H da) false = false ->
  v' = op_value op -> value_ok (da_type da) v' ->
  n = Z.of_nat (length (value_bytes (da_type da) v')) ->
  (v = v' \/ v = VNone /\ v' = VOctets []) ->
  pack_inv md5 dict (add_attr pack (mk_attr da M false n v)) (ops ++ [op]).
Proof.
  intros I Hd Hid Hrv -> HH Hv V Hn Hvv. apply find_attr_id in Hd as Eid.
  assert (attr_bytes (mk_attr da (if da_M da =? -1 then op_M op else negb (da_M da =? 0)) false n v)
          = value_bytes (da_type da) v') as Eb.
  { unfold attr_bytes. cbn. destruct Hvv as [->|[-> ->]]; [done|]. now destruct (da_type da). }
  eapply (pack_inv_add pack ops _ (mk_attr da (if da_M da =? -1 then op_M op else negb (da_M da =? 0))
    false n v') op I); [cbn; congruence | | repeat split; done].
  intros rv _. split; cbn [a_attr a_M a_H a_length a_val]; rewrite ?Eb; try done; try (rewrite Eid; done).
  - apply alloc_flag.
  - now apply value_bytes_ok.
  - split; [done|]. destruct Hvv as [->|[-> ->]]; [auto|]. right.
    destruct (da_type da); try done; cbn in Hn; auto.
Qed.
End Build.

Lemma op_value_ok op type : op_type_ok op type -> value_ok type (op_value op).
Proof.
  destruct op; cbn; intros H; try (destruct H as [[->| ->] H]; cbn; tauto);
    subst; cbn; apply Z.mod_pos_bound; lia.
Qed.

Lemma op_bytes op type : op_type_ok op type ->
  value_bytes type (op_value op) =
  match op with
  | AddInt16 _ v _ => be_encode 2 (v mod 256 ^ 2)
  | AddInt32 _ v _ => be_encode 4 (v mod 256 ^ 4)
  | AddInt64 _ v _ => be_encode 8 (v mod 256 ^ 8)
  | AddString _ o _ | AddOctets _ o _ => o
  end.
Proof. destruct op; cbn; intros H; [subst; done.. | |]; destruct H as [[->| ->] _]; done. Qed.

Lemma random_vector_hdr mem dict pack src ok pack' src' :
  l2tp_packet_add_random_vector mem dict pack src = (ok, pack', src') -> p_hdr pack' = p_hdr pack.
Proof.
  unfold l2tp_packet_add_random_vector. destruct (attr_alloc mem dict Random_Vector true false) as [[[da M] H]|];
    [|now intros [= _ <- _]].
  destruct (u_randbuf src 2) as [[r|] s1]; [|now intros [= _ <- _]].
  destruct (u_randbuf s1 _) as [[o|] s2]; now intros [= _ <- _].
Qed.

Lemma add_hidden_hdr md5 mem dict pack da M val src pack' src' :
  add_hidden md5 mem dict pack da M val src = Ok (true, pack', src') -> p_hdr pack' = p_hdr pack.
Proof.
  unfold add_hidden. intros H.
  destruct (match p_last_RV pack with Some _ => _ | None => _ end) as [[ok p1] s1] eqn:E.
  assert (p_hdr p1 = p_hdr pack) as E1.
  { destruct (p_last_RV pack); [now injection E as _ <- _ | now apply random_vector_hdr in E]. }
  destruct ok; [|done]. cbn in H.
  destruct (encode_attr md5 mem p1 da val s1) as [[[o|] s2]| |]; try done. cbn in H.
  apply ok_inj in H. now simplify_eq.
Qed.

Section Adds.
Context (md5 : list Z -> list Z) (dict : list l2tp_dict_attr_t).
Context (digest : digest_ok md5) (DO : dict_ok dict).

Lemma run_add_inv pack ops op da src pack' src' :
  pack_inv md5 dict pack ops -> source_ok src ->
  l2tp_dict_find_attr_by_id dict (op_id op) = Some da -> 0 <= op_id op < 65536 ->
  op_id op <> Random_Vector -> op_type_ok op (da_type da) ->
  run_add md5 true dict pack op src = Ok (true, pack', src') ->
  source_ok src' /\ pack_inv md5 dict pack' (ops ++ [op]) /\ p_secret pack' = p_secret pack /\
  p_hdr pack' = p_hdr pack.
Proof.
  intros I S Hd Hid Hrv Ht H. pose proof (op_value_ok op _ Ht) as V. pose proof (op_bytes op _ Ht) as Eb.
  set (M0 := if da_M da =? -1 then op_M op else negb (da_M da =? 0)).
  set (H0 := if da_H da =? -1 then p_hide_avps pack else negb (da_H da =? 0)).
  pose proof (alloc_flag (da_H da) (p_hide_avps pack)) as FH. fold H0 in FH.
  assert (forall vb, H0 = true -> value_bytes (da_type da) (op_value op) = vb -> Z.of_nat (length vb) < 65536 ->
    add_hidden md5 true dict pack da M0 vb src = Ok (true, pack', src') ->
    source_ok src' /\ pack_inv md5 dict pack' (ops ++ [op]) /\
    p_secret pack' = p_secret pack /\ p_hdr pack' = p_hdr pack) as Hidden.
  { intros vb E0 <- Hl Er. rewrite E0 in FH. pose proof (add_hidden_hdr _ _ _ _ _ _ _ _ _ _ Er) as Eh.
    edestruct (add_hidden_inv md5 dict digest DO pack ops op da M0) as (? & ? & ? & _); eauto. }
  assert (forall v n, H0 = false -> n = Z.of_nat (length (value_bytes (da_type da) (op_value op))) ->
    (v = op_value op \/ v = VNone /\ op_value op = VOctets []) ->
    Ok (true, add_attr pack (mk_attr da M0 false n v), src) = Ok (true, pack', src') ->
    source_ok src' /\ pack_inv md5 dict pack' (ops ++ [op]) /\
    p_secret pack' = p_secret pack /\ p_hdr pack' = p_hdr pack) as Clear.
  { intros v n E0 Hn Hv Er. apply ok_inj in Er. simplify_eq. rewrite E0 in FH. split_and!; try done.
    eapply add_clear_inv; eauto. }
  destruct op; cbn [run_add op_id op_M] in *;
    unfold l2tp_packet_add_int16, l2tp_packet_add_int32, l2tp_packet_add_int64, add_int,
      l2tp_packet_add_string, l2tp_packet_add_octets, attr_alloc in H;
    rewrite Hd in H; cbn [negb] in H; fold M0 H0 in H.
  1-3: destruct H0 eqn:E0;
       [eapply (Hidden _ eq_refl Eb); [rewrite length_be_encode; lia | exact H]
       | eapply Clear; [done | | left; reflexivity | exact H]; now rewrite Eb, length_be_encode].
  - destruct H0 eqn:E0; [eapply (Hidden _ eq_refl Eb); [apply Ht | exact H] |
      eapply Clear; [done | | left; reflexivity | exact H]; now rewrite Eb].
  - destruct (L2TP_AVP_LEN_MASK <? _) eqn:El; [done|]. zbool. unfold L2TP_AVP_LEN_MASK in El.
    destruct (_ && negb H0) eqn:E1.
    + apply andb_true_iff in E1 as [E1 E0%negb_true_iff]. zbool. rewrite E0 in *.
      assert (val = []) as -> by (destruct val; [done | cbn in E1; lia]).
      eapply Clear; [done | | right; split; reflexivity | exact H]. now rewrite Eb.
    + destruct H0 eqn:E0; [eapply (Hidden _ eq_refl Eb); [lia | exact H] |
        eapply Clear; [done | | left; reflexivity | exact H]; now rewrite Eb].
Qed.

Lemma run_adds_inv ops done_ops pack src pack' :
  pack_inv md5 dict pack done_ops -> source_ok src ->
  Forall (fun op => 0 <= op_id op < 65536 /\ op_id op <> Random_Vector /\
     forall da, l2tp_dict_find_attr_by_id dict (op_id op) = Some da -> op_type_ok op (da_type da)) ops ->
  run_adds md5 true dict pack ops src = Ok pack' ->
  pack_inv md5 dict pack' (done_ops ++ ops) /\ p_secret pack' = p_secret pack /\ p_hdr pack' = p_hdr pack.
Proof.
  revert done_ops pack src. induction ops as [|op ops IH]; intros done_ops pack src I S F H; cbn in H.
  - apply ok_inj in H as <-. now rewrite app_nil_r.
  - apply Forall_cons in F as [(Hid & Hrv & Ht) F].
    destruct (run_add md5 true dict pack op src) as [[[ok p1] s1]| |] eqn:E; try done.
    cbn in H. destruct ok; [|done].
    destruct (l2tp_dict_find_attr_by_id dict (op_id op)) as [da|] eqn:Ed.
    2: { exfalso. destruct op; cbn in Ed, E; revert E;
           unfold l2tp_packet_add_int16, l2tp_packet_add_int32, l2tp_packet_add_int64, add_int,
             l2tp_packet_add_string, l2tp_packet_add_octets, attr_alloc; rewrite Ed; done. }
    destruct (run_add_inv pack done_ops op da src p1 s1 I S Ed Hid Hrv (Ht da eq_refl) E) as (S1 & I1 & Es & Eh).
    destruct (IH (done_ops ++ [op]) p1 s1 I1 S1 F H) as (I2 & Es2 & Eh2).
    rewrite <- app_assoc in I2. split; [exact I2|]. split; congruence.
Qed.
End Adds.

(** ** The theorems *)

(** C4. A control message built with any sequence of successful calls of the
    [l2tp_packet_add_*] functions, hidden AVPs included, is either refused by
    [l2tp_packet_send] for its size or read back by [l2tp_recv] of a peer with
    the same secret: same header, and, random vectors apart, the attributes of
    the calls in their order with the values given. *)
Theorem l2tp_message_roundtrip (md5 : list Z -> list Z) (dict : list l2tp_dict_attr_t)
    (permissive : bool) (h : l2tp_hdr_t) (secret : option (list Z)) (hide : bool)
    (ops : list add_op) (src : list read_result) (pack : l2tp_packet_t) :
  digest_ok md5 -> dict_ok dict -> source_ok src -> hdr_ok h ->
  Forall (fun op => 0 <= op_id op < 65536 /\ op_id op <> Random_Vector /\
     forall da, l2tp_dict_find_attr_by_id dict (op_id op) = Some da -> op_type_ok op (da_type da)) ops ->
  run_adds md5 true dict (mk_packet h [] None secret hide) ops src = Ok pack ->
  l2tp_packet_send true pack = Fail \/
  exists bytes attrs, l2tp_packet_send true pack = Ok bytes /\
    l2tp_recv md5 dict permissive secret true bytes
    = Ok (mk_packet (hdr_with_length h (Z.of_nat (length bytes))) attrs None None false) /\
    Forall2 (op_attr dict) ops (filter (fun a => da_id (a_attr a) <> Random_Vector) attrs).
Proof.
  intros D DO S Hh F H.
  assert (pack_inv md5 dict (mk_packet h [] None secret hide) []) as I0.
  { split. exists []. split; [apply mc_nil|]. split; [constructor | done]. }
  destruct (run_adds_inv md5 dict D DO ops [] _ src pack I0 S F H) as ([(l' & M & Fa & _)] & Es & Eh).
  cbn in Es, Eh. rewrite Es in M.
  destruct (send_spec md5 dict secret pack l' M) as [E|(_ & _ & E)]; [auto|]. right.
  eexists _, l'. split; [exact E|]. split; [|exact Fa].
  rewrite <- Eh in Hh. rewrite (recv_send md5 dict permissive pack l' _ secret D M Hh E).
  now rewrite Eh.
Qed.

(** C24. Whatever bytes arrive, and whatever secret they were hidden with,
    [l2tp_recv] reads and writes only inside of the message received, and ends. *)
Theorem l2tp_recv_safe (md5 : list Z -> list Z) (dict : list l2tp_dict_attr_t) (permissive : bool)
    (secret : option (list Z)) (buf : list Z) :
  digest_ok md5 -> dict_ok dict -> bytes_ok buf ->
  l2tp_recv md5 dict permissive secret true buf <> Oob.
Proof.
  intros D DO B. assert (safe (fun _ => True) (l2tp_recv md5 dict permissive secret true buf)) as S.
  2: { intros E. rewrite E in S. done. }
  unfold l2tp_recv. destruct (_ <? HDR_SIZE) eqn:E; [done|]. zbool. unfold HDR_SIZE in E.
  eapply safe_bind; [apply read_be16_safe; [done|lia]|]. intros flags _.
  do 4 (destruct (negb _); [done|]).
  eapply safe_bind; [apply read_be16_safe; [done|lia]|]. intros len Hl. cbn beta in Hl.
  destruct (len <? HDR_SIZE) eqn:E1; [done|]. destruct (_ <? len) eqn:E2; [done|]. zbool.
  unfold HDR_SIZE in *. cbn [negb].
  do 4 (eapply safe_bind; [apply read_be16_safe; [done|lia] | intros ? _]).
  eapply safe_bind; [apply recv_avps_safe; try done; lia | done].
Qed.

Lemma sum_digest_ok : digest_ok sum_digest.
Proof.
  intros x. unfold sum_digest. rewrite length_fmap, length_seqZ. split; [reflexivity|].
  apply Forall_fmap, Forall_forall. intros i _. apply Z.mod_pos_bound. lia.
Qed.

Lemma some_dict_ok : dict_ok some_dict.
Proof. intros da [= <-]. cbn. auto. Qed.

Lemma some_source_ok : source_ok some_source.
Proof. repeat constructor; unfold byte_ok; lia. Qed.

Lemma l2tp_message_roundtrip_witness :
  exists bytes attrs,
    run_adds sum_digest true some_dict (mk_packet some_hdr [] None some_secret true) some_ops some_source
    = Ok some_pack /\ l2tp_packet_send true some_pack = Ok bytes /\
    l2tp_recv sum_digest some_dict false some_secret true bytes
    = Ok (mk_packet (hdr_with_length some_hdr (Z.of_nat (length bytes))) attrs None None false) /\
    Forall2 (op_attr some_dict) some_ops (filter (fun a => da_id (a_attr a) <> Random_Vector) attrs).
Proof.
  destruct (l2tp_message_roundtrip sum_digest some_dict false some_hdr some_secret true some_ops some_source some_pack
    sum_digest_ok some_dict_ok some_source_ok) as [F|(bytes & attrs & E & R & A)].
  - unfold hdr_ok. vm_compute. intuition congruence.
  - repeat (apply Forall_cons; split; [split; [cbn; lia | split; [done|]] | ]); [..|constructor];
      intros da [= <-]; cbn; try done; split_and!; auto; try lia;
      repeat (apply Forall_cons; split; [unfold byte_ok; lia|]); constructor.
  - vm_compute. reflexivity.
  - exfalso. vm_compute in F. discriminate F.
  - exists bytes, attrs. split; [vm_compute; reflexivity|]. split; [exact E|]. split; [exact R | exact A].
Defined.

Lemma l2tp_recv_safe_witness :
  l2tp_recv sum_digest some_dict false some_secret true
    (be_encode 2 51202 ++ be_encode 2 20 ++ replicate 8 0 ++ be_encode 2 49160 ++ [0; 0; 0; 9; 255; 255])
  <> Oob.
Proof.
  apply l2tp_recv_safe; [apply sum_digest_ok | apply some_dict_ok | bytes_lit].
Defined.
