(* ===== verification/RadiusPacket.v ===== *)
(** * RADIUS packets (accel-pppd/radius/packet.c, dict.c, radius.h)

    Attributes added to a packet, the packet built, signed and sent, and a
    packet received and taken apart.

    A pointer to a dictionary vendor is its index in [dict->vendors].  The union
    [rad_value_t] is a sum of its members; its integer members in memory are
    little-endian.  [attr->raw], used to print only, is left out.  HMAC-MD5 is
    the parameter of [rad_packet_send]; the bytes received and the bytes sent
    are the ends of the model. *)
From S2P Require Import Prelude CString Utils.

Definition REQ_LENGTH_MAX : Z := 4096.
Definition HMAC_MD5_LEN : nat := 16.
(** Radius header and attribute header *)
Definition PACKET_SIGNED_OFFSET : nat := 22.

Inductive rad_type : Type :=
| TYPE_INTEGER | TYPE_STRING | TYPE_OCTETS | TYPE_DATE | TYPE_IPADDR | TYPE_IFID
| TYPE_IPV6ADDR | TYPE_IPV6PREFIX | TYPE_ETHER | TYPE_TLV.

(** [RInt]: integer, date, ipaddr or ifid; [RPtr]: string or octets; [RAddr6]: the
    16 bytes of an address; [RZero]: the union as [memset] leaves it. *)
Inductive rad_value_t : Type :=
| RZero
| RInt (v : Z)
| RPtr (o : list Z)
| RAddr6 (b : list Z)
| RPrefix6 (prefix : list Z) (len : Z).

Record rad_dict_attr_t : Type := mk_rda {
  rd_name : string;
  rd_id : Z;
  rd_type : rad_type;
  rd_array : bool;
  rd_size : Z;
  rd_values : list (string * rad_value_t)
}.

Record rad_dict_vendor_t : Type := mk_vendor {
  v_id : Z;
  v_tag : Z;
  v_len : Z;
  v_name : string;
  v_items : list rad_dict_attr_t
}.

Record rad_dict_t : Type := mk_dict {
  d_items : list rad_dict_attr_t;
  d_vendors : list rad_dict_vendor_t
}.

Record rad_attr_t : Type := mk_ra {
  ra_attr : rad_dict_attr_t;
  ra_vendor : option nat;
  ra_len : Z;
  ra_val : rad_value_t
}.

Record rad_packet_t : Type := mk_rpack {
  rp_message_authenticator : bool;
  rp_secret : option (list Z);
  rp_code : Z;
  rp_id : Z;
  rp_len : Z;
  rp_attrs : list rad_attr_t
}.

(** ** The dictionary *)
Fixpoint dict_find_attr (items : list rad_dict_attr_t) (name : string) : option rad_dict_attr_t :=
  match items with
  | [] => None
  | a :: items' => if String.eqb (rd_name a) name then Some a else dict_find_attr items' name
  end.

Definition rad_dict_find_attr (dict : rad_dict_t) (name : string) : option rad_dict_attr_t :=
  dict_find_attr (d_items dict) name.

Fixpoint find_id (items : list rad_dict_attr_t) (id : Z) : option rad_dict_attr_t :=
  match items with
  | [] => None
  | a :: items' => if rd_id a =? id then Some a else find_id items' id
  end.

Definition rad_dict_find_attr_id (dict : rad_dict_t) (vendor : option nat) (id : Z)
  : option rad_dict_attr_t :=
  match vendor with
  | Some i => match d_vendors dict !! i with Some v => find_id (v_items v) id | None => None end
  | None => find_id (d_items dict) id
  end.

Fixpoint rad_dict_find_val_name (vals : list (string * rad_value_t)) (name : string)
  : option rad_value_t :=
  match vals with
  | [] => None
  | (n, v) :: vals' => if String.eqb n name then Some v else rad_dict_find_val_name vals' name
  end.

Fixpoint find_vendor (P : rad_dict_vendor_t -> bool) (vs : list rad_dict_vendor_t) (i : nat)
  : option nat :=
  match vs with
  | [] => None
  | v :: vs' => if P v then Some i else find_vendor P vs' (S i)
  end.

Definition rad_dict_find_vendor_name (dict : rad_dict_t) (name : string) : option nat :=
  find_vendor (fun v => String.eqb (v_name v) name) (d_vendors dict) 0.
Definition rad_dict_find_vendor_id (dict : rad_dict_t) (id : Z) : option nat :=
  find_vendor (fun v => v_id v =? id) (d_vendors dict) 0.
Definition rad_dict_find_vendor_attr (dict : rad_dict_t) (vendor : nat) (name : string)
  : option rad_dict_attr_t :=
  match d_vendors dict !! vendor with Some v => dict_find_attr (v_items v) name | None => None end.

(** ** Building the attribute list *)
Definition rad_packet_alloc (mem : bool) (code : Z) : option rad_packet_t :=
  if mem then Some (mk_rpack false None code 1 20 []) else None.

Definition with_attrs (pack : rad_packet_t) (len : Z) (attrs : list rad_attr_t) : rad_packet_t :=
  mk_rpack (rp_message_authenticator pack) (rp_secret pack) (rp_code pack) (rp_id pack) len attrs.

(** [(vendor_name ? 8 : 2)] *)
Definition attr_overhead {A} (vendor : option A) : Z := if isset vendor then 8 else 2.

(** The look-up of the vendor and of the attribute that every function makes. *)
Definition find_named (dict : rad_dict_t) (vendor_name : option string) (name : string)
  : option (option nat * rad_dict_attr_t) :=
  match vendor_name with
  | Some vn =>
      match rad_dict_find_vendor_name dict vn with
      | None => None
      | Some v => match rad_dict_find_vendor_attr dict v name with
                  | Some a => Some (Some v, a) | None => None end
      end
  | None => match rad_dict_find_attr dict name with Some a => Some (None, a) | None => None end
  end.

(** The body of the add functions: an attribute of [len] bytes with value [val];
    [None] is the -1 return, which leaves the packet as it is. *)
Definition add_attr_val (mem : bool) (dict : rad_dict_t) (pack : rad_packet_t)
    (vendor_name : option string) (name : string) (len : Z)
    (val : rad_dict_attr_t -> option rad_value_t) : option rad_packet_t :=
  if REQ_LENGTH_MAX <=? rp_len pack + attr_overhead vendor_name + len then None
  else
    match find_named dict vendor_name name with
    | None => None
    | Some (vendor, attr) =>
        match val attr with
        | None => None
        | Some v =>
            if negb mem then None
            else Some (with_attrs pack (rp_len pack + attr_overhead vendor_name + len)
                         (rp_attrs pack ++ [mk_ra attr vendor len v]))
        end
    end.

Definition rad_packet_add_int (mem : bool) (dict : rad_dict_t) (pack : rad_packet_t)
    (vendor_name : option string) (name : string) (val : Z) : option rad_packet_t :=
  add_attr_val mem dict pack vendor_name name 4 (fun _ => Some (RInt (u32 val))).

Definition rad_packet_add_octets (mem : bool) (dict : rad_dict_t) (pack : rad_packet_t)
    (vendor_name : option string) (name : string) (val : list Z) : option rad_packet_t :=
  add_attr_val mem dict pack vendor_name name (Z.of_nat (length val))
    (fun _ => Some (if decide (val = []) then RZero else RPtr val)).

Definition rad_packet_add_str (mem : bool) (dict : rad_dict_t) (pack : rad_packet_t)
    (vendor_name : option string) (name : string) (val : list Z) : option rad_packet_t :=
  add_attr_val mem dict pack vendor_name name (Z.of_nat (length val)) (fun _ => Some (RPtr val)).

Definition rad_packet_add_val (mem : bool) (dict : rad_dict_t) (pack : rad_packet_t)
    (vendor_name : option string) (name val : string) : option rad_packet_t :=
  add_attr_val mem dict pack vendor_name name 4 (fun a => rad_dict_find_val_name (rd_values a) val).

(** [ipaddr] is the address as it is in memory, read as an integer. *)
Definition rad_packet_add_ipaddr (mem : bool) (dict : rad_dict_t) (pack : rad_packet_t)
    (vendor_name : option string) (name : string) (ipaddr : Z) : option rad_packet_t :=
  rad_packet_add_int mem dict pack vendor_name name ipaddr.

Definition rad_packet_add_ifid (mem : bool) (dict : rad_dict_t) (pack : rad_packet_t)
    (vendor_name : option string) (name : string) (ifid : Z) : option rad_packet_t :=
  add_attr_val mem dict pack vendor_name name 8 (fun _ => Some (RInt (u64 ifid))).

(** [val.ipv6prefix.len] is a [uint8_t]. *)
Definition rad_packet_add_ipv6prefix (mem : bool) (dict : rad_dict_t) (pack : rad_packet_t)
    (vendor_name : option string) (name : string) (prefix : list Z) (len : Z) : option rad_packet_t :=
  add_attr_val mem dict pack vendor_name name 18 (fun _ => Some (RPrefix6 prefix (u8 len))).

(** The position of the attribute that [rad_packet_find_attr] returns. *)
Fixpoint find_attr_from (vendor : option nat) (name : string) (attrs : list rad_attr_t) (i : nat)
  : option nat :=
  match attrs with
  | [] => None
  | ra :: attrs' =>
      if isset vendor && negb (bool_decide (vendor = ra_vendor ra))
      then find_attr_from vendor name attrs' (S i)
      else if negb (String.eqb (rd_name (ra_attr ra)) name)
      then find_attr_from vendor name attrs' (S i)
      else Some i
  end.

Definition rad_packet_find_attr (dict : rad_dict_t) (pack : rad_packet_t)
    (vendor_name : option string) (name : string) : option nat :=
  match vendor_name with
  | Some vn => match rad_dict_find_vendor_name dict vn with
               | None => None
               | Some v => find_attr_from (Some v) name (rp_attrs pack) 0
               end
  | None => find_attr_from None name (rp_attrs pack) 0
  end.

(** The change functions: the attribute found gets [len] bytes and value [val]. *)
Definition change_attr (dict : rad_dict_t) (pack : rad_packet_t) (vendor_name : option string)
    (name : string) (change : rad_attr_t -> option (Z * rad_value_t)) : option rad_packet_t :=
  match rad_packet_find_attr dict pack vendor_name name with
  | None => None
  | Some i =>
      match rp_attrs pack !! i with
      | None => None
      | Some ra =>
          match change ra with
          | None => None
          | Some (len, v) =>
              Some (with_attrs pack (rp_len pack + (len - ra_len ra))
                      (<[i := mk_ra (ra_attr ra) (ra_vendor ra) len v]> (rp_attrs pack)))
          end
      end
  end.

Definition rad_packet_change_int (dict : rad_dict_t) (pack : rad_packet_t)
    (vendor_name : option string) (name : string) (val : Z) : option rad_packet_t :=
  change_attr dict pack vendor_name name (fun ra => Some (ra_len ra, RInt (u32 val))).

Definition rad_packet_change_val (dict : rad_dict_t) (pack : rad_packet_t)
    (vendor_name : option string) (name val : string) : option rad_packet_t :=
  change_attr dict pack vendor_name name (fun ra =>
    match rad_dict_find_val_name (rd_values (ra_attr ra)) val with
    | Some v => Some (ra_len ra, v) | None => None end).

(** The two functions that may change the length; [_realloc] succeeds.  [empty]
    is what it makes of no bytes. *)
Definition change_ptr (pack : rad_packet_t) (val : list Z) (empty : rad_value_t)
    (ra : rad_attr_t) : option (Z * rad_value_t) :=
  let len := Z.of_nat (length val) in
  if ra_len ra =? len then Some (len, if decide (val = []) then ra_val ra else RPtr val)
  else if REQ_LENGTH_MAX <=? rp_len pack - ra_len ra + len then None
  else Some (len, if decide (val = []) then empty else RPtr val).

Definition rad_packet_change_octets (dict : rad_dict_t) (pack : rad_packet_t)
    (vendor_name : option string) (name : string) (val : list Z) : option rad_packet_t :=
  change_attr dict pack vendor_name name (change_ptr pack val RZero).

Definition rad_packet_change_str (dict : rad_dict_t) (pack : rad_packet_t)
    (vendor_name : option string) (name : string) (val : list Z) : option rad_packet_t :=
  change_attr dict pack vendor_name name (change_ptr pack val (RPtr [])).

(** ** Building the packet *)

(** The first bytes of the union in memory. *)
Definition value_mem (v : rad_value_t) : list Z :=
  match v with
  | RZero => replicate 24 0
  | RInt x => reverse (be_encode 8 x) ++ replicate 16 0
  | RAddr6 b => b
  | RPtr _ | RPrefix6 _ _ => []
  end.

(** The switch on the type: the value written at [off]; [Fail] is [abort]. *)
Definition build_value (dict : rad_dict_t) (buf : list Z) (off : nat) (ra : rad_attr_t) : res (list Z) :=
  match rd_type (ra_attr ra), ra_val ra with
  | (TYPE_INTEGER | TYPE_DATE), RInt v => u_write_be32 buf off v
  | (TYPE_INTEGER | TYPE_DATE), RZero => u_write_be32 buf off 0
  | (TYPE_OCTETS | TYPE_STRING), RPtr o =>
      b ← slice 0 (Z.to_nat (ra_len ra)) o; splice off b buf
  | (TYPE_OCTETS | TYPE_STRING), RZero => if ra_len ra =? 0 then mret buf else Oob
  | (TYPE_IPADDR | TYPE_IFID | TYPE_IPV6ADDR), v =>
      b ← slice 0 (Z.to_nat (ra_len ra)) (value_mem v); splice off b buf
  | TYPE_IPV6PREFIX, RPrefix6 prefix len => splice off ([0; len] ++ prefix) buf
  | (TYPE_ETHER | TYPE_TLV), _ => Fail
  | _, _ => Oob
  end.

Definition build_attr (dict : rad_dict_t) (buf : list Z) (off : nat) (ra : rad_attr_t)
  : res (list Z * nat) :=
  a ← (match ra_vendor ra with
       | Some i =>
           match d_vendors dict !! i with
           | Some v =>
               buf ← splice off [26; u8 (ra_len ra + 2 + 6)] buf;
               buf ← u_write_be32 buf (off + 2) (v_id v);
               mret (buf, (off + 6)%nat)
           | None => Oob
           end
       | None => mret (buf, off)
       end);
  let off := snd a in
  buf ← splice off [u8 (rd_id (ra_attr ra)); u8 (ra_len ra + 2)] (fst a);
  buf ← build_value dict buf (off + 2) ra;
  mret (buf, (off + 2 + Z.to_nat (ra_len ra))%nat).

Fixpoint build_attrs (dict : rad_dict_t) (buf : list Z) (off : nat) (attrs : list rad_attr_t)
  : res (list Z * nat) :=
  match attrs with
  | [] => mret (buf, off)
  | ra :: attrs' => a ← build_attr dict buf off ra; build_attrs dict (fst a) (snd a) attrs'
  end.

(** [rad_packet_build] into the buffer [buf] of REQ_LENGTH_MAX bytes; [RA] is
    the authenticator, [mem] says whether there is a buffer. *)
Definition rad_packet_build (mem : bool) (dict : rad_dict_t) (buf : list Z) (pack : rad_packet_t)
    (RA : list Z) : res (list Z) :=
  if negb mem then Fail
  else
    buf ← splice 0 [u8 (rp_code pack); u8 (rp_id pack)] buf;
    buf ← u_write_be16 buf 2 (rp_len pack);
    ra ← slice 0 16 RA;
    buf ← splice 4 ra buf;
    a ← build_attrs dict buf 20 (rp_attrs pack);
    mret (fst a).

(** [rad_packet_send]: the message authenticator, then the bytes to send. *)
Definition rad_packet_send (hmac_md5 : list Z -> list Z -> option (list Z)) (pack : rad_packet_t)
    (buf : list Z) : res (list Z) :=
  buf ← (match rp_secret pack with
         | Some secret =>
             if rp_message_authenticator pack then
               buf ← splice PACKET_SIGNED_OFFSET (replicate HMAC_MD5_LEN 0) buf;
               data ← slice 0 (Z.to_nat (rp_len pack)) buf;
               match hmac_md5 secret data with
               | None => Fail
               | Some mac => splice PACKET_SIGNED_OFFSET mac buf
               end
             else mret buf
         | None => mret buf
         end);
  slice 0 (Z.to_nat (rp_len pack)) buf.

(** ** Receiving *)
Definition get (buf : list Z) (off : nat) : res Z := res_of_option (buf !! off).

(** The switch that reads the value of [len] bytes at [ptr] (24 is the size of
    the union). *)
Definition recv_value (da : rad_dict_attr_t) (buf : list Z) (ptr : nat) (len : Z) : res rad_value_t :=
  if rd_array da then mret RZero
  else
    match rd_type da with
    | TYPE_STRING | TYPE_OCTETS | TYPE_ETHER | TYPE_TLV =>
        o ← slice ptr (Z.to_nat len) buf; mret (RPtr o)
    | TYPE_INTEGER =>
        if negb (len =? rd_size da) then mret RZero
        else if len =? 4 then v ← u_read_be32 buf ptr; mret (RInt v)
        else if len =? 2 then v ← u_read_be16 buf ptr; mret (RInt v)
        else if len =? 1 then v ← get buf ptr; mret (RInt v)
        else mret RZero
    | TYPE_DATE => if len =? 4 then v ← u_read_be32 buf ptr; mret (RInt v) else mret RZero
    | TYPE_IPADDR | TYPE_IFID | TYPE_IPV6ADDR =>
        if negb (len =? rd_size da) then mret RZero
        else if 24 <? len then Oob
        else
          b ← slice ptr (Z.to_nat len) buf;
          mret (match rd_type da with TYPE_IPV6ADDR => RAddr6 b | _ => RInt (be_decode (reverse b)) end)
    | TYPE_IPV6PREFIX =>
        if (len <? 2) || (18 <? len) then mret RZero
        else
          plen ← get buf (ptr + 1);
          if 128 <? plen then mret RZero
          else
            b ← slice (ptr + 2) (Z.to_nat (len - 2)) buf;
            mret (RPrefix6 (b ++ replicate (16 - length b) 0) plen)
    end.

(** The vendor header inside of a Vendor-Specific attribute: vendor, id and
    length of the attribute, its position and what is left of the packet. *)
Definition recv_vsa (dict : rad_dict_t) (buf : list Z) (ptr : nat) (len n : Z)
  : res (option nat * Z * Z * nat * Z) :=
  if len <? 4 then Fail
  else
    vendor_id ← u_read_be32 buf ptr;
    match rad_dict_find_vendor_id dict (s32 vendor_id) with
    | None => mret (None, 26, len, ptr, n)
    | Some i =>
        match d_vendors dict !! i with
        | None => Oob
        | Some v =>
            if len <? 4 + v_tag v + v_len v then Fail
            else
              let ptr := (ptr + 4)%nat in
              id ← (if v_tag v =? 2 then u_read_be16 buf ptr else get buf ptr);
              let ptr := (ptr + Z.to_nat (v_tag v))%nat in
              len ← (if v_len v =? 2 then u_read_be16 buf ptr else get buf ptr);
              let ptr := (ptr + Z.to_nat (v_len v))%nat in
              let len := len - (v_tag v + v_len v) in
              let n := n - (4 + v_tag v + v_len v) in
              if len <? 0 then Fail
              else if n <? 2 + len then Fail
              else mret (Some i, id, len, ptr, n)
        end
    end.

(** The body of [while (n > 0)]. *)
Definition recv_attr (mem : bool) (dict : rad_dict_t) (buf : list Z) (ptr : nat) (n : Z)
  : res (option rad_attr_t * nat * Z) :=
  if n <? 2 then Fail
  else
    id ← get buf ptr;
    l ← get buf (ptr + 1);
    let len := l - 2 in
    let ptr := (ptr + 2)%nat in
    if len <? 0 then Fail
    else if n <? 2 + len then Fail
    else
      x ← (if id =? 26 then recv_vsa dict buf ptr len n else mret (None, id, len, ptr, n));
      let '(vendor, id, len, ptr, n) := x in
      attr ← (match rad_dict_find_attr_id dict vendor id with
              | Some da =>
                  if negb mem then Fail
                  else v ← recv_value da buf ptr len; mret (Some (mk_ra da vendor len v))
              | None => mret None
              end);
      mret (attr, (ptr + Z.to_nat len)%nat, n - (2 + len)).

(** Every round takes at least two bytes; out of [fuel] is [Oob]. *)
Fixpoint recv_attrs (fuel : nat) (mem : bool) (dict : rad_dict_t) (buf : list Z) (ptr : nat) (n : Z)
  : res (list rad_attr_t) :=
  if n <=? 0 then mret []
  else
    match fuel with
    | O => Oob
    | S fuel' =>
        a ← recv_attr mem dict buf ptr n;
        let '(attr, ptr', n') := a in
        rest ← recv_attrs fuel' mem dict buf ptr' n';
        mret (match attr with Some ra => ra :: rest | None => rest end)
    end.

(** [rad_packet_recv] from the [n] bytes of [buf] that were read; [Fail] is a
    return without a packet. *)
Definition rad_packet_recv (mem : bool) (dict : rad_dict_t) (buf : list Z) : res rad_packet_t :=
  if negb mem then Fail
  else
    let n := Z.of_nat (length buf) in
    if n <? 20 then Fail
    else
      code ← get buf 0;
      id ← get buf 1;
      len ← u_read_be16 buf 2;
      if (len <? 20) || (n <? len) then Fail
      else
        attrs ← recv_attrs (Z.to_nat len) mem dict buf 20 (len - 20);
        mret (mk_rpack false None code id len attrs).

(** ** Vocabulary of the theorems *)

(** The bytes an attribute takes in the packet. *)
Definition attr_size (ra : rad_attr_t) : Z := attr_overhead (ra_vendor ra) + ra_len ra.
Definition attrs_size (attrs : list rad_attr_t) : Z := foldr (fun ra n => attr_size ra + n) 0 attrs.

(** A value of the type of its attribute, as the add functions make it. *)
Definition value_ok (type : rad_type) (len : Z) (v : rad_value_t) : Prop :=
  match type, v with
  | (TYPE_INTEGER | TYPE_DATE | TYPE_IPADDR), RInt x => len = 4 /\ 0 <= x < 2 ^ 32
  | (TYPE_OCTETS | TYPE_STRING), RPtr o => len = Z.of_nat (length o) /\ bytes_ok o
  | (TYPE_OCTETS | TYPE_STRING), RZero => len = 0
  | TYPE_IFID, RInt x => len = 8 /\ 0 <= x < 2 ^ 64
  | TYPE_IPV6ADDR, RAddr6 b => len = 16 /\ length b = 16%nat /\ bytes_ok b
  | TYPE_IPV6PREFIX, RPrefix6 p l => len = 18 /\ length p = 16%nat /\ bytes_ok p /\ 0 <= l < 256
  | _, _ => False
  end.

Definition value_bytes (type : rad_type) (v : rad_value_t) : list Z :=
  match type, v with
  | (TYPE_INTEGER | TYPE_DATE), RInt x => be_encode 4 x
  | TYPE_IPADDR, RInt x => reverse (be_encode 4 x)
  | TYPE_IFID, RInt x => reverse (be_encode 8 x)
  | _, RPtr o => o
  | _, RAddr6 b => b
  | _, RPrefix6 p l => [0; l] ++ p
  | _, _ => []
  end.

Definition in_dict (dict : rad_dict_t) (a : rad_dict_attr_t) : Prop :=
  a ∈ d_items dict \/ exists v, v ∈ d_vendors dict /\ a ∈ v_items v.

Record ra_ok (dict : rad_dict_t) (ra : rad_attr_t) : Prop := {
  ra_value_ok : value_ok (rd_type (ra_attr ra)) (ra_len ra) (ra_val ra);
  ra_vendor_ok : forall i, ra_vendor ra = Some i -> exists v, d_vendors dict !! i = Some v;
  ra_in_dict : in_dict dict (ra_attr ra)
}.

(** The attribute on the wire. *)
Definition vendor_hdr (dict : rad_dict_t) (ra : rad_attr_t) : list Z :=
  match ra_vendor ra with
  | Some i => match d_vendors dict !! i with
              | Some v => [26; u8 (ra_len ra + 2 + 6)] ++ be_encode 4 (u32 (v_id v))
              | None => []
              end
  | None => []
  end.

Definition ra_wire (dict : rad_dict_t) (ra : rad_attr_t) : list Z :=
  vendor_hdr dict ra ++ [u8 (rd_id (ra_attr ra)); u8 (ra_len ra + 2)] ++
  value_bytes (rd_type (ra_attr ra)) (ra_val ra).

Definition wires (dict : rad_dict_t) (attrs : list rad_attr_t) : list Z := concat (ra_wire dict <$> attrs).

(** The bytes of a packet: header, authenticator, attributes. *)
Definition packet_bytes (dict : rad_dict_t) (pack : rad_packet_t) (RA : list Z) : list Z :=
  [u8 (rp_code pack); u8 (rp_id pack)] ++ be_encode 2 (rp_len pack) ++ take 16 RA ++
  wires dict (rp_attrs pack).

(** The length field counts what is in the packet, and that fits the buffer. *)
Record len_ok (pack : rad_packet_t) : Prop := {
  lo_len : rp_len pack = 20 + attrs_size (rp_attrs pack);
  lo_max : rp_len pack < REQ_LENGTH_MAX;
  lo_attrs : Forall (fun ra => 0 <= ra_len ra) (rp_attrs pack)
}.

(** Calls of the functions that change a packet. *)
Inductive rad_op : Type :=
| AddInt (vn : option string) (name : string) (val : Z)
| AddOctets (vn : option string) (name : string) (val : list Z)
| AddStr (vn : option string) (name : string) (val : list Z)
| AddVal (vn : option string) (name val : string)
| AddIpaddr (vn : option string) (name : string) (val : Z)
| AddIfid (vn : option string) (name : string) (val : Z)
| AddIpv6prefix (vn : option string) (name : string) (prefix : list Z) (len : Z)
| ChangeInt (vn : option string) (name : string) (val : Z)
| ChangeOctets (vn : option string) (name : string) (val : list Z)
| ChangeStr (vn : option string) (name : string) (val : list Z)
| ChangeVal (vn : option string) (name val : string).

Definition run_op (dict : rad_dict_t) (mem : bool) (pack : rad_packet_t) (op : rad_op)
  : option rad_packet_t :=
  match op with
  | AddInt vn n v => rad_packet_add_int mem dict pack vn n v
  | AddOctets vn n v => rad_packet_add_octets mem dict pack vn n v
  | AddStr vn n v => rad_packet_add_str mem dict pack vn n v
  | AddVal vn n v => rad_packet_add_val mem dict pack vn n v
  | AddIpaddr vn n v => rad_packet_add_ipaddr mem dict pack vn n v
  | AddIfid vn n v => rad_packet_add_ifid mem dict pack vn n v
  | AddIpv6prefix vn n p l => rad_packet_add_ipv6prefix mem dict pack vn n p l
  | ChangeInt vn n v => rad_packet_change_int dict pack vn n v
  | ChangeOctets vn n v => rad_packet_change_octets dict pack vn n v
  | ChangeStr vn n v => rad_packet_change_str dict pack vn n v
  | ChangeVal vn n v => rad_packet_change_val dict pack vn n v
  end.

(** A call that returns -1 leaves the packet as it is. *)
Definition run_ops (dict : rad_dict_t) (pack : rad_packet_t) (ops : list (rad_op * bool)) : rad_packet_t :=
  foldl (fun p o => match run_op dict (snd o) p (fst o) with Some p' => p' | None => p end) pack ops.

(** The call is meant for an attribute of this type. *)
Definition op_typed (op : rad_op) (a : rad_dict_attr_t) : Prop :=
  match op with
  | AddInt _ _ _ | ChangeInt _ _ _ => rd_type a = TYPE_INTEGER \/ rd_type a = TYPE_DATE
  | AddIpaddr _ _ _ => rd_type a = TYPE_IPADDR
  | AddOctets _ _ v | AddStr _ _ v | ChangeOctets _ _ v | ChangeStr _ _ v =>
      (rd_type a = TYPE_OCTETS \/ rd_type a = TYPE_STRING) /\ bytes_ok v
  | AddVal _ _ n | ChangeVal _ _ n => rd_type a = TYPE_INTEGER /\
      forall v, rad_dict_find_val_name (rd_values a) n = Some v -> exists x, v = RInt x /\ 0 <= x < 2 ^ 32
  | AddIfid _ _ _ => rd_type a = TYPE_IFID
  | AddIpv6prefix _ _ p _ => rd_type a = TYPE_IPV6PREFIX /\ length p = 16%nat /\ bytes_ok p
  end.

Definition op_name (op : rad_op) : string :=
  match op with
  | AddInt _ n _ | AddOctets _ n _ | AddStr _ n _ | AddVal _ n _ | AddIpaddr _ n _ | AddIfid _ n _
  | AddIpv6prefix _ n _ _ | ChangeInt _ n _ | ChangeOctets _ n _ | ChangeStr _ n _ | ChangeVal _ n _ => n
  end.

(** Every attribute of that name, of any vendor, has the type of the call. *)
Definition op_ok (dict : rad_dict_t) (op : rad_op) : Prop :=
  forall a, in_dict dict a -> rd_name a = op_name op -> op_typed op a.

(** What a receiver with the same dictionary finds again. *)
Record readable (dict : rad_dict_t) (ra : rad_attr_t) : Prop := {
  rb_len : if isset (ra_vendor ra) then ra_len ra <= 247 else ra_len ra <= 253;
  rb_id : 0 <= rd_id (ra_attr ra) < 256 /\ (ra_vendor ra = None -> rd_id (ra_attr ra) <> 26);
  rb_find : rad_dict_find_attr_id dict (ra_vendor ra) (rd_id (ra_attr ra)) = Some (ra_attr ra);
  rb_vendor : forall i v, ra_vendor ra = Some i -> d_vendors dict !! i = Some v ->
              v_tag v = 1 /\ v_len v = 1 /\ 0 <= v_id v < 2 ^ 31 /\
              rad_dict_find_vendor_id dict (v_id v) = Some i;
  rb_array : rd_array (ra_attr ra) = false;
  rb_size : match rd_type (ra_attr ra) with
            | TYPE_INTEGER | TYPE_IPADDR | TYPE_IFID | TYPE_IPV6ADDR => rd_size (ra_attr ra) = ra_len ra
            | _ => True
            end;
  rb_prefix : forall p l, ra_val ra = RPrefix6 p l -> l <= 128
}.

(** Octets without bytes are a null pointer in the sender. *)
Definition received (ra : rad_attr_t) : rad_attr_t :=
  mk_ra (ra_attr ra) (ra_vendor ra) (ra_len ra)
    (match ra_val ra with RZero => RPtr [] | v => v end).

(** A dictionary with vendor formats that [rad_packet_recv] can read. *)
Record formats_ok (dict : rad_dict_t) : Prop := {
  fo_vendor : Forall (fun v => 0 <= v_tag v /\ 1 <= v_len v) (d_vendors dict);
  fo_size : forall vendor id a, rad_dict_find_attr_id dict vendor id = Some a -> rd_size a <= 24
}.

(** What the loop keeps: the [n] bytes from [ptr] on are in the buffer. *)
Definition inside (buf : list Z) (ptr : nat) (n : Z) : Prop := Z.of_nat ptr + n <= Z.of_nat (length buf).

(** ** Example data for the witnesses *)
Definition some_attr (name : string) (id : Z) (t : rad_type) (size : Z) : rad_dict_attr_t :=
  mk_rda name id t false size [].
Definition user_name : rad_dict_attr_t := some_attr "User-Name" 1 TYPE_STRING 0.
Definition nas_port : rad_dict_attr_t := some_attr "NAS-Port" 5 TYPE_INTEGER 4.
Definition framed_ip : rad_dict_attr_t := some_attr "Framed-IP-Address" 8 TYPE_IPADDR 4.
Definition ms_chap : rad_dict_attr_t := some_attr "MS-CHAP2-Response" 25 TYPE_OCTETS 0.
Definition some_rad_dict : rad_dict_t :=
  mk_dict [user_name; nas_port; framed_ip] [mk_vendor 311 1 1 "Microsoft" [ms_chap]].

Definition some_rad_ops : list (rad_op * bool) :=
  [(AddStr None "User-Name" [97; 98], true); (AddInt None "NAS-Port" 7, false);
   (AddOctets (Some "Microsoft"%string) "MS-CHAP2-Response" [1; 2; 3], true);
   (AddInt None "NAS-Port" 7, true); (AddIpaddr None "Framed-IP-Address" 167772161, true);
   (ChangeStr None "User-Name" [99], true)].

(** Stands in for HMAC-MD5: 16 bytes made of the key's length and the sum of the data. *)
Definition some_hmac (key data : list Z) : option (list Z) :=
  Some ((fun i => (i * Z.of_nat (length key) + foldr Z.add 0 data) mod 256) <$> seqZ 0 16).

Definition some_signed : rad_packet_t := mk_rpack true (Some [115; 51]) 1 9 40 [].

(** ** The length of a packet *)
Lemma attrs_size_cons a l : attrs_size (a :: l) = attr_size a + attrs_size l.
Proof. done. Qed.

Lemma attrs_size_app l k : attrs_size (l ++ k) = attrs_size l + attrs_size k.
Proof.
  induction l as [|a l IH]; [done|]. cbn [app]. rewrite !attrs_size_cons, IH. lia.
Qed.

Lemma attrs_size_insert l i x y :
  l !! i = Some x -> attrs_size (<[i := y]> l) = attrs_size l - attr_size x + attr_size y.
Proof.
  revert i. induction l as [|a l IH]; intros [|i] H; cbn in H; try done.
  - simplify_eq. cbn [insert list_insert]. rewrite !attrs_size_cons. lia.
  - change (<[S i := y]> (a :: l)) with (a :: <[i := y]> l). rewrite !attrs_size_cons, (IH i H). lia.
Qed.

Lemma overhead_named dict vn name vendor a :
  find_named dict vn name = Some (vendor, a) -> attr_overhead vendor = attr_overhead vn.
Proof.
  unfold find_named. destruct vn as [vn|].
  - destruct (rad_dict_find_vendor_name dict vn); [|done].
    destruct (rad_dict_find_vendor_attr dict n name); [|done]. now intros [= <- <-].
  - destruct (rad_dict_find_attr dict name); [|done]. now intros [= <- <-].
Qed.

Lemma add_len_ok mem dict pack vn name len val pack' :
  len_ok pack -> 0 <= len -> add_attr_val mem dict pack vn name len val = Some pack' -> len_ok pack'.
Proof.
  intros [L M A] Hl H. unfold add_attr_val in H. destruct (_ <=? _) eqn:E; [done|]. zbool.
  destruct (find_named dict vn name) as [[vendor a]|] eqn:F; [|done].
  destruct (val a) as [v|]; [|done]. destruct (negb mem); [done|]. simplify_eq.
  split; cbn.
  - rewrite attrs_size_app, L. cbn. unfold attr_size. cbn. rewrite (overhead_named _ _ _ _ _ F). lia.
  - done.
  - apply Forall_app. split; [done|]. now constructor.
Qed.

Lemma find_attr_from_spec vendor name attrs i j :
  find_attr_from vendor name attrs i = Some j ->
  exists k ra, j = (i + k)%nat /\ attrs !! k = Some ra /\ rd_name (ra_attr ra) = name.
Proof.
  revert i. induction attrs as [|ra attrs IH]; intros i H; cbn in H; [done|].
  assert (find_attr_from vendor name attrs (S i) = Some j ->
    exists k ra0, j = (i + k)%nat /\ (ra :: attrs) !! k = Some ra0 /\ rd_name (ra_attr ra0) = name) as Rec.
  { intros H'. destruct (IH (S i) H') as (k & r & -> & Hk & Hn). exists (S k), r. split; [lia|]. auto. }
  destruct (isset vendor && _); [auto|].
  destruct (negb (String.eqb (rd_name (ra_attr ra)) name)) eqn:E; [auto|]. simplify_eq.
  apply negb_false_iff, String.eqb_eq in E. exists 0%nat, ra. split; [lia|]. auto.
Qed.

Lemma find_attr_spec dict pack vn name i :
  rad_packet_find_attr dict pack vn name = Some i ->
  exists ra, rp_attrs pack !! i = Some ra /\ rd_name (ra_attr ra) = name.
Proof.
  unfold rad_packet_find_attr. intros H.
  assert (exists vendor, find_attr_from vendor name (rp_attrs pack) 0 = Some i) as [vendor F].
  { destruct vn; [destruct (rad_dict_find_vendor_name dict s); [eauto|done] | eauto]. }
  destruct (find_attr_from_spec _ _ _ _ _ F) as (k & ra & -> & ?). eauto.
Qed.

(** The shape of a successful change. *)
Lemma change_attr_spec dict pack vn name change pack' :
  change_attr dict pack vn name change = Some pack' ->
  exists i ra len v, rp_attrs pack !! i = Some ra /\ rd_name (ra_attr ra) = name /\
    change ra = Some (len, v) /\
    pack' = with_attrs pack (rp_len pack + (len - ra_len ra))
              (<[i := mk_ra (ra_attr ra) (ra_vendor ra) len v]> (rp_attrs pack)).
Proof.
  unfold change_attr. intros H. destruct (rad_packet_find_attr dict pack vn name) as [i|] eqn:F; [|done].
  apply find_attr_spec in F as (ra & Hi & Hn). rewrite Hi in H.
  destruct (change ra) as [[len v]|] eqn:C; [|done]. simplify_eq. eauto 10.
Qed.

Lemma change_len_ok dict pack vn name change pack' :
  len_ok pack ->
  (forall ra len v, 0 <= ra_len ra -> change ra = Some (len, v) ->
     0 <= len /\ (len = ra_len ra \/ rp_len pack - ra_len ra + len < REQ_LENGTH_MAX)) ->
  change_attr dict pack vn name change = Some pack' -> len_ok pack'.
Proof.
  intros [L M A] C H. apply change_attr_spec in H as (i & ra & len & v & Hi & _ & Hc & ->).
  pose proof A as A'. rewrite Forall_lookup in A'. specialize (A' i ra Hi).
  destruct (C ra len v A' Hc) as [H0 Hm].
  split; cbn.
  - rewrite (attrs_size_insert _ _ ra) by done. unfold attr_size. cbn. lia.
  - destruct Hm; subst; lia.
  - now apply Forall_insert.
Qed.

Lemma change_ptr_len pack val empty ra len v :
  change_ptr pack val empty ra = Some (len, v) ->
  len = Z.of_nat (length val) /\ (len = ra_len ra \/ rp_len pack - ra_len ra + len < REQ_LENGTH_MAX).
Proof.
  unfold change_ptr. destruct (ra_len ra =? _) eqn:E; zbool; [intros [= <- _]; auto|].
  destruct (_ <=? _) eqn:E2; [done|]. zbool. intros [= <- _]. auto.
Qed.

Lemma run_op_len dict mem pack op pack' :
  len_ok pack -> run_op dict mem pack op = Some pack' -> len_ok pack'.
Proof.
  intros L H. destruct op; cbn in H;
    try (eapply add_len_ok in H; [done | done | lia]).
  - eapply change_len_ok; [done | | exact H]. intros ra len v H0 [= <- _]. auto.
  - eapply change_len_ok; [done | | exact H]. intros ra len v H0 Hc%change_ptr_len. lia.
  - eapply change_len_ok; [done | | exact H]. intros ra len v H0 Hc%change_ptr_len. lia.
  - eapply change_len_ok; [done | | exact H]. intros ra len v H0. cbn.
    destruct (rad_dict_find_val_name _ _); [|done]. intros [= <- _]. auto.
Qed.

(** ** The types of the values *)
Lemma dict_find_attr_spec items name a :
  dict_find_attr items name = Some a -> a ∈ items /\ rd_name a = name.
Proof.
  induction items as [|x items IH]; cbn; [done|]. destruct (String.eqb (rd_name x) name) eqn:E.
  - intros [= <-]. split; [left | now apply String.eqb_eq].
  - intros H. destruct (IH H). split; [now right | done].
Qed.

Lemma find_vendor_spec P vs k i :
  find_vendor P vs k = Some i -> exists j v, i = (k + j)%nat /\ vs !! j = Some v /\ P v = true.
Proof.
  revert k. induction vs as [|v vs IH]; intros k H; cbn in H; [done|]. destruct (P v) eqn:E.
  - simplify_eq. exists 0%nat, v. split; [lia|]. auto.
  - destruct (IH (S k) H) as (j & w & -> & ?). exists (S j), w. split; [lia|]. auto.
Qed.

Lemma find_named_spec dict vn name vendor a :
  find_named dict vn name = Some (vendor, a) ->
  in_dict dict a /\ rd_name a = name /\ forall i, vendor = Some i -> exists v, d_vendors dict !! i = Some v.
Proof.
  unfold find_named. destruct vn as [vn|].
  - unfold rad_dict_find_vendor_name, rad_dict_find_vendor_attr. intros H.
    destruct (find_vendor _ _ 0) as [i|] eqn:F; [|done].
    apply find_vendor_spec in F as (j & v & -> & Hv & _). cbn in H. rewrite Hv in H.
    destruct (dict_find_attr (v_items v) name) as [x|] eqn:E; [|done]. simplify_eq.
    apply dict_find_attr_spec in E as [E1 E2]. split; [|split; [done|]].
    + right. exists v. split; [eapply list_elem_of_lookup_2; eauto | done].
    + intros i [= <-]. eauto.
  - unfold rad_dict_find_attr. intros H.
    destruct (dict_find_attr (d_items dict) name) as [x|] eqn:E; [|done]. simplify_eq.
    apply dict_find_attr_spec in E as [E1 E2]. split; [now left|]. split; done.
Qed.

Lemma add_ra_ok mem dict pack vn name len val pack' :
  Forall (ra_ok dict) (rp_attrs pack) ->
  (forall a v, in_dict dict a -> rd_name a = name -> val a = Some v -> value_ok (rd_type a) len v) ->
  add_attr_val mem dict pack vn name len val = Some pack' -> Forall (ra_ok dict) (rp_attrs pack').
Proof.
  intros A V H. unfold add_attr_val in H. destruct (_ <=? _); [done|].
  destruct (find_named dict vn name) as [[vendor a]|] eqn:F; [|done].
  destruct (find_named_spec _ _ _ _ _ F) as (Hin & Hn & Hv).
  destruct (val a) as [v|] eqn:E; [|done]. destruct (negb mem); [done|]. simplify_eq. cbn.
  apply Forall_app. split; [done|]. constructor; [|constructor]. split; cbn; auto.
Qed.

Lemma change_ra_ok dict pack vn name change pack' :
  Forall (ra_ok dict) (rp_attrs pack) ->
  (forall ra len v, ra_ok dict ra -> rd_name (ra_attr ra) = name -> change ra = Some (len, v) ->
     value_ok (rd_type (ra_attr ra)) len v) ->
  change_attr dict pack vn name change = Some pack' -> Forall (ra_ok dict) (rp_attrs pack').
Proof.
  intros A V H. apply change_attr_spec in H as (i & ra & len & v & Hi & Hn & Hc & ->). cbn.
  pose proof A as A'. rewrite Forall_lookup in A'. specialize (A' i ra Hi).
  apply Forall_insert; [done|]. split; cbn; [eauto | apply A' | apply A'].
Qed.

Lemma change_ptr_ok dict pack val empty ra len v :
  (rd_type (ra_attr ra) = TYPE_OCTETS \/ rd_type (ra_attr ra) = TYPE_STRING) -> bytes_ok val ->
  (empty = RZero \/ empty = RPtr []) -> ra_ok dict ra ->
  change_ptr pack val empty ra = Some (len, v) -> value_ok (rd_type (ra_attr ra)) len v.
Proof.
  intros T B Em [V _ _] H. unfold change_ptr in H.
  destruct (ra_len ra =? _) eqn:E; zbool.
  - simplify_eq. case_decide as Ev; [subst; now rewrite E in V|]. destruct T as [-> | ->]; cbn; auto.
  - destruct (_ <=? _); [done|]. simplify_eq.
    case_decide as Ev; [subst; cbn|]; destruct Em as [-> | ->], T as [-> | ->]; cbn; auto using Forall_nil_2.
Qed.

Lemma run_op_ok dict mem pack op pack' :
  op_ok dict op -> Forall (ra_ok dict) (rp_attrs pack) -> run_op dict mem pack op = Some pack' ->
  Forall (ra_ok dict) (rp_attrs pack').
Proof.
  intros O A H. destruct op; cbn [run_op] in H;
    unfold rad_packet_add_int, rad_packet_add_octets, rad_packet_add_str, rad_packet_add_val,
      rad_packet_add_ipaddr, rad_packet_add_int, rad_packet_add_ifid, rad_packet_add_ipv6prefix,
      rad_packet_change_int, rad_packet_change_octets, rad_packet_change_str, rad_packet_change_val in H;
    (eapply add_ra_ok in H || eapply change_ra_ok in H); try exact H; try done;
    intros a; intros *; intros Hin Hn Hv; 
    first [pose proof (O a Hin Hn) as T | pose proof (O (ra_attr a) (ra_in_dict _ _ Hin) Hn) as T]; cbn in T.
  - simplify_eq. pose proof (u32_range val). destruct T as [-> | ->]; cbn; lia.
  - simplify_eq. destruct T as [[-> | ->] B]; case_decide; subst; cbn; auto.
  - simplify_eq. destruct T as [[-> | ->] B]; cbn; auto.
  - destruct T as [-> T]. destruct (T _ Hv) as (x & -> & Hx). cbn. auto.
  - simplify_eq. pose proof (u32_range val). rewrite T. cbn. lia.
  - simplify_eq. rewrite T. cbn. split; [done|]. apply Z.mod_pos_bound. lia.
  - simplify_eq. destruct T as (-> & L & B). cbn. pose proof (u8_range len). auto.
  - simplify_eq. destruct Hin as [V _ _]. pose proof (u32_range val).
    destruct T as [E | E]; rewrite E in *; destruct (ra_val a); cbn in *; try done; lia.
  - destruct T as [T B]. apply (change_ptr_ok dict pack val RZero a len v); auto.
  - destruct T as [T B]. apply (change_ptr_ok dict pack val (RPtr []) a len v); auto.
  - destruct T as [E T]. destruct (rad_dict_find_val_name _ _) as [w|] eqn:Ew; [|done]. simplify_eq.
    destruct (T _ eq_refl) as (x & -> & Hx). destruct Hin as [V _ _]. rewrite E in *.
    destruct (ra_val a); cbn in *; try done; lia.
Qed.

(** ** The bytes of a packet *)
Lemma splice_adjacent (off : nat) (s1 s2 buf : list Z) (off2 : nat) :
  off2 = (off + length s1)%nat -> (off + length s1 + length s2 <= length buf)%nat ->
  (b ← splice off s1 buf; splice off2 s2 b) = splice off (s1 ++ s2) buf.
Proof.
  intros -> H. unfold splice. rewrite (decide_True (P := (off + length s1 <= length buf)%nat)) by lia.
  cbn [mbind res_bind]. repeat case_decide; rewrite ?length_app, ?length_take, ?length_drop in *; try lia.
  f_equal. rewrite take_app_ge, drop_app_ge by (rewrite length_take; lia).
  rewrite length_take, Nat.min_l by lia.
  replace (off + length s1 - off)%nat with (length s1) by lia.
  replace (off + length s1 + length s2 - off)%nat with (length s1 + length s2)%nat by lia.
  now rewrite take_app_length, drop_app_add, drop_drop, <- !app_assoc, Nat.add_assoc.
Qed.

Lemma splice_nil off (buf : list Z) : (off <= length buf)%nat -> splice off [] buf = Ok buf.
Proof.
  intros H. unfold splice. rewrite decide_True by (cbn; lia). cbn. now rewrite Nat.add_0_r, take_drop.
Qed.

Lemma value_bytes_length type len v :
  value_ok type len v -> length (value_bytes type v) = Z.to_nat len /\ 0 <= len.
Proof.
  destruct type, v; cbn [value_ok value_bytes]; try done; intros H;
    rewrite ?length_reverse, ?length_be_encode; cbn; try lia.
  all: destruct H as [-> H]; lia.
Qed.

Lemma build_value_spec dict ra buf off :
  ra_ok dict ra -> (off <= length buf)%nat ->
  build_value dict buf off ra = splice off (value_bytes (rd_type (ra_attr ra)) (ra_val ra)) buf.
Proof.
  intros [V _ _] Hoff. unfold build_value.
  destruct (rd_type (ra_attr ra)), (ra_val ra); cbn [value_ok] in V; try done; cbn [value_bytes].
  all: try (unfold u_write_be32; now rewrite u32_small by lia).
  all: try (rewrite V; cbn; now rewrite splice_nil).
  all: try (destruct V as [-> _]; rewrite Nat2Z.id, slice_whole; done).
  all: destruct V as [-> V]; cbn [value_mem Z.to_nat Pos.to_nat Pos.iter_op Nat.add].
  - assert (be_encode 8 v = take 4 (be_encode 8 v) ++ be_encode 4 v) as -> by reflexivity.
    rewrite reverse_app, <- app_assoc.
    rewrite (slice_app_l' _ _ 4) by (now rewrite length_reverse, length_be_encode). done.
  - rewrite (slice_app_l' _ _ 8) by (now rewrite length_reverse, length_be_encode). done.
  - destruct V as [L _]. rewrite <- (app_nil_r b), (slice_app_l' _ _ 16), app_nil_r by done. done.
Qed.

Lemma ra_wire_length dict ra :
  ra_ok dict ra -> Z.of_nat (length (ra_wire dict ra)) = attr_size ra.
Proof.
  intros [V W _]. destruct (value_bytes_length _ _ _ V) as [L H0].
  unfold ra_wire, vendor_hdr, attr_size, attr_overhead. rewrite !length_app, L.
  destruct (ra_vendor ra) as [i|]; cbn; [|lia]. destruct (W i eq_refl) as [v ->].
  cbn [length app]. rewrite ?length_be_encode. cbn. lia.
Qed.

Lemma build_attr_spec dict ra buf off :
  ra_ok dict ra -> (off + length (ra_wire dict ra) <= length buf)%nat ->
  build_attr dict buf off ra
  = b ← splice off (ra_wire dict ra) buf; mret (b, (off + length (ra_wire dict ra))%nat).
Proof.
  intros R Hfit. pose proof (ra_wire_length dict ra R) as Hlen. destruct R as [V W D].
  destruct (value_bytes_length _ _ _ V) as [Lv H0]. unfold attr_size, attr_overhead in Hlen.
  set (vb := value_bytes (rd_type (ra_attr ra)) (ra_val ra)) in *.
  set (h := [u8 (rd_id (ra_attr ra)); u8 (ra_len ra + 2)]).
  assert (forall vh b1 off1, splice off vh buf = Ok b1 -> off1 = (off + length vh)%nat ->
    ra_wire dict ra = vh ++ h ++ vb ->
    (buf0 ← splice off1 h b1; buf1 ← build_value dict buf0 (off1 + 2) ra;
     mret (buf1, (off1 + 2 + Z.to_nat (ra_len ra))%nat))
    = b ← splice off (ra_wire dict ra) buf; mret (b, (off + length (ra_wire dict ra))%nat)) as Tail.
  { intros vh b1 off1 E1 -> Ew. rewrite Ew, !length_app in Hfit. cbn [h length] in Hfit.
    pose proof (splice_adjacent off vh h buf _ eq_refl ltac:(cbn; lia)) as A1.
    rewrite E1 in A1. cbn [mbind res_bind] in A1.
    destruct (splice (off + length vh) h b1) as [b2| |] eqn:E2.
    2-3: unfold splice in A1; rewrite decide_True in A1 by (rewrite length_app; cbn; lia); done.
    cbn [mbind res_bind]. symmetry in A1. pose proof (splice_length _ _ _ _ A1) as L2.
    rewrite (build_value_spec dict) by (try (now split); lia). fold vb.
    pose proof (splice_adjacent off (vh ++ h) vb buf (off + length vh + 2)
                  ltac:(rewrite length_app; cbn; lia) ltac:(rewrite length_app; cbn; lia)) as A2.
    rewrite A1 in A2. cbn [mbind res_bind] in A2. rewrite A2, Ew, <- app_assoc.
    assert (off + length vh + 2 + Z.to_nat (ra_len ra) = off + length (vh ++ h ++ vb))%nat as ->
      by (rewrite !length_app, Lv; cbn; lia). done. }
  unfold build_attr, ra_wire, vendor_hdr in Hfit, Hlen, Tail |- *. fold h vb in Hfit, Hlen, Tail |- *.
  destruct (ra_vendor ra) as [i|].
  - destruct (W i eq_refl) as [v Hv]. rewrite Hv in *.
    cbn [isset] in Hlen. 
    pose proof (splice_adjacent off [26; u8 (ra_len ra + 2 + 6)] (be_encode 4 (u32 (v_id v))) buf (off + 2)
                  ltac:(cbn; lia) ltac:(rewrite length_be_encode; cbn; lia)) as A.
    destruct (splice off [26; u8 (ra_len ra + 2 + 6)] buf) as [b0| |] eqn:E0; cbn [mbind res_bind] in *.
    2-3: unfold splice in A; rewrite decide_True in A by (rewrite length_app, length_be_encode; cbn; lia); done.
    unfold u_write_be32. rewrite A.
    destruct (splice off ([26; u8 (ra_len ra + 2 + 6)] ++ be_encode 4 (u32 (v_id v))) buf) as [b1| |] eqn:E1.
    2-3: unfold splice in E1; rewrite decide_True in E1 by (rewrite length_app, length_be_encode; cbn; lia); done.
    cbn [mbind res_bind mret res_ret fst snd].
    apply (Tail _ b1 (off + 6)%nat E1); [rewrite length_app, length_be_encode; done | now rewrite <- app_assoc].
  - cbn [mbind res_bind mret res_ret fst snd app].
    apply (Tail [] buf off); [apply splice_nil; lia | cbn; lia | done].
Qed.

Lemma wires_size dict attrs :
  Forall (ra_ok dict) attrs -> Z.of_nat (length (wires dict attrs)) = attrs_size attrs.
Proof.
  unfold wires. induction 1 as [|ra attrs R _ IH]; [done|]. cbn [fmap list_fmap concat].
  rewrite length_app, attrs_size_cons, <- IH, <- (ra_wire_length dict ra R). lia.
Qed.

Lemma build_attrs_spec dict attrs buf off :
  Forall (ra_ok dict) attrs -> (off + length (wires dict attrs) <= length buf)%nat ->
  build_attrs dict buf off attrs
  = b ← splice off (wires dict attrs) buf; mret (b, (off + length (wires dict attrs))%nat).
Proof.
  intros F. unfold wires. revert buf off. induction F as [|ra attrs R _ IH]; intros buf off H.
  - cbn in *. rewrite splice_nil by lia. cbn. now rewrite Nat.add_0_r.
  - cbn [build_attrs fmap list_fmap concat] in *. rewrite length_app in H.
    rewrite (build_attr_spec dict) by (done || lia).
    pose proof (splice_adjacent off (ra_wire dict ra) (concat (ra_wire dict <$> attrs)) buf _ eq_refl ltac:(lia)) as A.
    destruct (splice off (ra_wire dict ra) buf) as [b1| |] eqn:E1; cbn [mbind res_bind mret res_ret fst snd] in *.
    2-3: unfold splice in E1; rewrite decide_True in E1 by lia; done.
    rewrite IH by (rewrite (splice_length _ _ _ _ E1); lia). rewrite A, length_app, Nat.add_assoc. done.
Qed.

Lemma packet_bytes_length dict pack RA :
  len_ok pack -> Forall (ra_ok dict) (rp_attrs pack) -> (16 <= length RA)%nat ->
  Z.of_nat (length (packet_bytes dict pack RA)) = rp_len pack.
Proof.
  intros [L M _] F HRA. unfold packet_bytes.
  rewrite !length_app, length_be_encode, length_take, Nat.min_l by done. cbn [length].
  pose proof (wires_size dict _ F). lia.
Qed.

Lemma attrs_size_nonneg attrs : Forall (fun ra => 0 <= ra_len ra) attrs -> 0 <= attrs_size attrs.
Proof.
  induction 1; [done|]. rewrite attrs_size_cons. unfold attr_size, attr_overhead.
  destruct (isset _); lia.
Qed.

Lemma build_spec dict buf pack RA :
  len_ok pack -> Forall (ra_ok dict) (rp_attrs pack) -> (16 <= length RA)%nat ->
  Z.of_nat (length buf) = REQ_LENGTH_MAX ->
  rad_packet_build true dict buf pack RA = splice 0 (packet_bytes dict pack RA) buf.
Proof.
  intros L F HRA Hb. pose proof (packet_bytes_length dict pack RA L F HRA) as Hlen.
  destruct L as [L M A]. unfold rad_packet_build, packet_bytes in *. cbn [negb].
  pose proof (attrs_size_nonneg _ A).
  rewrite !length_app, length_be_encode, length_take, Nat.min_l in Hlen by done. cbn [length] in Hlen.
  unfold u_write_be16, REQ_LENGTH_MAX in *. rewrite (u16_small (rp_len pack)) by lia.
  set (h0 := [_; _]). set (h1 := be_encode 2 _). set (h2 := take 16 RA).
  assert (length h2 = 16%nat) as L2 by (subst h2; rewrite length_take; lia).
  assert (length h1 = 2%nat) as L1 by apply length_be_encode.
  assert (forall src, (length src <= 4095)%nat -> exists b, splice 0 src buf = Ok b /\ length b = length buf) as W.
  { intros src Hs. destruct (splice_lookup 0 src buf ltac:(lia)) as (b & -> & Lb & _). eauto. }
  pose proof (splice_adjacent 0 h0 h1 buf 2 eq_refl ltac:(cbn; lia)) as A1.
  destruct (W h0 ltac:(cbn; lia)) as (b0 & E0 & Lb0). rewrite E0 in A1 |- *. cbn [mbind res_bind] in A1 |- *.
  destruct (W (h0 ++ h1) ltac:(rewrite length_app; cbn; lia)) as (b1 & E1 & Lb1).
  rewrite A1, E1. cbn [mbind res_bind]. rewrite slice_ok by lia. cbn [mbind res_bind]. rewrite drop_0. fold h2.
  pose proof (splice_adjacent 0 (h0 ++ h1) h2 buf 4 ltac:(rewrite length_app; cbn; lia)
                ltac:(rewrite length_app; cbn; lia)) as A2.
  rewrite E1 in A2. cbn [mbind res_bind] in A2. rewrite A2.
  destruct (W ((h0 ++ h1) ++ h2) ltac:(rewrite !length_app; cbn; lia)) as (b2 & E2 & Lb2).
  rewrite E2. cbn [mbind res_bind]. rewrite build_attrs_spec by (done || lia).
  pose proof (splice_adjacent 0 ((h0 ++ h1) ++ h2) (wires dict (rp_attrs pack)) buf 20
                ltac:(rewrite !length_app; cbn; lia) ltac:(rewrite !length_app; cbn; lia)) as A3.
  rewrite E2 in A3. cbn [mbind res_bind] in A3. rewrite A3, <- !app_assoc.
  clear. match goal with |- _ = ?x => destruct x; reflexivity end.
Qed.

(** ** What a receiver reads *)
Lemma get_app (pre : list Z) x post : get (pre ++ x :: post) (length pre) = Ok x.
Proof. unfold get. now rewrite list_lookup_middle. Qed.

Lemma read_be32_app pre v post :
  0 <= v < 2 ^ 32 -> u_read_be32 (pre ++ be_encode 4 v ++ post) (length pre) = Ok v.
Proof.
  intros Hv. unfold u_read_be32. rewrite <- (Nat.add_0_r (length pre)), slice_app_r.
  rewrite (slice_app_l' _ _ 4) by (now rewrite length_be_encode). cbn [mbind res_bind].
  rewrite be_decode_encode, Z.mod_small by (cbn; lia). done.
Qed.

Lemma slice_at (pre l post : list Z) n :
  n = length l -> slice (length pre) n (pre ++ l ++ post) = Ok l.
Proof. intros ->. rewrite <- (Nat.add_0_r (length pre)), slice_app_r. apply slice_app_l. Qed.

Lemma recv_value_spec dict ra pre post :
  ra_ok dict ra -> readable dict ra ->
  recv_value (ra_attr ra) (pre ++ value_bytes (rd_type (ra_attr ra)) (ra_val ra) ++ post) (length pre)
    (ra_len ra) = Ok (ra_val (received ra)).
Proof.
  intros [V _ _] [_ _ _ _ Ha Hs Hp]. unfold recv_value. rewrite Ha. cbn [received ra_val].
  destruct (rd_type (ra_attr ra)), (ra_val ra) as [|x|o|b|p l]; cbn [value_ok] in V; try done; cbn [value_bytes].
  - destruct V as [E Hx]. rewrite Hs, E. cbn [Z.eqb Pos.eqb negb]. now rewrite read_be32_app.
  - rewrite V. cbn [Z.to_nat]. now rewrite (slice_at pre []).
  - destruct V as [-> _]. rewrite Nat2Z.id. now rewrite (slice_at pre o).
  - rewrite V. cbn [Z.to_nat]. now rewrite (slice_at pre []).
  - destruct V as [-> _]. rewrite Nat2Z.id. now rewrite (slice_at pre o).
  - destruct V as [-> Hx]. cbn [Z.eqb Pos.eqb]. now rewrite read_be32_app.
  - destruct V as [E Hx]. rewrite Hs, E. cbn [Z.eqb Pos.eqb negb Z.ltb Z.compare Pos.compare Pos.compare_cont].
    rewrite (slice_at pre (reverse (be_encode 4 x))) by (now rewrite length_reverse, length_be_encode).
    cbn [mbind res_bind]. rewrite reverse_involutive, be_decode_encode, Z.mod_small by (cbn; lia). done.
  - destruct V as [E Hx]. rewrite Hs, E. cbn [Z.eqb Pos.eqb negb Z.ltb Z.compare Pos.compare Pos.compare_cont].
    rewrite (slice_at pre (reverse (be_encode 8 x))) by (now rewrite length_reverse, length_be_encode).
    cbn [mbind res_bind]. rewrite reverse_involutive, be_decode_encode, Z.mod_small by (cbn; lia). done.
  - destruct V as (E & L & _). rewrite Hs, E. cbn [Z.eqb Pos.eqb negb Z.ltb Z.compare Pos.compare Pos.compare_cont].
    now rewrite (slice_at pre b).
  - destruct V as (-> & L & _ & Hl). cbn [Z.ltb Z.compare Pos.compare Pos.compare_cont orb].
    replace (length pre + 1)%nat with (length (pre ++ [0])) by (rewrite length_app; cbn; lia).
    replace (pre ++ ([0; l] ++ p) ++ post) with ((pre ++ [0]) ++ l :: p ++ post) by (now rewrite <- !app_assoc).
    rewrite get_app. cbn [mbind res_bind]. specialize (Hp p l eq_refl).
    destruct (128 <? l) eqn:E; zbool; [lia|].
    replace ((pre ++ [0]) ++ l :: p ++ post) with ((pre ++ [0; l]) ++ p ++ post) by (now rewrite <- !app_assoc).
    replace (length pre + 2)%nat with (length (pre ++ [0; l])) by (rewrite length_app; cbn; lia).
    rewrite (slice_at _ p) by done. cbn [mbind res_bind]. rewrite L. cbn. now rewrite app_nil_r.
Qed.

Lemma get_at (buf pre : list Z) x post k :
  buf = pre ++ x :: post -> k = length pre -> get buf k = Ok x.
Proof. intros -> ->. apply get_app. Qed.

(** The vendor header is read back. *)
Lemma recv_vsa_spec dict ra i v pre post n :
  ra_ok dict ra -> readable dict ra -> ra_vendor ra = Some i -> d_vendors dict !! i = Some v ->
  attr_size ra <= n ->
  recv_vsa dict (pre ++ be_encode 4 (v_id v) ++ [rd_id (ra_attr ra); ra_len ra + 2] ++ post)
    (length pre) (ra_len ra + 6) n
  = Ok (Some i, rd_id (ra_attr ra), ra_len ra, (length pre + 6)%nat, n - 6).
Proof.
  intros [V _ _] [Hl _ _ Hv _ _ _] Ei Ev Hn. destruct (Hv i v Ei Ev) as (Et & El & Hid & Hf).
  destruct (value_bytes_length _ _ _ V) as [_ H0].
  unfold attr_size, attr_overhead in Hn. rewrite Ei in *. cbn [isset] in *.
  unfold recv_vsa. rewrite (proj2 (Z.ltb_ge _ _)) by lia. rewrite read_be32_app by lia. cbn [mbind res_bind].
  assert (s32 (v_id v) = v_id v) as ->
    by (unfold s32; rewrite Z.mod_small by lia; lia).
  rewrite Hf, Ev, Et, El. rewrite (proj2 (Z.ltb_ge _ _)) by lia. cbn [Z.eqb Pos.eqb].
  rewrite (get_at _ (pre ++ be_encode 4 (v_id v)) (rd_id (ra_attr ra)) ((ra_len ra + 2) :: post)
    (length pre + 4)); [|now rewrite <- app_assoc | now rewrite length_app, length_be_encode].
  cbn [mbind res_bind]. change (Z.to_nat 1) with 1%nat.
  rewrite (get_at _ (pre ++ be_encode 4 (v_id v) ++ [rd_id (ra_attr ra)]) (ra_len ra + 2) post
    (length pre + 4 + 1)); [|now rewrite <- !app_assoc | rewrite !length_app, length_be_encode; cbn; lia].
  cbn [mbind res_bind]. replace (ra_len ra + 2 - (1 + 1)) with (ra_len ra) by lia.
  rewrite !(proj2 (Z.ltb_ge _ _)) by lia.
  replace (length pre + 4 + 1 + 1)%nat with (length pre + 6)%nat by lia.
  replace (n - (4 + 1 + 1)) with (n - 6) by lia. done.
Qed.

Lemma recv_attr_wire dict ra pre post n :
  ra_ok dict ra -> readable dict ra -> attr_size ra <= n ->
  recv_attr true dict (pre ++ ra_wire dict ra ++ post) (length pre) n
  = Ok (Some (received ra), (length pre + Z.to_nat (attr_size ra))%nat, n - attr_size ra).
Proof.
  intros R B Hn. pose proof R as [V W _]. pose proof B as [Hl [Hid H26] Hf Hv _ _ _].
  destruct (value_bytes_length _ _ _ V) as [Lv H0].
  unfold recv_attr, ra_wire, vendor_hdr.
  set (vb := value_bytes (rd_type (ra_attr ra)) (ra_val ra)) in *.
  pose proof Hn as Hn'. unfold attr_size, attr_overhead in Hn' |- *.
  destruct (ra_vendor ra) as [i|] eqn:Ei; cbn [isset] in *.
  - destruct (W i eq_refl) as [v Ev]. rewrite Ev. destruct (Hv i v eq_refl Ev) as (_ & _ & Hvid & _).
    rewrite (u32_small (v_id v)), !u8_small by lia.
    destruct (n <? 2) eqn:E; zbool; [lia|].
    rewrite (get_at _ pre 26 ((ra_len ra + 2 + 6) :: be_encode 4 (v_id v) ++
               [rd_id (ra_attr ra); ra_len ra + 2] ++ vb ++ post) (length pre)); [|now rewrite <- !app_assoc | done].
    rewrite (get_at _ (pre ++ [26]) (ra_len ra + 2 + 6) (be_encode 4 (v_id v) ++
               [rd_id (ra_attr ra); ra_len ra + 2] ++ vb ++ post) (length pre + 1));
      [|now rewrite <- !app_assoc | rewrite length_app; cbn; lia].
    cbn [mbind res_bind]. rewrite !(proj2 (Z.ltb_ge _ _)) by lia. cbn [Z.eqb Pos.eqb].
    replace (ra_len ra + 2 + 6 - 2) with (ra_len ra + 6) by lia.
    replace (length pre + 2)%nat with (length (pre ++ [26; ra_len ra + 2 + 6])) by (rewrite length_app; cbn; lia).
    replace (pre ++ ((([26; ra_len ra + 2 + 6] ++ be_encode 4 (v_id v)) ++
               [rd_id (ra_attr ra); ra_len ra + 2] ++ vb) ++ post))
      with ((pre ++ [26; ra_len ra + 2 + 6]) ++ be_encode 4 (v_id v) ++
               [rd_id (ra_attr ra); ra_len ra + 2] ++ (vb ++ post)) by (now rewrite <- !app_assoc).
    rewrite (recv_vsa_spec dict ra i v) by (auto; congruence || done). cbn [mbind res_bind].
    rewrite Hf. cbn [negb].
    match goal with |- context [recv_value _ ?b ?k _] =>
      replace b with ((pre ++ [26; ra_len ra + 2 + 6] ++ be_encode 4 (v_id v) ++
                        [rd_id (ra_attr ra); ra_len ra + 2]) ++ vb ++ post) by (now rewrite <- !app_assoc);
      replace k with (length (pre ++ [26; ra_len ra + 2 + 6] ++ be_encode 4 (v_id v) ++
                        [rd_id (ra_attr ra); ra_len ra + 2])) by
        (rewrite !length_app, length_be_encode; cbn; lia) end.
    rewrite (recv_value_spec dict ra _ _ R B). cbn [mbind res_bind mret res_ret].
    unfold received. rewrite Ei.
    replace (n - 6 - (2 + ra_len ra)) with (n - (8 + ra_len ra)) by lia.
    match goal with |- _ (_, ?k, _) = Ok (_, ?k', _) =>
      replace k with k' by (rewrite !length_app, length_be_encode; cbn [length]; lia) end. done.
  - rewrite !u8_small by lia. cbn [app].
    destruct (n <? 2) eqn:E; zbool; [lia|].
    rewrite (get_at _ pre (rd_id (ra_attr ra)) ((ra_len ra + 2) :: vb ++ post) (length pre)) by done.
    rewrite (get_at _ (pre ++ [rd_id (ra_attr ra)]) (ra_len ra + 2) (vb ++ post) (length pre + 1));
      [|now rewrite <- !app_assoc | rewrite length_app; cbn; lia].
    cbn [mbind res_bind]. replace (ra_len ra + 2 - 2) with (ra_len ra) by lia.
    rewrite !(proj2 (Z.ltb_ge _ _)) by lia.
    rewrite (proj2 (Z.eqb_neq _ _)) by (now apply H26). cbn [mbind res_bind mret res_ret]. rewrite Hf. cbn [negb].
    match goal with |- context [recv_value _ ?b ?k _] =>
      replace b with ((pre ++ [rd_id (ra_attr ra); ra_len ra + 2]) ++ vb ++ post) by (now rewrite <- !app_assoc);
      replace k with (length (pre ++ [rd_id (ra_attr ra); ra_len ra + 2])) by (rewrite length_app; cbn; lia) end.
    rewrite (recv_value_spec dict ra _ _ R B). cbn [mbind res_bind mret res_ret].
    unfold received. rewrite Ei.
    match goal with |- _ (_, ?k, _) = Ok (_, ?k', _) =>
      replace k with k' by (rewrite !length_app; cbn [length]; lia) end. done.
Qed.

Lemma recv_attrs_wire dict attrs fuel pre :
  Forall (ra_ok dict) attrs -> Forall (readable dict) attrs -> (length attrs <= fuel)%nat ->
  recv_attrs fuel true dict (pre ++ wires dict attrs) (length pre) (attrs_size attrs) = Ok (received <$> attrs).
Proof.
  intros R. revert fuel pre. induction R as [|ra attrs Ra R IH]; intros fuel pre B Hf.
  - destruct fuel; reflexivity.
  - apply Forall_cons in B as [Ba B]. cbn [length] in Hf. destruct fuel as [|fuel]; [lia|].
    pose proof (ra_wire_length dict ra Ra) as L. pose proof (wires_size dict attrs R) as Ls.
    unfold wires in *. cbn [recv_attrs fmap list_fmap concat]. rewrite attrs_size_cons.
    assert (2 <= attr_size ra).
    { destruct Ra as [V _ _]. destruct (value_bytes_length _ _ _ V). unfold attr_size, attr_overhead.
      destruct (isset _); lia. }
    destruct (_ <=? 0) eqn:E; zbool; [lia|].
    rewrite (recv_attr_wire dict ra) by (done || lia). cbn [mbind res_bind].
    replace (length pre + Z.to_nat (attr_size ra))%nat with (length (pre ++ ra_wire dict ra))
      by (rewrite length_app; lia).
    replace (attr_size ra + attrs_size attrs - attr_size ra) with (attrs_size attrs) by lia.
    rewrite app_assoc, IH by (done || lia). done.
Qed.

(** ** Memory safety of the receiver *)
Lemma get_safe buf k :
  bytes_ok buf -> (k < length buf)%nat -> safe (fun x => 0 <= x < 256) (get buf k).
Proof.
  intros B H. unfold get. destruct (lookup_lt_is_Some_2 buf k H) as [x E]. rewrite E. cbn.
  unfold bytes_ok in B. rewrite Forall_lookup in B. apply (B _ _ E).
Qed.

Lemma read_be32_safe buf k :
  (k + 4 <= length buf)%nat -> safe (fun _ => True) (u_read_be32 buf k).
Proof. intros H. unfold u_read_be32. now rewrite slice_ok. Qed.

Lemma safe_any {A B} (m : res A) (f : A -> B) : safe (fun _ => True) m -> safe (fun _ => True) (x ← m; mret (f x)).
Proof. now destruct m. Qed.

Lemma recv_value_safe da buf ptr len :
  bytes_ok buf -> rd_size da <= 24 -> 0 <= len -> Z.of_nat ptr + len <= Z.of_nat (length buf) ->
  safe (fun _ => True) (recv_value da buf ptr len).
Proof.
  intros B Hs H0 Hl. unfold recv_value. destruct (rd_array da); [done|].
  assert (safe (fun _ => True) (slice ptr (Z.to_nat len) buf)) by (apply slice_safe; [lia | done]).
  destruct (rd_type da) eqn:T; try (now apply safe_any).
  - destruct (len =? rd_size da); [|done]. cbn [negb].
    destruct (len =? 4) eqn:E4; zbool; [apply safe_any, read_be32_safe; lia|].
    destruct (len =? 2) eqn:E2; zbool.
    { apply safe_any. eapply safe_weaken; [apply read_be16_safe; [done | lia] | done]. }
    destruct (len =? 1) eqn:E1; zbool; [|done].
    apply safe_any. eapply safe_weaken; [apply get_safe; [done | lia] | done].
  - destruct (len =? 4) eqn:E4; zbool; [apply safe_any, read_be32_safe; lia | done].
  - destruct (len =? rd_size da) eqn:E; zbool; [|done]. cbn [negb].
    destruct (24 <? len) eqn:E2; zbool; [lia|]. now apply safe_any.
  - destruct (len =? rd_size da) eqn:E; zbool; [|done]. cbn [negb].
    destruct (24 <? len) eqn:E2; zbool; [lia|]. now apply safe_any.
  - destruct (len =? rd_size da) eqn:E; zbool; [|done]. cbn [negb].
    destruct (24 <? len) eqn:E2; zbool; [lia|]. now apply safe_any.
  - destruct ((len <? 2) || (18 <? len)) eqn:E; zbool; [done|].
    eapply safe_bind; [apply get_safe; [done | lia]|]. intros plen _.
    destruct (128 <? plen); [done|]. apply safe_any, slice_safe; [lia | done].
Qed.

Lemma recv_vsa_safe dict buf ptr len n :
  formats_ok dict -> bytes_ok buf -> 0 <= len -> 2 + len <= n -> inside buf ptr (n - 2) ->
  safe (fun x => let '(_, _, len', ptr', n') := x in
    0 <= len' /\ 2 + len' <= n' /\ n' <= n /\ inside buf ptr' (n' - 2)) (recv_vsa dict buf ptr len n).
Proof.
  intros [Fv _] B H0 Hn I. unfold recv_vsa, inside in *. destruct (len <? 4) eqn:E4; zbool; [done|].
  eapply safe_bind; [apply read_be32_safe; lia|]. intros vid _.
  destruct (rad_dict_find_vendor_id dict (s32 vid)) as [i|] eqn:F; [|cbn; lia].
  apply find_vendor_spec in F as (j & v & -> & Hj & _). cbn [Nat.add]. rewrite Hj.
  rewrite Forall_lookup in Fv. destruct (Fv j v Hj) as [Ht Hl].
  destruct (len <? _) eqn:E; zbool; [done|].
  apply (safe_bind _ (fun _ => True)).
  { destruct (v_tag v =? 2) eqn:E2; zbool; (eapply safe_weaken;
      [first [apply read_be16_safe; [done | lia] | apply get_safe; [done | lia]] | done]). }
  intros id _. apply (safe_bind _ (fun _ => True)).
  { destruct (v_len v =? 2) eqn:E2; zbool; (eapply safe_weaken;
      [first [apply read_be16_safe; [done | lia] | apply get_safe; [done | lia]] | done]). }
  intros len' _. destruct (_ <? 0) eqn:E5; zbool; [done|]. destruct (_ <? _) eqn:E6; zbool; [done|].
  cbn. lia.
Qed.

Lemma recv_attr_safe mem dict buf ptr n :
  formats_ok dict -> bytes_ok buf -> 0 < n -> inside buf ptr n ->
  safe (fun x => let '(_, ptr', n') := x in n' <= n - 2 /\ inside buf ptr' n') (recv_attr mem dict buf ptr n).
Proof.
  intros Fo B Hn I. unfold recv_attr, inside in *. destruct (n <? 2) eqn:E; zbool; [done|].
  eapply safe_bind; [apply get_safe; [done | lia]|]. intros id _.
  eapply safe_bind; [apply get_safe; [done | lia]|]. intros l _.
  destruct (l - 2 <? 0) eqn:E0; zbool; [done|]. destruct (n <? _) eqn:E1; zbool; [done|].
  eapply safe_bind.
  { instantiate (1 := fun x => let '(_, _, len', ptr', n') := x in
      0 <= len' /\ 2 + len' <= n' /\ n' <= n /\ inside buf ptr' (n' - 2)).
    destruct (id =? 26); [apply recv_vsa_safe; unfold inside; auto; lia | cbn; unfold inside; lia]. }
  intros [[[[vendor id'] len'] ptr'] n'] (H0 & H1 & H2 & H3). unfold inside in H3.
  apply (safe_bind _ (fun _ => True)); [|intros a _; cbn; unfold inside; lia].
  destruct (rad_dict_find_attr_id dict vendor id') as [da|] eqn:D; [|done].
  destruct mem; [|done]. cbn [negb]. apply safe_any, recv_value_safe; auto; [eapply (fo_size _ Fo); eauto | lia].
Qed.

Lemma recv_attrs_safe fuel mem dict buf ptr n :
  formats_ok dict -> bytes_ok buf -> (Z.to_nat n <= fuel)%nat -> inside buf ptr n ->
  safe (fun _ => True) (recv_attrs fuel mem dict buf ptr n).
Proof.
  intros Fo B. revert ptr n. induction fuel as [|fuel IH]; intros ptr n Hf I; cbn [recv_attrs];
    destruct (n <=? 0) eqn:E; zbool; try done; [lia|].
  eapply safe_bind; [apply recv_attr_safe; auto; lia|]. intros [[a ptr'] n'] [Hn I'].
  apply safe_any, IH; [lia | done].
Qed.

(** Without a vendor, no attribute received has more than 253 bytes. *)
Lemma rad_packet_recv_not_oob mem dict buf :
  formats_ok dict -> bytes_ok buf -> rad_packet_recv mem dict buf <> Oob.
Proof.
  intros Fo B. enough (safe (fun _ => True) (rad_packet_recv mem dict buf)) by (intros E; rewrite E in *; done).
  unfold rad_packet_recv. destruct mem; [|done]. cbn [negb]. destruct (_ <? 20) eqn:E; zbool; [done|].
  eapply safe_bind; [apply get_safe; [done | lia]|]. intros code _.
  eapply safe_bind; [apply get_safe; [done | lia]|]. intros id _.
  eapply safe_bind; [apply read_be16_safe; [done | lia]|]. intros len Hlen.
  destruct ((len <? 20) || _) eqn:E2; zbool; [done|].
  apply safe_any, recv_attrs_safe; auto; unfold inside; lia.
Qed.

Lemma recv_attr_short mem dict buf ptr n ra ptr' n' :
  bytes_ok buf -> recv_attr mem dict buf ptr n = Ok (Some ra, ptr', n') -> ra_vendor ra = None ->
  ra_len ra <= 253.
Proof.
  intros B H Hv. unfold recv_attr in H. destruct (n <? 2); [done|].
  destruct (get buf ptr) as [id| |]; cbn [mbind res_bind] in H; [|done..].
  unfold get in H at 1. destruct (buf !! (ptr + 1)%nat) as [l|] eqn:El; cbn [mbind res_bind res_of_option] in H; [|done].
  unfold bytes_ok in B. rewrite Forall_lookup in B. pose proof (B _ _ El) as Hl. unfold byte_ok in Hl.
  destruct (l - 2 <? 0); [done|]. destruct (n <? _); [done|].
  destruct (if id =? 26 then _ else _) as [[[[[vendor id'] len'] p'] m']| |] eqn:X; [|done..].
  cbn [mbind res_bind] in H.
  destruct (rad_dict_find_attr_id dict vendor id') as [da|]; [|done]. destruct mem; [|done]. cbn [negb] in H.
  destruct (recv_value da buf p' len') as [v| |]; [|done..]. cbn in H. injection H as <- _ _. cbn [ra_len ra_vendor] in Hv |- *. subst vendor.
  destruct (id =? 26); [|unfold mret, res_ret in X; injection X as _ <- _ _; lia].
  unfold recv_vsa in X. destruct (l - 2 <? 4); [done|].
  destruct (u_read_be32 buf (ptr + 2)) as [vid| |]; cbn [mbind res_bind] in X; [|done..].
  destruct (rad_dict_find_vendor_id dict (s32 vid)) as [i|]; [|unfold mret, res_ret in X; injection X as _ <- _ _; lia].
  destruct (d_vendors dict !! i) as [v0|]; [|done]. destruct (_ <? _); [done|].
  destruct (if v_tag v0 =? 2 then _ else _); cbn [mbind res_bind] in X; [|done..].
  destruct (if v_len v0 =? 2 then _ else _); cbn [mbind res_bind] in X; [|done..].
  destruct (_ <? 0); [done|]. destruct (_ <? _); done.
Qed.

Lemma recv_attrs_short fuel mem dict buf ptr n attrs :
  bytes_ok buf -> recv_attrs fuel mem dict buf ptr n = Ok attrs ->
  Forall (fun ra => ra_vendor ra = None -> ra_len ra <= 253) attrs.
Proof.
  intros B. revert ptr n attrs. induction fuel as [|fuel IH]; intros ptr n attrs H; cbn [recv_attrs] in H;
    destruct (n <=? 0); try done; try (injection H as <-; constructor).
  destruct (recv_attr mem dict buf ptr n) as [[[a ptr'] n']| |] eqn:E; cbn [mbind res_bind] in H; [|done..].
  destruct (recv_attrs fuel mem dict buf ptr' n') as [rest| |] eqn:Er; [|done..]. cbn in H. injection H as <-.
  destruct a as [ra|]; [|eauto]. apply Forall_cons. split; [|eauto]. eauto using recv_attr_short.
Qed.

Lemma recv_short mem dict buf p :
  bytes_ok buf -> rad_packet_recv mem dict buf = Ok p ->
  Forall (fun ra => ra_vendor ra = None -> ra_len ra <= 253) (rp_attrs p).
Proof.
  intros B H. unfold rad_packet_recv in H. destruct (negb mem); [done|]. destruct (_ <? 20); [done|].
  destruct (get _ 0) as [c| |]; cbn [mbind res_bind] in H; [|done..].
  destruct (get _ 1) as [i| |]; cbn [mbind res_bind] in H; [|done..].
  destruct (u_read_be16 _ 2) as [len| |]; cbn [mbind res_bind] in H; [|done..].
  destruct (_ || _); [done|]. destruct (recv_attrs _ _ _ _ _ _) as [attrs| |] eqn:E; [|done..].
  cbn in H. injection H as <-. now apply recv_attrs_short in E.
Qed.

Lemma rad_value_bytes_ok type len v : value_ok type len v -> bytes_ok (value_bytes type v).
Proof.
  assert (forall n x, bytes_ok (reverse (be_encode n x))) by (intros; apply Forall_reverse, be_encode_ok).
  destruct type, v; cbn [value_ok value_bytes]; intros V; try done; auto using be_encode_ok; try apply Forall_nil_2; try apply V.
  apply Forall_app. split; [|apply V]. unfold byte_ok. repeat (apply Forall_cons; split); try done; lia.
Qed.

Lemma packet_bytes_ok dict pack RA :
  Forall (ra_ok dict) (rp_attrs pack) -> bytes_ok RA -> bytes_ok (packet_bytes dict pack RA).
Proof.
  intros F B. unfold packet_bytes, wires, bytes_ok.
  assert (forall a b, bytes_ok [u8 a; u8 b]) as P.
  { intros a b. repeat (apply Forall_cons; split); try done; apply u8_range. }
  repeat (apply Forall_app; split); [apply P | apply be_encode_ok | now apply Forall_take|].
  apply Forall_concat, Forall_fmap. eapply Forall_impl; [exact F|]. intros ra [V W _]. cbn. unfold ra_wire, vendor_hdr.
  repeat (apply Forall_app; split); [| apply P | eapply rad_value_bytes_ok; eauto].
  destruct (ra_vendor ra) as [i|]; [|done]. destruct (W i eq_refl) as [v ->].
  apply Forall_app. split; [|apply be_encode_ok]. apply (P 26).
Qed.

(** ** Packets made by the operations *)
Lemma run_ops_inv dict pack ops :
  len_ok pack -> len_ok (run_ops dict pack ops).
Proof.
  unfold run_ops. revert pack. induction ops as [|[op mem] ops IH]; intros pack L; [done|]. cbn.
  apply IH. destruct (run_op dict mem pack op) eqn:E; [eauto using run_op_len | done].
Qed.

Lemma run_ops_ok dict pack ops :
  Forall (fun o => op_ok dict (fst o)) ops -> Forall (ra_ok dict) (rp_attrs pack) ->
  Forall (ra_ok dict) (rp_attrs (run_ops dict pack ops)).
Proof.
  unfold run_ops. intros O. revert pack. induction O as [|[op mem] ops Ho O IH]; intros pack A; [done|]. cbn.
  apply IH. destruct (run_op dict mem pack op) eqn:E; [eauto using run_op_ok | done].
Qed.

Lemma run_op_header dict mem pack op pack' :
  run_op dict mem pack op = Some pack' ->
  rp_code pack' = rp_code pack /\ rp_id pack' = rp_id pack /\ rp_secret pack' = rp_secret pack /\
  rp_message_authenticator pack' = rp_message_authenticator pack.
Proof.
  assert (forall vn name len val, add_attr_val mem dict pack vn name len val = Some pack' ->
    exists l a, pack' = with_attrs pack l a) as Add.
  { intros * H. unfold add_attr_val in H. destruct (_ <=? _); [done|].
    destruct (find_named _ _ _) as [[? a]|]; [|done]. destruct (val a); [|done]. destruct mem; [|done].
    injection H as <-. eauto. }
  assert (forall vn name change, change_attr dict pack vn name change = Some pack' ->
    exists l a, pack' = with_attrs pack l a) as Chg.
  { intros * H. apply change_attr_spec in H as (? & ? & ? & ? & _ & _ & _ & ->). eauto. }
  intros H. assert (exists l a, pack' = with_attrs pack l a) as (l & a & ->).
  { destruct op; cbn in H; first [eapply Add; exact H | eapply Chg; exact H]. }
  done.
Qed.

Lemma run_ops_header dict pack ops :
  rp_code (run_ops dict pack ops) = rp_code pack /\ rp_id (run_ops dict pack ops) = rp_id pack.
Proof.
  unfold run_ops. revert pack. induction ops as [|[op mem] ops IH]; intros pack; [done|]. cbn.
  destruct (run_op dict mem pack op) as [p'|] eqn:E; [|apply IH].
  apply run_op_header in E as (<- & <- & _). apply IH.
Qed.

Lemma alloc_ok mem code pack : rad_packet_alloc mem code = Some pack -> len_ok pack /\ rp_attrs pack = [].
Proof. unfold rad_packet_alloc. destruct mem; [|done]. intros [= <-]. split; [|done]. now split. Qed.

Lemma take_splice_0 (src buf buf' : list Z) :
  splice 0 src buf = Ok buf' -> take (length src) buf' = src /\ drop (length src) buf' = drop (length src) buf.
Proof.
  unfold splice. case_decide; [|done]. intros E%ok_inj. subst buf'. rewrite take_0. cbn [app Nat.add].
  split; [apply take_app_length | apply drop_app_length].
Qed.

Lemma recv_build_bytes dict pack RA :
  len_ok pack -> Forall (ra_ok dict) (rp_attrs pack) -> Forall (readable dict) (rp_attrs pack) ->
  0 <= rp_code pack < 256 -> 0 <= rp_id pack < 256 -> (16 <= length RA)%nat ->
  rad_packet_recv true dict (packet_bytes dict pack RA)
  = Ok (mk_rpack false None (rp_code pack) (rp_id pack) (rp_len pack) (received <$> rp_attrs pack)).
Proof.
  intros L F B Hc Hi HRA. pose proof (packet_bytes_length dict pack RA L F HRA) as Hlen.
  destruct L as [L M A]. pose proof (attrs_size_nonneg _ A). unfold REQ_LENGTH_MAX in M.
  unfold rad_packet_recv. rewrite Hlen. cbn [negb]. destruct (rp_len pack <? 20) eqn:E; zbool; [lia|].
  unfold packet_bytes. rewrite !u8_small by lia.
  rewrite (get_at _ [] (rp_code pack) (rp_id pack :: be_encode 2 (rp_len pack) ++ take 16 RA ++
             wires dict (rp_attrs pack)) 0) by done.
  rewrite (get_at _ [rp_code pack] (rp_id pack) (be_encode 2 (rp_len pack) ++ take 16 RA ++
             wires dict (rp_attrs pack)) 1) by done.
  cbn [mbind res_bind].
  pose proof (read_be16_app [rp_code pack; rp_id pack] (rp_len pack)
                (take 16 RA ++ wires dict (rp_attrs pack))) as Hr.
  cbn [length] in Hr. rewrite Hr by lia. cbn [mbind res_bind].
  rewrite Z.ltb_irrefl, orb_false_r. destruct (rp_len pack <? 20) eqn:E'; zbool; [lia|].
  set (h := [rp_code pack; rp_id pack] ++ be_encode 2 (rp_len pack) ++ take 16 RA).
  assert (length h = 20%nat) as Lh.
  { subst h. rewrite !length_app, length_be_encode, length_take. cbn [length]. lia. }
  replace ([rp_code pack; rp_id pack] ++ be_encode 2 (rp_len pack) ++ take 16 RA ++ wires dict (rp_attrs pack))
    with (h ++ wires dict (rp_attrs pack)) by (subst h; now rewrite <- !app_assoc).
  replace 20%nat with (length h). replace (rp_len pack - 20) with (attrs_size (rp_attrs pack)) by lia.
  rewrite recv_attrs_wire; [done | done | done |].
  enough (Z.of_nat (length (rp_attrs pack)) <= attrs_size (rp_attrs pack)) by lia.
  clear -A. induction A as [|ra attrs Hra _ IH]; [done|]. rewrite attrs_size_cons. cbn [length].
  unfold attr_size, attr_overhead. destruct (isset _); lia.
Qed.

(** ** The theorems *)


(** C23. Parsing a received RADIUS packet never reads or writes outside of the
    bytes received nor outside of an attribute's value, whatever those bytes
    are, and the attribute loop ends. *)
Theorem rad_packet_recv_safe mem dict buf :
  formats_ok dict -> bytes_ok buf -> rad_packet_recv mem dict buf <> Oob.
Proof. apply rad_packet_recv_not_oob. Qed.

(** Whatever sequence of add and change functions is called on a new packet,
    its length field is the header plus the attributes and stays under
    REQ_LENGTH_MAX; building it then writes exactly that many bytes, the
    packet's, and leaves the rest of the buffer as it was. *)
Theorem rad_packet_build_fits mem dict code pack ops RA buf :
  rad_packet_alloc mem code = Some pack ->
  Forall (fun o => op_ok dict (fst o)) ops -> (16 <= length RA)%nat ->
  Z.of_nat (length buf) = REQ_LENGTH_MAX ->
  let pack' := run_ops dict pack ops in
  rp_len pack' = 20 + attrs_size (rp_attrs pack') /\ rp_len pack' < REQ_LENGTH_MAX /\
  exists buf', rad_packet_build true dict buf pack' RA = Ok buf' /\
    take (Z.to_nat (rp_len pack')) buf' = packet_bytes dict pack' RA /\
    drop (Z.to_nat (rp_len pack')) buf' = drop (Z.to_nat (rp_len pack')) buf.
Proof.
  intros [L0 E0]%alloc_ok O HRA Hb pack'. pose proof (run_ops_inv dict pack ops L0) as L.
  pose proof (run_ops_ok dict pack ops O) as F. rewrite E0 in F. specialize (F (Forall_nil_2 _)).
  fold pack' in L, F. pose proof (packet_bytes_length dict pack' RA L F HRA) as Hlen.
  pose proof L as [L1 M A]. split; [done|]. split; [done|].
  rewrite (build_spec dict) by done.
  destruct (splice_lookup 0 (packet_bytes dict pack' RA) buf) as (buf' & E & _).
  { unfold REQ_LENGTH_MAX in *. lia. }
  exists buf'. split; [done|]. rewrite <- Hlen, Nat2Z.id. now apply take_splice_0.
Qed.

(** The message authenticator of a packet sent is the HMAC of exactly the
    bytes sent, with the authenticator's own 16 bytes as zeroes; no other byte
    of the packet is touched, and as many bytes are sent as the packet has. *)
Theorem rad_packet_send_signed hmac_md5 pack buf secret :
  (forall key data mac, hmac_md5 key data = Some mac -> length mac = HMAC_MD5_LEN) ->
  rp_secret pack = Some secret -> rp_message_authenticator pack = true ->
  38 <= rp_len pack <= Z.of_nat (length buf) ->
  forall out, rad_packet_send hmac_md5 pack buf = Ok out ->
  Z.of_nat (length out) = rp_len pack /\
  (exists zeroed mac, splice PACKET_SIGNED_OFFSET (replicate HMAC_MD5_LEN 0) out = Ok zeroed /\
     hmac_md5 secret zeroed = Some mac /\ slice PACKET_SIGNED_OFFSET HMAC_MD5_LEN out = Ok mac) /\
  (forall i, (i < PACKET_SIGNED_OFFSET \/ PACKET_SIGNED_OFFSET + HMAC_MD5_LEN <= i < length out)%nat ->
     out !! i = buf !! i).
Proof.
  intros Hmac Es Ea Hl out H. unfold rad_packet_send in H. rewrite Es, Ea in H.
  unfold PACKET_SIGNED_OFFSET, HMAC_MD5_LEN in *.
  set (n := Z.to_nat (rp_len pack)) in *. assert (38 <= n <= length buf)%nat as Hn by lia.
  assert (exists a m c, buf = a ++ m ++ c /\ length a = 22%nat /\ length m = 16%nat) as (a & m & c & -> & La & Lm).
  { exists (take 22 buf), (take 16 (drop 22 buf)), (drop 16 (drop 22 buf)).
    rewrite !take_drop, !length_take, length_drop. split; [done|]. lia. }
  rewrite !length_app in Hn.
  assert (forall x y, length x = 16%nat -> length y = 16%nat ->
            forall z, splice 22 x (a ++ y ++ z) = Ok (a ++ x ++ z)) as Sp.
  { intros x y Lx Ly z. unfold splice. rewrite decide_True by (rewrite !length_app; lia).
    rewrite <- La, take_app_length, drop_app_add, Lx, <- Ly, drop_app_length. done. }
  assert (forall x z, length x = 16%nat -> (n - 38 <= length z)%nat ->
            slice 0 n (a ++ x ++ z) = Ok (a ++ x ++ take (n - 38) z)) as Sl.
  { intros x z Lx Lz. unfold slice. rewrite decide_True by (rewrite !length_app; lia). rewrite drop_0.
    rewrite take_app_ge by lia. rewrite take_app_ge by lia. do 4 f_equal. lia. }
  rewrite (Sp _ m) in H by (try done; rewrite length_replicate; done). cbn [mbind res_bind] in H.
  rewrite Sl in H by (try (rewrite length_replicate; done); lia). cbn [mbind res_bind] in H.
  destruct (hmac_md5 secret _) as [mac|] eqn:Eh; [|done]. pose proof (Hmac _ _ _ Eh) as Lmac.
  rewrite Sp in H by (try done; rewrite length_replicate; done). cbn [mbind res_bind] in H.
  rewrite Sl in H by (done || lia). apply ok_inj in H. subst out.
  rewrite !length_app, length_take. split; [lia|]. split.
  - exists (a ++ replicate 16 0 ++ take (n - 38) c), mac.
    split; [apply Sp; [now rewrite length_replicate | done]|]. split; [done|].
    rewrite <- La. apply slice_at. done.
  - intros i [Hi | Hi].
    + now rewrite !lookup_app_l by lia.
    + rewrite !(lookup_app_r a), !lookup_app_r by lia. rewrite La, Lmac, Lm, lookup_take_lt; [done | lia].
Qed.

(** A value of more than 253 bytes is accepted by the add function, but the
    one-byte length of the attribute wraps around: whatever a receiver makes of
    the packet, that attribute is not among what it got. *)
Theorem rad_packet_long_value dict dict' pack name attr val RA :
  Forall (ra_ok dict) (rp_attrs pack) -> rad_dict_find_attr dict name = Some attr ->
  rd_type attr = TYPE_OCTETS -> bytes_ok val -> bytes_ok RA ->
  253 < Z.of_nat (length val) -> rp_len pack + 2 + Z.of_nat (length val) < REQ_LENGTH_MAX ->
  exists pack' ra, rad_packet_add_octets true dict pack None name val = Some pack' /\
    rp_attrs pack' = rp_attrs pack ++ [ra] /\ ra = mk_ra attr None (Z.of_nat (length val)) (RPtr val) /\
    forall p, rad_packet_recv true dict' (packet_bytes dict pack' RA) = Ok p -> received ra ∉ rp_attrs p.
Proof.
  intros F D T Bv Br Hl Hm. eexists _, _. unfold rad_packet_add_octets, add_attr_val. cbn [find_named attr_overhead isset].
  rewrite D, (proj2 (Z.leb_gt _ _)) by lia. cbn [negb]. split; [done|].
  rewrite decide_False by (intros ->; cbn in Hl; lia). split; [done|]. split; [done|].
  intros p. set (pack' := with_attrs _ _ _). intros H.
  assert (bytes_ok (packet_bytes dict pack' RA)) as B.
  { apply packet_bytes_ok; [|done]. apply Forall_app. split; [done|]. apply Forall_cons. split; [|done].
    split; cbn; [now rewrite T | done | left]. unfold rad_dict_find_attr in D. now apply dict_find_attr_spec in D as [? _]. }
  apply recv_short in H; [|done]. intros Hr. rewrite Forall_forall in H. specialize (H _ Hr eq_refl). cbn in H. lia.
Qed.

(** ** Witnesses *)
Lemma some_in_dict a :
  in_dict some_rad_dict a -> a = user_name \/ a = nas_port \/ a = framed_ip \/ a = ms_chap.
Proof.
  unfold in_dict. cbn. rewrite !elem_of_cons, elem_of_nil.
  intros [[|[|[|[]]]] | (v & Hv & Ha)]; auto. apply list_elem_of_singleton in Hv. subst v. cbn in Ha.
  apply list_elem_of_singleton in Ha. auto.
Qed.

Lemma some_ops_ok : Forall (fun o => op_ok some_rad_dict (fst o)) some_rad_ops.
Proof.
  unfold some_rad_ops. repeat (apply Forall_cons; split); [..|apply Forall_nil_2]; cbn [fst];
    intros a Ha Hn; apply some_in_dict in Ha as [-> | [-> | [-> | ->]]]; try discriminate Hn; cbn;
    auto; (split; [auto|]); bytes_lit.
Qed.


Lemma some_formats_ok : formats_ok some_rad_dict.
Proof.
  split.
  - apply Forall_cons. split; [cbn; lia | apply Forall_nil_2].
  - intros vendor id a H. enough (in_dict some_rad_dict a) as D.
    { apply some_in_dict in D as [-> | [-> | [-> | ->]]]; cbn; lia. }
    assert (forall l, find_id l id = Some a -> a ∈ l) as Fi.
    { induction l as [|x l IH]; cbn; [done|]. destruct (rd_id x =? id); [intros [= <-]; left | right; auto]. }
    unfold in_dict. destruct vendor as [i|]; cbn [rad_dict_find_attr_id] in H; [right | left; auto].
    destruct (d_vendors some_rad_dict !! i) as [v|] eqn:E; [|done].
    exists v. split; [eapply list_elem_of_lookup_2; eauto | auto].
Qed.

Lemma rad_packet_recv_safe_witness :
  rad_packet_recv true some_rad_dict [2; 9; 0; 30; 0;0;0;0;0;0;0;0;0;0;0;0;0;0;0;0; 26; 10; 0; 0; 1; 55; 25; 2; 7; 7] <> Oob.
Proof. apply rad_packet_recv_safe; [exact some_formats_ok | bytes_lit]. Defined.

Lemma rad_packet_build_fits_witness :
  exists buf', rad_packet_build true some_rad_dict (replicate 4096 0)
      (run_ops some_rad_dict (mk_rpack false None 1 1 20 []) some_rad_ops) (replicate 16 5) = Ok buf' /\
    length (take 46 buf') = 46%nat /\ drop 46 buf' = replicate 4050 0.
Proof.
  destruct (rad_packet_build_fits true some_rad_dict 1 (mk_rpack false None 1 1 20 []) some_rad_ops
              (replicate 16 5) (replicate 4096 0) eq_refl some_ops_ok ltac:(reflexivity) eq_refl)
    as (_ & _ & buf' & E & T & D).
  exists buf'. split; [exact E|]. split; [exact (f_equal length T) | exact D].
Defined.

Lemma rad_packet_send_signed_witness :
  exists out, rad_packet_send some_hmac some_signed (replicate 48 3) = Ok out /\ length out = 40%nat /\
    out !! 21%nat = Some 3.
Proof.
  pose proof (rad_packet_send_signed some_hmac some_signed (replicate 48 3) [115; 51]) as T.
  eexists. split; [vm_compute; reflexivity|].
  specialize (T ltac:(intros k d m [= <-]; reflexivity) eq_refl eq_refl ltac:(vm_compute; split; discriminate) _
                ltac:(vm_compute; reflexivity)) as (L & _ & U).
  split; [apply Nat2Z.inj; exact L|]. rewrite U; [reflexivity | left; unfold PACKET_SIGNED_OFFSET; lia].
Defined.

Lemma rad_packet_long_value_witness :
  exists pack' ra,
    rad_packet_add_octets true (mk_dict [some_attr "EAP-Message" 79 TYPE_OCTETS 0] [])
      (mk_rpack false None 1 1 20 []) None "EAP-Message" (replicate 300 1) = Some pack' /\
    rp_attrs pack' = [] ++ [ra] /\
    ra = mk_ra (some_attr "EAP-Message" 79 TYPE_OCTETS 0) None (Z.of_nat (length (replicate 300 1))) (RPtr (replicate 300 1)) /\
    forall p, rad_packet_recv true some_rad_dict
                (packet_bytes (mk_dict [some_attr "EAP-Message" 79 TYPE_OCTETS 0] []) pack' (replicate 16 5)) = Ok p ->
              received ra ∉ rp_attrs p.
Proof.
  apply (rad_packet_long_value (mk_dict [some_attr "EAP-Message" 79 TYPE_OCTETS 0] []) some_rad_dict
           (mk_rpack false None 1 1 20 []) "EAP-Message" (some_attr "EAP-Message" 79 TYPE_OCTETS 0)
           (replicate 300 1) (replicate 16 5)); try reflexivity.
  - apply Forall_nil_2.
  - apply Forall_replicate. unfold byte_ok. lia.
  - apply Forall_replicate. unfold byte_ok. lia.
Defined.
