(* ===== verification/RadiusAuth.v ===== *)
(** * Secrets in RADIUS (accel-pppd/radius/auth.c, req.c)

    What the client does with the secret it shares with a server: the password of
    PAP, the attributes of CHAP and MS-CHAP, the authenticators of requests and
    responses, the keys for MPPE a server sends.

    MD5 and SHA-1 are OpenSSL's and parameters; their hypothesis is the length of a
    digest.  A C string is the list of its bytes without the final 0. *)
From S2P Require Import Prelude CString Utils RadiusPacket.

Definition CODE_ACCESS_ACCEPT : Z := 2.
Definition CODE_ACCOUNTING_REQUEST : Z := 4.
Definition VENDOR_Microsoft : Z := 311.
Definition MS_MPPE_Encryption_Policy : Z := 7.
Definition MS_MPPE_Encryption_Type : Z := 8.
Definition MS_CHAP_MPPE_Keys : Z := 12.
Definition MS_MPPE_Send_Key : Z := 16.
Definition MS_MPPE_Recv_Key : Z := 17.

(** [for (j = 0; j < n; j++) buf[off + j] ^= b[j]] *)
Definition xor_bytes (buf : list Z) (off : nat) (b : list Z) (n : nat) : res (list Z) :=
  d ← slice off n buf;
  b ← slice 0 n b;
  splice off (zip_with Z.lxor d b) buf.

(** The two buffers of [setup_mppe] and the pointers into them that the event gets. *)
Inductive key_buf : Type := mppe_recv_key | mppe_send_key.

Record ev_mppe_keys_t : Type := mk_ev_mppe {
  em_recv_buf : list Z;
  em_send_buf : list Z;
  em_recv_key : option key_buf;
  em_send_key : option key_buf;
  em_policy : Z;
  em_type : Z
}.

Definition set_recv_buf (ev : ev_mppe_keys_t) (b : list Z) : ev_mppe_keys_t :=
  mk_ev_mppe b (em_send_buf ev) (em_recv_key ev) (em_send_key ev) (em_policy ev) (em_type ev).
Definition set_send_buf (ev : ev_mppe_keys_t) (b : list Z) : ev_mppe_keys_t :=
  mk_ev_mppe (em_recv_buf ev) b (em_recv_key ev) (em_send_key ev) (em_policy ev) (em_type ev).
Definition set_key_ptrs (ev : ev_mppe_keys_t) (r s : option key_buf) : ev_mppe_keys_t :=
  mk_ev_mppe (em_recv_buf ev) (em_send_buf ev) r s (em_policy ev) (em_type ev).

Definition key_at (ev : ev_mppe_keys_t) (k : key_buf) : list Z :=
  match k with mppe_recv_key => em_recv_buf ev | mppe_send_key => em_send_buf ev end.

(** [attr->val.octets] and [attr->val.integer], members of one union *)
Definition val_octets (ra : rad_attr_t) : res (list Z) :=
  match ra_val ra with RPtr o => mret o | _ => Oob end.
Definition val_integer (ra : rad_attr_t) : res Z :=
  match ra_val ra with RInt v => mret v | RZero => mret 0 | _ => Oob end.

Section Digests.
Variable md5 sha1 : list Z -> list Z.

(** ** The password of PAP *)

(** The rounds of [encrypt_password] from [i] on: [n] are left, [c] is hashed next. *)
Fixpoint encrypt_chunks (n i : nat) (secret c epasswd : list Z) : res (list Z) :=
  match n with
  | O => mret epasswd
  | S n' =>
      epasswd ← xor_bytes epasswd (i * 16) (md5 (secret ++ c)) 16;
      c ← slice (i * 16) 16 epasswd;
      encrypt_chunks n' (S i) secret c epasswd
  end.

(** [encrypt_password]; the empty list stands for the length 0 and the pointer 1. *)
Definition encrypt_password (mem : bool) (passwd secret RA : list Z) : res (list Z) :=
  match length passwd with
  | O => mret []
  | S len1 =>
      let chunk_cnt := (len1 / 16 + 1)%nat in
      if negb mem then Fail
      else
        epasswd ← splice 0 passwd (replicate (chunk_cnt * 16) 0);
        c ← slice 0 16 RA;
        encrypt_chunks chunk_cnt 0 secret c epasswd
  end.

(** ** Keys for MPPE *)

(** [decrypt_mppe_key]; [req_buf] is the request as sent, [Fail] the return of -1. *)
Definition decrypt_mppe_key (secret : option (list Z)) (req_buf : list Z) (attr : rad_attr_t) : res (list Z) :=
  if negb (ra_len attr =? 34) then Fail
  else
    octets ← val_octets attr;
    salt ← get octets 0;
    if Z.land salt 128 =? 0 then Fail
    else
      match secret with
      | None => Fail
      | Some secret =>
          ra ← slice 4 16 req_buf;
          salt ← slice 0 2 octets;
          plain ← slice 2 32 octets;
          plain ← xor_bytes plain 0 (md5 (secret ++ ra ++ salt)) 16;
          klen ← get plain 0;
          if negb (klen =? 16) then Fail
          else
            first ← slice 2 16 octets;
            plain ← xor_bytes plain 16 (md5 (secret ++ first)) 1;
            slice 1 16 plain
      end.

(** [decrypt_chap_mppe_keys] *)
Definition decrypt_chap_mppe_keys (secret : option (list Z)) (req_buf : list Z) (attr : rad_attr_t)
    (challenge : list Z) : res (list Z) :=
  if negb (ra_len attr =? 32) then Fail
  else
    match secret with
    | None => Fail
    | Some secret =>
        octets ← val_octets attr;
        plain ← slice 0 32 octets;
        ra ← slice 4 16 req_buf;
        plain ← xor_bytes plain 0 (md5 (secret ++ ra)) 16;
        first ← slice 0 16 octets;
        plain ← xor_bytes plain 16 (md5 (secret ++ first)) 16;
        k ← slice 8 16 plain;
        ch ← slice 0 8 challenge;
        slice 0 16 (sha1 (k ++ k ++ ch))
    end.

(** One attribute of the loop of [setup_mppe]; a key that cannot be decrypted is skipped. *)
Definition setup_mppe_attr (dict : rad_dict_t) (secret : option (list Z)) (req_buf challenge : list Z)
    (ev : ev_mppe_keys_t) (attr : rad_attr_t) : res ev_mppe_keys_t :=
  let key (r : res (list Z)) (store : list Z -> ev_mppe_keys_t) : res ev_mppe_keys_t :=
    match r with Ok k => mret (store k) | Fail => mret ev | Oob => Oob end in
  match ra_vendor attr with
  | None => mret ev
  | Some i =>
      v ← res_of_option (d_vendors dict !! i);
      let id := rd_id (ra_attr attr) in
      if negb (v_id v =? VENDOR_Microsoft) then mret ev
      else if id =? MS_CHAP_MPPE_Keys then
        key (decrypt_chap_mppe_keys secret req_buf attr challenge)
          (fun k => set_key_ptrs (set_recv_buf ev k) (Some mppe_recv_key) (Some mppe_recv_key))
      else if id =? MS_MPPE_Recv_Key then
        key (decrypt_mppe_key secret req_buf attr)
          (fun k => set_key_ptrs (set_recv_buf ev k) (Some mppe_recv_key) (em_send_key ev))
      else if id =? MS_MPPE_Send_Key then
        key (decrypt_mppe_key secret req_buf attr)
          (fun k => set_key_ptrs (set_send_buf ev k) (em_recv_key ev) (Some mppe_send_key))
      else if id =? MS_MPPE_Encryption_Policy then
        p ← val_integer attr;
        mret (mk_ev_mppe (em_recv_buf ev) (em_send_buf ev) (em_recv_key ev) (em_send_key ev) p (em_type ev))
      else if id =? MS_MPPE_Encryption_Type then
        t ← val_integer attr;
        mret (mk_ev_mppe (em_recv_buf ev) (em_send_buf ev) (em_recv_key ev) (em_send_key ev) (em_policy ev) t)
      else mret ev
  end.

Fixpoint setup_mppe_attrs (dict : rad_dict_t) (secret : option (list Z)) (req_buf challenge : list Z)
    (ev : ev_mppe_keys_t) (attrs : list rad_attr_t) : res ev_mppe_keys_t :=
  match attrs with
  | [] => mret ev
  | a :: attrs' =>
      ev ← setup_mppe_attr dict secret req_buf challenge ev a;
      setup_mppe_attrs dict secret req_buf challenge ev attrs'
  end.

(** [setup_mppe]: receive key, send key, policy and type of the event EV_MPPE_KEYS, when
    it is fired.  [stack] is what the two buffers hold before. *)
Definition setup_mppe (dict : rad_dict_t) (ppp : bool) (secret : option (list Z)) (req_buf challenge : list Z)
    (stack : list Z * list Z) (reply : rad_packet_t) : res (option (list Z * list Z * Z * Z)) :=
  if negb ppp then mret None
  else
    ev ← setup_mppe_attrs dict secret req_buf challenge
           (mk_ev_mppe (fst stack) (snd stack) None None 0 0) (rp_attrs reply);
    match em_recv_key ev, em_send_key ev with
    | Some r, Some s => mret (Some (key_at ev r, key_at ev s, em_policy ev, em_type ev))
    | _, _ => mret None
    end.

(** ** Authenticators *)

(** [rad_req_set_RA]: the packet signed and the authenticator kept for the response. *)
Definition rad_req_set_RA (mem : bool) (dict : rad_dict_t) (buf : list Z) (pack : rad_packet_t)
    (serv_secret : list Z) : res (list Z * list Z * rad_packet_t) :=
  if negb mem then Fail
  else
    buf ← rad_packet_build mem dict buf pack (replicate 16 0);
    data ← slice 0 (Z.to_nat (rp_len pack)) buf;
    buf ← splice 4 (md5 (data ++ serv_secret)) buf;
    RA ← slice 4 16 buf;
    mret (buf, RA,
          mk_rpack (rp_message_authenticator pack) (Some serv_secret) (rp_code pack) (rp_id pack)
            (rp_len pack) (rp_attrs pack)).

(** [verify_response_authenticator] says the response is right (it returns 0).  [buf] and
    [len] are [pack->buf] and [pack->len]; CRYPTO_memcmp compares the digests. *)
Definition verify_response_authenticator (req_buf secret : option (list Z)) (buf : list Z) (len : Z)
  : res bool :=
  if len <? 20 then mret false
  else
    match req_buf, secret with
    | Some req_buf, Some secret =>
        hdr ← slice 0 4 buf;
        ra ← slice 4 16 req_buf;
        attrs ← slice 20 (Z.to_nat (len - 20)) buf;
        got ← slice 4 16 buf;
        mret (bool_decide (md5 (hdr ++ ra ++ attrs ++ secret) = got))
    | _, _ => mret false
    end.

(** The loop of [rad_req_read] over the datagrams in the socket: the reply taken, if any,
    and what is left in the socket. *)
Fixpoint rad_req_read (mem : bool) (dict : rad_dict_t) (req_id : Z) (req_buf secret : option (list Z))
    (socket : list (list Z)) : res (option rad_packet_t * list (list Z)) :=
  match socket with
  | [] => mret (None, [])
  | d :: socket' =>
      let buf := take (Z.to_nat REQ_LENGTH_MAX) d in
      match rad_packet_recv mem dict buf with
      | Oob => Oob
      | Fail => mret (None, socket')
      | Ok pack =>
          right ← (if rp_id pack =? req_id
                   then verify_response_authenticator req_buf secret buf (rp_len pack)
                   else mret false);
          if negb right then rad_req_read mem dict req_id req_buf secret socket'
          else mret (Some pack, socket')
      end
  end.
End Digests.

(** ** The attributes of an Access-Request *)

(** [rad_auth_pap], what it adds to the packet; [Fail] is PWDB_DENIED. *)
Definition rad_auth_pap (md5 : list Z -> list Z) (mem : bool) (dict : rad_dict_t) (pack : rad_packet_t)
    (RA passwd : list Z) : res rad_packet_t :=
  match rp_secret pack with
  | None => Fail
  | Some secret =>
      epasswd ← encrypt_password md5 mem passwd secret RA;
      match rad_packet_add_octets mem dict pack None "User-Password" epasswd with
      | Some pack => mret pack
      | None => Fail
      end
  end.

(** [rad_auth_chap_md5]: the packet and the request authenticator. *)
Definition rad_auth_chap_md5 (mem : bool) (dict : rad_dict_t) (pack : rad_packet_t) (RA : list Z) (id : Z)
    (challenge response : list Z) : res (rad_packet_t * list Z) :=
  r ← slice 0 16 response;
  let chap_password := u8 id :: r in
  let RA := if decide (length challenge = 16%nat) then challenge else RA in
  match rad_packet_add_octets mem dict pack None "CHAP-Challenge" challenge with
  | None => Fail
  | Some pack =>
      match rad_packet_add_octets mem dict pack None "CHAP-Password" chap_password with
      | None => Fail
      | Some pack => mret (pack, RA)
      end
  end.

(** [rad_auth_mschap_v1] *)
Definition rad_auth_mschap_v1 (mem : bool) (dict : rad_dict_t) (pack : rad_packet_t) (id flags : Z)
    (challenge lm_response nt_response : list Z) : res rad_packet_t :=
  lm ← slice 0 24 lm_response;
  nt ← slice 0 24 nt_response;
  let response := [u8 id; u8 flags] ++ lm ++ nt in
  match rad_packet_add_octets mem dict pack (Some "Microsoft") "MS-CHAP-Challenge" challenge with
  | None => Fail
  | Some pack =>
      match rad_packet_add_octets mem dict pack (Some "Microsoft") "MS-CHAP-Response" response with
      | None => Fail
      | Some pack => mret pack
      end
  end.

(** [rad_auth_mschap_v2] *)
Definition rad_auth_mschap_v2 (mem : bool) (dict : rad_dict_t) (pack : rad_packet_t) (id flags : Z)
    (challenge peer_challenge reserved response : list Z) : res rad_packet_t :=
  pc ← slice 0 16 peer_challenge;
  rs ← slice 0 8 reserved;
  rp ← slice 0 24 response;
  ch ← slice 0 16 challenge;
  let mschap_response := [u8 id; u8 flags] ++ pc ++ rs ++ rp in
  match rad_packet_add_octets mem dict pack (Some "Microsoft") "MS-CHAP-Challenge" ch with
  | None => Fail
  | Some pack =>
      match rad_packet_add_octets mem dict pack (Some "Microsoft") "MS-CHAP2-Response" mschap_response with
      | None => Fail
      | Some pack => mret pack
      end
  end.

(** [rad_auth_mschap_v2_recv] for an Access-Accept: the 40 bytes of the authenticator. *)
Definition mschap_v2_success (dict : rad_dict_t) (reply : rad_packet_t) : res (list Z) :=
  match rad_packet_find_attr dict reply (Some "Microsoft") "MS-CHAP2-Success" with
  | None => Fail
  | Some i =>
      ra ← res_of_option (rp_attrs reply !! i);
      if ra_len ra <? 43 then Fail
      else
        o ← val_octets ra;
        slice 3 40 o
  end.

(** ** Vocabulary of the theorems *)

(** RFC 2865, 5.2: what a server makes of a User-Password of [n] blocks. *)
Fixpoint rfc2865_decrypt (md5 : list Z -> list Z) (n : nat) (secret c data : list Z) : list Z :=
  match n with
  | O => []
  | S n' =>
      zip_with Z.lxor (take 16 data) (md5 (secret ++ c)) ++
      rfc2865_decrypt md5 n' secret (take 16 data) (drop 16 data)
  end.

(** The same in the other direction. *)
Fixpoint rfc2865_encrypt (md5 : list Z -> list Z) (n : nat) (secret c data : list Z) : list Z :=
  match n with
  | O => []
  | S n' =>
      let e := zip_with Z.lxor (take 16 data) (md5 (secret ++ c)) in
      e ++ rfc2865_encrypt md5 n' secret e (drop 16 data)
  end.

(** The blocks of 16 bytes a password fills. *)
Definition blocks (passwd : list Z) : nat := ((length passwd + 15) / 16)%nat.

(** RFC 2548, 2.4.2: a key of 16 bytes as the server sends it, with its salt. *)
Definition rfc2548_key (md5 : list Z -> list Z) (secret RA salt key : list Z) : list Z :=
  salt ++ rfc2865_encrypt md5 2 secret (RA ++ salt) (16 :: key ++ replicate 15 0).

(** A datagram is a well-formed packet with the identifier of the request and the Response
    Authenticator of RFC 2865, 3. *)
Definition genuine (md5 : list Z -> list Z) (dict : rad_dict_t) (req_id : Z) (RA secret d : list Z)
    (pack : rad_packet_t) : Prop :=
  rad_packet_recv true dict d = Ok pack /\ rp_id pack = req_id /\
  take 16 (drop 4 d) =
    md5 (take 4 d ++ RA ++ take (Z.to_nat (rp_len pack) - 20) (drop 20 d) ++ secret).

(** The attributes [setup_mppe] looks at have values of the types of the dictionary. *)
Definition ms_attr (dict : rad_dict_t) (id : Z) (ra : rad_attr_t) : bool :=
  match ra_vendor ra with
  | Some i => match d_vendors dict !! i with
              | Some v => (v_id v =? VENDOR_Microsoft) && (rd_id (ra_attr ra) =? id)
              | None => false
              end
  | None => false
  end.

Record mppe_typed (dict : rad_dict_t) (ra : rad_attr_t) : Prop := {
  mt_vendor : forall i, ra_vendor ra = Some i -> is_Some (d_vendors dict !! i);
  mt_octets : ms_attr dict MS_CHAP_MPPE_Keys ra || ms_attr dict MS_MPPE_Recv_Key ra
              || ms_attr dict MS_MPPE_Send_Key ra = true ->
              exists o, ra_val ra = RPtr o /\ ra_len ra = Z.of_nat (length o);
  mt_integer : ms_attr dict MS_MPPE_Encryption_Policy ra || ms_attr dict MS_MPPE_Encryption_Type ra = true ->
               ra_val ra = RZero \/ exists v, ra_val ra = RInt v
}.

(** The pointer and the buffer of a key after one attribute. *)
Definition takes_key (k : res (list Z)) (b : key_buf) (ptr : option key_buf) (buf : list Z)
  : option key_buf * list Z :=
  match k with Ok k => (Some b, k) | _ => (ptr, buf) end.

(** Stand-ins for the digests of OpenSSL, and what the witnesses use. *)
Definition some_md5 (m : list Z) : list Z := take 16 (reverse m ++ replicate 16 0).
Definition some_sha1 (m : list Z) : list Z := take 20 (reverse m ++ replicate 20 0).

Definition pap_dict : rad_dict_t := mk_dict [some_attr "User-Password" 2 TYPE_OCTETS 0] [].
Definition some_password : list Z := replicate 20 97.
Definition some_request : list Z := [1; 9; 0; 20; 1; 2; 3; 4; 5; 6; 7; 8; 9; 10; 11; 12; 13; 14; 15; 16].
Definition some_authenticator : list Z := [1; 2; 3; 4; 5; 6; 7; 8; 9; 10; 11; 12; 13; 14; 15; 16].
Definition some_response : list Z :=
  [2; 9; 0; 20] ++ some_md5 ([2; 9; 0; 20] ++ some_authenticator ++ [] ++ [115; 51]).
Definition forged_response : list Z := [2; 9; 0; 20] ++ replicate 16 0.

Definition key_attr (id : Z) (salt key : list Z) : rad_attr_t :=
  mk_ra (some_attr "key" id TYPE_OCTETS 0) (Some 0%nat) 34
    (RPtr (rfc2548_key some_md5 [115; 51] some_authenticator salt key)).
Definition policy_attr : rad_attr_t :=
  mk_ra (some_attr "policy" MS_MPPE_Encryption_Policy TYPE_INTEGER 4) (Some 0%nat) 4 (RInt 2).
Definition some_accept : rad_packet_t :=
  mk_rpack false None 2 9 20
    [key_attr MS_MPPE_Send_Key [129; 1] (replicate 16 3); policy_attr;
     key_attr MS_MPPE_Recv_Key [128; 7] (replicate 16 5)].

(** ** Exclusive or of buffers *)
Lemma zip_lxor_cancel (d b : list Z) :
  (length d <= length b)%nat -> zip_with Z.lxor (zip_with Z.lxor d b) b = d.
Proof.
  revert b. induction d as [|x d IH]; intros [|y b] H; cbn in *; try done; [lia|].
  rewrite lxor_cancel, IH by lia. done.
Qed.

Lemma xor_bytes_at (pre d post b : list Z) n :
  length d = n -> (n <= length b)%nat ->
  xor_bytes (pre ++ d ++ post) (length pre) b n = Ok (pre ++ zip_with Z.lxor d b ++ post).
Proof.
  intros Ld Lb. unfold xor_bytes.
  rewrite <- (Nat.add_0_r (length pre)) at 1. rewrite slice_app_r, slice_app_l' by done. cbn.
  rewrite slice_ok by lia. cbn. rewrite drop_0. rewrite splice_after;
    [|done|rewrite length_zip_with, length_take; lia].
  do 3 f_equal. rewrite <- (take_drop n b) at 2. rewrite <- (app_nil_r d) at 2.
  rewrite zip_with_app by (rewrite length_take; lia). now rewrite zip_with_nil_l, app_nil_r.
Qed.

(** ** Blocks chained by their digests *)
Section Md5.
Context (md5 : list Z -> list Z) (md5_length : forall m, length (md5 m) = 16%nat).

Lemma length_block (d c : list Z) :
  (16 <= length d)%nat -> length (zip_with Z.lxor (take 16 d) (md5 c)) = 16%nat.
Proof using md5_length. intros. rewrite length_zip_with, length_take, md5_length. lia. Qed.

Lemma length_rfc2865_encrypt n secret c data :
  length data = (16 * n)%nat -> length (rfc2865_encrypt md5 n secret c data) = (16 * n)%nat.
Proof using md5_length.
  revert c data. induction n as [|n IH]; intros c data L; [done|]. cbn [rfc2865_encrypt].
  rewrite length_app, length_block, IH by (rewrite ?length_drop; lia). lia.
Qed.

Lemma rfc2865_encrypt_ok n secret c data :
  (forall m, bytes_ok (md5 m)) -> bytes_ok data -> bytes_ok (rfc2865_encrypt md5 n secret c data).
Proof using.
  intros Hm. revert c data. induction n as [|n IH]; intros c data Hd; [apply Forall_nil_2|].
  cbn [rfc2865_encrypt]. apply bytes_ok_app. split; [|now apply IH, bytes_ok_drop].
  generalize (bytes_ok_take 16 _ Hd) (Hm (secret ++ c)). generalize (take 16 data) (md5 (secret ++ c)).
  intros l k Hl. revert k. induction Hl as [|x l Hx Hl IHl]; intros [|y k] Hk; cbn; try apply Forall_nil_2.
  apply Forall_cons in Hk as [Hy Hk]. apply Forall_cons. split; [now apply lxor_byte | now apply IHl].
Qed.

Lemma rfc2865_decrypt_encrypt n secret c data :
  length data = (16 * n)%nat ->
  rfc2865_decrypt md5 n secret c (rfc2865_encrypt md5 n secret c data) = data.
Proof using md5_length.
  revert c data. induction n as [|n IH]; intros c data L.
  - symmetry. apply nil_length_inv. lia.
  - cbn [rfc2865_encrypt rfc2865_decrypt]. set (e := zip_with Z.lxor (take 16 data) _).
    assert (Le : length e = 16%nat) by (apply length_block; lia).
    rewrite take_app_length', drop_app_length' by done. rewrite IH by (rewrite length_drop; lia).
    unfold e. rewrite zip_lxor_cancel by (rewrite length_take, md5_length; lia). apply take_drop.
Qed.

Lemma encrypt_chunks_spec n i secret c pre data :
  length pre = (i * 16)%nat -> length data = (16 * n)%nat ->
  encrypt_chunks md5 n i secret c (pre ++ data) = Ok (pre ++ rfc2865_encrypt md5 n secret c data).
Proof using md5_length.
  revert i c pre data. induction n as [|n IH]; intros i c pre data Lp Ld.
  - now destruct data.
  - cbn [encrypt_chunks rfc2865_encrypt].
    rewrite <- (take_drop 16 data) at 1. rewrite <- Lp, xor_bytes_at
      by (rewrite ?length_take, ?md5_length; lia).
    cbn [mbind res_bind]. set (e := zip_with _ _ _).
    assert (Le : length e = 16%nat) by (apply length_block; lia).
    rewrite <- (Nat.add_0_r (length pre)), slice_app_r, slice_app_l' by done. cbn [mbind res_bind].
    rewrite app_assoc, IH, <- app_assoc by (rewrite ?length_app, ?length_drop; lia). done.
Qed.

Lemma encrypt_password_spec passwd secret RA :
  length RA = 16%nat ->
  encrypt_password md5 true passwd secret RA =
  Ok (rfc2865_encrypt md5 (blocks passwd) secret RA
        (passwd ++ replicate (blocks passwd * 16 - length passwd) 0)).
Proof using md5_length.
  intros LR. unfold encrypt_password, blocks. destruct passwd as [|x passwd]; [done|].
  cbn [length]. set (p := x :: passwd). change (S (length passwd)) with (length p).
  replace ((length p + 15) / 16)%nat with (length passwd / 16 + 1)%nat by
    (unfold p; cbn [length]; replace (S (length passwd) + 15)%nat with (length passwd + 1 * 16)%nat by lia;
     rewrite Nat.div_add by lia; lia).
  set (k := (length passwd / 16 + 1)%nat). cbn [negb].
  assert (Hk : (length p <= k * 16)%nat).
  { unfold p, k. cbn [length]. pose proof (Nat.div_mod_eq (length passwd) 16).
    pose proof (Nat.mod_upper_bound (length passwd) 16). lia. }
  rewrite splice_ok by (rewrite length_replicate; lia). cbn [mbind res_bind take].
  rewrite slice_ok by lia. cbn [mbind res_bind]. rewrite drop_0, take_ge by lia.
  replace (drop (0 + length p) (replicate (k * 16) 0)) with (replicate (k * 16 - length p) 0)
    by (rewrite drop_replicate; f_equal; lia).
  rewrite <- (app_nil_l (p ++ _)). rewrite encrypt_chunks_spec; [done|done|].
  cbn [app]. rewrite length_app, length_replicate. lia.
Qed.

(** ** Keys *)
Lemma decrypt_mppe_key_spec secret req_buf attr RA salt key :
  slice 4 16 req_buf = Ok RA -> length salt = 2%nat -> length key = 16%nat ->
  Z.land (salt !!! 0%nat) 128 <> 0 -> ra_len attr = 34 ->
  ra_val attr = RPtr (rfc2548_key md5 secret RA salt key) ->
  decrypt_mppe_key md5 (Some secret) req_buf attr = Ok key.
Proof using md5_length.
  intros HRA Ls Lk Hs La Hv.
  destruct (exists_last (l := key)) as (k15 & y & ->); [now intros ->|].
  rewrite length_app in Lk. cbn in Lk.
  assert (E : rfc2548_key md5 secret RA salt (k15 ++ [y]) =
    salt ++ zip_with Z.lxor (16 :: k15) (md5 (secret ++ RA ++ salt)) ++
    zip_with Z.lxor (y :: replicate 15 0) (md5 (secret ++ zip_with Z.lxor (16 :: k15) (md5 (secret ++ RA ++ salt))))).
  { unfold rfc2548_key. cbn [rfc2865_encrypt].
    replace (16 :: (k15 ++ [y]) ++ replicate 15 0) with ((16 :: k15) ++ (y :: replicate 15 0))
      by (cbn; now rewrite <- app_assoc).
    rewrite (take_app_length' (16 :: k15)), (drop_app_length' (16 :: k15)), app_nil_r by (cbn; lia).
    now rewrite take_ge by (cbn; lia). }
  rewrite E in Hv. clear E. set (m1 := md5 (secret ++ RA ++ salt)) in *.
  set (e1 := zip_with Z.lxor (16 :: k15) m1) in *.
  assert (L1 : length e1 = 16%nat) by (unfold e1, m1; rewrite length_zip_with, md5_length; cbn; lia).
  pose proof (md5_length (secret ++ e1)) as Lm. destruct (md5 (secret ++ e1)) as [|m0 m2] eqn:Em; [done|].
  cbn [zip_with] in Hv. set (e2 := zip_with Z.lxor (replicate 15 0) m2) in *.
  assert (L2 : length e2 = 15%nat) by (unfold e2; rewrite length_zip_with, length_replicate; cbn in Lm; lia).
  unfold decrypt_mppe_key, val_octets. rewrite La, Hv. cbn [negb Z.eqb Pos.eqb mbind res_bind mret res_ret].
  unfold get. rewrite lookup_app_l by lia.
  destruct (lookup_lt_is_Some_2 salt 0 ltac:(lia)) as [s0 Hs0]. rewrite Hs0.
  rewrite (list_lookup_total_correct _ _ _ Hs0) in Hs. cbn [res_of_option mbind res_bind].
  rewrite (proj2 (Z.eqb_neq _ _) Hs), HRA. cbn [mbind res_bind].
  rewrite slice_app_l' by done. cbn [mbind res_bind].
  assert (Skip : forall n l, slice 2 n (salt ++ l) = slice 0 n l)
    by (intros; replace 2%nat with (length salt + 0)%nat by lia; apply slice_app_r).
  rewrite !Skip, (slice_ok 0 32) by (rewrite length_app; cbn [length]; lia). cbn [mbind res_bind]. fold m1.
  rewrite drop_0, take_ge by (rewrite length_app; cbn [length]; lia).
  change (xor_bytes (e1 ++ ?x) 0) with (xor_bytes ([] ++ e1 ++ x) (length (@nil Z))).
  rewrite xor_bytes_at by (unfold m1; rewrite ?md5_length; lia).
  replace (zip_with Z.lxor e1 m1) with (16 :: k15)
    by (symmetry; apply zip_lxor_cancel; unfold m1; rewrite md5_length; cbn; lia).
  cbn [mbind res_bind app]. unfold get. cbn [lookup list_lookup res_of_option mbind res_bind Z.eqb Pos.eqb negb].
  rewrite slice_app_l' by done. cbn [mbind res_bind]. rewrite Em.
  replace 16%nat with (length (16 :: k15)) at 1 by (cbn; lia).
  change (16 :: k15 ++ Z.lxor y m0 :: e2) with ((16 :: k15) ++ [Z.lxor y m0] ++ e2).
  rewrite xor_bytes_at by (cbn; lia). cbn [zip_with mbind res_bind]. rewrite lxor_cancel.
  change ((16 :: k15) ++ [y] ++ e2) with ([16] ++ k15 ++ [y] ++ e2). rewrite (app_assoc k15).
  apply (slice_at [16] (k15 ++ [y]) e2). rewrite length_app. cbn [length]. lia.
Qed.

Lemma xor_bytes_safe buf off b n :
  (off + n <= length buf)%nat -> (n <= length b)%nat ->
  exists buf', xor_bytes buf off b n = Ok buf' /\ length buf' = length buf.
Proof using.
  intros Hb Hn. unfold xor_bytes. rewrite !slice_ok by lia. cbn [mbind res_bind].
  rewrite splice_ok by (rewrite length_zip_with, !length_take, length_drop; lia). eexists. split; [done|].
  rewrite !length_app, length_drop, length_zip_with, !length_take, length_drop. lia.
Qed.

Lemma decrypt_mppe_key_safe secret req_buf attr o :
  (20 <= length req_buf)%nat -> ra_val attr = RPtr o -> ra_len attr = Z.of_nat (length o) ->
  decrypt_mppe_key md5 secret req_buf attr <> Oob.
Proof using md5_length.
  intros Lr Hv Hl. unfold decrypt_mppe_key, val_octets. rewrite Hv. destruct (ra_len attr =? 34) eqn:E; [|done].
  zbool. cbn [negb mbind res_bind mret res_ret]. assert (Lo : length o = 34%nat) by lia.
  unfold get. destruct (lookup_lt_is_Some_2 o 0 ltac:(lia)) as [x ->]. cbn [res_of_option mbind res_bind].
  case_match; [done|]. case_match; [|done]. rewrite !slice_ok by lia. cbn [mbind res_bind].
  destruct (xor_bytes_safe (take 32 (drop 2 o)) 0 (md5 (l ++ take 16 (drop 4 req_buf) ++ take 2 (drop 0 o))) 16)
    as (p1 & -> & L1); [rewrite length_take, length_drop; lia | rewrite md5_length; lia|].
  rewrite length_take, length_drop in L1. cbn [mbind res_bind].
  destruct (lookup_lt_is_Some_2 p1 0 ltac:(lia)) as [y ->]. cbn [res_of_option mbind res_bind].
  case_match; [done|].
  destruct (xor_bytes_safe p1 16 (md5 (l ++ take 16 (drop 2 o))) 1) as (p2 & -> & L2);
    [lia | rewrite md5_length; lia|].
  cbn [mbind res_bind]. now rewrite slice_ok by lia.
Qed.

Context (sha1 : list Z -> list Z) (sha1_length : forall m, length (sha1 m) = 20%nat).

(** With the NULL challenge a key of the right size is read through it. *)
Lemma decrypt_chap_oob secret req_buf attr challenge o :
  (20 <= length req_buf)%nat -> ra_val attr = RPtr o -> ra_len attr = Z.of_nat (length o) ->
  decrypt_chap_mppe_keys md5 sha1 (Some secret) req_buf attr challenge = Oob <->
  ra_len attr = 32 /\ (length challenge < 8)%nat.
Proof using md5_length sha1_length.
  intros Lr Hv Hl. unfold decrypt_chap_mppe_keys, val_octets. rewrite Hv.
  destruct (ra_len attr =? 32) eqn:E; zbool; [|split; [done|lia]].
  cbn [negb mbind res_bind mret res_ret]. rewrite !(slice_ok _ _ o), (slice_ok 4) by lia. cbn [mbind res_bind].
  destruct (xor_bytes_safe (take 32 (drop 0 o)) 0 (md5 (secret ++ take 16 (drop 4 req_buf))) 16)
    as (p1 & -> & L1); [rewrite length_take, length_drop; lia | rewrite md5_length; lia|].
  rewrite length_take, length_drop in L1. cbn [mbind res_bind].
  destruct (xor_bytes_safe p1 16 (md5 (secret ++ take 16 (drop 0 o))) 16) as (p2 & -> & L2);
    [lia | rewrite md5_length; lia|].
  cbn [mbind res_bind]. rewrite (slice_ok 8) by lia. cbn [mbind res_bind].
  destruct (decide (8 <= length challenge)%nat) as [Hc|Hc].
  - rewrite (slice_ok 0 8) by lia. cbn [mbind res_bind]. rewrite slice_ok by (rewrite sha1_length; lia). split; [done|lia].
  - assert (slice 0 8 challenge = Oob) as -> by (unfold slice; now rewrite decide_False by lia).
    cbn. split; [lia|done].
Qed.

Lemma ms_attr_vendor dict ra i v :
  ra_vendor ra = Some i -> d_vendors dict !! i = Some v ->
  forall id, ms_attr dict id ra = (v_id v =? VENDOR_Microsoft) && (rd_id (ra_attr ra) =? id).
Proof using. intros Hi Hv id. unfold ms_attr. now rewrite Hi, Hv. Qed.

Lemma setup_attr_spec dict secret req_buf challenge ev ra :
  (20 <= length req_buf)%nat -> mppe_typed dict ra -> ms_attr dict MS_CHAP_MPPE_Keys ra = false ->
  exists ev', setup_mppe_attr md5 sha1 dict secret req_buf challenge ev ra = Ok ev' /\
    (em_recv_key ev', em_recv_buf ev') =
      (if ms_attr dict MS_MPPE_Recv_Key ra
       then takes_key (decrypt_mppe_key md5 secret req_buf ra) mppe_recv_key (em_recv_key ev) (em_recv_buf ev)
       else (em_recv_key ev, em_recv_buf ev)) /\
    (em_send_key ev', em_send_buf ev') =
      (if ms_attr dict MS_MPPE_Send_Key ra
       then takes_key (decrypt_mppe_key md5 secret req_buf ra) mppe_send_key (em_send_key ev) (em_send_buf ev)
       else (em_send_key ev, em_send_buf ev)).
Proof using md5_length.
  intros Lr [Tv To Ti] Hc. unfold setup_mppe_attr. destruct (ra_vendor ra) as [i|] eqn:Ev.
  2: { unfold ms_attr. rewrite Ev. eauto. }
  destruct (Tv i eq_refl) as [v Hv]. rewrite Hv. cbn [res_of_option mbind res_bind].
  rewrite !(ms_attr_vendor dict ra i v Ev Hv) in *. destruct (v_id v =? VENDOR_Microsoft); [|cbn; eauto].
  cbn [negb andb] in *. rewrite Hc. destruct (rd_id (ra_attr ra) =? MS_MPPE_Recv_Key) eqn:E1.
  { assert ((rd_id (ra_attr ra) =? MS_MPPE_Send_Key) = false) as E2
      by (zbool; rewrite E1; reflexivity). rewrite E2.
    destruct To as (o & Ho & Lo); [now rewrite orb_true_r|].
    pose proof (decrypt_mppe_key_safe secret req_buf ra o Lr Ho Lo).
    destruct (decrypt_mppe_key md5 secret req_buf ra); try done; eexists; (split; [reflexivity|done]). }
  destruct (rd_id (ra_attr ra) =? MS_MPPE_Send_Key) eqn:E2.
  { destruct To as (o & Ho & Lo); [now rewrite orb_true_r|].
    pose proof (decrypt_mppe_key_safe secret req_buf ra o Lr Ho Lo).
    destruct (decrypt_mppe_key md5 secret req_buf ra); try done; eexists; (split; [reflexivity|done]). }
  destruct (rd_id (ra_attr ra) =? MS_MPPE_Encryption_Policy).
  { unfold val_integer. destruct Ti as [->|[x ->]]; [done| |]; eexists; (split; [reflexivity|done]). }
  destruct (rd_id (ra_attr ra) =? MS_MPPE_Encryption_Type); [|eauto].
  unfold val_integer. destruct Ti as [->|[x ->]]; [done| |]; eexists; (split; [reflexivity|done]).
Qed.

Lemma setup_attrs_keys dict secret req_buf challenge attrs k1 k2 ev :
  (20 <= length req_buf)%nat -> Forall (mppe_typed dict) attrs ->
  Forall (fun a => ms_attr dict MS_CHAP_MPPE_Keys a = false) attrs ->
  Forall (fun a => ms_attr dict MS_MPPE_Recv_Key a = true -> decrypt_mppe_key md5 secret req_buf a = Ok k1) attrs ->
  Forall (fun a => ms_attr dict MS_MPPE_Send_Key a = true -> decrypt_mppe_key md5 secret req_buf a = Ok k2) attrs ->
  exists ev', setup_mppe_attrs md5 sha1 dict secret req_buf challenge ev attrs = Ok ev' /\
    (em_recv_key ev', em_recv_buf ev') =
      (if existsb (ms_attr dict MS_MPPE_Recv_Key) attrs then (Some mppe_recv_key, k1)
       else (em_recv_key ev, em_recv_buf ev)) /\
    (em_send_key ev', em_send_buf ev') =
      (if existsb (ms_attr dict MS_MPPE_Send_Key) attrs then (Some mppe_send_key, k2)
       else (em_send_key ev, em_send_buf ev)).
Proof using md5_length.
  intros Lr. revert ev. induction attrs as [|a attrs IH]; intros ev HT HC H1 H2; [eexists; now split|].
  apply Forall_cons in HT as [T HT], HC as [C HC], H1 as [D1 H1], H2 as [D2 H2].
  destruct (setup_attr_spec dict secret req_buf challenge ev a Lr T C) as (ev1 & E1 & R1 & S1).
  destruct (IH ev1 HT HC H1 H2) as (ev2 & E2 & R2 & S2'). exists ev2.
  cbn [setup_mppe_attrs existsb]. rewrite E1. cbn [mbind res_bind]. split; [done|].
  rewrite R1 in R2. rewrite S1 in S2'. split; [rewrite R2|rewrite S2'].
  - destruct (ms_attr dict MS_MPPE_Recv_Key a); [|done]. rewrite (D1 eq_refl). cbn.
    now destruct (existsb (ms_attr dict MS_MPPE_Recv_Key) attrs).
  - destruct (ms_attr dict MS_MPPE_Send_Key a); [|done]. rewrite (D2 eq_refl). cbn.
    now destruct (existsb (ms_attr dict MS_MPPE_Send_Key) attrs).
Qed.
End Md5.

(** ** Received datagrams *)
Lemma recv_len mem dict d pack :
  bytes_ok d -> rad_packet_recv mem dict d = Ok pack ->
  20 <= rp_len pack <= Z.of_nat (length d).
Proof.
  intros B H. unfold rad_packet_recv in H. destruct (negb mem); [done|].
  destruct (Z.of_nat (length d) <? 20) eqn:E; [done|].
  destruct (get _ 0) as [c| |]; cbn [mbind res_bind] in H; [|done..].
  destruct (get _ 1) as [i| |]; cbn [mbind res_bind] in H; [|done..].
  destruct (u_read_be16 _ 2) as [len| |]; cbn [mbind res_bind] in H; [|done..].
  destruct ((len <? 20) || (Z.of_nat (length d) <? len)) eqn:E2; [done|]. bools.
  destruct (recv_attrs _ _ _ _ _ _) as [attrs| |]; [|done..]. cbn in H. injection H as <-. cbn. lia.
Qed.

Lemma verify_spec md5 req_buf secret d pack dict RA :
  bytes_ok d -> rad_packet_recv true dict d = Ok pack -> slice 4 16 req_buf = Ok RA ->
  verify_response_authenticator md5 (Some req_buf) (Some secret) d (rp_len pack) =
  Ok (bool_decide (take 16 (drop 4 d) =
    md5 (take 4 d ++ RA ++ take (Z.to_nat (rp_len pack) - 20) (drop 20 d) ++ secret))).
Proof.
  intros B R HRA. destruct (recv_len _ _ _ _ B R) as [L1 L2].
  unfold verify_response_authenticator. rewrite (proj2 (Z.ltb_ge _ _) L1), HRA.
  rewrite !slice_ok by lia. cbn [mbind res_bind]. unfold mret, res_ret. rewrite drop_0.
  f_equal. apply bool_decide_ext. rewrite Z2Nat.inj_sub by lia. change (Z.to_nat 20) with 20%nat. split; congruence.
Qed.

(** ** Theorems *)

(** A password of any length is encrypted inside of its buffer into whole blocks, which
    are what the User-Password attribute of the request carries; a server with the same
    secret and the authenticator of the request gets back the password, filled up with
    zeros. *)
Theorem rad_pap_password md5 dict pack RA passwd secret :
  (forall m, length (md5 m) = 16%nat) -> length RA = 16%nat -> rp_secret pack = Some secret ->
  exists e, length e = (16 * blocks passwd)%nat /\
    rfc2865_decrypt md5 (blocks passwd) secret RA e
      = passwd ++ replicate (blocks passwd * 16 - length passwd) 0 /\
    rad_auth_pap md5 true dict pack RA passwd =
      match rad_packet_add_octets true dict pack None "User-Password" e with Some p => Ok p | None => Fail end.
Proof.
  intros Hm LR Hs. eexists. unfold rad_auth_pap. rewrite Hs, encrypt_password_spec by done.
  assert (length (passwd ++ replicate (blocks passwd * 16 - length passwd) 0) = (16 * blocks passwd)%nat).
  { rewrite length_app, length_replicate. unfold blocks.
    pose proof (Nat.div_mod_eq (length passwd + 15) 16). pose proof (Nat.mod_upper_bound (length passwd + 15) 16). lia. }
  split; [|split; [|done]]; [now apply length_rfc2865_encrypt | now apply rfc2865_decrypt_encrypt].
Qed.

(** An accounting request carries the authenticator of RFC 2866, the digest of the packet
    with 16 zeros in its place and of the secret, nothing else in the packet changes, and it
    is kept, with the secret, to check the response. *)
Theorem rad_acct_signed md5 dict buf pack secret :
  (forall m, length (md5 m) = 16%nat) -> len_ok pack -> Forall (ra_ok dict) (rp_attrs pack) ->
  Z.of_nat (length buf) = REQ_LENGTH_MAX ->
  let RA := md5 (packet_bytes dict pack (replicate 16 0) ++ secret) in
  exists buf' pack', rad_req_set_RA md5 true dict buf pack secret = Ok (buf', RA, pack') /\
    take (Z.to_nat (rp_len pack)) buf' = packet_bytes dict pack RA /\
    rp_secret pack' = Some secret /\ rp_attrs pack' = rp_attrs pack /\ rp_len pack' = rp_len pack.
Proof.
  intros Hm L F Hb RA. unfold rad_req_set_RA. cbn [negb].
  rewrite build_spec by (auto; rewrite length_replicate; lia).
  pose proof (packet_bytes_length dict pack (replicate 16 0) L F ltac:(rewrite length_replicate; lia)) as Hl.
  pose proof (lo_max _ L) as M. pose proof (lo_len _ L) as E. pose proof (attrs_size_nonneg _ (lo_attrs _ L)).
  rewrite splice_ok by (unfold REQ_LENGTH_MAX in *; lia).
  rewrite take_0. cbn [mbind res_bind app Nat.add]. rewrite slice_app_l' by lia. cbn [mbind res_bind]. fold RA.
  set (post := drop _ buf).
  set (h := [u8 (rp_code pack); u8 (rp_id pack)] ++ be_encode 2 (rp_len pack)).
  assert (P : forall ra, packet_bytes dict pack ra = h ++ take 16 ra ++ wires dict (rp_attrs pack))
    by (intros; unfold packet_bytes, h; now rewrite <- app_assoc).
  assert (HR : length RA = 16%nat) by apply Hm. assert (Lh : length h = 4%nat) by done.
  rewrite P in Hl |- *. rewrite <- app_assoc, <- app_assoc, splice_after by (rewrite ?HR; done).
  cbn [mbind res_bind]. rewrite (slice_at h RA (wires dict (rp_attrs pack) ++ post)) by done.
  cbn [mbind res_bind]. eexists _, _. split; [reflexivity|]. split; [|done].
  rewrite P, (take_ge RA), !app_assoc by lia. apply take_app_length'.
  rewrite !length_app in *. cbn [length take replicate] in Hl. lia.
Qed.

(** C25. Of the datagrams in the socket of a request the client takes the first with the
    identifier of the request and the response authenticator that only the secret gives; it
    skips well-formed others, stops at a malformed one, and never leaves a datagram. *)
Theorem rad_req_read_genuine md5 dict req_id req_buf secret RA socket pack rest :
  formats_ok dict -> Forall bytes_ok socket -> slice 4 16 req_buf = Ok RA ->
  let read := rad_req_read md5 true dict req_id (Some req_buf) (Some secret) socket in
  let seen d := take (Z.to_nat REQ_LENGTH_MAX) d in
  read <> Oob /\ read <> Fail /\
  (read = Ok (Some pack, rest) <->
   exists pre d, socket = pre ++ d :: rest /\ genuine md5 dict req_id RA secret (seen d) pack /\
     Forall (fun x => exists p, rad_packet_recv true dict (seen x) = Ok p /\
                      ~ genuine md5 dict req_id RA secret (seen x) p) pre).
Proof.
  intros Fo Hs HRA read seen. subst read. induction Hs as [|d socket B Hs IH].
  { split; [done|]. split; [done|]. split; [done|]. intros (pre & d & E & _). now destruct pre. }
  cbn [rad_req_read]. change (take (Z.to_nat REQ_LENGTH_MAX) d) with (seen d).
  assert (Bs : bytes_ok (seen d)) by now apply bytes_ok_take.
  clearbody seen.
  pose proof (rad_packet_recv_not_oob true dict (seen d) Fo Bs) as No.
  destruct (rad_packet_recv true dict (seen d)) as [p| |] eqn:R; [| |done].
  2: { split; [done|]. split; [done|]. split; [done|]. intros (pre & d' & E & G & F).
       destruct pre as [|x pre]; injection E as E1 E2; subst; [destruct G as [G _]; congruence|].
       apply Forall_cons in F as [(p & G' & _) _]. congruence. }
  assert (exists b, (if rp_id p =? req_id
               then verify_response_authenticator md5 (Some req_buf) (Some secret) (seen d) (rp_len p)
               else mret false) = Ok b /\ (b = true <-> genuine md5 dict req_id RA secret (seen d) p)) as (b & -> & G).
  { unfold genuine. destruct (rp_id p =? req_id) eqn:E; zbool; [|exists false; split; [done | now split; [|intros (_ & ? & _)]]].
    rewrite (verify_spec md5 req_buf secret (seen d) p dict RA) by done.
    eexists. split; [reflexivity|]. rewrite bool_decide_eq_true. tauto. }
  cbn [mbind res_bind]. destruct b; [apply proj1 in G; specialize (G eq_refl)
    | assert (~ genuine md5 dict req_id RA secret (seen d) p) as NG by (intros X%G; done)]; cbn [negb].
  - split; [done|]. split; [done|]. split.
    + intros [= <- <-]. exists [], d. now repeat split; auto; try apply G.
    + intros (pre & d' & E & G' & F). destruct pre as [|x pre]; injection E as E1 E2; subst.
      * destruct G' as [G' _]. now replace pack with p by congruence.
      * apply Forall_cons in F as [(q & Q & NQ) _]. exfalso. apply NQ. now replace q with p by congruence.
  - destruct IH as (I1 & I2 & I3). split; [done|]. split; [done|]. rewrite I3. split.
    + intros (pre & d' & -> & G' & F). exists (d :: pre), d'. split; [done|]. split; [done|].
      apply Forall_cons. eauto.
    + intros (pre & d' & E & G' & F). destruct pre as [|x pre]; injection E as E1 E2; subst.
      * exfalso. apply NG. destruct G' as [G1 G2]. replace p with pack by congruence. now split.
      * apply Forall_cons in F as [_ F]. eauto.
Qed.

(** C34. The keys for MPPE in an Access-Accept, encrypted by the server as RFC 2548 says, are
    the ones the PPP layer gets, whatever other attributes the reply has, as long as it has
    no MS-CHAP-MPPE-Keys. *)
Theorem setup_mppe_keys md5 sha1 dict secret req_buf challenge stack reply RA s1 k1 s2 k2 :
  (forall m, length (md5 m) = 16%nat) -> slice 4 16 req_buf = Ok RA ->
  Forall (mppe_typed dict) (rp_attrs reply) ->
  existsb (ms_attr dict MS_CHAP_MPPE_Keys) (rp_attrs reply) = false ->
  existsb (ms_attr dict MS_MPPE_Recv_Key) (rp_attrs reply) = true ->
  existsb (ms_attr dict MS_MPPE_Send_Key) (rp_attrs reply) = true ->
  length k1 = 16%nat -> length k2 = 16%nat -> length s1 = 2%nat -> length s2 = 2%nat ->
  Z.land (s1 !!! 0%nat) 128 <> 0 -> Z.land (s2 !!! 0%nat) 128 <> 0 ->
  Forall (fun a => ms_attr dict MS_MPPE_Recv_Key a = true -> ra_val a = RPtr (rfc2548_key md5 secret RA s1 k1))
    (rp_attrs reply) ->
  Forall (fun a => ms_attr dict MS_MPPE_Send_Key a = true -> ra_val a = RPtr (rfc2548_key md5 secret RA s2 k2))
    (rp_attrs reply) ->
  exists policy type,
    setup_mppe md5 sha1 dict true (Some secret) req_buf challenge stack reply = Ok (Some (k1, k2, policy, type)).
Proof.
  intros Hm HRA T HC HR HS L1 L2 Ls1 Ls2 B1 B2 V1 V2. unfold setup_mppe. cbn [negb].
  assert (Lr : (20 <= length req_buf)%nat) by (revert HRA; unfold slice; case_decide; [lia|done]).
  assert (D : forall id s k, id = MS_MPPE_Recv_Key \/ id = MS_MPPE_Send_Key ->
    length s = 2%nat -> length k = 16%nat -> Z.land (s !!! 0%nat) 128 <> 0 ->
    Forall (fun a => ms_attr dict id a = true -> ra_val a = RPtr (rfc2548_key md5 secret RA s k)) (rp_attrs reply) ->
    Forall (fun a => ms_attr dict id a = true -> decrypt_mppe_key md5 (Some secret) req_buf a = Ok k) (rp_attrs reply)).
  { intros id s k Hid Ls Lk B V. apply Forall_forall. intros a Ha Hi.
    apply (decrypt_mppe_key_spec md5 Hm secret req_buf a RA s k); auto; [|eapply Forall_forall in V; eauto].
    destruct (proj1 (Forall_forall _ _) T a Ha) as [_ To _].
    destruct To as (o & Ho & ->); [destruct Hid as [<- | <-]; rewrite Hi, ?orb_true_r; done|].
    eapply Forall_forall in V; [|done]. rewrite (V Hi) in Ho. injection Ho as <-.
    unfold rfc2548_key. rewrite length_app, (length_rfc2865_encrypt md5 Hm); [lia|].
    cbn [length]. rewrite length_app, length_replicate. lia. }
  destruct (setup_attrs_keys md5 Hm sha1 dict (Some secret) req_buf challenge (rp_attrs reply) k1 k2
              (mk_ev_mppe (fst stack) (snd stack) None None 0 0) Lr T) as (ev & -> & R & S).
  { apply Forall_forall. intros a Ha. apply not_true_is_false. intros Hx.
    enough (existsb (ms_attr dict MS_CHAP_MPPE_Keys) (rp_attrs reply) = true) by congruence.
    apply existsb_exists. exists a. split; [now apply list_elem_of_In|done]. }
  { now apply (D MS_MPPE_Recv_Key s1 k1); auto. }
  { now apply (D MS_MPPE_Send_Key s2 k2); auto. }
  rewrite HR in R. rewrite HS in S. injection R as R1 R2. injection S as S1 S2'.
  cbn [mbind res_bind]. rewrite R1, S1. cbn. rewrite R2, S2'. eauto.
Qed.

(** After MS-CHAPv2 the challenge is NULL: an MS-CHAP-MPPE-Keys of 32 bytes is then
    decrypted with bytes read through that pointer. *)
Theorem mschap_v2_keys_null md5 sha1 dict secret req_buf stack reply a o :
  (forall m, length (md5 m) = 16%nat) -> (forall m, length (sha1 m) = 20%nat) -> (20 <= length req_buf)%nat ->
  rp_attrs reply = [a] -> ms_attr dict MS_CHAP_MPPE_Keys a = true ->
  ra_val a = RPtr o -> length o = 32%nat -> ra_len a = 32 ->
  setup_mppe md5 sha1 dict true (Some secret) req_buf [] stack reply = Oob.
Proof.
  intros Hm Hsha Lr Ha Hid Hv Lo Hl. unfold setup_mppe. rewrite Ha. cbn [negb setup_mppe_attrs].
  unfold setup_mppe_attr, ms_attr in *. destruct (ra_vendor a) as [i|]; [|done].
  destruct (d_vendors dict !! i) as [v|]; [|done]. cbn [res_of_option mbind res_bind].
  apply andb_true_iff in Hid as [-> ->]. cbn [negb].
  assert (decrypt_chap_mppe_keys md5 sha1 (Some secret) req_buf a [] = Oob) as ->; [|done].
  apply (decrypt_chap_oob md5 Hm sha1 Hsha secret req_buf a [] o); auto; [lia|]. cbn. lia.
Qed.

(** ** Witnesses *)
Lemma some_md5_length m : length (some_md5 m) = 16%nat.
Proof. unfold some_md5. rewrite length_take, length_app, length_replicate. lia. Qed.

Lemma rad_pap_password_witness :
  exists e, length e = (16 * blocks some_password)%nat /\
    rfc2865_decrypt some_md5 (blocks some_password) [115; 51] some_authenticator e
      = some_password ++ replicate (blocks some_password * 16 - length some_password) 0 /\
    rad_auth_pap some_md5 true pap_dict some_signed some_authenticator some_password =
      match rad_packet_add_octets true pap_dict some_signed None "User-Password" e with
      | Some p => Ok p | None => Fail end.
Proof.
  exact (rad_pap_password some_md5 pap_dict some_signed some_authenticator some_password [115; 51]
           some_md5_length eq_refl eq_refl).
Defined.

Lemma rad_acct_signed_witness :
  exists buf' pack',
    rad_req_set_RA some_md5 true some_rad_dict (replicate 4096 0) (mk_rpack false None 4 7 20 []) [115; 51]
      = Ok (buf', some_md5 (packet_bytes some_rad_dict (mk_rpack false None 4 7 20 []) (replicate 16 0) ++ [115; 51]),
            pack') /\
    take (Z.to_nat 20) buf' = packet_bytes some_rad_dict (mk_rpack false None 4 7 20 [])
      (some_md5 (packet_bytes some_rad_dict (mk_rpack false None 4 7 20 []) (replicate 16 0) ++ [115; 51])) /\
    rp_secret pack' = Some [115; 51] /\ rp_attrs pack' = [] /\ rp_len pack' = 20.
Proof.
  apply (rad_acct_signed some_md5 some_rad_dict (replicate 4096 0) (mk_rpack false None 4 7 20 []) [115; 51]).
  - exact some_md5_length.
  - split; [done | done | apply Forall_nil_2].
  - apply Forall_nil_2.
  - now rewrite length_replicate.
Defined.

Lemma rad_req_read_genuine_witness :
  rad_req_read some_md5 true some_rad_dict 9 (Some some_request) (Some [115; 51]) [forged_response; some_response]
  = Ok (Some (mk_rpack false None 2 9 20 []), []).
Proof.
  apply (rad_req_read_genuine some_md5 some_rad_dict 9 some_request [115; 51] some_authenticator
           [forged_response; some_response] (mk_rpack false None 2 9 20 []) []).
  - exact some_formats_ok.
  - apply Forall_cons. split; [bytes_lit|]. apply Forall_singleton. bytes_lit.
  - reflexivity.
  - exists [forged_response], some_response. split; [done|]. split; [now split; [|split]|].
    apply Forall_singleton. exists (mk_rpack false None 2 9 20 []). split; [reflexivity|].
    intros (_ & _ & H). discriminate H.
Defined.

Lemma some_accept_typed : Forall (mppe_typed some_rad_dict) (rp_attrs some_accept).
Proof.
  repeat (apply Forall_cons; split); [| | |apply Forall_nil_2]; split; cbn; intros; simplify_eq; eauto; try done.
  all: eexists; now split.
Qed.

Lemma setup_mppe_keys_witness :
  exists policy type,
    setup_mppe some_md5 some_sha1 some_rad_dict true (Some [115; 51]) some_request [] ([], []) some_accept
    = Ok (Some (replicate 16 5, replicate 16 3, policy, type)).
Proof.
  apply (setup_mppe_keys some_md5 some_sha1 some_rad_dict [115; 51] some_request [] ([], []) some_accept
           some_authenticator [128; 7] (replicate 16 5) [129; 1] (replicate 16 3)); try done.
  - exact some_md5_length.
  - exact some_accept_typed.
  - repeat (apply Forall_cons; split); [| | |apply Forall_nil_2]; intros; [done..|]; reflexivity.
  - repeat (apply Forall_cons; split); [| | |apply Forall_nil_2]; intros; [reflexivity|done..].
Defined.
