(* ===== verification/RadiusServ.v ===== *)
(** * RADIUS servers and requests (accel-pppd/radius/serv.c, req.c)

    How the client picks a server for a request, keeps at most req-limit requests on
    their way to a server and the others in queues, gives up on a server that does not
    answer and tries the next.

    Servers and requests are objects of a heap, named by numbers that are never used
    again: using a freed one, and a failed assert, is [Oob].  A list head in a request
    is the flag [rq_queued] together with its place in a queue of its server.  The
    callbacks of a request are those of its kind.  A context has a queue of calls, the
    pending ones of all contexts are [w_calls], the oldest first.  [env] is what a handler
    finds: the time, for which servers a socket can be made, whether memory is left.

    Counts times weights are taken not to leave an int.  Servers with acct-on=1 send
    Accounting-On and Off; that is left out, as are the statistics. *)
From stdpp Require Import gmap.
From S2P Require Import Prelude.

Definition RAD_SERV_AUTH : Z := 0.
Definition RAD_SERV_ACCT : Z := 1.

(** The callbacks a request has: of Access-Request, Accounting Start, Interim-Update, Stop. *)
Inductive rad_kind : Type := KAuth | KStart | KInterim | KStop.
#[export] Instance rad_kind_eq_dec : EqDecision rad_kind.
Proof. solve_decision. Defined.

Record rad_server_t : Type := mk_server {
  rs_addr : Z;
  rs_auth_port : Z;
  rs_acct_port : Z;
  rs_req_limit : Z;
  rs_req_cnt : Z;
  rs_queue_cnt : Z;
  rs_fail_timeout : Z;
  rs_max_fail : Z;
  rs_queue0 : list nat;
  rs_queue1 : list nat;
  rs_clients0 : Z;
  rs_clients1 : Z;
  rs_fail_time : Z;
  rs_timeout_cnt : Z;
  rs_weight : Z;
  rs_backup : Z;
  rs_need_free : bool
}.

(** [rq_md]: the handler of the socket is registered, and waits for data; [rq_timer]: the
    timer is registered, and runs; [rq_rpd]: the session. *)
Record rad_req_t : Type := mk_req {
  rq_serv : nat;
  rq_type : Z;
  rq_prio : bool;
  rq_try : Z;
  rq_active : bool;
  rq_queued : bool;
  rq_fd : bool;
  rq_md : option bool;
  rq_timer : option bool;
  rq_rpd : option nat;
  rq_kind : rad_kind;
  rq_ts : Z
}.

(** Functions called in a context, with their request. *)
Inductive rad_func : Type := req_wakeup_f | req_wakeup_failed_f | start_deferred_f.
#[export] Instance rad_func_eq_dec : EqDecision rad_func.
Proof. solve_decision. Defined.

(** The context of a session, or the default context. *)
Record rad_call : Type := mk_call { rc_ctx : option nat; rc_func : rad_func; rc_req : nat }.

(** The RADIUS part of a session. *)
Record radius_pd_t : Type := mk_pd {
  pd_auth : option nat;
  pd_acct : option nat;
  pd_acct_started : bool;
  pd_interim : Z;
  pd_interim_timer : bool
}.

(** What leaves the client: a packet sent, and calls into sessions. *)
Inductive rad_out : Type :=
| OSent (req serv : nat)
| OAuthResult (ses : nat) (ok : bool)
| OAcctStarted (ses : nat)
| OTerminate (ses : nat).

Record world : Type := mk_world {
  w_list : list nat;
  w_serv : gmap nat rad_server_t;
  w_req : gmap nat rad_req_t;
  w_ses : gmap nat radius_pd_t;
  w_calls : list rad_call;
  w_next : nat;
  w_out : list rad_out
}.

Record env : Type := mk_env {
  e_now : Z;
  e_sock : nat -> bool;
  e_mem : bool;
  e_max_try : Z;
  e_acct_timeout : Z;
  e_interim : Z;
  e_shutdown : bool
}.

(** ** Fields *)
Definition set_clients (s : rad_server_t) (c0 c1 : Z) : rad_server_t :=
  mk_server (rs_addr s) (rs_auth_port s) (rs_acct_port s) (rs_req_limit s) (rs_req_cnt s) (rs_queue_cnt s)
    (rs_fail_timeout s) (rs_max_fail s) (rs_queue0 s) (rs_queue1 s) c0 c1 (rs_fail_time s) (rs_timeout_cnt s)
    (rs_weight s) (rs_backup s) (rs_need_free s).
(** The fields under [s->lock]. *)
Definition set_window (s : rad_server_t) (req_cnt queue_cnt : Z) (q0 q1 : list nat) : rad_server_t :=
  mk_server (rs_addr s) (rs_auth_port s) (rs_acct_port s) (rs_req_limit s) req_cnt queue_cnt
    (rs_fail_timeout s) (rs_max_fail s) q0 q1 (rs_clients0 s) (rs_clients1 s) (rs_fail_time s) (rs_timeout_cnt s)
    (rs_weight s) (rs_backup s) (rs_need_free s).
Definition set_fail (s : rad_server_t) (fail_time timeout_cnt : Z) : rad_server_t :=
  mk_server (rs_addr s) (rs_auth_port s) (rs_acct_port s) (rs_req_limit s) (rs_req_cnt s) (rs_queue_cnt s)
    (rs_fail_timeout s) (rs_max_fail s) (rs_queue0 s) (rs_queue1 s) (rs_clients0 s) (rs_clients1 s)
    fail_time timeout_cnt (rs_weight s) (rs_backup s) (rs_need_free s).
Definition set_need_free (s : rad_server_t) (b : bool) : rad_server_t :=
  mk_server (rs_addr s) (rs_auth_port s) (rs_acct_port s) (rs_req_limit s) (rs_req_cnt s) (rs_queue_cnt s)
    (rs_fail_timeout s) (rs_max_fail s) (rs_queue0 s) (rs_queue1 s) (rs_clients0 s) (rs_clients1 s)
    (rs_fail_time s) (rs_timeout_cnt s) (rs_weight s) (rs_backup s) b.

Definition set_try (r : rad_req_t) (t : Z) : rad_req_t :=
  mk_req (rq_serv r) (rq_type r) (rq_prio r) t (rq_active r) (rq_queued r) (rq_fd r) (rq_md r) (rq_timer r)
    (rq_rpd r) (rq_kind r) (rq_ts r).
Definition set_slot (r : rad_req_t) (active queued : bool) : rad_req_t :=
  mk_req (rq_serv r) (rq_type r) (rq_prio r) (rq_try r) active queued (rq_fd r) (rq_md r) (rq_timer r)
    (rq_rpd r) (rq_kind r) (rq_ts r).
Definition set_io (r : rad_req_t) (fd : bool) (md timer : option bool) : rad_req_t :=
  mk_req (rq_serv r) (rq_type r) (rq_prio r) (rq_try r) (rq_active r) (rq_queued r) fd md timer
    (rq_rpd r) (rq_kind r) (rq_ts r).
Definition set_serv (r : rad_req_t) (s : nat) : rad_req_t :=
  mk_req s (rq_type r) (rq_prio r) (rq_try r) (rq_active r) (rq_queued r) (rq_fd r) (rq_md r) (rq_timer r)
    (rq_rpd r) (rq_kind r) (rq_ts r).
Definition set_kind (r : rad_req_t) (prio : bool) (k : rad_kind) : rad_req_t :=
  mk_req (rq_serv r) (rq_type r) prio (rq_try r) (rq_active r) (rq_queued r) (rq_fd r) (rq_md r) (rq_timer r)
    (rq_rpd r) k (rq_ts r).
Definition set_rpd (r : rad_req_t) (p : option nat) : rad_req_t :=
  mk_req (rq_serv r) (rq_type r) (rq_prio r) (rq_try r) (rq_active r) (rq_queued r) (rq_fd r) (rq_md r) (rq_timer r)
    p (rq_kind r) (rq_ts r).
Definition set_ts (r : rad_req_t) (ts : Z) : rad_req_t :=
  mk_req (rq_serv r) (rq_type r) (rq_prio r) (rq_try r) (rq_active r) (rq_queued r) (rq_fd r) (rq_md r) (rq_timer r)
    (rq_rpd r) (rq_kind r) ts.

Definition with_serv (w : world) (m : gmap nat rad_server_t) : world :=
  mk_world (w_list w) m (w_req w) (w_ses w) (w_calls w) (w_next w) (w_out w).
Definition with_req (w : world) (m : gmap nat rad_req_t) : world :=
  mk_world (w_list w) (w_serv w) m (w_ses w) (w_calls w) (w_next w) (w_out w).
Definition with_ses (w : world) (m : gmap nat radius_pd_t) : world :=
  mk_world (w_list w) (w_serv w) (w_req w) m (w_calls w) (w_next w) (w_out w).
Definition with_calls (w : world) (c : list rad_call) : world :=
  mk_world (w_list w) (w_serv w) (w_req w) (w_ses w) c (w_next w) (w_out w).
Definition emit (w : world) (o : rad_out) : world :=
  mk_world (w_list w) (w_serv w) (w_req w) (w_ses w) (w_calls w) (w_next w) (w_out w ++ [o]).

(** Access to an object of the heap. *)
Definition serv_at (w : world) (s : nat) : res rad_server_t := res_of_option (w_serv w !! s).
Definition req_at (w : world) (r : nat) : res rad_req_t := res_of_option (w_req w !! r).
Definition put_serv (w : world) (s : nat) (x : rad_server_t) : world := with_serv w (<[s := x]> (w_serv w)).
Definition put_req (w : world) (r : nat) (x : rad_req_t) : world := with_req w (<[r := x]> (w_req w)).

(** [triton_context_call], [triton_cancel_call] *)
Definition context_call (w : world) (ctx : option nat) (f : rad_func) (r : nat) : world :=
  with_calls w (w_calls w ++ [mk_call ctx f r]).
Definition cancel_call (w : world) (ctx : option nat) (f : rad_func) : world :=
  with_calls w (filter (fun c => ~ (rc_ctx c = ctx /\ rc_func c = f)) (w_calls w)).

(** ** Choice of a server *)

(** [s] may serve requests of [type] now. *)
Definition usable (now type : Z) (s : rad_server_t) : bool :=
  negb (negb (rs_fail_time s =? 0) && (now <? rs_fail_time s))
  && negb ((type =? RAD_SERV_AUTH) && (rs_auth_port s =? 0))
  && negb ((type =? RAD_SERV_ACCT) && (rs_acct_port s =? 0)).

Definition clients (s : rad_server_t) : Z := rs_clients0 s + rs_clients1 s.

(** The condition under which [s] replaces [s0]. *)
Definition better (s s0 : rad_server_t) : bool :=
  (rs_backup s <? rs_backup s0)
  || ((rs_backup s =? rs_backup s0) && (clients s * rs_weight s0 <? clients s0 * rs_weight s)).

(** [s] is the server at the address asked for, with the port or as the first. *)
Definition matches (type addr port : Z) (s : rad_server_t) (s1 : option nat) : bool :=
  (rs_addr s =? addr)
  && (((type =? RAD_SERV_AUTH) && (port =? rs_auth_port s)) || ((type =? RAD_SERV_ACCT) && (port =? rs_acct_port s))
      || negb (isset s1)).

(** The loop of [__rad_server_get]: [s0] and [s1]. *)
Fixpoint get_server_loop (w : world) (now type : Z) (exclude : option nat) (addr port : Z)
    (l : list nat) (s0 s1 : option nat) : res (option nat * option nat) :=
  match l with
  | [] => mret (s0, s1)
  | i :: l' =>
      if bool_decide (exclude = Some i) then get_server_loop w now type exclude addr port l' s0 s1
      else
        s ← serv_at w i;
        if negb (usable now type s) then get_server_loop w now type exclude addr port l' s0 s1
        else
          let s1 := if matches type addr port s s1 then Some i else s1 in
          match s0 with
          | None => get_server_loop w now type exclude addr port l' (Some i) s1
          | Some j =>
              x ← serv_at w j;
              get_server_loop w now type exclude addr port l' (Some (if better s x then i else j)) s1
          end
  end.

Definition add_client (s : rad_server_t) (type d : Z) : rad_server_t :=
  if type =? RAD_SERV_AUTH then set_clients s (rs_clients0 s + d) (rs_clients1 s)
  else set_clients s (rs_clients0 s) (rs_clients1 s + d).

(** [__rad_server_get] *)
Definition __rad_server_get (w : world) (e : env) (type : Z) (exclude : option nat) (addr port : Z)
  : res (world * option nat) :=
  p ← get_server_loop w (e_now e) type exclude addr port (w_list w) None None;
  match (match snd p with Some s1 => Some s1 | None => fst p end) with
  | None => mret (w, None)
  | Some i => s ← serv_at w i; mret (put_serv w i (add_client s type 1), Some i)
  end.

Definition rad_server_get (w : world) (e : env) (type : Z) : res (world * option nat) :=
  __rad_server_get w e type None 0 0.

(** [__free_server] *)
Definition __free_server (w : world) (i : nat) : world := with_serv w (delete i (w_serv w)).

(** [rad_server_put]: also whether the server is still there. *)
Definition rad_server_put (w : world) (i : nat) (type : Z) : res (world * bool) :=
  s ← serv_at w i;
  let s := add_client s type (-1) in
  let w := put_serv w i s in
  if rs_need_free s && (rs_clients0 s =? 0) && (rs_clients1 s =? 0) then mret (__free_server w i, false)
  else mret (w, true).

(** ** The window of a server *)

(** Take the requests of [l] off their queue and call [f] in their contexts. *)
Fixpoint wake_all (w : world) (f : rad_func) (l : list nat) : res world :=
  match l with
  | [] => mret w
  | r :: l' =>
      q ← req_at w r;
      let w := put_req w r (set_slot q (rq_active q) false) in
      wake_all (context_call w (rq_rpd q) f r) f l'
  end.

(** [rad_server_fail] *)
Definition rad_server_fail (w : world) (e : env) (i : nat) : res world :=
  s ← serv_at w i;
  let s := if rs_fail_time s <=? e_now e then set_fail s (e_now e + rs_fail_timeout s) (rs_timeout_cnt s) else s in
  w ← wake_all w req_wakeup_failed_f (rs_queue0 s);
  w ← wake_all w req_wakeup_failed_f (rs_queue1 s);
  mret (put_serv w i (set_window s (rs_req_cnt s) 0 [] [])).

(** [rad_server_timeout] *)
Definition rad_server_timeout (w : world) (e : env) (i : nat) : res world :=
  s ← serv_at w i;
  if rs_fail_timeout s =? 0 then mret w
  else
    let s := set_fail s (rs_fail_time s) (rs_timeout_cnt s + 1) in
    let w := put_serv w i s in
    if rs_max_fail s <=? rs_timeout_cnt s then rad_server_fail w e i else mret w.

(** [rad_server_reply] *)
Definition rad_server_reply (w : world) (i : nat) : res world :=
  s ← serv_at w i;
  mret (put_serv w i (set_fail s (rs_fail_time s) 0)).

(** The first of the request queues that is not empty loses its head. *)
Definition pop (s : rad_server_t) : option (nat * list nat * list nat) :=
  match rs_queue0 s, rs_queue1 s with
  | r :: q0, q1 => Some (r, q0, q1)
  | [], r :: q1 => Some (r, [], q1)
  | [], [] => None
  end.

(** [rad_server_req_exit] *)
Definition rad_server_req_exit (w : world) (r : nat) : res world :=
  q ← req_at w r;
  s ← serv_at w (rq_serv q);
  if rs_req_limit s =? 0 then mret w
  else if negb (rq_active q) then Oob
  else
    let w := put_req w r (set_slot q false (rq_queued q)) in
    let cnt := rs_req_cnt s - 1 in
    if cnt <? 0 then Oob
    else
      match (if cnt <? rs_req_limit s then pop s else None) with
      | None => mret (put_serv w (rq_serv q) (set_window s cnt (rs_queue_cnt s) (rs_queue0 s) (rs_queue1 s)))
      | Some (n, q0, q1) =>
          x ← req_at w n;
          let w := put_req w n (set_slot x true false) in
          let w := put_serv w (rq_serv q) (set_window s (cnt + 1) (rs_queue_cnt s - 1) q0 q1) in
          mret (context_call w (rq_rpd x) req_wakeup_f n)
      end.

(** [triton_md_unregister_handler], [triton_timer_del] need a registered one. *)
Definition md_unregister (q : rad_req_t) (close : bool) : res rad_req_t :=
  match rq_md q with
  | None => Oob
  | Some _ => mret (set_io q (if close then false else rq_fd q) None (rq_timer q))
  end.
Definition timer_del (q : rad_req_t) : res rad_req_t :=
  match rq_timer q with
  | None => Oob
  | Some _ => mret (set_io q (rq_fd q) (rq_md q) None)
  end.

(** [rad_server_req_cancel] *)
Definition rad_server_req_cancel (w : world) (r : nat) (full : bool) : res world :=
  q ← req_at w r;
  w ← (if rq_queued q then
         s ← serv_at w (rq_serv q);
         let keep := filter (fun x => x <> r) in
         let s := set_window s (rs_req_cnt s) (rs_queue_cnt s - 1) (keep (rs_queue0 s)) (keep (rs_queue1 s)) in
         mret (put_serv (put_req w r (set_slot q (rq_active q) false)) (rq_serv q) s)
       else mret w);
  let w := cancel_call w (rq_rpd q) req_wakeup_f in
  if negb full then mret w
  else
    w ← (if rq_active q then rad_server_req_exit w r else mret w);
    q ← req_at w r;
    mret (put_req w r (set_io q (rq_fd q) None None)).

(** ** Freeing *)

(** [rad_req_free] *)
Definition rad_req_free (w : world) (r : nat) : res world :=
  q ← req_at w r;
  if rq_active q || rq_queued q then Oob
  else
    p ← rad_server_put w (rq_serv q) (rq_type q);
    mret (with_req (fst p) (delete r (w_req (fst p)))).

(** ** Callbacks of a request after it was sent *)

(** [rad_acct_stop_defer]: the request is a Stop already, with its callbacks. *)
Definition rad_acct_stop_defer (w : world) (ses r : nat) : res world :=
  w ← rad_server_req_cancel w r true;
  q ← req_at w r;
  pd ← res_of_option (w_ses w !! ses);
  let w := with_ses w (<[ses := mk_pd (pd_auth pd) None (pd_acct_started pd) (pd_interim pd) (pd_interim_timer pd)]> (w_ses w)) in
  let w := put_req w r (set_rpd q None) in
  mret (context_call w None start_deferred_f r).

(** [rad_auth_finalize]: the callback gets the result, the request ends. *)
Definition rad_auth_finalize (w : world) (ses : nat) (ok : bool) : res world :=
  let w := emit w (OAuthResult ses ok) in
  pd ← res_of_option (w_ses w !! ses);
  match pd_auth pd with
  | None => mret w
  | Some r =>
      w ← rad_req_free w r;
      mret (with_ses w (<[ses := mk_pd None (pd_acct pd) (pd_acct_started pd) (pd_interim pd) (pd_interim_timer pd)]> (w_ses w)))
  end.

(** [req->rpd->ses] *)
Definition session_of (q : rad_req_t) : res nat := res_of_option (rq_rpd q).

(** [rpd->acct_req = NULL] when there is a session *)
Definition forget_acct (w : world) (p : option nat) : res world :=
  match p with
  | None => mret w
  | Some ses =>
      pd ← res_of_option (w_ses w !! ses);
      mret (with_ses w (<[ses := mk_pd (pd_auth pd) None (pd_acct_started pd) (pd_interim pd) (pd_interim_timer pd)]> (w_ses w)))
  end.

(** The callbacks [sent] for a request that could not be sent: of Access-Request, *)
Definition rad_auth_sent_failed (w : world) (q : rad_req_t) : res world :=
  ses ← session_of q; rad_auth_finalize w ses false.
(** of Accounting Start, *)
Definition rad_acct_start_sent_failed (w : world) (q : rad_req_t) : res world :=
  ses ← session_of q; mret (emit w (OTerminate ses)).
(** of Stop. *)
Definition rad_acct_stop_sent_failed (w : world) (e : env) (r : nat) (q : rad_req_t) : res world :=
  if e_shutdown e then
    w ← rad_req_free w r; forget_acct w (rq_rpd q)
  else match rq_rpd q with
       | Some ses => rad_acct_stop_defer w ses r
       | None => mret (put_req w r (set_io q (rq_fd q) (rq_md q) (Some true)))
       end.

(** [req->sent(req, -1)] *)
Definition sent_failed (w : world) (e : env) (r : nat) : res world :=
  q ← req_at w r;
  match rq_kind q with
  | KAuth => rad_auth_sent_failed w q
  | KStart => rad_acct_start_sent_failed w q
  | KInterim => mret w
  | KStop => rad_acct_stop_sent_failed w e r q
  end.

(** [req->sent(req, 0)], the same for all kinds: wait for data and start the timer *)
Definition sent_ok (w : world) (r : nat) (q : rad_req_t) : world :=
  emit (put_req w r (set_io q (rq_fd q) (Some true) (Some true))) (OSent r (rq_serv q)).

(** ** Sending *)

(** [__rad_req_send] for [async] 0 and 1.  Signing and building the packet fail only
    without memory. *)
Definition send_now (w : world) (e : env) (r : nat) (async : bool) : res (world * Z) :=
  q ← req_at w r;
  if negb (rq_fd q) && negb (e_sock e (rq_serv q)) then mret (w, -2)
  else
    let q := set_io q true (rq_md q) (rq_timer q) in
    if negb (e_mem e) then
      let w := put_req w r (set_io q false None (rq_timer q)) in
      w ← (if async then sent_failed w e r else mret w);
      mret (w, -1)
    else mret (sent_ok w r q, 0).

(** [rad_server_req_enter] *)
Definition rad_server_req_enter (w : world) (e : env) (r : nat) : res (world * Z) :=
  q ← req_at w r;
  let i := rq_serv q in
  s ← serv_at w i;
  if rs_need_free s then mret (w, -1)
  else if e_now e <? rs_fail_time s then mret (w, -1)
  else if rs_req_limit s =? 0 then send_now w e r false
  else if rq_active q || rq_queued q then Oob
  else if rs_req_limit s <=? rs_req_cnt s then
    let s' := if rq_prio q then set_window s (rs_req_cnt s) (rs_queue_cnt s + 1) (rs_queue0 s) (rs_queue1 s ++ [r])
              else set_window s (rs_req_cnt s) (rs_queue_cnt s + 1) (rs_queue0 s ++ [r]) (rs_queue1 s) in
    let q' := set_io (set_slot q (rq_active q) true) (rq_fd q)
                (match rq_md q with Some _ => Some false | None => None end) (rq_timer q) in
    mret (put_req (put_serv w i s') r q', 0)
  else
    let w := put_serv w i (set_window s (rs_req_cnt s + 1) (rs_queue_cnt s) (rs_queue0 s) (rs_queue1 s)) in
    let w := put_req w r (set_slot q true (rq_queued q)) in
    x ← send_now w e r false;
    let '(w, c) := x in
    if c =? 0 then mret (w, c)
    else if c =? -2 then
      q ← req_at w r;
      s ← serv_at w i;
      let w := put_req w r (set_slot q false (rq_queued q)) in
      let w := put_serv w i (set_window s (rs_req_cnt s - 1) (rs_queue_cnt s) (rs_queue0 s) (rs_queue1 s)) in
      w ← rad_server_fail w e i;
      mret (w, c)
    else
      w ← rad_server_req_exit w r;
      mret (w, c).

(** [rad_server_realloc]: whether there is another server. *)
Definition rad_server_realloc (w : world) (e : env) (r : nat) : res (world * bool) :=
  q ← req_at w r;
  p ← __rad_server_get w e (rq_type q) (Some (rq_serv q)) 0 0;
  let '(w, o) := p in
  match o with
  | None => mret (w, false)
  | Some i =>
      if negb (e_mem e) then p ← rad_server_put w i (rq_type q); mret (fst p, false)
      else
        p ← rad_server_put w (rq_serv q) (rq_type q);
        let q := set_serv q i in
        let q := if rq_fd q then set_io q false None (rq_timer q) else q in
        mret (put_req (fst p) r q, true)
  end.

(** The loop of [rad_req_send] over the servers; [Fail] is that it does not end within [fuel]. *)
Fixpoint enter_loop (fuel : nat) (w : world) (e : env) (r : nat) : res (world * Z) :=
  match fuel with
  | O => Fail
  | S fuel' =>
      x ← rad_server_req_enter w e r;
      let '(w, c) := x in
      if 0 <=? c then mret (w, c)
      else
        y ← rad_server_realloc w e r;
        let '(w, ok) := y in
        if negb ok then mret (w, -1) else enter_loop fuel' w e r
  end.

(** [rad_req_send] *)
Definition rad_req_send (fuel : nat) (w : world) (e : env) (r : nat) : res (world * Z) :=
  q ← req_at w r;
  let full := rq_try q =? e_max_try e in
  let w := put_req w r (set_try q (rq_try q + 1)) in
  x ← (if full then
         w ← (if rq_active q then rad_server_req_exit w r else mret w);
         y ← rad_server_realloc w e r;
         let '(w, ok) := y in
         if negb ok then mret (w, true)
         else q ← req_at w r; mret (put_req w r (set_try q 1), false)
       else mret (w, false));
  let '(w, failed) := (x : world * bool) in
  if failed then mret (w, -1)
  else
    q ← req_at w r;
    if negb (rq_active q) then enter_loop fuel w e r else send_now w e r false.

(** [__rad_req_send] with [async] -1 *)
Definition send_failover (fuel : nat) (w : world) (e : env) (r : nat) : res world :=
  q ← req_at w r;
  let w := if rq_active q then put_req w r (set_try q (e_max_try e)) else w in
  x ← rad_req_send fuel w e r;
  let '(w, c) := x in
  if c =? 0 then mret w else sent_failed w e r.

(** [req_wakeup] *)
Definition req_wakeup (fuel : nat) (w : world) (e : env) (r : nat) : res world :=
  q ← req_at w r;
  if negb (rq_active q) then mret w
  else
    let i := rq_serv q in
    s ← serv_at w i;
    let leave (w : world) : res world :=
                   q ← req_at w r; s ← serv_at w i;
                   mret (put_serv (put_req w r (set_slot q false (rq_queued q))) i
                           (set_window s (rs_req_cnt s - 1) (rs_queue_cnt s) (rs_queue0 s) (rs_queue1 s))) in
    if (e_now e <? rs_fail_time s) || rs_need_free s then w ← leave w; send_failover fuel w e r
    else
      x ← send_now w e r true;
      let '(w, c) := x in
      if c =? -2 then
        w ← leave w;
        w ← rad_server_fail w e i;
        send_failover fuel w e r
      else mret w.

(** [req_wakeup_failed] *)
Definition req_wakeup_failed (fuel : nat) (w : world) (e : env) (r : nat) : res world := send_failover fuel w e r.

(** ** Vocabulary of the theorems *)

(** [r] returns, and what it returns satisfies [P]. *)
Definition good {A} (P : A -> Prop) (r : res A) : Prop := exists a, r = Ok a /\ P a.

(** The requests with a property. *)
Definition tally (P : rad_req_t -> bool) (m : gmap nat rad_req_t) : Z :=
  map_fold (fun _ q n => b2z (P q) + n) 0 m.

Definition of_server (s : nat) (q : rad_req_t) : bool := Nat.eqb (rq_serv q) s.
Definition auth_of (s : nat) (q : rad_req_t) : bool := of_server s q && (rq_type q =? RAD_SERV_AUTH).
Definition acct_of (s : nat) (q : rad_req_t) : bool := of_server s q && negb (rq_type q =? RAD_SERV_AUTH).
Definition active_of (s : nat) (q : rad_req_t) : bool := of_server s q && rq_active q.

(** [q] is the queue of priority [p] of server [s]. *)
Definition queue_ok (m : gmap nat rad_req_t) (s : nat) (p : bool) (q : list nat) : Prop :=
  NoDup q /\ forall r, r ∈ q <-> exists x, m !! r = Some x /\ rq_serv x = s /\ rq_queued x = true /\ rq_prio x = p.

(** The counters of a server are what the requests say; no more are on their way than
    req-limit; requests wait only while all places are taken ([x]: or this is just being
    restored); none waits for a server that has failed. *)
Record server_ok (T : Z) (x : bool) (m : gmap nat rad_req_t) (s : nat) (sv : rad_server_t) : Prop := {
  so_clients0 : rs_clients0 sv = tally (auth_of s) m;
  so_clients1 : rs_clients1 sv = tally (acct_of s) m;
  so_req_cnt : rs_req_cnt sv = tally (active_of s) m;
  so_limit : rs_req_cnt sv <= rs_req_limit sv;
  so_queue0 : queue_ok m s false (rs_queue0 sv);
  so_queue1 : queue_ok m s true (rs_queue1 sv);
  so_queue_cnt : rs_queue_cnt sv = Z.of_nat (length (rs_queue0 sv) + length (rs_queue1 sv));
  so_full : x = false -> rs_queue0 sv ++ rs_queue1 sv <> [] -> rs_req_cnt sv = rs_req_limit sv;
  so_failed : T < rs_fail_time sv -> rs_queue0 sv ++ rs_queue1 sv = []
}.

(** What of a server is configuration. *)
Definition conf_of (s : rad_server_t) : rad_server_t :=
  mk_server (rs_addr s) (rs_auth_port s) (rs_acct_port s) (rs_req_limit s) 0 0 (rs_fail_timeout s) (rs_max_fail s)
    [] [] 0 0 0 0 (rs_weight s) (rs_backup s) (rs_need_free s).

(** A request on its own; [c] is its server's configuration.  When [armed] its timer runs only
    while it is on its way, Stop apart. *)
Record req_ok (armed : bool) (c : rad_server_t) (q : rad_req_t) : Prop := {
  ro_limit : rq_active q = true -> 0 < rs_req_limit c;
  ro_armed : armed = true -> rq_timer q = Some true -> rq_kind q <> KStop -> 0 < rs_req_limit c -> rq_active q = true;
  ro_slot : rq_active q && rq_queued q = false;
  ro_queued : rq_queued q = true -> rq_timer q <> Some true /\ rq_md q <> Some true;
  ro_md : rq_md q <> None -> rq_fd q = true;
  ro_timer : rq_md q = Some true -> rq_kind q = KAuth \/ rq_kind q = KStart -> rq_timer q <> None;
  ro_waits : rq_timer q = Some true -> rq_kind q <> KStop -> rq_md q <> None;
  ro_type : rq_type q = match rq_kind q with KAuth => RAD_SERV_AUTH | _ => RAD_SERV_ACCT end;
  ro_rpd : rq_rpd q = None -> rq_kind q = KStop
}.

(** The servers and the requests of the configuration [cf], [l] at time [T]; server [xs] is being
    brought to its limit again, request [xr] is being handled. *)
Record heap_ok (cf : gmap nat rad_server_t) (l : list nat) (T : Z) (xs xr : option nat) (w : world) : Prop := {
  ho_conf : conf_of <$> w_serv w = cf;
  ho_list : w_list w = l;
  ho_serv : forall s sv, w_serv w !! s = Some sv -> server_ok T (bool_decide (xs = Some s)) (w_req w) s sv;
  ho_req : forall r q, w_req w !! r = Some q ->
    exists c, cf !! rq_serv q = Some c /\ req_ok (negb (bool_decide (xr = Some r))) c q;
  ho_next : forall r, is_Some (w_req w !! r) -> (r < w_next w)%nat
}.

(** A configuration without removed servers. *)
Record conf_ok (cf : gmap nat rad_server_t) (l : list nat) : Prop := {
  co_list : forall s, s ∈ l -> is_Some (cf !! s);
  co_serv : forall s c, cf !! s = Some c ->
    0 <= rs_req_limit c /\ 0 <= rs_fail_timeout c /\ rs_need_free c = false
}.

(** Memory is left, and a server to which no socket can be made is given up for some time. *)
Record env_ok (cf : gmap nat rad_server_t) (T : Z) (e : env) : Prop := {
  eo_now : 0 <= T <= e_now e;
  eo_mem : e_mem e = true;
  eo_sock : forall s c, cf !! s = Some c -> e_sock e s = true \/ (0 < rs_req_limit c /\ 0 < rs_fail_timeout c)
}.

(** Requests and sessions know of each other; [xl] is a request not yet entered. *)
Record links_ok (xl : option nat) (w : world) : Prop := {
  lk_auth : forall ses pd r, w_ses w !! ses = Some pd -> pd_auth pd = Some r ->
    exists q, w_req w !! r = Some q /\ rq_rpd q = Some ses /\ rq_kind q = KAuth;
  lk_acct : forall ses pd r, w_ses w !! ses = Some pd -> pd_acct pd = Some r ->
    exists q, w_req w !! r = Some q /\ rq_rpd q = Some ses /\ rq_kind q <> KAuth;
  lk_interim : forall ses pd, w_ses w !! ses = Some pd -> pd_interim_timer pd = true ->
    exists r q, pd_acct pd = Some r /\ w_req w !! r = Some q /\ rq_kind q = KInterim;
  lk_ses : forall r q ses, w_req w !! r = Some q -> rq_rpd q = Some ses -> xl <> Some r ->
    exists pd, w_ses w !! ses = Some pd /\
      match rq_kind q with KAuth => pd_auth pd = Some r | _ => pd_acct pd = Some r end
}.

(** A request taken from its queue that has not been sent yet; one given up by its session that
    has not been taken up yet. *)
Definition woken (ctx : option nat) (q : rad_req_t) : Prop :=
  rq_active q = true /\ rq_timer q <> Some true /\ rq_md q <> Some true /\ rq_rpd q = ctx.
Definition deferred (ctx : option nat) (q : rad_req_t) : Prop :=
  ctx = None /\ rq_rpd q = None /\ rq_kind q = KStop /\ rq_active q = false /\ rq_queued q = false /\
  rq_timer q = None /\ rq_md q = None.

Definition calls_of (f : rad_func) (l : list rad_call) : list nat := rc_req <$> filter (fun c => rc_func c = f) l.
Arguments calls_of : simpl never.

Record calls_ok (w : world) : Prop := {
  ck_wakeup : forall c, c ∈ w_calls w -> rc_func c = req_wakeup_f ->
    exists q, w_req w !! rc_req c = Some q /\ woken (rc_ctx c) q;
  ck_deferred : forall c, c ∈ w_calls w -> rc_func c = start_deferred_f ->
    exists q, w_req w !! rc_req c = Some q /\ deferred (rc_ctx c) q;
  ck_once_w : NoDup (calls_of req_wakeup_f (w_calls w));
  ck_once_d : NoDup (calls_of start_deferred_f (w_calls w))
}.

(** Nothing is pending for [r] but calls of failed servers. *)
Definition quiet (w : world) (r : nat) : Prop :=
  ~ r ∈ calls_of req_wakeup_f (w_calls w) /\ ~ r ∈ calls_of start_deferred_f (w_calls w).

(** All of it. *)
Record rad_ok (cf : gmap nat rad_server_t) (l : list nat) (T : Z) (xs xr xl : option nat) (w : world) : Prop := {
  rk_heap : heap_ok cf l T xs xr w;
  rk_links : links_ok xl w;
  rk_calls : calls_ok w
}.

(** From [w] to [w'] requests that do not wait are left alone, [xr] apart. *)
Record others_same (xr : option nat) (w w' : world) : Prop := {
  os_req : forall k x, w_req w !! k = Some x -> rq_queued x = false -> xr <> Some k -> w_req w' !! k = Some x;
  os_ses : w_ses w' = w_ses w;
  os_quiet : forall k x, w_req w !! k = Some x -> rq_queued x = false -> quiet w k -> quiet w' k
}.

(** The window of a server with the queue [L] of priority [p] and [q] as the other. *)
Definition win (sv : rad_server_t) (p : bool) (q L : list nat) : rad_server_t :=
  let n := Z.of_nat (length q + length L) in
  if p then set_window sv (rs_req_cnt sv) n q L else set_window sv (rs_req_cnt sv) n L q.

(** Server [k] may serve requests of [type]. *)
Definition usable_at (w : world) (now type : Z) (k : nat) : bool :=
  match w_serv w !! k with Some s => usable now type s | None => false end.

(** After sending [r], which was [q]: it is on its way or waits, or there is no server. *)
Definition sent_or_idle (q : rad_req_t) (r : nat) (w' : world) (c : Z) : Prop :=
  (c = 0 /\ exists q', w_req w' !! r = Some q' /\ rq_rpd q' = rq_rpd q /\ rq_kind q' = rq_kind q) \/
  (c = -1 /\ quiet w' r /\
   exists q', w_req w' !! r = Some q' /\ rq_rpd q' = rq_rpd q /\ rq_kind q' = rq_kind q /\
     rq_active q' = false /\ rq_queued q' = false /\ rq_timer q' = rq_timer q).

(** The servers left to try. *)
Definition left_over (w : world) (now type : Z) (l : list nat) : nat :=
  length (filter (fun k => usable_at w now type k = true) l).

(** [q] waits in the queue [p] of [s]. *)
Definition inq (s : nat) (p : bool) (q : rad_req_t) : Prop :=
  rq_serv q = s /\ rq_queued q = true /\ rq_prio q = p.

(** [q] once it waits. *)
Definition enqueued (q : rad_req_t) : rad_req_t :=
  set_io (set_slot q (rq_active q) true) (rq_fd q)
    (match rq_md q with Some _ => Some false | None => None end) (rq_timer q).

(** No server of [L] that may be used is better than [o]. *)
Definition best_of (w : world) (now type : Z) (L : list nat) (o : option nat) : Prop :=
  match o with
  | None => forall j s, j ∈ L -> w_serv w !! j = Some s -> usable now type s = false
  | Some i => i ∈ L /\ exists si, w_serv w !! i = Some si /\ usable now type si = true /\
      forall j s, j ∈ L -> w_serv w !! j = Some s -> usable now type s = true -> better s si = false
  end.

Definition listed_ok (w : world) : Prop :=
  forall j, j ∈ w_list w -> exists s, w_serv w !! j = Some s /\ 0 < rs_weight s /\ rs_addr s <> 0.

(** What of the requests a server depends on. *)
Record same_for (s : nat) (m m' : gmap nat rad_req_t) : Prop := {
  sf_auth : tally (auth_of s) m' = tally (auth_of s) m;
  sf_acct : tally (acct_of s) m' = tally (acct_of s) m;
  sf_active : tally (active_of s) m' = tally (active_of s) m;
  sf_queue : forall p l, queue_ok m s p l -> queue_ok m' s p l
}.

(** A change of what is not the server's business. *)
Record same_slot (q q' : rad_req_t) : Prop := {
  ss_serv : rq_serv q' = rq_serv q;
  ss_type : rq_type q' = rq_type q;
  ss_active : rq_active q' = rq_active q;
  ss_queued : rq_queued q' = rq_queued q;
  ss_prio : rq_queued q = true -> rq_prio q' = rq_prio q
}.

(** ** Counting requests *)
Lemma good_bind {A B} (P : B -> Prop) (Q : A -> Prop) (m : res A) (f : A -> res B) :
  good Q m -> (forall a, Q a -> good P (f a)) -> good P (m ≫= f).
Proof. intros (a & -> & H) F. cbn. auto. Qed.

Lemma good_ok {A} (P : A -> Prop) a : P a -> good P (Ok a).
Proof. intros. now exists a. Qed.

Lemma tally_new P m r q : m !! r = None -> tally P (<[r := q]> m) = tally P m + b2z (P q).
Proof.
  intros H. unfold tally. rewrite map_fold_insert_L; [lia | intros; lia | done].
Qed.

Lemma tally_delete P m r q : m !! r = Some q -> tally P (delete r m) = tally P m - b2z (P q).
Proof.
  intros H. rewrite <- (insert_delete_id m r q H) at 2. rewrite tally_new by apply lookup_delete_eq. lia.
Qed.

Lemma tally_upd P m r q q' :
  m !! r = Some q -> tally P (<[r := q']> m) = tally P m - b2z (P q) + b2z (P q').
Proof.
  intros H. rewrite <- insert_delete_eq, tally_new by apply lookup_delete_eq.
  rewrite (tally_delete P m r q H). lia.
Qed.

Lemma tally_nonneg P m : 0 <= tally P m.
Proof.
  unfold tally. induction m as [|r q m Hm Hf IH] using map_first_key_ind; [done|].
  rewrite map_fold_insert_first_key by done. destruct (P q); cbn; lia.
Qed.

Lemma tally_pos P m r q : m !! r = Some q -> b2z (P q) <= tally P m.
Proof. intros H. pose proof (tally_nonneg P (delete r m)). rewrite (tally_delete P m r q H) in *. lia. Qed.

Lemma tally_same P m r q q' : m !! r = Some q -> P q' = P q -> tally P (<[r := q']> m) = tally P m.
Proof. intros H E. rewrite (tally_upd P m r q q' H), E. lia. Qed.

(** ** Queues *)

Lemma queue_ok_insert m s p l r q' :
  queue_ok m s p l -> (inq s p q' <-> r ∈ l) -> queue_ok (<[r := q']> m) s p l.
Proof.
  intros [N H] E. split; [done|]. intros k. destruct (decide (k = r)) as [->|Hk].
  - rewrite <- E, lookup_insert_eq. unfold inq. split; [intros X; eauto | intros (x & [= <-] & X); done].
  - rewrite lookup_insert_ne by done. apply H.
Qed.

Lemma queue_ok_same m s p l r q q' :
  queue_ok m s p l -> m !! r = Some q -> (inq s p q' <-> inq s p q) -> queue_ok (<[r := q']> m) s p l.
Proof.
  intros Q Hr E. apply queue_ok_insert; [done|]. rewrite E, (proj2 Q). unfold inq.
  split; [intros X; eauto | intros (x & Hx & X); now simplify_eq].
Qed.

Lemma queue_ok_app m s p l r q q' :
  queue_ok m s p l -> m !! r = Some q -> rq_queued q = false -> inq s p q' ->
  queue_ok (<[r := q']> m) s p (l ++ [r]).
Proof.
  intros [N H] Hr Hq I.
  assert (r ∉ l) by (intros (x & Hx & _ & Q & _)%H; simplify_eq; congruence). split.
  - apply NoDup_app. split; [done|]. split; [|apply NoDup_singleton]. intros k Hk ->%list_elem_of_singleton. done.
  - intros k. rewrite elem_of_app, list_elem_of_singleton. destruct (decide (k = r)) as [->|Hk].
    + rewrite lookup_insert_eq. split; [|now right]. intros _. exists q'. destruct I as (?&?&?). auto.
    + rewrite lookup_insert_ne, <- H by done. split; [intros [?|?]; done | auto].
Qed.

Lemma queue_ok_remove m s p l r q' :
  queue_ok m s p l -> ~ inq s p q' -> queue_ok (<[r := q']> m) s p (filter (fun x => x <> r) l).
Proof.
  intros [N H] I. split; [now apply NoDup_filter|]. intros k. rewrite list_elem_of_filter.
  destruct (decide (k = r)) as [->|Hk].
  - rewrite lookup_insert_eq. split; [now intros [? _] | intros (x & [= <-] & X); now destruct I].
  - rewrite lookup_insert_ne, <- H by done. tauto.
Qed.

Lemma queue_ok_new m s p l r q' : queue_ok m s p l -> m !! r = None -> ~ inq s p q' -> queue_ok (<[r := q']> m) s p l.
Proof.
  intros Q Hr I. apply queue_ok_insert; [done|]. rewrite (proj2 Q). split; [done|].
  intros (x & Hx & _). congruence.
Qed.

Lemma queue_ok_delete m s p l r q : queue_ok m s p l -> m !! r = Some q -> rq_queued q = false -> queue_ok (delete r m) s p l.
Proof.
  intros [N H] Hr Hq. split; [done|]. intros k. rewrite H. destruct (decide (k = r)) as [->|Hk].
  - rewrite lookup_delete_eq. split; [intros (x & Hx & _ & Q & _); simplify_eq; congruence | now intros (x & Hx & _)].
  - now rewrite lookup_delete_ne.
Qed.

(** A queue without [r] is as it was. *)
Lemma queue_filter m s p l r q :
  queue_ok m s p l -> m !! r = Some q -> ~ inq s p q -> filter (fun x => x <> r) l = l.
Proof.
  intros [N H] Hr I. clear N.
  assert (forall k, k ∈ l -> k <> r) as F by (intros k Hk ->; apply H in Hk as (x & Hx & X); simplify_eq; now apply I).
  clear H. induction l as [|k l IH]; [done|]. rewrite filter_cons_True, IH; set_solver.
Qed.

(** ** Servers and requests *)
Lemma server_ok_same T x m m' s sv : same_for s m m' -> server_ok T x m s sv -> server_ok T x m' s sv.
Proof. intros [A B C D] []. split; auto; congruence. Qed.

Lemma same_for_upd s m r q q' :
  m !! r = Some q -> auth_of s q' = auth_of s q -> acct_of s q' = acct_of s q -> active_of s q' = active_of s q ->
  (forall p, inq s p q' <-> inq s p q) -> same_for s m (<[r := q']> m).
Proof.
  intros Hr A B C D. split; [now apply tally_same with q..|]. intros p l Q. eapply queue_ok_same; eauto.
Qed.

Lemma same_for_new s m r q : m !! r = None -> rq_serv q <> s -> same_for s m (<[r := q]> m).
Proof.
  intros Hr Hs. split; [rewrite tally_new by done..|]; unfold auth_of, acct_of, active_of, of_server.
  1-3: rewrite (proj2 (Nat.eqb_neq _ _) Hs); cbn; lia.
  intros p l Q. apply queue_ok_new; auto. now intros [? _].
Qed.

Lemma same_for_delete s m r q : m !! r = Some q -> rq_queued q = false -> rq_serv q <> s -> same_for s m (delete r m).
Proof.
  intros Hr Hq Hs. split; [rewrite (tally_delete _ _ _ q) by done..|]; unfold auth_of, acct_of, active_of, of_server.
  1-3: rewrite (proj2 (Nat.eqb_neq _ _) Hs); cbn; lia.
  intros p l Q. eapply queue_ok_delete; eauto.
Qed.

Lemma same_for_elsewhere s m r q q' :
  m !! r = Some q -> rq_serv q <> s -> rq_serv q' <> s -> same_for s m (<[r := q']> m).
Proof.
  intros Hr H H'. apply (same_for_upd s m r q q' Hr); unfold auth_of, acct_of, active_of, of_server, inq.
  1-3: now rewrite (proj2 (Nat.eqb_neq _ _) H), (proj2 (Nat.eqb_neq _ _) H').
  intros p. split; intros (?&_); done.
Qed.

Lemma same_for_slot s m r q q' : m !! r = Some q -> same_slot q q' -> same_for s m (<[r := q']> m).
Proof.
  intros Hr [A B C D E]. apply (same_for_upd s m r q q' Hr); unfold auth_of, acct_of, active_of, of_server, inq; rewrite ?A, ?B, ?C, ?D.
  1-3: done.
  intros p. split; intros (?&H&?); rewrite E in *; auto.
Qed.

Section Heap.
Context (cf : gmap nat rad_server_t) (l : list nat).

(** ** Changes of one request *)
Lemma ho_find T xs xr w s c :
  heap_ok cf l T xs xr w -> cf !! s = Some c -> exists sv, w_serv w !! s = Some sv /\ conf_of sv = c.
Proof.
  intros H Hc. rewrite <- (ho_conf _ _ _ _ _ _ H), lookup_fmap in Hc.
  destruct (w_serv w !! s) as [sv|]; [|done]. exists sv. now injection Hc.
Qed.

Lemma ho_at T xs xr w r q :
  heap_ok cf l T xs xr w -> w_req w !! r = Some q ->
  exists sv, w_serv w !! rq_serv q = Some sv /\ cf !! rq_serv q = Some (conf_of sv) /\
    server_ok T (bool_decide (xs = Some (rq_serv q))) (w_req w) (rq_serv q) sv /\
    req_ok (negb (bool_decide (xr = Some r))) (conf_of sv) q.
Proof.
  intros H Hr. destruct (ho_req _ _ _ _ _ _ H r q Hr) as (c & Hc & R).
  destruct (ho_find _ _ _ _ _ _ H Hc) as (sv & Hs & <-). exists sv.
  split; [done|]. split; [done|]. split; [apply (ho_serv _ _ _ _ _ _ H _ _ Hs) | done].
Qed.

(** Only the request changes. *)
Lemma heap_req T xs xr w r q q' :
  heap_ok cf l T xs xr w -> w_req w !! r = Some q -> same_slot q q' ->
  (forall c, cf !! rq_serv q = Some c -> req_ok (negb (bool_decide (xr = Some r))) c q ->
             req_ok (negb (bool_decide (xr = Some r))) c q') ->
  heap_ok cf l T xs xr (put_req w r q').
Proof.
  intros [C L S R N] Hr Hs Hq. split; auto; cbn.
  - intros s sv Hsv. eapply server_ok_same; [eapply same_for_slot; eauto | auto].
  - intros k x. destruct (decide (k = r)) as [->|Hk].
    + rewrite lookup_insert_eq. intros [= <-]. destruct (R _ _ Hr) as (c & Hc & O).
      exists c. rewrite (ss_serv _ _ Hs). auto.
    + rewrite lookup_insert_ne by done. apply R.
  - intros k. destruct (decide (k = r)) as [->|Hk]; [intros _; apply N; eauto|].
    rewrite lookup_insert_ne by done. apply N.
Qed.

(** The request and the window of its server change together. *)
Lemma heap_slot T xs xs' xr w r q q' sv sv' :
  heap_ok cf l T xs xr w -> w_req w !! r = Some q -> w_serv w !! rq_serv q = Some sv ->
  rq_serv q' = rq_serv q -> conf_of sv' = conf_of sv ->
  (forall c, cf !! rq_serv q = Some c -> req_ok (negb (bool_decide (xr = Some r))) c q ->
             req_ok (negb (bool_decide (xr = Some r))) c q') ->
  (forall s, s <> rq_serv q -> xs = Some s -> xs' = Some s) ->
  server_ok T (bool_decide (xs' = Some (rq_serv q))) (<[r := q']> (w_req w)) (rq_serv q) sv' ->
  heap_ok cf l T xs' xr (put_serv (put_req w r q') (rq_serv q) sv').
Proof.
  intros [C L S R N] Hr Hsv Es Ec Hq Hx Hs. split; cbn; auto.
  - rewrite fmap_insert, Ec, C. apply insert_id. now rewrite <- C, lookup_fmap, Hsv.
  - intros s x. destruct (decide (s = rq_serv q)) as [->|Hk].
    + rewrite lookup_insert_eq. now intros [= <-].
    + rewrite lookup_insert_ne by done. intros Hsx. apply server_ok_same with (w_req w).
      { apply same_for_elsewhere with q; congruence. }
      specialize (S _ _ Hsx). destruct S. split; auto. intros X. apply so_full0. revert X.
      rewrite !bool_decide_eq_false. intros X Y. now apply X, Hx.
  - intros k x. destruct (decide (k = r)) as [->|Hk].
    + rewrite lookup_insert_eq. intros [= <-]. destruct (R _ _ Hr) as (c & Hc & O). exists c. rewrite Es. auto.
    + rewrite lookup_insert_ne by done. apply R.
  - intros k. destruct (decide (k = r)) as [->|Hk]; [intros _; apply N; eauto|].
    rewrite lookup_insert_ne by done. apply N.
Qed.

(** ** Links and calls *)
Lemma elem_calls_of f (cs : list rad_call) r : r ∈ calls_of f cs <-> exists c, c ∈ cs /\ rc_func c = f /\ rc_req c = r.
Proof.
  unfold calls_of. rewrite list_elem_of_fmap. split.
  - intros (c & -> & Hc). apply list_elem_of_filter in Hc as [? ?]. eauto.
  - intros (c & Hc & Hf & <-). exists c. split; [done|]. now apply list_elem_of_filter.
Qed.

Lemma links_req xl w r q q' :
  links_ok xl w -> w_req w !! r = Some q -> rq_rpd q' = rq_rpd q -> rq_kind q' = rq_kind q ->
  links_ok xl (put_req w r q').
Proof.
  intros [A B C D] Hr Ep Ek. split; cbn.
  - intros ses pd k Hp Hk. destruct (A ses pd k Hp Hk) as (x & Hx & Ex).
    destruct (decide (k = r)) as [->|Hkr]; [rewrite lookup_insert_eq; simplify_eq; exists q'; rewrite Ep, Ek; auto|].
    rewrite lookup_insert_ne by done. eauto.
  - intros ses pd k Hp Hk. destruct (B ses pd k Hp Hk) as (x & Hx & Ex).
    destruct (decide (k = r)) as [->|Hkr]; [rewrite lookup_insert_eq; simplify_eq; exists q'; rewrite Ep, Ek; auto|].
    rewrite lookup_insert_ne by done. eauto.
  - intros ses pd Hp Ht. destruct (C ses pd Hp Ht) as (k & x & Ha & Hx & Ex). exists k.
    destruct (decide (k = r)) as [->|Hkr]; [rewrite lookup_insert_eq; simplify_eq; exists q'; rewrite Ek; auto|].
    rewrite lookup_insert_ne by done. eauto.
  - intros k x ses. destruct (decide (k = r)) as [->|Hkr].
    + rewrite lookup_insert_eq. intros [= <-]. rewrite Ep, Ek. now apply D.
    + rewrite lookup_insert_ne by done. apply D.
Qed.

Lemma links_ext xl w w' : w_ses w' = w_ses w -> w_req w' = w_req w -> links_ok xl w -> links_ok xl w'.
Proof. intros E1 E2 []. split; rewrite E1, E2 || rewrite E2; auto; rewrite E1; auto. Qed.

Lemma calls_ext w w' : w_calls w' = w_calls w -> w_req w' = w_req w -> calls_ok w -> calls_ok w'.
Proof. intros E1 E2 []. split; rewrite E1, ?E2; auto. Qed.

Lemma calls_req w r q' : calls_ok w -> quiet w r -> calls_ok (put_req w r q').
Proof.
  intros [A B C D] [Qw Qd]. split; cbn; auto.
  - intros c Hc Hf. destruct (A c Hc Hf) as (x & Hx & W). exists x.
    rewrite lookup_insert_ne; [done|]. intros E. apply Qw, elem_calls_of. eauto.
  - intros c Hc Hf. destruct (B c Hc Hf) as (x & Hx & W). exists x.
    rewrite lookup_insert_ne; [done|]. intros E. apply Qd, elem_calls_of. eauto.
Qed.

(** Why nothing is pending. *)
Lemma quiet_if w r q :
  calls_ok w -> w_req w !! r = Some q ->
  rq_queued q = true \/ rq_timer q = Some true \/ rq_md q = Some true \/
  (rq_active q = false /\ (rq_rpd q <> None \/ rq_md q <> None \/ rq_timer q <> None)) ->
  (rq_active q && rq_queued q = false) -> quiet w r.
Proof.
  intros [A B _ _] Hr H Hs. split; intros (c & Hc & Hf & E)%elem_calls_of.
  - destruct (A c Hc Hf) as (x & Hx & W1 & W2 & W3 & W4). rewrite E in Hx. simplify_eq. rewrite W1 in *.
    destruct H as [H|[H|[H|[H _]]]]; try congruence. now rewrite H in Hs.
  - destruct (B c Hc Hf) as (x & Hx & W1 & W2 & W3 & W4 & W5 & W6 & W7). rewrite E in Hx. simplify_eq.
    destruct H as [H|[H|[H|[_ H]]]]; try congruence. destruct H as [H|[H|H]]; congruence.
Qed.

Lemma calls_of_app f (a b : list rad_call) : calls_of f (a ++ b) = calls_of f a ++ calls_of f b.
Proof. unfold calls_of. now rewrite filter_app, fmap_app. Qed.

(** A request leaves its queue. *)
Lemma calls_wake w n x :
  calls_ok w -> w_req w !! n = Some x -> rq_queued x = true -> rq_active x = false ->
  rq_timer x <> Some true -> rq_md x <> Some true ->
  calls_ok (context_call (put_req w n (set_slot x true false)) (rq_rpd x) req_wakeup_f n).
Proof.
  intros H Hn Hq Ha Ht Hm.
  assert (Q : quiet w n) by (eapply quiet_if; eauto; now rewrite Ha).
  destruct (calls_req w n (set_slot x true false) H Q) as [A B C D]. split; cbn in *.
  - intros c [Hc|Hc%list_elem_of_singleton]%elem_of_app Hf; [auto|]. subst c. cbn. exists (set_slot x true false).
    now rewrite lookup_insert_eq.
  - intros c [Hc|Hc%list_elem_of_singleton]%elem_of_app Hf; [auto|]. now subst c.
  - rewrite calls_of_app. apply NoDup_app. split; [done|]. split; [|apply NoDup_singleton].
    intros k Hk ->%list_elem_of_singleton. now apply (proj1 Q).
  - rewrite calls_of_app. unfold calls_of at 2. cbn. now rewrite app_nil_r.
Qed.

(** Calls that a failed server makes do not matter. *)
Lemma calls_failed w ctx n : calls_ok w -> calls_ok (context_call w ctx req_wakeup_failed_f n).
Proof.
  intros [A B C D]. split; cbn.
  - intros c [Hc|Hc%list_elem_of_singleton]%elem_of_app Hf; [auto|]. now subst c.
  - intros c [Hc|Hc%list_elem_of_singleton]%elem_of_app Hf; [auto|]. now subst c.
  - rewrite calls_of_app. unfold calls_of at 2. cbn. now rewrite app_nil_r.
  - rewrite calls_of_app. unfold calls_of at 2. cbn. now rewrite app_nil_r.
Qed.

Lemma quiet_app w r ctx f n :
  quiet w r -> n <> r \/ f = req_wakeup_failed_f -> quiet (context_call w ctx f n) r.
Proof.
  intros [Q1 Q2] H. split; cbn; rewrite calls_of_app, elem_of_app; intros [?|(c & ->%list_elem_of_singleton & E1 & E2)%elem_calls_of];
    cbn in *; try done; destruct H; congruence.
Qed.

Lemma os_refl xr w : others_same xr w w.
Proof. split; auto. Qed.

Lemma os_weaken xr w w' : others_same None w w' -> others_same xr w w'.
Proof. intros [A B C]. split; auto. Qed.

Lemma os_trans xr w1 w2 w3 :
  others_same None w1 w2 -> others_same xr w2 w3 -> others_same xr w1 w3.
Proof.
  intros [A B C] [A' B' C']. split; [|congruence|]; intros k x Hk Hq; eauto.
Qed.

Lemma heap_mono T T' xs xr w : heap_ok cf l T xs xr w -> T <= T' -> heap_ok cf l T' xs xr w.
Proof.
  intros [C L S R N] H. split; auto. intros s sv Hs. destruct (S s sv Hs). split; auto. intros. apply so_failed0. lia.
Qed.

Lemma heap_calls T xs xr w cs : heap_ok cf l T xs xr w -> heap_ok cf l T xs xr (with_calls w cs).
Proof. intros []. now split. Qed.

(** ** A queue is emptied *)
Lemma set_window_conf sv a b c d : conf_of (set_window sv a b c d) = conf_of sv.
Proof. done. Qed.

Lemma put_serv_twice w s a b : put_serv (put_serv w s a) s b = put_serv w s b.
Proof. unfold put_serv, with_serv. cbn. now rewrite insert_insert_eq. Qed.

(** The head of a queue leaves it. *)
Lemma filter_head (r : nat) L : NoDup (r :: L) -> filter (fun x => x <> r) (r :: L) = L.
Proof.
  intros [N H]%NoDup_cons. rewrite filter_cons_False by auto.
  induction L as [|k L IH]; [done|]. rewrite filter_cons_True by set_solver. f_equal. apply IH; [set_solver|].
  now apply NoDup_cons in H.
Qed.

Lemma server_ok_dequeue T m s sv p q r L x :
  server_ok T true m s (win sv p q (r :: L)) -> m !! r = Some x ->
  server_ok T true (<[r := set_slot x (rq_active x) false]> m) s (win sv p q L).
Proof.
  intros S Hx. assert (N : forall p, ~ inq s p (set_slot x (rq_active x) false)) by (intros p' (_ & H & _); done).
  assert (X : rq_serv x = s /\ rq_prio x = p /\ NoDup (r :: L)).
  { destruct p; [destruct (so_queue1 _ _ _ _ _ S) as [N' H] | destruct (so_queue0 _ _ _ _ _ S) as [N' H]];
      destruct (proj1 (H r) ltac:(left)) as (y & Hy & ? & ? & ?); simplify_eq; auto. }
  destruct X as (Xs & Xp & Nd).
  assert (Hq : forall p' k, queue_ok m s p' k -> queue_ok (<[r := set_slot x (rq_active x) false]> m) s p' (filter (fun x => x <> r) k))
    by (intros; now apply queue_ok_remove).
  assert (Hf : forall k, queue_ok m s (negb p) k -> filter (fun x => x <> r) k = k).
  { intros k Hk. eapply queue_filter; eauto. intros (_ & _ & H). rewrite H in Xp. now destruct p. }
  destruct S as [A B C D Q0 Q1 E F G]. unfold win in *. destruct p; cbn in *; split; cbn; auto.
  all: try (rewrite (tally_same _ m r x) by done; done).
  all: try (rewrite <- (filter_head r L) by done; now apply Hq).
  all: try (rewrite <- (Hf _ ltac:(eassumption)); now apply Hq).
  all: try done; try lia.
  - intros H. apply G in H. now destruct q.
  - intros H. apply G in H. done.
Qed.

Lemma wake_all_spec T xl s sv (p : bool) q w L :
  rad_ok cf l T (Some s) None xl (put_serv w s (win sv p q L)) ->
  good (fun w' => rad_ok cf l T (Some s) None xl (put_serv w' s (win sv p q [])) /\ others_same None w w' /\
                  w_serv w' = w_serv w) (wake_all w req_wakeup_failed_f L).
Proof.
  revert w. induction L as [|r L IH]; intros w O.
  { apply good_ok. split; [done|]. split; [apply os_refl | done]. }
  destruct O as [H K C]. cbn [wake_all].
  assert (Hs : w_serv (put_serv w s (win sv p q (r :: L))) !! s = Some (win sv p q (r :: L))) by apply lookup_insert_eq.
  pose proof (ho_serv _ _ _ _ _ _ H s _ Hs) as S. rewrite bool_decide_eq_true_2 in S by done. cbn in S.
  assert (exists x, w_req w !! r = Some x /\ rq_serv x = s /\ rq_queued x = true) as (x & Hx & <- & Xq).
  { destruct p; [destruct (so_queue1 _ _ _ _ _ S) as [_ Q] | destruct (so_queue0 _ _ _ _ _ S) as [_ Q]];
      destruct (proj1 (Q r) ltac:(left)) as (y & Hy & ? & ? & ?); eauto. }
  unfold req_at. rewrite Hx. cbn [res_of_option mbind res_bind].
  set (x' := set_slot x (rq_active x) false).
  assert (Qr : quiet w r).
  { apply (quiet_if _ _ _ C Hx); [auto|]. destruct (ho_req _ _ _ _ _ _ H r x Hx) as (c & _ & R). apply R. }
  set (w1 := context_call (put_req w r x') (rq_rpd x) req_wakeup_failed_f r).
  assert (O1 : others_same None w w1).
  { split; [|done|].
    - intros k y Hk Hq _. cbn. rewrite lookup_insert_ne; [done|]. intros ->. simplify_eq. congruence.
    - intros k y Hk Hq Qk. apply quiet_app; [|auto]. exact Qk. }
  destruct (IH w1) as (w' & -> & O' & Os & Es).
  { split.
    - apply (heap_calls T _ _ (put_serv (put_req w r x') (rq_serv x) (win sv p q L)) (w_calls w1)).
      rewrite <- (put_serv_twice (put_req w r x') (rq_serv x) (win sv p q (r :: L))).
      apply (heap_slot T (Some (rq_serv x)) (Some (rq_serv x)) None (put_serv w (rq_serv x) (win sv p q (r :: L))) r x x'
               (win sv p q (r :: L)) (win sv p q L)); auto; [now destruct p | |].
      + intros c _ []. split; auto. now destruct (rq_active x).
      + rewrite bool_decide_eq_true_2 by done. now apply server_ok_dequeue.
    - apply (links_ext xl (put_req (put_serv w (rq_serv x) (win sv p q (r :: L))) r x')); [done..|].
      now apply (links_req xl _ r x x' K Hx).
    - apply (calls_ext w1); [done..|]. apply calls_failed, calls_req; [|done].
      now apply (calls_ext _ w) in C. }
  apply good_ok. split; [done|]. split; [eapply os_trans; eauto | done].
Qed.

Lemma put_serv_id w s sv : w_serv w !! s = Some sv -> put_serv w s sv = w.
Proof. intros H. unfold put_serv, with_serv. rewrite insert_id by done. now destruct w. Qed.

(** Only the server changes. *)
Lemma heap_serv T xs xs' xr w s sv sv' :
  heap_ok cf l T xs xr w -> w_serv w !! s = Some sv -> conf_of sv' = conf_of sv ->
  (forall k, k <> s -> xs = Some k -> xs' = Some k) ->
  server_ok T (bool_decide (xs' = Some s)) (w_req w) s sv' ->
  heap_ok cf l T xs' xr (put_serv w s sv').
Proof.
  intros [C L S R N] Hsv Ec Hx Hs. split; cbn; auto.
  - rewrite fmap_insert, Ec, C. apply insert_id. now rewrite <- C, lookup_fmap, Hsv.
  - intros k x. destruct (decide (k = s)) as [->|Hk].
    + rewrite lookup_insert_eq. now intros [= <-].
    + rewrite lookup_insert_ne by done. intros Hkx. specialize (S _ _ Hkx). destruct S. split; auto.
      intros X. apply so_full0. revert X. rewrite !bool_decide_eq_false. intros X Y. now apply X, Hx.
Qed.

Lemma rad_serv T xs xs' xr xl w s sv sv' :
  rad_ok cf l T xs xr xl w -> w_serv w !! s = Some sv -> conf_of sv' = conf_of sv ->
  (forall k, k <> s -> xs = Some k -> xs' = Some k) ->
  server_ok T (bool_decide (xs' = Some s)) (w_req w) s sv' ->
  rad_ok cf l T xs' xr xl (put_serv w s sv').
Proof.
  intros [H K C] Hs Ec Hx Ho. split.
  - now apply heap_serv with xs sv.
  - now apply (links_ext xl w).
  - now apply (calls_ext w).
Qed.

Lemma fail_spec T xs xl w e s :
  rad_ok cf l T xs None xl w -> T = e_now e -> is_Some (cf !! s) -> xs = None \/ xs = Some s ->
  good (fun w' => rad_ok cf l T None None xl w' /\ others_same None w w' /\
    (forall k, k <> s -> w_serv w' !! k = w_serv w !! k) /\
    exists sv sv', w_serv w !! s = Some sv /\ w_serv w' !! s = Some sv' /\ conf_of sv' = conf_of sv /\
      rs_req_cnt sv' = rs_req_cnt sv /\
      rs_fail_time sv' = if rs_fail_time sv <=? T then T + rs_fail_timeout sv else rs_fail_time sv)
    (rad_server_fail w e s).
Proof.
  intros O HT [c Hc] Hxs. destruct (ho_find _ _ _ _ _ _ (rk_heap _ _ _ _ _ _ _ O) Hc) as (sv & Hs & Ec).
  pose proof (ho_serv _ _ _ _ _ _ (rk_heap _ _ _ _ _ _ _ O) s sv Hs) as S.
  assert (E : win sv false (rs_queue1 sv) (rs_queue0 sv) = sv).
  { destruct S. destruct sv; cbn in *. unfold win, set_window; cbn. f_equal. lia. }
  assert (St : server_ok T true (w_req w) s sv) by (destruct S; split; auto; done).
  assert (O1 : rad_ok cf l T (Some s) None xl (put_serv w s (win sv false (rs_queue1 sv) (rs_queue0 sv)))).
  { rewrite E. apply rad_serv with xs sv; auto; [|now rewrite bool_decide_eq_true_2].
    intros k Hk ->. destruct Hxs; congruence. }
  unfold rad_server_fail, serv_at. rewrite Hs. cbn [res_of_option mbind res_bind]. rewrite <- HT.
  set (s' := if rs_fail_time sv <=? T then _ else sv).
  assert (Eq : rs_queue0 s' = rs_queue0 sv /\ rs_queue1 s' = rs_queue1 sv /\ conf_of s' = conf_of sv /\
               rs_req_cnt s' = rs_req_cnt sv /\ rs_clients0 s' = rs_clients0 sv /\ rs_clients1 s' = rs_clients1 sv /\
               rs_req_limit s' = rs_req_limit sv /\
               rs_fail_time s' = if rs_fail_time sv <=? T then T + rs_fail_timeout sv else rs_fail_time sv)
    by (unfold s'; destruct (_ <=? _); repeat split).
  destruct Eq as (-> & -> & Ec' & Er & E0 & E1 & El & Ef).
  destruct (wake_all_spec T xl s sv false (rs_queue1 sv) w (rs_queue0 sv) O1) as (w1 & -> & O2 & Os1 & Ws1).
  cbn [mbind res_bind].
  destruct (wake_all_spec T xl s sv true [] w1 (rs_queue1 sv)) as (w2 & -> & O3 & Os2 & Ws2).
  { unfold win in *. cbn in *. now rewrite Nat.add_0_r in O2. }
  cbn [mbind res_bind]. apply good_ok.
  assert (Hs2 : w_serv (put_serv w2 s (win sv true [] [])) !! s = Some (win sv true [] [])) by apply lookup_insert_eq.
  pose proof (ho_serv _ _ _ _ _ _ (rk_heap _ _ _ _ _ _ _ O3) s _ Hs2) as S2. cbn in S2.
  split; [|split; [|split]].
  - rewrite <- (put_serv_twice w2 s (win sv true [] [])).
    apply rad_serv with (Some s) (win sv true [] []); auto; [intros k Hk [= ->]; done|].
    destruct S2. split; cbn in *; rewrite ?E0, ?E1, ?Er, ?El; auto; done.
  - eapply os_trans; [apply Os1|]. destruct Os2. split; auto.
  - intros k Hk. cbn. rewrite lookup_insert_ne by done. now rewrite Ws2, Ws1.
  - exists sv, (set_window s' (rs_req_cnt s') 0 [] []). cbn. rewrite lookup_insert_eq. auto.
Qed.

(** ** Places in the window *)
Lemma of_server_refl q : of_server (rq_serv q) q = true.
Proof. apply Nat.eqb_refl. Qed.

Lemma server_ok_release T x x' m sv r q :
  server_ok T x m (rq_serv q) sv -> m !! r = Some q -> rq_active q = true -> rq_queued q = false ->
  (x' = true \/ rs_queue0 sv ++ rs_queue1 sv = []) ->
  server_ok T x' (<[r := set_slot q false (rq_queued q)]> m) (rq_serv q)
    (set_window sv (rs_req_cnt sv - 1) (rs_queue_cnt sv) (rs_queue0 sv) (rs_queue1 sv)).
Proof.
  intros [A B C D Q0 Q1 E F G] Hr Ha Hq Hx.
  assert (forall p k, queue_ok m (rq_serv q) p k -> queue_ok (<[r := set_slot q false (rq_queued q)]> m) (rq_serv q) p k).
  { intros p k Hk. eapply queue_ok_same; eauto. }
  split; cbn; auto; try (rewrite (tally_same _ m r q) by done; done).
  - rewrite (tally_upd _ m r q), C by done. unfold active_of. cbn. rewrite of_server_refl, Ha.
    unfold of_server; cbn. rewrite Nat.eqb_refl. cbn. lia.
  - lia.
  - intros ->. destruct Hx as [?|Hx]; [done|]. now rewrite Hx.
Qed.

Lemma server_ok_take T x m sv r q :
  server_ok T x m (rq_serv q) sv -> m !! r = Some q -> rq_active q = false -> rq_queued q = false ->
  rs_req_cnt sv < rs_req_limit sv ->
  server_ok T x (<[r := set_slot q true (rq_queued q)]> m) (rq_serv q)
    (set_window sv (rs_req_cnt sv + 1) (rs_queue_cnt sv) (rs_queue0 sv) (rs_queue1 sv)).
Proof.
  intros [A B C D Q0 Q1 E F G] Hr Ha Hq Hl.
  assert (forall p k, queue_ok m (rq_serv q) p k -> queue_ok (<[r := set_slot q true (rq_queued q)]> m) (rq_serv q) p k).
  { intros p k Hk. eapply queue_ok_same; eauto. }
  split; cbn; auto; try (rewrite (tally_same _ m r q) by done; done).
  - rewrite (tally_upd _ m r q), C by done. unfold active_of. cbn. rewrite Ha, andb_false_r.
    unfold of_server; cbn. rewrite Nat.eqb_refl. cbn. lia.
  - lia.
  - intros Hx Hne. specialize (F Hx Hne). lia.
Qed.

Lemma server_ok_pop T m s sv n q0 q1 x :
  server_ok T true m s sv -> pop sv = Some (n, q0, q1) -> rs_req_cnt sv + 1 = rs_req_limit sv ->
  m !! n = Some x -> rq_active x = false ->
  server_ok T false (<[n := set_slot x true false]> m) s (set_window sv (rs_req_cnt sv + 1) (rs_queue_cnt sv - 1) q0 q1).
Proof.
  intros S Hp Hl Hx Ha.
  assert (N : forall p, ~ inq s p (set_slot x true false)) by (intros p (_ & H & _); done).
  destruct S as [A B C D Q0 Q1 E F G].
  assert (X : rq_serv x = s /\ q0 = filter (fun k => k <> n) (rs_queue0 sv) /\ q1 = filter (fun k => k <> n) (rs_queue1 sv) /\
              S (length q0 + length q1) = (length (rs_queue0 sv) + length (rs_queue1 sv))%nat).
  { unfold pop in Hp. destruct (rs_queue0 sv) as [|a k0] eqn:E0; [destruct (rs_queue1 sv) as [|a k1] eqn:E1; [done|]|];
      injection Hp as -> <- <-.
    - destruct (proj1 (proj2 Q1 n) ltac:(left)) as (y & Hy & Ys & _). simplify_eq. cbn [length].
      rewrite (filter_head n) by apply Q1. auto.
    - destruct (proj1 (proj2 Q0 n) ltac:(left)) as (y & Hy & Ys & Yq & Yp). simplify_eq. cbn [length].
      rewrite (filter_head n) by apply Q0. split; [done|]. split; [done|]. split; [|lia]. symmetry.
      eapply queue_filter; eauto. intros (_ & _ & ?). congruence. }
  destruct X as (<- & E0 & E1 & El). split; cbn; auto; try (rewrite (tally_same _ m n x) by done; done).
  - rewrite (tally_upd _ m n x), C by done. unfold active_of. cbn. rewrite Ha, andb_false_r.
    unfold of_server; cbn. rewrite Nat.eqb_refl. cbn. lia.
  - lia.
  - rewrite E0. now apply queue_ok_remove.
  - rewrite E1. now apply queue_ok_remove.
  - lia.
  - intros H. apply G in H. unfold pop in Hp. now destruct (rs_queue0 sv), (rs_queue1 sv).
Qed.

(** [r] gives back its place, and the next one takes it. *)
Lemma exit_spec T xr xl w r q :
  rad_ok cf l T None xr xl w -> w_req w !! r = Some q -> rq_active q = true -> quiet w r ->
  xr = Some r \/ rq_timer q <> Some true \/ rq_kind q = KStop ->
  good (fun w' => rad_ok cf l T None xr xl w' /\ w_req w' !! r = Some (set_slot q false (rq_queued q)) /\
                  others_same (Some r) w w') (rad_server_req_exit w r).
Proof.
  intros O Hr Ha Qr Hxr. destruct O as [H K C].
  destruct (ho_at _ _ _ _ _ _ H Hr) as (sv & Hs & Hc & S & R). cbn in S.
  assert (Hq : rq_queued q = false) by (pose proof (ro_slot _ _ _ R) as X; rewrite Ha in X; exact X).
  pose proof (ro_limit _ _ _ R Ha) as Hl. cbn in Hl.
  unfold rad_server_req_exit, req_at, serv_at. rewrite Hr. cbn [res_of_option mbind res_bind]. rewrite Hs.
  cbn [res_of_option mbind res_bind]. rewrite (proj2 (Z.eqb_neq _ _)) by lia. rewrite Ha. cbn [negb].
  set (q' := set_slot q false (rq_queued q)).
  assert (Hcnt : 1 <= rs_req_cnt sv).
  { rewrite (so_req_cnt _ _ _ _ _ S). pose proof (tally_pos (active_of (rq_serv q)) _ _ _ Hr) as P.
    unfold active_of in P at 1. rewrite of_server_refl, Ha in P. exact P. }
  rewrite (proj2 (Z.ltb_ge _ 0)) by lia.
  rewrite (proj2 (Z.ltb_lt _ _)) by (pose proof (so_limit _ _ _ _ _ S); lia).
  assert (Rq : forall c, cf !! rq_serv q = Some c -> req_ok (negb (bool_decide (xr = Some r))) c q ->
                         req_ok (negb (bool_decide (xr = Some r))) c q').
  { intros c _ []. split; auto; cbn; try done. intros X Y Z. destruct Hxr as [->|[?|?]]; try done.
    now rewrite bool_decide_eq_true_2 in X. }
  pose proof (calls_req w r q' C Qr) as C1. pose proof (links_req xl w r q q' K Hr eq_refl eq_refl) as K1.
  destruct (pop sv) as [[[n q0] q1]|] eqn:Hp.
  - assert (exists x, w_req w !! n = Some x /\ rq_serv x = rq_serv q /\ rq_queued x = true) as (x & Hx & Xs & Xq).
    { unfold pop in Hp. destruct (rs_queue0 sv) as [|a k0] eqn:E0; [destruct (rs_queue1 sv) as [|a k1] eqn:E1; [done|]|];
        injection Hp as -> <- <-.
      - destruct (proj1 (proj2 (so_queue1 _ _ _ _ _ S) n)) as (y & Hy & ? & ? & _); [rewrite E1; left | eauto].
      - destruct (proj1 (proj2 (so_queue0 _ _ _ _ _ S) n)) as (y & Hy & ? & ? & _); [rewrite E0; left | eauto]. }
    assert (Hn : n <> r) by congruence.
    assert (Hx' : w_req (put_req w r q') !! n = Some x) by (cbn; now rewrite lookup_insert_ne).
    rewrite Hx'. cbn [res_of_option mbind res_bind].
    destruct (ho_req _ _ _ _ _ _ H n x Hx) as (cx & Hcx & Rx).
    assert (Xa : rq_active x = false) by (pose proof (ro_slot _ _ _ Rx) as X; rewrite Xq, andb_true_r in X; exact X).
    assert (Full : rs_req_cnt sv = rs_req_limit sv).
    { apply (so_full _ _ _ _ _ S eq_refl). unfold pop in Hp. destruct (rs_queue0 sv), (rs_queue1 sv); done. }
    set (sv1 := set_window sv (rs_req_cnt sv - 1) (rs_queue_cnt sv) (rs_queue0 sv) (rs_queue1 sv)).
    assert (H1 : heap_ok cf l T (Some (rq_serv q)) xr (put_serv (put_req w r q') (rq_serv q) sv1)).
    { apply (heap_slot T None (Some (rq_serv q)) xr w r q q' sv sv1); try done.
      rewrite bool_decide_eq_true_2 by done. eapply server_ok_release; eauto. }
    set (x' := set_slot x true false).
    set (sv2 := set_window sv (rs_req_cnt sv - 1 + 1) (rs_queue_cnt sv - 1) q0 q1).
    assert (H2 : heap_ok cf l T None xr (put_serv (put_req (put_serv (put_req w r q') (rq_serv q) sv1) n x') (rq_serv q) sv2)).
    { rewrite <- Xs. apply (heap_slot T (Some (rq_serv x)) None xr _ n x x' sv1 sv2); try done.
      - now rewrite Xs.
      - cbn. rewrite Xs. apply lookup_insert_eq.
      - intros c Hcc []. split; auto; cbn; try done.
        intros _. rewrite Xs in Hcc. rewrite Hc in Hcc. injection Hcc as <-. done.
      - intros k Hk [= <-]. done.
      - cbn. rewrite Xs.
        apply (server_ok_pop T (<[r := q']> (w_req w)) (rq_serv q) sv1 n q0 q1 x); auto; [|cbn; lia].
        eapply server_ok_release; eauto. }
    replace (put_serv (put_req (put_serv (put_req w r q') (rq_serv q) sv1) n x') (rq_serv q) sv2)
      with (put_serv (put_req (put_req w r q') n x') (rq_serv q) sv2) in H2
      by (unfold put_serv, with_serv; cbn; now rewrite insert_insert_eq).
    destruct (ro_queued _ _ _ Rx Xq) as [Xt Xm].
    apply good_ok. split; [split|split].
    + now apply heap_calls.
    + apply (links_ext xl (put_req (put_req w r q') n x')); [done..|]. now apply (links_req xl _ n x).
    + apply (calls_ext (context_call (put_req (put_req w r q') n x') (rq_rpd x) req_wakeup_f n)); [done..|].
      now apply calls_wake.
    + cbn. rewrite lookup_insert_ne by done. apply lookup_insert_eq.
    + split; [|done|].
      * intros k y Hk Hkq Hkr. cbn. rewrite !lookup_insert_ne; [done| |]; [congruence|]. intros ->. congruence.
      * intros k y Hk Hkq Qk. apply quiet_app; [exact Qk|]. left. intros ->. congruence.
  - apply good_ok. split; [split|split].
    + apply (heap_slot T None None xr w r q q' sv); try done. eapply server_ok_release; eauto.
      right. unfold pop in Hp. destruct (rs_queue0 sv), (rs_queue1 sv); done.
    + apply (links_ext xl (put_req w r q')); done.
    + apply (calls_ext (put_req w r q')); done.
    + apply lookup_insert_eq.
    + split; [|done|auto]. intros k y Hk Hkq Hkr. cbn. rewrite lookup_insert_ne; [done|congruence].
Qed.

(** [r] gives back its place and nobody takes it. *)
Lemma release_ok T xs xl w r q sv :
  rad_ok cf l T None None xl w -> w_req w !! r = Some q -> rq_active q = true -> quiet w r ->
  rq_timer q <> Some true -> w_serv w !! rq_serv q = Some sv ->
  xs = Some (rq_serv q) \/ (xs = None /\ rs_queue0 sv ++ rs_queue1 sv = []) ->
  rad_ok cf l T xs None xl
    (put_serv (put_req w r (set_slot q false (rq_queued q))) (rq_serv q)
       (set_window sv (rs_req_cnt sv - 1) (rs_queue_cnt sv) (rs_queue0 sv) (rs_queue1 sv))).
Proof.
  intros [H K C] Hr Ha Qr Ht Hs Hx. destruct (ho_at _ _ _ _ _ _ H Hr) as (sv' & Hs' & Hc & S & R). simplify_eq.
  assert (Hq : rq_queued q = false) by (pose proof (ro_slot _ _ _ R) as X; rewrite Ha in X; exact X).
  set (q' := set_slot q false (rq_queued q)). split.
  - apply (heap_slot T None xs None w r q q' sv); try done.
    + intros c _ []. split; auto; done.
    + eapply server_ok_release; eauto. destruct Hx as [->|[_ ?]]; [|auto]. left. now apply bool_decide_eq_true_2.
  - apply (links_ext xl (put_req w r q')); [done..|]. now apply (links_req xl w r q).
  - apply (calls_ext (put_req w r q')); [done..|]. now apply calls_req.
Qed.

Lemma take_ok T xl w r q sv :
  rad_ok cf l T None None xl w -> w_req w !! r = Some q -> rq_active q = false -> rq_queued q = false -> quiet w r ->
  w_serv w !! rq_serv q = Some sv -> rs_req_cnt sv < rs_req_limit sv -> 0 < rs_req_limit sv ->
  rad_ok cf l T None None xl
    (put_req (put_serv w (rq_serv q)
                (set_window sv (rs_req_cnt sv + 1) (rs_queue_cnt sv) (rs_queue0 sv) (rs_queue1 sv)))
       r (set_slot q true (rq_queued q))).
Proof.
  intros [H K C] Hr Ha Hq Qr Hs Hlt Hl. destruct (ho_at _ _ _ _ _ _ H Hr) as (sv' & Hs' & Hc & S & R). simplify_eq.
  set (q' := set_slot q true (rq_queued q)). split.
  - apply (heap_slot T None None None w r q q' sv); try done.
    + intros c Hcc []. simplify_eq. split; auto; try done.
    + now apply server_ok_take.
  - apply (links_ext xl (put_req w r q')); [done..|]. now apply (links_req xl w r q).
  - apply (calls_ext (put_req w r q')); [done..|]. now apply calls_req.
Qed.

(** ** Sending *)
Lemma rad_req_upd T xs xr xl w r q q' :
  rad_ok cf l T xs xr xl w -> w_req w !! r = Some q -> quiet w r -> same_slot q q' ->
  rq_rpd q' = rq_rpd q -> rq_kind q' = rq_kind q ->
  (forall c, cf !! rq_serv q = Some c -> req_ok (negb (bool_decide (xr = Some r))) c q ->
             req_ok (negb (bool_decide (xr = Some r))) c q') ->
  rad_ok cf l T xs xr xl (put_req w r q').
Proof.
  intros [H K C] Hr Qr Hs Ep Ek Hq. split.
  - now apply heap_req with q.
  - now apply (links_req xl w r q).
  - now apply calls_req.
Qed.

Lemma rad_emit T xs xr xl w o : rad_ok cf l T xs xr xl w -> rad_ok cf l T xs xr xl (emit w o).
Proof.
  intros [[] K C]. split; [now split | now apply (links_ext xl w) | now apply (calls_ext w)].
Qed.

(** What sending makes of the request: [Some c] is the code. *)
Lemma send_now_spec T xl w e r q async :
  rad_ok cf l T None None xl w -> env_ok cf T e -> w_req w !! r = Some q -> quiet w r -> rq_queued q = false ->
  (forall c, cf !! rq_serv q = Some c -> 0 < rs_req_limit c -> rq_active q = true) ->
  (rq_fd q = false -> e_sock e (rq_serv q) = false -> send_now w e r async = Ok (w, -2)) /\
  (rq_fd q = true \/ e_sock e (rq_serv q) = true ->
   exists w' q', send_now w e r async = Ok (w', 0) /\ rad_ok cf l T None None xl w' /\
     w_req w' = <[r := q']> (w_req w) /\ rq_rpd q' = rq_rpd q /\ rq_kind q' = rq_kind q /\
     w_ses w' = w_ses w /\ w_calls w' = w_calls w /\ w_serv w' = w_serv w).
Proof.
  intros O E Hr Qr Hq Ha. unfold send_now, req_at. rewrite Hr. cbn [res_of_option mbind res_bind]. split.
  - now intros -> ->.
  - intros Hfd. replace (negb (rq_fd q) && negb (e_sock e (rq_serv q))) with false
      by (destruct Hfd as [-> | ->]; [|destruct (rq_fd q)]; done).
    rewrite (eo_mem _ _ _ E). cbn [negb].
    set (q' := set_io (set_io q true (rq_md q) (rq_timer q)) true (Some true) (Some true)).
    exists (emit (put_req w r q') (OSent r (rq_serv q))), q'. split; [done|]. split; [|done].
    apply rad_emit. apply (rad_req_upd T None None xl w r q q'); auto; [now split|].
    intros c Hc []. split; auto; cbn; try done.
    + intros _ _ _ Hl. eauto.
    + congruence.
Qed.

(** ** Waiting *)
Lemma rad_enqueue_ok T xl w r q sv :
  rad_ok cf l T None None xl w -> w_req w !! r = Some q -> rq_active q = false -> rq_queued q = false -> quiet w r ->
  rq_timer q <> Some true -> w_serv w !! rq_serv q = Some sv -> rs_req_limit sv <= rs_req_cnt sv ->
  rs_fail_time sv <= T ->
  rad_ok cf l T None None xl
    (put_req (put_serv w (rq_serv q)
       (if rq_prio q then set_window sv (rs_req_cnt sv) (rs_queue_cnt sv + 1) (rs_queue0 sv) (rs_queue1 sv ++ [r])
        else set_window sv (rs_req_cnt sv) (rs_queue_cnt sv + 1) (rs_queue0 sv ++ [r]) (rs_queue1 sv))) r (enqueued q)).
Proof.
  intros [H K C] Hr Ha Hq Qr Ht Hs Hf HT. destruct (ho_at _ _ _ _ _ _ H Hr) as (sv' & Hs' & Hc & S & R). simplify_eq.
  set (q' := enqueued q). set (sv' := if rq_prio q then _ else _). split.
  - apply (heap_slot T None None None w r q q' sv sv'); try done.
    + unfold sv'. now destruct (rq_prio q).
    + intros c Hcc []. split; cbn; auto; destruct (rq_md q); auto; try done; try (now rewrite Ha).
    + assert (Same : forall p k, p <> rq_prio q -> queue_ok (w_req w) (rq_serv q) p k ->
                                 queue_ok (<[r := q']> (w_req w)) (rq_serv q) p k).
      { intros p k Hp Hk. eapply queue_ok_same; eauto. unfold inq; cbn. split; intros (_&_&?); congruence. }
      assert (App : forall k, queue_ok (w_req w) (rq_serv q) (rq_prio q) k ->
                              queue_ok (<[r := q']> (w_req w)) (rq_serv q) (rq_prio q) (k ++ [r])).
      { intros k Hk. apply (queue_ok_app _ _ _ _ _ q); auto. now repeat split. }
      destruct S as [A B D E Q0 Q1 F G I]. unfold sv'. destruct (rq_prio q) eqn:Hp; split; cbn; auto;
        try (rewrite (tally_same _ _ r q) by (unfold auth_of, acct_of, active_of, of_server; cbn; done); done);
        try (rewrite length_app; cbn; lia); try lia; try (now apply Same).
  - apply (links_ext xl (put_req w r q')); [done..|]. now apply (links_req xl w r q).
  - apply (calls_ext (put_req w r q')); [done..|]. now apply calls_req.
Qed.

Context (CO : conf_ok cf l).

Lemma enter_spec T xl w e r q :
  rad_ok cf l T None None xl w -> env_ok cf T e -> T = e_now e -> w_req w !! r = Some q ->
  rq_active q = false -> rq_queued q = false -> rq_timer q <> Some true -> quiet w r ->
  exists w' c, rad_server_req_enter w e r = Ok (w', c) /\ rad_ok cf l T None None xl w' /\ w_ses w' = w_ses w /\
    ((c = 0 /\ exists q', w_req w' !! r = Some q' /\ rq_rpd q' = rq_rpd q /\ rq_kind q' = rq_kind q) \/
     (c < 0 /\ w_req w' !! r = Some q /\ quiet w' r /\ (forall type, usable_at w' T type (rq_serv q) = false) /\
      (forall type k, usable_at w' T type k = true -> usable_at w T type k = true))).
Proof.
  intros O E HT Hr Ha Hq Ht Qr. destruct (ho_at _ _ _ _ _ _ (rk_heap _ _ _ _ _ _ _ O) Hr) as (sv & Hs & Hc & S & R).
  destruct (co_serv _ _ CO _ _ Hc) as (Hl & Hft & Hnf). cbn in Hl, Hft, Hnf. pose proof (eo_now _ _ _ E) as Hnow.
  unfold rad_server_req_enter, req_at, serv_at. rewrite Hr. cbn [res_of_option mbind res_bind]. rewrite Hs.
  cbn [res_of_option mbind res_bind]. rewrite Hnf, <- HT. destruct (T <? rs_fail_time sv) eqn:Ef; zbool.
  { exists w, (-1). split; [done|]. split; [done|]. split; [done|]. right. split; [lia|]. split; [done|]. split; [done|].
    split; [|done]. intros type. unfold usable_at, usable. rewrite Hs.
    rewrite (proj2 (Z.eqb_neq _ _)), (proj2 (Z.ltb_lt _ _)) by lia. done. }
  destruct (rs_req_limit sv =? 0) eqn:El; zbool.
  { destruct (send_now_spec T xl w e r q false O E Hr Qr Hq) as [_ Hsend].
    { intros c Hcc. simplify_eq. cbn. lia. }
    destruct Hsend as (w' & q' & -> & O' & Hw & ? & ? & ? & ?).
    { destruct (eo_sock _ _ _ E _ _ Hc) as [?|[X _]]; [auto|]. cbn in X. lia. }
    exists w', 0. split; [done|]. split; [done|]. split; [done|]. left. split; [done|]. exists q'.
    rewrite Hw, lookup_insert_eq. auto. }
  rewrite Ha, Hq. cbn [orb]. destruct (rs_req_limit sv <=? rs_req_cnt sv) eqn:Ew; zbool.
  { eexists _, _. split; [reflexivity|]. split; [|split; [done|]].
    - pose proof (rad_enqueue_ok T xl w r q sv O Hr Ha Hq Qr Ht Hs Ew ltac:(lia)) as X.
      unfold enqueued in X. rewrite Ha in X. exact X.
    - left. split; [done|]. eexists. cbn. rewrite lookup_insert_eq. split; [done|]. done. }
  pose proof (take_ok T xl w r q sv O Hr Ha Hq Qr Hs ltac:(lia) ltac:(lia)) as O1. rewrite Hq in O1.
  set (sv1 := set_window sv (rs_req_cnt sv + 1) _ _ _) in *. set (q1 := set_slot q true false) in *.
  set (w1 := put_req (put_serv w (rq_serv q) sv1) r q1) in *.
  assert (Hr1 : w_req w1 !! r = Some q1) by apply lookup_insert_eq.
  destruct (send_now_spec T xl w1 e r q1 false O1 E Hr1 Qr eq_refl) as [HF HS]; [done|].
  destruct (rq_fd q1 || e_sock e (rq_serv q1)) eqn:Efd.
  { destruct HS as (w' & q' & -> & O' & Hw & ? & ? & ? & ?); [now apply orb_true_iff in Efd|].
    exists w', 0. split; [done|]. split; [done|]. split; [done|]. left. split; [done|]. exists q'.
    rewrite Hw, lookup_insert_eq. auto. }
  apply orb_false_iff in Efd as [Efd Esock]. rewrite (HF Efd Esock). cbn [mbind res_bind Z.eqb].
  rewrite Hr1. cbn [res_of_option mbind res_bind].
  assert (Hs1 : w_serv w1 !! rq_serv q = Some sv1) by apply lookup_insert_eq.
  rewrite Hs1. cbn [res_of_option mbind res_bind].
  pose proof (release_ok T (Some (rq_serv q1)) xl w1 r q1 sv1 O1 Hr1 eq_refl Qr Ht Hs1 ltac:(auto)) as O2.
  change (rq_serv q1) with (rq_serv q) in O2.
  set (w2 := put_serv _ _ _) in O2 |- *.
  destruct (fail_spec T (Some (rq_serv q)) xl w2 e (rq_serv q) O2 HT ltac:(eauto) ltac:(auto))
    as (w' & -> & O' & Os & Ok' & sv2 & sv' & Hs2 & Hs' & Ec' & _ & Ef').
  cbn [mbind res_bind]. exists w', (-2). split; [done|]. split; [done|].
  assert (Eq : set_slot q1 false (rq_queued q1) = q) by (unfold q1; destruct q; cbn in *; subst; done).
  assert (Hr2 : w_req w2 !! r = Some q) by (unfold w2; rewrite Eq; apply lookup_insert_eq).
  split; [apply Os|]. right. split; [lia|].
  split; [apply (os_req _ _ _ Os); auto|]. split; [apply (os_quiet _ _ _ Os _ _ Hr2); auto|].
  assert (sv2 = set_window sv1 (rs_req_cnt sv1 - 1) (rs_queue_cnt sv1) (rs_queue0 sv1) (rs_queue1 sv1)) as ->.
  { unfold w2 in Hs2. cbn in Hs2. rewrite lookup_insert_eq in Hs2. now injection Hs2. }
  cbn in Ef'. rewrite (proj2 (Z.leb_le _ _)) in Ef' by lia.
  destruct (eo_sock _ _ _ E _ _ Hc) as [X|[_ Hfp]]; [cbn in Esock; congruence|]. cbn in Hfp.
  assert (U : forall type, usable_at w' T type (rq_serv q) = false).
  { intros type. unfold usable_at, usable. rewrite Hs', Ef'.
    rewrite (proj2 (Z.eqb_neq _ _)), (proj2 (Z.ltb_lt _ _)) by lia. done. }
  split; [done|]. intros type k. destruct (decide (k = rq_serv q)) as [->|Hk]; [now rewrite U|].
  unfold usable_at. rewrite Ok' by done. unfold w2. cbn. now rewrite !lookup_insert_ne by done.
Qed.

(** ** Clients of a server *)
Lemma server_ok_clients T x m m' s sv type d :
  server_ok T x m s sv ->
  tally (auth_of s) m' = tally (auth_of s) m + (if type =? RAD_SERV_AUTH then d else 0) ->
  tally (acct_of s) m' = tally (acct_of s) m + (if type =? RAD_SERV_AUTH then 0 else d) ->
  tally (active_of s) m' = tally (active_of s) m ->
  (forall p k, queue_ok m s p k -> queue_ok m' s p k) ->
  server_ok T x m' s (add_client sv type d).
Proof using.
  intros [] E0 E1 E2 Hq. unfold add_client. destruct (type =? RAD_SERV_AUTH); split; cbn; auto; congruence || lia.
Qed.

Lemma add_client_conf sv type d : conf_of (add_client sv type d) = conf_of sv.
Proof using. unfold add_client. now destruct (type =? RAD_SERV_AUTH). Qed.

Lemma idle_tallies s q : rq_active q = false -> active_of s q = false.
Proof using. intros H. unfold active_of. now rewrite H, andb_false_r. Qed.

Lemma type_tallies q :
  b2z (auth_of (rq_serv q) q) = (if rq_type q =? RAD_SERV_AUTH then 1 else 0) /\
  b2z (acct_of (rq_serv q) q) = (if rq_type q =? RAD_SERV_AUTH then 0 else 1).
Proof using. unfold auth_of, acct_of. rewrite of_server_refl. now destruct (rq_type q =? RAD_SERV_AUTH). Qed.

Lemma elsewhere_tallies s q : rq_serv q <> s -> auth_of s q = false /\ acct_of s q = false /\ active_of s q = false.
Proof using. intros H. unfold auth_of, acct_of, active_of, of_server. now rewrite (proj2 (Nat.eqb_neq _ _) H). Qed.

(** A request moves from its server to [j]. *)
Lemma heap_move T w r q q' i j svi svj :
  heap_ok cf l T None None w -> w_req w !! r = Some q -> rq_active q = false -> rq_queued q = false ->
  rq_serv q = i -> w_serv w !! i = Some svi -> w_serv w !! j = Some svj -> i <> j ->
  rq_serv q' = j -> rq_type q' = rq_type q -> rq_active q' = false -> rq_queued q' = false ->
  (forall c, cf !! j = Some c -> req_ok true c q') ->
  heap_ok cf l T None None
    (put_req (put_serv (put_serv w j (add_client svj (rq_type q) 1)) i (add_client svi (rq_type q) (-1))) r q').
Proof using.
  intros [C L S R N] Hr Ha Hq Hi Hsi Hsj Hij Hj Ht Ha' Hq' Ho.
  assert (Q : forall s p k, queue_ok (w_req w) s p k -> queue_ok (<[r := q']> (w_req w)) s p k).
  { intros s p k Hk. eapply queue_ok_same; eauto. unfold inq. rewrite Hq, Hq'. split; intros (_&?&_); done. }
  split; cbn; auto.
  - rewrite !fmap_insert, !add_client_conf, C.
    rewrite (insert_id _ j) by (now rewrite <- C, lookup_fmap, Hsj). rewrite insert_id; [done|].
    now rewrite <- C, lookup_fmap, Hsi.
  - intros s sv. destruct (decide (s = i)) as [->|Hsi'].
    { rewrite lookup_insert_eq. intros [= <-]. apply server_ok_clients with (w_req w); [now apply S| | | |apply Q].
      all: rewrite (tally_upd _ _ r q) by done; subst i; destruct (type_tallies q) as [T0 T1];
        destruct (elsewhere_tallies (rq_serv q) q') as (X0 & X1 & X2); [congruence|];
        rewrite ?T0, ?T1, ?X0, ?X1, ?X2, ?idle_tallies by done; cbn; try destruct (_ =? _); lia. }
    rewrite lookup_insert_ne by done. destruct (decide (s = j)) as [->|Hsj'].
    { rewrite lookup_insert_eq. intros [= <-]. apply server_ok_clients with (w_req w); [now apply S| | | |apply Q].
      all: rewrite (tally_upd _ _ r q) by done; subst j; destruct (type_tallies q') as [T0 T1];
        destruct (elsewhere_tallies (rq_serv q') q) as (X0 & X1 & X2); [congruence|];
        rewrite ?T0, ?T1, ?X0, ?X1, ?X2, ?idle_tallies, ?Ht by done; cbn; try destruct (_ =? _); lia. }
    rewrite lookup_insert_ne by done. intros Hss. apply server_ok_same with (w_req w); [|now apply S].
    apply same_for_elsewhere with q; congruence.
  - intros k x. destruct (decide (k = r)) as [->|Hk].
    + rewrite lookup_insert_eq. intros [= <-]. exists (conf_of svj). rewrite Hj.
      assert (cf !! j = Some (conf_of svj)) by now rewrite <- C, lookup_fmap, Hsj. auto.
    + rewrite lookup_insert_ne by done. apply R.
  - intros k. destruct (decide (k = r)) as [->|Hk]; [intros _; apply N; eauto|].
    rewrite lookup_insert_ne by done. apply N.
Qed.

(** A new request for [j]. *)
Lemma heap_new T w q j svj r :
  heap_ok cf l T None None w -> w_serv w !! j = Some svj -> rq_serv q = j -> rq_active q = false -> rq_queued q = false ->
  (forall c, cf !! j = Some c -> req_ok true c q) -> r = w_next w ->
  heap_ok cf l T None None
    (mk_world (w_list w) (<[j := add_client svj (rq_type q) 1]> (w_serv w)) (<[r := q]> (w_req w)) (w_ses w)
       (w_calls w) (S r) (w_out w)).
Proof using.
  intros [C L S R N] Hsj Hj Ha Hq Ho ->.
  assert (Hn : w_req w !! w_next w = None).
  { destruct (w_req w !! w_next w) eqn:E; [|done]. enough (w_next w < w_next w)%nat by lia. apply N. eauto. }
  split; cbn; auto.
  - rewrite fmap_insert, add_client_conf, C. apply insert_id. now rewrite <- C, lookup_fmap, Hsj.
  - intros s sv. destruct (decide (s = j)) as [->|Hs].
    { rewrite lookup_insert_eq. intros [= <-]. apply server_ok_clients with (w_req w); [now apply S| | | |].
      4: { intros p k Hk. apply queue_ok_new; auto. intros (_ & X & _). congruence. }
      all: rewrite tally_new by done; subst j; destruct (type_tallies q) as [T0 T1];
        rewrite ?T0, ?T1, ?idle_tallies by done; cbn; try destruct (_ =? _); lia. }
    rewrite lookup_insert_ne by done. intros Hss. apply server_ok_same with (w_req w); [|now apply S].
    apply same_for_new; congruence.
  - intros k x. destruct (decide (k = w_next w)) as [->|Hk].
    + rewrite lookup_insert_eq. intros [= <-]. exists (conf_of svj). rewrite Hj.
      assert (cf !! j = Some (conf_of svj)) by now rewrite <- C, lookup_fmap, Hsj. auto.
    + rewrite lookup_insert_ne by done. apply R.
  - intros k. destruct (decide (k = w_next w)) as [->|Hk]; [lia|].
    rewrite lookup_insert_ne by done. intros X%N. lia.
Qed.

(** A request is freed. *)
Lemma heap_free T w r q sv :
  heap_ok cf l T None None w -> w_req w !! r = Some q -> rq_active q = false -> rq_queued q = false ->
  w_serv w !! rq_serv q = Some sv ->
  heap_ok cf l T None None
    (with_req (put_serv w (rq_serv q) (add_client sv (rq_type q) (-1))) (delete r (w_req w))).
Proof using.
  intros [C L S R N] Hr Ha Hq Hs. split; cbn; auto.
  - rewrite fmap_insert, add_client_conf, C. apply insert_id. now rewrite <- C, lookup_fmap, Hs.
  - intros s sv'. destruct (decide (s = rq_serv q)) as [->|Hs'].
    { rewrite lookup_insert_eq. intros [= <-]. apply server_ok_clients with (w_req w); [now apply S| | | |].
      4: { intros p k Hk. eapply queue_ok_delete; eauto. }
      all: rewrite (tally_delete _ _ r q) by done; destruct (type_tallies q) as [T0 T1];
        rewrite ?T0, ?T1, ?idle_tallies by done; cbn; try destruct (_ =? _); lia. }
    rewrite lookup_insert_ne by done. intros Hss. apply server_ok_same with (w_req w); [|now apply S].
    apply same_for_delete with q; auto.
  - intros k x [Hk Hx]%lookup_delete_Some. eauto.
  - intros k [x [Hk Hx]%lookup_delete_Some]. eauto.
Qed.

(** ** Another server *)
Lemma get_server_loop_spec w now type ex addr port L s0 s1 :
  (forall i, i ∈ L -> is_Some (w_serv w !! i)) ->
  (forall i, s0 = Some i \/ s1 = Some i -> i ∈ l /\ ex <> Some i /\ usable_at w now type i = true) ->
  (forall i, i ∈ L -> i ∈ l) ->
  exists a b, get_server_loop w now type ex addr port L s0 s1 = Ok (a, b) /\
    forall i, a = Some i \/ b = Some i -> i ∈ l /\ ex <> Some i /\ usable_at w now type i = true.
Proof using.
  revert s0 s1. induction L as [|i L IH]; intros s0 s1 HL Hs Hl; [cbn; eauto|]. cbn [get_server_loop].
  assert (HL' : forall k, k ∈ L -> is_Some (w_serv w !! k)) by (intros; apply HL; now right).
  assert (Hl' : forall k, k ∈ L -> k ∈ l) by (intros; apply Hl; now right).
  case_bool_decide as Ex; [now apply IH|]. destruct (HL i ltac:(left)) as [sv Hi].
  unfold serv_at. rewrite Hi. cbn [res_of_option mbind res_bind].
  destruct (usable now type sv) eqn:U; cbn [negb]; [|now apply IH].
  assert (Ui : i ∈ l /\ ex <> Some i /\ usable_at w now type i = true).
  { split; [apply Hl; left|]. split; [done|]. unfold usable_at. now rewrite Hi. }
  assert (Hs1 : forall k, (if matches type addr port sv s1 then Some i else s1) = Some k ->
                k ∈ l /\ ex <> Some k /\ usable_at w now type k = true).
  { intros k. destruct (matches _ _ _ _ _); [intros [= <-]; done | intros; apply Hs; auto]. }
  destruct s0 as [j|].
  - destruct (Hs j ltac:(auto)) as (_ & _ & Uj). unfold usable_at in Uj. destruct (w_serv w !! j) as [x|] eqn:Hj; [|done].
    cbn [res_of_option mbind res_bind]. apply IH; auto. intros k [[= <-]|Hk]; [|auto].
    destruct (better sv x); [done | apply Hs; auto].
  - apply IH; auto. intros k [[= <-]|Hk]; auto.
Qed.

Lemma get_spec T xs xr xl w e type ex addr port :
  rad_ok cf l T xs xr xl w -> T = e_now e ->
  exists w' o, __rad_server_get w e type ex addr port = Ok (w', o) /\
    match o with
    | None => w' = w
    | Some i => i ∈ l /\ ex <> Some i /\ usable_at w T type i = true /\
                exists sv, w_serv w !! i = Some sv /\ w' = put_serv w i (add_client sv type 1)
    end.
Proof using CO.
  intros [H _ _] HT. unfold __rad_server_get. rewrite (ho_list _ _ _ _ _ _ H), <- HT.
  destruct (get_server_loop_spec w T type ex addr port l None None) as (a & b & -> & Hab); [| |auto|].
  { intros i [c Hc]%(co_list _ _ CO). destruct (ho_find _ _ _ _ _ _ H Hc) as (sv & -> & _). eauto. }
  { intros i [?|?]; done. }
  cbn [mbind res_bind fst snd].
  assert (forall i, match b with Some s1 => Some s1 | None => a end = Some i ->
          i ∈ l /\ ex <> Some i /\ usable_at w T type i = true) as Hi by (intros i; destruct b; intros; apply Hab; auto).
  destruct (match b with Some s1 => Some s1 | None => a end) as [i|]; [|eexists _, None; eauto].
  destruct (Hi i eq_refl) as (A & B & C). unfold serv_at. pose proof C as C'. unfold usable_at in C'.
  destruct (w_serv w !! i) as [sv|] eqn:Hs; [|done]. cbn. eexists _, (Some i). split; [done|]. eauto 10.
Qed.

Lemma realloc_spec T xl w e r q :
  rad_ok cf l T None None xl w -> env_ok cf T e -> T = e_now e -> w_req w !! r = Some q ->
  rq_active q = false -> rq_queued q = false -> rq_timer q <> Some true -> quiet w r ->
  exists w' b, rad_server_realloc w e r = Ok (w', b) /\ rad_ok cf l T None None xl w' /\ w_ses w' = w_ses w /\
    quiet w' r /\ (forall type k, usable_at w' T type k = usable_at w T type k) /\
    if b then exists q', w_req w' !! r = Some q' /\ rq_rpd q' = rq_rpd q /\ rq_kind q' = rq_kind q /\
                rq_active q' = false /\ rq_queued q' = false /\ rq_timer q' = rq_timer q /\ rq_try q' = rq_try q /\
                rq_serv q' ∈ l /\ usable_at w' T (rq_type q') (rq_serv q') = true /\ rq_type q' = rq_type q
    else w' = w.
Proof using CO.
  intros O E HT Hr Ha Hq Ht Qr. unfold rad_server_realloc, req_at. rewrite Hr. cbn [res_of_option mbind res_bind].
  destruct (get_spec T None None xl w e (rq_type q) (Some (rq_serv q)) 0 0 O HT) as (w1 & o & -> & Ho).
  cbn [mbind res_bind]. destruct o as [j|].
  2: { subst w1. exists w, false. split; [done|]. split; [done|]. auto. }
  destruct Ho as (Hj & Hij & U & svj & Hsj & ->). rewrite (eo_mem _ _ _ E). cbn [negb].
  destruct (ho_at _ _ _ _ _ _ (rk_heap _ _ _ _ _ _ _ O) Hr) as (svi & Hsi & Hci & _ & R).
  destruct (co_serv _ _ CO _ _ Hci) as (_ & _ & Hnf). cbn in Hnf.
  assert (Hne : rq_serv q <> j) by congruence.
  unfold rad_server_put, serv_at. cbn [put_serv with_serv w_serv]. rewrite lookup_insert_ne by congruence. rewrite Hsi.
  cbn [res_of_option mbind res_bind].
  assert (Nf : rs_need_free (add_client svi (rq_type q) (-1)) = false).
  { unfold add_client. now destruct (rq_type q =? RAD_SERV_AUTH). }
  rewrite Nf. cbn [andb mbind res_bind fst].
  set (q' := if rq_fd (set_serv q j) then _ else _).
  assert (Q' : rq_serv q' = j /\ rq_type q' = rq_type q /\ rq_active q' = false /\ rq_queued q' = false /\
               rq_timer q' = rq_timer q /\ rq_rpd q' = rq_rpd q /\ rq_kind q' = rq_kind q /\ rq_try q' = rq_try q /\
               (rq_md q' = None)).
  { unfold q'. cbn. destruct (rq_fd q) eqn:Ef; repeat split; auto; cbn.
    destruct (rq_md q) eqn:Em; [|done]. rewrite (ro_md _ _ _ R) in Ef; [done|congruence]. }
  destruct Q' as (Qs & Qt & Qa & Qq & Qti & Qp & Qk & Qtr & Qm).
  eexists _, true. split; [reflexivity|]. split; [split|split; [done|split; [exact Qr|split]]].
  - apply (heap_move T w r q q' (rq_serv q) j svi svj); auto; [apply O|].
    intros c _. destruct R. split; rewrite ?Qa, ?Qq, ?Qti, ?Qm, ?Qk, ?Qt, ?Qp; auto; done.
  - apply (links_ext xl (put_req w r q')); [done..|]. apply (links_req xl w r q); auto. apply O.
  - apply (calls_ext (put_req w r q')); [done..|]. apply calls_req; auto. apply O.
  - intros type k. unfold usable_at. cbn.
    destruct (decide (k = rq_serv q)) as [->|Hk].
    + rewrite lookup_insert_eq, Hsi. unfold usable, add_client. now destruct (rq_type q =? RAD_SERV_AUTH).
    + rewrite lookup_insert_ne by done. destruct (decide (k = j)) as [->|Hk'].
      * rewrite lookup_insert_eq, Hsj. unfold usable, add_client. now destruct (rq_type q =? RAD_SERV_AUTH).
      * now rewrite lookup_insert_ne.
  - exists q'. cbn. rewrite lookup_insert_eq. repeat split; auto; [now rewrite Qs|].
    rewrite Qt, Qs. unfold usable_at. cbn. rewrite lookup_insert_ne by congruence. rewrite lookup_insert_eq.
    unfold usable_at in U. rewrite Hsj in U. unfold usable, add_client in *. now destruct (rq_type q =? RAD_SERV_AUTH).
Qed.

(** ** Until a server takes the request *)
Lemma left_over_le w w' T type k :
  (forall i, usable_at w' T type i = true -> usable_at w T type i = true) ->
  (left_over w' T type k <= left_over w T type k)%nat.
Proof using.
  intros H. unfold left_over. induction k as [|i k IH]; [done|]. rewrite !filter_cons.
  repeat case_decide; cbn; try lia. exfalso. auto.
Qed.

Lemma left_over_lt w w' T type k s :
  (forall i, usable_at w' T type i = true -> usable_at w T type i = true) ->
  s ∈ k -> usable_at w T type s = true -> usable_at w' T type s = false ->
  (left_over w' T type k < left_over w T type k)%nat.
Proof using.
  intros H Hs U U'. induction k as [|i k IH]; [now apply not_elem_of_nil in Hs|].
  pose proof (left_over_le w w' T type k H). unfold left_over in *. rewrite !filter_cons.
  destruct (decide (i = s)) as [->|Hi].
  - repeat case_decide; cbn; solve [lia | congruence].
  - apply elem_of_cons in Hs as [?|Hs]; [congruence|]. specialize (IH Hs).
    repeat case_decide; cbn; try lia. exfalso. auto.
Qed.

Lemma enter_loop_spec T xl fuel w e r q :
  rad_ok cf l T None None xl w -> env_ok cf T e -> T = e_now e -> w_req w !! r = Some q ->
  rq_active q = false -> rq_queued q = false -> rq_timer q <> Some true -> quiet w r ->
  (rq_serv q ∈ l /\ usable_at w T (rq_type q) (rq_serv q) = true /\ (left_over w T (rq_type q) l < fuel)%nat) \/
  (S (left_over w T (rq_type q) l) < fuel)%nat ->
  exists w' c, enter_loop fuel w e r = Ok (w', c) /\ rad_ok cf l T None None xl w' /\ w_ses w' = w_ses w /\
    sent_or_idle q r w' c.
Proof using CO.
  revert w q. induction fuel as [|fuel IH]; intros w q O E HT Hr Ha Hq Ht Qr F; [exfalso; lia|].
  cbn [enter_loop].
  destruct (enter_spec T xl w e r q O E HT Hr Ha Hq Ht Qr) as (w1 & c & -> & O1 & S1 & [[-> R1]|(Hc & R1 & Q1 & U1 & M1)]).
  { cbn. exists w1, 0. split; [done|]. split; [done|]. split; [done|]. left. auto. }
  cbn [mbind res_bind]. rewrite (proj2 (Z.leb_gt _ _)) by lia.
  destruct (realloc_spec T xl w1 e r q O1 E HT R1 Ha Hq Ht Q1) as (w2 & b & -> & O2 & S2' & Q2 & U2 & B).
  cbn [mbind res_bind]. destruct b; cbn [negb].
  2: { subst w2. exists w1, (-1). split; [done|]. split; [done|]. split; [done|]. right. eauto 10. }
  destruct B as (q2 & R2 & P2 & K2 & A2 & Qu2 & T2 & _ & L2 & V2 & Ty2).
  destruct (IH w2 q2) as (w' & c' & -> & O' & S' & X); auto; [congruence| |].
  - left. split; [done|]. split; [done|]. rewrite Ty2.
    assert (left_over w2 T (rq_type q) l <= left_over w1 T (rq_type q) l)%nat
      by (apply left_over_le; intros i; now rewrite U2).
    destruct F as [(Lq & Uq & F)|F].
    + pose proof (left_over_lt w w1 T (rq_type q) l (rq_serv q) (M1 _) Lq Uq (U1 _)). lia.
    + pose proof (left_over_le w w1 T (rq_type q) l (M1 _)). lia.
  - exists w', c'. split; [done|]. split; [done|]. split; [congruence|].
    destruct X as [(-> & x & ? & ? & ?)|(-> & Qx & x & ? & ? & ? & ? & ? & ?)]; [left|right].
    + split; [done|]. exists x. repeat split; congruence.
    + split; [done|]. split; [done|]. exists x. repeat split; congruence.
Qed.

Lemma left_over_all w T type k : (left_over w T type k <= length k)%nat.
Proof using. unfold left_over. apply length_filter. Qed.

Lemma set_try_ok T xl w r q t :
  rad_ok cf l T None None xl w -> w_req w !! r = Some q -> quiet w r ->
  rad_ok cf l T None None xl (put_req w r (set_try q t)).
Proof using.
  intros O Hr Qr. apply (rad_req_upd T None None xl w r q); auto; [now split|]. intros c _ []. now split.
Qed.

Lemma rad_req_send_spec T xl fuel w e r q :
  rad_ok cf l T None None xl w -> env_ok cf T e -> T = e_now e -> w_req w !! r = Some q ->
  rq_queued q = false -> rq_timer q <> Some true -> (rq_active q = true -> rq_fd q = true) -> quiet w r ->
  (S (length l) < fuel)%nat ->
  exists w' c, rad_req_send fuel w e r = Ok (w', c) /\ rad_ok cf l T None None xl w' /\ w_ses w' = w_ses w /\
    sent_or_idle q r w' c.
Proof using CO.
  intros O E HT Hr Hq Ht Hf Qr Fu. unfold rad_req_send, req_at. rewrite Hr. cbn [res_of_option mbind res_bind].
  set (q1 := set_try q (rq_try q + 1)). set (w1 := put_req w r q1).
  assert (O1 : rad_ok cf l T None None xl w1) by now apply set_try_ok.
  assert (R1 : w_req w1 !! r = Some q1) by apply lookup_insert_eq.
  assert (Loop : forall w2 q2, rad_ok cf l T None None xl w2 -> w_req w2 !! r = Some q2 -> w_ses w2 = w_ses w ->
    rq_rpd q2 = rq_rpd q -> rq_kind q2 = rq_kind q -> rq_active q2 = false -> rq_queued q2 = false ->
    rq_timer q2 = rq_timer q -> quiet w2 r ->
    exists w' c, (q ← res_of_option (w_req w2 !! r); if negb (rq_active q) then enter_loop fuel w2 e r else send_now w2 e r false)
      = Ok (w', c) /\ rad_ok cf l T None None xl w' /\ w_ses w' = w_ses w /\ sent_or_idle q r w' c).
  { intros w2 q2 O2 R2 S2' P2 K2 A2 Qu2 T2 Q2. rewrite R2. cbn [res_of_option mbind res_bind]. rewrite A2. cbn [negb].
    destruct (enter_loop_spec T xl fuel w2 e r q2) as (w' & c & -> & O' & S' & X); auto; [congruence| |].
    { right. pose proof (left_over_all w2 T (rq_type q2) l). lia. }
    exists w', c. split; [done|]. split; [done|]. split; [congruence|].
    destruct X as [(-> & x & ? & ? & ?)|(-> & Qx & x & ? & ? & ? & ? & ? & ?)]; [left|right].
    - split; [done|]. exists x. repeat split; congruence.
    - split; [done|]. split; [done|]. exists x. repeat split; congruence. }
  destruct (rq_try q =? e_max_try e).
  - assert (exists w2 q2, (if rq_active q then rad_server_req_exit w1 r else mret w1) = Ok w2 /\
      rad_ok cf l T None None xl w2 /\ w_ses w2 = w_ses w /\ quiet w2 r /\ w_req w2 !! r = Some q2 /\
      rq_rpd q2 = rq_rpd q /\ rq_kind q2 = rq_kind q /\ rq_active q2 = false /\ rq_queued q2 = false /\
      rq_timer q2 = rq_timer q) as (w2 & q2 & -> & O2 & S2' & Q2 & R2 & P2 & K2 & A2 & Qu2 & T2).
    { destruct (rq_active q) eqn:Ha.
      - destruct (exit_spec T None xl w1 r q1 O1 R1 Ha Qr ltac:(auto)) as (w2 & -> & O2 & R2 & Os).
        exists w2, (set_slot q1 false (rq_queued q1)). split; [done|]. split; [done|].
        split; [apply (os_ses _ _ _ Os)|]. split; [apply (os_quiet _ _ _ Os _ _ R1 Hq Qr)|]. now repeat split.
      - exists w1, q1. now split_and!. }
    cbn [mbind res_bind].
    destruct (realloc_spec T xl w2 e r q2 O2 E HT R2 A2 Qu2 ltac:(congruence) Q2) as (w3 & b & -> & O3 & S3 & Q3 & _ & B).
    cbn [mbind res_bind]. destruct b; cbn [negb].
    + destruct B as (q3 & R3 & P3 & K3 & A3 & Qu3 & T3 & _). rewrite R3. cbn [res_of_option mbind res_bind mret res_ret].
      apply (Loop _ (set_try q3 1)); cbn; try congruence; [now apply set_try_ok | apply lookup_insert_eq | exact Q3].
    + subst w3. cbn [mbind res_bind mret res_ret]. exists w2, (-1). split; [done|]. split; [done|]. split; [done|].
      right. eauto 10.
  - cbn [mbind res_bind mret res_ret]. destruct (rq_active q) eqn:Ha.
    + rewrite R1. cbn [res_of_option mbind res_bind]. unfold q1. cbn [rq_active set_try]. rewrite Ha. cbn [negb].
      destruct (send_now_spec T xl w1 e r q1 false O1 E R1 Qr Hq) as [_ HS]; [auto|].
      destruct HS as (w' & q' & Es & O' & Hw & ? & ? & ? & ?); [left; apply Hf; auto|].
      exists w', 0. split; [exact Es|]. split; [done|]. split; [done|]. left. split; [done|]. exists q'.
      rewrite Hw, lookup_insert_eq. auto.
    + now apply (Loop w1 q1).
Qed.
End Heap.

(** ** The choice of a server *)

(** [better] is a strict weak order when weights are positive. *)
Lemma better_trans a b c :
  0 < rs_weight a -> 0 < rs_weight b -> 0 < rs_weight c ->
  better a c = false -> better b c = true -> better a b = false.
Proof.
  unfold better. intros Wa Wb Wc H1 H2.
  apply orb_false_iff in H1 as [H1 H1']. apply Z.ltb_ge in H1. apply orb_true_iff in H2.
  apply orb_false_iff. destruct H2 as [H2|H2].
  - apply Z.ltb_lt in H2. split; [apply Z.ltb_ge; lia|]. rewrite (proj2 (Z.eqb_neq _ _)) by lia. done.
  - apply andb_true_iff in H2 as [H2 H2']. apply Z.eqb_eq in H2. apply Z.ltb_lt in H2'.
    split; [apply Z.ltb_ge; lia|]. destruct (rs_backup a =? rs_backup b) eqn:Hab; [|done].
    apply Z.eqb_eq in Hab. rewrite (proj2 (Z.eqb_eq _ _)) in H1' by lia. cbn [andb] in *.
    apply Z.ltb_ge in H1'. apply Z.ltb_ge.
    apply (Z.mul_le_mono_pos_r _ _ (rs_weight c)); [done|].
    transitivity (clients c * rs_weight b * rs_weight a); [nia|]. nia.
Qed.

Lemma better_irrefl a : better a a = false.
Proof. unfold better. rewrite !Z.ltb_irrefl. now rewrite andb_false_r. Qed.

Lemma get_loop_best w now type L S o :
  (forall j, j ∈ S ++ L -> exists s, w_serv w !! j = Some s /\ 0 < rs_weight s /\ rs_addr s <> 0) ->
  best_of w now type S o ->
  exists o', get_server_loop w now type None 0 0 L o None = Ok (o', None) /\ best_of w now type (S ++ L) o'.
Proof.
  revert S o. induction L as [|i L IH]; intros S o HL B; [rewrite app_nil_r; now exists o|].
  cbn [get_server_loop]. rewrite bool_decide_false by done. unfold serv_at.
  destruct (HL i) as (s & Hs & Ws & As); [set_solver|]. rewrite Hs. cbn [res_of_option mbind res_bind].
  replace (S ++ i :: L) with ((S ++ [i]) ++ L) by now rewrite <- app_assoc. rewrite cons_middle, app_assoc in HL.
  assert (Hm : matches type 0 0 s None = false) by (unfold matches; now rewrite (proj2 (Z.eqb_neq _ _))).
  destruct (usable now type s) eqn:Hu; cbn [negb]; [rewrite Hm; destruct o as [j|]|].
  - destruct B as (Hj & sj & Hsj & Uj & Bj). rewrite Hsj. cbn [res_of_option mbind res_bind]. apply IH; [done|].
    destruct (HL j) as (x & Hx & Wj & _); [set_solver|]. simplify_eq.
    destruct (better s sj) eqn:Hb; cbn.
    + split; [set_solver|]. exists s. split; [done|]. split; [done|].
      intros k y [Hk| ->%list_elem_of_singleton]%elem_of_app Hy Uy; [|simplify_eq; apply better_irrefl].
      destruct (HL k) as (y' & Hy' & Wy & _); [set_solver|]. rewrite Hy in Hy'. injection Hy' as <-.
      apply (better_trans y s sj); eauto.
    + split; [set_solver|]. exists sj. split; [done|]. split; [done|].
      intros k y [Hk| ->%list_elem_of_singleton]%elem_of_app Hy Uy; [eauto | now simplify_eq].
  - apply IH; [done|]. split; [set_solver|]. exists s. split; [done|]. split; [done|].
    intros k y [Hk| ->%list_elem_of_singleton]%elem_of_app Hy Uy; [|simplify_eq; apply better_irrefl].
    specialize (B k y Hk Hy). congruence.
  - apply IH; [done|]. destruct o as [j|]; cbn in *.
    + destruct B as (Hj & sj & Hsj & Uj & Bj). split; [set_solver|]. exists sj. split; [done|]. split; [done|].
      intros k y [Hk| ->%list_elem_of_singleton]%elem_of_app Hy Uy; [eauto | simplify_eq; congruence].
    + intros k y [Hk| ->%list_elem_of_singleton]%elem_of_app Hy; [eauto | now simplify_eq].
Qed.

(** [rad_server_get] finds a server exactly when one may be used, and the one it finds
    is none of the backups while another is there, and has the fewest clients for its
    weight; the client is counted.  Servers have an IPv4 address and a weight. *)
Theorem rad_server_get_best (w : world) (e : env) (type : Z) :
  listed_ok w ->
  exists w' o, rad_server_get w e type = Ok (w', o) /\ best_of w (e_now e) type (w_list w) o /\
    match o with
    | None => w' = w
    | Some i => exists s, w_serv w !! i = Some s /\ w' = put_serv w i (add_client s type 1)
    end.
Proof.
  intros HL. unfold rad_server_get, __rad_server_get.
  destruct (get_loop_best w (e_now e) type (w_list w) [] None) as (o & -> & B); [exact HL | |].
  { intros j s X. now apply not_elem_of_nil in X. }
  cbn [mbind res_bind fst snd]. destruct o as [i|]; [|now exists w, None].
  destruct B as (Hi & si & Hsi & U & B). unfold serv_at. rewrite Hsi. cbn [res_of_option mbind res_bind].
  eexists _, (Some i). split; [reflexivity|]. split; [|eauto]. split; [done|]. eauto.
Qed.

Lemma rad_server_get_best_witness :
  let s c b := mk_server 1 1812 1813 0 0 0 0 0 [] [] c 0 0 0 2 b false in
  let w := mk_world [0; 1; 2]%nat (<[0%nat := s 0 1]> (<[1%nat := s 3 0]> {[2%nat := s 2 0]})) ∅ ∅ [] 0 [] in
  listed_ok w /\ best_of w 5 RAD_SERV_AUTH [0; 1; 2]%nat (Some 2%nat).
Proof.
  intros s w. assert (L : listed_ok w).
  { intros j Hj. cbn in Hj. repeat (apply elem_of_cons in Hj as [->|Hj]; [eexists; split; [reflexivity|]; cbn; lia|]).
    now apply not_elem_of_nil in Hj. }
  split; [exact L|].
  destruct (rad_server_get_best w (mk_env 5 (fun _ => true) true 3 0 0 false) RAD_SERV_AUTH L) as (w' & o & H & B & _).
  replace o with (Some 2%nat) in B by (vm_compute in H; congruence). exact B.
Defined.
