(* ===== verification/RadiusClient.v ===== *)
(** * The RADIUS client of the sessions (accel-pppd/radius/auth.c, acct.c, radius.c)

    Authentication and accounting of sessions on top of the requests of [RadiusServ]:
    their start, replies, timeouts, the calls pending in contexts, the end of a session
    and of a server.

    A handler runs as one step.  A call of a session ([OTerminate], [OAuthResult],
    [OAcctStarted]) is the last thing a handler does; what the session then does is a
    later step.  acct-delay-start is 0. *)
From stdpp Require Import gmap.
From S2P Require Import Prelude RadiusServ.

Definition pd_at (w : world) (ses : nat) : res radius_pd_t := res_of_option (w_ses w !! ses).
Definition put_pd (w : world) (ses : nat) (pd : radius_pd_t) : world := with_ses w (<[ses := pd]> (w_ses w)).
Definition set_auth (pd : radius_pd_t) (o : option nat) : radius_pd_t :=
  mk_pd o (pd_acct pd) (pd_acct_started pd) (pd_interim pd) (pd_interim_timer pd).
Definition set_acct (pd : radius_pd_t) (o : option nat) : radius_pd_t :=
  mk_pd (pd_auth pd) o (pd_acct_started pd) (pd_interim pd) (pd_interim_timer pd).
Definition set_started (pd : radius_pd_t) (b : bool) : radius_pd_t :=
  mk_pd (pd_auth pd) (pd_acct pd) b (pd_interim pd) (pd_interim_timer pd).
Definition set_interim_timer (pd : radius_pd_t) (b : bool) : radius_pd_t :=
  mk_pd (pd_auth pd) (pd_acct pd) (pd_acct_started pd) (pd_interim pd) b.

(** [ses_starting] *)
Definition ses_starting (w : world) (e : env) (ses : nat) : world :=
  put_pd w ses (mk_pd None None false (e_interim e) false).

(** [__rad_req_alloc] *)
Definition rad_req_alloc (w : world) (e : env) (ses : nat) (k : rad_kind) (prio : bool)
  : res (world * option nat) :=
  if negb (e_mem e) then mret (w, None)
  else
    let type := match k with KAuth => RAD_SERV_AUTH | _ => RAD_SERV_ACCT end in
    p ← rad_server_get w e type;
    let '(w, o) := p in
    match o with
    | None => mret (w, None)
    | Some i =>
        let r := w_next w in
        let q := mk_req i type prio 0 false false false None None (Some ses) k (e_now e) in
        mret (mk_world (w_list w) (w_serv w) (<[r := q]> (w_req w)) (w_ses w) (w_calls w) (S r) (w_out w), Some r)
    end.

(** [rad_pwdb_check] with one of the rad_auth functions: PWDB_DENIED is a result at once. *)
Definition rad_auth (fuel : nat) (w : world) (e : env) (ses : nat) : res world :=
  p ← rad_req_alloc w e ses KAuth false;
  let '(w, o) := p in
  match o with
  | None => mret (emit w (OAuthResult ses false))
  | Some r =>
      pd ← pd_at w ses;
      let w := put_pd w ses (set_auth pd (Some r)) in
      x ← rad_req_send fuel w e r;
      let '(w, c) := x in
      if c =? 0 then mret w
      else
        w ← rad_req_free w r;
        pd ← pd_at w ses;
        mret (emit (put_pd w ses (set_auth pd None)) (OAuthResult ses false))
  end.

(** [ses_acct_start], [__rad_acct_start] *)
Definition rad_acct_start (fuel : nat) (w : world) (e : env) (ses : nat) : res world :=
  p ← rad_req_alloc w e ses KStart false;
  let '(w, o) := p in
  match o with
  | None => mret (emit w (OTerminate ses))
  | Some r =>
      x ← rad_req_send fuel w e r;
      let '(w, c) := x in
      if c =? 0 then pd ← pd_at w ses; mret (put_pd w ses (set_acct pd (Some r)))
      else w ← rad_req_free w r; mret (emit w (OTerminate ses))
  end.

(** [rad_acct_interim_update]: [late] is that the session ends soon, [stats] that the counters
    could be read, [force] that there is a new prefix to report. *)
Definition rad_acct_interim_update (fuel : nat) (w : world) (e : env) (ses : nat) (late stats force : bool)
  : res world :=
  pd ← pd_at w ses;
  r ← res_of_option (pd_acct pd);
  q ← req_at w r;
  if rq_queued q || isset (rq_timer q) then mret w
  else if late then mret w
  else if negb stats then mret (emit w (OTerminate ses))
  else if (pd_interim pd =? 0) && negb force then mret w
  else
    let w := put_req w r (set_try (set_ts q (e_now e)) 0) in
    x ← rad_req_send fuel w e r;
    let '(w, c) := x in
    if negb (c =? 0) && negb (e_acct_timeout e =? 0) then mret (emit w (OTerminate ses)) else mret w.

(** ** Timeouts *)

(** [rad_auth_timeout] *)
Definition rad_auth_timeout (fuel : nat) (w : world) (e : env) (r : nat) : res world :=
  q ← req_at w r;
  w ← rad_server_timeout w e (rq_serv q);
  x ← rad_req_send fuel w e r;
  let '(w, c) := x in
  if c =? 0 then mret w else ses ← session_of q; rad_auth_finalize w ses false.

(** [rad_acct_start_timeout] *)
Definition rad_acct_start_timeout (fuel : nat) (w : world) (e : env) (r : nat) : res world :=
  q ← req_at w r;
  w ← rad_server_timeout w e (rq_serv q);
  x ← rad_req_send fuel w e r;
  let '(w, c) := x in
  if c =? 0 then mret w else ses ← session_of q; mret (emit w (OTerminate ses)).

(** [rad_acct_timeout] *)
Definition rad_acct_timeout (fuel : nat) (w : world) (e : env) (r : nat) : res world :=
  q ← req_at w r;
  w ← rad_server_req_exit w r;
  w ← rad_server_timeout w e (rq_serv q);
  q ← req_at w r;
  if e_acct_timeout e =? 0 then
    q ← timer_del q;
    q ← md_unregister q true;
    mret (put_req w r q)
  else if e_acct_timeout e <? e_now e - rq_ts q then
    q ← timer_del q;
    ses ← session_of q;
    mret (emit (put_req w r q) (OTerminate ses))
  else
    x ← rad_req_send fuel (put_req w r (set_try q 0)) e r;
    let '(w, c) := x in
    if c =? 0 then mret w else ses ← session_of q; mret (emit w (OTerminate ses)).

(** [rad_acct_stop_timeout] *)
Definition rad_acct_stop_timeout (fuel : nat) (w : world) (e : env) (r : nat) : res world :=
  q ← req_at w r;
  w ← (if rq_active q then
         w ← rad_server_timeout w e (rq_serv q);
         rad_server_req_exit w r
       else mret w);
  if e_max_try e <=? rq_try q then
    w ← forget_acct w (rq_rpd q); rad_req_free w r
  else
    x ← rad_req_send fuel w e r;
    let '(w, c) := x in
    if c =? 0 then mret w
    else if e_shutdown e then w ← forget_acct w (rq_rpd q); rad_req_free w r
    else q ← req_at w r; mret (put_req w r (set_io q (rq_fd q) (rq_md q) (Some true))).

(** A timer has run out; it stays registered. *)
Definition on_timer (fuel : nat) (w : world) (e : env) (r : nat) : res world :=
  q ← req_at w r;
  let w := put_req w r (set_io q (rq_fd q) (rq_md q) (Some false)) in
  match rq_kind q with
  | KAuth => rad_auth_timeout fuel w e r
  | KStart => rad_acct_start_timeout fuel w e r
  | KInterim => rad_acct_timeout fuel w e r
  | KStop => rad_acct_stop_timeout fuel w e r
  end.

(** ** Replies *)

(** [rad_acct_start_recv] *)
Definition rad_acct_start_recv (w : world) (r : nat) : res world :=
  q ← req_at w r;
  q ← timer_del q;
  q ← md_unregister q true;
  let w := put_req w r q in
  ses ← session_of q;
  pd ← pd_at w ses;
  w ← (if negb (pd_interim pd =? 0) then
         mret (put_pd (put_req w r (set_kind q true KInterim)) ses (set_interim_timer pd true))
       else
         acct ← res_of_option (pd_acct pd);
         w ← rad_req_free w acct; mret (put_pd w ses (set_acct pd None)));
  pd ← pd_at w ses;
  mret (emit (put_pd w ses (set_started pd true)) (OAcctStarted ses)).

(** [rad_auth_recv]; [accept] is that the reply is an Access-Accept and all of it was taken. *)
Definition rad_auth_recv (w : world) (r : nat) (q : rad_req_t) (accept : bool) : res world :=
  q' ← timer_del q;
  ses ← session_of q;
  rad_auth_finalize (put_req w r q') ses accept.

(** [rad_acct_recv] *)
Definition rad_acct_recv (w : world) (r : nat) (q : rad_req_t) : res world :=
  q' ← md_unregister (set_io q (rq_fd q) (rq_md q) None) true;
  mret (put_req w r q').

(** [rad_acct_stop_recv] *)
Definition rad_acct_stop_recv (w : world) (r : nat) (q : rad_req_t) : res world :=
  w ← rad_req_free w r; forget_acct w (rq_rpd q).

(** [req->recv(req)] *)
Definition on_reply (w : world) (r : nat) (accept : bool) : res world :=
  q ← req_at w r;
  match rq_kind q with
  | KAuth => rad_auth_recv w r q accept
  | KStart => rad_acct_start_recv w r
  | KInterim => rad_acct_recv w r q
  | KStop => rad_acct_stop_recv w r q
  end.

(** [rad_req_read] with [got] a genuine reply in the socket: also whether it took it. *)
Definition rad_req_read (w : world) (r : nat) (got accept : bool) : res (world * bool) :=
  if negb got then mret (w, false)
  else
    q ← req_at w r;
    w ← rad_server_reply w (rq_serv q);
    w ← (if rq_active q then rad_server_req_exit w r else rad_server_req_cancel w r false);
    w ← on_reply w r accept;
    mret (w, true).

(** ** The end of a session *)

(** [rad_acct_stop] *)
Definition rad_acct_stop (fuel : nat) (w : world) (e : env) (ses : nat) : res world :=
  pd ← pd_at w ses;
  let w := put_pd w ses (set_interim_timer pd false) in
  p ← (match pd_acct pd with
       | Some r =>
           w ← rad_server_req_cancel w r true;
           q ← req_at w r;
           mret (put_req w r (set_try (set_ts q (e_now e)) 0), Some r)
       | None =>
           p ← rad_req_alloc w e ses KStop true;
           let '(w, o) := p in
           match o with
           | None => mret (w, None)
           | Some r => pd ← pd_at w ses; mret (put_pd w ses (set_acct pd (Some r)), Some r)
           end
       end);
  let '(w, o) := p in
  match o with
  | None => mret w
  | Some r =>
      q ← req_at w r;
      x ← rad_req_send fuel (put_req w r (set_kind q (rq_prio q) KStop)) e r;
      let '(w, c) := x in
      if c =? 0 then mret w else rad_acct_stop_defer w ses r
  end.

(** The authentication of a session that ends. *)
Definition drop_auth (w : world) (ses : nat) : res world :=
  pd ← pd_at w ses;
  match pd_auth pd with
  | None => mret w
  | Some r =>
      w ← rad_server_req_cancel w r true;
      w ← rad_req_free w r;
      mret (put_pd w ses (set_auth pd None))
  end.

(** [ses_finishing] *)
Definition ses_finishing (fuel : nat) (w : world) (e : env) (ses : nat) : res world :=
  w ← drop_auth w ses;
  pd ← pd_at w ses;
  w ← (if pd_acct_started pd || isset (pd_acct pd) then rad_acct_stop fuel w e ses else mret w);
  pd ← pd_at w ses;
  mret (put_pd w ses (set_interim_timer pd false)).

(** [ses_finished] *)
Definition ses_finished (w : world) (ses : nat) : res world :=
  w ← drop_auth w ses;
  pd ← pd_at w ses;
  w ← (match pd_acct pd with
       | None => mret w
       | Some r =>
           if pd_acct_started pd then rad_acct_stop_defer w ses r
           else w ← rad_server_req_cancel w r true; rad_req_free w r
       end);
  mret (with_ses w (delete ses (w_ses w))).

(** ** Calls pending in contexts *)

(** [start_deferred] *)
Definition start_deferred (w : world) (r : nat) (got : bool) : res world :=
  q ← req_at w r;
  x ← (if rq_fd q then
         rad_req_read (put_req w r (set_io q (rq_fd q) (Some true) (rq_timer q))) r got true
       else mret (w, false));
  let '(w, took) := (x : world * bool) in
  if took then mret w
  else q ← req_at w r; mret (put_req w r (set_io q (rq_fd q) (rq_md q) (Some true))).

(** The oldest call of a context, and the others. *)
Fixpoint next_call (ctx : option nat) (l : list rad_call) : option (rad_call * list rad_call) :=
  match l with
  | [] => None
  | c :: l' =>
      if bool_decide (rc_ctx c = ctx) then Some (c, l')
      else match next_call ctx l' with Some (x, r) => Some (x, c :: r) | None => None end
  end.

Definition run_call (fuel : nat) (w : world) (e : env) (ctx : option nat) (got : bool) : res world :=
  match next_call ctx (w_calls w) with
  | None => mret w
  | Some (c, l) =>
      let w := with_calls w l in
      match rc_func c with
      | req_wakeup_f => req_wakeup fuel w e (rc_req c)
      | req_wakeup_failed_f => req_wakeup_failed fuel w e (rc_req c)
      | start_deferred_f => start_deferred w (rc_req c) got
      end
  end.

(** ** A server that is no longer configured *)

(** The calls for a queue in [load_config]: the session of each request is looked at. *)
Fixpoint wake_removed (w : world) (l : list nat) : res world :=
  match l with
  | [] => mret w
  | r :: l' =>
      q ← req_at w r;
      ses ← session_of q;
      let w := put_req w r (set_slot q (rq_active q) false) in
      wake_removed (context_call w (Some ses) req_wakeup_f r) l'
  end.

(** The body of the loop of [load_config] for a server with [need_free]. *)
Definition remove_server (w : world) (i : nat) : res world :=
  s ← serv_at w i;
  let s := set_need_free s true in
  let w := mk_world (filter (fun x => x <> i) (w_list w)) (w_serv w) (w_req w) (w_ses w) (w_calls w) (w_next w) (w_out w) in
  w ← wake_removed w (rs_queue0 s);
  w ← wake_removed w (rs_queue1 s);
  let w := put_serv w i (set_window s (rs_req_cnt s) (rs_queue_cnt s) [] []) in
  if (rs_clients0 s =? 0) && (rs_clients1 s =? 0) then mret (__free_server w i) else mret w.

(** [__add_server] of a server that is there already: the new limits. *)
Definition update_server (w : world) (i : nat) (req_limit fail_timeout max_fail : Z) : res world :=
  s ← serv_at w i;
  mret (put_serv w i
    (mk_server (rs_addr s) (rs_auth_port s) (rs_acct_port s) req_limit (rs_req_cnt s) (rs_queue_cnt s)
       fail_timeout max_fail (rs_queue0 s) (rs_queue1 s) (rs_clients0 s) (rs_clients1 s)
       (rs_fail_time s) (rs_timeout_cnt s) (rs_weight s) (rs_backup s) false)).

(** ** Steps *)
Inductive rad_input : Type :=
| IStart (ses : nat)
| IAuth (ses : nat)
| IAcct (ses : nat)
| IInterim (ses : nat) (late stats force : bool)
| ITimer (r : nat)
| IRead (r : nat) (got accept : bool)
| ICall (ctx : option nat) (got : bool)
| IFinishing (ses : nat)
| IFinished (ses : nat).

(** [session.c] ends a session with EV_SES_FINISHED after EV_SES_FINISHING, which makes a Stop
    of its accounting request. *)
Definition finishing_done (w : world) (pd : radius_pd_t) : bool :=
  match r ← pd_acct pd; w_req w !! r with
  | Some q => bool_decide (rq_kind q = KStop)
  | None => true
  end.

(** More than the servers there are. *)
Definition fuel_of (w : world) : nat := S (S (length (w_list w))).

(** An input comes only when its source is there: a timer that runs, a socket that is
    waited for, a session that is not waiting for the same already. *)
Definition step (w : world) (e : env) (i : rad_input) : res world :=
  let fuel := fuel_of w in
  match i with
  | IStart ses => mret (if isset (w_ses w !! ses) then w else ses_starting w e ses)
  | IAuth ses =>
      match w_ses w !! ses with
      | Some pd => if isset (pd_auth pd) then mret w else rad_auth fuel w e ses
      | None => mret w
      end
  | IAcct ses =>
      match w_ses w !! ses with
      | Some pd => if isset (pd_acct pd) || pd_acct_started pd then mret w else rad_acct_start fuel w e ses
      | None => mret w
      end
  | IInterim ses late stats force =>
      match w_ses w !! ses with
      | Some pd => if pd_interim_timer pd then rad_acct_interim_update fuel w e ses late stats force else mret w
      | None => mret w
      end
  | ITimer r =>
      match w_req w !! r with
      | Some q => if bool_decide (rq_timer q = Some true) then on_timer fuel w e r else mret w
      | None => mret w
      end
  | IRead r got accept =>
      match w_req w !! r with
      | Some q =>
          if bool_decide (rq_md q = Some true) then p ← rad_req_read w r got accept; mret (fst p) else mret w
      | None => mret w
      end
  | ICall ctx got => run_call fuel w e ctx got
  | IFinishing ses => if isset (w_ses w !! ses) then ses_finishing fuel w e ses else mret w
  | IFinished ses =>
      match w_ses w !! ses with
      | Some pd => if finishing_done w pd then ses_finished w ses else mret w
      | None => mret w
      end
  end.

Fixpoint run (w : world) (l : list (env * rad_input)) : res world :=
  match l with
  | [] => mret w
  | (e, i) :: l' => w ← step w e i; run w l'
  end.
