(* ===== verification/RadiusSafe.v ===== *)
(** * The RADIUS client keeps its counters, queues and links (accel-pppd/radius)

    What the operations of [RadiusServ] that end a request and the handlers of
    [RadiusClient] do to a client that is well formed ([rad_ok]), and that it is well
    formed after any run. *)
From stdpp Require Import gmap.
From S2P Require Import Prelude RadiusServ RadiusClient.

(** ** Vocabulary *)

(** No call of [req_wakeup_failed] runs for a request that has been freed, taken up or sent
    since the server failed, and no Interim-Update is sent while the last one is about to be. *)
Definition calm (w : world) (i : rad_input) : bool :=
  match i with
  | ICall ctx _ =>
      match next_call ctx (w_calls w) with
      | Some (c, cs) =>
          match rc_func c with
          | req_wakeup_failed_f =>
              match w_req w !! rc_req c with
              | Some q => negb (rq_active q) && negb (rq_queued q) && negb (bool_decide (rq_timer q = Some true)) &&
                          negb (bool_decide (rc_req c ∈ calls_of start_deferred_f cs))
              | None => false
              end
          | _ => true
          end
      | None => true
      end
  | IInterim ses _ _ _ =>
      match pd ← w_ses w !! ses; r ← pd_acct pd; w_req w !! r with
      | Some q => negb (rq_active q) || isset (rq_timer q)
      | None => true
      end
  | _ => true
  end.

Fixpoint calm_run (w : world) (k : list (env * rad_input)) : bool :=
  match k with
  | [] => true
  | (e, i) :: k' => calm w i && match step w e i with Ok w' => calm_run w' k' | _ => true end
  end.

(** The environments of a run; the clock does not go back. *)
Fixpoint env_run (cf : gmap nat rad_server_t) (T : Z) (k : list (env * rad_input)) : Prop :=
  match k with
  | [] => True
  | (e, _) :: k' => env_ok cf T e /\ env_run cf (e_now e) k'
  end.
Fixpoint last_time (T : Z) (k : list (env * rad_input)) : Z :=
  match k with [] => T | (e, _) :: k' => last_time (e_now e) k' end.

(** The client after it has read its configuration. *)
Definition fresh (cf : gmap nat rad_server_t) (l : list nat) : world := mk_world l cf ∅ ∅ [] 0 [].

(** ** Situations *)

(** A clock, sockets that can be made, memory, three tries. *)
Definition env_at (now : Z) : env := mk_env now (fun _ => true) true 3 0 0 false.
(** The inputs, one second after the other. *)
Fixpoint timed (now : Z) (k : list rad_input) : list (env * rad_input) :=
  match k with [] => [] | i :: k' => (env_at now, i) :: timed (now + 1) k' end.

(** A server for one request at a time, given up for [fail] seconds after a timeout. *)
Definition one_place (fail : Z) : rad_server_t :=
  mk_server 1 1812 1813 1 0 0 fail 1 [] [] 0 0 0 0 1 0 false.
Definition one_server (fail : Z) : gmap nat rad_server_t := {[0%nat := one_place fail]}.

(** Two sessions authenticate; the server does not answer the first; the second ends. *)
Definition stale_run : list rad_input :=
  [IStart 0; IStart 1; IAuth 0; IAuth 1; ITimer 0; IFinishing 1].

(** Three sessions end at the same time with their accounting unfinished. *)
Definition lost_run : list rad_input :=
  [IStart 0; IStart 1; IStart 2;
   IAcct 0; IRead 0 true true; IAcct 1; IRead 1 true true; IAcct 2; IRead 2 true true;
   IFinishing 0; IFinished 0; IFinishing 1; IFinished 1; IFinishing 2; IFinished 2;
   ICall None false; ICall None false; ICall None false; ITimer 3; ITimer 4; IRead 3 true true; IRead 5 true true].

(** What is left of it: request 4 holds the place of the server. *)
Definition lost_req : rad_req_t :=
  mk_req 0 RAD_SERV_ACCT true 2 true false true (Some false) (Some false) None KStop 12.
Definition lost_world (out : list rad_out) : world :=
  mk_world [0%nat] {[0%nat := mk_server 1 1812 1813 1 1 0 0 1 [] [] 0 1 0 0 1 0 false]} {[4%nat := lost_req]} ∅ [] 6 out.

(** Two servers to which no socket can be made. *)
Definition env_down (now : Z) : env := mk_env now (fun _ => false) true 3 0 0 false.
Definition spare (clients : Z) : rad_server_t :=
  mk_server 1 1812 1813 0 0 0 0 0 [] [] clients 0 0 0 1 0 false.
Definition spin_req (serv : nat) (try : Z) : rad_req_t :=
  mk_req serv RAD_SERV_AUTH false try false false false None None (Some 0%nat) KAuth 0.
Definition spin (a b try : Z) (serv : nat) : world :=
  mk_world [0; 1]%nat (<[0%nat := spare a]> {[1%nat := spare b]}) {[0%nat := spin_req serv try]}
    {[0%nat := mk_pd (Some 0%nat) None false 0 false]} [] 1 [].

(** ** Links *)

(** A change of session [s] and of its request [r]. *)
Lemma links_at s r xl xl' w w' :
  links_ok xl w -> xl = None \/ xl = Some r ->
  (forall s', s' <> s -> w_ses w' !! s' = w_ses w !! s') ->
  (forall r', r' <> r -> w_req w' !! r' = w_req w !! r') ->
  (forall q, w_req w !! r = Some q -> rq_rpd q = Some s \/ rq_rpd q = None) ->
  (forall q ses, w_req w' !! r = Some q -> rq_rpd q = Some ses -> xl' <> Some r -> ses = s /\
     exists pd, w_ses w' !! s = Some pd /\ match rq_kind q with KAuth => pd_auth pd = Some r | _ => pd_acct pd = Some r end) ->
  (forall pd', w_ses w' !! s = Some pd' ->
     (forall k, pd_auth pd' = Some k -> (k <> r /\ exists pd, w_ses w !! s = Some pd /\ pd_auth pd = Some k) \/
        (k = r /\ exists q, w_req w' !! r = Some q /\ rq_rpd q = Some s /\ rq_kind q = KAuth)) /\
     (forall k, pd_acct pd' = Some k -> (k <> r /\ exists pd, w_ses w !! s = Some pd /\ pd_acct pd = Some k) \/
        (k = r /\ exists q, w_req w' !! r = Some q /\ rq_rpd q = Some s /\ rq_kind q <> KAuth)) /\
     (pd_interim_timer pd' = true -> exists k q, pd_acct pd' = Some k /\ w_req w' !! k = Some q /\ rq_kind q = KInterim)) ->
  (forall pd k, w_ses w !! s = Some pd -> k <> r -> pd_auth pd = Some k \/ pd_acct pd = Some k ->
     exists pd', w_ses w' !! s = Some pd' /\ (pd_auth pd = Some k -> pd_auth pd' = Some k) /\
       (pd_acct pd = Some k -> pd_acct pd' = Some k)) ->
  links_ok xl' w'.
Proof.
  intros [A B C D] Hxl Hs Hr Ho Hr' Hs' Hk.
  assert (Other : forall ses k q, ses <> s -> w_req w !! k = Some q -> rq_rpd q = Some ses -> k <> r).
  { intros ses k q Hne Hq Hp ->. destruct (Ho q Hq); congruence. }
  split.
  - intros ses pd k Hp Ha. destruct (decide (ses = s)) as [->|Hne].
    + destruct (Hs' pd Hp) as [H _]. destruct (H k Ha) as [(N & pd0 & H0 & H1)|(-> & H0)]; [|done].
      destruct (A s pd0 k H0 H1) as (q & Hq & X). exists q. now rewrite Hr.
    + rewrite Hs in Hp by done. destruct (A ses pd k Hp Ha) as (q & Hq & X). exists q. rewrite Hr; [done|].
      eapply Other; eauto; apply X.
  - intros ses pd k Hp Ha. destruct (decide (ses = s)) as [->|Hne].
    + destruct (Hs' pd Hp) as [_ [H _]]. destruct (H k Ha) as [(N & pd0 & H0 & H1)|(-> & H0)]; [|done].
      destruct (B s pd0 k H0 H1) as (q & Hq & X). exists q. now rewrite Hr.
    + rewrite Hs in Hp by done. destruct (B ses pd k Hp Ha) as (q & Hq & X). exists q. rewrite Hr; [done|].
      eapply Other; eauto; apply X.
  - intros ses pd Hp Hi. destruct (decide (ses = s)) as [->|Hne]; [now apply (Hs' pd Hp)|].
    rewrite Hs in Hp by done. destruct (C ses pd Hp Hi) as (k & q & Ha & Hq & X). exists k, q. rewrite Hr; [done|].
    destruct (B ses pd k Hp Ha) as (q2 & Hq2 & P2 & _). eapply Other; eauto.
  - intros k q ses Hq Hp Hx. destruct (decide (k = r)) as [->|Hkr].
    + destruct (Hr' q ses Hq Hp Hx) as [-> X]. exact X.
    + rewrite Hr in Hq by done.
      destruct (D k q ses Hq Hp) as (pd & Hpd & X); [destruct Hxl; congruence|].
      destruct (decide (ses = s)) as [->|Hne]; [|exists pd; now rewrite Hs].
      destruct (Hk pd k Hpd Hkr) as (pd' & Hpd' & X1 & X2); [destruct (rq_kind q); auto|].
      exists pd'. split; [done|]. destruct (rq_kind q); auto.
Qed.

(** [r] is gone, or its session has given it up. *)
Lemma links_drop_auth w w' s pd r :
  links_ok None w -> w_ses w !! s = Some pd -> pd_auth pd = Some r ->
  w_ses w' = <[s := set_auth pd None]> (w_ses w) -> w_req w' = delete r (w_req w) -> links_ok None w'.
Proof.
  intros K Hs Ha Es Er. destruct (lk_auth _ _ K _ _ _ Hs Ha) as (q & Hq & Hp & Hk).
  apply (links_at s r None None w w'); rewrite ?Es, ?Er; auto.
  - intros. now rewrite lookup_insert_ne.
  - intros. now rewrite lookup_delete_ne.
  - intros. simplify_eq. auto.
  - intros ? ?. now rewrite lookup_delete_eq.
  - rewrite lookup_insert_eq. intros pd' [= <-]. cbn. split_and!; [done| |].
    + intros k Hk'. left. split; [|eauto]. intros ->.
      destruct (lk_acct _ _ K _ _ _ Hs Hk') as (q' & ? & ? & ?). congruence.
    + intros Hi. destruct (lk_interim _ _ K _ _ Hs Hi) as (k & x & ? & ? & ?). exists k, x.
      rewrite lookup_delete_ne; [done|]. intros ->. congruence.
  - intros pd0 k Hs0 Hk'. rewrite Hs in Hs0. injection Hs0 as <-. rewrite lookup_insert_eq. intros X. eexists.
    split; [done|]. cbn. split; [congruence|done].
Qed.

Lemma links_drop_acct w w' s pd pd' r :
  links_ok None w -> w_ses w !! s = Some pd -> pd_acct pd = Some r ->
  pd_auth pd' = pd_auth pd -> pd_acct pd' = None -> pd_interim_timer pd' = false ->
  w_ses w' = <[s := pd']> (w_ses w) -> (forall k, k <> r -> w_req w' !! k = w_req w !! k) ->
  (forall q', w_req w' !! r = Some q' -> rq_rpd q' = None) -> links_ok None w'.
Proof.
  intros K Hs Ha Ea Ec Ei Es Er Hr. destruct (lk_acct _ _ K _ _ _ Hs Ha) as (q & Hq & Hp & Hk).
  apply (links_at s r None None w w'); rewrite ?Es; auto.
  - intros. now rewrite lookup_insert_ne.
  - intros. simplify_eq. auto.
  - intros q' ses Hq' Hp'. rewrite (Hr q' Hq') in Hp'. congruence.
  - rewrite lookup_insert_eq. intros x [= <-]. rewrite Ea, Ec, Ei. split_and!; [|done..].
    intros k Hk'. left. split; [|eauto]. intros ->.
    destruct (lk_auth _ _ K _ _ _ Hs Hk') as (q' & ? & ? & ?). congruence.
  - intros pd0 k Hs0 Hk'. rewrite Hs in Hs0. injection Hs0 as <-. rewrite lookup_insert_eq. intros X. eexists.
    split; [done|]. rewrite Ea. split; [done|congruence].
Qed.

(** The accounting request of a session changes its kind. *)
Lemma links_kind w w' s pd pd' r q' :
  links_ok None w -> w_ses w !! s = Some pd -> pd_acct pd = Some r ->
  pd_auth pd' = pd_auth pd -> pd_acct pd' = Some r -> (pd_interim_timer pd' = true -> rq_kind q' = KInterim) ->
  w_ses w' = <[s := pd']> (w_ses w) -> w_req w' = <[r := q']> (w_req w) ->
  rq_rpd q' = Some s -> rq_kind q' <> KAuth -> links_ok None w'.
Proof.
  intros K Hs Ha Ea Ec Ei Es Er Hp' Hk'. destruct (lk_acct _ _ K _ _ _ Hs Ha) as (q & Hq & Hp & Hk).
  apply (links_at s r None None w w'); rewrite ?Es, ?Er; auto.
  - intros. now rewrite lookup_insert_ne.
  - intros. now rewrite lookup_insert_ne.
  - intros. simplify_eq. auto.
  - intros x ses. rewrite !lookup_insert_eq. intros [= <-] Hx _. split; [congruence|]. exists pd'. split; [done|].
    destruct (rq_kind q'); done.
  - rewrite !lookup_insert_eq. intros x [= <-]. rewrite Ea, Ec. split_and!.
    + intros k Hk0. left. split; [|eauto]. intros ->.
      destruct (lk_auth _ _ K _ _ _ Hs Hk0) as (q2 & ? & ? & ?). congruence.
    + intros k [= <-]. right. eauto.
    + intros Hi. exists r, q'. rewrite lookup_insert_eq. auto.
  - intros pd0 k Hs0 Hk0. rewrite Hs in Hs0. injection Hs0 as <-. rewrite lookup_insert_eq. intros X. eexists.
    split; [done|]. rewrite Ea, Ec. split; [done|congruence].
Qed.

(** A session is told of its new request. *)
Lemma links_enter w w' s pd pd' r q :
  links_ok (Some r) w -> w_ses w !! s = Some pd -> w_req w !! r = Some q -> rq_rpd q = Some s ->
  (rq_kind q = KAuth /\ pd_auth pd = None /\ pd' = set_auth pd (Some r)) \/
  (rq_kind q <> KAuth /\ pd_acct pd = None /\ pd' = set_acct pd (Some r)) ->
  w_ses w' = <[s := pd']> (w_ses w) -> w_req w' = w_req w -> links_ok None w'.
Proof.
  intros K Hs Hq Hp H Es Er.
  assert (Hi : pd_interim_timer pd = true -> pd_acct pd <> None)
    by (intros Hi; destruct (lk_interim _ _ K _ _ Hs Hi) as (k & x & -> & _); done).
  apply (links_at s r (Some r) None w w'); rewrite ?Es, ?Er; auto.
  - intros. now rewrite lookup_insert_ne.
  - intros. simplify_eq. auto.
  - intros x ses Hx Hpx _. simplify_eq. split; [done|]. exists pd'. rewrite lookup_insert_eq. split; [done|].
    destruct H as [(-> & _ & ->)|(Hk & _ & ->)]; [done|]. destruct (rq_kind q); done.
  - rewrite !lookup_insert_eq. intros x [= <-]. destruct H as [(Hk & Hn & ->)|(Hk & Hn & ->)]; cbn; split_and!.
    + intros k [= <-]. right. eauto.
    + intros k Hk'. left. split; [|eauto]. intros ->. destruct (lk_acct _ _ K _ _ _ Hs Hk') as (x & ? & ? & ?). congruence.
    + intros Ht. destruct (lk_interim _ _ K _ _ Hs Ht) as (k & x & ? & ? & ?). eauto.
    + intros k Hk'. left. split; [|eauto]. intros ->. destruct (lk_auth _ _ K _ _ _ Hs Hk') as (x & ? & ? & ?). congruence.
    + intros k [= <-]. right. eauto.
    + intros Ht. now destruct (Hi Ht).
  - intros pd0 k Hs0 Hk0 X. rewrite Hs in Hs0. injection Hs0 as <-. exists pd'. rewrite lookup_insert_eq.
    split; [done|]. destruct H as [(Hk & Hn & ->)|(Hk & Hn & ->)]; cbn; split; congruence.
Qed.

(** A change of a session that keeps its requests. *)
Lemma links_ses w w' s pd pd' :
  links_ok None w -> w_ses w !! s = Some pd -> pd_auth pd' = pd_auth pd -> pd_acct pd' = pd_acct pd ->
  (pd_interim_timer pd' = true -> pd_interim_timer pd = true) ->
  w_ses w' = <[s := pd']> (w_ses w) -> w_req w' = w_req w -> links_ok None w'.
Proof.
  intros [A B C D] Hs Ea Ec Ei Es Er. split; rewrite ?Es, ?Er.
  - intros ses x k Hx. destruct (decide (ses = s)) as [->|Hne].
    + rewrite lookup_insert_eq in Hx. injection Hx as <-. rewrite Ea. eauto.
    + rewrite lookup_insert_ne in Hx by done. eauto.
  - intros ses x k Hx. destruct (decide (ses = s)) as [->|Hne].
    + rewrite lookup_insert_eq in Hx. injection Hx as <-. rewrite Ec. eauto.
    + rewrite lookup_insert_ne in Hx by done. eauto.
  - intros ses x Hx Ht. destruct (decide (ses = s)) as [->|Hne].
    + rewrite lookup_insert_eq in Hx. injection Hx as <-. rewrite Ec. eauto.
    + rewrite lookup_insert_ne in Hx by done. eauto.
  - intros r q ses Hq Hp Hx. destruct (D r q ses Hq Hp Hx) as (x & Hx' & X).
    destruct (decide (ses = s)) as [->|Hne]; [|exists x; now rewrite lookup_insert_ne].
    exists pd'. rewrite lookup_insert_eq, Ea, Ec. rewrite Hs in Hx'. now injection Hx' as <-.
Qed.

(** Sessions come and go. *)
Lemma links_start w w' s pd :
  links_ok None w -> w_ses w !! s = None -> pd_auth pd = None -> pd_acct pd = None -> pd_interim_timer pd = false ->
  w_ses w' = <[s := pd]> (w_ses w) -> w_req w' = w_req w -> links_ok None w'.
Proof.
  intros [A B C D] Hs Ea Ec Ei Es Er. split; rewrite ?Es, ?Er.
  - intros ses x k [[<- <-]|[? ?]]%lookup_insert_Some; [congruence | eauto].
  - intros ses x k [[<- <-]|[? ?]]%lookup_insert_Some; [congruence | eauto].
  - intros ses x [[<- <-]|[? ?]]%lookup_insert_Some; [congruence | eauto].
  - intros r q ses Hq Hp Hx. destruct (D r q ses Hq Hp Hx) as (x & Hx' & X). exists x.
    rewrite lookup_insert_ne; [done | congruence].
Qed.

Lemma links_end w w' s pd :
  links_ok None w -> w_ses w !! s = Some pd -> pd_auth pd = None -> pd_acct pd = None ->
  w_ses w' = delete s (w_ses w) -> w_req w' = w_req w -> links_ok None w'.
Proof.
  intros [A B C D] Hs Ea Ec Es Er. split; rewrite ?Es, ?Er.
  - intros ses x k [? ?]%lookup_delete_Some. eauto.
  - intros ses x k [? ?]%lookup_delete_Some. eauto.
  - intros ses x [? ?]%lookup_delete_Some. eauto.
  - intros r q ses Hq Hp Hx. destruct (D r q ses Hq Hp Hx) as (x & Hx' & X). exists x.
    rewrite lookup_delete_ne; [done|]. intros <-. destruct (rq_kind q); congruence.
Qed.

Section Safe.
Context (cf : gmap nat rad_server_t) (l : list nat) (CO : conf_ok cf l).
Context (e : env) (E : env_ok cf (e_now e) e).
Notation T := (e_now e).
Notation ok := (rad_ok cf l T None None).

(** ** Ending a request *)
Lemma calls_delete w w' r : calls_ok w -> quiet w r -> w_calls w' = w_calls w ->
  w_req w' = delete r (w_req w) -> calls_ok w'.
Proof using.
  intros [A B C D] [Qw Qd] Ec Er. split; rewrite ?Ec, ?Er; auto.
  - intros c Hc Hf. destruct (A c Hc Hf) as (x & Hx & W). exists x.
    rewrite lookup_delete_ne; [done|]. intros X. apply Qw, elem_calls_of. eauto.
  - intros c Hc Hf. destruct (B c Hc Hf) as (x & Hx & W). exists x.
    rewrite lookup_delete_ne; [done|]. intros X. apply Qd, elem_calls_of. eauto.
Qed.

Lemma free_spec w r q :
  heap_ok cf l T None None w -> calls_ok w -> w_req w !! r = Some q -> rq_active q = false -> rq_queued q = false ->
  quiet w r ->
  exists w', rad_req_free w r = Ok w' /\ heap_ok cf l T None None w' /\ calls_ok w' /\ w_ses w' = w_ses w /\
    w_req w' = delete r (w_req w).
Proof using CO.
  intros H C Hr Ha Hq Q. destruct (ho_at _ _ _ _ _ _ _ _ H Hr) as (sv & Hs & Hc & _ & _).
  unfold rad_req_free, req_at, rad_server_put, serv_at. rewrite Hr. cbn [res_of_option mbind res_bind].
  rewrite Ha, Hq, Hs. cbn [orb res_of_option mbind res_bind].
  replace (rs_need_free (add_client sv (rq_type q) (-1))) with false.
  2: { destruct (co_serv _ _ CO _ _ Hc) as (_ & _ & <-). unfold add_client. now destruct (_ =? _). }
  cbn. eexists. split; [done|]. split; [now apply (heap_free cf l T w r q sv)|].
  split; [|done]. now apply (calls_delete w _ r).
Qed.

(** [r] is being handled, and then not any more. *)
Lemma rad_handle xl w r : ok xl w -> rad_ok cf l T None (Some r) xl w.
Proof using.
  intros [[A B C D F] K L]. split; [|done..]. split; auto. intros k q Hk. destruct (D k q Hk) as (c & Hc & R).
  exists c. split; [done|]. destruct R. split; auto.
Qed.

Lemma rad_settle xl w r q q' :
  rad_ok cf l T None (Some r) xl w -> w_req w !! r = Some q -> quiet w r -> same_slot q q' ->
  rq_rpd q' = rq_rpd q -> rq_kind q' = rq_kind q ->
  (forall c, cf !! rq_serv q = Some c -> req_ok false c q -> req_ok true c q') ->
  ok xl (put_req w r q').
Proof using.
  intros O Hr Q S Ep Ek Hc.
  assert (req_weak : forall c x, req_ok true c x -> req_ok false c x) by (intros c x []; now split).
  assert (O' : rad_ok cf l T None (Some r) xl (put_req w r q')).
  { apply (rad_req_upd cf l T None (Some r) xl w r q); auto. rewrite bool_decide_true by done. cbn. auto. }
  destruct O' as [[A B C D F] K L]. split; [|done..]. split; auto. intros k x Hk. cbn in Hk.
  apply lookup_insert_Some in Hk as [[<- <-]|[Hne Hk]].
  - destruct (ho_req _ _ _ _ _ _ (rk_heap _ _ _ _ _ _ _ O) r q Hr) as (c & Hcf & R). exists c.
    rewrite (ss_serv _ _ S). split; [done|]. apply Hc; [done|]. now rewrite bool_decide_true in R.
  - destruct (D k x) as (c & Hcf & R); [now apply lookup_insert_Some; right|]. exists c. split; [done|].
    rewrite bool_decide_false in R by congruence. exact R.
Qed.

(** The calls left after some were cancelled. *)
Lemma calls_of_cons f c cs :
  calls_of f (c :: cs) = if decide (rc_func c = f) then rc_req c :: calls_of f cs else calls_of f cs.
Proof using. unfold calls_of. rewrite filter_cons. now case_decide. Qed.

Lemma calls_of_filter f (P : rad_call -> Prop) `{forall c, Decision (P c)} cs k :
  k ∈ calls_of f (filter P cs) -> k ∈ calls_of f cs.
Proof using. rewrite !elem_calls_of. intros (c & [_ Hc]%list_elem_of_filter & X). eauto. Qed.

Lemma calls_of_filter_NoDup f (P : rad_call -> Prop) `{forall c, Decision (P c)} cs :
  NoDup (calls_of f cs) -> NoDup (calls_of f (filter P cs)).
Proof using.
  induction cs as [|c cs IH]; [done|]. rewrite filter_cons, calls_of_cons. intros N.
  destruct (decide (P c)); [rewrite calls_of_cons|]; case_decide; auto.
  - apply NoDup_cons in N as [N1 N2]. apply NoDup_cons. split; [|auto]. intros X. eapply N1, calls_of_filter, X.
  - apply NoDup_cons in N as [_ N]. auto.
Qed.

Lemma calls_filter w (P : rad_call -> Prop) `{forall c, Decision (P c)} :
  calls_ok w -> calls_ok (with_calls w (filter P (w_calls w))).
Proof using.
  intros [A B C D]. split; cbn.
  - intros c [_ Hc]%list_elem_of_filter. auto.
  - intros c [_ Hc]%list_elem_of_filter. auto.
  - now apply calls_of_filter_NoDup.
  - now apply calls_of_filter_NoDup.
Qed.

(** Nothing is pending for [r] once its wake-up is cancelled. *)
Lemma cancel_call_spec xr xl w r q :
  rad_ok cf l T None xr xl w -> w_req w !! r = Some q -> rq_rpd q <> None \/ rq_md q <> None \/ rq_timer q <> None ->
  rad_ok cf l T None xr xl (cancel_call w (rq_rpd q) req_wakeup_f) /\ quiet (cancel_call w (rq_rpd q) req_wakeup_f) r.
Proof using.
  intros [H K C] Hr Hp. split; [split|split].
  - now apply heap_calls.
  - now apply (links_ext xl w).
  - now apply calls_filter.
  - intros (c & [Hn Hc]%list_elem_of_filter & Hf & <-)%elem_calls_of. destruct (ck_wakeup _ C c Hc Hf) as (x & Hx & W).
    apply Hn. split; [|done]. destruct W as (_ & _ & _ & W). congruence.
  - intros (c & [Hn Hc]%list_elem_of_filter & Hf & <-)%elem_calls_of. destruct (ck_deferred _ C c Hc Hf) as (x & Hx & W).
    destruct W as (_ & W1 & _ & _ & _ & W2 & W3). destruct Hp as [?|[?|?]]; congruence.
Qed.

Lemma filter_one (r : nat) L : NoDup L -> r ∈ L -> S (length (filter (fun x => x <> r) L)) = length L.
Proof using.
  intros HN HL. induction HN as [|k L Hk HN IH]; [now apply not_elem_of_nil in HL|].
  destruct (decide (k = r)) as [->|Hne].
  - rewrite filter_head by now apply NoDup_cons. done.
  - apply elem_of_cons in HL as [?|HL]; [congruence|]. rewrite filter_cons_True by done. cbn. now rewrite IH.
Qed.

Lemma server_ok_cancel m s sv r q :
  server_ok T false m s sv -> m !! r = Some q -> rq_serv q = s -> rq_queued q = true -> rq_active q = false ->
  server_ok T false (<[r := set_slot q (rq_active q) false]> m) s
    (set_window sv (rs_req_cnt sv) (rs_queue_cnt sv - 1) (filter (fun x => x <> r) (rs_queue0 sv))
       (filter (fun x => x <> r) (rs_queue1 sv))).
Proof using.
  intros S Hr Hs Hq Ha. destruct S as [A B C D Q0 Q1 N F G].
  assert (Hi : forall p, ~ inq s p (set_slot q (rq_active q) false)) by (intros p (_ & X & _); discriminate X).
  assert (Len : S (length (filter (fun x => x <> r) (rs_queue0 sv)) + length (filter (fun x => x <> r) (rs_queue1 sv))) =
                (length (rs_queue0 sv) + length (rs_queue1 sv))%nat).
  { destruct (rq_prio q) eqn:Hp.
    - rewrite (queue_filter m s false (rs_queue0 sv) r q) by (auto; intros (_ & _ & X); congruence).
      rewrite <- (filter_one r (rs_queue1 sv)); [lia | apply Q1 | apply Q1; eauto].
    - rewrite (queue_filter m s true (rs_queue1 sv) r q) by (auto; intros (_ & _ & X); congruence).
      rewrite <- (filter_one r (rs_queue0 sv)); [lia | apply Q0 | apply Q0; eauto]. }
  assert (Ne : rs_queue0 sv ++ rs_queue1 sv <> []).
  { intros X. apply (f_equal length) in X. rewrite length_app in X. cbn in X. lia. }
  split; cbn; auto.
  - now rewrite (tally_same _ _ _ q).
  - now rewrite (tally_same _ _ _ q).
  - now rewrite (tally_same _ _ _ q).
  - now apply queue_ok_remove.
  - now apply queue_ok_remove.
  - lia.
  - intros X. now destruct (Ne (G X)).
Qed.

(** [r] leaves its queue if it waits. *)
Lemma dequeue_spec xl w r q :
  ok xl w -> w_req w !! r = Some q -> rq_queued q = true ->
  exists sv, w_serv w !! rq_serv q = Some sv /\
    let w' := put_serv (put_req w r (set_slot q (rq_active q) false)) (rq_serv q)
                (set_window sv (rs_req_cnt sv) (rs_queue_cnt sv - 1) (filter (fun x => x <> r) (rs_queue0 sv))
                   (filter (fun x => x <> r) (rs_queue1 sv))) in ok xl w'.
Proof using.
  intros [H K C] Hr Hq. destruct (ho_at _ _ _ _ _ _ _ _ H Hr) as (sv & Hs & Hc & S & R). exists sv. split; [done|].
  assert (Ha : rq_active q = false) by (pose proof (ro_slot _ _ _ R) as X; rewrite Hq in X; now destruct (rq_active q)).
  set (q' := set_slot q (rq_active q) false). cbn. split.
  - apply (heap_slot cf l T None None None w r q q' sv); try done.
    + intros c _ []. split; auto; try done. cbn. now rewrite Ha.
    + now apply server_ok_cancel.
  - apply (links_ext xl (put_req w r q')); [done..|]. now apply (links_req xl w r q).
  - apply (calls_ext (put_req w r q')); [done..|]. apply calls_req; [done|]. eapply quiet_if; eauto.
    apply (ro_slot _ _ _ R).
Qed.

Lemma set_slot_id q : set_slot q (rq_active q) (rq_queued q) = q.
Proof using. now destruct q. Qed.

Lemma cancel_spec xl w r q :
  ok xl w -> w_req w !! r = Some q -> rq_rpd q <> None ->
  exists w', rad_server_req_cancel w r true = Ok w' /\ ok xl w' /\ w_ses w' = w_ses w /\ quiet w' r /\
    w_req w' !! r = Some (set_io (set_slot q false false) (rq_fd q) None None).
Proof using CO.
  intros O Hr Hp. destruct (ho_at _ _ _ _ _ _ _ _ (rk_heap _ _ _ _ _ _ _ O) Hr) as (sv0 & _ & _ & _ & R).
  pose proof (ro_slot _ _ _ R) as Hsl.
  unfold rad_server_req_cancel, req_at, serv_at. rewrite Hr. cbn [res_of_option mbind res_bind].
  assert (exists w1, (if rq_queued q then
         s ← res_of_option (w_serv w !! rq_serv q);
         mret (put_serv (put_req w r (set_slot q (rq_active q) false)) (rq_serv q)
                 (set_window s (rs_req_cnt s) (rs_queue_cnt s - 1) (filter (fun x => x <> r) (rs_queue0 s))
                    (filter (fun x => x <> r) (rs_queue1 s))))
       else mret w) = Ok w1 /\ ok xl w1 /\ w_ses w1 = w_ses w /\ w_req w1 !! r = Some (set_slot q (rq_active q) false))
    as (w1 & -> & O1 & S1 & R1).
  { destruct (rq_queued q) eqn:Hq.
    - destruct (dequeue_spec xl w r q O Hr Hq) as (sv & -> & O1). eexists. split; [done|]. split; [exact O1|].
      split; [done|]. apply lookup_insert_eq.
    - exists w. split; [done|]. split; [done|]. split; [done|]. rewrite <- Hq, set_slot_id. exact Hr. }
  cbn [mbind res_bind].
  set (q1 := set_slot q (rq_active q) false) in *.
  destruct (cancel_call_spec None xl w1 r q1 O1 R1) as [O2 Q2]; [now left|].
  change (rq_rpd q1) with (rq_rpd q) in *. set (w2 := cancel_call w1 (rq_rpd q) req_wakeup_f) in *. cbn [negb].
  assert (exists w3, (if rq_active q then rad_server_req_exit w2 r else mret w2) = Ok w3 /\
      rad_ok cf l T None (Some r) xl w3 /\ w_ses w3 = w_ses w /\ quiet w3 r /\
      w_req w3 !! r = Some (set_slot q false false)) as (w3 & -> & O3 & S3 & Q3 & R3).
  { destruct (rq_active q) eqn:Ha.
    - destruct (exit_spec cf l T (Some r) xl w2 r q1) as (w3 & -> & O3 & R3 & Os); auto; [now apply rad_handle|].
      exists w3. split; [done|]. split; [done|]. split; [rewrite (os_ses _ _ _ Os); exact S1|].
      split; [now apply (os_quiet _ _ _ Os _ q1)|]. exact R3.
    - exists w2. split; [done|]. split; [now apply rad_handle|]. split; [exact S1|]. split; [done|]. exact R1. }
  cbn [mbind res_bind]. rewrite R3. cbn [res_of_option mbind res_bind]. eexists. split; [done|].
  split; [|split; [done|split; [done|apply lookup_insert_eq]]].
  apply (rad_settle xl w3 r (set_slot q false false)); try done. intros c _ []. split; cbn in *; auto; try done.
Qed.

(** ** The callbacks of a request *)
Lemma owner w r q ses :
  ok None w -> w_req w !! r = Some q -> rq_rpd q = Some ses ->
  exists pd, w_ses w !! ses = Some pd /\ match rq_kind q with KAuth => pd_auth pd = Some r | _ => pd_acct pd = Some r end.
Proof using. intros O Hr Hp. apply (lk_ses _ _ (rk_links _ _ _ _ _ _ _ O) r q ses); auto. Qed.

Lemma req_ok_at w r q : ok None w -> w_req w !! r = Some q -> exists c, cf !! rq_serv q = Some c /\ req_ok true c q.
Proof using. intros O Hr. exact (ho_req _ _ _ _ _ _ (rk_heap _ _ _ _ _ _ _ O) r q Hr). Qed.

(** A session whose accounting stops has no interim timer. *)
Lemma stop_no_interim w r q ses pd :
  ok None w -> w_req w !! r = Some q -> rq_kind q <> KInterim -> w_ses w !! ses = Some pd -> pd_acct pd = Some r ->
  pd_interim_timer pd = false.
Proof using.
  intros O Hr Hk Hs Ha. destruct (pd_interim_timer pd) eqn:Hi; [|done].
  destruct (lk_interim _ _ (rk_links _ _ _ _ _ _ _ O) _ _ Hs Hi) as (k & x & ? & ? & ?). congruence.
Qed.

Lemma finalize_spec w ses b pd :
  ok None w -> w_ses w !! ses = Some pd ->
  (forall r, pd_auth pd = Some r -> quiet w r /\
     exists q, w_req w !! r = Some q /\ rq_active q = false /\ rq_queued q = false) ->
  good (ok None) (rad_auth_finalize w ses b).
Proof using CO.
  intros O Hs Ha. unfold rad_auth_finalize. change (w_ses (emit _ _)) with (w_ses w). rewrite Hs.
  cbn [res_of_option mbind res_bind]. destruct (pd_auth pd) as [r|] eqn:Hr.
  2: { apply good_ok. now apply rad_emit. }
  destruct (Ha r eq_refl) as (Q & q & Hq & A1 & A2).
  destruct (rad_emit cf l T None None None w (OAuthResult ses b) O) as [H K C].
  destruct (free_spec (emit w (OAuthResult ses b)) r q) as (w1 & -> & H1 & C1 & S1 & R1); auto.
  cbn [mbind res_bind]. apply good_ok. split.
  - destruct H1. now split.
  - now apply (links_drop_auth w _ ses pd r (rk_links _ _ _ _ _ _ _ O)); cbn; rewrite ?S1, ?R1.
  - now apply (calls_ext w1).
Qed.

(** The end of accounting: the session forgets it, the request is freed, in either order. *)
Lemma links_forget w w' r q :
  ok None w -> w_req w !! r = Some q -> rq_kind q = KStop ->
  (match rq_rpd q with
   | None => w_ses w' = w_ses w
   | Some ses => exists pd, w_ses w !! ses = Some pd /\ w_ses w' = <[ses := set_acct pd None]> (w_ses w)
   end) ->
  w_req w' = delete r (w_req w) -> links_ok None w'.
Proof using.
  intros O Hr Hk Hs Er. pose proof (rk_links _ _ _ _ _ _ _ O) as K. destruct (rq_rpd q) as [ses|] eqn:Hp.
  - destruct Hs as (pd & Hs & Es). destruct (owner w r q ses O Hr Hp) as (pd' & Hs' & Ha). rewrite Hk in Ha. simplify_eq.
    apply (links_drop_acct w w' ses pd (set_acct pd None) r); auto.
    + apply (stop_no_interim w r q ses pd); congruence.
    + intros k Hk'. now rewrite Er, lookup_delete_ne.
    + intros q'. now rewrite Er, lookup_delete_eq.
  - destruct K as [A B C D]. split; rewrite ?Hs, ?Er.
    + intros ses pd k Hpd Hk'. destruct (A ses pd k Hpd Hk') as (x & Hx & X). exists x.
      rewrite lookup_delete_ne; [done|]. intros ->. destruct X. congruence.
    + intros ses pd k Hpd Hk'. destruct (B ses pd k Hpd Hk') as (x & Hx & X). exists x.
      rewrite lookup_delete_ne; [done|]. intros ->. destruct X. congruence.
    + intros ses pd Hpd Hi. destruct (C ses pd Hpd Hi) as (k & x & Ha & Hx & X). exists k, x.
      rewrite lookup_delete_ne; [done|]. intros ->. congruence.
    + intros k x ses [? Hx]%lookup_delete_Some. now apply D.
Qed.

Lemma forget_spec w r q :
  ok None w -> w_req w !! r = Some q -> rq_kind q = KStop ->
  exists m, (forall w', w_ses w' = w_ses w -> forget_acct w' (rq_rpd q) = Ok (with_ses w' m)) /\
    match rq_rpd q with
    | None => m = w_ses w
    | Some ses => exists pd, w_ses w !! ses = Some pd /\ m = <[ses := set_acct pd None]> (w_ses w)
    end.
Proof using.
  intros O Hr Hk. destruct (rq_rpd q) as [ses|] eqn:Hp.
  - destruct (owner w r q ses O Hr Hp) as (pd & Hs & _). eexists. split; [|eauto].
    intros w' Es. unfold forget_acct. now rewrite Es, Hs.
  - exists (w_ses w). split; [|done]. intros w' <-. now destruct w'.
Qed.

Lemma stop_free_spec w r q :
  ok None w -> w_req w !! r = Some q -> rq_kind q = KStop -> rq_active q = false -> rq_queued q = false -> quiet w r ->
  good (ok None) (w ← rad_req_free w r; forget_acct w (rq_rpd q)) /\
  good (ok None) (w ← forget_acct w (rq_rpd q); rad_req_free w r).
Proof using CO.
  intros O Hr Hk Ha Hq Q. destruct (forget_spec w r q O Hr Hk) as (m & F & Hm). pose proof O as [H _ C].
  split.
  - destruct (free_spec w r q H C Hr Ha Hq Q) as (w1 & -> & H1 & C1 & S1 & R1). cbn [mbind res_bind]. rewrite F by done.
    apply good_ok. split; [destruct H1; now split | | now apply (calls_ext w1)].
    now apply (links_forget w _ r q).
  - rewrite F by done. cbn [mbind res_bind].
    destruct (free_spec (with_ses w m) r q) as (w1 & -> & H1 & C1 & S1 & R1); auto.
    { destruct H. now split. }
    { now apply (calls_ext w). }
    apply good_ok. split; [done | | done]. apply (links_forget w _ r q); rewrite ?S1; auto.
Qed.

Lemma calls_defer w r q' : calls_ok w -> quiet w r -> deferred None q' ->
  calls_ok (context_call (put_req w r q') None start_deferred_f r).
Proof using.
  intros H Q D'. destruct (calls_req w r q' H Q) as [A B C D]. split; cbn in *.
  - intros c [Hc|Hc%list_elem_of_singleton]%elem_of_app Hf; [auto|]. now subst c.
  - intros c [Hc|Hc%list_elem_of_singleton]%elem_of_app Hf; [auto|]. subst c. cbn. exists q'. now rewrite lookup_insert_eq.
  - rewrite calls_of_app. unfold calls_of at 2. cbn. now rewrite app_nil_r.
  - rewrite calls_of_app. apply NoDup_app. split; [done|]. split; [|apply NoDup_singleton].
    intros k Hk ->%list_elem_of_singleton. now apply (proj2 Q).
Qed.

(** Accounting goes on without the session. *)
Lemma defer_ok w ses pd r q :
  ok None w -> w_ses w !! ses = Some pd -> pd_acct pd = Some r -> w_req w !! r = Some q -> rq_kind q = KStop ->
  good (fun w' => ok None w' /\ w_ses w' = <[ses := set_acct pd None]> (w_ses w)) (rad_acct_stop_defer w ses r).
Proof using CO.
  intros O Hs Ha Hq Hk. destruct (lk_acct _ _ (rk_links _ _ _ _ _ _ _ O) _ _ _ Hs Ha) as (q' & Hq' & Hp & _).
  rewrite Hq in Hq'. injection Hq' as <-. unfold rad_acct_stop_defer.
  destruct (cancel_spec None w r q O Hq) as (w1 & -> & O1 & S1 & Q1 & R1); [congruence|].
  cbn [mbind res_bind]. unfold req_at. rewrite R1. cbn [res_of_option mbind res_bind]. rewrite S1, Hs. cbn [res_of_option mbind res_bind].
  set (q1 := set_io _ _ _ _) in *. set (q2 := set_rpd q1 None).
  assert (D : deferred None q2) by now split_and!.
  pose proof O1 as [H1 K1 C1]. apply good_ok. split; [|done]. split.
  - apply heap_calls. assert (X : heap_ok cf l T None None (put_req w1 r q2)).
    { apply heap_req with q1; try done. intros c _ []. split; cbn in *; auto; try done. }
    destruct X. now split.
  - apply (links_drop_acct w1 _ ses pd (set_acct pd None) r); auto; cbn.
    + now rewrite S1.
    + apply (stop_no_interim w r q ses pd); congruence.
    + now rewrite S1.
    + intros k Hk'. now rewrite lookup_insert_ne.
    + intros q'. rewrite lookup_insert_eq. now intros [= <-].
  - apply (calls_ext (context_call (put_req w1 r q2) None start_deferred_f r)); [done..|]. now apply calls_defer.
Qed.

(** A request that is neither on its way nor waits. *)
Lemma sent_failed_spec w r q :
  ok None w -> w_req w !! r = Some q -> rq_active q = false -> rq_queued q = false -> quiet w r ->
  good (ok None) (sent_failed w e r).
Proof using CO.
  intros O Hr Ha Hq Q. destruct (req_ok_at w r q O Hr) as (c & Hc & R).
  assert (Free : rq_kind q = KStop -> good (ok None) (w ← rad_req_free w r; forget_acct w (rq_rpd q)))
    by (intros; now apply stop_free_spec).
  unfold sent_failed, req_at. rewrite Hr. cbn [res_of_option mbind res_bind].
  destruct (rq_kind q) eqn:Hk; unfold rad_auth_sent_failed, rad_acct_start_sent_failed, rad_acct_stop_sent_failed, session_of;
    destruct (rq_rpd q) as [ses|] eqn:Hp;
    try (now rewrite (ro_rpd _ _ _ R Hp) in Hk); cbn [res_of_option mbind res_bind].
  - destruct (owner w r q ses O Hr Hp) as (pd & Hs & X). rewrite Hk in X.
    apply (finalize_spec w ses false pd); auto. intros r' Hr'. simplify_eq. eauto.
  - apply good_ok. now apply rad_emit.
  - now apply good_ok.
  - destruct (e_shutdown e); [now apply Free|].
    destruct (owner w r q ses O Hr Hp) as (pd & Hs & X). rewrite Hk in X.
    destruct (defer_ok w ses pd r q) as (w' & -> & O' & _); auto. now apply good_ok.
  - destruct (e_shutdown e); [now apply Free|].
    apply good_ok. apply (rad_req_upd cf l T None None None w r q); auto; [now split|].
    intros c' _ []. split; cbn in *; auto; try done. intros. congruence.
Qed.

(** ** Timeouts *)
Lemma timeout_spec w s :
  ok None w -> is_Some (cf !! s) -> good (fun w' => ok None w' /\ others_same None w w') (rad_server_timeout w e s).
Proof using.
  intros O [c Hc]. destruct (ho_find _ _ _ _ _ _ _ _ (rk_heap _ _ _ _ _ _ _ O) Hc) as (sv & Hs & Hcf).
  unfold rad_server_timeout, serv_at. rewrite Hs. cbn [res_of_option mbind res_bind].
  destruct (rs_fail_timeout sv =? 0); [apply good_ok; split; [done | apply os_refl]|].
  set (sv' := set_fail sv (rs_fail_time sv) (rs_timeout_cnt sv + 1)). set (w1 := put_serv w s sv').
  assert (O1 : ok None w1).
  { apply (rad_serv cf l T None None None None w s sv); auto.
    destruct (ho_serv _ _ _ _ _ _ (rk_heap _ _ _ _ _ _ _ O) s sv Hs). now split. }
  assert (Os : others_same None w w1) by now split.
  destruct (_ <=? _); [|now apply good_ok].
  destruct (fail_spec cf l T None None w1 e s O1 eq_refl) as (w2 & -> & O2 & Os2 & _); [eauto|auto|].
  apply good_ok. split; [done|]. eapply os_trans; eauto.
Qed.

(** [rad_server_req_exit] of a request that has been sent. *)
Lemma exit_any w r q :
  ok None w -> w_req w !! r = Some q -> rq_queued q = false -> rq_timer q <> Some true \/ rq_kind q = KStop -> quiet w r ->
  (forall c, cf !! rq_serv q = Some c -> 0 < rs_req_limit c -> rq_active q = true) ->
  good (fun w' => ok None w' /\ w_req w' !! r = Some (set_slot q false false) /\ w_ses w' = w_ses w /\ quiet w' r)
    (rad_server_req_exit w r).
Proof using CO.
  intros O Hr Hq Ht Q Ha. destruct (rq_active q) eqn:A.
  - destruct (exit_spec cf l T None None w r q O Hr A Q) as (w' & -> & O' & R' & Os); [auto|].
    apply good_ok. split; [done|]. rewrite R', Hq. split; [done|]. split; [apply (os_ses _ _ _ Os)|].
    now apply (os_quiet _ _ _ Os _ q).
  - destruct (ho_at _ _ _ _ _ _ _ _ (rk_heap _ _ _ _ _ _ _ O) Hr) as (sv & Hs & Hc & _ & R).
    unfold rad_server_req_exit, req_at, serv_at. rewrite Hr. cbn [res_of_option mbind res_bind]. rewrite Hs.
    cbn [res_of_option mbind res_bind].
    destruct (co_serv _ _ CO _ _ Hc) as (L & _ & _). cbn in L.
    destruct (rs_req_limit sv =? 0) eqn:Hl; [|apply Z.eqb_neq in Hl; now discriminate (Ha _ Hc ltac:(cbn; lia))].
    apply good_ok. split; [done|]. split; [|done]. rewrite Hr. f_equal. rewrite <- A, <- Hq at 1. symmetry. apply set_slot_id.
Qed.
(** ** Sending again *)
Context (fuel : nat) (Fu : (S (length l) < fuel)%nat).

Lemma failover_spec w r q :
  ok None w -> w_req w !! r = Some q -> rq_queued q = false -> rq_timer q <> Some true ->
  (rq_active q = true -> rq_fd q = true) -> quiet w r ->
  good (ok None) (send_failover fuel w e r).
Proof using CO E Fu.
  intros O Hr Hq Ht Hf Q. unfold send_failover, req_at. rewrite Hr. cbn [res_of_option mbind res_bind].
  set (w1 := if rq_active q then put_req w r (set_try q (e_max_try e)) else w).
  assert (exists q1, ok None w1 /\ w_req w1 !! r = Some q1 /\ rq_queued q1 = false /\ rq_timer q1 <> Some true /\
    (rq_active q1 = true -> rq_fd q1 = true) /\ quiet w1 r) as (q1 & O1 & R1 & Q1 & T1 & F1 & Qu1).
  { unfold w1. destruct (rq_active q) eqn:Ha; [|exists q; split_and!; auto; congruence].
    exists (set_try q (e_max_try e)). split; [now apply set_try_ok|]. split; [apply lookup_insert_eq|].
    split_and!; auto; apply Q. }
  destruct (rad_req_send_spec cf l CO T None fuel w1 e r q1) as (w2 & c & -> & O2 & S2 & X); auto.
  cbn [mbind res_bind]. destruct X as [(-> & _)|(-> & Q2 & q2 & R2 & _ & _ & A2 & Qu2 & T2)]; cbn [Z.eqb].
  - now apply good_ok.
  - now apply (sent_failed_spec w2 r q2).
Qed.

Lemma wakeup_spec w r q ctx :
  ok None w -> w_req w !! r = Some q -> woken ctx q -> quiet w r -> good (ok None) (req_wakeup fuel w e r).
Proof using CO E Fu.
  intros O Hr (Ha & Ht & Hm & _) Q.
  destruct (ho_at _ _ _ _ _ _ _ _ (rk_heap _ _ _ _ _ _ _ O) Hr) as (sv & Hs & Hc & S & R). cbn in S.
  assert (Hq : rq_queued q = false) by (pose proof (ro_slot _ _ _ R) as X; rewrite Ha in X; exact X).
  unfold req_wakeup, req_at, serv_at. rewrite Hr. cbn [res_of_option mbind res_bind]. rewrite Ha, Hs.
  cbn [negb res_of_option mbind res_bind].
  replace (rs_need_free sv) with false by (destruct (co_serv _ _ CO _ _ Hc) as (_ & _ & X); symmetry; exact X).
  rewrite orb_false_r. destruct (T <? rs_fail_time sv) eqn:Hft.
  - rewrite ?Hr. cbn [res_of_option mbind res_bind]. rewrite ?Hs. cbn [res_of_option mbind res_bind].
    eapply (failover_spec _ r (set_slot q false (rq_queued q))); auto; try done.
    + apply (release_ok cf l T None None w r q sv); auto. right. split; [done|]. apply (so_failed _ _ _ _ _ S). lia.
    + apply lookup_insert_eq.
  - destruct (send_now_spec cf l T None w e r q true O E Hr Q Hq) as [X1 X2]; [done|].
    destruct (rq_fd q || e_sock e (rq_serv q)) eqn:Hfd.
    + destruct X2 as (w' & q' & -> & O' & _); [now apply orb_true_iff|]. cbn. now apply good_ok.
    + apply orb_false_iff in Hfd as [F1 F2]. rewrite (X1 F1 F2). cbn [mbind res_bind Z.eqb].
      rewrite ?Hr. cbn [res_of_option mbind res_bind Z.eqb Pos.eqb]. rewrite ?Hs. cbn [res_of_option mbind res_bind].
      cbn [mret res_ret mbind res_bind]. set (w1 := put_serv _ _ _).
      assert (O1 : rad_ok cf l T (Some (rq_serv q)) None None w1) by (apply (release_ok cf l T _ None w r q sv); auto).
      destruct (fail_spec cf l T (Some (rq_serv q)) None w1 e (rq_serv q) O1 eq_refl) as (w2 & -> & O2 & Os & _); [eauto|auto|].
      cbn [mbind res_bind]. assert (R1 : w_req w1 !! r = Some (set_slot q false (rq_queued q))) by apply lookup_insert_eq.
      apply (failover_spec w2 r (set_slot q false (rq_queued q))); auto; try done.
      * now apply (os_req _ _ _ Os).
      * now apply (os_quiet _ _ _ Os _ _ R1).
Qed.


(** Sending in a handler: [r] is on its way or waits, or the handler gives up. *)
Lemma send_good {A} (P : A -> Prop) w r q (f : world * Z -> res A) :
  ok None w -> w_req w !! r = Some q -> rq_queued q = false -> rq_timer q <> Some true ->
  (rq_active q = true -> rq_fd q = true) -> quiet w r ->
  (forall w', ok None w' -> w_ses w' = w_ses w -> good P (f (w', 0))) ->
  (forall w' q', ok None w' -> w_ses w' = w_ses w -> quiet w' r -> w_req w' !! r = Some q' -> rq_rpd q' = rq_rpd q ->
     rq_kind q' = rq_kind q -> rq_active q' = false -> rq_queued q' = false -> good P (f (w', -1))) ->
  good P (x ← rad_req_send fuel w e r; f x).
Proof using CO E Fu.
  intros O Hr Hq Ht Hf Q F1 F2.
  destruct (rad_req_send_spec cf l CO T None fuel w e r q) as (w' & c & -> & O' & S' & X); auto.
  cbn [mbind res_bind]. destruct X as [(-> & _)|(-> & Q' & q' & R' & ? & ? & ? & ? & ?)]; [auto | eapply F2; eauto].
Qed.

(** The timer of [r] has run out. *)
Lemma timer_out w r q :
  ok None w -> w_req w !! r = Some q -> rq_timer q = Some true ->
  let q1 := set_io q (rq_fd q) (rq_md q) (Some false) in
  ok None (put_req w r q1) /\ quiet w r /\ rq_queued q = false /\
  (rq_kind q <> KStop -> rq_md q <> None /\ rq_fd q = true /\ rq_rpd q <> None /\
     forall c, cf !! rq_serv q = Some c -> 0 < rs_req_limit c -> rq_active q = true).
Proof using.
  intros O Hr Ht q1. destruct (req_ok_at w r q O Hr) as (c & Hc & R).
  assert (Q : quiet w r) by (eapply quiet_if; eauto; [apply (rk_calls _ _ _ _ _ _ _ O) | apply (ro_slot _ _ _ R)]).
  split; [|split; [done|split]].
  - apply (rad_req_upd cf l T None None None w r q); auto; [now split|]. intros c' _ []. split; cbn in *; auto; try done.
    intros Hq. destruct (ro_queued Hq). done.
  - destruct (rq_queued q) eqn:Hq; [|done]. now destruct (ro_queued _ _ _ R Hq).
  - intros Hk. pose proof (ro_waits _ _ _ R Ht Hk) as Hm. split_and!; auto.
    + now apply (ro_md _ _ _ R).
    + intros X. now apply Hk, (ro_rpd _ _ _ R).
    + intros c' Hc' Hl. simplify_eq. now apply (ro_armed _ _ _ R).
Qed.

Lemma serv_known w r q : ok None w -> w_req w !! r = Some q -> is_Some (cf !! rq_serv q).
Proof using. intros O Hr. destruct (req_ok_at w r q O Hr) as (c & Hc & _). eauto. Qed.

Lemma auth_timeout_spec w r q :
  ok None w -> w_req w !! r = Some q -> rq_kind q = KAuth -> rq_queued q = false -> rq_timer q <> Some true ->
  (rq_active q = true -> rq_fd q = true) -> quiet w r -> rq_rpd q <> None ->
  good (ok None) (rad_auth_timeout fuel w e r).
Proof using CO E Fu.
  intros O Hr Hk Hq Ht Hf Q Hp. unfold rad_auth_timeout, req_at. rewrite Hr. cbn [res_of_option mbind res_bind].
  destruct (timeout_spec w (rq_serv q) O (serv_known w r q O Hr)) as (w1 & -> & O1 & Os). cbn [mbind res_bind].
  apply (send_good _ w1 r q); auto; [now apply (os_req _ _ _ Os) | now apply (os_quiet _ _ _ Os _ q) | |].
  - intros w2 O2 _. now apply good_ok.
  - intros w2 q2 O2 S2 Q2 R2 P2 K2 A2 Qu2. cbn [Z.eqb].
    unfold session_of. destruct (rq_rpd q) as [ses|] eqn:Hses; [|done]. cbn [res_of_option mbind res_bind].
    destruct (owner w2 r q2 ses O2 R2 P2) as (pd & Hs & X). rewrite K2, Hk in X.
    apply (finalize_spec w2 ses false pd); auto. intros k Hk'. simplify_eq. eauto.
Qed.

Lemma start_timeout_spec w r q :
  ok None w -> w_req w !! r = Some q -> rq_queued q = false -> rq_timer q <> Some true ->
  (rq_active q = true -> rq_fd q = true) -> quiet w r -> rq_rpd q <> None ->
  good (ok None) (rad_acct_start_timeout fuel w e r).
Proof using CO E Fu.
  intros O Hr Hq Ht Hf Q Hp. unfold rad_acct_start_timeout, req_at. rewrite Hr. cbn [res_of_option mbind res_bind].
  destruct (timeout_spec w (rq_serv q) O (serv_known w r q O Hr)) as (w1 & -> & O1 & Os). cbn [mbind res_bind].
  apply (send_good _ w1 r q); auto; [now apply (os_req _ _ _ Os) | now apply (os_quiet _ _ _ Os _ q) | |].
  - intros w2 O2 _. now apply good_ok.
  - intros w2 q2 O2 S2 Q2 R2 P2 K2 A2 Qu2. cbn [Z.eqb].
    unfold session_of. destruct (rq_rpd q) as [ses|]; [|done]. apply good_ok. now apply rad_emit.
Qed.

Lemma acct_timeout_spec w r q :
  ok None w -> w_req w !! r = Some q -> rq_kind q = KInterim -> rq_queued q = false -> rq_timer q = Some false ->
  rq_md q <> None -> quiet w r -> rq_rpd q <> None ->
  (forall c, cf !! rq_serv q = Some c -> 0 < rs_req_limit c -> rq_active q = true) ->
  good (ok None) (rad_acct_timeout fuel w e r).
Proof using CO E Fu.
  intros O Hr Hk Hq Ht Hm Q Hp Ha. unfold rad_acct_timeout, req_at. rewrite Hr. cbn [res_of_option mbind res_bind].
  destruct (exit_any w r q O Hr Hq) as (w1 & -> & O1 & R1 & S1 & Q1); auto; [left; congruence|].
  cbn [mbind res_bind]. set (q1 := set_slot q false false) in *.
  destruct (timeout_spec w1 (rq_serv q) O1 (serv_known w r q O Hr)) as (w2 & -> & O2 & Os). cbn [mbind res_bind].
  assert (R2 : w_req w2 !! r = Some q1) by now apply (os_req _ _ _ Os).
  assert (Q2 : quiet w2 r) by now apply (os_quiet _ _ _ Os _ q1).
  rewrite R2. cbn [res_of_option mbind res_bind].
  destruct (e_acct_timeout e =? 0); [|destruct (e_acct_timeout e <? _)].
  - unfold timer_del, q1. cbn [rq_timer set_slot]. rewrite Ht. cbn [mbind res_bind mret res_ret].
    unfold md_unregister. cbn [rq_md set_slot set_io]. destruct (rq_md q); [|done]. apply good_ok.
    apply (rad_req_upd cf l T None None None w2 r q1); auto; [now split|].
    intros c' _ []. split; cbn in *; auto; try done.
  - unfold timer_del, session_of, q1. cbn [rq_timer set_slot]. rewrite Ht. cbn [mbind res_bind mret res_ret rq_rpd set_io set_slot].
    destruct (rq_rpd q) eqn:Hses; [|done]. apply good_ok, rad_emit.
    apply (rad_req_upd cf l T None None None w2 r q1); auto; [now split|].
    intros c' _ []. split; cbn in *; auto; try done. intros _ [X|X]; congruence.
  - apply (send_good _ _ r (set_try q1 0)); auto; try done.
    + now apply set_try_ok.
    + apply lookup_insert_eq.
    + cbn. congruence.
    + intros w3 O3 _. now apply good_ok.
    + intros w3 q3 O3 _ _ _ _ _ _ _. cbn [Z.eqb]. unfold session_of. cbn [rq_rpd q1 set_slot].
      change (rq_rpd q1) with (rq_rpd q). destruct (rq_rpd q); [|done]. apply good_ok. now apply rad_emit.
Qed.

Lemma stop_timeout_spec w r q :
  ok None w -> w_req w !! r = Some q -> rq_kind q = KStop -> rq_queued q = false -> rq_timer q = Some false ->
  quiet w r -> good (ok None) (rad_acct_stop_timeout fuel w e r).
Proof using CO E Fu.
  intros O Hr Hk Hq Ht Q. unfold rad_acct_stop_timeout, req_at. rewrite Hr. cbn [res_of_option mbind res_bind].
  assert (exists w1, (if rq_active q then w ← rad_server_timeout w e (rq_serv q); rad_server_req_exit w r else mret w) = Ok w1 /\
    ok None w1 /\ w_req w1 !! r = Some (set_slot q false false) /\ quiet w1 r) as (w1 & -> & O1 & R1 & Q1).
  { destruct (rq_active q) eqn:Ha.
    - destruct (timeout_spec w (rq_serv q) O (serv_known w r q O Hr)) as (w1 & -> & O1 & Os). cbn [mbind res_bind].
      destruct (exit_any w1 r q O1) as (w2 & -> & O2 & R2 & _ & Q2); eauto;
        [now apply (os_req _ _ _ Os) | now apply (os_quiet _ _ _ Os _ q)].
    - exists w. split; [done|]. split; [done|]. split; [|done]. rewrite Hr. f_equal. rewrite <- Ha, <- Hq at 1. symmetry. apply set_slot_id. }
  cbn [mbind res_bind]. set (q1 := set_slot q false false) in *. change (rq_rpd q) with (rq_rpd q1).
  destruct (e_max_try e <=? rq_try q); [now apply stop_free_spec|].
  apply (send_good _ w1 r q1); auto; try done.
  - cbn. congruence.
  - intros w2 O2 _. now apply good_ok.
  - intros w2 q2 O2 S2 Q2 R2 P2 K2 A2 Qu2. cbn [Z.eqb]. change (rq_kind q1) with (rq_kind q) in K2.
    rewrite Hk in K2. destruct (e_shutdown e).
    + rewrite <- P2. now apply (stop_free_spec w2 r q2).
    + rewrite R2. cbn [res_of_option mbind res_bind]. apply good_ok.
      apply (rad_req_upd cf l T None None None w2 r q2); auto; [now split|].
      intros c' _ []. split; cbn in *; auto; try done; intros; congruence.
Qed.

Lemma on_timer_spec w r q :
  ok None w -> w_req w !! r = Some q -> rq_timer q = Some true -> good (ok None) (on_timer fuel w e r).
Proof using CO E Fu.
  intros O Hr Ht. destruct (timer_out w r q O Hr Ht) as (O1 & Q & Hq & X).
  unfold on_timer, req_at. rewrite Hr. cbn [res_of_option mbind res_bind].
  set (q1 := set_io q (rq_fd q) (rq_md q) (Some false)) in *. set (w1 := put_req w r q1) in *.
  assert (R1 : w_req w1 !! r = Some q1) by apply lookup_insert_eq.
  destruct (rq_kind q) eqn:Hk; try (destruct X as (Hm & Hf & Hp & Ha); [done|]).
  - now apply (auth_timeout_spec w1 r q1).
  - now apply (start_timeout_spec w1 r q1).
  - now apply (acct_timeout_spec w1 r q1).
  - now apply (stop_timeout_spec w1 r q1).
Qed.

(** ** Replies *)

(** After [rad_server_req_exit] or [rad_server_req_cancel] for a reply. *)
Lemma reply_exit_spec w r q :
  ok None w -> w_req w !! r = Some q -> rq_md q = Some true ->
  good (fun w' => rad_ok cf l T None (Some r) None w' /\ w_req w' !! r = Some (set_slot q false false) /\
                  w_ses w' = w_ses w /\ quiet w' r)
    (w ← rad_server_reply w (rq_serv q); if rq_active q then rad_server_req_exit w r else rad_server_req_cancel w r false).
Proof using CO.
  intros O Hr Hm. destruct (ho_at _ _ _ _ _ _ _ _ (rk_heap _ _ _ _ _ _ _ O) Hr) as (sv & Hs & Hc & S & R).
  assert (Hq : rq_queued q = false) by (destruct (rq_queued q) eqn:X; [now destruct (ro_queued _ _ _ R X) | done]).
  assert (Q : quiet w r) by (eapply quiet_if; eauto; [apply (rk_calls _ _ _ _ _ _ _ O) | apply (ro_slot _ _ _ R)]).
  unfold rad_server_reply, serv_at. rewrite Hs. cbn [res_of_option mbind res_bind mret res_ret].
  set (w1 := put_serv _ _ _).
  assert (O1 : ok None w1) by (apply (rad_serv cf l T None None None None w _ sv); auto; destruct S; now split).
  assert (R1 : w_req w1 !! r = Some q) by exact Hr.
  destruct (rq_active q) eqn:Ha.
  - destruct (exit_spec cf l T (Some r) None w1 r q) as (w2 & -> & O2 & R2 & Os); auto; [now apply rad_handle|].
    apply good_ok. split; [done|]. rewrite R2, Hq. split; [done|]. split; [apply (os_ses _ _ _ Os)|].
    now apply (os_quiet _ _ _ Os _ q).
  - unfold rad_server_req_cancel, req_at. rewrite R1. cbn [res_of_option mbind res_bind]. rewrite Hq.
    cbn [mret res_ret mbind res_bind negb].
    destruct (cancel_call_spec (Some r) None w1 r q) as [O2 Q2]; auto; [now apply rad_handle | right; left; congruence|].
    apply good_ok. split; [done|]. split; [|done]. cbn. rewrite Hr. f_equal. rewrite <- Ha, <- Hq at 1. symmetry. apply set_slot_id.
Qed.

(** A request that has been answered and is being handled. *)
Lemma answered_kind w r q :
  rad_ok cf l T None (Some r) None w -> w_req w !! r = Some q ->
  exists c, cf !! rq_serv q = Some c /\ req_ok false c q.
Proof using.
  intros O Hr. destruct (ho_req _ _ _ _ _ _ (rk_heap _ _ _ _ _ _ _ O) r q Hr) as (c & Hc & R). exists c.
  now rewrite bool_decide_true in R.
Qed.

Lemma start_recv_spec w r q :
  rad_ok cf l T None (Some r) None w -> w_req w !! r = Some q -> quiet w r -> rq_kind q = KStart ->
  rq_active q = false -> rq_queued q = false -> rq_md q = Some true ->
  good (ok None) (rad_acct_start_recv w r).
Proof using CO.
  intros O Hr Q Hk Ha Hq Hm. destruct (answered_kind w r q O Hr) as (c & Hc & R).
  pose proof (ro_timer _ _ _ R Hm (or_intror Hk)) as Ht.
  unfold rad_acct_start_recv, req_at, timer_del, md_unregister, session_of. rewrite Hr. cbn [res_of_option mbind res_bind].
  destruct (rq_timer q) as [t|] eqn:Htq; [|done]. cbn [mbind res_bind mret res_ret rq_md set_io]. rewrite Hm.
  cbn [mbind res_bind mret res_ret rq_rpd rq_timer set_io].
  set (q1 := set_io _ _ _ _). set (w1 := put_req w r q1).
  assert (O1 : ok None w1).
  { apply (rad_settle None w r q); auto; [now split|]. intros c' _ []. split; cbn in *; auto; try done. }
  assert (R1 : w_req w1 !! r = Some q1) by apply lookup_insert_eq.
  destruct (rq_rpd q) as [ses|] eqn:Hp; [|now rewrite (ro_rpd _ _ _ R Hp) in Hk]. cbn [res_of_option mbind res_bind].
  destruct (owner w1 r q1 ses O1 R1 Hp) as (pd & Hs & X). change (rq_kind q1) with (rq_kind q) in X. rewrite Hk in X.
  unfold pd_at. rewrite Hs. cbn [res_of_option mbind res_bind].
  pose proof (stop_no_interim w1 r q1 ses pd O1 R1 ltac:(cbn; congruence) Hs X) as Hi. destruct (pd_interim pd =? 0).
  - cbn [negb]. rewrite X. cbn [res_of_option mbind res_bind].
    destruct (free_spec w1 r q1 (rk_heap _ _ _ _ _ _ _ O1) (rk_calls _ _ _ _ _ _ _ O1) R1 Ha Hq Q) as (w2 & -> & H2 & C2 & S2 & R2).
    cbn [res_of_option mbind res_bind mret res_ret].
    cbn [w_ses put_pd with_ses]. rewrite lookup_insert_eq. cbn [res_of_option mbind res_bind].
    apply good_ok, rad_emit. split; [destruct H2; now split | | now apply (calls_ext w2)].
    apply (links_drop_acct w1 _ ses pd (set_started (set_acct pd None) true) r (rk_links _ _ _ _ _ _ _ O1)); auto; cbn.
    + now rewrite insert_insert_eq, S2.
    + intros k Hne. now rewrite R2, lookup_delete_ne.
    + intros q'. now rewrite R2, lookup_delete_eq.
  - cbn [negb mret res_ret mbind res_bind]. set (q2 := set_kind q1 true KInterim).
    cbn [w_ses put_pd with_ses]. rewrite lookup_insert_eq. cbn [res_of_option mbind res_bind].
    apply good_ok, rad_emit. split.
    + assert (H2 : heap_ok cf l T None None (put_req w1 r q2)).
      { apply heap_req with q1; [apply O1 | done | | ].
        - split; try done. cbn. congruence.
        - intros c' _ []. split; cbn in *; auto; try done; try (intros; congruence). now rewrite Hk in *. }
      destruct H2. now split.
    + apply (links_kind w1 _ ses pd (set_started (set_interim_timer pd true) true) r q2 (rk_links _ _ _ _ _ _ _ O1)); auto; try done.
      cbn. now rewrite insert_insert_eq.
    + apply (calls_ext (put_req w1 r q2)); [done..|]. apply calls_req; [apply O1 | exact Q].
Qed.

(** A request that ends is looked at only for its server. *)
Lemma finalize_put w r q q' ses pd b :
  w_req w !! r = Some q -> same_slot q q' -> w_ses w !! ses = Some pd -> pd_auth pd = Some r ->
  rad_auth_finalize (put_req w r q') ses b = rad_auth_finalize w ses b.
Proof using.
  intros Hr [S1 S2 S3 S4 _] Hs Ha. unfold rad_auth_finalize, rad_req_free, rad_server_put, req_at, serv_at, __free_server. cbn.
  rewrite Hs. cbn. rewrite Ha, lookup_insert_eq, Hr. cbn. rewrite S1, S2, S3, S4.
  destruct (_ || _); [done|]. destruct (w_serv w !! rq_serv q); [|done]. cbn.
  destruct (_ && _); cbn; now rewrite !delete_insert_eq.
Qed.

Lemma auth_recv_spec w r q b :
  rad_ok cf l T None (Some r) None w -> w_req w !! r = Some q -> quiet w r -> rq_kind q = KAuth ->
  rq_active q = false -> rq_queued q = false -> rq_timer q <> None ->
  good (ok None) (rad_auth_recv w r q b).
Proof using CO.
  intros O Hr Q Hk Ha Hq Ht. destruct (answered_kind w r q O Hr) as (c & Hc & R). unfold rad_auth_recv, timer_del, session_of.
  destruct (rq_timer q) as [t|] eqn:Htq; [|done]. cbn [mbind res_bind mret res_ret].
  destruct (rq_rpd q) as [ses|] eqn:Hp; [|now rewrite (ro_rpd _ _ _ R Hp) in Hk]. cbn [res_of_option mbind res_bind].
  destruct (lk_ses _ _ (rk_links _ _ _ _ _ _ _ O) r q ses Hr Hp) as (pd & Hs & X); [done|]. rewrite Hk in X.
  set (q1 := set_io q (rq_fd q) (rq_md q) (Some false)).
  assert (O1 : ok None (put_req w r q1)).
  { apply (rad_settle None w r q); auto; [now split|]. intros c' _ []. split; cbn in *; auto; try done.
    intros Y. congruence. }
  rewrite (finalize_put w r q _ ses pd) by (try done; now split).
  rewrite <- (finalize_put w r q q1 ses pd) by (try done; now split).
  apply (finalize_spec _ ses b pd); auto. intros k Hk'. simplify_eq. split; [exact Q|]. exists q1. cbn.
  now rewrite lookup_insert_eq.
Qed.

Lemma read_spec w r q got accept :
  ok None w -> w_req w !! r = Some q -> rq_md q = Some true ->
  good (fun p => ok None (fst p) /\ (snd p = false -> fst p = w)) (rad_req_read w r got accept).
Proof using CO.
  intros O Hr Hm. unfold rad_req_read. destruct got; cbn [negb]; [|now apply good_ok].
  unfold req_at. rewrite Hr. cbn [res_of_option mbind res_bind].
  destruct (reply_exit_spec w r q O Hr Hm) as (w1 & E1 & O1 & R1 & S1 & Q1).
  destruct (rad_server_reply w (rq_serv q)) as [w0| |]; try discriminate E1. cbn [mbind res_bind] in E1 |- *. rewrite E1.
  cbn [mbind res_bind]. set (q1 := set_slot q false false) in *.
  enough (good (ok None) (on_reply w1 r accept)) as (w2 & -> & O2) by (cbn; now apply good_ok).
  destruct (req_ok_at w r q O Hr) as (c & Hc & R).
  unfold on_reply, req_at. rewrite R1. cbn [res_of_option mbind res_bind]. change (rq_kind q1) with (rq_kind q).
  destruct (rq_kind q) eqn:Hk.
  - apply (auth_recv_spec w1 r q1); auto. apply (ro_timer _ _ _ R Hm (or_introl Hk)).
  - now apply (start_recv_spec w1 r q1).
  - unfold rad_acct_recv, md_unregister. cbn [rq_md set_io q1 set_slot]. change (rq_md q1) with (rq_md q). rewrite Hm.
    cbn [mbind res_bind mret res_ret]. apply good_ok.
    apply (rad_settle None w1 r q1); auto; [now split|]. intros c' _ []. split; cbn in *; auto; try done.
  - assert (O2 : ok None (put_req w1 r q1)).
    { apply (rad_settle None w1 r q1); auto; [now split|]. intros c' _ []. split; cbn in *; auto; try done. }
    replace (put_req w1 r q1) with w1 in O2.
    + now apply (stop_free_spec w1 r q1).
    + unfold put_req. rewrite insert_id by done. now destruct w1.
Qed.

(** ** Calls pending in contexts *)
Lemma start_deferred_spec w r q got :
  ok None w -> w_req w !! r = Some q -> deferred None q -> quiet w r -> good (ok None) (start_deferred w r got).
Proof using CO.
  intros O Hr (_ & Hp & Hk & Ha & Hq & Ht & Hm) Q. unfold start_deferred, req_at. rewrite Hr.
  cbn [res_of_option mbind res_bind].
  assert (Arm : forall w q, ok None w -> w_req w !! r = Some q -> quiet w r -> rq_kind q = KStop -> rq_queued q = false ->
                ok None (put_req w r (set_io q (rq_fd q) (rq_md q) (Some true)))).
  { clear. intros w q O Hr Q Hk Hq. apply (rad_req_upd cf l T None None None w r q); auto; [now split|].
    intros c' _ []. split; cbn in *; auto; try done; intros; congruence. }
  destruct (rq_fd q) eqn:Hf.
  - set (q1 := set_io _ _ _ _). set (w1 := put_req w r q1).
    assert (O1 : ok None w1).
    { apply (rad_req_upd cf l T None None None w r q); auto; [now split|].
      intros c' _ []. split; cbn in *; auto; try done; try (intros; congruence). intros _ [X|X]; congruence. }
    assert (R1 : w_req w1 !! r = Some q1) by apply lookup_insert_eq.
    destruct (read_spec w1 r q1 got true O1 R1) as ([w2 took] & -> & O2 & E2); [done|]. cbn [mbind res_bind fst snd] in *.
    destruct took; [now apply good_ok|]. rewrite E2 by done. rewrite R1. cbn [res_of_option mbind res_bind].
    apply good_ok. now apply Arm.
  - cbn [mret res_ret mbind res_bind]. rewrite Hr. cbn [res_of_option mbind res_bind]. apply good_ok. now apply Arm.
Qed.

Lemma next_call_spec ctx cs c cs' :
  next_call ctx cs = Some (c, cs') -> exists a b, cs = a ++ c :: b /\ cs' = a ++ b /\ rc_ctx c = ctx.
Proof using.
  revert c cs'. induction cs as [|x cs IH]; intros c cs'; [done|]. cbn [next_call]. case_bool_decide as Hx.
  - intros [= <- <-]. now exists [], cs.
  - destruct (next_call ctx cs) as [[y r]|]; [|done]. intros [= <- <-].
    destruct (IH y r eq_refl) as (a & b & -> & -> & ?). now exists (x :: a), b.
Qed.

(** The state in which a call runs. *)
Lemma taken_call w c a b :
  ok None w -> w_calls w = a ++ c :: b ->
  ok None (with_calls w (a ++ b)) /\
  (rc_func c <> req_wakeup_failed_f -> ~ rc_req c ∈ calls_of (rc_func c) (a ++ b)).
Proof using.
  intros [H K [A B C D]] Ec. rewrite Ec in A, B, C, D.
  assert (N : forall f, NoDup (calls_of f (a ++ c :: b)) -> NoDup (calls_of f (a ++ b)) /\ (rc_func c = f -> ~ rc_req c ∈ calls_of f (a ++ b))).
  { intros f. rewrite !calls_of_app, calls_of_cons. case_decide as Hf; [|done].
    intros (N1 & N2 & [N3 N4]%NoDup_cons)%NoDup_app. split.
    - apply NoDup_app. split; [done|]. split; [|done]. intros x X1 X2. apply (N2 x X1). now right.
    - intros _ [X|X]%elem_of_app; [|done]. apply (N2 _ X). now left. }
  assert (Sub : forall x, x ∈ a ++ b -> x ∈ a ++ c :: b) by (intros x; rewrite !elem_of_app, elem_of_cons; tauto).
  split; [split|].
  - now apply heap_calls.
  - now apply (links_ext None w).
  - split; cbn; auto; now apply N.
  - destruct (rc_func c) eqn:Hf; intros; [now apply N | done | now apply N].
Qed.

Lemma run_call_spec w ctx got :
  ok None w -> calm w (ICall ctx got) = true -> good (ok None) (run_call fuel w e ctx got).
Proof using CO E Fu.
  intros O Hc. unfold run_call, calm in *. destruct (next_call ctx (w_calls w)) as [[c cs]|] eqn:Hn; [|now apply good_ok].
  destruct (next_call_spec _ _ _ _ Hn) as (a & b & Ec & -> & Hx).
  destruct (taken_call w c a b O Ec) as [O1 N1]. set (w1 := with_calls w (a ++ b)) in *.
  assert (Hin : c ∈ w_calls w) by (rewrite Ec; apply elem_of_app; right; left).
  pose proof (rk_calls _ _ _ _ _ _ _ O) as C. pose proof (rk_calls _ _ _ _ _ _ _ O1) as C1.
  destruct (rc_func c) eqn:Hf.
  - destruct (ck_wakeup _ C c Hin Hf) as (q & Hq & W).
    apply (wakeup_spec w1 (rc_req c) q (rc_ctx c)); auto. split; [now apply N1|].
    intros (d & Hd & Hdf & Hdr)%elem_calls_of. destruct (ck_deferred _ C1 d Hd Hdf) as (x & Hx' & D).
    rewrite Hdr in Hx'. change (w_req w1) with (w_req w) in Hx'. destruct W, D as (_ & _ & _ & ? & _). congruence.
  - destruct (w_req w !! rc_req c) as [q|] eqn:Hq; [|done]. apply andb_true_iff in Hc as [Hc H4].
    apply andb_true_iff in Hc as [Hc H3]. apply andb_true_iff in Hc as [H1 H2].
    apply negb_true_iff in H1, H2, H3, H4. apply bool_decide_eq_false in H3, H4.
    apply (failover_spec w1 (rc_req c) q); auto; [congruence|]. split; [|done].
    intros (d & Hd & Hdf & Hdr)%elem_calls_of. destruct (ck_wakeup _ C1 d Hd Hdf) as (x & Hx' & W).
    rewrite Hdr in Hx'. change (w_req w1) with (w_req w) in Hx'. destruct W. congruence.
  - destruct (ck_deferred _ C c Hin Hf) as (q & Hq & D). pose proof D as (D1 & _ & _ & D2 & _).
    apply (start_deferred_spec w1 (rc_req c) q); auto; [now rewrite D1 in D|]. split; [|now apply N1].
    intros (d & Hd & Hdf & Hdr)%elem_calls_of. destruct (ck_wakeup _ C1 d Hd Hdf) as (x & Hx' & W).
    rewrite Hdr in Hx'. change (w_req w1) with (w_req w) in Hx'. destruct W. congruence.
Qed.

(** ** Sessions *)
Lemma links_new w w' r q :
  links_ok None w -> w_req w !! r = None -> w_ses w' = w_ses w -> w_req w' = <[r := q]> (w_req w) -> links_ok (Some r) w'.
Proof using.
  intros [A B C D] Hr Es Er. split; rewrite ?Es, ?Er.
  - intros ses pd k Hp Ha. destruct (A ses pd k Hp Ha) as (x & Hx & X). exists x. rewrite lookup_insert_ne; [done|congruence].
  - intros ses pd k Hp Ha. destruct (B ses pd k Hp Ha) as (x & Hx & X). exists x. rewrite lookup_insert_ne; [done|congruence].
  - intros ses pd Hp Hi. destruct (C ses pd Hp Hi) as (k & x & Ha & Hx & X). exists k, x.
    rewrite lookup_insert_ne; [done|congruence].
  - intros k x ses [[<- <-]|[_ Hx]]%lookup_insert_Some Hp Hne; [done|]. now apply (D k x ses).
Qed.

(** A new request for session [ses]. *)
Lemma alloc_spec w ses k prio :
  ok None w ->
  exists w' o, rad_req_alloc w e ses k prio = Ok (w', o) /\ w_ses w' = w_ses w /\
    match o with
    | None => w' = w
    | Some r => ok (Some r) w' /\ quiet w' r /\
        exists q, w_req w' !! r = Some q /\ rq_rpd q = Some ses /\ rq_kind q = k /\ rq_active q = false /\
          rq_queued q = false /\ rq_timer q = None
    end.
Proof using CO E.
  intros O. unfold rad_req_alloc, rad_server_get. rewrite (eo_mem _ _ _ E). cbn [negb].
  set (type := match k with KAuth => RAD_SERV_AUTH | _ => RAD_SERV_ACCT end).
  destruct (get_spec cf l CO T None None None w e type None 0 0 O eq_refl) as (w1 & o & -> & X). cbn [mbind res_bind].
  destruct o as [i|]; [|subst w1; now exists w, None].
  destruct X as (_ & _ & _ & sv & Hs & ->). cbn [w_next put_serv with_serv w_list w_serv w_req w_ses w_calls w_out].
  set (r := w_next w). set (q := mk_req i type prio 0 false false false None None (Some ses) k T).
  pose proof O as [H K C].
  assert (Hn : w_req w !! r = None).
  { destruct (w_req w !! r) eqn:Hr; [|done]. pose proof (ho_next _ _ _ _ _ _ H r (mk_is_Some _ _ Hr)) as X. now apply Nat.lt_irrefl in X. }
  assert (Q : quiet w r).
  { split; intros (c & Hc & Hf & Er)%elem_calls_of.
    - destruct (ck_wakeup _ C c Hc Hf) as (x & Hx & _). congruence.
    - destruct (ck_deferred _ C c Hc Hf) as (x & Hx & _). congruence. }
  eexists _, (Some r). split; [reflexivity|]. split; [done|]. split; [split|split; [exact Q|]].
  - apply (heap_new cf l T w q i sv r); auto. intros c _. now split.
  - now apply (links_new w _ r q).
  - apply (calls_ext (put_req w r q)); [done..|]. now apply calls_req.
  - exists q. cbn. now rewrite lookup_insert_eq.
Qed.

(** A session has its new request. *)
Lemma enter_ses w ses pd pd' r q :
  ok (Some r) w -> w_ses w !! ses = Some pd -> w_req w !! r = Some q -> rq_rpd q = Some ses ->
  (rq_kind q = KAuth /\ pd_auth pd = None /\ pd' = set_auth pd (Some r)) \/
  (rq_kind q <> KAuth /\ pd_acct pd = None /\ pd' = set_acct pd (Some r)) ->
  ok None (put_pd w ses pd').
Proof using.
  intros [[] K C] Hs Hr Hp X. split; [now split | | now apply (calls_ext w)].
  now apply (links_enter w _ ses pd pd' r q).
Qed.

Lemma auth_spec w ses pd :
  ok None w -> w_ses w !! ses = Some pd -> pd_auth pd = None -> good (ok None) (rad_auth fuel w e ses).
Proof using CO E Fu.
  intros O Hs Ha. unfold rad_auth. destruct (alloc_spec w ses KAuth false O) as (w1 & o & -> & S1 & X).
  cbn [mbind res_bind]. destruct o as [r|]; [|subst w1; now apply good_ok, rad_emit].
  destruct X as (O1 & Q1 & q & R1 & P1 & K1 & A1 & Qu1 & T1). unfold pd_at. rewrite S1, Hs. cbn [res_of_option mbind res_bind].
  set (pd' := set_auth pd (Some r)). set (w2 := put_pd w1 ses pd').
  assert (O2 : ok None w2) by (apply (enter_ses w1 ses pd pd' r q); auto; now rewrite S1).
  apply (send_good _ w2 r q); auto; try congruence.
  - intros w3 O3 _. now apply good_ok.
  - intros w3 q3 O3 S3 Q3 R3 _ _ A3 Qu3. cbn [Z.eqb].
    destruct (free_spec w3 r q3 (rk_heap _ _ _ _ _ _ _ O3) (rk_calls _ _ _ _ _ _ _ O3) R3 A3 Qu3 Q3) as (w4 & -> & H4 & C4 & S4 & R4).
    cbn [mbind res_bind]. assert (S4' : w_ses w4 !! ses = Some pd') by (rewrite S4, S3; apply lookup_insert_eq).
    rewrite S4'. cbn [res_of_option mbind res_bind]. apply good_ok, rad_emit.
    split; [destruct H4; now split | | now apply (calls_ext w4)].
    apply (links_drop_auth w3 _ ses pd' r (rk_links _ _ _ _ _ _ _ O3)); auto; [congruence|]. cbn. now rewrite S4.
Qed.

Lemma acct_start_spec w ses pd :
  ok None w -> w_ses w !! ses = Some pd -> pd_acct pd = None -> good (ok None) (rad_acct_start fuel w e ses).
Proof using CO E Fu.
  intros O Hs Ha. unfold rad_acct_start. destruct (alloc_spec w ses KStart false O) as (w1 & o & -> & S1 & X).
  cbn [mbind res_bind]. destruct o as [r|]; [|subst w1; now apply good_ok, rad_emit].
  destruct X as (O1 & Q1 & q & R1 & P1 & K1 & A1 & Qu1 & T1).
  destruct (rad_req_send_spec cf l CO T (Some r) fuel w1 e r q) as (w2 & c & -> & O2 & S2 & X); auto; try congruence.
  assert (Hs2 : w_ses w2 !! ses = Some pd) by congruence.
  cbn [mbind res_bind]. destruct X as [(-> & q2 & R2 & P2 & K2)|(-> & Q2 & q2 & R2 & P2 & K2 & A2 & Qu2 & _)]; cbn [Z.eqb].
  - unfold pd_at. rewrite Hs2. cbn [res_of_option mbind res_bind]. apply good_ok.
    apply (enter_ses w2 ses pd _ r q2); auto; [congruence|]. right. split; [congruence|done].
  - destruct (free_spec w2 r q2 (rk_heap _ _ _ _ _ _ _ O2) (rk_calls _ _ _ _ _ _ _ O2) R2 A2 Qu2 Q2) as (w3 & -> & H3 & C3 & S3 & R3).
    cbn [mbind res_bind]. apply good_ok, rad_emit. split; [done| |done].
    pose proof (rk_links _ _ _ _ _ _ _ O2) as K.
    apply (links_at ses r (Some r) None w2 w3 K); rewrite ?S3, ?R3; auto.
    + intros. now rewrite lookup_delete_ne.
    + intros x Hx. left. congruence.
    + intros x ?. now rewrite lookup_delete_eq.
    + intros pd' Hpd'. rewrite Hs2 in Hpd'. injection Hpd' as <-. split_and!.
      * intros k Hk. left. split; [|eauto]. intros ->. destruct (lk_auth _ _ K _ _ _ Hs2 Hk) as (x & ? & ? & ?). congruence.
      * intros k Hk. congruence.
      * intros Hi. destruct (lk_interim _ _ K _ _ Hs2 Hi) as (k & x & ? & ?). congruence.
    + intros pd' k Hpd' Hk Hx. eauto.
Qed.

Lemma interim_spec w ses pd late stats force :
  ok None w -> w_ses w !! ses = Some pd -> pd_interim_timer pd = true ->
  calm w (IInterim ses late stats force) = true ->
  good (ok None) (rad_acct_interim_update fuel w e ses late stats force).
Proof using CO E Fu.
  intros O Hs Hi Hc. destruct (lk_interim _ _ (rk_links _ _ _ _ _ _ _ O) _ _ Hs Hi) as (r & q & Ha & Hr & Hk).
  destruct (lk_acct _ _ (rk_links _ _ _ _ _ _ _ O) _ _ _ Hs Ha) as (q' & Hr' & Hp & _). simplify_eq.
  unfold calm in Hc. rewrite Hs in Hc. cbn in Hc. rewrite Ha in Hc. cbn in Hc. rewrite Hr in Hc.
  unfold rad_acct_interim_update, pd_at, req_at. rewrite Hs. cbn [res_of_option mbind res_bind]. rewrite Ha.
  cbn [res_of_option mbind res_bind]. rewrite Hr. cbn [res_of_option mbind res_bind].
  destruct (rq_queued q || isset (rq_timer q)) eqn:G; [now apply good_ok|]. apply orb_false_iff in G as [Hq Ht].
  rewrite Ht, orb_false_r in Hc. apply negb_true_iff in Hc.
  destruct late; [now apply good_ok|]. destruct stats; cbn [negb]; [|now apply good_ok, rad_emit].
  destruct (_ && _); [now apply good_ok|].
  assert (Q : quiet w r).
  { eapply quiet_if; eauto; [apply (rk_calls _ _ _ _ _ _ _ O) | | now rewrite Hc].
    right. right. right. split; [done|]. left. congruence. }
  assert (Tn : rq_timer q <> Some true) by (intros X; now rewrite X in Ht).
  apply (send_good _ _ r (set_try (set_ts q T) 0)); auto; try done.
  - apply (rad_req_upd cf l T None None None w r q); auto; [now split|]. intros c _ []. now split.
  - apply lookup_insert_eq.
  - cbn. congruence.
  - intros w2 O2 _. now apply good_ok.
  - intros w2 q2 O2 _ _ _ _ _ _ _. cbn [Z.eqb negb andb]. destruct (negb _); apply good_ok; [now apply rad_emit | done].
Qed.

(** Requests keep their kinds when another one ends. *)
Lemma kinds_put w r q q' :
  w_req w !! r = Some q -> rq_kind q' = rq_kind q -> rq_kind <$> w_req (put_req w r q') = rq_kind <$> w_req w.
Proof using. intros Hr Hk. cbn. rewrite fmap_insert, insert_id; [done|]. now rewrite lookup_fmap, Hr, Hk. Qed.

Lemma exit_kinds w r w' : rad_server_req_exit w r = Ok w' -> rq_kind <$> w_req w' = rq_kind <$> w_req w.
Proof using.
  unfold rad_server_req_exit, req_at, serv_at. destruct (w_req w !! r) as [q|] eqn:Hr; [|done]. cbn.
  destruct (w_serv w !! rq_serv q) as [s|]; [|done]. cbn. destruct (_ =? 0); [now intros [= <-]|].
  destruct (rq_active q); [|done]. cbn. set (q1 := set_slot q false (rq_queued q)).
  destruct (_ <? 0); [done|]. destruct (if _ <? _ then _ else _) as [[[n q0] q1']|].
  - destruct (<[r:=q1]> (w_req w) !! n) as [x|] eqn:Hn; [|done]. cbn. intros [= <-].
    etransitivity; [now apply (kinds_put (put_req w r q1) n x) | now apply (kinds_put w r q)].
  - intros [= <-]. now apply (kinds_put w r q).
Qed.

Lemma cancel_kinds w r w' : rad_server_req_cancel w r true = Ok w' -> rq_kind <$> w_req w' = rq_kind <$> w_req w.
Proof using.
  unfold rad_server_req_cancel, req_at, serv_at. destruct (w_req w !! r) as [q|] eqn:Hr; [|done]. cbn [res_of_option mbind res_bind].
  set (m := if rq_queued q then _ else _).
  assert (M : forall w1, m = Ok w1 -> rq_kind <$> w_req w1 = rq_kind <$> w_req w).
  { intros w1. unfold m. destruct (rq_queued q); [|now intros [= <-]]. destruct (w_serv w !! rq_serv q); [|done]. cbn.
    intros [= <-]. now apply (kinds_put w r q). }
  destruct m as [w1| |]; [|done..]. cbn [mbind res_bind negb]. rewrite <- (M w1 eq_refl). clear M.
  set (w2 := cancel_call w1 _ _). change (w_req w1) with (w_req w2).
  assert (X : forall w3, (if rq_active q then rad_server_req_exit w2 r else mret w2) = Ok w3 -> rq_kind <$> w_req w3 = rq_kind <$> w_req w2).
  { intros w3. destruct (rq_active q); [apply exit_kinds | now intros [= <-]]. }
  destruct (if rq_active q then _ else _) as [w3| |]; [|done..]. cbn [mbind res_bind].
  destruct (w_req w3 !! r) as [q3|] eqn:H3; [|done]. cbn [res_of_option mbind res_bind]. intros [= <-].
  rewrite <- (X w3 eq_refl). now apply (kinds_put w3 r q3).
Qed.

Lemma drop_auth_spec w ses pd :
  ok None w -> w_ses w !! ses = Some pd ->
  good (fun w' => ok None w' /\ w_ses w' !! ses = Some (set_auth pd None) /\
          forall k x, w_req w' !! k = Some x -> rq_kind <$> w_req w !! k = Some (rq_kind x)) (drop_auth w ses).
Proof using CO.
  intros O Hs. unfold drop_auth, pd_at. rewrite Hs. cbn [res_of_option mbind res_bind].
  destruct (pd_auth pd) as [r|] eqn:Ha.
  - destruct (lk_auth _ _ (rk_links _ _ _ _ _ _ _ O) _ _ _ Hs Ha) as (q & Hr & Hp & _).
    destruct (cancel_spec None w r q O Hr) as (w1 & E1 & O1 & S1 & Q1 & R1); [congruence|]. rewrite E1. cbn [mbind res_bind].
    destruct (free_spec w1 r _ (rk_heap _ _ _ _ _ _ _ O1) (rk_calls _ _ _ _ _ _ _ O1) R1) as (w2 & -> & H2 & C2 & S2 & R2); auto.
    cbn [mbind res_bind]. apply good_ok. split; [|split; [apply lookup_insert_eq|]].
    + split; [destruct H2; now split | | now apply (calls_ext w2)].
      apply (links_drop_auth w1 _ ses pd r (rk_links _ _ _ _ _ _ _ O1)); auto; [congruence|]. cbn. now rewrite S2.
    + intros k x Hx. cbn in Hx. rewrite R2 in Hx. apply lookup_delete_Some in Hx as [_ Hx].
      rewrite <- lookup_fmap, <- (cancel_kinds _ _ _ E1), lookup_fmap, Hx. done.
  - apply good_ok. split; [done|]. rewrite Hs. split; [f_equal; destruct pd; cbn in *; now rewrite Ha|].
    intros k x Hx. now rewrite Hx.
Qed.

(** A change of a session that keeps its requests. *)
Lemma put_pd_ok w ses pd pd' :
  ok None w -> w_ses w !! ses = Some pd -> pd_auth pd' = pd_auth pd -> pd_acct pd' = pd_acct pd ->
  (pd_interim_timer pd' = true -> pd_interim_timer pd = true) -> ok None (put_pd w ses pd').
Proof using.
  intros [[] K C] Hs Ea Ec Ei. split; [now split | | now apply (calls_ext w)]. now apply (links_ses w _ ses pd pd').
Qed.

(** The Accounting Stop of a session, once its request is there. *)
Lemma stop_send_spec w ses pd r q :
  ok None w -> w_ses w !! ses = Some pd -> pd_acct pd = Some r -> pd_interim_timer pd = false ->
  w_req w !! r = Some q -> quiet w r -> rq_active q = false -> rq_queued q = false -> rq_timer q = None ->
  good (fun w' => ok None w' /\ is_Some (w_ses w' !! ses))
    (x ← rad_req_send fuel (put_req w r (set_kind q (rq_prio q) KStop)) e r;
     let '(w, c) := x in if c =? 0 then mret w else rad_acct_stop_defer w ses r).
Proof using CO E Fu.
  intros O Hs Ha Hi Hr Q A1 A2 A3. set (q1 := set_kind q (rq_prio q) KStop). set (w1 := put_req w r q1).
  destruct (lk_acct _ _ (rk_links _ _ _ _ _ _ _ O) _ _ _ Hs Ha) as (q' & Hr' & Hp & Hk). rewrite Hr in Hr'. injection Hr' as <-.
  assert (O1 : ok None w1).
  { split.
    - apply heap_req with q; [apply O | done | now split | ]. intros c _ []. split; cbn in *; auto; try done.
      + now intros _ [X|X].
      + now destruct (rq_kind q).
    - apply (links_kind w w1 ses pd pd r q1 (rk_links _ _ _ _ _ _ _ O)); auto; try done; [congruence|].
      cbn. now rewrite insert_id.
    - apply calls_req; [apply O | done]. }
  apply (send_good _ w1 r q1); auto; try done.
  - apply lookup_insert_eq.
  - cbn. congruence.
  - cbn. congruence.
  - intros w2 O2 S2. apply good_ok. split; [done|]. rewrite S2. cbn. eauto.
  - intros w2 q2 O2 S2 _ R2 _ K2 _ _. cbn [Z.eqb].
    destruct (defer_ok w2 ses pd r q2) as (w3 & -> & O3 & S3); auto; [now rewrite S2|].
    apply good_ok. split; [done|]. rewrite S3, lookup_insert_eq. eauto.
Qed.

Lemma acct_stop_spec w ses pd :
  ok None w -> w_ses w !! ses = Some pd ->
  good (fun w' => ok None w' /\ is_Some (w_ses w' !! ses)) (rad_acct_stop fuel w e ses).
Proof using CO E Fu.
  intros O Hs. unfold rad_acct_stop, pd_at. rewrite Hs. cbn [res_of_option mbind res_bind].
  set (pd1 := set_interim_timer pd false). set (w1 := put_pd w ses pd1).
  assert (O1 : ok None w1) by (apply (put_pd_ok w ses pd); auto; done).
  assert (Hs1 : w_ses w1 !! ses = Some pd1) by apply lookup_insert_eq.
  destruct (pd_acct pd) as [r|] eqn:Ha.
  - destruct (lk_acct _ _ (rk_links _ _ _ _ _ _ _ O1) _ _ _ Hs1 Ha) as (q & Hr & Hp & _).
    destruct (cancel_spec None w1 r q O1 Hr) as (w2 & -> & O2 & S2 & Q2 & R2); [congruence|].
    cbn [mbind res_bind]. unfold req_at. rewrite R2. cbn [res_of_option mbind res_bind mret res_ret].
    set (q2 := set_io _ _ _ _) in *. set (w3 := put_req w2 r _). set (q3 := set_try (set_ts q2 T) 0).
    assert (R3 : w_req w3 !! r = Some q3) by apply lookup_insert_eq. rewrite R3. cbn [res_of_option mbind res_bind].
    apply (stop_send_spec w3 ses pd1 r q3); auto.
    + apply (rad_req_upd cf l T None None None w2 r q2); auto; [now split|]. intros c _ []. now split.
    + cbn. now rewrite S2.
  - destruct (alloc_spec w1 ses KStop true O1) as (w2 & o & -> & S2 & X). cbn [mbind res_bind]. destruct o as [r|].
    + destruct X as (O2 & Q2 & q & R2 & P2 & K2 & A2 & Qu2 & T2). rewrite S2, Hs1. cbn [res_of_option mbind res_bind mret res_ret].
      unfold req_at. set (w3 := put_pd w2 ses (set_acct pd1 (Some r))). change (w_req w3) with (w_req w2). rewrite R2.
      cbn [res_of_option mbind res_bind]. apply (stop_send_spec w3 ses (set_acct pd1 (Some r)) r q); auto.
      * apply (enter_ses w2 ses pd1 _ r q); auto; [now rewrite S2|]. right. split; [congruence|done].
      * apply lookup_insert_eq.
    + subst w2. apply good_ok. split; [done|]. rewrite Hs1. eauto.
Qed.

Lemma finishing_spec w ses pd : ok None w -> w_ses w !! ses = Some pd -> good (ok None) (ses_finishing fuel w e ses).
Proof using CO E Fu.
  intros O Hs. unfold ses_finishing. destruct (drop_auth_spec w ses pd O Hs) as (w1 & -> & O1 & Hs1 & _). cbn [mbind res_bind].
  unfold pd_at. rewrite Hs1. cbn [res_of_option mbind res_bind]. set (pd1 := set_auth pd None) in *.
  eapply (good_bind _ (fun w' => ok None w' /\ is_Some (w_ses w' !! ses))).
  - destruct (_ || _); [now apply (acct_stop_spec w1 ses pd1)|]. apply good_ok. rewrite Hs1. eauto.
  - intros w2 [O2 [pd2 Hs2]]. rewrite Hs2. apply good_ok. now apply (put_pd_ok w2 ses pd2).
Qed.

Lemma finished_spec w ses pd :
  ok None w -> w_ses w !! ses = Some pd -> finishing_done w pd = true -> good (ok None) (ses_finished w ses).
Proof using CO.
  intros O Hs Hd. unfold ses_finished. destruct (drop_auth_spec w ses pd O Hs) as (w1 & -> & O1 & Hs1 & Hd1). cbn [mbind res_bind].
  unfold pd_at. rewrite Hs1. cbn [res_of_option mbind res_bind]. set (pd1 := set_auth pd None) in *.
  set (pd2 := set_acct pd1 None).
  destruct (pd_acct pd1) as [r|] eqn:Ha.
  - destruct (lk_acct _ _ (rk_links _ _ _ _ _ _ _ O1) _ _ _ Hs1 Ha) as (q & Hr & Hp & _).
    assert (Hk : rq_kind q = KStop).
    { pose proof (Hd1 r q Hr) as X. unfold finishing_done in Hd. change (pd_acct pd1) with (pd_acct pd) in Ha.
      rewrite Ha in Hd. cbn in Hd. destruct (w_req w !! r); [|done]. injection X as <-. now apply bool_decide_eq_true in Hd. }
    destruct (pd_acct_started pd1).
    + destruct (defer_ok w1 ses pd1 r q O1 Hs1 Ha Hr Hk) as (w2 & -> & [H2 K2 C2] & S2). cbn [mbind res_bind]. apply good_ok.
      split; [destruct H2; now split | | now apply (calls_ext w2)].
      apply (links_end w2 _ ses pd2 K2); try done. rewrite S2. apply lookup_insert_eq.
    + destruct (cancel_spec None w1 r q O1 Hr) as (w2 & -> & O2 & S2 & Q2 & R2); [congruence|]. cbn [mbind res_bind].
      destruct (free_spec w2 r _ (rk_heap _ _ _ _ _ _ _ O2) (rk_calls _ _ _ _ _ _ _ O2) R2) as (w3 & -> & H3 & C3 & S3 & R3); auto.
      cbn [mbind res_bind]. apply good_ok. split; [destruct H3; now split | | now apply (calls_ext w3)].
      apply (links_end (with_ses w3 (<[ses := pd2]> (w_ses w2))) _ ses pd2); try done.
      * apply (links_drop_acct w2 _ ses pd1 pd2 r (rk_links _ _ _ _ _ _ _ O2)); auto; cbn.
        -- now rewrite S2.
        -- apply (stop_no_interim w1 r q ses pd1); congruence.
        -- intros k Hne. now rewrite R3, lookup_delete_ne.
        -- intros x. now rewrite R3, lookup_delete_eq.
      * apply lookup_insert_eq.
      * cbn. rewrite S3. now rewrite delete_insert_eq.
  - apply good_ok. split; [destruct O1 as [[] _ _]; now split | | apply (calls_ext w1); [done..|]; apply O1].
    now apply (links_end w1 _ ses pd1 (rk_links _ _ _ _ _ _ _ O1)).
Qed.
End Safe.

(** ** Runs *)
Lemma step_spec cf l T w e i :
  conf_ok cf l -> env_ok cf T e -> rad_ok cf l T None None None w -> calm w i = true ->
  good (rad_ok cf l (e_now e) None None None) (step w e i).
Proof.
  intros CO E O Hc.
  assert (E' : env_ok cf (e_now e) e) by (destruct E; split; auto; lia).
  assert (O' : rad_ok cf l (e_now e) None None None w).
  { destruct O as [H K C]. split; [|done..]. eapply heap_mono; eauto. apply (eo_now _ _ _ E). }
  assert (Fu : (S (length l) < fuel_of w)%nat).
  { unfold fuel_of. rewrite (ho_list _ _ _ _ _ _ (rk_heap _ _ _ _ _ _ _ O)). lia. }
  destruct i as [ses|ses|ses|ses late stats force|r|r got accept|ctx got|ses|ses]; cbn [step].
  - destruct (w_ses w !! ses) as [pd|] eqn:Hs; cbn; apply good_ok; [done|].
    destruct O' as [[] K C]. split; [now split | | now apply (calls_ext w)]. now apply (links_start w _ ses (mk_pd None None false (e_interim e) false)).
  - destruct (w_ses w !! ses) as [pd|] eqn:Hs; [|now apply good_ok].
    destruct (pd_auth pd) eqn:Ha; cbn [isset]; [now apply good_ok|]. eapply auth_spec; eauto.
  - destruct (w_ses w !! ses) as [pd|] eqn:Hs; [|now apply good_ok].
    destruct (pd_acct pd) eqn:Ha; cbn [isset orb]; [now apply good_ok|].
    destruct (pd_acct_started pd); [now apply good_ok|]. eapply acct_start_spec; eauto.
  - destruct (w_ses w !! ses) as [pd|] eqn:Hs; [|now apply good_ok].
    destruct (pd_interim_timer pd) eqn:Hi; [|now apply good_ok]. eapply interim_spec; eauto.
  - destruct (w_req w !! r) as [q|] eqn:Hr; [|now apply good_ok].
    case_bool_decide; [|now apply good_ok]. eapply on_timer_spec; eauto.
  - destruct (w_req w !! r) as [q|] eqn:Hr; [|now apply good_ok].
    case_bool_decide; [|now apply good_ok].
    destruct (read_spec cf l CO e w r q got accept O' Hr) as (p & -> & X & _); [done|]. now apply good_ok.
  - eapply run_call_spec; eauto.
  - destruct (w_ses w !! ses) as [pd|] eqn:Hs; cbn [isset]; [|now apply good_ok]. eapply finishing_spec; eauto.
  - destruct (w_ses w !! ses) as [pd|] eqn:Hs; [|now apply good_ok].
    destruct (finishing_done w pd) eqn:Hd; [|now apply good_ok]. eapply finished_spec; eauto.
Qed.

Lemma run_spec cf l k T w :
  conf_ok cf l -> env_run cf T k -> rad_ok cf l T None None None w -> calm_run w k = true ->
  good (rad_ok cf l (last_time T k) None None None) (run w k).
Proof.
  intros CO. revert T w. induction k as [|[e i] k IH]; intros T w HE O Hc; cbn in *; [now apply good_ok|].
  destruct HE as [E HE]. apply andb_true_iff in Hc as [Hc Hk].
  destruct (step_spec cf l T w e i CO E O Hc) as (w' & Es & O'). rewrite Es in *. cbn [mbind res_bind]. now apply IH.
Qed.

Lemma fresh_ok cf l T :
  conf_ok cf l -> (forall s c, cf !! s = Some c -> conf_of c = c) -> rad_ok cf l T None None None (fresh cf l).
Proof.
  intros CO Hf. split; [split|split|split]; cbn; try done.
  - apply map_eq. intros s. rewrite lookup_fmap. destruct (cf !! s) eqn:Hs; cbn; [|done]. now rewrite (Hf s).
  - intros s sv Hs. destruct (co_serv _ _ CO _ _ Hs) as (L & _). pose proof (Hf s sv Hs) as Hc.
    destruct sv. injection Hc as <- <- <- <- <- <- <- <-. cbn in *.
    assert (forall P, tally P ∅ = 0) as Z0 by (intros P; unfold tally; apply map_fold_empty).
    assert (Q0 : forall p, queue_ok ∅ s p []).
    { intros p. split; [apply NoDup_nil_2|]. intros r. rewrite elem_of_nil. split; [done|].
      intros (x & Hx & _). now rewrite lookup_empty in Hx. }
    split; cbn; rewrite ?Z0; done || apply Q0.
  - intros r [x Hx]. now rewrite lookup_empty in Hx.
  - now intros c ?%elem_of_nil.
  - now intros c ?%elem_of_nil.
  - apply NoDup_nil_2.
  - apply NoDup_nil_2.
Qed.


Lemma one_place_conf fail : 0 <= fail -> conf_ok (one_server fail) [0%nat].
Proof.
  intros H. unfold one_server. split.
  - intros s ->%list_elem_of_singleton. rewrite lookup_singleton_eq. eauto.
  - intros s c [<- <-]%lookup_singleton_Some. cbn. lia.
Qed.

Lemma one_place_fresh fail s c : (one_server fail) !! s = Some c -> conf_of c = c.
Proof. unfold one_server. now intros [<- <-]%lookup_singleton_Some. Qed.

Lemma timed_env fail T now k : 0 <= T <= now -> env_run (one_server fail) T (timed now k).
Proof.
  revert T now. induction k as [|i k IH]; intros T now H; [done|]. cbn. split; [split; cbn; auto|]. apply IH. lia.
Qed.


(** [rad_server_req_cancel] leaves a call of [req_wakeup_failed] pending.  A server with
    req-limit 1 does not answer, so the request that waits is told so; its session ends
    before the call runs and frees the request; the call then uses it. *)
Theorem wakeup_after_free :
  exists w, run (fresh (one_server 10) [0%nat]) (timed 1 stale_run) = Ok w /\
    w_req w !! 1%nat = None /\ w_calls w = [mk_call (Some 1%nat) req_wakeup_failed_f 1] /\
    forall e got, step w e (ICall (Some 1%nat) got) = Oob.
Proof. eexists. split; [vm_compute; reflexivity|]. split; [reflexivity|]. split; [reflexivity|]. reflexivity. Qed.

(** A reply to a request without session cancels the wake-up of another one, for
    [triton_cancel_call] cancels all calls of [req_wakeup] in the default context.  Three
    sessions end while a server with req-limit 1 is busy; then request 4 holds the place
    of the server without a timer, a socket or a call that would ever go on with it:
    only a new session changes anything, and its requests wait. *)
Theorem place_lost :
  exists out, run (fresh (one_server 0) [0%nat]) (timed 1 lost_run) = Ok (lost_world out) /\
    (forall e i, (forall ses, i <> IStart ses) -> step (lost_world out) e i = Ok (lost_world out)) /\
    exists w q, run (lost_world out) (timed 100 [IStart 9; IAuth 9]) = Ok w /\ w_req w !! 6%nat = Some q /\ rq_queued q = true.
Proof.
  eexists. split; [vm_compute; reflexivity|]. split.
  - intros e i Hi. destruct i as [ses|ses|ses|ses late stats force|r|r got accept|ctx got|ses|ses]; try reflexivity.
    + now destruct (Hi ses).
    + cbn [step w_req lost_world]. destruct (decide (r = 4%nat)) as [->|Hr]; [now rewrite lookup_singleton_eq|].
      now rewrite lookup_singleton_ne.
    + cbn [step w_req lost_world]. destruct (decide (r = 4%nat)) as [->|Hr]; [now rewrite lookup_singleton_eq|].
      now rewrite lookup_singleton_ne.
  - eexists _, _. split; [vm_compute; reflexivity|]. split; reflexivity.
Qed.

Lemma spin_loop fuel try :
  enter_loop fuel (spin 1 0 try 0) (env_down 5) 0 = Fail /\ enter_loop fuel (spin 0 1 try 1) (env_down 5) 0 = Fail.
Proof. induction fuel as [|fuel [IH1 IH2]]; [done|]. split; [exact IH2 | exact IH1]. Qed.


(** ** A server that is no longer configured *)
Lemma wake_removed_spec L w :
  (forall r, r ∈ L -> exists q, w_req w !! r = Some q /\ rq_rpd q <> None) ->
  exists w', wake_removed w L = Ok w' /\ w_list w' = w_list w /\
    (forall r q, w_req w !! r = Some q -> exists q', w_req w' !! r = Some q' /\ rq_rpd q' = rq_rpd q /\
       rq_active q' = rq_active q /\ rq_timer q' = rq_timer q /\ rq_md q' = rq_md q /\
       (rq_queued q' = true -> rq_queued q = true /\ ~ r ∈ L)).
Proof.
  revert w. induction L as [|r L IH]; intros w HL; [exists w; split_and!; auto; intros r q Hr; exists q; split_and!; auto;
    intros Hq; split; [done | apply not_elem_of_nil]|].
  cbn [wake_removed]. destruct (HL r) as (q & Hr & Hp); [set_solver|]. unfold req_at, session_of. rewrite Hr.
  cbn [res_of_option mbind res_bind]. destruct (rq_rpd q) as [ses|] eqn:Hs; [|done]. cbn [res_of_option mbind res_bind].
  set (q1 := set_slot q (rq_active q) false). set (w1 := context_call (put_req w r q1) (Some ses) req_wakeup_f r).
  assert (H1 : forall k x, w_req w !! k = Some x -> exists x', w_req w1 !! k = Some x' /\ rq_rpd x' = rq_rpd x /\
     rq_active x' = rq_active x /\ rq_timer x' = rq_timer x /\ rq_md x' = rq_md x /\
     (rq_queued x' = true -> rq_queued x = true /\ k <> r)).
  { intros k x Hk. cbn. destruct (decide (k = r)) as [->|Hkr].
    - rewrite lookup_insert_eq. simplify_eq. exists q1. now split_and!.
    - rewrite lookup_insert_ne by done. exists x. now split_and!. }
  destruct (IH w1) as (w' & -> & S' & X).
  { intros k Hk. destruct (HL k) as (x & Hx & Px); [set_solver|]. destruct (H1 k x Hx) as (x' & ? & ? & _). exists x'.
    split; congruence. }
  exists w'. split; [done|]. split; [exact S'|]. intros k x Hk. destruct (H1 k x Hk) as (x1 & Hx1 & A1 & A2 & A3 & A4 & A5).
  destruct (X k x1 Hx1) as (x2 & Hx2 & B1 & B2 & B3 & B4 & B5). exists x2. split_and!; try congruence; auto.
  intros Hq. destruct (B5 Hq) as [B6 B7]. destruct (A5 B6) as [? ?]. split; [done|]. intros [?|?]%elem_of_cons; done.
Qed.

(** When a server is removed from the configuration, its waiting requests are lost: they
    are taken off the queues and their calls of [req_wakeup] do nothing, for the requests
    have no place; no timer or socket is waited for, so they are neither sent nor failed. *)
Theorem removed_server_orphans (w : world) (i : nat) (sv : rad_server_t) :
  w_serv w !! i = Some sv ->
  (forall r, r ∈ rs_queue0 sv ++ rs_queue1 sv -> exists q, w_req w !! r = Some q /\ rq_rpd q <> None /\
     rq_active q = false /\ rq_timer q <> Some true /\ rq_md q <> Some true) ->
  exists w', remove_server w i = Ok w' /\ ~ i ∈ w_list w' /\
    forall r, r ∈ rs_queue0 sv ++ rs_queue1 sv ->
      (exists q, w_req w' !! r = Some q /\ rq_queued q = false /\ rq_active q = false /\
         rq_timer q <> Some true /\ rq_md q <> Some true) /\
      forall fuel e, req_wakeup fuel w' e r = Ok w'.
Proof.
  intros Hs HQ. unfold remove_server, serv_at. rewrite Hs. cbn [res_of_option mbind res_bind rs_queue0 rs_queue1 set_need_free].
  set (w0 := mk_world _ _ _ _ _ _ _).
  destruct (wake_removed_spec (rs_queue0 sv) w0) as (w1 & -> & S1 & X1).
  { intros r Hr. destruct (HQ r) as (q & ? & ? & _); [set_solver|]. eauto. }
  cbn [mbind res_bind].
  destruct (wake_removed_spec (rs_queue1 sv) w1) as (w2 & -> & S2 & X2).
  { intros r Hr. destruct (HQ r) as (q & Hq & Hp & _); [set_solver|].
    destruct (X1 r q Hq) as (q1 & ? & ? & _). exists q1. split; congruence. }
  cbn [mbind res_bind].
  set (w3 := put_serv _ _ _).
  assert (R3 : forall r, r ∈ rs_queue0 sv ++ rs_queue1 sv -> exists q, w_req w2 !! r = Some q /\ rq_queued q = false /\
    rq_active q = false /\ rq_timer q <> Some true /\ rq_md q <> Some true).
  { intros r Hr. destruct (HQ r Hr) as (q & Hq & _ & Ha & Ht & Hm).
    destruct (X1 r q Hq) as (q1 & Hq1 & _ & A1 & T1 & M1 & U1). destruct (X2 r q1 Hq1) as (q2 & Hq2 & _ & A2 & T2 & M2 & U2).
    exists q2. split_and!; try congruence. destruct (rq_queued q2) eqn:Hu; [|done].
    destruct (U2 eq_refl) as [U3 N2]. destruct (U1 U3) as [_ N1].
    now apply elem_of_app in Hr as [Hr|Hr]. }
  assert (W3 : forall w', w_req w' = w_req w2 -> w_list w' = w_list w2 -> ~ i ∈ w_list w' /\
    forall r, r ∈ rs_queue0 sv ++ rs_queue1 sv ->
      (exists q, w_req w' !! r = Some q /\ rq_queued q = false /\ rq_active q = false /\
         rq_timer q <> Some true /\ rq_md q <> Some true) /\ forall fuel e, req_wakeup fuel w' e r = Ok w').
  { intros w' Er El. rewrite Er, El, S2, S1. split.
    - intros X. apply list_elem_of_filter in X as [X _]. now apply X.
    - intros r Hr. destruct (R3 r Hr) as (q & Hq & Hu & Ha & X). split; [eauto|]. intros fuel e.
      unfold req_wakeup, req_at. rewrite Er, Hq. cbn. now rewrite Ha. }
  destruct (_ && _); eexists; (split; [reflexivity | now apply W3]).
Qed.

Lemma removed_server_orphans_witness :
  let sv := mk_server 1 1812 1813 1 1 1 0 1 [1%nat] [] 2 0 0 0 1 0 false in
  let q active := mk_req 0 RAD_SERV_AUTH false 1 active (negb active) active None None (Some 0%nat) KAuth 0 in
  let w := mk_world [0%nat] {[0%nat := sv]} (<[0%nat := q true]> {[1%nat := q false]}) ∅ [] 2 [] in
  exists w', remove_server w 0 = Ok w' /\ forall fuel e, req_wakeup fuel w' e 1 = Ok w'.
Proof.
  intros sv q w. destruct (removed_server_orphans w 0 sv eq_refl) as (w' & E & _ & X).
  - intros r ->%list_elem_of_singleton. exists (q false). now split_and!.
  - exists w'. split; [exact E|]. apply X. cbn. now left.
Defined.
