(* ===== verification/L2tpTransport.v ===== *)
(** * L2TP reliable delivery of control messages (accel-pppd/ctrl/l2tp/l2tp.c)

    The part of a tunnel, [struct l2tp_conn_t], that numbers, sends, retransmits,
    acknowledges, reorders and hands out control messages.

    The struct is split in the sending side ([l2tp_tx_t]), the receiving side
    ([l2tp_rx_t]) and the rest.  [c_sent] is the output: the packets given to the
    socket so far.  What the socket, the timers and the memory pools answer is
    the argument [env] of an operation.  A session is represented by its
    identifiers and its [send_queue] by the mark [q_sess] of the packets in the
    tunnel's queue that are linked in it.

    The handlers of the messages (l2tp_session_recv, l2tp_tunnel_recv) are the
    argument [dispatch] of [l2tp_tunnel_reply]: what they do to the transport is
    a sequence of calls, the type [action]. *)
From S2P Require Import Prelude Utils L2tpPacket.

Inductive tunnel_state : Type :=
| STATE_INIT | STATE_WAIT_SCCRP | STATE_WAIT_SCCCN | STATE_WAIT_ICRP | STATE_WAIT_ICCN
| STATE_WAIT_OCRP | STATE_WAIT_OCCN | STATE_ESTB | STATE_FIN | STATE_FIN_WAIT | STATE_CLOSE.

#[export] Instance tunnel_state_eq_dec : EqDecision tunnel_state.
Proof. solve_decision. Defined.

Definition DEFAULT_PEER_RECV_WINDOW_SIZE : Z := 4.
Definition RECV_WINDOW_SIZE_MAX : Z := 32768.

Record l2tp_sess_t : Type := mk_sess {
  s_sid : Z;
  s_peer_sid : Z;
  s_closed : bool;          (* l2tp_sess_state(sess) == STATE_CLOSE *)
  s_switch_upstream : bool
}.

(** A packet of [send_queue] and the session whose [send_queue] it is also in. *)
Record queued : Type := mk_q {
  q_pack : l2tp_packet_t;
  q_sess : option Z
}.

Record l2tp_tx_t : Type := mk_tx {
  t_Ns : Z;
  t_peer_Nr : Z;
  t_peer_rcv_wnd_sz : Z;
  t_send_queue : list queued;
  t_send_queue_len : Z;
  t_rtms_queue : list l2tp_packet_t;
  t_retransmit : Z;
  t_timer_on : bool;        (* rtimeout_timer.tpd *)
  t_timer_period : Z        (* rtimeout_timer.period *)
}.

Record l2tp_rx_t : Type := mk_rx {
  r_Nr : Z;
  r_queue : list (option l2tp_packet_t);
  r_queue_sz : Z;
  r_queue_offt : Z
}.

Record l2tp_conn_t : Type := mk_conn {
  c_state : tunnel_state;
  c_tid : Z;
  c_peer_tid : Z;
  c_port_set : bool;
  c_rtimeout : Z;
  c_rtimeout_cap : Z;
  c_max_retransmit : Z;
  c_timeout_timer : option Z;
  c_hello_timer : bool;
  c_sessions : list l2tp_sess_t;
  c_tx : l2tp_tx_t;
  c_rx : l2tp_rx_t;
  c_sent : list l2tp_packet_t
}.

(** What the environment answers to the calls of one operation: whether
    [l2tp_packet_send] sends a packet, whether [triton_timer_add] and
    [triton_timer_mod] succeed, whether there is memory, whether
    [l2tp_tunnel_update_peerport] succeeds. *)
Record env_t : Type := mk_env {
  e_send_ok : l2tp_packet_t -> bool;
  e_timer_ok : bool;
  e_alloc_ok : bool;
  e_port_ok : bool
}.

(** ** Field updates *)
Definition with_tx (conn : l2tp_conn_t) (tx : l2tp_tx_t) : l2tp_conn_t :=
  mk_conn (c_state conn) (c_tid conn) (c_peer_tid conn) (c_port_set conn) (c_rtimeout conn)
    (c_rtimeout_cap conn) (c_max_retransmit conn) (c_timeout_timer conn) (c_hello_timer conn)
    (c_sessions conn) tx (c_rx conn) (c_sent conn).
Definition with_rx (conn : l2tp_conn_t) (rx : l2tp_rx_t) : l2tp_conn_t :=
  mk_conn (c_state conn) (c_tid conn) (c_peer_tid conn) (c_port_set conn) (c_rtimeout conn)
    (c_rtimeout_cap conn) (c_max_retransmit conn) (c_timeout_timer conn) (c_hello_timer conn)
    (c_sessions conn) (c_tx conn) rx (c_sent conn).
Definition with_sent (conn : l2tp_conn_t) (pack : l2tp_packet_t) : l2tp_conn_t :=
  mk_conn (c_state conn) (c_tid conn) (c_peer_tid conn) (c_port_set conn) (c_rtimeout conn)
    (c_rtimeout_cap conn) (c_max_retransmit conn) (c_timeout_timer conn) (c_hello_timer conn)
    (c_sessions conn) (c_tx conn) (c_rx conn) (c_sent conn ++ [pack]).
Definition with_state (conn : l2tp_conn_t) (st : tunnel_state) : l2tp_conn_t :=
  mk_conn st (c_tid conn) (c_peer_tid conn) (c_port_set conn) (c_rtimeout conn)
    (c_rtimeout_cap conn) (c_max_retransmit conn) (c_timeout_timer conn) (c_hello_timer conn)
    (c_sessions conn) (c_tx conn) (c_rx conn) (c_sent conn).
Definition with_timers (conn : l2tp_conn_t) (timeout : option Z) (hello : bool) : l2tp_conn_t :=
  mk_conn (c_state conn) (c_tid conn) (c_peer_tid conn) (c_port_set conn) (c_rtimeout conn)
    (c_rtimeout_cap conn) (c_max_retransmit conn) timeout hello
    (c_sessions conn) (c_tx conn) (c_rx conn) (c_sent conn).
Definition with_sessions (conn : l2tp_conn_t) (ss : list l2tp_sess_t) : l2tp_conn_t :=
  mk_conn (c_state conn) (c_tid conn) (c_peer_tid conn) (c_port_set conn) (c_rtimeout conn)
    (c_rtimeout_cap conn) (c_max_retransmit conn) (c_timeout_timer conn) (c_hello_timer conn)
    ss (c_tx conn) (c_rx conn) (c_sent conn).
Definition with_peer (conn : l2tp_conn_t) (peer_tid : Z) (port_set : bool) : l2tp_conn_t :=
  mk_conn (c_state conn) (c_tid conn) peer_tid port_set (c_rtimeout conn)
    (c_rtimeout_cap conn) (c_max_retransmit conn) (c_timeout_timer conn) (c_hello_timer conn)
    (c_sessions conn) (c_tx conn) (c_rx conn) (c_sent conn).

Definition tx_queue (tx : l2tp_tx_t) (q : list queued) (len : Z) : l2tp_tx_t :=
  mk_tx (t_Ns tx) (t_peer_Nr tx) (t_peer_rcv_wnd_sz tx) q len (t_rtms_queue tx) (t_retransmit tx)
    (t_timer_on tx) (t_timer_period tx).
Definition tx_rtms (tx : l2tp_tx_t) (q : list l2tp_packet_t) : l2tp_tx_t :=
  mk_tx (t_Ns tx) (t_peer_Nr tx) (t_peer_rcv_wnd_sz tx) (t_send_queue tx) (t_send_queue_len tx) q
    (t_retransmit tx) (t_timer_on tx) (t_timer_period tx).
Definition tx_timer (tx : l2tp_tx_t) (retransmit : Z) (on : bool) (period : Z) : l2tp_tx_t :=
  mk_tx (t_Ns tx) (t_peer_Nr tx) (t_peer_rcv_wnd_sz tx) (t_send_queue tx) (t_send_queue_len tx)
    (t_rtms_queue tx) retransmit on period.
Definition tx_peer (tx : l2tp_tx_t) (peer_Nr wnd : Z) : l2tp_tx_t :=
  mk_tx (t_Ns tx) peer_Nr wnd (t_send_queue tx) (t_send_queue_len tx)
    (t_rtms_queue tx) (t_retransmit tx) (t_timer_on tx) (t_timer_period tx).

Definition pack_hdr (pack : l2tp_packet_t) (h : l2tp_hdr_t) : l2tp_packet_t :=
  mk_packet h (p_attrs pack) (p_last_RV pack) (p_secret pack) (p_hide_avps pack).
Definition set_Ns (pack : l2tp_packet_t) (n : Z) : l2tp_packet_t :=
  let h := p_hdr pack in
  pack_hdr pack (mk_hdr (h_flags h) (h_length h) (h_tid h) (h_sid h) n (h_Nr h)).
Definition set_Nr (pack : l2tp_packet_t) (n : Z) : l2tp_packet_t :=
  let h := p_hdr pack in
  pack_hdr pack (mk_hdr (h_flags h) (h_length h) (h_tid h) (h_sid h) (h_Ns h) n).
Definition set_tid (pack : l2tp_packet_t) (n : Z) : l2tp_packet_t :=
  let h := p_hdr pack in
  pack_hdr pack (mk_hdr (h_flags h) (h_length h) n (h_sid h) (h_Ns h) (h_Nr h)).
Definition set_sid (pack : l2tp_packet_t) (n : Z) : l2tp_packet_t :=
  let h := p_hdr pack in
  pack_hdr pack (mk_hdr (h_flags h) (h_length h) (h_tid h) n (h_Ns h) (h_Nr h)).
Definition pack_Ns (pack : l2tp_packet_t) : Z := h_Ns (p_hdr pack).
Definition pack_Nr (pack : l2tp_packet_t) : Z := h_Nr (p_hdr pack).

(** ** Sequence numbers *)
Definition nsnr_cmp (ns nr : Z) : Z :=
  let sub_nsnr := u16 (ns - nr) in
  let ref := u16 (-32767) in
  Z.b2z (negb (sub_nsnr =? 0) && (sub_nsnr <? ref)) - Z.b2z (ref <=? sub_nsnr).

(** ** The queues *)
Definition l2tp_tunnel_clear_recvqueue (rx : l2tp_rx_t) : l2tp_rx_t :=
  mk_rx (r_Nr rx) (replicate (Z.to_nat (r_queue_sz rx)) None ++ drop (Z.to_nat (r_queue_sz rx)) (r_queue rx))
    (r_queue_sz rx) 0.

Definition l2tp_tunnel_clear_sendqueue (tx : l2tp_tx_t) : l2tp_tx_t := tx_queue tx [] 0.

Definition in_session (sid : Z) (q : queued) : bool := bool_decide (q_sess q = Some sid).

Definition l2tp_session_clear_sendqueue (sid : Z) (tx : l2tp_tx_t) : l2tp_tx_t :=
  let gone := filter (fun q => in_session sid q = true) (t_send_queue tx) in
  tx_queue tx (filter (fun q => in_session sid q = false) (t_send_queue tx))
    (u32 (t_send_queue_len tx - Z.of_nat (length gone))).

(** Result: the tunnel with the packet as the last one sent, the packet as it is
    now, and whether it was sent. *)
Definition __l2tp_tunnel_send (env : env_t) (conn : l2tp_conn_t) (pack : l2tp_packet_t)
  : l2tp_conn_t * l2tp_packet_t * bool :=
  let pack := set_Nr pack (r_Nr (c_rx conn)) in
  if e_send_ok env pack then (with_sent conn pack, pack, true) else (conn, pack, false).

(** The loop of [l2tp_tunnel_clean_rtmsqueue]: what is left and how many are gone. *)
Fixpoint drop_acked (peer_Nr : Z) (q : list l2tp_packet_t) (pkt_freed : Z) : list l2tp_packet_t * Z :=
  match q with
  | [] => ([], pkt_freed)
  | pack :: q' =>
      if 0 <=? nsnr_cmp (pack_Ns pack) peer_Nr then (q, pkt_freed)
      else drop_acked peer_Nr q' (pkt_freed + 1)
  end.

(** [false] is the -1 return. *)
Definition l2tp_tunnel_clean_rtmsqueue (env : env_t) (conn : l2tp_conn_t) : l2tp_conn_t * bool :=
  let tx := c_tx conn in
  let '(q, pkt_freed) := drop_acked (t_peer_Nr tx) (t_rtms_queue tx) 0 in
  let tx := tx_rtms tx q in
  if pkt_freed =? 0 then (with_tx conn tx, true)
  else
    match q with
    | [] => (with_tx conn (tx_timer tx 0 false (t_timer_period tx)), true)
    | _ :: _ =>
        if e_timer_ok env then (with_tx conn (tx_timer tx 0 true (c_rtimeout conn)), true)
        else (with_tx conn (tx_timer tx 0 (t_timer_on tx) (c_rtimeout conn)), false)
    end.

(** The loop of [l2tp_tunnel_push_sendqueue] over [send_queue]: the tunnel, the
    number of packets sent, and whether no send failed. *)
Fixpoint push_loop (env : env_t) (Nr_max : Z) (q : list queued) (conn : l2tp_conn_t) (pkt_sent : Z)
  : l2tp_conn_t * Z * bool :=
  match q with
  | [] => (conn, pkt_sent, true)
  | p :: q' =>
      let tx := c_tx conn in
      if 0 <=? nsnr_cmp (t_Ns tx) Nr_max then (conn, pkt_sent, true)
      else
        let pack := set_Ns (q_pack p) (t_Ns tx) in
        let '(conn, pack, ok) := __l2tp_tunnel_send env conn pack in
        if negb ok then
          (with_tx conn (tx_queue tx (mk_q pack (q_sess p) :: q') (t_send_queue_len tx)), pkt_sent, false)
        else
          let tx := mk_tx (u16 (t_Ns tx + 1)) (t_peer_Nr tx) (t_peer_rcv_wnd_sz tx) q'
                      (u32 (t_send_queue_len tx - 1)) (t_rtms_queue tx ++ [pack]) (t_retransmit tx)
                      (t_timer_on tx) (t_timer_period tx) in
          push_loop env Nr_max q' (with_tx conn tx) (pkt_sent + 1)
  end.

Definition l2tp_tunnel_push_sendqueue (env : env_t) (conn : l2tp_conn_t) : l2tp_conn_t * Z :=
  let tx := c_tx conn in
  let Nr_max := u16 (t_peer_Nr tx + t_peer_rcv_wnd_sz tx) in
  let '(conn, pkt_sent, ok) := push_loop env Nr_max (t_send_queue tx) conn 0 in
  if negb ok then (conn, -1)
  else if pkt_sent =? 0 then (conn, 0)
  else
    let tx := c_tx conn in
    if t_timer_on tx then (conn, 1)
    else if e_timer_ok env then
      (with_tx conn (tx_timer tx (t_retransmit tx) true (c_rtimeout conn)), 1)
    else (with_tx conn (tx_timer tx (t_retransmit tx) false (c_rtimeout conn)), -1).

Definition closing (st : tunnel_state) : bool :=
  match st with STATE_FIN | STATE_FIN_WAIT | STATE_CLOSE => true | _ => false end.

(** [sess] is the session whose queue the packet will be linked in. *)
Definition tunnel_enqueue (sess : option Z) (conn : l2tp_conn_t) (pack : l2tp_packet_t)
  : l2tp_conn_t * bool :=
  if closing (c_state conn) then (conn, false)
  else
    let tx := c_tx conn in
    let pack := set_tid pack (c_peer_tid conn) in
    (with_tx conn (tx_queue tx (t_send_queue tx ++ [mk_q pack sess]) (u32 (t_send_queue_len tx + 1))), true).

Definition l2tp_tunnel_send : l2tp_conn_t -> l2tp_packet_t -> l2tp_conn_t * bool := tunnel_enqueue None.

Definition l2tp_session_send (conn : l2tp_conn_t) (sess : l2tp_sess_t) (pack : l2tp_packet_t)
  : l2tp_conn_t * bool :=
  if s_closed sess then (conn, false)
  else tunnel_enqueue (Some (s_sid sess)) conn (set_sid pack (s_peer_sid sess)).

Definition l2tp_session_try_send (conn : l2tp_conn_t) (sess : l2tp_sess_t) (pack : l2tp_packet_t)
  : l2tp_conn_t * bool :=
  if negb (s_switch_upstream sess) && (t_peer_rcv_wnd_sz (c_tx conn) <=? t_send_queue_len (c_tx conn))
  then (conn, false)
  else (fst (l2tp_session_send conn sess pack), true).

(** ** Closing a tunnel *)

(** [l2tp_tunnel_free]; the states a session has and a tunnel has not are the
    default case of the switch. *)
Definition l2tp_tunnel_free (conn : l2tp_conn_t) : l2tp_conn_t :=
  match c_state conn with
  | STATE_CLOSE | STATE_WAIT_ICRP | STATE_WAIT_ICCN | STATE_WAIT_OCRP | STATE_WAIT_OCCN => conn
  | _ =>
      let conn := with_state conn STATE_CLOSE in
      let conn := with_timers conn None false in
      let tx := c_tx conn in
      let tx := tx_timer tx (t_retransmit tx) false (t_timer_period tx) in
      let tx := l2tp_tunnel_clear_sendqueue (tx_rtms tx []) in
      let conn := with_rx (with_tx conn tx) (l2tp_tunnel_clear_recvqueue (c_rx conn)) in
      with_sessions conn []
  end.

(** [stop] is the StopCCN that [l2tp_send_StopCCN] builds, [None] when it cannot. *)
Definition l2tp_tunnel_disconnect (conn : l2tp_conn_t) (stop : option l2tp_packet_t)
  : l2tp_conn_t * bool :=
  match c_state conn with
  | STATE_INIT | STATE_WAIT_SCCRP | STATE_WAIT_SCCCN | STATE_ESTB =>
      let conn := with_tx conn (l2tp_tunnel_clear_sendqueue (c_tx conn)) in
      match stop with
      | None => (l2tp_tunnel_free (with_state conn STATE_FIN), false)
      | Some pack =>
          let conn := fst (l2tp_tunnel_send conn pack) in
          let conn := with_timers (with_state conn STATE_FIN) None false in
          (with_sessions conn [], true)
      end
  | _ => (conn, true)
  end.

Definition l2tp_tunnel_disconnect_push (env : env_t) (conn : l2tp_conn_t) (stop : option l2tp_packet_t)
  : l2tp_conn_t * bool :=
  let '(conn, ok) := l2tp_tunnel_disconnect conn stop in
  if negb ok then (conn, false)
  else
    let '(conn, res) := l2tp_tunnel_push_sendqueue env conn in
    if res <? 0 then (l2tp_tunnel_free conn, false) else (conn, true).

(** What [l2tp_packet_alloc(2, 0, ...)] makes. *)
Definition zlb_packet : l2tp_packet_t :=
  mk_packet (mk_hdr (Z.lor (Z.lor (Z.lor L2TP_FLAG_T L2TP_FLAG_L) L2TP_FLAG_S) 2) 0 0 0 0 0) [] None None false.

Definition l2tp_send_ZLB (env : env_t) (conn : l2tp_conn_t) : l2tp_conn_t * bool :=
  if negb (e_alloc_ok env) then (conn, false)
  else
    let pack := set_Ns (set_tid zlb_packet (c_peer_tid conn)) (t_Ns (c_tx conn)) in
    let '(conn, _, ok) := __l2tp_tunnel_send env conn pack in
    (conn, ok).

(** The loop that adds up the timeouts of a retransmission cycle. *)
Fixpoint finwait_period (n : nat) (rtimeout rtimeout_cap period : Z) : Z :=
  match n with
  | O => period
  | S n' =>
      finwait_period n' (if rtimeout_cap <? rtimeout * 2 then rtimeout_cap else rtimeout * 2)
        rtimeout_cap (period + rtimeout)
  end.

Definition l2tp_tunnel_finwait (env : env_t) (conn : l2tp_conn_t) : l2tp_conn_t :=
  match c_state conn with
  | STATE_WAIT_SCCRP | STATE_WAIT_SCCCN | STATE_ESTB | STATE_FIN =>
      let conn := with_timers (with_state conn STATE_FIN_WAIT) None false in
      let conn := with_tx conn (l2tp_tunnel_clear_sendqueue (c_tx conn)) in
      let conn := with_sessions conn [] in
      let period := finwait_period (Z.to_nat (c_max_retransmit conn)) (c_rtimeout conn) (c_rtimeout_cap conn) 0 in
      if e_timer_ok env then with_timers conn (Some period) false
      else l2tp_tunnel_free (fst (l2tp_send_ZLB env conn))
  | _ => conn
  end.

Definition l2tp_tunnel_finwait_timeout (conn : l2tp_conn_t) : l2tp_conn_t :=
  l2tp_tunnel_free (with_timers conn None (c_hello_timer conn)).

(** ** Timers *)

(** [l2tp_rtimeout]. *)
Definition l2tp_rtimeout (env : env_t) (conn : l2tp_conn_t) : l2tp_conn_t :=
  let tx := c_tx conn in
  match t_rtms_queue tx with
  | [] => conn
  | pack :: rtms =>
      let retransmit := t_retransmit tx + 1 in
      let tx := tx_timer tx retransmit (t_timer_on tx) (t_timer_period tx) in
      let conn := with_tx conn tx in
      let err conn := let tx := c_tx conn in
        l2tp_tunnel_free (with_tx conn (tx_timer tx (t_retransmit tx) false (t_timer_period tx))) in
      if c_max_retransmit conn <? retransmit then err conn
      else
        let '(conn, pack, ok) := __l2tp_tunnel_send env conn pack in
        let tx := tx_rtms tx (pack :: rtms) in
        if negb ok then err (with_tx conn tx)
        else
          let period := t_timer_period tx * 2 in
          let period := if c_rtimeout_cap conn <? period then c_rtimeout_cap conn else period in
          let conn := with_tx conn (tx_timer tx retransmit (t_timer_on tx) period) in
          if negb (e_timer_ok env) then err conn else conn
  end.

(** [hello] is the HELLO that [l2tp_packet_alloc] makes, [None] when it cannot. *)
Definition l2tp_send_HELLO (env : env_t) (conn : l2tp_conn_t) (hello : option l2tp_packet_t) : l2tp_conn_t :=
  match hello with
  | None => l2tp_tunnel_free conn
  | Some pack =>
      let conn := fst (l2tp_tunnel_send conn pack) in
      let '(conn, res) := l2tp_tunnel_push_sendqueue env conn in
      if res <? 0 then l2tp_tunnel_free conn else conn
  end.

Definition l2tp_tunnel_timeout (env : env_t) (conn : l2tp_conn_t) (stop : option l2tp_packet_t) : l2tp_conn_t :=
  fst (l2tp_tunnel_disconnect_push env (with_timers conn None (c_hello_timer conn)) stop).

(** ** Reception *)

(** [l2tp_tunnel_store_msg]: the tunnel, [need_ack], and whether the packet was
    stored. *)
Definition l2tp_tunnel_store_msg (conn : l2tp_conn_t) (pack : l2tp_packet_t) (need_ack : bool)
  : l2tp_conn_t * bool * bool :=
  let tx := c_tx conn in
  let rx := c_rx conn in
  if nsnr_cmp (t_Ns tx) (pack_Nr pack) <? 0 then (conn, need_ack, false)
  else
    let tx := if 0 <? nsnr_cmp (pack_Nr pack) (t_peer_Nr tx)
              then tx_peer tx (pack_Nr pack) (t_peer_rcv_wnd_sz tx) else tx in
    let conn := with_tx conn tx in
    if l2tp_packet_is_ZLB pack then (conn, need_ack, false)
    else
      if nsnr_cmp (pack_Ns pack) (r_Nr rx) <? 0 then (conn, true, false)
      else
        let indx := u16 (pack_Ns pack - r_Nr rx) in
        if r_queue_sz rx <=? indx then (conn, true, false)
        else
          let indx := u16 ((indx + r_queue_offt rx) mod r_queue_sz rx) in
          match r_queue rx !! Z.to_nat indx with
          | Some None =>
              (with_rx conn (mk_rx (r_Nr rx) (<[Z.to_nat indx := Some pack]> (r_queue rx))
                               (r_queue_sz rx) (r_queue_offt rx)), true, true)
          | _ => (conn, true, false)
          end.

(** The calls by which the message handlers act on the transport
    ([ActEstablished]: the end of l2tp_tunnel_connect, in the two states its
    callers require). *)
Inductive action : Type :=
| ActSend (pack : l2tp_packet_t)
| ActSessSend (sess : l2tp_sess_t) (pack : l2tp_packet_t)
| ActClearSess (sid : Z)
| ActPush
| ActDisconnect (stop : option l2tp_packet_t)
| ActFinWait
| ActFree
| ActEstablished
| ActPeer (tid : Z)
| ActWindow (size : Z)
| ActSessions (ss : list l2tp_sess_t).

(** The Receive Window Size of an SCCRP: taken when it is in range. *)
Definition recv_window_size (conn : l2tp_conn_t) (size : Z) (stop : option l2tp_packet_t)
  : l2tp_conn_t * bool :=
  let tx := c_tx conn in
  if (size =? 0) || (RECV_WINDOW_SIZE_MAX <? size) then
    (fst (l2tp_tunnel_disconnect
            (with_tx conn (tx_peer tx (t_peer_Nr tx) DEFAULT_PEER_RECV_WINDOW_SIZE)) stop), false)
  else (with_tx conn (tx_peer tx (t_peer_Nr tx) size), true).

Definition run_action (env : env_t) (conn : l2tp_conn_t) (a : action) : l2tp_conn_t :=
  match a with
  | ActSend pack => fst (l2tp_tunnel_send conn pack)
  | ActSessSend sess pack => fst (l2tp_session_send conn sess pack)
  | ActClearSess sid => with_tx conn (l2tp_session_clear_sendqueue sid (c_tx conn))
  | ActPush => fst (l2tp_tunnel_push_sendqueue env conn)
  | ActDisconnect stop => fst (l2tp_tunnel_disconnect conn stop)
  | ActFinWait => l2tp_tunnel_finwait env conn
  | ActFree => l2tp_tunnel_free conn
  | ActEstablished =>
      match c_state conn with
      | STATE_WAIT_SCCRP | STATE_WAIT_SCCCN => with_state conn STATE_ESTB
      | _ => conn
      end
  | ActPeer tid => with_peer conn tid (c_port_set conn)
  | ActWindow size => fst (recv_window_size conn size None)
  | ActSessions ss => with_sessions conn ss
  end.

Definition l2tp_tunnel_get_session (conn : l2tp_conn_t) (sid : Z) : option l2tp_sess_t :=
  list_find (fun s => s_sid s = sid) (c_sessions conn) ≫= fun x => Some (snd x).

Section Reception.
Variable env : env_t.

(** What the handlers of a message do, given the tunnel, the session of the
    message, if any, the message, its type and the M bit of the type. *)
Variable dispatch : l2tp_conn_t -> option l2tp_sess_t -> l2tp_packet_t -> Z -> bool -> list action.

(** The body of the loop for the packet taken out of the queue. *)
Definition process (conn : l2tp_conn_t) (pack : l2tp_packet_t) : l2tp_conn_t :=
  match c_state conn with
  | STATE_FIN | STATE_FIN_WAIT => conn
  | _ =>
      match p_attrs pack with
      | [] => conn
      | msg_attr :: _ =>
          if negb (da_id (a_attr msg_attr) =? Message_Type) then conn
          else
            let msg_type := match a_val msg_attr with VInt v => u16 v | _ => 0 end in
            let msg_sid := h_sid (p_hdr pack) in
            if negb (msg_sid =? 0) then
              match l2tp_tunnel_get_session conn msg_sid with
              | None => conn
              | Some sess => foldl (run_action env) conn (dispatch conn (Some sess) pack msg_type (a_M msg_attr))
              end
            else foldl (run_action env) conn (dispatch conn None pack msg_type (a_M msg_attr))
      end
  end.

(** The do/while loop of [l2tp_tunnel_reply]: the tunnel, [pkt_count] and the
    packets taken out of the queue; [None] is out of [fuel]. *)
Fixpoint reply_loop (fuel : nat) (conn : l2tp_conn_t) (id pkt_count : Z) (taken : list l2tp_packet_t)
  : option (l2tp_conn_t * Z * list l2tp_packet_t) :=
  match fuel with
  | O => None
  | S fuel' =>
      let rx := c_rx conn in
      match r_queue rx !! Z.to_nat id with
      | Some (Some pack) =>
          if bool_decide (c_state conn = STATE_CLOSE) then Some (conn, pkt_count, taken)
          else
            let rx := mk_rx (u16 (r_Nr rx + 1)) (<[Z.to_nat id := None]> (r_queue rx)) (r_queue_sz rx)
                        (r_queue_offt rx) in
            let id := u16 ((id + 1) mod r_queue_sz rx) in
            let conn := process (with_rx conn rx) pack in
            if negb (id =? r_queue_offt (c_rx conn))
            then reply_loop fuel' conn id (pkt_count + 1) (taken ++ [pack])
            else Some (conn, pkt_count + 1, taken ++ [pack])
      | _ => Some (conn, pkt_count, taken)
      end
  end.

(** Enough rounds: the loop meets its starting point or an empty slot. *)
Definition reply_fuel (conn : l2tp_conn_t) : nat := S (Z.to_nat (r_queue_sz (c_rx conn))).

Definition l2tp_tunnel_reply (conn : l2tp_conn_t) (need_ack : bool)
  : option (l2tp_conn_t * bool * list l2tp_packet_t) :=
  match reply_loop (reply_fuel conn) conn (r_queue_offt (c_rx conn)) 0 [] with
  | None => None
  | Some (conn, pkt_count, taken) =>
      let rx := c_rx conn in
      let conn := with_rx conn (mk_rx (r_Nr rx) (r_queue rx) (r_queue_sz rx)
                    (u16 ((r_queue_offt rx + pkt_count) mod r_queue_sz rx))) in
      let '(conn, res) := l2tp_tunnel_push_sendqueue env conn in
      if (res =? 0) && need_ack then
        let '(conn, ok) := l2tp_send_ZLB env conn in Some (conn, ok, taken)
      else Some (conn, 0 <=? res, taken)
  end.

(** One turn of the loop of [l2tp_conn_read]: [None] is the [l2tp_recv] that
    gives no packet, and [false] the jump to err_tunfree. *)
Definition read_packet (dir300_quirk : bool) (conn : l2tp_conn_t) (need_ack : bool) (pack : option l2tp_packet_t)
  : l2tp_conn_t * bool * bool :=
  match pack with
  | None => (conn, need_ack, true)
  | Some pack =>
      if negb (c_port_set conn) && negb (e_port_ok env) then (conn, need_ack, false)
      else
        let conn := with_peer conn (c_peer_tid conn) true in
        let tid := h_tid (p_hdr pack) in
        if negb (tid =? c_tid conn) && (negb (tid =? 0) || negb dir300_quirk) then (conn, need_ack, true)
        else let '(conn, need_ack, _) := l2tp_tunnel_store_msg conn pack need_ack in (conn, need_ack, true)
  end.

Fixpoint read_packets (dir300_quirk : bool) (conn : l2tp_conn_t) (need_ack : bool)
    (packs : list (option l2tp_packet_t)) : l2tp_conn_t * bool * bool :=
  match packs with
  | [] => (conn, need_ack, true)
  | p :: packs' =>
      let '(conn, need_ack, ok) := read_packet dir300_quirk conn need_ack p in
      if negb ok then (conn, need_ack, false) else read_packets dir300_quirk conn need_ack packs'
  end.

(** [l2tp_conn_read] with the packets that [l2tp_recv] returns before it has no
    more, and whether it then says that the peer is unreachable.  Besides the
    tunnel: the packets taken out of the reception queue. *)
Definition l2tp_conn_read (dir300_quirk : bool) (conn : l2tp_conn_t) (packs : list (option l2tp_packet_t))
    (unreachable : bool) : option (l2tp_conn_t * list l2tp_packet_t) :=
  let '(conn, need_ack, ok) := read_packets dir300_quirk conn false packs in
  if negb ok || unreachable then Some (l2tp_tunnel_free conn, [])
  else
    let '(conn, ok) := l2tp_tunnel_clean_rtmsqueue env conn in
    if negb ok then Some (l2tp_tunnel_free conn, [])
    else
      match l2tp_tunnel_reply conn need_ack with
      | None => None
      | Some (conn, ok, taken) =>
          if negb ok then Some (l2tp_tunnel_free conn, taken)
          else if bool_decide (c_state conn = STATE_FIN) && bool_decide (length (t_send_queue (c_tx conn)) = 0%nat)
                  && bool_decide (length (t_rtms_queue (c_tx conn)) = 0%nat)
          then Some (l2tp_tunnel_free conn, taken)
          else Some (conn, taken)
      end.
End Reception.

(** ** Vocabulary of the theorems *)

(** The reception queue from the next expected message on. *)
Definition window (rx : l2tp_rx_t) : list (option l2tp_packet_t) :=
  drop (Z.to_nat (r_queue_offt rx)) (r_queue rx) ++ take (Z.to_nat (r_queue_offt rx)) (r_queue rx).

Record rx_inv (rx : l2tp_rx_t) : Prop := {
  ri_sz : 1 <= r_queue_sz rx <= 32768;
  ri_len : Z.of_nat (length (r_queue rx)) = r_queue_sz rx;
  ri_offt : 0 <= r_queue_offt rx < r_queue_sz rx;
  ri_Nr : 0 <= r_Nr rx < 65536;
  ri_Ns : forall i p, window rx !! i = Some (Some p) -> pack_Ns p = u16 (r_Nr rx + Z.of_nat i)
}.

(** The messages sent and not known to be received. *)
Definition outstanding (tx : l2tp_tx_t) : Z := u16 (t_Ns tx - t_peer_Nr tx).

(** The retransmission queue holds the last messages sent, in order. *)
Definition last_sent (Ns : Z) (rtms : list l2tp_packet_t) : Prop :=
  forall i p, rtms !! i = Some p -> pack_Ns p = u16 (Ns - Z.of_nat (length rtms) + Z.of_nat i).

Record tx_inv (tx : l2tp_tx_t) : Prop := {
  ti_Ns : 0 <= t_Ns tx < 65536;
  ti_peer_Nr : 0 <= t_peer_Nr tx < 65536;
  ti_wnd : 1 <= t_peer_rcv_wnd_sz tx <= 32767;
  ti_len : t_send_queue_len tx = u32 (Z.of_nat (length (t_send_queue tx)));
  ti_rtms : last_sent (t_Ns tx) (t_rtms_queue tx);
  ti_rtms_len : Z.of_nat (length (t_rtms_queue tx)) <= 32767;
  ti_out : outstanding tx <= 32768
}.

(** Slot [i] of the window in the ring. *)
Definition slot (rx : l2tp_rx_t) (i : nat) : nat := Z.to_nat ((Z.of_nat i + r_queue_offt rx) mod r_queue_sz rx).

(** Where a packet belongs in the window. *)
Definition position (rx : l2tp_rx_t) (pack : l2tp_packet_t) : nat := Z.to_nat (u16 (pack_Ns pack - r_Nr rx)).

(** The acknowledgement part of [l2tp_tunnel_store_msg]. *)
Definition ack_tx (tx : l2tp_tx_t) (pack : l2tp_packet_t) : l2tp_tx_t :=
  if nsnr_cmp (t_Ns tx) (pack_Nr pack) <? 0 then tx
  else if 0 <? nsnr_cmp (pack_Nr pack) (t_peer_Nr tx)
  then tx_peer tx (pack_Nr pack) (t_peer_rcv_wnd_sz tx) else tx.

(** The packet has a new place in the window. *)
Definition storable (conn : l2tp_conn_t) (pack : l2tp_packet_t) : bool :=
  negb (nsnr_cmp (t_Ns (c_tx conn)) (pack_Nr pack) <? 0) && negb (l2tp_packet_is_ZLB pack) &&
  match window (c_rx conn) !! position (c_rx conn) pack with Some None => true | _ => false end.

(** They leave it alone, or they close the tunnel and empty it; a closed tunnel
    stays as it is. *)
Definition rx_frame (conn conn' : l2tp_conn_t) : Prop :=
  (c_state conn = STATE_CLOSE -> c_state conn' = STATE_CLOSE /\ c_rx conn' = c_rx conn) /\
  (c_rx conn' = c_rx conn \/
   c_state conn' = STATE_CLOSE /\ c_rx conn' = l2tp_tunnel_clear_recvqueue (c_rx conn)).

(** ** Taking messages out of the reception queue *)
Definition rx_at (rx : l2tp_rx_t) (offt : Z) : l2tp_rx_t := mk_rx (r_Nr rx) (r_queue rx) (r_queue_sz rx) offt.

(** [rx] after the message in front was taken. *)
Definition rx_next (rx : l2tp_rx_t) : l2tp_rx_t :=
  mk_rx (u16 (r_Nr rx + 1)) (<[Z.to_nat (r_queue_offt rx) := None]> (r_queue rx)) (r_queue_sz rx)
    (u16 ((r_queue_offt rx + 1) mod r_queue_sz rx)).

(** What a run of the loop with [n] messages taken so far, at slot [id], gives:
    the messages [ps] in front of the window, and the queue behind them. *)
Record reply_result (conn : l2tp_conn_t) (W : list (option l2tp_packet_t)) (n : Z) (conn' : l2tp_conn_t)
    (ps : list l2tp_packet_t) : Prop := {
  rr_taken : Some <$> ps = take (length ps) W;
  rr_Nr : r_Nr (c_rx conn') = u16 (r_Nr (c_rx conn) + Z.of_nat (length ps));
  rr_sz : r_queue_sz (c_rx conn') = r_queue_sz (c_rx conn);
  rr_inv : rx_inv (rx_at (c_rx conn')
             (u16 ((r_queue_offt (c_rx conn') + (n + Z.of_nat (length ps))) mod r_queue_sz (c_rx conn'))));
  rr_window :
    let W' := window (rx_at (c_rx conn')
      (u16 ((r_queue_offt (c_rx conn') + (n + Z.of_nat (length ps))) mod r_queue_sz (c_rx conn')))) in
    W' = drop (length ps) W ++ replicate (length ps) None \/
    c_state conn' = STATE_CLOSE /\ forall i p, W' !! i <> Some (Some p);
  rr_all : c_state conn' <> STATE_CLOSE -> forall p, W !! length ps <> Some (Some p)
}.

(** [taken] left the front of the window of [rx]. *)
Record delivers (rx : l2tp_rx_t) (conn' : l2tp_conn_t) (taken : list l2tp_packet_t) : Prop := {
  dl_inv : rx_inv (c_rx conn');
  dl_Nr : r_Nr (c_rx conn') = u16 (r_Nr rx + Z.of_nat (length taken));
  dl_sz : r_queue_sz (c_rx conn') = r_queue_sz rx;
  dl_taken : Some <$> taken = take (length taken) (window rx);
  dl_window : window (c_rx conn') = drop (length taken) (window rx) ++ replicate (length taken) None \/
    c_state conn' = STATE_CLOSE /\ forall i p, window (c_rx conn') !! i <> Some (Some p);
  dl_all : c_state conn' <> STATE_CLOSE -> forall p, window rx !! length taken <> Some (Some p)
}.

(** What happens to a tunnel: packets arrive, a timer expires, another part of
    the program makes one of the calls. *)
Inductive event : Type :=
| EvRead (env : env_t)
    (dispatch : l2tp_conn_t -> option l2tp_sess_t -> l2tp_packet_t -> Z -> bool -> list action)
    (dir300_quirk : bool) (packs : list (option l2tp_packet_t)) (unreachable : bool)
| EvRtimeout (env : env_t)
| EvHello (env : env_t) (hello : option l2tp_packet_t)
| EvTimeout (env : env_t) (stop : option l2tp_packet_t)
| EvFinwaitTimeout
| EvCall (env : env_t) (a : action).

(** The tunnel afterwards and the messages taken from the reception queue. *)
Definition step (conn : l2tp_conn_t) (ev : event) : option (l2tp_conn_t * list l2tp_packet_t) :=
  match ev with
  | EvRead env dispatch quirk packs unreachable => l2tp_conn_read env dispatch quirk conn packs unreachable
  | EvRtimeout env => Some (l2tp_rtimeout env conn, [])
  | EvHello env hello => Some (l2tp_send_HELLO env conn hello, [])
  | EvTimeout env stop => Some (l2tp_tunnel_timeout env conn stop, [])
  | EvFinwaitTimeout => Some (l2tp_tunnel_finwait_timeout conn, [])
  | EvCall env a => Some (run_action env conn a, [])
  end.

Fixpoint run (conn : l2tp_conn_t) (evs : list event) : option (l2tp_conn_t * list l2tp_packet_t) :=
  match evs with
  | [] => Some (conn, [])
  | ev :: evs' =>
      '(conn, taken) ← step conn ev;
      '(conn, taken') ← run conn evs';
      Some (conn, taken ++ taken')
  end.

(** The message in a packet. *)
Definition message (p : l2tp_packet_t) : Z * list l2tp_attr_t := (h_sid (p_hdr p), p_attrs p).

(** A packet of the peer that is not older or newer than half of the sequence
    numbers when [R] messages were taken; a ZLB has no message. *)
Definition arrives (stream : nat -> Z * list l2tp_attr_t) (N0 : Z) (R : nat) (p : l2tp_packet_t) : Prop :=
  0 <= pack_Ns p < 65536 /\
  (l2tp_packet_is_ZLB p = false -> exists k : nat,
    message p = stream k /\ pack_Ns p = u16 (N0 + Z.of_nat k) /\ -32768 <= Z.of_nat k - Z.of_nat R < 32768).

Definition arrivals (stream : nat -> Z * list l2tp_attr_t) (N0 : Z) (R : nat) (ev : event) : Prop :=
  match ev with
  | EvRead _ _ _ packs _ => Forall (fun o => forall p, o = Some p -> arrives stream N0 R p) packs
  | _ => True
  end.

Fixpoint all_arrive (stream : nat -> Z * list l2tp_attr_t) (N0 : Z) (conn : l2tp_conn_t) (R : nat) (evs : list event) : Prop :=
  match evs with
  | [] => True
  | ev :: evs' => arrivals stream N0 R ev /\
      forall conn' taken, step conn ev = Some (conn', taken) -> all_arrive stream N0 conn' (R + length taken) evs'
  end.

(** The next message is number [R], and those in the window are in their place. *)
Definition follows (stream : nat -> Z * list l2tp_attr_t) (N0 : Z) (R : nat) (rx : l2tp_rx_t) : Prop :=
  r_Nr rx = u16 (N0 + Z.of_nat R) /\
  forall i p, window rx !! i = Some (Some p) -> message p = stream (R + i)%nat.

(** Every message in the retransmission queue is one the peer has not acknowledged. *)
Definition acked (tx : l2tp_tx_t) : Prop := Z.of_nat (length (t_rtms_queue tx)) <= outstanding tx.

(** The state after one more message was sent. *)
Definition tx_sent (tx : l2tp_tx_t) (q : list queued) (pack : l2tp_packet_t) : l2tp_tx_t :=
  mk_tx (u16 (t_Ns tx + 1)) (t_peer_Nr tx) (t_peer_rcv_wnd_sz tx) q (u32 (t_send_queue_len tx - 1))
    (t_rtms_queue tx ++ [pack]) (t_retransmit tx) (t_timer_on tx) (t_timer_period tx).

(** The messages of [q] as they are sent, numbered from [Ns] on. *)
Fixpoint numbered (Ns Nr : Z) (q : list queued) : list l2tp_packet_t :=
  match q with
  | [] => []
  | x :: q' => set_Nr (set_Ns (q_pack x) Ns) Nr :: numbered (u16 (Ns + 1)) Nr q'
  end.

Definition all_sent (env : env_t) : Prop := forall p, e_send_ok env p = true.

(** The states of a tunnel, not of a session. *)
Definition tunnel_state_ok (st : tunnel_state) : bool :=
  match st with STATE_WAIT_ICRP | STATE_WAIT_ICCN | STATE_WAIT_OCRP | STATE_WAIT_OCCN => false | _ => true end.

(** While packets are read, acknowledged messages may still be queued. *)
Record reading (b : bool) (conn : l2tp_conn_t) : Prop := {
  rd_tx : tx_inv (c_tx conn);
  rd_state : tunnel_state_ok (c_state conn) = true;
  rd_closed : c_state conn = STATE_CLOSE -> t_rtms_queue (c_tx conn) = [] /\ t_send_queue (c_tx conn) = [];
  rd_timer : b = true -> t_rtms_queue (c_tx conn) <> [] -> t_timer_on (c_tx conn) = true
}.

(** [b] says that no send and no timer has failed so far: then the timer runs
    whenever a message waits for its acknowledgement. *)
Definition conn_ok (b : bool) (conn : l2tp_conn_t) : Prop := reading b conn /\ acked (c_tx conn).

Definition env_good (b : bool) (env : env_t) : Prop := b = true -> all_sent env /\ e_timer_ok env = true.

(** The window size the arithmetic of the sequence numbers cannot handle. *)
Definition action_ok (a : action) : Prop := match a with ActWindow size => 0 <= size <= 32767 | _ => True end.

Definition dispatch_ok (dispatch : l2tp_conn_t -> option l2tp_sess_t -> l2tp_packet_t -> Z -> bool -> list action) : Prop :=
  forall conn s p t m, Forall action_ok (dispatch conn s p t m).

Definition wire_ok (o : option l2tp_packet_t) : Prop :=
  forall p, o = Some p -> 0 <= pack_Ns p < 65536 /\ 0 <= pack_Nr p < 65536.

(** The conditions on an event: packets as they come from the wire, no window of
    32768 messages, and, when [b] holds, an environment in which nothing fails. *)
Definition event_ok (b : bool) (ev : event) : Prop :=
  match ev with
  | EvRead env dispatch _ packs _ => env_good b env /\ dispatch_ok dispatch /\ Forall wire_ok packs
  | EvRtimeout _ | EvFinwaitTimeout => True
  | EvHello env _ | EvTimeout env _ => env_good b env
  | EvCall env a => env_good b env /\ action_ok a
  end.

(** ** Retransmission *)
Fixpoint timeouts (env : env_t) (n : nat) (conn : l2tp_conn_t) : l2tp_conn_t :=
  match n with O => conn | S n' => timeouts env n' (l2tp_rtimeout env conn) end.

(** The time [n] timeouts in a row take. *)
Fixpoint elapsed (env : env_t) (n : nat) (conn : l2tp_conn_t) : Z :=
  match n with
  | O => 0
  | S n' => t_timer_period (c_tx conn) + elapsed env n' (l2tp_rtimeout env conn)
  end.

Definition next_period (cap period : Z) : Z := if cap <? period * 2 then cap else period * 2.

(** ** Example data for the witnesses *)
Definition some_env : env_t := mk_env (fun _ => true) true true true.

Definition no_handler (_ : l2tp_conn_t) (_ : option l2tp_sess_t) (_ : l2tp_packet_t) (_ : Z) (_ : bool) : list action := [].

Definition some_msg (k : Z) : l2tp_attr_t := mk_attr (mk_da Message_Type ATTR_TYPE_INT16 1 0) true false 2 (VInt k).

Definition some_stream (k : nat) : Z * list l2tp_attr_t := (0, [some_msg (Z.of_nat k)]).

(** The peer's packet number [k], of messages numbered from 65535 on. *)
Definition peer_pack (k : nat) (Nr : Z) : l2tp_packet_t :=
  mk_packet (mk_hdr 51202 20 1 0 (u16 (65535 + Z.of_nat k)) Nr) [some_msg (Z.of_nat k)] None None false.

Definition own_pack (Ns : Z) : l2tp_packet_t := mk_packet (mk_hdr 51202 0 7 0 Ns 0) [some_msg 6] None None false.

Definition some_conn : l2tp_conn_t :=
  mk_conn STATE_ESTB 1 7 true 1000 3000 4 None true []
    (mk_tx 1 65534 4 [mk_q (own_pack 0) None; mk_q (own_pack 0) (Some 3)] 2
       [own_pack 65534; own_pack 65535; own_pack 0] 0 true 1000)
    (mk_rx 65535 [None; None; None; None] 4 2) [].

Definition some_reads : list event :=
  [EvRead some_env no_handler false [Some (peer_pack 1 65534); None; Some (peer_pack 0 65535)] false;
   EvRtimeout some_env;
   EvRead some_env no_handler false [Some (peer_pack 0 65535); Some (peer_pack 2 1)] false].

Definition idle_conn : l2tp_conn_t :=
  with_tx some_conn (mk_tx 1 1 4 [] 0 [] 0 false 1000).

(** ** Sequence numbers *)
Lemma u16_minus_0 x : 0 <= x < 65536 -> u16 x = x.
Proof. intros. unfold u16. now apply Z.mod_small. Qed.

Lemma nsnr_cmp_diff ns nr d :
  -32767 <= d <= 32768 -> u16 (ns - nr) = u16 d -> nsnr_cmp ns nr = Z.sgn d.
Proof.
  intros Hd E. unfold nsnr_cmp. rewrite E. change (u16 (-32767)) with 32769.
  destruct (Z.lt_trichotomy d 0) as [H|[->|H]]; [| done |].
  - assert (u16 d = d + 65536) as -> by (unfold u16; rewrite <- (Z.mod_add d 1), Z.mod_small by lia; lia).
    rewrite Z.sgn_neg by done. rewrite (proj2 (Z.ltb_ge _ _)), andb_false_r, (proj2 (Z.leb_le _ _)) by lia. done.
  - rewrite (u16_minus_0 d) by lia. rewrite Z.sgn_pos by done.
    rewrite (proj2 (Z.eqb_neq _ _)), (proj2 (Z.ltb_lt _ _)), (proj2 (Z.leb_gt _ _)) by lia. done.
Qed.

(** The two cases the code distinguishes. *)
Lemma nsnr_cmp_neg ns nr : nsnr_cmp ns nr < 0 <-> 32769 <= u16 (ns - nr).
Proof.
  unfold nsnr_cmp. change (u16 (-32767)) with 32769. pose proof (u16_range (ns - nr)).
  destruct (Z.eqb_spec (u16 (ns - nr)) 0), (Z.ltb_spec (u16 (ns - nr)) 32769), (Z.leb_spec 32769 (u16 (ns - nr)));
    cbn; lia.
Qed.

Lemma nsnr_cmp_pos ns nr : 0 < nsnr_cmp ns nr <-> 1 <= u16 (ns - nr) <= 32768.
Proof.
  unfold nsnr_cmp. change (u16 (-32767)) with 32769. pose proof (u16_range (ns - nr)).
  destruct (Z.eqb_spec (u16 (ns - nr)) 0), (Z.ltb_spec (u16 (ns - nr)) 32769), (Z.leb_spec 32769 (u16 (ns - nr)));
    cbn; lia.
Qed.

(** Sums and differences of wrapped numbers, for [lia]. *)
Lemma u16_split x : exists k, u16 x = x + 65536 * k /\ 0 <= u16 x < 65536.
Proof.
  exists (- (x / 65536)). pose proof (u16_range x). split; [|done]. unfold u16.
  change (2 ^ 16) with 65536. pose proof (Z.div_mod x 65536 ltac:(lia)). lia.
Qed.

Ltac wrap16 :=
  repeat match goal with
  | H : context [u16 ?x] |- _ =>
      lazymatch goal with
      | _ : u16 x = _ |- _ => fail
      | _ => let k := fresh "k" in let E := fresh "E" in destruct (u16_split x) as (k & E & ?); rewrite E in *
      end
  | |- context [u16 ?x] =>
      let k := fresh "k" in let E := fresh "E" in destruct (u16_split x) as (k & E & ?); rewrite E in *
  end; try lia.

(** ** The reception queue as a window *)
Lemma window_length rx : rx_inv rx -> length (window rx) = length (r_queue rx).
Proof. intros [? L O _ _]. unfold window. rewrite length_app, length_drop, length_take. lia. Qed.

Lemma slot_lt rx i : rx_inv rx -> (slot rx i < length (r_queue rx))%nat.
Proof.
  intros [S L O _ _]. unfold slot. pose proof (Z.mod_pos_bound (Z.of_nat i + r_queue_offt rx) (r_queue_sz rx)). lia.
Qed.

Lemma slot_cases rx i :
  rx_inv rx -> (i < length (r_queue rx))%nat ->
  (slot rx i = i + Z.to_nat (r_queue_offt rx) /\ i < length (r_queue rx) - Z.to_nat (r_queue_offt rx))%nat \/
  (slot rx i = i - (length (r_queue rx) - Z.to_nat (r_queue_offt rx)) /\
   length (r_queue rx) - Z.to_nat (r_queue_offt rx) <= i)%nat.
Proof.
  intros [S L O _ _] Hi. unfold slot.
  destruct (Z.lt_ge_cases (Z.of_nat i + r_queue_offt rx) (r_queue_sz rx)) as [H|H].
  - left. rewrite Z.mod_small by lia. lia.
  - right. rewrite <- (Z.mod_add _ (-1)), Z.mod_small by lia. lia.
Qed.

Lemma window_lookup rx i :
  rx_inv rx -> (i < length (r_queue rx))%nat -> window rx !! i = r_queue rx !! slot rx i.
Proof.
  intros I Hi. destruct (slot_cases rx i I Hi) as [[-> H]|[-> H]]; unfold window.
  - rewrite lookup_app_l, lookup_drop by (rewrite length_drop; lia). f_equal. lia.
  - rewrite lookup_app_r by (rewrite length_drop; lia). rewrite length_drop, lookup_take_lt; [done|].
    destruct I. lia.
Qed.

Lemma slot_inj rx i j :
  rx_inv rx -> (i < length (r_queue rx))%nat -> (j < length (r_queue rx))%nat -> slot rx i = slot rx j -> i = j.
Proof.
  intros I Hi Hj E. pose proof (ri_len _ I). pose proof (ri_offt _ I).
  destruct (slot_cases rx i I Hi) as [[E1 ?]|[E1 ?]], (slot_cases rx j I Hj) as [[E2 ?]|[E2 ?]]; lia.
Qed.

(** Changing a slot of the ring changes that slot of the window. *)
Lemma window_insert rx i x :
  rx_inv rx -> (i < length (r_queue rx))%nat ->
  window (mk_rx (r_Nr rx) (<[slot rx i := x]> (r_queue rx)) (r_queue_sz rx) (r_queue_offt rx))
  = <[i := x]> (window rx).
Proof.
  intros I Hi. unfold window. cbn. destruct (slot_cases rx i I Hi) as [[-> H]|[-> H]].
  - rewrite take_insert_ge, drop_insert_ge by lia.
    replace (i + Z.to_nat (r_queue_offt rx) - Z.to_nat (r_queue_offt rx))%nat with i by lia.
    rewrite insert_app_l; [done|]. rewrite length_drop. lia.
  - pose proof (ri_offt _ I). pose proof (ri_len _ I).
    rewrite drop_insert_lt, take_insert_lt by lia.
    rewrite insert_app_r_alt by (rewrite length_drop; lia). rewrite length_drop. done.
Qed.

Lemma conn_eta_tx conn : with_tx conn (c_tx conn) = conn.
Proof. now destruct conn. Qed.
Lemma conn_eta_rx conn : with_rx conn (c_rx conn) = conn.
Proof. now destruct conn. Qed.

Lemma rx_inv_store rx pack i :
  rx_inv rx -> i = position rx pack -> 0 <= pack_Ns pack < 65536 -> window rx !! i = Some None ->
  rx_inv (mk_rx (r_Nr rx) (<[slot rx i := Some pack]> (r_queue rx)) (r_queue_sz rx) (r_queue_offt rx)).
Proof.
  intros I -> Hp W. pose proof (lookup_lt_Some _ _ _ W) as Hi. rewrite window_length in Hi by done.
  pose proof I as [S L O N E]. split; cbn; auto.
  - now rewrite length_insert.
  - intros j p. rewrite window_insert by done.
    destruct (decide (j = position rx pack)) as [->|Hj].
    + rewrite list_lookup_insert_eq by (now rewrite window_length). intros [= <-].
      unfold position. rewrite Z2Nat.id by apply u16_range.
      rewrite <- (u16_minus_0 (pack_Ns pack) Hp) at 1.
      unfold u16. rewrite Zplus_mod_idemp_r. f_equal. lia.
    + rewrite list_lookup_insert_ne by done. apply E.
Qed.

Lemma store_msg_spec conn pack need_ack :
  rx_inv (c_rx conn) -> 0 <= pack_Ns pack < 65536 ->
  let i := position (c_rx conn) pack in
  let rx' := mk_rx (r_Nr (c_rx conn)) (<[slot (c_rx conn) i := Some pack]> (r_queue (c_rx conn)))
               (r_queue_sz (c_rx conn)) (r_queue_offt (c_rx conn)) in
  exists need, l2tp_tunnel_store_msg conn pack need_ack =
    (with_rx (with_tx conn (ack_tx (c_tx conn) pack)) (if storable conn pack then rx' else c_rx conn),
     need, storable conn pack).
Proof.
  intros I Hp i rx'. unfold l2tp_tunnel_store_msg, ack_tx, storable. fold i.
  assert (forall tx, with_rx (with_tx conn tx) (c_rx conn) = with_tx conn tx) as Erx by done.
  destruct (nsnr_cmp (t_Ns (c_tx conn)) (pack_Nr pack) <? 0); cbn [negb andb].
  { eexists. rewrite Erx, conn_eta_tx. reflexivity. }
  set (tx := if 0 <? _ then _ else _).
  destruct (l2tp_packet_is_ZLB pack); cbn [negb andb]; [eexists; rewrite Erx; reflexivity|].
  set (d := u16 (pack_Ns pack - r_Nr (c_rx conn))) in *. pose proof (u16_range (pack_Ns pack - r_Nr (c_rx conn))) as Hd.
  pose proof I as [S L O N _].
  destruct (r_queue_sz (c_rx conn) <=? d) eqn:Ed; zbool.
  { assert (window (c_rx conn) !! i = None) as ->.
    { apply lookup_ge_None. rewrite window_length by done. unfold i, position. fold d. lia. }
    exists true. destruct (nsnr_cmp _ _ <? 0); rewrite Erx; done. }
  destruct (nsnr_cmp (pack_Ns pack) (r_Nr (c_rx conn)) <? 0) eqn:En; zbool.
  { apply nsnr_cmp_neg in En. fold d in En. lia. }
  assert (i < length (r_queue (c_rx conn)))%nat as Hi by (unfold i, position; fold d; lia).
  assert (Z.to_nat (u16 ((d + r_queue_offt (c_rx conn)) mod r_queue_sz (c_rx conn))) = slot (c_rx conn) i) as ->.
  { unfold slot, i, position. fold d. rewrite Z2Nat.id by lia. f_equal. apply u16_minus_0.
    pose proof (Z.mod_pos_bound (d + r_queue_offt (c_rx conn)) (r_queue_sz (c_rx conn))). lia. }
  rewrite (window_lookup _ i I Hi).
  destruct (r_queue (c_rx conn) !! slot (c_rx conn) i) as [[p|]|] eqn:Eq.
  - exists true. now rewrite Erx.
  - exists true. done.
  - apply lookup_ge_None in Eq. pose proof (slot_lt (c_rx conn) i I). lia.
Qed.

(** ** What the other operations do to the receiving side *)

Lemma frame_same conn conn' : c_state conn' = c_state conn -> c_rx conn' = c_rx conn -> rx_frame conn conn'.
Proof. intros E1 E2. split; [now rewrite E1, E2 | now left]. Qed.

Lemma frame_trans c1 c2 c3 : rx_frame c1 c2 -> rx_frame c2 c3 -> rx_frame c1 c3.
Proof.
  intros [F1 H1] [F2 H2]. split.
  - intros E. destruct (F1 E) as [E1 R1]. destruct (F2 E1) as [E2 R2]. split; congruence.
  - destruct H1 as [E|[C E]]; [rewrite <- E; exact H2|]. destruct (F2 C) as [C' E']. right. split; congruence.
Qed.

#[export] Instance rx_frame_pre : PreOrder rx_frame.
Proof. split; [intros c; now apply frame_same | intros a b c; apply frame_trans]. Qed.

Lemma free_frame conn : rx_frame conn (l2tp_tunnel_free conn).
Proof.
  unfold l2tp_tunnel_free. destruct (c_state conn) eqn:E; try reflexivity;
    (split; [intros C; congruence | right; split; reflexivity]).
Qed.

Lemma send_frame env conn pack : rx_frame conn (fst (fst (__l2tp_tunnel_send env conn pack))).
Proof. unfold __l2tp_tunnel_send. destruct (e_send_ok _ _); now apply frame_same. Qed.

Lemma push_loop_frame env Nr_max q conn n : rx_frame conn (fst (fst (push_loop env Nr_max q conn n))).
Proof.
  revert conn n. induction q as [|p q IH]; intros conn n; cbn [push_loop]; [reflexivity|].
  destruct (0 <=? _); [reflexivity|].
  pose proof (send_frame env conn (set_Ns (q_pack p) (t_Ns (c_tx conn)))) as F.
  destruct (__l2tp_tunnel_send _ _ _) as [[c pack] ok]. cbn in F. destruct (negb ok).
  - etransitivity; [exact F | now apply frame_same].
  - etransitivity; [exact F|]. etransitivity; [|apply IH]. now apply frame_same.
Qed.

Lemma push_frame env conn : rx_frame conn (fst (l2tp_tunnel_push_sendqueue env conn)).
Proof.
  unfold l2tp_tunnel_push_sendqueue.
  pose proof (push_loop_frame env (u16 (t_peer_Nr (c_tx conn) + t_peer_rcv_wnd_sz (c_tx conn)))
                (t_send_queue (c_tx conn)) conn 0) as F.
  destruct (push_loop _ _ _ _ _) as [[c n] ok]. cbn in F. destruct (negb ok); [exact F|].
  destruct (n =? 0); [exact F|]. destruct (t_timer_on (c_tx c)); [exact F|].
  destruct (e_timer_ok env); (etransitivity; [exact F | now apply frame_same]).
Qed.

Lemma enqueue_frame sess conn pack : rx_frame conn (fst (tunnel_enqueue sess conn pack)).
Proof. unfold tunnel_enqueue. destruct (closing _); [reflexivity | now apply frame_same]. Qed.

Lemma disconnect_frame conn stop : rx_frame conn (fst (l2tp_tunnel_disconnect conn stop)).
Proof.
  unfold l2tp_tunnel_disconnect.
  assert (forall st, c_state conn <> STATE_CLOSE -> st <> STATE_CLOSE -> rx_frame conn (with_state conn st)) as St.
  { intros st N1 N2. split; [done | now left]. }
  destruct (c_state conn) eqn:E; try reflexivity.
  all: destruct stop as [p|]; cbn [fst].
  all: try (eapply frame_trans; [|apply free_frame]; split; [cbn; congruence | now left]).
  all: unfold l2tp_tunnel_send, tunnel_enqueue; cbn; rewrite E; cbn; (split; [cbn; congruence | now left]).
Qed.

Lemma zlb_frame env conn : rx_frame conn (fst (l2tp_send_ZLB env conn)).
Proof.
  unfold l2tp_send_ZLB. destruct (negb _); [reflexivity|].
  match goal with |- context [__l2tp_tunnel_send env conn ?p] => pose proof (send_frame env conn p) as F end.
  destruct (__l2tp_tunnel_send _ _ _) as [[c p] ok]. exact F.
Qed.

Lemma finwait_frame env conn : rx_frame conn (l2tp_tunnel_finwait env conn).
Proof.
  unfold l2tp_tunnel_finwait. destruct (c_state conn) eqn:E; try reflexivity.
  all: destruct (e_timer_ok env); [split; [cbn; congruence | now left]|].
  all: eapply frame_trans; [|apply free_frame]; eapply frame_trans; [|apply zlb_frame]; split; [cbn; congruence | now left].
Qed.

Lemma action_frame env conn a : rx_frame conn (run_action env conn a).
Proof.
  destruct a; cbn [run_action].
  - apply enqueue_frame.
  - unfold l2tp_session_send. destruct (s_closed sess); [reflexivity | apply enqueue_frame].
  - now apply frame_same.
  - apply push_frame.
  - apply disconnect_frame.
  - apply finwait_frame.
  - apply free_frame.
  - destruct (c_state conn) eqn:E; try reflexivity; (split; [congruence | now left]).
  - now apply frame_same.
  - unfold recv_window_size. destruct (_ || _); [|now apply frame_same].
    eapply frame_trans; [|apply disconnect_frame]. now apply frame_same.
  - now apply frame_same.
Qed.

Lemma actions_frame env conn l : rx_frame conn (foldl (run_action env) conn l).
Proof.
  revert conn. induction l as [|a l IH]; intros conn; cbn; [reflexivity|].
  etransitivity; [apply action_frame | apply IH].
Qed.

Lemma process_frame env dispatch conn pack : rx_frame conn (process env dispatch conn pack).
Proof.
  unfold process. destruct (c_state conn); try reflexivity.
  all: destruct (p_attrs pack) as [|a l]; [reflexivity|]; destruct (negb (_ =? Message_Type)); [reflexivity|].
  all: destruct (negb _); [destruct (l2tp_tunnel_get_session _ _); [|reflexivity]|]; apply actions_frame.
Qed.

Lemma rtimeout_frame env conn : rx_frame conn (l2tp_rtimeout env conn).
Proof.
  unfold l2tp_rtimeout. destruct (t_rtms_queue (c_tx conn)) as [|p l]; [reflexivity|].
  assert (forall c, rx_frame conn c -> forall tx, rx_frame conn (l2tp_tunnel_free (with_tx c tx))) as Err.
  { intros c F tx. etransitivity; [exact F|]. etransitivity; [|apply free_frame]. now apply frame_same. }
  destruct (_ <? _); [apply Err; now apply frame_same|].
  match goal with |- context [__l2tp_tunnel_send env ?c ?q] => pose proof (send_frame env c q) as F end.
  destruct (__l2tp_tunnel_send _ _ _) as [[c pack] ok]. cbn [fst] in F.
  assert (rx_frame conn c) as Fc by (etransitivity; [|exact F]; now apply frame_same).
  destruct (negb ok); [apply Err; etransitivity; [exact Fc | now apply frame_same]|].
  destruct (negb (e_timer_ok env)); [apply Err|]; (etransitivity; [exact Fc | now apply frame_same]).
Qed.

Lemma hello_frame env conn hello : rx_frame conn (l2tp_send_HELLO env conn hello).
Proof.
  unfold l2tp_send_HELLO. destruct hello as [pack|]; [|apply free_frame].
  pose proof (push_frame env (fst (l2tp_tunnel_send conn pack))) as F.
  destruct (l2tp_tunnel_push_sendqueue _ _) as [c res]. cbn [fst] in F.
  assert (rx_frame conn c) as Fc by (etransitivity; [apply enqueue_frame | exact F]).
  destruct (res <? 0); [etransitivity; [exact Fc | apply free_frame] | exact Fc].
Qed.

Lemma disconnect_push_frame env conn stop : rx_frame conn (fst (l2tp_tunnel_disconnect_push env conn stop)).
Proof.
  unfold l2tp_tunnel_disconnect_push. pose proof (disconnect_frame conn stop) as F.
  destruct (l2tp_tunnel_disconnect conn stop) as [c ok]. destruct (negb ok); [exact F|].
  pose proof (push_frame env c) as F2. destruct (l2tp_tunnel_push_sendqueue env c) as [c2 res].
  cbn [fst] in *. destruct (res <? 0); cbn [fst]; [etransitivity; [|apply free_frame]|]; etransitivity; eauto.
Qed.

Lemma clean_frame env conn : rx_frame conn (fst (l2tp_tunnel_clean_rtmsqueue env conn)).
Proof.
  unfold l2tp_tunnel_clean_rtmsqueue. destruct (drop_acked _ _ _) as [q n].
  destruct (n =? 0); [now apply frame_same|]. destruct q; [now apply frame_same|].
  destruct (e_timer_ok env); now apply frame_same.
Qed.

Lemma window_rotate Nr q sz off x w :
  Z.of_nat (length q) = sz -> 0 <= off < sz -> window (mk_rx Nr q sz off) = x :: w ->
  window (mk_rx Nr q sz ((off + 1) mod sz)) = w ++ [x].
Proof.
  intros L O W. unfold window in *. cbn [r_queue r_queue_offt] in *.
  assert (Z.to_nat off < length q)%nat as Ho by lia.
  rewrite <- (take_drop (Z.to_nat off) q) in L |- *. revert W L.
  assert (length (take (Z.to_nat off) q) = Z.to_nat off) as Lt by (rewrite length_take; lia).
  destruct (drop (Z.to_nat off) q) as [|y d] eqn:Ed.
  { apply (f_equal length) in Ed. rewrite length_drop in Ed. cbn in Ed. lia. }
  cbn [app]. intros [= -> Ew] L. subst w. set (t := take (Z.to_nat off) q) in *.
  rewrite length_app in L. cbn [length] in L.
  destruct d as [|z d].
  - replace (off + 1) with sz by (cbn in L; lia). rewrite Z.mod_same by lia. cbn [Z.to_nat drop take app]. now rewrite app_nil_r.
  - cbn [length] in L. rewrite Z.mod_small by lia.
    replace (Z.to_nat (off + 1)) with (length (t ++ [x])) by (rewrite length_app; cbn; lia).
    replace (t ++ x :: z :: d) with ((t ++ [x]) ++ z :: d) by (now rewrite <- app_assoc).
    rewrite drop_app_length, take_app_length. now rewrite app_assoc.
Qed.

Lemma rx_next_spec rx p w :
  rx_inv rx -> window rx = Some p :: w -> rx_inv (rx_next rx) /\ window (rx_next rx) = w ++ [None].
Proof.
  intros I W. pose proof I as [S L O N E].
  assert (0 < length (r_queue rx))%nat as L0 by lia.
  assert (slot rx 0 = Z.to_nat (r_queue_offt rx)) as S0 by (unfold slot; now rewrite Z.mod_small by lia).
  pose proof (window_insert rx 0 None I L0) as Wi. rewrite S0, W in Wi. cbn in Wi.
  pose proof (Z.mod_pos_bound (r_queue_offt rx + 1) (r_queue_sz rx) ltac:(lia)) as B.
  assert (window (rx_next rx) = w ++ [None]) as Wn.
  { unfold rx_next. rewrite (u16_minus_0 (_ mod _)) by lia.
    eapply window_rotate; [now rewrite length_insert | done | exact Wi]. }
  split; [|done]. split; cbn [rx_next r_queue_sz r_queue r_queue_offt r_Nr]; auto.
  - now rewrite length_insert.
  - rewrite (u16_minus_0 (_ mod _)) by lia. done.
  - apply u16_range.
  - intros i q. rewrite Wn. intros H.
    destruct (decide (i < length w)%nat) as [Hi|Hi].
    + rewrite lookup_app_l in H by done. rewrite (E (Datatypes.S i) q) by (rewrite W; exact H).
      unfold u16. rewrite Zplus_mod_idemp_l. f_equal. lia.
    + rewrite lookup_app_r in H by lia. destruct (i - length w)%nat; cbn in H; done.
Qed.

Lemma rx_cleared rx off :
  1 <= r_queue_sz rx <= 32768 -> Z.of_nat (length (r_queue rx)) = r_queue_sz rx -> 0 <= r_Nr rx < 65536 ->
  0 <= off < r_queue_sz rx -> rx_inv (rx_at (l2tp_tunnel_clear_recvqueue rx) off).
Proof.
  intros S L N O. unfold l2tp_tunnel_clear_recvqueue, rx_at. cbn.
  rewrite drop_ge, app_nil_r by lia. split; cbn; auto.
  - rewrite length_replicate. lia.
  - intros i p. unfold window. cbn. rewrite drop_replicate, take_replicate, <- replicate_add.
    intros H%lookup_replicate. now destruct H.
Qed.

Lemma window_cleared rx off :
  Z.of_nat (length (r_queue rx)) = r_queue_sz rx ->
  forall i p, window (rx_at (l2tp_tunnel_clear_recvqueue rx) off) !! i <> Some (Some p).
Proof.
  intros L i p. unfold window, l2tp_tunnel_clear_recvqueue, rx_at. cbn.
  rewrite (drop_ge (r_queue rx)), app_nil_r by lia.
  rewrite drop_replicate, take_replicate, <- replicate_add. intros H%lookup_replicate. now destruct H.
Qed.

(** The front of the window. *)
Lemma front_lookup rx : rx_inv rx -> r_queue rx !! Z.to_nat (r_queue_offt rx) = head (window rx).
Proof.
  intros I. pose proof I as [S L O _ _]. rewrite head_lookup, (window_lookup rx 0 I) by lia.
  unfold slot. now rewrite Z.mod_small by lia.
Qed.

Lemma reply_result_cons conn conn1 conn' p w n ps :
  r_Nr (c_rx conn1) = u16 (r_Nr (c_rx conn) + 1) -> r_queue_sz (c_rx conn1) = r_queue_sz (c_rx conn) ->
  reply_result conn1 (w ++ [None]) (n + 1) conn' ps -> reply_result conn (Some p :: w) n conn' (p :: ps).
Proof.
  intros En Es [T N S I O A].
  assert (length ps <= length w)%nat as Hl.
  { destruct (le_lt_dec (length ps) (length w)) as [|H]; [done|]. exfalso.
    assert ((Some <$> ps) !! length w = Some None) as E.
    { rewrite T, lookup_take_lt by done. apply list_lookup_middle. done. }
    rewrite list_lookup_fmap in E. destruct (ps !! length w); done. }
  assert (n + Z.of_nat (length (p :: ps)) = n + 1 + Z.of_nat (length ps)) as Ec by (cbn [length]; lia).
  split; [| | congruence | now rewrite Ec | |].
  - cbn. rewrite T. f_equal. now rewrite take_app_le.
  - rewrite N, En. cbn [length]. unfold u16. rewrite Zplus_mod_idemp_l. f_equal. lia.
  - rewrite Ec. destruct O as [O|O]; [left | right; exact O].
    rewrite O. cbn [length]. rewrite drop_app_le, <- app_assoc by done. done.
  - intros C q Hq. cbn in Hq. apply (A C q). rewrite lookup_app_l; [done|]. now apply lookup_lt_Some in Hq.
Qed.

Lemma reply_result_closed conn conn1 p w n rx1 :
  c_state conn1 = STATE_CLOSE -> c_rx conn1 = l2tp_tunnel_clear_recvqueue rx1 ->
  r_Nr rx1 = u16 (r_Nr (c_rx conn) + 1) -> r_queue_sz rx1 = r_queue_sz (c_rx conn) ->
  1 <= r_queue_sz rx1 <= 32768 -> Z.of_nat (length (r_queue rx1)) = r_queue_sz rx1 ->
  0 <= r_Nr rx1 < 65536 -> reply_result conn (Some p :: w) n conn1 [p].
Proof.
  intros C E En Es S L N.
  split; [done | now rewrite E | now rewrite E | | | congruence].
  - rewrite E. apply rx_cleared; auto. cbn [l2tp_tunnel_clear_recvqueue r_queue_sz].
    match goal with |- context [u16 (?x mod ?y)] => pose proof (Z.mod_pos_bound x y ltac:(lia)) end.
    rewrite u16_minus_0 by lia. done.
  - right. split; [done|]. rewrite E. apply window_cleared. done.
Qed.

Section Reply.
Variable env : env_t.
Variable dispatch : l2tp_conn_t -> option l2tp_sess_t -> l2tp_packet_t -> Z -> bool -> list action.

(** The loop after a handler closed the tunnel: nothing more is taken. *)
Lemma reply_loop_closed fuel conn id n taken :
  (0 < fuel)%nat -> r_queue (c_rx conn) !! Z.to_nat id = Some None ->
  reply_loop env dispatch fuel conn id n taken = Some (conn, n, taken).
Proof. intros H E. destruct fuel; [lia|]. cbn [reply_loop]. now rewrite E. Qed.

Lemma reply_result_stop conn n id :
  rx_inv (rx_at (c_rx conn) id) -> 0 <= r_queue_offt (c_rx conn) ->
  id = (r_queue_offt (c_rx conn) + n) mod r_queue_sz (c_rx conn) ->
  (c_state conn <> STATE_CLOSE -> forall p, window (rx_at (c_rx conn) id) !! 0%nat <> Some (Some p)) ->
  reply_result conn (window (rx_at (c_rx conn) id)) n conn [].
Proof.
  intros I O Eid H. pose proof I as [S L Oi N _]. cbn in S, L, Oi, N.
  assert (u16 ((r_queue_offt (c_rx conn) + (n + Z.of_nat (length (@nil l2tp_packet_t)))) mod
            r_queue_sz (c_rx conn)) = id) as E.
  { cbn [length Z.of_nat]. rewrite Z.add_0_r, <- Eid. apply u16_minus_0. lia. }
  split; [done | | done | now rewrite E | | done].
  - cbn. rewrite Z.add_0_r. symmetry. now apply u16_minus_0.
  - left. rewrite E. cbn. now rewrite app_nil_r.
Qed.

Lemma reply_loop_spec fuel conn id n taken :
  rx_inv (rx_at (c_rx conn) id) -> 0 <= r_queue_offt (c_rx conn) < r_queue_sz (c_rx conn) ->
  0 <= n < r_queue_sz (c_rx conn) -> id = (r_queue_offt (c_rx conn) + n) mod r_queue_sz (c_rx conn) ->
  (forall i, r_queue_sz (c_rx conn) - n <= Z.of_nat i -> forall p, window (rx_at (c_rx conn) id) !! i <> Some (Some p)) ->
  (Z.to_nat (r_queue_sz (c_rx conn) - n) < fuel)%nat ->
  exists conn' ps, reply_loop env dispatch fuel conn id n taken
    = Some (conn', n + Z.of_nat (length ps), taken ++ ps) /\
    reply_result conn (window (rx_at (c_rx conn) id)) n conn' ps.
Proof.
  revert conn id n taken. induction fuel as [|fuel IH]; intros conn id n taken I O Hn Eid Wn Hf; [lia|].
  pose proof (front_lookup _ I) as Fr. cbn [rx_at r_queue r_queue_offt] in Fr. cbn [reply_loop]. rewrite Fr.
  pose proof I as [S L Oi N _]. cbn in S, L, Oi, N.
  assert (length (window (rx_at (c_rx conn) id)) = length (r_queue (c_rx conn))) as Lw by (exact (window_length _ I)).
  destruct (window (rx_at (c_rx conn) id)) as [|[p|] w] eqn:W; cbn [head].
  { cbn in Lw. lia. }
  2: { exists conn, []. rewrite app_nil_r. cbn [length Z.of_nat]. rewrite Z.add_0_r. split; [done|].
       rewrite <- W. apply reply_result_stop; auto; [lia|]. rewrite W. done. }
  case_bool_decide as C.
  { exists conn, []. rewrite app_nil_r. cbn [length Z.of_nat]. rewrite Z.add_0_r. split; [done|].
    rewrite <- W. apply reply_result_stop; auto; lia || congruence. }
  destruct (rx_next_spec _ p w I W) as [I1 W1]. unfold rx_next in I1, W1.
  cbn [rx_at r_Nr r_queue r_queue_sz r_queue_offt] in I1, W1.
  set (rx1 := mk_rx (u16 (r_Nr (c_rx conn) + 1)) (<[Z.to_nat id:=None]> (r_queue (c_rx conn)))
                (r_queue_sz (c_rx conn)) (r_queue_offt (c_rx conn))).
  change (r_queue_sz rx1) with (r_queue_sz (c_rx conn)). set (id1 := u16 ((id + 1) mod r_queue_sz (c_rx conn))) in *.
  assert (id1 = (r_queue_offt (c_rx conn) + (n + 1)) mod r_queue_sz (c_rx conn)) as Eid1.
  { unfold id1. rewrite u16_minus_0 by (pose proof (Z.mod_pos_bound (id + 1) (r_queue_sz (c_rx conn))); lia).
    rewrite Eid, Zplus_mod_idemp_l. f_equal. lia. }
  pose proof (process_frame env dispatch (with_rx conn rx1) p) as [_ F].
  set (conn1 := process env dispatch (with_rx conn rx1) p) in *. cbn [with_rx c_rx] in F.
  destruct F as [F|[Cl F]].
  - (* the tunnel is open *)
    assert (rx_at (c_rx conn1) id1 = mk_rx (u16 (r_Nr (c_rx conn) + 1)) (<[Z.to_nat id:=None]> (r_queue (c_rx conn)))
              (r_queue_sz (c_rx conn)) id1) as Erx by (rewrite F; reflexivity).
    assert (r_queue_offt (c_rx conn1) = r_queue_offt (c_rx conn) /\ r_queue_sz (c_rx conn1) = r_queue_sz (c_rx conn) /\
            r_Nr (c_rx conn1) = u16 (r_Nr (c_rx conn) + 1)) as (Eo & Es & En) by (rewrite F; done).
    assert (reply_result conn1 (w ++ [None]) (n + 1) conn1 [] -> reply_result conn (Some p :: w) n conn1 [p]) as Cons1
      by (intros R; now apply (reply_result_cons conn conn1)).
    destruct (id1 =? r_queue_offt (c_rx conn1)) eqn:Ei; zbool; cbn [negb].
    + exists conn1, [p]. split; [done|]. apply Cons1. rewrite <- W1, <- Erx.
      apply reply_result_stop; rewrite ?Eo, ?Es, ?Erx, ?W1; auto; [lia|].
      intros _ q. assert (n + 1 = r_queue_sz (c_rx conn)) as Hlast.
      { rewrite Eo, Eid1 in Ei. destruct (Z.lt_ge_cases (r_queue_offt (c_rx conn) + (n + 1)) (r_queue_sz (c_rx conn))).
        - rewrite Z.mod_small in Ei by lia. lia.
        - rewrite <- (Z.mod_add _ (-1)), Z.mod_small in Ei by lia. lia. }
      destruct w as [|x w]; [done|]. cbn. specialize (Wn 1%nat ltac:(lia)). cbn in Wn. apply Wn.
    + destruct (IH conn1 id1 (n + 1) (taken ++ [p])) as (conn' & ps & E & R); rewrite ?Erx, ?W1, ?Es, ?Eo; auto; try lia.
      { rewrite Eo, Eid1 in Ei. destruct (Z.eq_dec (n + 1) (r_queue_sz (c_rx conn))) as [E|]; [|lia].
        rewrite E in Ei. exfalso. apply Ei. rewrite <- (Z.mod_add _ (-1)), Z.mod_small by lia. lia. }
      { intros i Hi q Hq. destruct (decide (i < length w)%nat).
        - rewrite lookup_app_l in Hq by done. apply (Wn (Datatypes.S i) ltac:(lia) q). exact Hq.
        - rewrite lookup_app_r in Hq by lia. destruct (i - length w)%nat; cbn in Hq; done. }
      exists conn', (p :: ps). rewrite E. split.
      * f_equal. rewrite <- app_assoc. cbn [app length]. f_equal. f_equal. lia.
      * apply (reply_result_cons conn conn1); auto. rewrite <- W1, <- Erx. exact R.
  - (* a handler has closed it *)
    exists conn1, [p]. split.
    + destruct (negb (id1 =? _)); [|done].
      apply reply_loop_closed; [lia|]. rewrite F. unfold l2tp_tunnel_clear_recvqueue. cbn [r_queue rx1 r_queue_sz].
      rewrite lookup_app_l by (rewrite length_replicate; pose proof (ri_offt _ I1); cbn in *; lia).
      apply lookup_replicate. split; [done|]. pose proof (ri_offt _ I1). cbn in *. lia.
    + apply (reply_result_closed conn conn1 p w n rx1); auto; cbn; try lia; [rewrite length_insert; lia | apply u16_range].
Qed.
End Reply.

Lemma frame_inv conn conn' :
  rx_frame conn conn' -> rx_inv (c_rx conn) ->
  rx_inv (c_rx conn') /\ r_Nr (c_rx conn') = r_Nr (c_rx conn) /\ r_queue_sz (c_rx conn') = r_queue_sz (c_rx conn) /\
  (c_rx conn' = c_rx conn \/ c_state conn' = STATE_CLOSE /\ forall i p, window (c_rx conn') !! i <> Some (Some p)).
Proof.
  intros [_ F] I. destruct F as [E|[C E]]; rewrite E; [auto|]. pose proof I as [S L O N _].
  split; [|split; [done|split; [done|right; split; [done | now apply (window_cleared (c_rx conn) 0)]]]].
  apply (rx_cleared (c_rx conn) 0); auto. lia.
Qed.

Lemma delivers_frame rx c c' taken :
  rx_frame c c' -> (c_state c = STATE_CLOSE -> c_state c' = STATE_CLOSE) ->
  delivers rx c taken -> delivers rx c' taken.
Proof.
  intros F Cl [I N S T W A]. destruct (frame_inv c c' F I) as (I' & N' & S' & D).
  assert (c_state c' <> STATE_CLOSE -> c_state c <> STATE_CLOSE) by auto.
  split; [done | congruence | congruence | done | | auto].
  destruct D as [E|[C E]]; [|auto]. rewrite E. destruct W as [|[C ?]]; auto.
Qed.

Lemma frame_closed c c' : rx_frame c c' -> c_state c = STATE_CLOSE -> c_state c' = STATE_CLOSE.
Proof. intros [F _] C. now apply F. Qed.

Lemma delivers_none c c' : rx_frame c c' -> rx_inv (c_rx c) ->
  (forall p, window (c_rx c) !! 0%nat <> Some (Some p)) \/ c_state c' = STATE_CLOSE -> delivers (c_rx c) c' [].
Proof.
  intros F I H. destruct (frame_inv c c' F I) as (I' & N' & S' & D). pose proof (ri_Nr _ I).
  split; auto; cbn [length Z.of_nat].
  - rewrite Z.add_0_r, N', u16_minus_0; done.
  - destruct D as [->|?]; [left | auto]. cbn. now rewrite app_nil_r.
  - intros C. destruct H; [done | congruence].
Qed.

Lemma rx_at_self rx : rx_at rx (r_queue_offt rx) = rx.
Proof. now destruct rx. Qed.

Lemma reply_delivers env dispatch conn need_ack :
  rx_inv (c_rx conn) ->
  exists conn' ok taken, l2tp_tunnel_reply env dispatch conn need_ack = Some (conn', ok, taken) /\
    delivers (c_rx conn) conn' taken.
Proof.
  intros I. pose proof I as [S L O N _]. unfold l2tp_tunnel_reply.
  destruct (reply_loop_spec env dispatch (reply_fuel conn) conn (r_queue_offt (c_rx conn)) 0 [])
    as (c1 & taken & E & R); rewrite ?rx_at_self; auto; try lia.
  { now rewrite Z.add_0_r, Z.mod_small. }
  { intros i Hi p Hp%lookup_lt_Some. rewrite window_length in Hp by done. lia. }
  { unfold reply_fuel. lia. }
  rewrite E. cbn [app]. rewrite rx_at_self in R. set (c2 := with_rx c1 _).
  assert (delivers (c_rx conn) c2 taken) as D.
  { destruct R as [T Nr Sz I2 Op Al]. split; auto. }
  destruct (l2tp_tunnel_push_sendqueue env c2) as [c3 res] eqn:Ep.
  assert (delivers (c_rx conn) c3 taken) as D3.
  { pose proof (push_frame env c2) as F. rewrite Ep in F. eauto using delivers_frame, frame_closed. }
  destruct ((res =? 0) && need_ack); [|eauto].
  destruct (l2tp_send_ZLB env c3) as [c4 ok] eqn:Ez. exists c4, ok, taken. split; [done|].
  pose proof (zlb_frame env c3) as F. rewrite Ez in F. eauto using delivers_frame, frame_closed.
Qed.

(** ** The tunnel as a sequence of events *)

Section Stream.
(** The messages of the peer, of which the first has the number [N0]. *)
Variable stream : nat -> Z * list l2tp_attr_t.
Variable N0 : Z.

Lemma store_follows R conn pack need_ack conn' need' stored :
  rx_inv (c_rx conn) -> follows stream N0 R (c_rx conn) -> arrives stream N0 R pack ->
  l2tp_tunnel_store_msg conn pack need_ack = (conn', need', stored) ->
  rx_inv (c_rx conn') /\ follows stream N0 R (c_rx conn').
Proof.
  intros I [FN FW] [Hp A] E. destruct (store_msg_spec conn pack need_ack I Hp) as [need E'].
  rewrite E in E'. injection E' as -> _ _. cbn [c_rx with_rx].
  destruct (storable conn pack) eqn:Hs; [|done].
  unfold storable in Hs. destruct (window _ !! _) as [[?|]|] eqn:Hw; rewrite ?andb_false_r in Hs; try done.
  rewrite andb_true_r in Hs. apply andb_true_iff in Hs as [_ Hz]. apply negb_true_iff in Hz.
  pose proof (lookup_lt_Some _ _ _ Hw) as Hi. rewrite window_length in Hi by done.
  split; [now apply rx_inv_store|]. split; [done|]. intros i p. rewrite window_insert by done.
  destruct (decide (i = position (c_rx conn) pack)) as [->|Hne].
  2: { rewrite list_lookup_insert_ne by done. apply FW. }
  rewrite list_lookup_insert_eq by (now rewrite window_length). intros [= <-].
  destruct (A Hz) as (k & -> & Ek & Hk). f_equal. pose proof I as [S L _ _ _].
  unfold position in *. rewrite Ek, FN in *. clear -Hk Hi S L.
  destruct (u16_split (N0 + Z.of_nat k)) as (a & Ea & _), (u16_split (N0 + Z.of_nat R)) as (b & Eb & _).
  destruct (u16_split (u16 (N0 + Z.of_nat k) - u16 (N0 + Z.of_nat R))) as (c & Ec & Hc). lia.
Qed.

Lemma read_packets_follows env quirk R conn need packs conn' need' ok :
  rx_inv (c_rx conn) -> follows stream N0 R (c_rx conn) ->
  Forall (fun o => forall p, o = Some p -> arrives stream N0 R p) packs ->
  read_packets env quirk conn need packs = (conn', need', ok) ->
  rx_inv (c_rx conn') /\ follows stream N0 R (c_rx conn').
Proof.
  intros I F A. revert conn need I F. induction A as [|o packs Ha _ IH]; intros conn need I F E; cbn in E.
  { now injection E as <- _ _. }
  destruct (read_packet env quirk conn need o) as [[c1 n1] ok1] eqn:E1.
  assert (rx_inv (c_rx c1) /\ follows stream N0 R (c_rx c1)) as [I1 F1].
  { unfold read_packet in E1. destruct o as [p|]; [|now injection E1 as <- _ _].
    destruct (negb (c_port_set conn) && _); [now injection E1 as <- _ _|].
    destruct (negb (_ =? _) && _); [now injection E1 as <- _ _|].
    destruct (l2tp_tunnel_store_msg _ p need) as [[c2 n2] s2] eqn:Es. injection E1 as <- _ _.
    eapply store_follows; [| | |exact Es]; eauto. }
  destruct (negb ok1); [now injection E as <- _ _ | eauto].
Qed.

Lemma delivers_follows R rx conn' taken :
  delivers rx conn' taken -> follows stream N0 R rx ->
  rx_inv (c_rx conn') /\ follows stream N0 (R + length taken) (c_rx conn') /\
  message <$> taken = stream <$> seq R (length taken).
Proof.
  intros [I N S T W _] [FN FW].
  assert (forall i p, taken !! i = Some p -> message p = stream (R + i)) as Ht.
  { intros i p Hp. apply FW. pose proof (lookup_lt_Some _ _ _ Hp).
    assert ((Some <$> taken) !! i = Some (Some p)) as E by (now rewrite list_lookup_fmap, Hp).
    rewrite T, lookup_take_lt in E by done. exact E. }
  split; [done|]. split; [split|].
  - rewrite N, FN. unfold u16. rewrite Zplus_mod_idemp_l. f_equal. lia.
  - intros i p Hp. destruct W as [W|[_ W]]; [|now apply W in Hp]. rewrite W in Hp.
    destruct (decide (i < length (drop (length taken) (window rx)))%nat) as [Hi|Hi].
    + rewrite lookup_app_l, lookup_drop in Hp by done. rewrite (FW _ _ Hp). f_equal. lia.
    + rewrite lookup_app_r in Hp by lia. apply lookup_replicate in Hp as [? _]. done.
  - apply list_eq. intros i. rewrite !list_lookup_fmap. destruct (taken !! i) as [p|] eqn:E.
    + rewrite lookup_seq_lt by (now apply lookup_lt_Some in E). cbn. f_equal. now apply Ht.
    + apply lookup_ge_None in E. rewrite (proj2 (lookup_ge_None (seq R (length taken)) i)); [done|].
      now rewrite length_seq.
Qed.

Lemma follows_frame R c c' :
  rx_frame c c' -> rx_inv (c_rx c) -> follows stream N0 R (c_rx c) -> rx_inv (c_rx c') /\ follows stream N0 R (c_rx c').
Proof.
  intros Fr I [FN FW]. destruct (frame_inv c c' Fr I) as (I' & N' & _ & D).
  split; [done|]. split; [congruence|]. intros i p H. destruct D as [E|[_ E]]; [rewrite E in H; eauto | now apply E in H].
Qed.

Lemma read_follows env dispatch quirk R conn packs unreachable :
  rx_inv (c_rx conn) -> follows stream N0 R (c_rx conn) ->
  Forall (fun o => forall p, o = Some p -> arrives stream N0 R p) packs ->
  exists conn' taken, l2tp_conn_read env dispatch quirk conn packs unreachable = Some (conn', taken) /\
    rx_inv (c_rx conn') /\ follows stream N0 (R + length taken) (c_rx conn') /\
    message <$> taken = stream <$> seq R (length taken).
Proof.
  intros I F A. unfold l2tp_conn_read.
  assert (forall c, rx_inv (c_rx c) -> follows stream N0 R (c_rx c) -> exists conn' taken,
    Some (l2tp_tunnel_free c, []) = Some (conn', taken) /\ rx_inv (c_rx conn') /\
    follows stream N0 (R + length taken) (c_rx conn') /\ message <$> taken = stream <$> seq R (length taken)) as Free.
  { intros c Ic Fc. eexists _, []. split; [done|]. cbn [length]. rewrite Nat.add_0_r.
    destruct (follows_frame R c _ (free_frame c) Ic Fc). done. }
  destruct (read_packets env quirk conn false packs) as [[c1 na] ok] eqn:E1.
  destruct (read_packets_follows _ _ _ _ _ _ _ _ _ I F A E1) as [I1 F1].
  destruct (negb ok || unreachable); [auto|].
  pose proof (clean_frame env c1) as Fr. destruct (l2tp_tunnel_clean_rtmsqueue env c1) as [c2 ok2].
  destruct (follows_frame R c1 c2 Fr I1 F1) as [I2 F2]. destruct (negb ok2); [auto|].
  destruct (reply_delivers env dispatch c2 na I2) as (c3 & ok3 & taken & -> & D).
  destruct (delivers_follows R _ _ _ D F2) as (I3 & F3 & M).
  assert (rx_inv (c_rx (l2tp_tunnel_free c3)) /\ follows stream N0 (R + length taken) (c_rx (l2tp_tunnel_free c3))) as [I4 F4]
    by (eapply follows_frame; eauto; apply free_frame).
  destruct (negb ok3); [eauto 10|]. destruct (_ && _); eauto 10.
Qed.

Lemma step_follows R conn ev :
  rx_inv (c_rx conn) -> follows stream N0 R (c_rx conn) -> arrivals stream N0 R ev ->
  exists conn' taken, step conn ev = Some (conn', taken) /\
    rx_inv (c_rx conn') /\ follows stream N0 (R + length taken) (c_rx conn') /\
    message <$> taken = stream <$> seq R (length taken).
Proof.
  intros I F A.
  assert (forall c, rx_frame conn c -> exists conn' taken,
    Some (c, []) = Some (conn', taken) /\ rx_inv (c_rx conn') /\
    follows stream N0 (R + length taken) (c_rx conn') /\ message <$> taken = stream <$> seq R (length taken)) as Fr.
  { intros c Fc. eexists _, []. split; [done|]. cbn [length]. rewrite Nat.add_0_r.
    destruct (follows_frame R conn c Fc I F). done. }
  destruct ev; cbn [step].
  - now apply read_follows.
  - apply Fr, rtimeout_frame.
  - apply Fr, hello_frame.
  - apply Fr. unfold l2tp_tunnel_timeout. etransitivity; [|apply disconnect_push_frame]. now apply frame_same.
  - apply Fr. unfold l2tp_tunnel_finwait_timeout. etransitivity; [|apply free_frame]. now apply frame_same.
  - apply Fr, action_frame.
Qed.

Lemma run_follows R conn evs :
  rx_inv (c_rx conn) -> follows stream N0 R (c_rx conn) -> all_arrive stream N0 conn R evs ->
  exists conn' taken, run conn evs = Some (conn', taken) /\
    rx_inv (c_rx conn') /\ follows stream N0 (R + length taken) (c_rx conn') /\
    message <$> taken = stream <$> seq R (length taken).
Proof.
  revert R conn. induction evs as [|ev evs IH]; intros R conn I F A.
  { exists conn, []. cbn [length]. rewrite Nat.add_0_r. done. }
  destruct A as [A1 A2]. destruct (step_follows R conn ev I F A1) as (c1 & t1 & E1 & I1 & F1 & M1).
  destruct (IH (R + length t1)%nat c1 I1 F1 (A2 _ _ E1)) as (c2 & t2 & E2 & I2 & F2 & M2).
  exists c2, (t1 ++ t2). cbn [run]. rewrite E1. cbn. rewrite E2. cbn.
  rewrite length_app, Nat.add_assoc. split; [done|]. split; [done|]. split; [done|].
  now rewrite fmap_app, M1, M2, seq_app, fmap_app.
Qed.
End Stream.

(** ** The sending side *)

Lemma ack_inv tx pack : tx_inv tx -> 0 <= pack_Nr pack < 65536 -> tx_inv (ack_tx tx pack).
Proof.
  intros [N P W L R RL O] Hp. unfold ack_tx. destruct (_ <? 0) eqn:E1; [now split|].
  destruct (0 <? _) eqn:E2; [|now split]. zbool. split; cbn; auto.
  assert (~ nsnr_cmp (t_Ns tx) (pack_Nr pack) < 0) as H by lia. rewrite nsnr_cmp_neg in H.
  unfold outstanding. cbn. lia.
Qed.

Lemma last_sent_tail Ns p l : last_sent Ns (p :: l) -> last_sent Ns l.
Proof. intros H i q Hq. rewrite (H (S i) q Hq). f_equal. cbn [length]. lia. Qed.

(** The acknowledged messages are those in front of the last [outstanding] ones. *)
Lemma drop_acked_spec tx n :
  tx_inv tx ->
  let k := (length (t_rtms_queue tx) - Z.to_nat (outstanding tx))%nat in
  drop_acked (t_peer_Nr tx) (t_rtms_queue tx) n = (drop k (t_rtms_queue tx), n + Z.of_nat k).
Proof.
  intros [N P _ _ R RL O]. unfold outstanding in *. revert R RL n.
  generalize (t_rtms_queue tx) as q. induction q as [|p q IH]; intros R RL n; cbn zeta.
  { cbn. now rewrite Z.add_0_r. }
  pose proof (R 0%nat p eq_refl) as Ep. cbn [drop_acked length] in *.
  pose proof (nsnr_cmp_neg (pack_Ns p) (t_peer_Nr tx)) as C. rewrite Ep in C |- *.
  destruct (0 <=? nsnr_cmp _ _) eqn:E; zbool.
  - assert (~ 32769 <= u16 (u16 (t_Ns tx - Z.of_nat (S (length q)) + Z.of_nat 0) - t_peer_Nr tx)) as C' by lia.
    clear C E. assert (S (length q) - Z.to_nat (u16 (t_Ns tx - t_peer_Nr tx)) = 0)%nat as ->.
    { wrap16. }
    cbn. now rewrite Z.add_0_r.
  - assert (32769 <= u16 (u16 (t_Ns tx - Z.of_nat (S (length q)) + Z.of_nat 0) - t_peer_Nr tx)) as C' by lia.
    clear C E. rewrite IH by (eauto using last_sent_tail; lia).
    assert (S (length q) - Z.to_nat (u16 (t_Ns tx - t_peer_Nr tx)) =
            S (length q - Z.to_nat (u16 (t_Ns tx - t_peer_Nr tx))))%nat as -> by wrap16.
    cbn [drop]. f_equal. lia.
Qed.

Lemma last_sent_drop Ns k l : last_sent Ns l -> last_sent Ns (drop k l).
Proof.
  intros H i q Hq. rewrite lookup_drop in Hq. pose proof (lookup_lt_Some _ _ _ Hq).
  rewrite (H _ _ Hq), length_drop. f_equal. lia.
Qed.

Lemma last_sent_snoc Ns l p :
  last_sent Ns l -> pack_Ns p = Ns -> 0 <= Ns < 65536 -> last_sent (u16 (Ns + 1)) (l ++ [p]).
Proof.
  intros H Ep HN i q Hq. rewrite length_app. cbn [length].
  assert (u16 (u16 (Ns + 1) - Z.of_nat (length l + 1) + Z.of_nat i) = u16 (Ns - Z.of_nat (length l) + Z.of_nat i)) as ->.
  { replace (u16 (Ns + 1) - Z.of_nat (length l + 1) + Z.of_nat i)
      with (u16 (Ns + 1) + (Z.of_nat i - Z.of_nat (length l + 1))) by lia.
    unfold u16. rewrite Zplus_mod_idemp_l. f_equal. lia. }
  destruct (decide (i < length l)%nat).
  - rewrite lookup_app_l in Hq by done. now apply H.
  - rewrite lookup_app_r in Hq by lia. destruct (i - length l)%nat eqn:E; cbn in Hq; [|done]. injection Hq as <-.
    rewrite Ep. replace (Ns - Z.of_nat (length l) + Z.of_nat i) with Ns by lia. symmetry. now apply u16_minus_0.
Qed.

(** Retransmission queue and outstanding messages under the field updates. *)
Lemma tx_inv_same tx tx' :
  t_Ns tx' = t_Ns tx -> t_peer_Nr tx' = t_peer_Nr tx -> t_peer_rcv_wnd_sz tx' = t_peer_rcv_wnd_sz tx ->
  t_rtms_queue tx' = t_rtms_queue tx -> t_send_queue_len tx' = u32 (Z.of_nat (length (t_send_queue tx'))) ->
  tx_inv tx -> tx_inv tx'.
Proof.
  intros E1 E2 E3 E4 E5 [N P W L R RL O]. split; unfold outstanding in *; rewrite ?E1, ?E2, ?E3, ?E4; auto.
Qed.

Lemma clean_inv env conn :
  tx_inv (c_tx conn) ->
  let conn' := fst (l2tp_tunnel_clean_rtmsqueue env conn) in
  tx_inv (c_tx conn') /\ acked (c_tx conn') /\
  t_rtms_queue (c_tx conn') =
    drop (length (t_rtms_queue (c_tx conn)) - Z.to_nat (outstanding (c_tx conn))) (t_rtms_queue (c_tx conn)).
Proof.
  intros I conn'. unfold conn', l2tp_tunnel_clean_rtmsqueue. rewrite (drop_acked_spec _ 0 I). cbn zeta.
  set (q := drop _ _). pose proof I as [N P W L R RL O].
  assert (tx_inv (tx_rtms (c_tx conn) q)) as Iq.
  { split; cbn; auto; [now apply last_sent_drop|]. unfold q. rewrite length_drop. lia. }
  assert (acked (tx_rtms (c_tx conn) q)) as Aq.
  { unfold acked, outstanding in *. cbn. unfold q. rewrite length_drop. pose proof (u16_range (t_Ns (c_tx conn) - t_peer_Nr (c_tx conn))). lia. }
  assert (forall a b c, tx_inv (tx_timer (tx_rtms (c_tx conn) q) a b c) /\
    acked (tx_timer (tx_rtms (c_tx conn) q) a b c)) as T by (intros; split; [now apply (tx_inv_same (tx_rtms (c_tx conn) q)) | done]).
  destruct (_ =? 0); [done|]. destruct q eqn:Eq; [|destruct (e_timer_ok env)].
  all: cbn [fst c_tx with_tx]; match goal with |- context [tx_timer _ ?a ?b ?c] => destruct (T a b c) end; done.
Qed.

(** Whether there is room in the window of the peer. *)
Lemma push_guard tx :
  tx_inv tx -> (0 <=? nsnr_cmp (t_Ns tx) (u16 (t_peer_Nr tx + t_peer_rcv_wnd_sz tx)))
               = (t_peer_rcv_wnd_sz tx <=? outstanding tx).
Proof.
  intros [N P W _ _ _ O]. pose proof (nsnr_cmp_neg (t_Ns tx) (u16 (t_peer_Nr tx + t_peer_rcv_wnd_sz tx))) as C.
  unfold outstanding in *.
  assert (32769 <= u16 (t_Ns tx - u16 (t_peer_Nr tx + t_peer_rcv_wnd_sz tx)) <->
          u16 (t_Ns tx - t_peer_Nr tx) < t_peer_rcv_wnd_sz tx) as D.
  { clear C. split; intros; wrap16. }
  destruct (Z.leb_spec 0 (nsnr_cmp (t_Ns tx) (u16 (t_peer_Nr tx + t_peer_rcv_wnd_sz tx)))),
    (Z.leb_spec (t_peer_rcv_wnd_sz tx) (u16 (t_Ns tx - t_peer_Nr tx))); try done; lia.
Qed.

Lemma tx_sent_inv tx p q pack :
  tx_inv tx -> acked tx -> t_send_queue tx = p :: q -> pack_Ns pack = t_Ns tx ->
  outstanding tx < t_peer_rcv_wnd_sz tx ->
  tx_inv (tx_sent tx q pack) /\ outstanding (tx_sent tx q pack) = outstanding tx + 1.
Proof.
  intros [N P W L R RL O] A Eq Ep Ho. unfold acked, outstanding in *.
  assert (u16 (u16 (t_Ns tx + 1) - t_peer_Nr tx) = u16 (t_Ns tx - t_peer_Nr tx) + 1) as Eo.
  { clear L R A. wrap16. }
  split; [|done]. split; unfold outstanding; cbn; auto.
  - apply u16_range.
  - rewrite L, Eq. unfold u32. rewrite Zminus_mod_idemp_l. f_equal. cbn [length]. lia.
  - now apply last_sent_snoc.
  - rewrite length_app. cbn [length]. lia.
  - lia.
Qed.

Lemma push_loop_inv env q conn n :
  tx_inv (c_tx conn) -> acked (c_tx conn) -> t_send_queue (c_tx conn) = q ->
  let r := push_loop env (u16 (t_peer_Nr (c_tx conn) + t_peer_rcv_wnd_sz (c_tx conn))) q conn n in
  tx_inv (c_tx (fst (fst r))) /\ acked (c_tx (fst (fst r))).
Proof.
  revert conn n. induction q as [|p q IH]; intros conn n I A Eq; cbn [push_loop]; [done|].
  rewrite (push_guard _ I). destruct (_ <=? _) eqn:E; zbool; [done|].
  unfold __l2tp_tunnel_send. set (pack := set_Nr _ _). destruct (e_send_ok env pack); cbn [negb].
  - destruct (tx_sent_inv (c_tx conn) p q pack I A Eq eq_refl E) as [I' O'].
    specialize (IH (with_tx (with_sent conn pack) (tx_sent (c_tx conn) q pack)) (n + 1)). cbn in IH.
    apply IH; auto. unfold acked in *. rewrite O'. cbn. rewrite length_app. cbn [length]. lia.
  - cbn. split; [|done]. apply (tx_inv_same (c_tx conn)); auto. cbn. pose proof (ti_len _ I) as L. now rewrite Eq in L.
Qed.

Lemma push_inv env conn :
  tx_inv (c_tx conn) -> acked (c_tx conn) ->
  let conn' := fst (l2tp_tunnel_push_sendqueue env conn) in tx_inv (c_tx conn') /\ acked (c_tx conn').
Proof.
  intros I A conn'. unfold conn', l2tp_tunnel_push_sendqueue.
  pose proof (push_loop_inv env _ conn 0 I A eq_refl) as H. cbn zeta in H.
  destruct (push_loop _ _ _ _ _) as [[c n] ok]. cbn [fst] in H. destruct H as [I' A'].
  assert (forall a b d, tx_inv (tx_timer (c_tx c) a b d) /\ acked (tx_timer (c_tx c) a b d)) as T.
  { intros. split; [|done]. apply (tx_inv_same (c_tx c)); auto. apply I'. }
  destruct (negb ok); [done|]. destruct (n =? 0); [done|]. destruct (t_timer_on (c_tx c)); [done|].
  destruct (e_timer_ok env); apply T.
Qed.

Lemma push_loop_exact env q conn n :
  all_sent env -> tx_inv (c_tx conn) -> acked (c_tx conn) -> t_send_queue (c_tx conn) = q ->
  let tx := c_tx conn in
  let k := Nat.min (length q) (Z.to_nat (t_peer_rcv_wnd_sz tx - outstanding tx)) in
  let msgs := numbered (t_Ns tx) (r_Nr (c_rx conn)) (take k q) in
  exists conn', push_loop env (u16 (t_peer_Nr tx + t_peer_rcv_wnd_sz tx)) q conn n = (conn', n + Z.of_nat k, true) /\
    c_sent conn' = c_sent conn ++ msgs /\ t_rtms_queue (c_tx conn') = t_rtms_queue tx ++ msgs /\
    t_send_queue (c_tx conn') = drop k q /\ t_Ns (c_tx conn') = u16 (t_Ns tx + Z.of_nat k) /\
    outstanding (c_tx conn') = outstanding tx + Z.of_nat k /\
    t_timer_on (c_tx conn') = t_timer_on tx /\ c_rtimeout conn' = c_rtimeout conn.
Proof.
  intros Ok. revert conn n. induction q as [|p q IH]; intros conn n I A Eq; cbn zeta; cbn [push_loop].
  { exists conn. cbn. rewrite !Z.add_0_r, !app_nil_r, (u16_minus_0 _ (ti_Ns _ I)). auto 10. }
  rewrite (push_guard _ I). destruct (_ <=? _) eqn:E; zbool.
  { replace (Z.to_nat (t_peer_rcv_wnd_sz (c_tx conn) - outstanding (c_tx conn))) with 0%nat by lia.
    exists conn. rewrite Nat.min_0_r. cbn [take drop numbered Z.of_nat].
    rewrite !Z.add_0_r, !app_nil_r, (u16_minus_0 _ (ti_Ns _ I)). auto 10. }
  unfold __l2tp_tunnel_send. set (pack := set_Nr _ _). rewrite Ok. cbn [negb].
  destruct (tx_sent_inv (c_tx conn) p q pack I A Eq eq_refl E) as [I' O'].
  specialize (IH (with_tx (with_sent conn pack) (tx_sent (c_tx conn) q pack)) (n + 1)). cbn in IH.
  destruct IH as (conn' & Ep & Es & Er & Eq' & EN & Eo & Et & Ec); auto.
  { unfold acked in *. rewrite O'. cbn. rewrite length_app. cbn [length]. lia. }
  rewrite O' in *. set (k := Nat.min (length q) _) in *.
  assert (Nat.min (length (p :: q)) (Z.to_nat (t_peer_rcv_wnd_sz (c_tx conn) - outstanding (c_tx conn))) = S k) as ->
    by (unfold k; cbn [length]; lia).
  exists conn'. fold (tx_sent (c_tx conn) q pack). rewrite Ep. cbn [take drop numbered].
  rewrite Es, Er, Eq', EN, Eo, Et, Ec, <- !app_assoc. cbn [app].
  split_and!; auto; try (f_equal; lia); [f_equal; f_equal; lia | | lia].
  unfold u16. rewrite Zplus_mod_idemp_l. f_equal. lia.
Qed.

(** ** The invariant of a tunnel *)

Lemma ok_same b conn conn' :
  c_state conn' = c_state conn -> c_tx conn' = c_tx conn -> conn_ok b conn -> conn_ok b conn'.
Proof. intros E1 E2 [[? ? ? ?] ?]. split; [split|]; rewrite ?E1, ?E2; auto. Qed.

Lemma acked_nil tx : t_rtms_queue tx = [] -> acked tx.
Proof.
  intros E. unfold acked, outstanding. rewrite E. pose proof (u16_range (t_Ns tx - t_peer_Nr tx)). cbn. lia.
Qed.

Lemma free_ok b conn : reading b conn -> conn_ok b (l2tp_tunnel_free conn).
Proof.
  intros [T S C Ti]. unfold l2tp_tunnel_free.
  assert (forall a c d, tx_inv (l2tp_tunnel_clear_sendqueue (tx_rtms (tx_timer (c_tx conn) a c d) []))) as Tc.
  { intros. apply (tx_inv_same (tx_rtms (c_tx conn) [])); auto. destruct T. split; cbn; auto; [done | lia]. }
  destruct (c_state conn) eqn:E; try done.
  all: try (split; [split|]; cbn; auto using acked_nil; done).
  destruct (C eq_refl). split; [now split; rewrite ?E | now apply acked_nil].
Qed.

(** Also when the timer has been stopped. *)
Lemma free_stopped b conn : reading false conn -> c_state conn <> STATE_CLOSE -> conn_ok b (l2tp_tunnel_free conn).
Proof.
  intros R Nc. destruct (free_ok false conn R) as [[T S C Ti] A]. destruct R as [_ So _ _].
  split; [split; auto | done]. intros _ H. exfalso. apply H. revert So Nc. clear.
  unfold l2tp_tunnel_free. destruct (c_state conn); done.
Qed.

(** Updates of the sending side that keep numbers, windows and retransmissions. *)
Lemma ok_tx b conn tx' :
  t_Ns tx' = t_Ns (c_tx conn) -> t_peer_Nr tx' = t_peer_Nr (c_tx conn) ->
  t_peer_rcv_wnd_sz tx' = t_peer_rcv_wnd_sz (c_tx conn) -> t_rtms_queue tx' = t_rtms_queue (c_tx conn) ->
  t_send_queue_len tx' = u32 (Z.of_nat (length (t_send_queue tx'))) ->
  t_timer_on tx' = t_timer_on (c_tx conn) -> (c_state conn = STATE_CLOSE -> t_send_queue tx' = []) ->
  conn_ok b conn -> conn_ok b (with_tx conn tx').
Proof.
  intros E1 E2 E3 E4 E5 E6 E7 [[T S C Ti] A].
  split; [split; cbn; auto|].
  - now apply (tx_inv_same (c_tx conn)).
  - intros Cl. rewrite E4. split; [now apply C | auto].
  - now rewrite E4, E6.
  - unfold acked, outstanding in *. cbn. now rewrite E1, E2, E4.
Qed.

Lemma ok_state b conn st :
  conn_ok b conn -> c_state conn <> STATE_CLOSE -> st <> STATE_CLOSE -> tunnel_state_ok st = true ->
  conn_ok b (with_state conn st).
Proof. intros [[T S C Ti] A] H1 H2 H3. split; [split|]; cbn; auto. done. Qed.

Lemma clear_send_ok b conn : conn_ok b conn -> conn_ok b (with_tx conn (l2tp_tunnel_clear_sendqueue (c_tx conn))).
Proof. intros H. now apply ok_tx. Qed.

Lemma enqueue_ok b sess conn pack : conn_ok b conn -> conn_ok b (fst (tunnel_enqueue sess conn pack)).
Proof.
  intros H. unfold tunnel_enqueue. destruct (closing (c_state conn)) eqn:E; [done|]. cbn [fst].
  apply ok_tx; auto; cbn.
  - destruct H as [[[] _ _ _] _]. rewrite ti_len0, length_app. unfold u32. rewrite Zplus_mod_idemp_l. f_equal. cbn [length]. lia.
  - intros C. now rewrite C in E.
Qed.

Lemma session_clear_ok b sid conn :
  conn_ok b conn -> conn_ok b (with_tx conn (l2tp_session_clear_sendqueue sid (c_tx conn))).
Proof.
  intros H. apply ok_tx; auto; cbn.
  - destruct H as [[[] _ _ _] _]. rewrite ti_len0. unfold u32. rewrite Zminus_mod_idemp_l. f_equal.
    clear. induction (t_send_queue (c_tx conn)) as [|x q IH]; [done|].
    rewrite !filter_cons. destruct (in_session sid x); repeat (case_decide; try done); cbn [length]; lia.
  - intros C. destruct H as [[_ _ Cl _] _]. destruct (Cl C) as [_ E]. now rewrite E.
Qed.

Lemma send_ok b env conn pack : conn_ok b conn -> conn_ok b (fst (fst (__l2tp_tunnel_send env conn pack))).
Proof. intros H. unfold __l2tp_tunnel_send. destruct (e_send_ok _ _); [|done]. now apply (ok_same b conn). Qed.

Lemma zlb_ok b env conn : conn_ok b conn -> conn_ok b (fst (l2tp_send_ZLB env conn)).
Proof.
  intros H. unfold l2tp_send_ZLB. destruct (negb _); [done|].
  match goal with |- context [__l2tp_tunnel_send env conn ?p] => pose proof (send_ok b env conn p H) as F end.
  destruct (__l2tp_tunnel_send _ _ _) as [[c p] ok]. exact F.
Qed.

Lemma push_loop_state env Nr_max q conn n : c_state (fst (fst (push_loop env Nr_max q conn n))) = c_state conn.
Proof.
  revert conn n. induction q as [|p q IH]; intros conn n; cbn [push_loop]; [done|].
  destruct (0 <=? _); [done|]. unfold __l2tp_tunnel_send. destruct (e_send_ok _ _); cbn [negb]; [now rewrite IH | done].
Qed.

Lemma push_state env conn : c_state (fst (l2tp_tunnel_push_sendqueue env conn)) = c_state conn.
Proof.
  unfold l2tp_tunnel_push_sendqueue. rewrite <- (push_loop_state env
    (u16 (t_peer_Nr (c_tx conn) + t_peer_rcv_wnd_sz (c_tx conn))) (t_send_queue (c_tx conn)) conn 0).
  destruct (push_loop _ _ _ _ _) as [[c n] ok]. destruct (negb ok); [done|]. destruct (n =? 0); [done|].
  destruct (t_timer_on (c_tx c)); [done|]. now destruct (e_timer_ok env).
Qed.

Lemma push_timer env conn :
  all_sent env -> e_timer_ok env = true -> tx_inv (c_tx conn) -> acked (c_tx conn) ->
  (t_rtms_queue (c_tx conn) <> [] -> t_timer_on (c_tx conn) = true) ->
  let tx' := c_tx (fst (l2tp_tunnel_push_sendqueue env conn)) in t_rtms_queue tx' <> [] -> t_timer_on tx' = true.
Proof.
  intros Ok Et I A Ti tx'. unfold tx', l2tp_tunnel_push_sendqueue.
  destruct (push_loop_exact env _ conn 0 Ok I A eq_refl) as (c & -> & _ & Er & _ & _ & _ & Eo & _).
  set (k := Nat.min _ _) in *. cbn [negb]. destruct (0 + Z.of_nat k =? 0) eqn:E; zbool.
  - assert (k = 0%nat) as Ek by lia. cbn [fst]. rewrite Er, Eo, Ek. cbn [take numbered]. now rewrite app_nil_r.
  - destruct (t_timer_on (c_tx c)) eqn:Eon; [done|]. now rewrite Et.
Qed.

Lemma push_ok b env conn : env_good b env -> conn_ok b conn -> conn_ok b (fst (l2tp_tunnel_push_sendqueue env conn)).
Proof.
  intros G [[T S C Ti] A]. destruct (push_inv env conn T A) as [T' A'].
  split; [split|]; auto; rewrite ?push_state; auto.
  - intros Cl. destruct (C Cl) as [Er Eq]. unfold l2tp_tunnel_push_sendqueue. rewrite Eq. cbn. auto.
  - intros Eb. destruct (G Eb). now apply push_timer; auto.
Qed.

Lemma disconnect_ok b conn stop : conn_ok b conn -> conn_ok b (fst (l2tp_tunnel_disconnect conn stop)).
Proof.
  intros H. unfold l2tp_tunnel_disconnect. pose proof (clear_send_ok b conn H) as H1.
  destruct (c_state conn) eqn:E; try done.
  all: destruct stop as [p|]; cbn [fst].
  all: try (apply free_ok; apply ok_state; [exact H1 | cbn; rewrite E; done | done | done]).
  all: match goal with |- conn_ok _ (with_sessions (with_timers ?c _ _) _) => apply (ok_same _ c); [done | done|] end.
  all: apply ok_state; [now apply enqueue_ok | | done | done].
  all: unfold l2tp_tunnel_send, tunnel_enqueue; cbn; now rewrite E; cbn; rewrite E.
Qed.

Lemma finwait_ok b env conn : conn_ok b conn -> conn_ok b (l2tp_tunnel_finwait env conn).
Proof.
  intros H. unfold l2tp_tunnel_finwait.
  assert (c_state conn <> STATE_CLOSE -> forall t h, conn_ok b
    (with_sessions (with_tx (with_timers (with_state conn STATE_FIN_WAIT) t h) (l2tp_tunnel_clear_sendqueue (c_tx conn))) [])) as Hf.
  { intros Nc t h. apply (ok_same b (with_tx (with_state conn STATE_FIN_WAIT) (l2tp_tunnel_clear_sendqueue (c_tx conn))));
      [done | done|]. apply (clear_send_ok b (with_state conn STATE_FIN_WAIT)). now apply ok_state. }
  destruct (c_state conn) eqn:E; try done.
  all: specialize (Hf ltac:(done) None false).
  all: destruct (e_timer_ok env); [eapply ok_same; [| |exact Hf]; done|].
  all: apply free_ok, zlb_ok, Hf.
Qed.

Lemma action_keeps b env conn a : env_good b env -> action_ok a -> conn_ok b conn -> conn_ok b (run_action env conn a).
Proof.
  intros G Ha H. destruct a; cbn [run_action].
  - now apply enqueue_ok.
  - unfold l2tp_session_send. destruct (s_closed sess); [done | now apply enqueue_ok].
  - now apply session_clear_ok.
  - now apply push_ok.
  - now apply disconnect_ok.
  - now apply finwait_ok.
  - apply free_ok, H.
  - destruct (c_state conn) eqn:E; try done; (apply ok_state; [done | congruence | done | done]).
  - now apply (ok_same b conn).
  - assert (forall w, 1 <= w <= 32767 -> conn_ok b (with_tx conn (tx_peer (c_tx conn) (t_peer_Nr (c_tx conn)) w))) as Hw.
    { intros w Hw. destruct H as [[[] S C Ti] A]. split; [split; cbn; auto | done]. now split. }
    unfold recv_window_size. cbn in Ha. destruct (_ || _) eqn:E; zbool.
    + apply disconnect_ok, Hw. unfold DEFAULT_PEER_RECV_WINDOW_SIZE. lia.
    + apply Hw. lia.
  - now apply (ok_same b conn).
Qed.

Lemma actions_keep b env conn l :
  env_good b env -> Forall action_ok l -> conn_ok b conn -> conn_ok b (foldl (run_action env) conn l).
Proof. intros G F. revert conn. induction F as [|a l Ha _ IH]; intros conn Hc; cbn; [done|]. eauto using action_keeps. Qed.

Lemma process_keeps b env dispatch conn pack :
  env_good b env -> dispatch_ok dispatch -> conn_ok b conn -> conn_ok b (process env dispatch conn pack).
Proof.
  intros G D H. unfold process. destruct (c_state conn); try done.
  all: destruct (p_attrs pack) as [|a l]; [done|]; destruct (negb (_ =? Message_Type)); [done|].
  all: destruct (negb _); [destruct (l2tp_tunnel_get_session _ _); [|done]|]; now apply actions_keep.
Qed.

Lemma reply_loop_keeps b env dispatch fuel conn id n taken r :
  env_good b env -> dispatch_ok dispatch -> conn_ok b conn ->
  reply_loop env dispatch fuel conn id n taken = Some r -> conn_ok b (fst (fst r)).
Proof.
  intros G D. revert conn id n taken. induction fuel as [|fuel IH]; intros conn id n taken H E; cbn [reply_loop] in E; [done|].
  destruct (r_queue (c_rx conn) !! Z.to_nat id) as [[p|]|]; try now injection E as <-.
  case_bool_decide; [now injection E as <-|].
  match type of E with context [process env dispatch ?c p] => set (c1 := process env dispatch c p) in E end.
  assert (conn_ok b c1) as H1 by (apply process_keeps; auto; now apply (ok_same b conn)).
  destruct (negb _); [eauto | now injection E as <-].
Qed.

Lemma reply_keeps b env dispatch conn need conn' ok taken :
  env_good b env -> dispatch_ok dispatch -> conn_ok b conn ->
  l2tp_tunnel_reply env dispatch conn need = Some (conn', ok, taken) -> conn_ok b conn'.
Proof.
  intros G D H E. unfold l2tp_tunnel_reply in E.
  destruct (reply_loop _ _ _ _ _ _ _) as [[[c n] t]|] eqn:El; [|done].
  apply (reply_loop_keeps b) in El; auto. cbn [fst] in El.
  match type of E with context [l2tp_tunnel_push_sendqueue env ?c1] =>
    pose proof (push_ok b env c1 G ltac:(now apply (ok_same b c))) as H2;
    destruct (l2tp_tunnel_push_sendqueue env c1) as [c2 res] end.
  cbn [fst] in H2. destruct ((res =? 0) && need); [|now injection E as <- _ _].
  pose proof (zlb_ok b env c2 H2) as H3. destruct (l2tp_send_ZLB env c2) as [c3 ok3]. now injection E as <- _ _.
Qed.

Lemma last_sent_retransmit Ns p p' l : last_sent Ns (p :: l) -> pack_Ns p' = pack_Ns p -> last_sent Ns (p' :: l).
Proof. intros H E [|i] q Hq; [injection Hq as <-; rewrite E; exact (H 0%nat p eq_refl) | exact (H (S i) q Hq)]. Qed.

Lemma tx_rtms_self tx q : t_rtms_queue tx = q -> tx_rtms tx q = tx.
Proof. intros <-. now destruct tx. Qed.

Lemma rtimeout_ok b env conn : conn_ok b conn -> conn_ok b (l2tp_rtimeout env conn).
Proof.
  intros H. unfold l2tp_rtimeout. destruct (t_rtms_queue (c_tx conn)) as [|p l] eqn:Eq; [done|].
  assert (c_state conn <> STATE_CLOSE) as Nc.
  { intros Cl. destruct H as [[_ _ C _] _]. destruct (C Cl) as [E _]. now rewrite E in Eq. }
  assert (forall b' c p' a on d, c_state c = c_state conn -> pack_Ns p' = pack_Ns p -> (b' = true -> on = true) ->
    conn_ok b' (with_tx c (tx_timer (tx_rtms (c_tx conn) (p' :: l)) a on d))) as Hk.
  { intros b' c p' a on d Es Ep Hon. destruct H as [[T S C Ti] A].
    destruct T. split; [split|]; cbn; auto; try (now rewrite Es).
    - split; cbn; auto; [eapply last_sent_retransmit; [now rewrite <- Eq | done]|]. now rewrite Eq in *.
    - unfold acked, outstanding in *. cbn. now rewrite Eq in A. }
  assert (b = true -> t_timer_on (c_tx conn) = true) as Hon.
  { intros Eb. destruct H as [[_ _ _ Ti] _]. apply Ti; auto. now rewrite Eq. }
  assert (forall c p' a d, c_state c = c_state conn -> pack_Ns p' = pack_Ns p ->
    conn_ok b (l2tp_tunnel_free (with_tx c (tx_timer (tx_rtms (c_tx conn) (p' :: l)) a false d)))) as Err.
  { intros c p' a d Es Ep. apply free_stopped; cbn; [|now rewrite Es]. now apply Hk. }
  destruct (_ <? _).
  { pose proof (Err conn p (t_retransmit (c_tx conn) + 1) (t_timer_period (c_tx conn)) eq_refl eq_refl) as E.
    rewrite (tx_rtms_self _ _ Eq) in E. exact E. }
  unfold __l2tp_tunnel_send. destruct (e_send_ok env _); cbn [negb]; [|now apply Err].
  destruct (e_timer_ok env); cbn [negb]; [now apply Hk | now apply Err].
Qed.

Lemma hello_ok b env conn hello : env_good b env -> conn_ok b conn -> conn_ok b (l2tp_send_HELLO env conn hello).
Proof.
  intros G H. unfold l2tp_send_HELLO. destruct hello as [pack|]; [|apply free_ok, H].
  pose proof (push_ok b env (fst (l2tp_tunnel_send conn pack)) G ltac:(now apply enqueue_ok)) as H1.
  destruct (l2tp_tunnel_push_sendqueue _ _) as [c res]. cbn [fst] in H1.
  destruct (res <? 0); [apply free_ok, H1 | done].
Qed.

Lemma timeout_ok b env conn stop : env_good b env -> conn_ok b conn -> conn_ok b (l2tp_tunnel_timeout env conn stop).
Proof.
  intros G H. unfold l2tp_tunnel_timeout, l2tp_tunnel_disconnect_push.
  match goal with |- context [l2tp_tunnel_disconnect ?c stop] =>
    pose proof (disconnect_ok b c stop ltac:(now apply (ok_same b conn))) as H1;
    destruct (l2tp_tunnel_disconnect c stop) as [c1 ok] end.
  cbn [fst] in H1. destruct (negb ok); [done|].
  pose proof (push_ok b env c1 G H1) as H2. destruct (l2tp_tunnel_push_sendqueue env c1) as [c2 res].
  cbn [fst] in H2. destruct (res <? 0); [apply free_ok, H2 | done].
Qed.

Lemma store_reading b conn pack need conn' need' stored :
  rx_inv (c_rx conn) -> 0 <= pack_Ns pack < 65536 -> 0 <= pack_Nr pack < 65536 -> reading b conn ->
  l2tp_tunnel_store_msg conn pack need = (conn', need', stored) -> rx_inv (c_rx conn') /\ reading b conn'.
Proof.
  intros I Hs Hr [T S C Ti] E. destruct (store_msg_spec conn pack need I Hs) as [n E']. rewrite E in E'.
  injection E' as -> _ _. cbn [c_rx with_rx]. split.
  - destruct (storable conn pack) eqn:St; [|done]. apply rx_inv_store; auto.
    unfold storable in St. destruct (window _ !! _) as [[?|]|]; rewrite ?andb_false_r in St; done.
  - assert (t_rtms_queue (ack_tx (c_tx conn) pack) = t_rtms_queue (c_tx conn) /\
            t_send_queue (ack_tx (c_tx conn) pack) = t_send_queue (c_tx conn) /\
            t_timer_on (ack_tx (c_tx conn) pack) = t_timer_on (c_tx conn)) as (E1 & E2 & E3).
    { unfold ack_tx. destruct (_ <? 0); [done|]. now destruct (0 <? _). }
    split; cbn; rewrite ?E1, ?E2, ?E3; auto. now apply ack_inv.
Qed.

Lemma read_packets_reading b env quirk conn need packs conn' need' ok :
  rx_inv (c_rx conn) -> reading b conn -> Forall wire_ok packs ->
  read_packets env quirk conn need packs = (conn', need', ok) -> rx_inv (c_rx conn') /\ reading b conn'.
Proof.
  intros I F A. revert conn need I F. induction A as [|o packs Ha _ IH]; intros conn need I F E; cbn in E.
  { now injection E as <- _ _. }
  destruct (read_packet env quirk conn need o) as [[c1 n1] ok1] eqn:E1.
  assert (rx_inv (c_rx c1) /\ reading b c1) as [I1 F1].
  { unfold read_packet in E1. destruct o as [p|]; [|now injection E1 as <- _ _]. destruct (Ha p eq_refl).
    assert (reading b (with_peer conn (c_peer_tid conn) true)) by (destruct F; now split).
    destruct (negb (c_port_set conn) && _); [now injection E1 as <- _ _|].
    destruct (negb (_ =? _) && _); [now injection E1 as <- _ _|].
    destruct (l2tp_tunnel_store_msg _ p need) as [[c2 n2] s2] eqn:Es. injection E1 as <- _ _.
    eapply store_reading; [| | | |exact Es]; eauto. }
  destruct (negb ok1); [now injection E as <- _ _ | eauto].
Qed.

Lemma clean_ok b env conn :
  env_good b env -> reading b conn -> conn_ok b (fst (l2tp_tunnel_clean_rtmsqueue env conn)).
Proof.
  intros G [T S C Ti]. destruct (clean_inv env conn T) as (T' & A' & Eq).
  assert (c_state (fst (l2tp_tunnel_clean_rtmsqueue env conn)) = c_state conn /\
          t_send_queue (c_tx (fst (l2tp_tunnel_clean_rtmsqueue env conn))) = t_send_queue (c_tx conn)) as [Es Eqs].
  { unfold l2tp_tunnel_clean_rtmsqueue. destruct (drop_acked _ _ _) as [q n]. destruct (n =? 0); [done|].
    destruct q; [done|]. now destruct (e_timer_ok env). }
  split; [split; rewrite ?Es, ?Eqs; auto | done].
  - intros Cl. destruct (C Cl) as [E1 E2]. split; [|done]. rewrite Eq, E1. apply drop_nil.
  - intros Eb. destruct (G Eb) as [_ Et]. specialize (Ti Eb). clear -Et Ti.
    unfold l2tp_tunnel_clean_rtmsqueue. destruct (drop_acked _ _ _) as [q n] eqn:E.
    destruct (n =? 0) eqn:En; zbool; cbn; [|destruct q; [done | now rewrite Et]].
    intros Hq. apply Ti. intros E'. rewrite E' in E. cbn in E. now injection E as <- _.
Qed.

Lemma read_keeps b env dispatch quirk conn packs unreachable :
  env_good b env -> dispatch_ok dispatch -> Forall wire_ok packs -> rx_inv (c_rx conn) -> conn_ok b conn ->
  exists conn' taken, l2tp_conn_read env dispatch quirk conn packs unreachable = Some (conn', taken) /\
    rx_inv (c_rx conn') /\ conn_ok b conn'.
Proof.
  intros G D A I [R _]. unfold l2tp_conn_read.
  destruct (read_packets env quirk conn false packs) as [[c1 na] ok] eqn:E1.
  destruct (read_packets_reading b _ _ _ _ _ _ _ _ I R A E1) as [I1 R1].
  assert (forall c, rx_inv (c_rx c) -> rx_inv (c_rx (l2tp_tunnel_free c))) as Fi
    by (intros c Ic; now destruct (frame_inv _ _ (free_frame c) Ic)).
  destruct (negb ok || unreachable); [eexists _, _; split; [done|]; auto using free_ok|].
  pose proof (clean_ok b env c1 G R1) as C2. pose proof (clean_frame env c1) as Fr.
  destruct (l2tp_tunnel_clean_rtmsqueue env c1) as [c2 ok2]. cbn [fst] in *.
  destruct (frame_inv _ _ Fr I1) as [I2 _].
  destruct (negb ok2); [eexists _, _; split; [done|]; split; [auto | apply free_ok, C2]|].
  destruct (reply_delivers env dispatch c2 na I2) as (c3 & ok3 & taken & E3 & [I3 _ _ _ _ _]). rewrite E3.
  pose proof (reply_keeps b env dispatch c2 na c3 ok3 taken G D C2 E3) as C3.
  destruct (negb ok3); [eexists _, _; split; [done|]; split; [auto | apply free_ok, C3]|].
  destruct (_ && _); eexists _, _; (split; [done|]; split; [auto | first [apply free_ok, C3 | exact C3]]).
Qed.

Lemma step_keeps b conn ev :
  event_ok b ev -> rx_inv (c_rx conn) -> conn_ok b conn ->
  exists conn' taken, step conn ev = Some (conn', taken) /\ rx_inv (c_rx conn') /\ conn_ok b conn'.
Proof.
  intros Ev I H.
  assert (forall c, rx_frame conn c -> conn_ok b c -> exists conn' (taken : list l2tp_packet_t),
    Some (c, []) = Some (conn', taken) /\ rx_inv (c_rx conn') /\ conn_ok b conn') as Fr.
  { intros c Fc Hc. eexists _, _. split; [done|]. now destruct (frame_inv _ _ Fc I). }
  destruct ev; cbn [step event_ok] in *.
  - destruct Ev as (? & ? & ?). now apply read_keeps.
  - apply Fr; [apply rtimeout_frame | now apply rtimeout_ok].
  - apply Fr; [apply hello_frame | now apply hello_ok].
  - apply Fr; [|now apply timeout_ok].
    unfold l2tp_tunnel_timeout. etransitivity; [|apply disconnect_push_frame]. now apply frame_same.
  - apply Fr; unfold l2tp_tunnel_finwait_timeout.
    + etransitivity; [|apply free_frame]. now apply frame_same.
    + apply free_ok. destruct H as [[] _]. now split.
  - destruct Ev. apply Fr; [apply action_frame | now apply action_keeps].
Qed.

Lemma run_keeps b conn evs :
  Forall (event_ok b) evs -> rx_inv (c_rx conn) -> conn_ok b conn ->
  exists conn' taken, run conn evs = Some (conn', taken) /\ rx_inv (c_rx conn') /\ conn_ok b conn'.
Proof.
  intros F. revert conn. induction F as [|ev evs He _ IH]; intros conn I H; [eexists _, _; eauto|].
  destruct (step_keeps b conn ev He I H) as (c1 & t1 & E1 & I1 & H1).
  destruct (IH c1 I1 H1) as (c2 & t2 & E2 & I2 & H2). cbn [run]. rewrite E1. cbn. rewrite E2. cbn. eauto.
Qed.

Lemma rtimeout_step env conn p l :
  all_sent env -> e_timer_ok env = true -> t_rtms_queue (c_tx conn) = p :: l ->
  t_retransmit (c_tx conn) + 1 <= c_max_retransmit conn ->
  let p' := set_Nr p (r_Nr (c_rx conn)) in
  l2tp_rtimeout env conn =
  with_tx (with_sent conn p')
    (tx_timer (tx_rtms (c_tx conn) (p' :: l)) (t_retransmit (c_tx conn) + 1) (t_timer_on (c_tx conn))
       (next_period (c_rtimeout_cap conn) (t_timer_period (c_tx conn)))).
Proof.
  intros Ok Et Eq Hm p'. unfold l2tp_rtimeout. rewrite Eq. cbn [c_max_retransmit with_tx].
  rewrite (proj2 (Z.ltb_ge _ _)) by lia. unfold __l2tp_tunnel_send. rewrite Ok, Et. done.
Qed.

Lemma timeouts_spec env n conn p l :
  all_sent env -> e_timer_ok env = true -> t_rtms_queue (c_tx conn) = p :: l ->
  t_retransmit (c_tx conn) + Z.of_nat n <= c_max_retransmit conn ->
  let c := timeouts env n conn in
  c_sent c = c_sent conn ++ replicate n (set_Nr p (r_Nr (c_rx conn))) /\ c_state c = c_state conn /\
  t_retransmit (c_tx c) = t_retransmit (c_tx conn) + Z.of_nat n /\ c_max_retransmit c = c_max_retransmit conn /\
  (exists p', t_rtms_queue (c_tx c) = p' :: l) /\
  forall acc, finwait_period n (t_timer_period (c_tx conn)) (c_rtimeout_cap conn) acc = acc + elapsed env n conn.
Proof.
  intros Ok Et. revert conn p. induction n as [|n IH]; intros conn p Eq Hm; cbn zeta.
  { cbn. rewrite app_nil_r, Z.add_0_r. split_and!; eauto. intros. lia. }
  cbn [timeouts elapsed finwait_period].
  pose proof (rtimeout_step env conn p l Ok Et Eq ltac:(lia)) as E. cbn zeta in E.
  destruct (IH (l2tp_rtimeout env conn) (set_Nr p (r_Nr (c_rx conn)))) as (S1 & S2 & S3 & S4 & S5 & S6).
  { now rewrite E. }
  { rewrite E. cbn. lia. }
  rewrite S1, S2, S3, S4, E. cbn [c_sent c_state c_tx with_tx with_sent t_retransmit tx_timer c_max_retransmit c_rx].
  split_and!; auto; try lia.
  - rewrite <- app_assoc. done.
  - rewrite <- E. exact S5.
  - intros acc. rewrite E in S6. cbn in S6. rewrite S6. unfold next_period. lia.
Qed.

(** ** The theorems *)

(** C1. Reliable delivery: whatever packets arrive from the peer (lost, repeated
    or out of order, as long as none is half of the sequence numbers away), and
    whatever the handlers, the timers and the rest of the program do in between,
    the messages taken out of the reception queue are the peer's messages from
    the first on, in order, each once; the next number expected counts them. *)
Theorem l2tp_in_order_delivery stream N0 conn evs :
  rx_inv (c_rx conn) -> r_Nr (c_rx conn) = u16 N0 ->
  (forall i p, window (c_rx conn) !! i <> Some (Some p)) ->
  all_arrive stream N0 conn 0 evs ->
  exists conn' taken, run conn evs = Some (conn', taken) /\
    message <$> taken = stream <$> seq 0 (length taken) /\
    r_Nr (c_rx conn') = u16 (N0 + Z.of_nat (length taken)).
Proof.
  intros I N W A. destruct (run_follows stream N0 0 conn evs I) as (c & t & E & _ & [F _] & M); auto.
  - split; [now rewrite Z.add_0_r | intros i p H; now apply W in H].
  - exists c, t. auto.
Qed.


(** Handling of received messages ends, and takes out of the reception queue
    exactly the run of messages that starts at the next expected one, unless a
    handler closes the tunnel; the others keep their places. *)
Theorem l2tp_reply_takes_ready env dispatch conn need_ack :
  rx_inv (c_rx conn) ->
  exists conn' ok taken, l2tp_tunnel_reply env dispatch conn need_ack = Some (conn', ok, taken) /\
    delivers (c_rx conn) conn' taken.
Proof. intros I. now apply reply_delivers. Qed.

(** Sending fills the window of the peer and no more: as many queued messages
    as there is room for leave, in order, numbered from Ns on and with the
    current Nr, and are kept for retransmission; the others stay queued. *)
Theorem l2tp_push_fills_window env conn :
  all_sent env -> tx_inv (c_tx conn) -> acked (c_tx conn) ->
  let tx := c_tx conn in
  let k := Nat.min (length (t_send_queue tx)) (Z.to_nat (t_peer_rcv_wnd_sz tx - outstanding tx)) in
  let msgs := numbered (t_Ns tx) (r_Nr (c_rx conn)) (take k (t_send_queue tx)) in
  let conn' := fst (l2tp_tunnel_push_sendqueue env conn) in
  c_sent conn' = c_sent conn ++ msgs /\ t_rtms_queue (c_tx conn') = t_rtms_queue tx ++ msgs /\
  t_send_queue (c_tx conn') = drop k (t_send_queue tx) /\ t_Ns (c_tx conn') = u16 (t_Ns tx + Z.of_nat k) /\
  outstanding (c_tx conn') <= Z.max (outstanding tx) (t_peer_rcv_wnd_sz tx).
Proof.
  intros Ok I A tx k msgs conn'. unfold conn', l2tp_tunnel_push_sendqueue.
  destruct (push_loop_exact env _ conn 0 Ok I A eq_refl) as (c & E & Es & Er & Eq & EN & Eo & Eon & Ec).
  fold tx in E, Es, Er, Eq, EN, Eo. fold k in E, Es, Er, Eq, EN, Eo. fold tx. rewrite E. fold msgs in Es, Er.
  assert (outstanding (c_tx c) <= Z.max (outstanding tx) (t_peer_rcv_wnd_sz tx)) as Ho.
  { rewrite Eo. unfold k. lia. }
  cbn [negb]. destruct (_ =? 0); [auto|]. destruct (t_timer_on (c_tx c)); [auto|].
  destruct (e_timer_ok env); cbn; auto.
Qed.

(** An acknowledgement of [a] of the messages outstanding removes exactly the
    [a] oldest ones from the retransmission queue and restarts the count of
    retransmissions. *)
Theorem l2tp_ack_removes_prefix env conn pack a :
  tx_inv (c_tx conn) -> acked (c_tx conn) -> outstanding (c_tx conn) = Z.of_nat (length (t_rtms_queue (c_tx conn))) ->
  1 <= a <= outstanding (c_tx conn) -> pack_Nr pack = u16 (t_peer_Nr (c_tx conn) + a) ->
  let conn1 := with_tx conn (ack_tx (c_tx conn) pack) in
  let conn2 := fst (l2tp_tunnel_clean_rtmsqueue env conn1) in
  t_rtms_queue (c_tx conn2) = drop (Z.to_nat a) (t_rtms_queue (c_tx conn)) /\
  outstanding (c_tx conn2) = outstanding (c_tx conn) - a /\ t_retransmit (c_tx conn2) = 0.
Proof.
  intros I A Eo Ha Ep conn1 conn2. pose proof (ti_rtms_len _ I) as RL. pose proof I as [N P _ _ _ _ _].
  assert (ack_tx (c_tx conn) pack = tx_peer (c_tx conn) (pack_Nr pack) (t_peer_rcv_wnd_sz (c_tx conn))) as Ea.
  { unfold ack_tx. unfold outstanding in *.
    rewrite (nsnr_cmp_diff (t_Ns (c_tx conn)) (pack_Nr pack) (u16 (t_Ns (c_tx conn) - t_peer_Nr (c_tx conn)) - a)).
    - rewrite (nsnr_cmp_diff (pack_Nr pack) (t_peer_Nr (c_tx conn)) a); [|lia|].
      + rewrite (proj2 (Z.ltb_ge _ _)) by (apply Z.sgn_nonneg; lia).
        rewrite (proj2 (Z.ltb_lt _ _)) by (apply Z.sgn_pos_iff; lia). done.
      + rewrite Ep. unfold u16. rewrite Zminus_mod_idemp_l. f_equal. lia.
    - lia.
    - rewrite Ep. unfold u16. rewrite Zminus_mod_idemp_r, Zminus_mod_idemp_l. f_equal. lia. }
  assert (outstanding (tx_peer (c_tx conn) (pack_Nr pack) (t_peer_rcv_wnd_sz (c_tx conn))) = outstanding (c_tx conn) - a) as Eo'.
  { unfold outstanding in *. cbn. rewrite Ep. clear -Ha N P. wrap16. }
  assert (tx_inv (c_tx conn1)) as I1 by (apply ack_inv; [done | rewrite Ep; apply u16_range]).
  destruct (clean_inv env conn1 I1) as (_ & _ & Eq). fold conn2 in Eq.
  cbn [conn1 c_tx with_tx] in Eq. rewrite Ea in Eq. cbn [t_rtms_queue tx_peer] in Eq. rewrite Eo' in Eq.
  replace (length (t_rtms_queue (c_tx conn)) - Z.to_nat (outstanding (c_tx conn) - a))%nat with (Z.to_nat a) in Eq by lia.
  split; [done|].
  unfold conn2, l2tp_tunnel_clean_rtmsqueue, conn1. pose proof (drop_acked_spec _ 0 I1) as D.
  cbn [conn1 c_tx with_tx] in D |- *. rewrite Ea in D |- *. rewrite D. cbn zeta.
  rewrite Eo'. cbn [t_rtms_queue tx_peer]. rewrite (proj2 (Z.eqb_neq _ _)) by lia.
  set (tx1 := tx_peer _ _ _) in *. match goal with |- context [match ?q with [] => _ | _ :: _ => _ end] => destruct q end.
  - cbn. auto.
  - destruct (e_timer_ok env); cbn; auto.
Qed.

(** C36. With a silent peer the oldest message is sent again max_retransmit times,
    the same message each time, and the next timeout deletes the tunnel.  The time
    up to the last of these is exactly the time a tunnel that was told to stop,
    with the same settings, stays up to acknowledge them (FIN-WAIT). *)
Theorem l2tp_silent_peer env conn p l :
  all_sent env -> e_timer_ok env = true ->
  t_rtms_queue (c_tx conn) = p :: l -> t_retransmit (c_tx conn) = 0 ->
  t_timer_period (c_tx conn) = c_rtimeout conn -> 0 <= c_max_retransmit conn ->
  tunnel_state_ok (c_state conn) = true ->
  let n := Z.to_nat (c_max_retransmit conn) in
  c_sent (timeouts env n conn) = c_sent conn ++ replicate n (set_Nr p (r_Nr (c_rx conn))) /\
  c_state (timeouts env n conn) = c_state conn /\
  c_state (l2tp_rtimeout env (timeouts env n conn)) = STATE_CLOSE /\
  c_sent (l2tp_rtimeout env (timeouts env n conn)) = c_sent (timeouts env n conn) /\
  elapsed env n conn = finwait_period n (c_rtimeout conn) (c_rtimeout_cap conn) 0.
Proof.
  intros Ok Et Eq Er Ep Hm St n.
  destruct (timeouts_spec env n conn p l Ok Et Eq ltac:(unfold n; lia)) as (S1 & S2 & S3 & S4 & [p' S5] & S6).
  split; [done|]. split; [done|]. rewrite <- Ep, S6.
  set (c := timeouts env n conn) in *. unfold l2tp_rtimeout. rewrite S5. cbn [c_max_retransmit with_tx].
  rewrite (proj2 (Z.ltb_lt _ _)) by lia.
  unfold l2tp_tunnel_free. cbn [c_state with_tx]. rewrite S2. destruct (c_state conn); done.
Qed.

(** A Receive Window Size of 32768 (RECV_WINDOW_SIZE_MAX) is accepted, but with no message outstanding the comparison of the sequence numbers takes
    the window for full: no message is ever sent to that peer. *)
Theorem l2tp_full_window_stalls env conn stop q len :
  0 <= t_Ns (c_tx conn) < 65536 -> t_peer_Nr (c_tx conn) = t_Ns (c_tx conn) ->
  let '(conn1, accepted) := recv_window_size conn 32768 stop in
  accepted = true /\
  let conn2 := with_tx conn1 (tx_queue (c_tx conn1) q len) in
  l2tp_tunnel_push_sendqueue env conn2 = (conn2, 0).
Proof.
  intros N E. cbn. split; [done|]. unfold l2tp_tunnel_push_sendqueue.
  cbn [c_tx with_tx tx_queue t_peer_Nr tx_peer t_peer_rcv_wnd_sz t_send_queue]. destruct q as [|x q]; [done|].
  cbn [push_loop c_tx with_tx t_Ns tx_queue tx_peer]. rewrite E.
  rewrite (nsnr_cmp_diff (t_Ns (c_tx conn)) (u16 (t_Ns (c_tx conn) + 32768)) 32768); [done | lia|].
  unfold u16. rewrite Zminus_mod_idemp_r. replace (t_Ns (c_tx conn) - (t_Ns (c_tx conn) + 32768)) with (-32768) by lia.
  done.
Qed.

(** Messages that acknowledge what was not sent are dropped, except at one
    distance: with nothing outstanding, an Nr that is 32768 ahead of Ns is taken
    as new acknowledgement, and from then on nothing is sent, whatever the
    window, until the peer acknowledges something else. *)
Theorem l2tp_far_ack_accepted env conn pack q len :
  tx_inv (c_tx conn) -> t_peer_Nr (c_tx conn) = t_Ns (c_tx conn) ->
  pack_Nr pack = u16 (t_Ns (c_tx conn) + 32768) ->
  t_peer_Nr (ack_tx (c_tx conn) pack) = pack_Nr pack /\
  let conn2 := with_tx conn (tx_queue (ack_tx (c_tx conn) pack) q len) in
  l2tp_tunnel_push_sendqueue env conn2 = (conn2, 0).
Proof.
  intros [N _ W _ _ _ _] E Ep.
  assert (ack_tx (c_tx conn) pack = tx_peer (c_tx conn) (pack_Nr pack) (t_peer_rcv_wnd_sz (c_tx conn))) as ->.
  { unfold ack_tx. rewrite (nsnr_cmp_diff _ _ 32768); [|lia|].
    - rewrite (nsnr_cmp_diff _ _ 32768); [done | lia|]. rewrite Ep, E. unfold u16. rewrite Zminus_mod_idemp_l. f_equal. lia.
    - rewrite Ep. unfold u16. rewrite Zminus_mod_idemp_r.
      replace (t_Ns (c_tx conn) - (t_Ns (c_tx conn) + 32768)) with (-32768) by lia. done. }
  split; [done|]. unfold l2tp_tunnel_push_sendqueue.
  cbn [c_tx with_tx tx_queue t_peer_Nr tx_peer t_peer_rcv_wnd_sz t_send_queue]. destruct q as [|x q]; [done|].
  cbn [push_loop c_tx with_tx t_Ns tx_queue tx_peer].
  rewrite (nsnr_cmp_diff _ _ (32768 - t_peer_rcv_wnd_sz (c_tx conn))); [|lia|].
  - rewrite (proj2 (Z.leb_le _ _)) by (apply Z.sgn_nonneg; lia). done.
  - rewrite Ep. clear E Ep. pose proof (u16_range (t_Ns (c_tx conn) + 32768)). wrap16.
Qed.

(** ** Witnesses *)
Lemma some_rx_inv : rx_inv (c_rx some_conn).
Proof. split; cbn; try lia. intros i p. do 4 (destruct i as [|i]; [done|]). done. Qed.

Lemma l2tp_in_order_delivery_witness :
  exists conn' taken, run some_conn some_reads = Some (conn', taken) /\
    message <$> taken = some_stream <$> seq 0 (length taken) /\ r_Nr (c_rx conn') = u16 (65535 + Z.of_nat (length taken)).
Proof.
  apply (l2tp_in_order_delivery some_stream 65535 some_conn some_reads some_rx_inv eq_refl).
  - intros i p. do 4 (destruct i as [|i]; [done|]). done.
  - assert (forall R k Nr, (k < 100)%nat -> (R < 100)%nat -> arrives some_stream 65535 R (peer_pack k Nr)) as Ar.
    { intros R k Nr Hk HR. split; [apply u16_range|]. intros _. exists k. split; [done|]. split; [done | lia]. }
    cbn [all_arrive some_reads arrivals]. split.
    { repeat (apply Forall_cons; split); [..|apply Forall_nil_2]; intros p Ep; try done; injection Ep as <-; apply Ar; lia. }
    intros c1 t1 E1. vm_compute in E1. injection E1 as <- <-. split; [done|].
    intros c2 t2 E2. vm_compute in E2. injection E2 as <- <-. split; [|done].
    repeat (apply Forall_cons; split); [..|apply Forall_nil_2]; intros p Ep; injection Ep as <-; apply Ar; cbn; lia.
Defined.

Lemma some_tx_ok b : conn_ok b some_conn.
Proof.
  split; [split|]; try done.
  - split; cbn; try lia; try done. intros i p. do 3 (destruct i as [|i]; [intros [= <-]; reflexivity|]). done.
Qed.

Lemma some_events_ok : Forall (event_ok true) some_reads.
Proof.
  assert (env_good true some_env) by (intros _; done).
  assert (dispatch_ok no_handler) by (intros ? ? ? ? ?; apply Forall_nil_2).
  unfold some_reads. repeat (apply Forall_cons; split); [..|apply Forall_nil_2]; try done.
  all: split; [done|]; split; [done|]; repeat (apply Forall_cons; split); [..|apply Forall_nil_2];
    intros p Ep; try done; injection Ep as <-; vm_compute; split; split; congruence.
Qed.


Lemma l2tp_reply_takes_ready_witness :
  exists conn' ok taken, l2tp_tunnel_reply some_env no_handler some_conn false = Some (conn', ok, taken) /\
    delivers (c_rx some_conn) conn' taken.
Proof. exact (l2tp_reply_takes_ready some_env no_handler some_conn false some_rx_inv). Defined.

Lemma l2tp_push_fills_window_witness :
  c_sent (fst (l2tp_tunnel_push_sendqueue some_env some_conn)) = [set_Nr (set_Ns (own_pack 0) 1) 65535] /\
  outstanding (c_tx (fst (l2tp_tunnel_push_sendqueue some_env some_conn))) <= 4.
Proof.
  destruct (l2tp_push_fills_window some_env some_conn ltac:(done) (rd_tx _ _ (proj1 (some_tx_ok true)))
              (proj2 (some_tx_ok true))) as (E & _ & _ & _ & O).
  split; [exact E | exact O].
Defined.

Lemma l2tp_ack_removes_prefix_witness :
  t_rtms_queue (c_tx (fst (l2tp_tunnel_clean_rtmsqueue some_env
    (with_tx some_conn (ack_tx (c_tx some_conn) (peer_pack 0 0)))))) = [own_pack 0].
Proof.
  exact (proj1 (l2tp_ack_removes_prefix some_env some_conn (peer_pack 0 0) 2 (rd_tx _ _ (proj1 (some_tx_ok true)))
           (proj2 (some_tx_ok true)) eq_refl ltac:(vm_compute; split; discriminate) eq_refl)).
Defined.

Lemma l2tp_silent_peer_witness :
  c_state (l2tp_rtimeout some_env (timeouts some_env 4 some_conn)) = STATE_CLOSE /\
  elapsed some_env 4 some_conn = 9000.
Proof.
  destruct (l2tp_silent_peer some_env some_conn (own_pack 65534) [own_pack 65535; own_pack 0]
              ltac:(done) eq_refl eq_refl eq_refl eq_refl ltac:(cbn; lia) eq_refl) as (_ & _ & C & _ & E).
  split; [exact C | exact E].
Defined.

Lemma l2tp_full_window_stalls_witness :
  let '(conn1, accepted) := recv_window_size idle_conn 32768 None in
  accepted = true /\
  let conn2 := with_tx conn1 (tx_queue (c_tx conn1) [mk_q (own_pack 0) None] 1) in
  l2tp_tunnel_push_sendqueue some_env conn2 = (conn2, 0).
Proof.
  apply (l2tp_full_window_stalls some_env idle_conn None [mk_q (own_pack 0) None] 1); [cbn; lia | reflexivity].
Defined.

Lemma l2tp_far_ack_accepted_witness :
  t_peer_Nr (ack_tx (c_tx idle_conn) (peer_pack 0 32769)) = 32769 /\
  let conn2 := with_tx idle_conn (tx_queue (ack_tx (c_tx idle_conn) (peer_pack 0 32769)) [mk_q (own_pack 0) None] 1) in
  l2tp_tunnel_push_sendqueue some_env conn2 = (conn2, 0).
Proof.
  apply (l2tp_far_ack_accepted some_env idle_conn (peer_pack 0 32769) [mk_q (own_pack 0) None] 1); try reflexivity.
  split; cbn; try lia; try done.
Defined.
