(* ===== verification/L2tpAuth.v ===== *)
(** * L2TP tunnel authentication (accel-pppd/ctrl/l2tp/l2tp.c)

    Challenge and Challenge Response of a tunnel: l2tp_tunnel_genchall,
    l2tp_tunnel_storechall, l2tp_tunnel_genchallresp, l2tp_tunnel_checkchallresp.

    [conn->challenge] is a pointer to heap memory.  [realloc] is glibc's: with
    size 0 it frees the block and returns NULL.  Freeing a block twice and
    reading a freed one are [Oob]. *)
From S2P Require Import Prelude Utils L2tpPacket.

Definition Challenge : Z := 11.
Definition Challenge_Response : Z := 13.
Definition Message_Type_Start_Ctrl_Conn_Reply : Z := 2.
Definition Message_Type_Start_Ctrl_Conn_Connected : Z := 3.

Inductive heap_ptr : Type :=
| PNull
| PLive (block : list Z)
| PDangling.

Record auth_t : Type := mk_auth {
  au_secret : option (list Z);
  au_challenge : heap_ptr;
  au_challenge_len : Z
}.

Definition set_challenge (conn : auth_t) (p : heap_ptr) (len : Z) : auth_t := mk_auth (au_secret conn) p len.

(** [if (conn->challenge) { _free(conn->challenge); conn->challenge = NULL; }]
    and [conn->challenge_len = 0] *)
Definition drop_challenge (conn : auth_t) : res auth_t :=
  match au_challenge conn with
  | PDangling => Oob
  | _ => mret (set_challenge conn PNull 0)
  end.

(** [_realloc]: what the old pointer is afterwards, and the block returned. *)
Definition _realloc (mem : bool) (p : heap_ptr) (size : nat) : res (heap_ptr * option (list Z)) :=
  match p with
  | PDangling => Oob
  | PNull => mret (PNull, if mem then Some (replicate size 0) else None)
  | PLive b =>
      match size with
      | O => mret (PDangling, None)
      | _ => if mem then mret (PDangling, Some (take size b ++ replicate (size - length b) 0))
             else mret (PLive b, None)
      end
  end.

(** The resizing both functions begin with: [None] is the jump to err. *)
Definition resize_challenge (mem : bool) (conn : auth_t) (len : nat) : res (auth_t * bool) :=
  if au_challenge_len conn =? Z.of_nat len then mret (conn, true)
  else
    r ← _realloc mem (au_challenge conn) len;
    match snd r with
    | None => mret (set_challenge conn (fst r) (au_challenge_len conn), false)
    | Some b => mret (set_challenge conn (PLive b) (Z.of_nat len), true)
    end.

(** [memcpy(conn->challenge, ...)] of as many bytes as the block has. *)
Definition write_challenge (conn : auth_t) (bytes : list Z) : res auth_t :=
  match au_challenge conn with
  | PLive b =>
      if decide (length bytes <= length b)%nat
      then mret (set_challenge conn (PLive (bytes ++ drop (length bytes) b)) (au_challenge_len conn))
      else Oob
  | _ => if decide (bytes = []) then mret conn else Oob
  end.

Section Md5.
Variable md5 : list Z -> list Z.

Definition comp_chap_md5 (ident : Z) (secret chall : list Z) : list Z :=
  md5 ([u8 ident] ++ secret ++ chall).

(** [l2tp_tunnel_genchall]: the return code, the tunnel, the packet, the random source. *)
Definition l2tp_tunnel_genchall (mem : bool) (dict : list l2tp_dict_attr_t) (chall_len : Z) (conn : auth_t)
    (pack : l2tp_packet_t) (src : list read_result)
  : res (Z * auth_t * l2tp_packet_t * list read_result) :=
  let err conn pack src := conn ← drop_challenge conn; mret (-1, conn, pack, src) in
  if (chall_len =? 0) || no_secret (au_secret conn) then
    conn ← drop_challenge conn; mret (0, conn, pack, src)
  else
    r ← resize_challenge mem conn (Z.to_nat chall_len);
    let '(conn, ok) := r in
    if negb ok then err conn pack src
    else
      match u_randbuf src (Z.to_nat chall_len) with
      | (None, src) => err conn pack src
      | (Some bytes, src) =>
          conn ← write_challenge conn bytes;
          match au_challenge conn with
          | PLive b =>
              o ← slice 0 (Z.to_nat (au_challenge_len conn)) b;
              a ← l2tp_packet_add_octets md5 mem dict pack Challenge o true src;
              let '(ok, pack, src) := a in
              if negb ok then err conn pack src else mret (0, conn, pack, src)
          | _ => Oob
          end
      end.

(** [chall] is the attribute as received, or NULL. *)
Definition l2tp_tunnel_storechall (mem : bool) (conn : auth_t) (chall : option l2tp_attr_t) : res (Z * auth_t) :=
  let err conn := conn ← drop_challenge conn; mret (-1, conn) in
  match chall with
  | None => conn ← drop_challenge conn; mret (0, conn)
  | Some chall =>
      if no_secret (au_secret conn) then err conn
      else
        r ← resize_challenge mem conn (Z.to_nat (a_length chall));
        let '(conn, ok) := r in
        if negb ok then err conn
        else
          o ← octets_of chall;
          bytes ← slice 0 (Z.to_nat (a_length chall)) o;
          conn ← write_challenge conn bytes;
          mret (0, conn)
  end.

Definition l2tp_tunnel_genchallresp (mem : bool) (dict : list l2tp_dict_attr_t) (msgident : Z) (conn : auth_t)
    (pack : l2tp_packet_t) (src : list read_result) : res (Z * l2tp_packet_t * list read_result) :=
  match au_challenge conn with
  | PNull => mret (0, pack, src)
  | PDangling => Oob
  | PLive b =>
      if no_secret (au_secret conn) then mret (-1, pack, src)
      else
        chall ← slice 0 (Z.to_nat (au_challenge_len conn)) b;
        let challresp := comp_chap_md5 msgident (secret_bytes (au_secret conn)) chall in
        resp ← slice 0 MD5_DIGEST_LENGTH challresp;
        a ← l2tp_packet_add_octets md5 mem dict pack Challenge_Response resp true src;
        let '(ok, pack, src) := a in
        mret (if (ok : bool) then 0 else -1, pack, src)
  end.

Definition l2tp_tunnel_checkchallresp (msgident : Z) (conn : auth_t) (challresp : option l2tp_attr_t) : res Z :=
  if no_secret (au_secret conn) then mret 0
  else
    match au_challenge conn with
    | PNull => mret (-1)
    | PDangling => Oob
    | PLive b =>
        match challresp with
        | None => mret (-1)
        | Some resp =>
            if negb (a_length resp =? Z.of_nat MD5_DIGEST_LENGTH) then mret (-1)
            else
              chall ← slice 0 (Z.to_nat (au_challenge_len conn)) b;
              let challref := comp_chap_md5 msgident (secret_bytes (au_secret conn)) chall in
              o ← octets_of resp;
              r ← slice 0 MD5_DIGEST_LENGTH challref;
              o ← slice 0 MD5_DIGEST_LENGTH o;
              mret (if decide (r = o) then 0 else -1)
        end
    end.
End Md5.

(** ** Vocabulary of the theorems *)

(** The tunnel holds the challenge [c], or none. *)
Definition holds (conn : auth_t) (c : list Z) : Prop :=
  au_challenge conn = PLive c /\ au_challenge_len conn = Z.of_nat (length c).

(** An attribute with the octets [o]. *)
Definition octets_attr (da : l2tp_dict_attr_t) (o : list Z) : l2tp_attr_t :=
  mk_attr da true false (Z.of_nat (length o)) (VOctets o).

(** The dictionary entries of the two attributes: mandatory, hiding up to the sender. *)
Definition auth_dict : list l2tp_dict_attr_t :=
  [mk_da Challenge ATTR_TYPE_OCTETS 1 (-1); mk_da Challenge_Response ATTR_TYPE_OCTETS 1 (-1)].
Definition no_auth : auth_t := mk_auth (Some [115; 51]) PNull 0.
Definition some_auth : auth_t := mk_auth (Some [115; 51]) (PLive [1; 2; 3]) 3.
Definition empty_pack : l2tp_packet_t := mk_packet (mk_hdr 51202 0 7 0 0 0) [] None None false.

(** Well-formed: the length goes with the block. *)
Definition auth_ok (conn : auth_t) : Prop :=
  match au_challenge conn with
  | PNull => au_challenge_len conn = 0
  | PLive b => au_challenge_len conn = Z.of_nat (length b)
  | PDangling => False
  end.

(** ** The challenge in memory *)
Lemma slice_all (l : list Z) n : n = Z.of_nat (length l) -> slice 0 (Z.to_nat n) l = Ok l.
Proof. intros ->. rewrite Nat2Z.id. apply slice_whole. Qed.

Lemma resize_spec mem conn len conn' ok :
  auth_ok conn -> (0 < len)%nat -> resize_challenge mem conn len = Ok (conn', ok) ->
  auth_ok conn' /\ au_secret conn' = au_secret conn /\
  (ok = true -> exists b, au_challenge conn' = PLive b /\ length b = len).
Proof.
  unfold resize_challenge, auth_ok. intros A Hl H.
  destruct (au_challenge_len conn =? Z.of_nat len) eqn:E; zbool.
  { injection H as <- <-. split; [done|]. split; [done|]. intros _.
    destruct (au_challenge conn) as [|b|]; [lia | exists b; split; [done | lia] | done]. }
  destruct (au_challenge conn) as [|b|] eqn:Ec; [| |done]; cbn in H.
  - destruct mem; cbn in H; injection H as <- <-; cbn; (split; [rewrite ?length_replicate; done|]; split; [done|]; try done).
    intros _. eexists. split; [done|]. apply length_replicate.
  - destruct len as [|len]; [lia|]. destruct mem; cbn [mbind res_bind mret res_ret snd fst] in H; injection H as <- <-;
      cbn [set_challenge au_challenge au_challenge_len au_secret].
    + assert (length (take (S len) b ++ replicate (S len - length b) 0) = S len) as L
        by (rewrite length_app, length_take, length_replicate; lia).
      split; [now rewrite L|]. split; [done|]. intros _. eexists. split; [done | exact L].
    + split; [done|]. split; done.
Qed.

Lemma resize_total mem conn len :
  auth_ok conn -> (0 < len)%nat -> exists conn' ok, resize_challenge mem conn len = Ok (conn', ok) /\ (mem = true -> ok = true).
Proof.
  unfold resize_challenge, auth_ok. intros A Hl. destruct (_ =? _); [eauto|].
  destruct (au_challenge conn) as [|b|]; [| |done]; cbn.
  - destruct mem; cbn; eauto.
  - destruct len; [lia|]. destruct mem; cbn; eauto.
Qed.

Lemma write_spec conn b bytes :
  au_challenge conn = PLive b -> length bytes = length b ->
  write_challenge conn bytes = Ok (set_challenge conn (PLive bytes) (au_challenge_len conn)).
Proof.
  intros E L. unfold write_challenge. rewrite E, decide_True by lia. now rewrite L, drop_all, app_nil_r.
Qed.

Lemma drop_ok conn : auth_ok conn -> drop_challenge conn = Ok (set_challenge conn PNull 0).
Proof. unfold auth_ok, drop_challenge. now destruct (au_challenge conn). Qed.

(** A challenge that is not empty is stored, or refused for want of memory. *)
Lemma storechall_spec mem conn da c s :
  auth_ok conn -> c <> [] -> au_secret conn = Some s -> s <> [] ->
  exists r conn', l2tp_tunnel_storechall mem conn (Some (octets_attr da c)) = Ok (r, conn') /\
    auth_ok conn' /\ au_secret conn' = au_secret conn /\ (mem = true -> r = 0 /\ holds conn' c).
Proof.
  intros A Hc Es Hs. unfold l2tp_tunnel_storechall, octets_attr. cbn [a_length a_val octets_of]. rewrite Nat2Z.id.
  assert (no_secret (au_secret conn) = false) as -> by (rewrite Es; now destruct s).
  assert (0 < length c)%nat as Hl by (destruct c; [done | cbn; lia]).
  destruct (resize_total mem conn (length c) A Hl) as (c1 & ok & E & Hok). rewrite E. cbn [mbind res_bind].
  destruct (resize_spec _ _ _ _ _ A Hl E) as (A1 & S1 & B1). destruct ok; cbn [negb].
  - destruct (B1 eq_refl) as (b & Eb & Lb). rewrite slice_whole. cbn [mbind res_bind].
    rewrite (write_spec c1 b c Eb (eq_sym Lb)). cbn. eexists _, _. split; [done|].
    assert (au_challenge_len c1 = Z.of_nat (length c)) as El by (unfold auth_ok in A1; rewrite Eb in A1; now rewrite A1, Lb).
    split; [exact El|]. split; [done|]. intros _. split; [done|]. now split.
  - rewrite (drop_ok c1 A1). cbn. eexists _, _. split; [done|]. split; [done|]. split; [done|].
    intros M. now specialize (Hok M).
Qed.

(** What [l2tp_packet_add_octets] adds to a packet that does not hide. *)
Lemma add_octets_clear md5 dict pack id da o src :
  l2tp_dict_find_attr_by_id dict id = Some da -> da_M da = 1 -> da_H da = -1 -> p_hide_avps pack = false ->
  o <> [] -> Z.of_nat (length o) <= 1023 ->
  l2tp_packet_add_octets md5 true dict pack id o true src = Ok (true, add_attr pack (octets_attr da o), src).
Proof.
  intros D M H P Ho L. unfold l2tp_packet_add_octets, attr_alloc. rewrite D, M, H, P. cbn [negb Z.eqb Pos.eqb].
  unfold L2TP_AVP_LEN_MASK. rewrite (proj2 (Z.ltb_ge _ _)) by lia.
  rewrite (proj2 (Z.eqb_neq _ _)) by (destruct o; [done | cbn; lia]). done.
Qed.

Section Auth.
Variable md5 : list Z -> list Z.
Hypothesis digest : digest_ok md5.

Lemma chap_length ident s c : length (comp_chap_md5 md5 ident s c) = MD5_DIGEST_LENGTH.
Proof. apply digest. Qed.

Lemma check_holds ident conn c s da o :
  holds conn c -> au_secret conn = Some s -> s <> [] ->
  l2tp_tunnel_checkchallresp md5 ident conn (Some (octets_attr da o))
  = Ok (if decide (o = comp_chap_md5 md5 ident s c) then 0 else -1).
Proof.
  intros [Hc Hl] Es Hs. unfold l2tp_tunnel_checkchallresp, octets_attr. rewrite Es, Hc.
  assert (no_secret (Some s) = false) as -> by now destruct s. cbn [a_length a_val octets_of secret_bytes].
  pose proof (chap_length ident s c) as L.
  destruct (Z.of_nat (length o) =? Z.of_nat MD5_DIGEST_LENGTH) eqn:E; zbool; cbn [negb].
  - rewrite (slice_all c _ Hl). cbn [mbind res_bind].
    rewrite <- L at 1. rewrite slice_whole. cbn [mbind res_bind].
    replace MD5_DIGEST_LENGTH with (length o) by lia. rewrite slice_whole. cbn [mbind res_bind mret res_ret].
    repeat case_decide; solve [done | congruence].
  - rewrite decide_False; [done|]. intros ->. rewrite L in E. done.
Qed.
End Auth.

(** ** The theorems *)

(** The peer is accepted exactly when it answers the challenge with the
    digest of the message identifier, the secret and the challenge; without an
    answer it is refused, and a tunnel without a secret accepts everybody. *)
Theorem l2tp_checkchallresp_exact md5 ident conn c s da o :
  digest_ok md5 -> holds conn c -> au_secret conn = Some s ->
  (s <> [] -> (l2tp_tunnel_checkchallresp md5 ident conn (Some (octets_attr da o)) = Ok 0 <->
               o = md5 ([u8 ident] ++ s ++ c))) /\
  (s <> [] -> l2tp_tunnel_checkchallresp md5 ident conn None = Ok (-1)) /\
  (s = [] -> forall resp, l2tp_tunnel_checkchallresp md5 ident conn resp = Ok 0).
Proof.
  intros D H Es. split_and!.
  - intros Hs. rewrite (check_holds md5 D ident conn c s da o H Es Hs). unfold comp_chap_md5. case_decide; [done|].
    split; [discriminate | done].
  - intros Hs. unfold l2tp_tunnel_checkchallresp. rewrite Es. destruct H as [-> _]. now destruct s.
  - intros -> resp. unfold l2tp_tunnel_checkchallresp. now rewrite Es.
Qed.


(** Storing a challenge is safe except in one case: an empty Challenge from
    the peer while the tunnel holds a challenge of its own makes [realloc] free
    that block, and the error path frees it again. *)
Theorem l2tp_storechall_double_free mem conn da o s :
  auth_ok conn -> au_secret conn = Some s -> s <> [] ->
  (l2tp_tunnel_storechall mem conn (Some (octets_attr da o)) = Oob <->
   o = [] /\ exists c, au_challenge conn = PLive c /\ c <> []).
Proof.
  intros A Es Hs. split.
  - intros H. destruct o as [|x o].
    + split; [done|]. unfold l2tp_tunnel_storechall, resize_challenge, auth_ok in *. rewrite Es in H.
      destruct s as [|y s]; [done|]. cbn [no_secret octets_attr a_length length] in H.
      change (Z.to_nat (Z.of_nat 0)) with 0%nat in H. change (Z.of_nat 0) with 0 in H.
      destruct (au_challenge conn) as [|c|] eqn:Ec; [|exists c; split; [done|] | done].
      * rewrite A in H. cbn in H. unfold write_challenge in H. rewrite ?Ec in H. done.
      * intros ->. rewrite A in H. change (Z.of_nat (length [])) with 0 in H. cbn in H. unfold write_challenge in H. rewrite ?Ec in H. done.
    + destruct (storechall_spec mem conn da (x :: o) s A ltac:(done) Es Hs) as (r & c' & E & _). now rewrite E in H.
  - intros [-> (c & Ec & Hc)]. unfold l2tp_tunnel_storechall, resize_challenge, auth_ok in *.
    rewrite Ec in A. rewrite Es. destruct s as [|y s]; [done|].
    cbn [no_secret octets_attr a_length length Z.of_nat Z.to_nat]. rewrite A.
    rewrite (proj2 (Z.eqb_neq _ _)) by (destruct c; [done | cbn; lia]). rewrite Ec. done.
Qed.

(** ** Witnesses *)
Lemma l2tp_checkchallresp_exact_witness :
  l2tp_tunnel_checkchallresp sum_digest 2 some_auth
    (Some (octets_attr (mk_da Challenge_Response ATTR_TYPE_OCTETS 1 (-1)) (sum_digest [2; 115; 51; 1; 2; 3]))) = Ok 0 /\
  l2tp_tunnel_checkchallresp sum_digest 2 some_auth None = Ok (-1).
Proof.
  destruct (l2tp_checkchallresp_exact sum_digest 2 some_auth [1; 2; 3] [115; 51]
              (mk_da Challenge_Response ATTR_TYPE_OCTETS 1 (-1)) (sum_digest [2; 115; 51; 1; 2; 3])
              sum_digest_ok ltac:(split; reflexivity) eq_refl) as (C & N & _).
  split; [apply C; [done | reflexivity] | now apply N].
Defined.


Lemma l2tp_storechall_double_free_witness :
  l2tp_tunnel_storechall true some_auth (Some (octets_attr (mk_da Challenge ATTR_TYPE_OCTETS 1 (-1)) [])) = Oob.
Proof.
  apply (l2tp_storechall_double_free true some_auth (mk_da Challenge ATTR_TYPE_OCTETS 1 (-1)) [] [115; 51]); try reflexivity; try done.
  split; [reflexivity|]. exists [1; 2; 3]. done.
Defined.
