(* ===== verification/PppLcp.v ===== *)
(** * The Link Control Protocol (accel-pppd/ppp/ppp_lcp.c, lcp_opt_*.c, ppp_auth.c)

    LCP on top of the automaton of PppFsm.v: the options of the link, the
    Configure messages, echo requests and the dispatch of received packets.

    The state of the layer is [lcp_t], the [W] of the automaton.  The option
    handlers, function pointers in C, are resolved: an option is one of the
    constructors of [opt_data].  [l_sent] are the frames given to the channel,
    [l_calls] the calls to the session layer; what the session does then is a
    later event.  [l_fault] is set by an access outside of a buffer, [l_stuck] when
    [nzmagic] ran out of the random numbers given.  Messages for the log are left
    out.  The results of clocks, counters and ioctls are the argument [env]. *)
From S2P Require Import Prelude Utils PppFsm.

Definition PPP_HEADERLEN : Z := 4.
Definition PPP_HDRLEN : Z := 4.
Definition PPP_MTU : Z := 1500.
Definition PPP_LCP : Z := 49185.
Definition LCP_HDR : nat := 6.   (* sizeof(struct lcp_hdr_t) *)

Definition CONFREQ : Z := 1.
Definition CONFACK : Z := 2.
Definition CONFNAK : Z := 3.
Definition CONFREJ : Z := 4.
Definition TERMREQ : Z := 5.
Definition TERMACK : Z := 6.
Definition CODEREJ : Z := 7.
Definition PROTOREJ : Z := 8.
Definition ECHOREQ : Z := 9.
Definition ECHOREP : Z := 10.
Definition DISCARDREQ : Z := 11.
Definition IDENT : Z := 12.

Definition CI_MRU : Z := 1.
Definition CI_AUTH : Z := 3.
Definition CI_MAGIC : Z := 5.
Definition CI_PCOMP : Z := 7.
Definition CI_ACCOMP : Z := 8.

Definition LCP_OPT_NONE : Z := 0.
Definition LCP_OPT_ACK : Z := 1.
Definition LCP_OPT_NAK : Z := -1.
Definition LCP_OPT_REJ : Z := -2.
Definition LCP_OPT_FAIL : Z := -3.

Inductive term_cause : Type := TERM_USER_REQUEST | TERM_USER_ERROR | TERM_NAS_ERROR | TERM_LOST_CARRIER.

Inductive session_call : Type :=
| ap_session_terminate (cause : term_cause) (hard : bool)
| ppp_layer_started
| ppp_layer_finished
| ppp_recv_proto_rej (proto : Z).

(** The authentication protocols that register with [ppp_auth_register_handler]. *)
Inductive auth_handler : Type := auth_pap | auth_chap_md5 | auth_mschap_v1 | auth_mschap_v2.

(** [struct auth_data_t] *)
Record auth_data_t : Type := mk_ad {
  ad_h : auth_handler;
  ad_proto : Z;
  ad_len : Z;
  ad_state : Z
}.

Inductive opt_data : Type :=
| OMru (mru mtu : Z) (naked rejected : bool)
| OMagic (magic : Z)
| OPcomp (pcomp : Z)
| OAccomp (accomp : Z)
| OAuth (auth_list : list auth_data_t) (auth : option nat).

Record lcp_option_t : Type := mk_opt {
  o_id : Z;
  o_len : Z;
  o_state : Z;
  o_data : opt_data
}.

(** [struct recv_opt_t]: the bytes of the option, header included. *)
Record recv_opt_t : Type := mk_ropt {
  ro_bytes : list Z;
  ro_state : Z
}.

Inductive option_handler : Type := mru_opt_hnd | magic_opt_hnd | pcomp_opt_hnd | accomp_opt_hnd | auth_opt_hnd.

(** The registered handlers, in the order in which the modules were loaded, and
    the configuration. *)
Record lcp_conf : Type := mk_lcp_conf {
  option_handlers : list option_handler;
  auth_handlers : list auth_handler;
  conf_echo_interval : Z;
  conf_echo_failure : Z;
  conf_echo_timeout : Z;
  conf_noauth : bool;
  conf_mtu : Z;
  conf_mru : Z;
  conf_min_mtu : Z;
  conf_max_mtu : Z;
  conf_pcomp : Z;
  conf_accomp : Z;
  ctrl_max_mtu : Z          (* lcp->ppp->ses.ctrl->max_mtu *)
}.

Record lcp_env : Type := mk_lenv {
  le_conf : lcp_conf;
  le_time : Z;              (* _time() *)
  le_rx_packets : Z;        (* ap_session_read_stats *)
  le_ioctl_ok : bool;       (* PPPIOCGFLAGS and PPPIOCSFLAGS succeed *)
  le_timer_ok : bool
}.

Record lcp_t : Type := mk_lcp {
  l_options : list lcp_option_t;
  l_echo_timer : bool;
  l_echo_sent : Z;
  l_magic : Z;
  l_last_ipackets : Z;
  l_last_echo_ts : Z;
  l_ropt_list : list recv_opt_t;
  l_ropt_len : Z;
  l_conf_req_len : Z;
  l_started : bool;
  l_mru : Z;                (* lcp->ppp->mru *)
  l_mtu : Z;                (* lcp->ppp->mtu *)
  l_flags : Z;              (* flags of the channel *)
  l_terminating : bool;     (* lcp->ppp->ses.terminating *)
  l_buf : list Z;           (* the frame received, lcp->ppp->buf *)
  l_random : list Z;        (* what random() will return *)
  l_sent : list (list Z);
  l_calls : list session_call;
  l_fault : bool;
  l_stuck : bool
}.

(** ** Field updates *)
Definition lw_options (w : lcp_t) (x : list lcp_option_t) : lcp_t :=
  mk_lcp x (l_echo_timer w) (l_echo_sent w) (l_magic w) (l_last_ipackets w) (l_last_echo_ts w) (l_ropt_list w)
    (l_ropt_len w) (l_conf_req_len w) (l_started w) (l_mru w) (l_mtu w) (l_flags w) (l_terminating w) (l_buf w)
    (l_random w) (l_sent w) (l_calls w) (l_fault w) (l_stuck w).
Definition lw_echo (w : lcp_t) (timer : bool) (sent ipackets ts : Z) : lcp_t :=
  mk_lcp (l_options w) timer sent (l_magic w) ipackets ts (l_ropt_list w)
    (l_ropt_len w) (l_conf_req_len w) (l_started w) (l_mru w) (l_mtu w) (l_flags w) (l_terminating w) (l_buf w)
    (l_random w) (l_sent w) (l_calls w) (l_fault w) (l_stuck w).
Definition lw_ropts (w : lcp_t) (x : list recv_opt_t) (len : Z) : lcp_t :=
  mk_lcp (l_options w) (l_echo_timer w) (l_echo_sent w) (l_magic w) (l_last_ipackets w) (l_last_echo_ts w) x
    len (l_conf_req_len w) (l_started w) (l_mru w) (l_mtu w) (l_flags w) (l_terminating w) (l_buf w)
    (l_random w) (l_sent w) (l_calls w) (l_fault w) (l_stuck w).
Definition lw_req_len (w : lcp_t) (x : Z) : lcp_t :=
  mk_lcp (l_options w) (l_echo_timer w) (l_echo_sent w) (l_magic w) (l_last_ipackets w) (l_last_echo_ts w) (l_ropt_list w)
    (l_ropt_len w) x (l_started w) (l_mru w) (l_mtu w) (l_flags w) (l_terminating w) (l_buf w)
    (l_random w) (l_sent w) (l_calls w) (l_fault w) (l_stuck w).
Definition lw_started (w : lcp_t) (x : bool) : lcp_t :=
  mk_lcp (l_options w) (l_echo_timer w) (l_echo_sent w) (l_magic w) (l_last_ipackets w) (l_last_echo_ts w) (l_ropt_list w)
    (l_ropt_len w) (l_conf_req_len w) x (l_mru w) (l_mtu w) (l_flags w) (l_terminating w) (l_buf w)
    (l_random w) (l_sent w) (l_calls w) (l_fault w) (l_stuck w).
(** What the option handlers change besides the option. *)
Definition lw_link (w : lcp_t) (magic mru mtu flags : Z) : lcp_t :=
  mk_lcp (l_options w) (l_echo_timer w) (l_echo_sent w) magic (l_last_ipackets w) (l_last_echo_ts w) (l_ropt_list w)
    (l_ropt_len w) (l_conf_req_len w) (l_started w) mru mtu flags (l_terminating w) (l_buf w)
    (l_random w) (l_sent w) (l_calls w) (l_fault w) (l_stuck w).
Definition lw_random (w : lcp_t) (x : list Z) (stuck : bool) : lcp_t :=
  mk_lcp (l_options w) (l_echo_timer w) (l_echo_sent w) (l_magic w) (l_last_ipackets w) (l_last_echo_ts w) (l_ropt_list w)
    (l_ropt_len w) (l_conf_req_len w) (l_started w) (l_mru w) (l_mtu w) (l_flags w) (l_terminating w) (l_buf w)
    x (l_sent w) (l_calls w) (l_fault w) (l_stuck w || stuck).
Definition lw_buf (w : lcp_t) (x : list Z) : lcp_t :=
  mk_lcp (l_options w) (l_echo_timer w) (l_echo_sent w) (l_magic w) (l_last_ipackets w) (l_last_echo_ts w) (l_ropt_list w)
    (l_ropt_len w) (l_conf_req_len w) (l_started w) (l_mru w) (l_mtu w) (l_flags w) (l_terminating w) x
    (l_random w) (l_sent w) (l_calls w) (l_fault w) (l_stuck w).
Definition lw_fault (w : lcp_t) : lcp_t :=
  mk_lcp (l_options w) (l_echo_timer w) (l_echo_sent w) (l_magic w) (l_last_ipackets w) (l_last_echo_ts w) (l_ropt_list w)
    (l_ropt_len w) (l_conf_req_len w) (l_started w) (l_mru w) (l_mtu w) (l_flags w) (l_terminating w) (l_buf w)
    (l_random w) (l_sent w) (l_calls w) true (l_stuck w).
(** [ppp_chan_send] *)
Definition chan_send (frame : list Z) (w : lcp_t) : lcp_t :=
  mk_lcp (l_options w) (l_echo_timer w) (l_echo_sent w) (l_magic w) (l_last_ipackets w) (l_last_echo_ts w) (l_ropt_list w)
    (l_ropt_len w) (l_conf_req_len w) (l_started w) (l_mru w) (l_mtu w) (l_flags w) (l_terminating w) (l_buf w)
    (l_random w) (l_sent w ++ [frame]) (l_calls w) (l_fault w) (l_stuck w).
(** A call of the session layer; [ap_session_terminate] marks the session. *)
Definition session_do (c : session_call) (w : lcp_t) : lcp_t :=
  mk_lcp (l_options w) (l_echo_timer w) (l_echo_sent w) (l_magic w) (l_last_ipackets w) (l_last_echo_ts w) (l_ropt_list w)
    (l_ropt_len w) (l_conf_req_len w) (l_started w) (l_mru w) (l_mtu w) (l_flags w)
    (match c with ap_session_terminate _ _ => true | _ => l_terminating w end) (l_buf w)
    (l_random w) (l_sent w) (l_calls w ++ [c]) (l_fault w) (l_stuck w).

Definition set_o_state (o : lcp_option_t) (st : Z) : lcp_option_t := mk_opt (o_id o) (o_len o) st (o_data o).
Definition set_o_data (o : lcp_option_t) (d : opt_data) : lcp_option_t := mk_opt (o_id o) (o_len o) (o_state o) d.
Definition set_ad_state (d : auth_data_t) (st : Z) : auth_data_t := mk_ad (ad_h d) (ad_proto d) (ad_len d) st.

(** ** The option handlers

    A handler gets the state of the layer and its option; [b] are the bytes of
    the option in the packet, header first.  Those that write return the bytes. *)
Definition opt_handler : Type := lcp_t -> lcp_option_t -> lcp_t * lcp_option_t * Z.

(** *** Maximum-Receive-Unit (lcp_opt_mru.c) *)
Definition mru_init (c : lcp_conf) (w : lcp_t) : lcp_option_t * lcp_t :=
  let limit x := if conf_max_mtu c <? x then conf_max_mtu c else x in
  let wanted x := if negb (x =? 0) && (x <=? ctrl_max_mtu c) then x else ctrl_max_mtu c in
  let mru := limit (wanted (conf_mru c)) in
  let mtu := limit (wanted (conf_mtu c)) in
  (mk_opt CI_MRU 4 LCP_OPT_NONE (OMru mru mtu false false), lw_link w (l_magic w) PPP_MTU mtu (l_flags w)).

Definition mru_send_conf_req (mru : Z) (naked rejected : bool) : list Z :=
  if naked || rejected then [] else [CI_MRU; 4] ++ be_encode 2 mru.

Definition mru_send_conf_nak (mtu : Z) : list Z := [CI_MRU; 4] ++ be_encode 2 mtu.

Definition mru_recv_conf_req (c : lcp_conf) (mru : Z) (naked rejected : bool) (b : list Z) : opt_handler :=
  fun w o =>
  if negb (Z.of_nat (length b) =? 4) then (w, o, LCP_OPT_REJ) else
  match u_read_be16 b 2 with
  | Ok v =>
      if (v <? conf_min_mtu c) || (ctrl_max_mtu c <? v) || (conf_max_mtu c <? v) then (w, o, LCP_OPT_NAK)
      else (lw_link w (l_magic w) (l_mru w) v (l_flags w), set_o_data o (OMru mru v naked rejected), LCP_OPT_ACK)
  | _ => (lw_fault w, o, LCP_OPT_FAIL)
  end.

Definition mru_recv_conf_ack (mru : Z) : opt_handler :=
  fun w o => (lw_link w (l_magic w) mru (l_mtu w) (l_flags w), o, 0).

Definition mru_recv_conf_nak (mru mtu : Z) (rejected : bool) : opt_handler :=
  fun w o => (w, set_o_data o (OMru mru mtu true rejected), 0).

Definition mru_recv_conf_rej (mru mtu : Z) (naked : bool) : opt_handler :=
  fun w o => (w, set_o_data o (OMru mru mtu naked true), 0).

(** *** Magic-Number (lcp_opt_magic.c)

    A magic number is kept as the 32 bits the C [int] has. *)
Fixpoint nzmagic (old : Z) (random : list Z) : option (Z * list Z) :=
  match random with
  | [] => None
  | magic :: random => if (magic =? old) || (magic =? 0) then nzmagic old random else Some (magic, random)
  end.

(** The call of [nzmagic], with the random numbers of the layer. *)
Definition call_nzmagic (old : Z) (w : lcp_t) : Z * lcp_t :=
  match nzmagic old (l_random w) with
  | Some (m, random) => (u32 m, lw_random w random false)
  | None => (0, lw_random w [] true)
  end.

Definition magic_init (w : lcp_t) : lcp_option_t * lcp_t :=
  let '(m, w) := call_nzmagic 0 w in
  (mk_opt CI_MAGIC 6 LCP_OPT_NONE (OMagic m), lw_link w m (l_mru w) (l_mtu w) (l_flags w)).

Definition magic_send_conf_req (magic : Z) : list Z :=
  if magic =? 0 then [] else [CI_MAGIC; 6] ++ be_encode 4 magic.

Definition magic_send_conf_nak (magic : Z) (w : lcp_t) : list Z * lcp_t :=
  let '(m, w) := call_nzmagic magic w in ([CI_MAGIC; 6] ++ be_encode 4 m, w).

Definition magic_recv_conf_req (magic : Z) (b : list Z) : opt_handler :=
  fun w o =>
  if negb (Z.of_nat (length b) =? 6) then (w, o, LCP_OPT_REJ) else
  match u_read_be32 b 2 with
  | Ok v => if negb (magic =? 0) && (magic =? v) then (w, o, LCP_OPT_NAK) else (w, o, LCP_OPT_ACK)
  | _ => (lw_fault w, o, LCP_OPT_FAIL)
  end.

Definition magic_recv_conf_rej : opt_handler :=
  fun w o => (lw_link w 0 (l_mru w) (l_mtu w) (l_flags w), set_o_data o (OMagic 0), 0).

Definition magic_recv_conf_nak (magic : Z) (b : list Z) : opt_handler :=
  fun w o =>
  if negb (Z.of_nat (length b) =? 6) then (w, o, -1) else
  match u_read_be32 b 2 with
  | Ok v =>
      if negb (magic =? 0) && (magic =? v) then (w, o, -1)
      else
        let '(m, w) := if v =? 0 then call_nzmagic magic w else (v, w) in
        (lw_link w m (l_mru w) (l_mtu w) (l_flags w), set_o_data o (OMagic m), 0)
  | _ => (lw_fault w, o, -1)
  end.

(** *** Protocol-Field and Address-and-Control-Field-Compression

    lcp_opt_pcomp.c and lcp_opt_accomp.c differ in the option and the flag only. *)
Definition SC_COMP_PROT : Z := 1.
Definition SC_COMP_AC : Z := 2.

Definition pcomp_init (c : lcp_conf) : lcp_option_t := mk_opt CI_PCOMP 2 LCP_OPT_NONE (OPcomp (conf_pcomp c)).
Definition accomp_init (c : lcp_conf) : lcp_option_t := mk_opt CI_ACCOMP 2 LCP_OPT_NONE (OAccomp (conf_accomp c)).

Definition pcomp_send_conf_req (pcomp : Z) : list Z := if Z.testbit pcomp 0 then [CI_PCOMP; 2] else [].
Definition accomp_send_conf_req (accomp : Z) : list Z := if Z.testbit accomp 0 then [CI_ACCOMP; 2] else [].

Definition pcomp_recv_conf_req (pcomp : Z) (b : list Z) : opt_handler :=
  fun w o =>
  if negb (Z.of_nat (length b) =? 2) then (w, o, LCP_OPT_REJ)
  else (w, o, if Z.testbit pcomp 1 then LCP_OPT_ACK else LCP_OPT_REJ).
Definition accomp_recv_conf_req (accomp : Z) (b : list Z) : opt_handler :=
  fun w o =>
  if negb (Z.of_nat (length b) =? 2) then (w, o, LCP_OPT_REJ)
  else (w, o, if Z.testbit accomp 1 then LCP_OPT_ACK else LCP_OPT_REJ).

Definition pcomp_recv_conf_rej (pcomp : Z) : opt_handler :=
  fun w o => (w, set_o_data o (OPcomp (Z.clearbit pcomp 0)), 0).
Definition accomp_recv_conf_rej (accomp : Z) : opt_handler :=
  fun w o => (w, set_o_data o (OAccomp (Z.clearbit accomp 0)), 0).

Definition pcomp_recv_conf_nak (pcomp : Z) (b : list Z) : opt_handler :=
  fun w o => if negb (Z.of_nat (length b) =? 2) then (w, o, -1) else pcomp_recv_conf_rej pcomp w o.
Definition accomp_recv_conf_nak (accomp : Z) (b : list Z) : opt_handler :=
  fun w o => if negb (Z.of_nat (length b) =? 2) then (w, o, -1) else accomp_recv_conf_rej accomp w o.

(** [flags &= ~bit; if (on) flags |= bit] between the two ioctls. *)
Definition set_flag (e : lcp_env) (on : bool) (bit : Z) (w : lcp_t) : lcp_t * Z :=
  if le_ioctl_ok e then
    let flags := Z.ldiff (l_flags w) bit in
    (lw_link w (l_magic w) (l_mru w) (l_mtu w) (if on then Z.lor flags bit else flags), 0)
  else (w, -1).

Definition pcomp_recv_conf_ack (e : lcp_env) (pcomp : Z) : opt_handler :=
  fun w o => let '(w, r) := set_flag e (Z.testbit pcomp 0) SC_COMP_PROT w in (w, o, r).
Definition accomp_recv_conf_ack (e : lcp_env) (accomp : Z) : opt_handler :=
  fun w o => let '(w, r) := set_flag e (Z.testbit accomp 0) SC_COMP_AC w in (w, o, r).

(** *** Authentication-Protocol (ppp_auth.c, auth/auth_*.c) *)
Definition PPP_PAP : Z := 49187.
Definition PPP_CHAP : Z := 49699.

Definition auth_data_init (h : auth_handler) : auth_data_t :=
  match h with
  | auth_pap => mk_ad h PPP_PAP 0 LCP_OPT_NONE
  | auth_chap_md5 | auth_mschap_v1 | auth_mschap_v2 => mk_ad h PPP_CHAP 1 LCP_OPT_NONE
  end.

(** [lcp_send_conf_req] of the handlers: what follows the protocol. *)
Definition auth_algorithm (h : auth_handler) : list Z :=
  match h with
  | auth_pap => []
  | auth_chap_md5 => [5]
  | auth_mschap_v1 => [128]
  | auth_mschap_v2 => [129]
  end.

Definition auth_init (c : lcp_conf) : lcp_option_t :=
  let ds := if conf_noauth c then [] else map auth_data_init (auth_handlers c) in
  mk_opt CI_AUTH (4 + foldl (fun l d => if l <? ad_len d then ad_len d else l) 0 ds) LCP_OPT_NONE (OAuth ds None).

(** The first protocol that was not refused. *)
Fixpoint auth_next (i : nat) (ds : list auth_data_t) : option nat :=
  match ds with
  | [] => None
  | d :: ds =>
      if (ad_state d =? LCP_OPT_NAK) || (ad_state d =? LCP_OPT_REJ) then auth_next (S i) ds else Some i
  end.

(** The choice of [auth_opt->auth]. *)
Definition auth_select (ds : list auth_data_t) (auth : option nat) : option nat :=
  let refused :=
    match auth with
    | None => true
    | Some i => match ds !! i with Some d => ad_state d =? LCP_OPT_NAK | None => false end
    end in
  if refused then match auth_next 0 ds with Some i => Some i | None => auth end else auth.

(** [None] is the access through a null [auth_opt->auth]. *)
Definition auth_send_conf_req (c : lcp_conf) (ds : list auth_data_t) (auth : option nat)
  : option (option nat * list Z) :=
  if (length ds =? 0)%nat || conf_noauth c then Some (auth, [])
  else
    let auth := auth_select ds auth in
    d ← auth ≫= (fun i => ds !! i);
    let n := auth_algorithm (ad_h d) in
    Some (auth, [CI_AUTH; u8 (4 + Z.of_nat (length n))] ++ be_encode 2 (ad_proto d) ++ n).

Definition auth_recv_conf_req : opt_handler := fun w o => (w, o, LCP_OPT_REJ).
Definition auth_recv_conf_ack : opt_handler := fun w o => (w, o, 0).

Definition auth_recv_conf_nak (ds : list auth_data_t) (auth : option nat) : opt_handler :=
  fun w o =>
  match auth with
  | None => (w, o, -1)
  | Some i =>
      let ds := alter (fun d => set_ad_state d LCP_OPT_NAK) i ds in
      (w, set_o_data o (OAuth ds auth), if existsb (fun d => negb (ad_state d =? LCP_OPT_NAK)) ds then 0 else -1)
  end.
Definition auth_recv_conf_rej (ds : list auth_data_t) (auth : option nat) : opt_handler :=
  fun w o =>
  match auth with
  | None => (w, o, -1)
  | Some i =>
      let ds := alter (fun d => set_ad_state d LCP_OPT_NAK) i ds in
      (w, set_o_data o (OAuth ds auth), if existsb (fun d => negb (ad_state d =? LCP_OPT_NAK)) ds then 0 else -1)
  end.

(** *** Calls through [lopt->h] *)
Definition h_init (c : lcp_conf) (h : option_handler) (w : lcp_t) : lcp_option_t * lcp_t :=
  match h with
  | mru_opt_hnd => mru_init c w
  | magic_opt_hnd => magic_init w
  | pcomp_opt_hnd => (pcomp_init c, w)
  | accomp_opt_hnd => (accomp_init c, w)
  | auth_opt_hnd => (auth_init c, w)
  end.

Definition h_send_conf_req (c : lcp_conf) (o : lcp_option_t) : option (lcp_option_t * list Z) :=
  match o_data o with
  | OMru mru _ naked rejected => Some (o, mru_send_conf_req mru naked rejected)
  | OMagic magic => Some (o, magic_send_conf_req magic)
  | OPcomp pcomp => Some (o, pcomp_send_conf_req pcomp)
  | OAccomp accomp => Some (o, accomp_send_conf_req accomp)
  | OAuth ds auth => '(auth, b) ← auth_send_conf_req c ds auth; Some (set_o_data o (OAuth ds auth), b)
  end.

(** pcomp and accomp have no [send_conf_nak]: [None] is the call of the null
    pointer as well. *)
Definition h_send_conf_nak (c : lcp_conf) (o : lcp_option_t) (w : lcp_t)
  : option (lcp_option_t * list Z * lcp_t) :=
  match o_data o with
  | OMru _ mtu _ _ => Some (o, mru_send_conf_nak mtu, w)
  | OMagic magic => let '(b, w) := magic_send_conf_nak magic w in Some (o, b, w)
  | OPcomp _ | OAccomp _ => None
  | OAuth ds auth => '(auth, b) ← auth_send_conf_req c ds auth; Some (set_o_data o (OAuth ds auth), b, w)
  end.

Definition h_recv_conf_req (c : lcp_conf) (b : list Z) : opt_handler :=
  fun w o =>
  match o_data o with
  | OMru mru _ naked rejected => mru_recv_conf_req c mru naked rejected b w o
  | OMagic magic => magic_recv_conf_req magic b w o
  | OPcomp pcomp => pcomp_recv_conf_req pcomp b w o
  | OAccomp accomp => accomp_recv_conf_req accomp b w o
  | OAuth _ _ => auth_recv_conf_req w o
  end.

Definition h_recv_conf_ack (e : lcp_env) (b : list Z) : opt_handler :=
  fun w o =>
  match o_data o with
  | OMru mru _ _ _ => mru_recv_conf_ack mru w o
  | OMagic _ => (w, o, 0)
  | OPcomp pcomp => pcomp_recv_conf_ack e pcomp w o
  | OAccomp accomp => accomp_recv_conf_ack e accomp w o
  | OAuth _ _ => auth_recv_conf_ack w o
  end.

Definition h_recv_conf_nak (b : list Z) : opt_handler :=
  fun w o =>
  match o_data o with
  | OMru mru mtu _ rejected => mru_recv_conf_nak mru mtu rejected w o
  | OMagic magic => magic_recv_conf_nak magic b w o
  | OPcomp pcomp => pcomp_recv_conf_nak pcomp b w o
  | OAccomp accomp => accomp_recv_conf_nak accomp b w o
  | OAuth ds auth => auth_recv_conf_nak ds auth w o
  end.

Definition h_recv_conf_rej (b : list Z) : opt_handler :=
  fun w o =>
  match o_data o with
  | OMru mru mtu naked _ => mru_recv_conf_rej mru mtu naked w o
  | OMagic _ => magic_recv_conf_rej w o
  | OPcomp pcomp => pcomp_recv_conf_rej pcomp w o
  | OAccomp accomp => accomp_recv_conf_rej accomp w o
  | OAuth ds auth => auth_recv_conf_rej ds auth w o
  end.

(** [list_for_each_entry(lopt, ...) if (lopt->id == hdr->id) { ...; break; }];
    [None] when no option has the id. *)
Fixpoint with_option (id : Z) (h : opt_handler) (w : lcp_t) (opts : list lcp_option_t)
  : option (lcp_t * list lcp_option_t * Z) :=
  match opts with
  | [] => None
  | o :: opts =>
      if o_id o =? id then let '(w, o, r) := h w o in Some (w, o :: opts, r)
      else
        match with_option id h w opts with
        | Some (w, opts, r) => Some (w, o :: opts, r)
        | None => None
        end
  end.

(** ** Messages *)

(** A frame with [struct lcp_hdr_t] in front. *)
Definition lcp_frame (code id : Z) (payload : list Z) : list Z :=
  be_encode 2 PPP_LCP ++ [u8 code; u8 id] ++ be_encode 2 (Z.of_nat (length payload) + 4) ++ payload.

Fixpoint init_options (c : lcp_conf) (hs : list option_handler) (w : lcp_t) : lcp_t :=
  match hs with
  | [] => w
  | h :: hs =>
      let '(o, w) := h_init c h w in
      init_options c hs (lw_req_len (lw_options w (l_options w ++ [o])) (l_conf_req_len w + o_len o))
  end.

Definition lcp_options_init (c : lcp_conf) (w : lcp_t) : lcp_t :=
  init_options c (option_handlers c) (lw_req_len (lw_options w []) (Z.of_nat LCP_HDR)).

(** The loop of [send_conf_req]: the options, with what they wrote. *)
Fixpoint request_options (c : lcp_conf) (opts : list lcp_option_t) : option (list (lcp_option_t * list Z)) :=
  match opts with
  | [] => Some []
  | o :: opts =>
      ob ← h_send_conf_req c o;
      rest ← request_options c opts;
      Some (ob :: rest)
  end.

Definition lcp_send_conf_req (c : lcp_conf) (s : fst_t lcp_t) : fst_t lcp_t * Z :=
  let '(f, w) := s in
  match request_options c (l_options w) with
  | None => (f, lw_fault w, 0)
  | Some obs =>
      let payload := concat (map snd obs) in
      let w := lw_options w (map fst obs) in
      let w := if l_conf_req_len w <? Z.of_nat (LCP_HDR + length payload) then lw_fault w else w in
      (f, chan_send (lcp_frame CONFREQ (fsm_id f) payload) w, 0)
  end.

(** [hdr->code = code; ppp_chan_send(lcp->ppp, hdr, ntohs(hdr->len) + 2)] on the
    frame received. *)
Definition send_back (code : Z) (w : lcp_t) : lcp_t :=
  let w := lw_buf w (<[2%nat := code]> (l_buf w)) in
  match len ← u_read_be16 (l_buf w) 4; slice 0 (Z.to_nat (len + 2)) (l_buf w) with
  | Ok frame => chan_send frame w
  | _ => lw_fault w
  end.

Definition lcp_send_conf_ack (s : fst_t lcp_t) : fst_t lcp_t := (fst s, send_back CONFACK (snd s)).
Definition lcp_send_code_rej (s : fst_t lcp_t) : fst_t lcp_t := (fst s, send_back CODEREJ (snd s)).

Fixpoint nak_options (c : lcp_conf) (opts : list lcp_option_t) (w : lcp_t)
  : option (list lcp_option_t * list Z * lcp_t) :=
  match opts with
  | [] => Some ([], [], w)
  | o :: opts =>
      '(o, b, w) ← if o_state o =? LCP_OPT_NAK then h_send_conf_nak c o w else Some (o, [], w);
      '(opts, bs, w) ← nak_options c opts w;
      Some (o :: opts, b ++ bs, w)
  end.

Definition lcp_send_conf_nak (c : lcp_conf) (s : fst_t lcp_t) : fst_t lcp_t :=
  let '(f, w) := s in
  match nak_options c (l_options w) w with
  | None => (f, lw_fault w)
  | Some (opts, payload, w) =>
      let w := lw_options w opts in
      let w := if l_conf_req_len w <? Z.of_nat (LCP_HDR + length payload) then lw_fault w else w in
      (f, chan_send (lcp_frame CONFNAK (fsm_recv_id f) payload) w)
  end.

Definition lcp_send_conf_rej (s : fst_t lcp_t) : fst_t lcp_t :=
  let '(f, w) := s in
  let payload := concat (map ro_bytes (List.filter (fun r => ro_state r =? LCP_OPT_REJ) (l_ropt_list w))) in
  let w := if l_ropt_len w + Z.of_nat LCP_HDR <? Z.of_nat (LCP_HDR + length payload) then lw_fault w else w in
  (f, chan_send (lcp_frame CONFREJ (fsm_recv_id f) payload) w).

Definition lcp_send_term_req (s : fst_t lcp_t) : fst_t lcp_t :=
  let f := set_id (u8 (fsm_id (fst s) + 1)) (fst s) in
  (f, chan_send (lcp_frame TERMREQ (fsm_id f) []) (snd s)).

Definition lcp_send_term_ack (s : fst_t lcp_t) : fst_t lcp_t :=
  (fst s, chan_send (lcp_frame TERMACK (fsm_recv_id (fst s)) []) (snd s)).

Definition lcp_send_proto_rej (proto : Z) (s : fst_t lcp_t) : fst_t lcp_t :=
  let f := set_id (u8 (fsm_id (fst s) + 1)) (fst s) in
  (f, chan_send (lcp_frame PROTOREJ (fsm_id f) (be_encode 2 proto)) (snd s)).

(** ** Options received *)

(** The checks at the head of the loops: the option and what follows it. *)
Definition next_opt (data : list Z) : option (list Z * list Z) :=
  match data with
  | _ :: len :: _ =>
      if (len <? 2) || (Z.of_nat (length data) <? len) then None
      else Some (take (Z.to_nat len) data, drop (Z.to_nat len) data)
  | _ => None
  end.

Definition opt_id (b : list Z) : Z := nth 0 b 0.

(** The first loop of [lcp_recv_conf_req].  An option has two bytes at least, the
    length of the data is fuel enough. *)
Fixpoint collect_opts (fuel : nat) (data : list Z) : list (list Z) * bool :=
  match data, fuel with
  | [], _ => ([], true)
  | _, O => ([], false)
  | _, S fuel =>
      match next_opt data with
      | None => ([], false)
      | Some (b, rest) => let '(bs, ok) := collect_opts fuel rest in (b :: bs, ok)
      end
  end.

(** The second: [ret] is the worst verdict. *)
Fixpoint judge_opts (c : lcp_conf) (ropts : list recv_opt_t) (w : lcp_t) (opts : list lcp_option_t) (ret : Z)
  : lcp_t * list lcp_option_t * list recv_opt_t * Z :=
  match ropts with
  | [] => (w, opts, [], ret)
  | ro :: ropts =>
      let set w o := let '(w, o, r) := h_recv_conf_req c (ro_bytes ro) w o in (w, set_o_state o r, r) in
      let '(w, opts, st, ret) :=
        match with_option (opt_id (ro_bytes ro)) set w opts with
        | Some (w, opts, r) => (w, opts, r, if r <? ret then r else ret)
        | None => (w, opts, LCP_OPT_REJ, LCP_OPT_REJ)
        end in
      let '(w, opts, ropts, ret) := judge_opts c ropts w opts ret in
      (w, opts, mk_ropt (ro_bytes ro) st :: ropts, ret)
  end.

Definition lcp_recv_conf_req (c : lcp_conf) (data : list Z) (w : lcp_t) : lcp_t * Z :=
  let '(bs, ok) := collect_opts (length data) data in
  let ropts := l_ropt_list w ++ map (fun b => mk_ropt b LCP_OPT_NONE) bs in
  let w := lw_ropts w ropts (Z.of_nat (length data)) in
  if ok then
    let opts := map (fun o => set_o_state o LCP_OPT_NONE) (l_options w) in
    let '(w, opts, ropts, ret) := judge_opts c ropts w opts 1 in
    (lw_ropts (lw_options w opts) ropts (l_ropt_len w), ret)
  else (w, LCP_OPT_FAIL).

Definition lcp_free_conf_req (w : lcp_t) : lcp_t := lw_ropts w [] (l_ropt_len w).

(** The loop of [lcp_recv_conf_rej], [lcp_recv_conf_nak] and [lcp_recv_conf_ack],
    [h] being the handler they call. *)
Fixpoint answer_loop (h : list Z -> opt_handler) (fuel : nat) (data : list Z) (w : lcp_t)
  (opts : list lcp_option_t) (res : Z) : lcp_t * list lcp_option_t * Z :=
  match data, fuel with
  | [], _ => (w, opts, res)
  | _, O => (w, opts, -1)
  | _, S fuel =>
      match next_opt data with
      | None => (w, opts, -1)
      | Some (b, rest) =>
          match with_option (opt_id b) (h b) w opts with
          | Some (w, opts, r) => answer_loop h fuel rest w opts (if r =? 0 then res else -1)
          | None => answer_loop h fuel rest w opts res
          end
      end
  end.

Definition recv_answer (h : list Z -> opt_handler) (data : list Z) (s : fst_t lcp_t) : fst_t lcp_t * Z :=
  let '(f, w) := s in
  if negb (fsm_recv_id f =? fsm_id f) then (s, 0)
  else
    let '(w, opts, res) := answer_loop h (length data) data w (l_options w) 0 in
    (f, lw_options w opts, res).

Definition lcp_recv_conf_rej : list Z -> fst_t lcp_t -> fst_t lcp_t * Z := recv_answer h_recv_conf_rej.
Definition lcp_recv_conf_nak : list Z -> fst_t lcp_t -> fst_t lcp_t * Z := recv_answer h_recv_conf_nak.
Definition lcp_recv_conf_ack (e : lcp_env) : list Z -> fst_t lcp_t -> fst_t lcp_t * Z :=
  recv_answer (h_recv_conf_ack e).

(** ** Configuration

    [conf_get_opt] followed by [atoi] is [None] for an absent option and the
    number otherwise. *)
Definition conf_set_echo (c : lcp_conf) (interval failure timeout : Z) : lcp_conf :=
  mk_lcp_conf (option_handlers c) (auth_handlers c) interval failure timeout (conf_noauth c) (conf_mtu c) (conf_mru c)
    (conf_min_mtu c) (conf_max_mtu c) (conf_pcomp c) (conf_accomp c) (ctrl_max_mtu c).
Definition conf_set_mtu (c : lcp_conf) (mtu mru min max : Z) : lcp_conf :=
  mk_lcp_conf (option_handlers c) (auth_handlers c) (conf_echo_interval c) (conf_echo_failure c) (conf_echo_timeout c)
    (conf_noauth c) mtu mru min max (conf_pcomp c) (conf_accomp c) (ctrl_max_mtu c).

Definition lcp_load_config (interval failure timeout : option Z) (c : lcp_conf) : lcp_conf :=
  conf_set_echo c (default 0 interval) (default 0 failure) (default 0 timeout).

Definition mru_load_config (mtu mru min_mtu max_mtu : option Z) (c : lcp_conf) : lcp_conf :=
  let mtu := positive_or mtu (conf_mtu c) in
  let mru := positive_or mru (conf_mru c) in
  let min := positive_or min_mtu (conf_min_mtu c) in
  let max := positive_or max_mtu (conf_max_mtu c) in
  conf_set_mtu c mtu mru (if negb (mru =? 0) && (mru <? min) then mru else min) max.

(** ** Echo *)
Definition lcp_recv_echo_repl (e : lcp_env) (data : list Z) (w : lcp_t) : lcp_t :=
  let w :=
    if negb (Z.of_nat (length data) =? 4) then w
    else
      match u_read_be32 data 0 with
      | Ok magic =>
          if negb (l_magic w =? 0) && (magic =? l_magic w)
          then session_do (ap_session_terminate TERM_NAS_ERROR false) w else w
      | _ => lw_fault w
      end in
  lw_echo w (l_echo_timer w) 0 (l_last_ipackets w) (le_time e).

Definition send_echo_reply (e : lcp_env) (w : lcp_t) : lcp_t :=
  match u_read_be16 (l_buf w) 4 with
  | Ok len =>
      if l_mtu w <? len then w
      else
        let w := lw_echo w (l_echo_timer w) 0 (l_last_ipackets w) (le_time e) in
        match (buf ← splice LCP_HDR (be_encode 4 (l_magic w)) (<[2%nat := ECHOREP]> (l_buf w));
               frame ← slice 0 (Z.to_nat (len + 2)) buf; mret (buf, frame)) with
        | Ok (buf, frame) => chan_send frame (lw_buf w buf)
        | _ => lw_fault w
        end
  | _ => lw_fault w
  end.

(** The callback of [echo_timer]. *)
Definition send_echo_request (e : lcp_env) (s : fst_t lcp_t) : fst_t lcp_t :=
  let '(f, w) := s in
  let c := le_conf e in
  let heard := negb (conf_echo_timeout c =? 0) && negb (l_last_ipackets w =? le_rx_packets e) in
  let early := negb (conf_echo_timeout c =? 0) && (le_time e - l_last_echo_ts w <? conf_echo_timeout c) in
  if heard then (f, lw_echo w (l_echo_timer w) 0 (le_rx_packets e) (le_time e))
  else if early then s
  else if conf_echo_failure c <? l_echo_sent w
  then (f, session_do (ap_session_terminate TERM_LOST_CARRIER true) w)
  else
    let id := fsm_id f in
    let w := lw_echo w (l_echo_timer w) (l_echo_sent w + 1) (l_last_ipackets w) (l_last_echo_ts w) in
    (set_id (u8 (id + 1)) f, chan_send (lcp_frame ECHOREQ id (be_encode 4 (l_magic w))) w).

Definition start_echo (e : lcp_env) (w : lcp_t) : lcp_t :=
  if negb (conf_echo_interval (le_conf e) * 1000 =? 0) && negb (l_echo_timer w)
  then lw_echo w (le_timer_ok e) (l_echo_sent w) (l_last_ipackets w) (l_last_echo_ts w) else w.

Definition stop_echo (w : lcp_t) : lcp_t :=
  if l_echo_timer w then lw_echo w false (l_echo_sent w) (l_last_ipackets w) (l_last_echo_ts w) else w.

(** ** The layer *)
Definition lcp_layer_up (e : lcp_env) (s : fst_t lcp_t) : fst_t lcp_t :=
  let '(f, w) := s in
  let w := if l_started w then w else session_do ppp_layer_started (lw_started w true) in
  (f, start_echo e w).

Definition lcp_layer_down (s : fst_t lcp_t) : fst_t lcp_t := s.

Definition lcp_layer_finished (s : fst_t lcp_t) : fst_t lcp_t :=
  let '(f, w) := s in
  let w := stop_echo w in
  if l_started w then
    let w := lw_started w false in
    if l_terminating w then (f, session_do ppp_layer_finished w)
    else (f, session_do (ap_session_terminate TERM_NAS_ERROR false) w)
  else (f, session_do (ap_session_terminate TERM_NAS_ERROR false) w).

(** The callbacks set by [lcp_layer_init]; there is no [layer_started]. *)
Definition lcp_ops (e : lcp_env) : ppp_fsm_ops lcp_t :=
  mk_fsm_ops (Some (lcp_layer_up e)) (Some lcp_layer_down) None (Some lcp_layer_finished)
    (Some (lcp_send_conf_req (le_conf e))) (Some lcp_send_conf_ack) (Some (lcp_send_conf_nak (le_conf e)))
    (Some lcp_send_conf_rej) (Some lcp_send_code_rej) lcp_send_term_req lcp_send_term_ack
    (fun _ => le_timer_ok e).

(** The zeroed structure; the link and the session are the given ones. *)
Definition lcp_zeroed (mru mtu flags : Z) (random : list Z) : lcp_t :=
  mk_lcp [] false 0 0 0 0 [] 0 0 false mru mtu flags false [] random [] [] false false.

Definition lcp_layer_init (fc : fsm_conf) (rnd mru mtu flags : Z) (random : list Z) : fst_t lcp_t :=
  (ppp_fsm_init fc rnd fsm_zeroed, lcp_zeroed mru mtu flags random).

Definition lcp_layer_start (e : lcp_env) (s : fst_t lcp_t) : fst_t lcp_t * Z :=
  let s := (fst s, lcp_options_init (le_conf e) (snd s)) in
  let s := fst (ppp_fsm_lower_up (lcp_ops e) s) in
  let '(s, r) := ppp_fsm_open (lcp_ops e) s in
  (s, if r =? 0 then 0 else -1).

Definition lcp_layer_finish (e : lcp_env) (s : fst_t lcp_t) : fst_t lcp_t :=
  let '(f, w) := s in
  if l_started w then ppp_fsm_close (lcp_ops e) (f, stop_echo w)
  else (f, session_do ppp_layer_finished w).

(** ** Reception *)
Definition is_answer (code : Z) : bool := (code =? CONFACK) || (code =? CONFNAK) || (code =? CONFREJ).

Definition terminate (cause : term_cause) (s : fst_t lcp_t) : fst_t lcp_t :=
  (fst s, session_do (ap_session_terminate cause false) (snd s)).

Definition on_layer (g : lcp_t -> lcp_t) (s : fst_t lcp_t) : fst_t lcp_t := (fst s, g (snd s)).

Definition recv_CONFREQ (e : lcp_env) (data : list Z) (s : fst_t lcp_t) : fst_t lcp_t :=
  let '(f, w) := s in
  let '(w, r) := lcp_recv_conf_req (le_conf e) data w in
  let s := (f, w) in
  if l_started w && (r =? LCP_OPT_ACK) then on_layer lcp_free_conf_req (lcp_send_conf_ack s)
  else
    let r := if l_started w then LCP_OPT_FAIL else r in
    let s :=
      if r =? LCP_OPT_ACK then ppp_fsm_recv_conf_req_ack (lcp_ops e) s
      else if r =? LCP_OPT_NAK then ppp_fsm_recv_conf_req_nak (lcp_ops e) s
      else if r =? LCP_OPT_REJ then ppp_fsm_recv_conf_req_rej (lcp_ops e) s
      else s in
    let s := on_layer lcp_free_conf_req s in
    if r =? LCP_OPT_FAIL then terminate TERM_USER_ERROR s else s.

(** The cases CONFACK, CONFNAK and CONFREJ: [k] is what the automaton does. *)
Definition recv_ANSWER (r : fst_t lcp_t * Z) (k : fst_t lcp_t -> fst_t lcp_t) : fst_t lcp_t :=
  let '(s, r) := r in
  if negb (r =? 0) then terminate TERM_USER_ERROR s
  else if negb (fsm_recv_id (fst s) =? fsm_id (fst s)) then s
  else k s.

(** The [switch] on the code; [len] is the length field, [data] what follows the
    header up to [len]. *)
Definition lcp_dispatch (e : lcp_env) (code len : Z) (data : list Z) (s : fst_t lcp_t) : fst_t lcp_t :=
  let short n := (len <? PPP_HDRLEN + n) || (Z.of_nat (length (l_buf (snd s))) <? Z.of_nat LCP_HDR + n) in
  if code =? CONFREQ then recv_CONFREQ e data s
  else if code =? CONFACK then recv_ANSWER (lcp_recv_conf_ack e data s) (ppp_fsm_recv_conf_ack (lcp_ops e))
  else if code =? CONFNAK then recv_ANSWER (lcp_recv_conf_nak data s) (ppp_fsm_recv_conf_rej (lcp_ops e))
  else if code =? CONFREJ then recv_ANSWER (lcp_recv_conf_rej data s) (ppp_fsm_recv_conf_rej (lcp_ops e))
  else if code =? TERMREQ then terminate TERM_USER_REQUEST (ppp_fsm_recv_term_req (lcp_ops e) s)
  else if code =? TERMACK then ppp_fsm_recv_term_ack (lcp_ops e) s
  else if code =? CODEREJ then ppp_fsm_recv_code_rej_bad (lcp_ops e) s
  else if code =? ECHOREQ then if short 4 then s else on_layer (send_echo_reply e) s
  else if code =? ECHOREP then if short 4 then s else on_layer (lcp_recv_echo_repl e data) s
  else if code =? PROTOREJ then
    if short 2 then s
    else
      on_layer (fun w =>
        match u_read_be16 (l_buf w) LCP_HDR with
        | Ok proto => session_do (ppp_recv_proto_rej proto) w
        | _ => lw_fault w
        end) s
  else if code =? DISCARDREQ then s
  else if code =? IDENT then s
  else ppp_fsm_recv_unk (lcp_ops e) s.

Definition lcp_recv (e : lcp_env) (s : fst_t lcp_t) : fst_t lcp_t :=
  let '(f, w) := s in
  let buf := l_buf w in
  let buf_size := Z.of_nat (length buf) in
  if buf_size <? PPP_HEADERLEN + 2 then s else
  match buf with
  | _ :: _ :: code :: id :: len1 :: len0 :: rest =>
      let len := be_decode [len1; len0] in
      if (len <? PPP_HEADERLEN) || (buf_size - 2 <? len) then s
      else if is_answer code && negb (id =? fsm_id f) then s
      else if is_answer code && l_started w then s
      else if bool_decide (fsm_state f = FSM_Initial) || bool_decide (fsm_state f = FSM_Closed)
        || (l_terminating w && negb (code =? TERMACK) && negb (code =? TERMREQ)) then s
      else
        match slice 0 (Z.to_nat (len - PPP_HDRLEN)) rest with
        | Ok data => lcp_dispatch e code len data (set_recv_id id f, w)
        | _ => (f, lw_fault w)
        end
  | _ => (f, lw_fault w)
  end.

(** ** Events *)
Inductive lcp_event : Type :=
| LFrame (frame : list Z)     (* a frame of protocol LCP, read into ppp->buf *)
| LRestart                    (* the timer of the automaton *)
| LEcho                       (* the echo timer *)
| LFinish
| LProtoRej (proto : Z).

Definition lcp_step (s : fst_t lcp_t) (ev : lcp_env * lcp_event) : fst_t lcp_t :=
  let '(e, ev) := ev in
  match ev with
  | LFrame frame => lcp_recv e (on_layer (fun w => lw_buf w frame) s)
  | LRestart => restart_timer_func (lcp_ops e) s
  | LEcho => send_echo_request e s
  | LFinish => lcp_layer_finish e s
  | LProtoRej proto => lcp_send_proto_rej proto s
  end.

Definition lcp_run (s : fst_t lcp_t) (evs : list (lcp_env * lcp_event)) : fst_t lcp_t := foldl lcp_step s evs.

(** ** Predicates *)

(** An option in the shape the loops accept. *)
Definition opt_wf (b : list Z) : Prop :=
  exists id v, b = id :: (Z.of_nat (length v) + 2) :: v /\ Z.of_nat (length v) + 2 < 256.

Definition ad_ok (d : auth_data_t) : Prop :=
  ad_proto d = ad_proto (auth_data_init (ad_h d)) /\ ad_len d = ad_len (auth_data_init (ad_h d)).

(** [auth] points to a protocol of the list, and is set once one was refused. *)
Definition auth_ok (ds : list auth_data_t) (auth : option nat) : Prop :=
  match auth with
  | Some i => (i < length ds)%nat
  | None => Forall (fun d => ad_state d = LCP_OPT_NONE) ds
  end.

(** An option has its length, large enough for what it writes; only options
    that have a [send_conf_nak] are left in the state NAK. *)
Definition o_ok (o : lcp_option_t) : Prop :=
  match o_data o with
  | OMru _ _ _ _ => o_id o = CI_MRU /\ o_len o = 4
  | OMagic _ => o_id o = CI_MAGIC /\ o_len o = 6
  | OPcomp _ => o_id o = CI_PCOMP /\ o_len o = 2 /\ o_state o <> LCP_OPT_NAK
  | OAccomp _ => o_id o = CI_ACCOMP /\ o_len o = 2 /\ o_state o <> LCP_OPT_NAK
  | OAuth ds auth =>
      o_id o = CI_AUTH /\ o_state o <> LCP_OPT_NAK /\ 4 <= o_len o /\
      Forall (fun d => ad_ok d /\ 4 + ad_len d <= o_len o) ds /\ auth_ok ds auth
  end.

(** What the Configure-Requests carry for the protocol [h]. *)
Definition auth_request (h : auth_handler) : list Z :=
  [CI_AUTH; 4 + Z.of_nat (length (auth_algorithm h))] ++
  be_encode 2 (ad_proto (auth_data_init h)) ++ auth_algorithm h.

Definition frame_code (frame : list Z) : Z := nth 2 frame 0.

(** The option asks for one of the protocols [hs]. *)
Definition asks_auth (hs : list auth_handler) (o : lcp_option_t) : Prop :=
  match o_data o with OAuth ds _ => map ad_h ds = hs | _ => False end.

(** A Configure-Request consists of well-formed options, with one of the
    protocols [hs] among them if there are any. *)
Definition frame_ok (hs : list auth_handler) (frame : list Z) : Prop :=
  frame_code frame = CONFREQ ->
  exists id bs, frame = lcp_frame CONFREQ id (concat bs) /\ Forall opt_wf bs /\
    (hs <> [] -> exists h, In h hs /\ In (auth_request h) bs).

Definition opts_len (opts : list lcp_option_t) : Z := foldr (fun o n => o_len o + n) 0 opts.

Record lcp_inv (hs : list auth_handler) (w : lcp_t) : Prop := {
  inv_fault : l_fault w = false;
  inv_opts : Forall o_ok (l_options w);
  inv_len : l_conf_req_len w = Z.of_nat LCP_HDR + opts_len (l_options w);
  inv_ropts : Z.of_nat (length (concat (map ro_bytes (l_ropt_list w)))) <= l_ropt_len w;
  inv_auth : hs <> [] -> Exists (asks_auth hs) (l_options w);
  inv_sent : Forall (frame_ok hs) (l_sent w)
}.

(** A complete frame is in the buffer. *)
Definition buf_ok (w : lcp_t) : Prop :=
  exists len, u_read_be16 (l_buf w) 4 = Ok len /\ 4 <= len <= Z.of_nat (length (l_buf w)) - 2.

(** Every event knows that the session needs authentication, if it does. *)
Definition env_ok (hs : list auth_handler) (e : lcp_env) : Prop :=
  hs <> [] -> conf_noauth (le_conf e) = false.

(** The verdict on an option received, by the options at the start. *)
Definition opt_verdict (c : lcp_conf) (o : lcp_option_t) (b : list Z) : Z :=
  match o_data o with
  | OMru _ _ _ _ =>
      if negb (Z.of_nat (length b) =? 4) then LCP_OPT_REJ
      else
        let v := be_decode (drop 2 b) in
        if (conf_min_mtu c <=? v) && (v <=? ctrl_max_mtu c) && (v <=? conf_max_mtu c) then LCP_OPT_ACK else LCP_OPT_NAK
  | OMagic magic =>
      if negb (Z.of_nat (length b) =? 6) then LCP_OPT_REJ
      else if negb (magic =? 0) && (be_decode (drop 2 b) =? magic) then LCP_OPT_NAK else LCP_OPT_ACK
  | OPcomp n | OAccomp n => if (Z.of_nat (length b) =? 2) && Z.testbit n 1 then LCP_OPT_ACK else LCP_OPT_REJ
  | OAuth _ _ => LCP_OPT_REJ
  end.

Definition verdict (c : lcp_conf) (opts : list lcp_option_t) (b : list Z) : Z :=
  match List.find (fun o => o_id o =? opt_id b) opts with
  | Some o => opt_verdict c o b
  | None => LCP_OPT_REJ
  end.

Definition worst (vs : list Z) : Z := foldr Z.min LCP_OPT_ACK vs.

(** The handlers leave everything but the link and the random numbers alone. *)
Record link_only (w w' : lcp_t) : Prop := {
  lo_options : l_options w' = l_options w;
  lo_req_len : l_conf_req_len w' = l_conf_req_len w;
  lo_ropts : l_ropt_list w' = l_ropt_list w;
  lo_ropt_len : l_ropt_len w' = l_ropt_len w;
  lo_started : l_started w' = l_started w;
  lo_terminating : l_terminating w' = l_terminating w;
  lo_buf : l_buf w' = l_buf w;
  lo_sent : l_sent w' = l_sent w;
  lo_calls : l_calls w' = l_calls w;
  lo_fault : l_fault w' = l_fault w
}.

(** What the invariant needs of an option after a handler ran on it. *)
Definition opt_kept (o o' : lcp_option_t) : Prop :=
  o_ok o' /\ o_id o' = o_id o /\ o_len o' = o_len o /\ forall hs, asks_auth hs o -> asks_auth hs o'.

Definition handler_ok (h : opt_handler) : Prop :=
  forall w o w' o' r, h w o = (w', o', r) -> o_ok o -> link_only w w' /\ opt_kept o o'.

(** What a handler may write: nothing, or one option that fits its length; the
    option of the authentication is one of the protocols. *)
Definition request_ok (c : lcp_conf) (o o' : lcp_option_t) (b : list Z) : Prop :=
  opt_kept o o' /\ Z.of_nat (length b) <= o_len o /\ (b = [] \/ opt_wf b) /\
  forall hs, hs <> [] -> conf_noauth c = false -> asks_auth hs o -> exists h, In h hs /\ b = auth_request h.

(** The options received are [rs]; with [need] the frame is in the buffer. *)
Definition lcp_inv_buf (hs : list auth_handler) (need : bool) (rs : list recv_opt_t) (w : lcp_t) : Prop :=
  lcp_inv hs w /\ l_ropt_list w = rs /\ (need = true -> buf_ok w).

(** The fields the invariant reads. *)
Record inv_same (w w' : lcp_t) : Prop := {
  is_options : l_options w' = l_options w;
  is_req_len : l_conf_req_len w' = l_conf_req_len w;
  is_ropts : l_ropt_list w' = l_ropt_list w;
  is_ropt_len : l_ropt_len w' = l_ropt_len w;
  is_buf : l_buf w' = l_buf w;
  is_sent : l_sent w' = l_sent w;
  is_fault : l_fault w' = l_fault w
}.

Definition lcp_reachable (s : fst_t lcp_t) : Prop :=
  exists fc rnd mru mtu flags random e evs,
    s = lcp_run (fst (lcp_layer_start e (lcp_layer_init fc rnd mru mtu flags random))) evs.

(** At the expiry [e] of the echo timer nothing was heard from the peer. *)
Definition silent (n : Z) (w : lcp_t) (e : lcp_env) : Prop :=
  conf_echo_failure (le_conf e) = n /\
  (conf_echo_timeout (le_conf e) = 0 \/
   le_rx_packets e = l_last_ipackets w /\ conf_echo_timeout (le_conf e) <= le_time e - l_last_echo_ts w).

(** ** Options on the wire *)
Lemma opt_wf_length b : opt_wf b -> (2 <= length b)%nat.
Proof. intros (id & v & -> & _). cbn. lia. Qed.

Lemma next_opt_app b rest : opt_wf b -> next_opt (b ++ rest) = Some (b, rest).
Proof.
  intros (id & v & -> & L). cbn [app next_opt length]. rewrite length_app.
  destruct (_ || _) eqn:E; [bools; lia|].
  replace (Z.to_nat (Z.of_nat (length v) + 2)) with (length (id :: (Z.of_nat (length v) + 2) :: v)) by (cbn; lia).
  change (id :: ?x :: v ++ rest) with ((id :: x :: v) ++ rest).
  now rewrite take_app_length, drop_app_length.
Qed.

Lemma next_opt_some data b rest :
  next_opt data = Some (b, rest) -> data = b ++ rest /\ (2 <= length b)%nat /\ (bytes_ok data -> opt_wf b).
Proof.
  unfold next_opt. destruct data as [|id [|len data]]; try discriminate.
  destruct (_ || _) eqn:E; [discriminate|]. bools. intros Hn. injection Hn as <- <-.
  rewrite take_drop. split; [done|]. cbn [length] in *.
  assert (L : length (take (Z.to_nat len) (id :: len :: data)) = Z.to_nat len)
    by (rewrite length_take; cbn [length]; lia).
  split; [lia|]. intros B.
  destruct (Z.to_nat len) as [|[|k]] eqn:K; [lia | lia |]. cbn [take] in *. cbn [length] in L.
  exists id, (take k data). inversion_clear B as [|? ? _ B']. inversion_clear B' as [|? ? B2 _].
  unfold byte_ok in B2. split; [f_equal; f_equal; lia | lia].
Qed.

Lemma collect_opts_concat bs fuel :
  Forall opt_wf bs -> (length (concat bs) <= fuel)%nat -> collect_opts fuel (concat bs) = (bs, true).
Proof.
  intros W. revert fuel. induction W as [|b bs Hb _ IH]; intros fuel L; [now destruct fuel|].
  cbn [concat] in *. rewrite length_app in L. pose proof (opt_wf_length b Hb) as Lb.
  destruct fuel as [|fuel]; [lia|].
  pose proof (next_opt_app b (concat bs) Hb) as N. destruct (b ++ concat bs) eqn:E.
  { destruct b; [cbn in Lb; lia | discriminate]. }
  cbn [collect_opts]. rewrite N, IH by lia. done.
Qed.

Lemma collect_opts_sound fuel data bs ok :
  collect_opts fuel data = (bs, ok) ->
  (length (concat bs) <= length data)%nat /\ (ok = true -> data = concat bs) /\
  (bytes_ok data -> Forall opt_wf bs).
Proof.
  revert data bs ok. induction fuel as [|fuel IH]; intros data bs ok H.
  - destruct data; cbn in H; injection H as <- <-; cbn; repeat split; try done; lia.
  - destruct data as [|x data]; [cbn in H; injection H as <- <-; done|].
    cbn [collect_opts] in H. destruct (next_opt (x :: data)) as [[b rest]|] eqn:N.
    2:{ injection H as <- <-. cbn. repeat split; [lia | done | done]. }
    destruct (collect_opts fuel rest) as [bs' ok'] eqn:C. injection H as <- <-.
    destruct (next_opt_some _ _ _ N) as (E & L & W). destruct (IH _ _ _ C) as (L' & D & W').
    rewrite E in *. cbn [concat]. rewrite !length_app. repeat split; [lia | |].
    + intros ->. now rewrite (D eq_refl) at 1.
    + intros B. pose proof (W B). apply bytes_ok_app in B as [_ B]. constructor; auto.
Qed.

(** ** The handlers *)
Lemma with_option_some id h w opts w' opts' r :
  with_option id h w opts = Some (w', opts', r) ->
  exists pre o post o', opts = pre ++ o :: post /\ Forall (fun o => o_id o <> id) pre /\ o_id o = id /\
    h w o = (w', o', r) /\ opts' = pre ++ o' :: post.
Proof.
  revert opts'. induction opts as [|o opts IH]; intros opts' H; [discriminate|]. cbn [with_option] in H.
  destruct (o_id o =? id) eqn:E.
  - destruct (h w o) as [[w1 o1] r1] eqn:Hh. injection H as <- <- <-. zbool.
    exists [], o, opts, o1. auto.
  - destruct (with_option id h w opts) as [[[w1 opts1] r1]|]; [|discriminate]. injection H as <- <- <-.
    destruct (IH _ eq_refl) as (pre & o0 & post & o' & -> & P & Ho & Hh & ->). zbool.
    exists (o :: pre), o0, post, o'. repeat split; auto.
Qed.

Lemma with_option_none id h w opts :
  with_option id h w opts = None -> Forall (fun o => o_id o <> id) opts.
Proof.
  induction opts as [|o opts IH]; intros H; [constructor|]. cbn in H. destruct (o_id o =? id) eqn:E.
  - now destruct (h w o) as [[]].
  - zbool. destruct (with_option id h w opts) as [[[]]|]; [discriminate|]. auto.
Qed.

#[export] Instance link_only_preorder : PreOrder link_only.
Proof.
  split; [now split|]. intros a b c [] []. split; congruence.
Qed.

Lemma link_only_link w m r t f : link_only w (lw_link w m r t f).
Proof. now split. Qed.

Lemma call_nzmagic_link old w m w' : call_nzmagic old w = (m, w') -> link_only w w'.
Proof. unfold call_nzmagic. destruct (nzmagic _ _) as [[]|]; intros Hn; injection Hn as <- <-; now split. Qed.

Lemma read_be32_total b off : (off + 4 <= length b)%nat -> u_read_be32 b off = Ok (be_decode (take 4 (drop off b))).
Proof. intros H. unfold u_read_be32. now rewrite slice_ok. Qed.

Lemma read_be16_take b off : (off + 2 <= length b)%nat -> u_read_be16 b off = Ok (be_decode (take 2 (drop off b))).
Proof. intros H. unfold u_read_be16. now rewrite slice_ok. Qed.

Lemma opt_kept_refl o : o_ok o -> opt_kept o o.
Proof. unfold opt_kept. auto. Qed.

Lemma opt_kept_trans o1 o2 o3 : opt_kept o1 o2 -> opt_kept o2 o3 -> opt_kept o1 o3.
Proof. intros (? & ? & ? & ?) (? & ? & ? & ?). unfold opt_kept. repeat split; auto; congruence. Qed.

Lemma opt_kept_data o d :
  o_ok (set_o_data o d) -> (forall hs, asks_auth hs o -> asks_auth hs (set_o_data o d)) ->
  opt_kept o (set_o_data o d).
Proof. unfold opt_kept. auto. Qed.

(** The data of an option of the same kind. *)
Ltac same_kind D := apply opt_kept_data; unfold o_ok, asks_auth; rewrite ?D; cbn; tauto.

Lemma auth_refuse_kept o ds i :
  o_ok o -> o_data o = OAuth ds (Some i) ->
  opt_kept o (set_o_data o (OAuth (alter (fun d => set_ad_state d LCP_OPT_NAK) i ds) (Some i))).
Proof.
  intros Ho D. unfold o_ok in Ho. rewrite D in Ho. destruct Ho as (? & ? & ? & F & A).
  apply opt_kept_data; unfold o_ok, asks_auth; rewrite ?D; cbn [set_o_data o_data o_id o_state o_len].
  - repeat split; auto; [|cbn; now rewrite length_alter].
    apply Forall_alter; [done|]. intros d _ Hd. exact Hd.
  - intros hs <-. apply list_eq. intros j. rewrite !list_lookup_fmap.
    destruct (decide (i = j)) as [->|N].
    + rewrite list_lookup_alter_eq. now destruct (_ !! j).
    + now rewrite list_lookup_alter_ne.
Qed.

Lemma recv_rej_ok b : handler_ok (h_recv_conf_rej b).
Proof.
  intros w o w' o' r Hh Ho. unfold h_recv_conf_rej in Hh. pose proof Ho as Ho'. unfold o_ok in Ho'.
  destruct (o_data o) eqn:D; cbn in Hh.
  1-4: injection Hh as <- <- <-; split; [first [reflexivity | apply link_only_link] | same_kind D].
  unfold auth_recv_conf_rej in Hh. destruct auth as [i|]; injection Hh as <- <- <-; split; try reflexivity.
  - now apply auth_refuse_kept.
  - now apply opt_kept_refl.
Qed.

Lemma magic_nak_ok magic b w o w' o' r :
  o_data o = OMagic magic -> o_ok o -> magic_recv_conf_nak magic b w o = (w', o', r) ->
  link_only w w' /\ opt_kept o o'.
Proof.
  intros D Ho Hh. unfold magic_recv_conf_nak in Hh. pose proof Ho as Ho'. unfold o_ok in Ho'. rewrite D in Ho'.
  destruct (negb _) eqn:L; [injection Hh as <- <- <-; split; [reflexivity | now apply opt_kept_refl]|].
  bools. rewrite read_be32_total in Hh by lia.
  destruct (negb _ && _); [injection Hh as <- <- <-; split; [reflexivity | now apply opt_kept_refl]|].
  destruct (if _ =? _ then _ else _) as [m w1] eqn:M. injection Hh as <- <- <-. split; [|same_kind D].
  transitivity w1; [|apply link_only_link].
  destruct (_ =? _) in M; [now apply call_nzmagic_link in M | now injection M as _ <-].
Qed.

Lemma recv_nak_ok b : handler_ok (h_recv_conf_nak b).
Proof.
  intros w o w' o' r Hh Ho. unfold h_recv_conf_nak in Hh. pose proof Ho as Ho'. unfold o_ok in Ho'.
  destruct (o_data o) eqn:D; cbn in Hh.
  - injection Hh as <- <- <-. split; [reflexivity | same_kind D].
  - eapply magic_nak_ok; eauto.
  - unfold pcomp_recv_conf_nak, pcomp_recv_conf_rej in Hh.
    destruct (negb _); injection Hh as <- <- <-; split; try reflexivity; [now apply opt_kept_refl | same_kind D].
  - unfold accomp_recv_conf_nak, accomp_recv_conf_rej in Hh.
    destruct (negb _); injection Hh as <- <- <-; split; try reflexivity; [now apply opt_kept_refl | same_kind D].
  - unfold auth_recv_conf_nak in Hh. destruct auth as [i|]; injection Hh as <- <- <-; split; try reflexivity.
    + now apply auth_refuse_kept.
    + now apply opt_kept_refl.
Qed.

Lemma set_flag_link e on bit w : link_only w (fst (set_flag e on bit w)).
Proof. unfold set_flag. case_match; [apply link_only_link | reflexivity]. Qed.

Lemma recv_ack_ok e b : handler_ok (h_recv_conf_ack e b).
Proof.
  intros w o w' o' r Hh Ho. unfold h_recv_conf_ack in Hh.
  unfold pcomp_recv_conf_ack, accomp_recv_conf_ack in Hh.
  destruct (o_data o) eqn:D; cbn in Hh;
    try match type of Hh with context [set_flag ?a ?b ?c ?d] =>
      pose proof (set_flag_link a b c d); destruct (set_flag a b c d) end;
    injection Hh as <- <- <-; (split; [|now apply opt_kept_refl]);
    first [assumption | reflexivity | apply link_only_link].
Qed.

Lemma opt_kept_state o r :
  o_ok o -> (r = LCP_OPT_NAK -> match o_data o with OMru _ _ _ _ | OMagic _ => True | _ => False end) ->
  opt_kept o (set_o_state o r).
Proof.
  intros Ho Hr. unfold opt_kept, o_ok, asks_auth in *. cbn [set_o_state o_data o_id o_len o_state].
  destruct (o_data o); intuition congruence.
Qed.

Lemma mru_req_spec c mru mtu naked rejected b w o w' o' r :
  mru_recv_conf_req c mru naked rejected b w o = (w', o', r) -> o_ok o -> o_data o = OMru mru mtu naked rejected ->
  link_only w w' /\ opt_kept o (set_o_state o' r) /\ r = opt_verdict c o b /\
  forall b', opt_verdict c (set_o_state o' r) b' = opt_verdict c o b'.
Proof.
  intros Hh Ho D. pose proof Ho as Ho'. unfold o_ok in Ho'. rewrite D in Ho'.
  unfold mru_recv_conf_req in Hh. unfold opt_verdict. rewrite D. destruct (negb _) eqn:L.
  { injection Hh as <- <- <-. cbn [set_o_state o_data]. rewrite D. repeat split; auto; now apply opt_kept_state. }
  bools. rewrite read_be16_take in Hh by lia. rewrite take_ge in Hh by (rewrite length_drop; lia).
  set (v := be_decode (drop 2 b)) in *.
  replace ((conf_min_mtu c <=? v) && (v <=? ctrl_max_mtu c) && (v <=? conf_max_mtu c))
    with (negb ((v <? conf_min_mtu c) || (ctrl_max_mtu c <? v) || (conf_max_mtu c <? v)))
    by (rewrite !negb_orb, <- !Z.leb_antisym; done).
  destruct (_ || _ || _) in *; injection Hh as <- <- <-; cbn [set_o_state set_o_data o_data negb]; rewrite ?D;
    (split; [first [reflexivity | apply link_only_link]|]); (split; [|auto]).
  - apply opt_kept_state; [done | now rewrite D].
  - apply (opt_kept_trans _ (set_o_data o (OMru mru v naked rejected))); [same_kind D|].
    apply opt_kept_state; [unfold o_ok; cbn; tauto | done].
Qed.

Lemma magic_req_spec c magic b w o w' o' r :
  magic_recv_conf_req magic b w o = (w', o', r) -> o_ok o -> o_data o = OMagic magic ->
  link_only w w' /\ opt_kept o (set_o_state o' r) /\ r = opt_verdict c o b /\
  forall b', opt_verdict c (set_o_state o' r) b' = opt_verdict c o b'.
Proof.
  intros Hh Ho D. unfold magic_recv_conf_req in Hh. unfold opt_verdict. rewrite D.
  destruct (negb (Z.of_nat _ =? _)) eqn:L.
  { injection Hh as <- <- <-. cbn [set_o_state o_data]. rewrite D. repeat split; auto; now apply opt_kept_state. }
  bools. rewrite read_be32_total in Hh by lia. rewrite take_ge in Hh by (rewrite length_drop; lia).
  rewrite (Z.eqb_sym (be_decode _)).
  destruct (negb _ && _); injection Hh as <- <- <-; cbn [set_o_state o_data]; rewrite D;
    repeat split; auto; apply opt_kept_state; auto; now rewrite D.
Qed.

(** Every handler returns the verdict, and the verdict does not depend on what an
    earlier option of the packet did. *)
Lemma recv_req_spec c b w o w' o' r :
  h_recv_conf_req c b w o = (w', o', r) -> o_ok o ->
  link_only w w' /\ opt_kept o (set_o_state o' r) /\ r = opt_verdict c o b /\
  forall b', opt_verdict c (set_o_state o' r) b' = opt_verdict c o b'.
Proof.
  intros Hh Ho. unfold h_recv_conf_req in Hh. destruct (o_data o) eqn:D.
  - eapply mru_req_spec; eauto.
  - eapply magic_req_spec; eauto.
  - unfold pcomp_recv_conf_req in Hh. unfold opt_verdict. rewrite D.
    destruct (Z.of_nat (length b) =? _), (Z.testbit _ _) eqn:T; cbn [negb andb] in *; injection Hh as <- <- <-;
      cbn [set_o_state o_data]; rewrite D, T; repeat split; auto; now apply opt_kept_state.
  - unfold accomp_recv_conf_req in Hh. unfold opt_verdict. rewrite D.
    destruct (Z.of_nat (length b) =? _), (Z.testbit _ _) eqn:T; cbn [negb andb] in *; injection Hh as <- <- <-;
      cbn [set_o_state o_data]; rewrite D, T; repeat split; auto; now apply opt_kept_state.
  - unfold auth_recv_conf_req in Hh. unfold opt_verdict. injection Hh as <- <- <-. cbn. rewrite D.
    repeat split; auto; apply opt_kept_state; auto; discriminate.
Qed.

(** ** The loops over the options *)
Lemma kept_insert pre o o' post :
  Forall o_ok (pre ++ o :: post) -> opt_kept o o' -> Forall2 opt_kept (pre ++ o :: post) (pre ++ o' :: post).
Proof.
  intros F K. apply Forall_app in F as [Fp F]. inversion_clear F as [|? ? _ Fq].
  apply Forall2_app; [|constructor; [done|]]; apply Forall_Forall2_diag; eapply Forall_impl; eauto; apply opt_kept_refl.
Qed.

Lemma kept_ok opts opts' : Forall2 opt_kept opts opts' -> Forall o_ok opts'.
Proof. intros F. eapply Forall2_Forall_r; [exact F|]. apply Forall_forall. now intros o _ o' (? & _). Qed.

Lemma kept_trans l1 l2 l3 : Forall2 opt_kept l1 l2 -> Forall2 opt_kept l2 l3 -> Forall2 opt_kept l1 l3.
Proof.
  intros F. revert l3. induction F as [|o o' l l' K _ IH]; intros l3 G; inversion G; subst; constructor;
    eauto using opt_kept_trans.
Qed.

Lemma kept_len opts opts' : Forall2 opt_kept opts opts' -> opts_len opts' = opts_len opts.
Proof. induction 1 as [|o o' l l' (_ & _ & L & _) _ IH]; [done|].
  change (o_len o' + opts_len l' = o_len o + opts_len l). lia. Qed.

Lemma kept_asks hs opts opts' :
  Forall2 opt_kept opts opts' -> Exists (asks_auth hs) opts -> Exists (asks_auth hs) opts'.
Proof. induction 1 as [|o o' l l' (_ & _ & _ & A) _ IH]; inversion 1; auto. Qed.

Lemma answer_loop_ok h fuel data w opts res w' opts' res' :
  (forall b, handler_ok (h b)) -> Forall o_ok opts ->
  answer_loop h fuel data w opts res = (w', opts', res') ->
  link_only w w' /\ Forall2 opt_kept opts opts'.
Proof.
  intros Hh. revert data w opts res. induction fuel as [|fuel IH]; intros data w opts res F E.
  - assert (w' = w /\ opts' = opts) as [-> ->] by (destruct data; cbn in E; now injection E as <- <- <-).
    split; [reflexivity|]. apply Forall_Forall2_diag. eapply Forall_impl; eauto. apply opt_kept_refl.
  - assert (R : link_only w w /\ Forall2 opt_kept opts opts).
    { split; [reflexivity|]. apply Forall_Forall2_diag. eapply Forall_impl; eauto. apply opt_kept_refl. }
    destruct data as [|x data]; cbn [answer_loop] in E; [now injection E as <- <- <-|].
    destruct (next_opt _) as [[b rest]|]; [|now injection E as <- <- <-].
    destruct (with_option _ _ w opts) as [[[w1 opts1] r]|] eqn:W; [|eauto].
    destruct (with_option_some _ _ _ _ _ _ _ W) as (pre & o & post & o' & -> & _ & _ & Ho & ->).
    destruct (Hh b _ _ _ _ _ Ho) as [L K]; [now apply Forall_app in F as [_ F]; inversion F|].
    pose proof (kept_insert _ _ _ _ F K) as K1.
    destruct (IH _ _ _ _ (kept_ok _ _ K1) E) as [L' K']. split; [now transitivity w1 | eapply kept_trans; eauto].
Qed.

Lemma verdict_range c opts b : LCP_OPT_REJ <= verdict c opts b <= LCP_OPT_ACK.
Proof.
  unfold verdict, opt_verdict, LCP_OPT_REJ, LCP_OPT_ACK, LCP_OPT_NAK. repeat case_match; lia.
Qed.

Lemma find_insert pre o o' post b :
  o_id o' = o_id o ->
  List.find (fun o => o_id o =? opt_id b) (pre ++ o' :: post) =
    match List.find (fun o => o_id o =? opt_id b) pre with
    | Some x => Some x
    | None => if o_id o =? opt_id b then Some o' else List.find (fun o => o_id o =? opt_id b) post
    end.
Proof.
  intros E. induction pre as [|x pre IH]; cbn; [now rewrite E|]. now destruct (o_id x =? opt_id b).
Qed.

Lemma verdict_insert c pre o o' post b :
  o_id o' = o_id o -> (forall b', opt_verdict c o' b' = opt_verdict c o b') ->
  verdict c (pre ++ o' :: post) b = verdict c (pre ++ o :: post) b.
Proof.
  intros E V. unfold verdict. rewrite (find_insert pre o o' post b E), (find_insert pre o o post b eq_refl).
  destruct (List.find _ pre); [done|]. now destruct (o_id o =? opt_id b).
Qed.

Lemma verdict_none c opts b : Forall (fun o => o_id o <> opt_id b) opts -> verdict c opts b = LCP_OPT_REJ.
Proof.
  intros F. unfold verdict. replace (List.find _ opts) with (@None lcp_option_t); [done|].
  induction F as [|o opts Ho _ IH]; cbn; [done|]. apply Z.eqb_neq in Ho. now rewrite Ho.
Qed.

Lemma verdict_here c pre o post b :
  Forall (fun o => o_id o <> opt_id b) pre -> o_id o = opt_id b -> verdict c (pre ++ o :: post) b = opt_verdict c o b.
Proof.
  intros F E. unfold verdict. rewrite (find_insert pre o o post b eq_refl).
  replace (List.find _ pre) with (@None lcp_option_t); [apply Z.eqb_eq in E; now rewrite E|].
  induction F as [|x pre Ho _ IH]; cbn; [done|]. apply Z.eqb_neq in Ho. now rewrite Ho.
Qed.

(** The second loop of [lcp_recv_conf_req] judges every option by the options of
    the layer at its start. *)
Lemma judge_opts_spec c ropts w opts ret w' opts' ropts' ret' :
  judge_opts c ropts w opts ret = (w', opts', ropts', ret') -> Forall o_ok opts ->
  LCP_OPT_REJ <= ret <= LCP_OPT_ACK ->
  link_only w w' /\ Forall2 opt_kept opts opts' /\
  ropts' = map (fun ro => mk_ropt (ro_bytes ro) (verdict c opts (ro_bytes ro))) ropts /\
  ret' = Z.min ret (worst (map (fun ro => verdict c opts (ro_bytes ro)) ropts)).
Proof.
  revert w opts ret w' opts' ropts' ret'.
  induction ropts as [|ro ropts IH]; intros w opts ret w' opts' ropts' ret' E F R; cbn [judge_opts] in E.
  { injection E as <- <- <- <-. split; [reflexivity|]. split; [|split; [done | cbn; unfold LCP_OPT_ACK in *; lia]].
    apply Forall_Forall2_diag. eapply Forall_impl; eauto. apply opt_kept_refl. }
  destruct (with_option _ _ w opts) as [[[w1 opts1] r]|] eqn:W.
  - destruct (judge_opts c ropts w1 opts1 _) as [[[w2 opts2] ropts2] ret2] eqn:J. injection E as <- <- <- <-.
    destruct (with_option_some _ _ _ _ _ _ _ W) as (pre & o & post & o' & -> & P & Hid & Ho & ->).
    destruct (h_recv_conf_req c (ro_bytes ro) w o) as [[w0 o0] r0] eqn:H0. injection Ho as -> <- <-.
    destruct (recv_req_spec _ _ _ _ _ _ _ H0) as (L & K & Hr & V); [now apply Forall_app in F as [_ F]; inversion F|].
    pose proof (kept_insert _ _ _ _ F K) as K1.
    assert (Hv : verdict c (pre ++ o :: post) (ro_bytes ro) = r0) by (rewrite verdict_here; auto).
    pose proof (verdict_range c (pre ++ o :: post) (ro_bytes ro)) as VR. rewrite Hv in VR.
    assert (same : forall b, verdict c (pre ++ set_o_state o0 r0 :: post) b = verdict c (pre ++ o :: post) b)
      by (intros b; apply verdict_insert; [apply K | exact V]).
    destruct (IH _ _ _ _ _ _ _ J (kept_ok _ _ K1)) as (L' & K' & -> & ->); [destruct (r0 <? ret) eqn:?; zbool; lia|].
    split; [now transitivity w1|]. split; [eapply kept_trans; eauto|]. cbn [map].
    rewrite Hv. split.
    + f_equal. apply map_ext. intros x. now rewrite same.
    + cbn [worst foldr]. rewrite (map_ext _ _ (fun x => same (ro_bytes x))).
      fold (worst (map (fun ro => verdict c (pre ++ o :: post) (ro_bytes ro)) ropts)).
      destruct (r0 <? ret) eqn:?; zbool; lia.
  - destruct (judge_opts c ropts w opts LCP_OPT_REJ) as [[[w2 opts2] ropts2] ret2] eqn:J. injection E as <- <- <- <-.
    destruct (IH _ _ _ _ _ _ _ J F) as (L' & K' & -> & ->); [unfold LCP_OPT_REJ, LCP_OPT_ACK; lia|].
    rewrite (map_cons _ ro ropts). rewrite (verdict_none c opts (ro_bytes ro)) by (now apply with_option_none in W).
    split; [done|]. split; [done|]. unfold worst. cbn [map foldr]. rewrite verdict_none by (now apply with_option_none in W).
    split; [done|]. unfold LCP_OPT_REJ in *. lia.
Qed.

(** ** What the Configure-Requests contain *)
Lemma auth_next_lt k ds i : auth_next k ds = Some i -> (k <= i < k + length ds)%nat.
Proof.
  revert k. induction ds as [|d ds IH]; intros k H; cbn in *; [discriminate|].
  destruct (_ || _); [apply IH in H; lia | injection H as <-; lia].
Qed.

(** There is always a protocol to ask for. *)
Lemma auth_select_ok ds auth :
  ds <> [] -> auth_ok ds auth -> exists i, auth_select ds auth = Some i /\ (i < length ds)%nat.
Proof.
  intros N A. unfold auth_select. destruct auth as [i|]; cbn in A.
  - destruct (match ds !! i with Some d => _ | None => _ end); [|eauto].
    destruct (auth_next 0 ds) as [j|] eqn:E; [apply auth_next_lt in E; eexists; split; [done | lia] | eauto].
  - destruct A as [|d ds Hd _]; [done|]. cbn. rewrite Hd. cbn. exists 0%nat. split; [done | lia].
Qed.

Lemma auth_request_wf h : opt_wf (auth_request h).
Proof.
  exists CI_AUTH, (be_encode 2 (ad_proto (auth_data_init h)) ++ auth_algorithm h). now destruct h.
Qed.

Lemma auth_request_len h : Z.of_nat (length (auth_request h)) = 4 + ad_len (auth_data_init h).
Proof. now destruct h. Qed.

Lemma send_auth_ok c o ds auth :
  o_ok o -> o_data o = OAuth ds auth ->
  exists auth' b, auth_send_conf_req c ds auth = Some (auth', b) /\
    request_ok c o (set_o_data o (OAuth ds auth')) b.
Proof.
  intros Ho D. unfold o_ok in Ho. rewrite D in Ho. destruct Ho as (I & S & L & F & A).
  unfold auth_send_conf_req, request_ok, asks_auth. rewrite D.
  destruct ((length ds =? 0)%nat || conf_noauth c) eqn:Z.
  { exists auth, []. split; [done|]. split; [same_kind D|]. cbn [length].
    repeat split; [lia | now left |]. intros hs N NA <-.
    apply orb_true_iff in Z as [Z|Z]; [apply Nat.eqb_eq in Z; now destruct ds | congruence]. }
  apply orb_false_iff in Z as [Z _]. apply Nat.eqb_neq in Z.
  destruct (auth_select_ok ds auth) as (i & -> & Hi); [now intros -> | done |].
  destruct (lookup_lt_is_Some_2 ds i Hi) as [d Hd]. cbn. rewrite Hd. cbn.
  pose proof (Forall_lookup_1 _ _ _ _ F Hd) as [[Hp Hl] Hlen].
  exists (Some i), (auth_request (ad_h d)). split.
  { do 2 f_equal. rewrite Hp. now destruct (ad_h d). }
  rewrite auth_request_len, <- Hl. split; [same_kind D|].
  repeat split; [lia | right; apply auth_request_wf |]. intros hs _ _ <-.
  exists (ad_h d). split; [|done]. apply in_map, list_elem_of_In. eapply list_elem_of_lookup_2; eauto.
Qed.

Lemma send_req_ok c o :
  o_ok o -> exists o' b, h_send_conf_req c o = Some (o', b) /\ request_ok c o o' b.
Proof.
  intros Ho. pose proof Ho as Ho'. unfold o_ok in Ho'. unfold h_send_conf_req.
  destruct (o_data o) as [mru mtu n r|mg|pc|ac|ds auth] eqn:D.
  5:{ destruct (send_auth_ok c o ds auth Ho D) as (auth' & b & -> & R). eauto. }
  all: exists o; eexists; (split; [reflexivity|]); split; [now apply opt_kept_refl|]; unfold asks_auth; rewrite D;
    (split; [|split; [|easy]]).
  - unfold mru_send_conf_req. destruct (n || r); cbn; lia.
  - unfold mru_send_conf_req. destruct (n || r); [now left|]. right. now exists CI_MRU, (be_encode 2 mru).
  - unfold magic_send_conf_req. destruct (mg =? 0); cbn; lia.
  - unfold magic_send_conf_req. destruct (mg =? 0); [now left|]. right. now exists CI_MAGIC, (be_encode 4 mg).
  - unfold pcomp_send_conf_req. destruct (Z.testbit pc 0); cbn [length]; lia.
  - unfold pcomp_send_conf_req. destruct (Z.testbit pc 0); [|now left]. right. now exists CI_PCOMP, [].
  - unfold accomp_send_conf_req. destruct (Z.testbit ac 0); cbn [length]; lia.
  - unfold accomp_send_conf_req. destruct (Z.testbit ac 0); [|now left]. right. now exists CI_ACCOMP, [].
Qed.

Lemma request_options_ok c opts :
  Forall o_ok opts -> exists obs, request_options c opts = Some obs /\
    Forall2 (fun o ob => request_ok c o (fst ob) (snd ob)) opts obs.
Proof.
  induction 1 as [|o opts Ho _ (obs & E & F)]; [now exists []|]. cbn.
  destruct (send_req_ok c o Ho) as (o' & b & -> & R). cbn. rewrite E. cbn. eauto.
Qed.

Lemma requests_kept c opts obs :
  Forall2 (fun o ob => request_ok c o (fst ob) (snd ob)) opts obs ->
  Forall2 opt_kept opts (map fst obs) /\ Z.of_nat (length (concat (map snd obs))) <= opts_len opts.
Proof.
  induction 1 as [|o ob opts obs (K & L & _) _ [IH IL]]; cbn [map concat]; [done|]. split; [auto|].
  rewrite length_app. change (opts_len (o :: opts)) with (o_len o + opts_len opts). lia.
Qed.

Lemma requests_wf c hs opts obs :
  Forall2 (fun o ob => request_ok c o (fst ob) (snd ob)) opts obs ->
  exists bs, concat (map snd obs) = concat bs /\ Forall opt_wf bs /\
    (hs <> [] -> conf_noauth c = false -> Exists (asks_auth hs) opts -> exists h, In h hs /\ In (auth_request h) bs).
Proof.
  induction 1 as [|o ob opts obs (_ & _ & W & A) _ (bs & E & F & IH)].
  { exists []. repeat split; auto. intros _ _ X. inversion X. }
  cbn [map concat]. rewrite E. destruct W as [W|W].
  - exists bs. rewrite W. repeat split; auto. intros N NA X. inversion_clear X as [? ? Y|? ? Y]; [|auto].
    destruct (A hs N NA Y) as (h & _ & Hb). rewrite W in Hb. discriminate.
  - exists (snd ob :: bs). split; [done|]. split; [auto|].
    intros N NA X. inversion_clear X as [? ? Y|? ? Y].
    + destruct (A hs N NA Y) as (h & ? & Hb). exists h. split; [done | now left].
    + destruct (IH N NA Y) as (h & ? & ?). exists h. split; [done | now right].
Qed.

(** ** The invariant *)

Lemma inv_same_keeps hs need rs w w' : inv_same w w' -> lcp_inv_buf hs need rs w -> lcp_inv_buf hs need rs w'.
Proof.
  intros [E1 E2 E3 E4 E5 E6 E7] [[I1 I2 I3 I4 I5 I6] [RS B]]. unfold lcp_inv_buf, buf_ok.
  rewrite E3, E5. split; [|auto]. split; rewrite ?E1, ?E2, ?E3, ?E4, ?E6, ?E7; auto.
Qed.

Lemma inv_send hs need rs frame w :
  frame_ok hs frame -> lcp_inv_buf hs need rs w -> lcp_inv_buf hs need rs (chan_send frame w).
Proof.
  intros F [[] [RS B]]. split; [|done]. split; try done. apply Forall_app. auto.
Qed.

Lemma inv_options hs need rs w w' opts :
  lcp_inv_buf hs need rs w -> link_only w w' -> Forall2 opt_kept (l_options w) opts ->
  lcp_inv_buf hs need rs (lw_options w' opts).
Proof.
  intros [[I1 I2 I3 I4 I5 I6] [RS B]] L K. unfold lcp_inv_buf, buf_ok. cbn [l_buf l_ropt_list lw_options]. rewrite (lo_buf _ _ L), (lo_ropts _ _ L).
  split; [|auto]. destruct L as [E1 E2 E3 E4 _ _ _ E6 _ E7].
  split; cbn [lw_options l_fault l_options l_conf_req_len l_ropt_list l_ropt_len l_sent];
    rewrite ?E2, ?E3, ?E4, ?E6, ?E7; auto.
  - now apply kept_ok in K.
  - now rewrite (kept_len _ _ K).
  - intros N. eapply kept_asks; eauto.
Qed.

Lemma frame_code_frame code id payload : frame_code (lcp_frame code id payload) = u8 code.
Proof. reflexivity. Qed.

Lemma other_frame_ok hs code id payload : u8 code <> CONFREQ -> frame_ok hs (lcp_frame code id payload).
Proof. intros N H. now rewrite frame_code_frame in H. Qed.

Lemma conf_req_keeps hs need rs e : env_ok hs e -> keeps (lcp_inv_buf hs need rs) (fun s => fst (lcp_send_conf_req (le_conf e) s)).
Proof.
  intros E [f w] I. cbn [snd] in *. unfold lcp_send_conf_req. pose proof I as [[IF IO IL IR IA IS] _].
  destruct (request_options_ok (le_conf e) (l_options w) IO) as (obs & -> & R).
  destruct (requests_kept _ _ _ R) as [K L]. destruct (requests_wf _ hs _ _ R) as (bs & Ebs & W & A).
  cbn [l_conf_req_len lw_options]. destruct (_ <? _) eqn:O; [zbool; rewrite IL in O; lia|].
  cbn [fst snd]. apply inv_send; [|eapply inv_options; eauto; reflexivity].
  intros _. exists (fsm_id f), bs. rewrite Ebs. repeat split; auto.
Qed.

Lemma session_do_same c w : inv_same w (session_do c w).
Proof. now split. Qed.

Lemma stop_echo_same w : inv_same w (stop_echo w).
Proof. unfold stop_echo. case_match; now split. Qed.

Lemma start_echo_same e w : inv_same w (start_echo e w).
Proof. unfold start_echo. case_match; now split. Qed.

#[export] Instance inv_same_preorder : PreOrder inv_same.
Proof. split; [now split|]. intros a b c [] []. split; congruence. Qed.

Lemma layer_up_same e s : inv_same (snd s) (snd (lcp_layer_up e s)).
Proof.
  destruct s as [f w]. cbn [lcp_layer_up snd]. etransitivity; [|apply start_echo_same]. case_match; now split.
Qed.

Lemma layer_finished_same s : inv_same (snd s) (snd (lcp_layer_finished s)).
Proof.
  destruct s as [f w]. unfold lcp_layer_finished. cbn [snd]. transitivity (stop_echo w); [apply stop_echo_same|].
  repeat case_match; now split.
Qed.

#[export] Instance lcp_keeping hs need rs e (E : env_ok hs e) : KeepingLayer (lcp_inv_buf hs need rs) (lcp_ops e).
Proof.
  split; cbn; try done.
  - intros s. apply inv_same_keeps, layer_up_same.
  - now intros s.
  - intros s. apply inv_same_keeps, layer_finished_same.
  - now apply conf_req_keeps.
  - intros s. apply inv_send, other_frame_ok. done.
  - intros s. apply inv_send, other_frame_ok. done.
Qed.

(** LCP is a layer as the automaton expects it: its callbacks leave the state and
    the timer of the automaton alone. *)
#[export] Instance lcp_quiet e : QuietLayer (lcp_ops e).
Proof.
  split; cbn; try done; intros [f w]; split; cbn; unfold lcp_layer_finished, lcp_send_conf_req, lcp_send_conf_nak;
    repeat case_match; simplify_eq/=; done.
Qed.

(** Replies made in the buffer of the frame. *)
Lemma send_back_keeps hs rs code w :
  u8 code <> CONFREQ -> code = u8 code -> lcp_inv_buf hs true rs w -> lcp_inv_buf hs true rs (send_back code w).
Proof.
  intros N U I. pose proof I as [_ [RS B]]. destruct (B eq_refl) as (len & R & L). unfold send_back.
  cbn [l_buf lw_buf]. set (buf := <[2%nat:=code]> (l_buf w)).
  assert (Lb : length buf = length (l_buf w)) by apply length_insert.
  assert (R' : u_read_be16 buf 4 = Ok len).
  { unfold u_read_be16 in *. unfold slice in *. rewrite Lb. case_decide; [|done].
    unfold buf. rewrite drop_insert_lt by lia. exact R. }
  rewrite R'. cbn [mbind res_bind]. rewrite slice_ok by (rewrite Lb; lia). rewrite drop_0.
  assert (I' : lcp_inv_buf hs true rs (lw_buf w buf)).
  { destruct I as [[] _]. split; [split; done|]. split; [done|]. intros _. exists len. cbn. rewrite Lb. auto. }
  apply inv_send; [|done]. intros H. exfalso. apply N. rewrite <- H, <- U. unfold frame_code.
  rewrite nth_lookup, lookup_take_lt by lia. unfold buf. rewrite list_lookup_insert_eq by lia. done.
Qed.

Lemma conf_rej_keeps hs need rs : keeps (lcp_inv_buf hs need rs) lcp_send_conf_rej.
Proof.
  intros [f w] I. cbn [snd] in *. pose proof I as [[_ _ _ IR _ _] _]. unfold lcp_send_conf_rej.
  set (payload := concat _).
  assert (L : (length payload <= length (concat (map ro_bytes (l_ropt_list w))))%nat).
  { unfold payload. clear. induction (l_ropt_list w) as [|r l IH]; cbn; [done|].
    destruct (_ =? _); cbn; rewrite !length_app; lia. }
  destruct (_ <? _) eqn:O; [zbool; lia|]. cbn [snd]. apply inv_send; [now apply other_frame_ok | done].
Qed.

(** Naks are sent by options that have something to suggest, and fit. *)
Lemma nak_options_ok c opts w :
  Forall o_ok opts -> exists opts' b w', nak_options c opts w = Some (opts', b, w') /\ link_only w w' /\
    Forall2 opt_kept opts opts' /\ Z.of_nat (length b) <= opts_len opts.
Proof.
  intros F. revert w. induction F as [|o opts Ho F IH]; intros w.
  { exists [], [], w. split; [done|]. split; [reflexivity | done]. }
  assert (S : exists b w1, (if o_state o =? LCP_OPT_NAK then h_send_conf_nak c o w else Some (o, [], w)) = Some (o, b, w1)
    /\ link_only w w1 /\ Z.of_nat (length b) <= o_len o).
  { pose proof Ho as Ho'. unfold o_ok in Ho'. unfold h_send_conf_nak. destruct (o_state o =? LCP_OPT_NAK) eqn:N; zbool.
    - destruct (o_data o) eqn:D; try tauto.
      + exists (mru_send_conf_nak mtu), w. split; [done|]. split; [reflexivity|]. rewrite (proj2 Ho'). done.
      + unfold magic_send_conf_nak. destruct (call_nzmagic magic w) as [m w1] eqn:M.
        exists ([CI_MAGIC; 6] ++ be_encode 4 m), w1. split; [done|].
        split; [eapply call_nzmagic_link; eauto|]. rewrite (proj2 Ho'). done.
    - exists [], w. split; [done|]. split; [reflexivity|]. cbn [length]. destruct (o_data o); destruct_and!; lia. }
  destruct S as (b & w1 & E & L & Lb). destruct (IH w1) as (opts' & bs & w2 & E2 & L2 & K & Ls).
  exists (o :: opts'), (b ++ bs), w2. cbn [nak_options]. rewrite E. cbn [mbind option_bind]. rewrite E2. split; [done|].
  split; [now transitivity w1|]. split; [constructor; [now apply opt_kept_refl | done]|].
  rewrite length_app. change (opts_len (o :: opts)) with (o_len o + opts_len opts). lia.
Qed.

Lemma conf_nak_keeps hs need rs c : keeps (lcp_inv_buf hs need rs) (lcp_send_conf_nak c).
Proof.
  intros [f w] I. cbn [snd] in *. pose proof I as [[_ IO IL _ _ _] _]. unfold lcp_send_conf_nak.
  destruct (nak_options_ok c _ w IO) as (opts' & b & w' & -> & L & K & Lb).
  cbn [lw_options l_conf_req_len]. rewrite (lo_req_len _ _ L), IL.
  destruct (_ <? _) eqn:O; [zbool; lia|]. cbn [snd]. apply inv_send; [now apply other_frame_ok|].
  eapply inv_options; eauto.
Qed.

#[export] Instance lcp_answering hs rs e : AnsweringLayer (lcp_inv_buf hs true rs) (lcp_ops e).
Proof.
  split; cbn.
  - intros s. now apply send_back_keeps.
  - apply conf_nak_keeps.
  - apply conf_rej_keeps.
  - intros s. now apply send_back_keeps.
Qed.

(** ** Configure-Requests received *)
Lemma reset_kept opts : Forall o_ok opts -> Forall2 opt_kept opts (map (fun o => set_o_state o LCP_OPT_NONE) opts).
Proof. induction 1; constructor; [now apply opt_kept_state | done]. Qed.

Lemma reset_verdict c opts b : verdict c (map (fun o => set_o_state o LCP_OPT_NONE) opts) b = verdict c opts b.
Proof.
  unfold verdict. induction opts as [|o opts IH]; cbn; [done|]. now destruct (o_id o =? opt_id b).
Qed.

(** A packet that is not a sequence of options is refused as a whole; otherwise
    every option gets its verdict and the answer is the worst of them. *)
Lemma recv_conf_req_spec c data w w' r :
  lcp_recv_conf_req c data w = (w', r) -> Forall o_ok (l_options w) -> l_ropt_list w = [] ->
  exists bs ok opts rs w1,
    collect_opts (length data) data = (bs, ok) /\ link_only w w1 /\ Forall2 opt_kept (l_options w) opts /\
    w' = lw_ropts (lw_options w1 opts) rs (Z.of_nat (length data)) /\ map ro_bytes rs = bs /\
    (ok = false -> r = LCP_OPT_FAIL) /\
    (ok = true -> r = worst (map (verdict c (l_options w)) bs) /\
       rs = map (fun b => mk_ropt b (verdict c (l_options w) b)) bs).
Proof.
  intros E F N. unfold lcp_recv_conf_req in E. destruct (collect_opts (length data) data) as [bs ok] eqn:C.
  rewrite N in E. cbn [app] in E. exists bs, ok. destruct ok.
  - destruct (judge_opts _ _ _ _ _) as [[[w1 opts] rs] ret] eqn:J. injection E as <- <-.
    destruct (judge_opts_spec _ _ _ _ _ _ _ _ _ J) as (L & K & Hr & Hret);
      [apply kept_ok with (l_options w), reset_kept, F | unfold LCP_OPT_REJ, LCP_OPT_ACK; lia |].
    exists opts, rs. eexists (lw_ropts w1 (l_ropt_list w) (l_ropt_len w)). split; [done|]. split.
    { destruct L. split; cbn in *; auto. }
    split; [eapply kept_trans; [apply reset_kept, F | exact K]|].
    assert (E1 : rs = map (fun b => mk_ropt b (verdict c (l_options w) b)) bs).
    { rewrite Hr, map_map. cbn. apply map_ext. intros b. now rewrite reset_verdict. }
    split; [|split; [|split; [done|]]].
    + rewrite (lo_ropt_len _ _ L). done.
    + rewrite E1, map_map. cbn. apply map_id.
    + intros _. split; [|done]. rewrite Hret, map_map. cbn [ro_bytes].
      rewrite (map_ext _ (verdict c (l_options w))) by (intros b; apply reset_verdict).
      unfold worst. clear. assert (foldr Z.min LCP_OPT_ACK (map (verdict c (l_options w)) bs) <= 1); [|lia].
      induction bs; cbn; unfold LCP_OPT_ACK in *; lia.
  - injection E as <- <-. exists (l_options w), (map (fun b => mk_ropt b LCP_OPT_NONE) bs), w.
    split; [done|]. split; [reflexivity|]. split; [|split; [|split; [|done]]].
    + apply Forall_Forall2_diag. eapply Forall_impl; eauto. apply opt_kept_refl.
    + now destruct w.
    + rewrite map_map. cbn. apply map_id.
Qed.

Lemma conf_req_inv hs need c data w w' r :
  lcp_recv_conf_req c data w = (w', r) -> lcp_inv_buf hs need [] w ->
  exists rs, lcp_inv_buf hs need rs w' /\ l_started w' = l_started w.
Proof.
  intros E I. pose proof I as [[_ IO _ _ _ _] [N _]].
  destruct (recv_conf_req_spec _ _ _ _ _ E IO N) as (bs & ok & opts & rs & w1 & C & L & K & -> & R & _ & _).
  exists rs. split; [|apply L]. pose proof (inv_options _ _ _ _ _ _ I L K) as [[] [_ B]].
  split; [|split; [done | exact B]]. split; try done. cbn. rewrite R.
  pose proof (collect_opts_sound _ _ _ _ C) as [? _]. lia.
Qed.

Lemma free_keeps hs need rs w : lcp_inv_buf hs need rs w -> lcp_inv_buf hs need [] (lcp_free_conf_req w).
Proof. intros [[] [_ B]]. split; [split; try done; cbn; lia | done]. Qed.

Lemma terminate_keeps hs need rs cause s :
  lcp_inv_buf hs need rs (snd s) -> lcp_inv_buf hs need rs (snd (terminate cause s)).
Proof. apply inv_same_keeps, session_do_same. Qed.

Lemma recv_CONFREQ_keeps hs e data s :
  env_ok hs e -> lcp_inv_buf hs true [] (snd s) -> lcp_inv_buf hs true [] (snd (recv_CONFREQ e data s)).
Proof.
  intros E I. destruct s as [f w]. unfold recv_CONFREQ.
  destruct (lcp_recv_conf_req (le_conf e) data w) as [w1 r] eqn:R.
  destruct (conf_req_inv _ _ _ _ _ _ _ R I) as (rs & I1 & _). destruct (l_started w1 && _).
  { apply free_keeps with rs. now apply send_back_keeps. }
  cbv zeta. set (r1 := if l_started w1 then _ else _). pose proof (lcp_keeping hs true rs e E).
  match goal with |- context [on_layer lcp_free_conf_req ?x] =>
    assert (I2 : lcp_inv_buf hs true rs (snd x)); [|set (s1 := x) in *; clearbody s1] end.
  { destruct (r1 =? _); [now apply (conf_req_ack_keeps _ _)|]. destruct (r1 =? _); [now apply (conf_req_nak_keeps _ _)|].
    destruct (r1 =? _); [now apply (conf_req_rej_keeps _ _) | done]. }
  apply free_keeps in I2. destruct (r1 =? _); [now apply terminate_keeps | done].
Qed.

Lemma recv_answer_keeps hs need rs h data s s' r :
  (forall b, handler_ok (h b)) -> recv_answer h data s = (s', r) ->
  lcp_inv_buf hs need rs (snd s) -> lcp_inv_buf hs need rs (snd s').
Proof.
  intros Hh E I. destruct s as [f w]. unfold recv_answer in E.
  destruct (negb _); [now injection E as <- <-|].
  destruct (answer_loop _ _ _ _ _ _) as [[w1 opts] res] eqn:A. injection E as <- <-.
  pose proof I as [[_ IO _ _ _ _] _]. destruct (answer_loop_ok _ _ _ _ _ _ _ _ _ Hh IO A) as [L K].
  eapply inv_options; eauto.
Qed.

Lemma recv_ANSWER_keeps hs need rs h data s k :
  (forall b, handler_ok (h b)) ->
  (forall s, lcp_inv_buf hs need rs (snd s) -> lcp_inv_buf hs need rs (snd (k s))) ->
  lcp_inv_buf hs need rs (snd s) -> lcp_inv_buf hs need rs (snd (recv_ANSWER (recv_answer h data s) k)).
Proof.
  intros Hh Hk I. unfold recv_ANSWER. destruct (recv_answer h data s) as [s' r] eqn:A.
  pose proof (recv_answer_keeps _ _ _ _ _ _ _ _ Hh A I). repeat case_match; auto. now apply terminate_keeps.
Qed.

(** ** Every event keeps the invariant *)
Lemma inv_weaken hs need rs w : lcp_inv_buf hs need rs w -> lcp_inv_buf hs false rs w.
Proof. intros (I & R & _). split; [exact I|]. split; [exact R | discriminate]. Qed.

Lemma echo_reply_keeps hs rs e w len :
  lcp_inv_buf hs true rs w -> u_read_be16 (l_buf w) 4 = Ok len -> 8 <= len <= Z.of_nat (length (l_buf w)) - 2 ->
  lcp_inv_buf hs false rs (send_echo_reply e w).
Proof.
  intros I R L. unfold send_echo_reply. rewrite R. destruct (_ <? _); [now apply inv_weaken in I|].
  cbn [lw_echo l_buf l_magic]. set (m := be_encode 4 (l_magic w)).
  assert (Lm : length m = 4%nat) by apply length_be_encode. unfold LCP_HDR.
  rewrite splice_ok by (rewrite length_insert; lia). cbn [mbind res_bind mret res_ret].
  rewrite slice_ok by (rewrite !length_app, length_take, length_drop, length_insert; lia). rewrite drop_0.
  apply inv_send.
  - intros H. exfalso. revert H. unfold frame_code. rewrite nth_lookup, lookup_take_lt by lia.
    rewrite lookup_app_l by (rewrite length_take, length_insert; lia).
    rewrite lookup_take_lt by lia. rewrite list_lookup_insert_eq by lia. done.
  - apply (inv_same_keeps _ _ _ (lw_buf w (l_buf (lw_buf w (take 6 (<[2%nat:=ECHOREP]> (l_buf w)) ++ m ++
      drop (6 + length m) (<[2%nat:=ECHOREP]> (l_buf w))))))); [now split|].
    destruct I as ([] & ? & _). repeat split; auto; done.
Qed.

Lemma echo_repl_keeps hs need rs e data w :
  lcp_inv_buf hs need rs w -> lcp_inv_buf hs need rs (lcp_recv_echo_repl e data w).
Proof.
  apply inv_same_keeps. unfold lcp_recv_echo_repl. destruct (negb _) eqn:L; [now split|].
  bools. rewrite read_be32_total by lia. destruct (negb _ && _); now split.
Qed.

Lemma dispatch_keeps hs e code len data s :
  env_ok hs e -> lcp_inv_buf hs true [] (snd s) -> u_read_be16 (l_buf (snd s)) 4 = Ok len ->
  len <= Z.of_nat (length (l_buf (snd s))) - 2 ->
  lcp_inv_buf hs false [] (snd (lcp_dispatch e code len data s)).
Proof.
  intros E I R L. unfold lcp_dispatch. pose proof (lcp_keeping hs true [] e E).
  destruct (code =? CONFREQ); [eapply inv_weaken, recv_CONFREQ_keeps; eauto|].
  destruct (code =? CONFACK).
  { eapply inv_weaken, recv_ANSWER_keeps; eauto using recv_ack_ok. intros. now apply recv_conf_ack_keeps. }
  destruct (code =? CONFNAK).
  { eapply inv_weaken, recv_ANSWER_keeps; eauto using recv_nak_ok. intros. now apply recv_conf_rej_keeps. }
  destruct (code =? CONFREJ).
  { eapply inv_weaken, recv_ANSWER_keeps; eauto using recv_rej_ok. intros. now apply recv_conf_rej_keeps. }
  destruct (code =? TERMREQ); [eapply inv_weaken, terminate_keeps, recv_term_req_keeps; eauto|].
  destruct (code =? TERMACK); [eapply inv_weaken, recv_term_ack_keeps; eauto|].
  destruct (code =? CODEREJ); [eapply inv_weaken, code_rej_bad_keeps; eauto|].
  destruct (code =? ECHOREQ).
  { destruct (_ || _) eqn:S; [eapply inv_weaken; eauto|]. bools. eapply echo_reply_keeps; eauto. }
  destruct (code =? ECHOREP).
  { destruct (_ || _) eqn:S; [eapply inv_weaken; eauto|]. eapply inv_weaken, echo_repl_keeps; eauto. }
  destruct (code =? PROTOREJ).
  { destruct (_ || _) eqn:S; [eapply inv_weaken; eauto|]. bools. cbn [on_layer snd]. unfold LCP_HDR in *.
    rewrite read_be16_take by lia. eapply inv_weaken, inv_same_keeps; [apply session_do_same | eauto]. }
  destruct (code =? DISCARDREQ); [eapply inv_weaken; eauto|].
  destruct (code =? IDENT); [eapply inv_weaken; eauto|].
  eapply inv_weaken, recv_unk_keeps; eauto. apply _.
Qed.

Lemma recv_keeps hs e s :
  env_ok hs e -> lcp_inv_buf hs false [] (snd s) -> lcp_inv_buf hs false [] (snd (lcp_recv e s)).
Proof.
  intros E I. destruct s as [f w]. unfold lcp_recv. cbn [snd] in I. unfold PPP_HEADERLEN, PPP_HDRLEN.
  destruct (_ <? _) eqn:Z; [done|]. zbool.
  destruct (l_buf w) as [|b0 [|b1 [|code [|id [|len1 [|len0 rest]]]]]] eqn:B; try (cbn [length] in Z; lia).
  destruct (_ || _) eqn:L; [done|]. bools. destruct (is_answer code && negb _); [done|].
  destruct (is_answer code && _); [done|]. destruct (_ || _ || _); [done|].
  assert (R : u_read_be16 (l_buf w) 4 = Ok (be_decode [len1; len0])) by (now rewrite B).
  assert (Lb : be_decode [len1; len0] <= Z.of_nat (length (l_buf w)) - 2) by (rewrite B; lia).
  rewrite slice_ok by (rewrite B in Lb; cbn [length] in Lb; lia).
  apply dispatch_keeps; auto. destruct I as (? & ? & _). split; [done|]. split; [done|].
  intros _. eexists. split; [exact R|]. split; [lia | exact Lb].
Qed.

Lemma lcp_step_keeps hs s ev :
  env_ok hs (fst ev) -> lcp_inv_buf hs false [] (snd s) -> lcp_inv_buf hs false [] (snd (lcp_step s ev)).
Proof.
  destruct ev as [e ev]. cbn [fst]. intros E I. pose proof (lcp_keeping hs false [] e E). destruct ev; cbn [lcp_step].
  - apply recv_keeps; [done|]. destruct I as ([] & ? & _). repeat split; auto; done.
  - now apply restart_keeps.
  - destruct s as [f w]. unfold send_echo_request. cbn [snd] in *.
    repeat case_match; cbn [snd]; try done; try (eapply inv_same_keeps; [|exact I]; now split).
    apply inv_send; [now apply other_frame_ok|]. eapply inv_same_keeps; [|exact I]. now split.
  - destruct s as [f w]. unfold lcp_layer_finish. destruct (l_started w).
    + apply close_keeps; [done|]. eapply inv_same_keeps; [apply stop_echo_same | exact I].
    + eapply inv_same_keeps; [apply session_do_same | exact I].
  - apply inv_send; [now apply other_frame_ok | exact I].
Qed.

Lemma lcp_run_keeps hs s evs :
  Forall (fun ev => env_ok hs (fst ev)) evs -> lcp_inv_buf hs false [] (snd s) ->
  lcp_inv_buf hs false [] (snd (lcp_run s evs)).
Proof.
  intros F. revert s. induction F as [|ev evs E _ IH]; intros s I; [done|]. apply IH. now apply lcp_step_keeps.
Qed.

(** ** The start of the layer *)
Lemma foldl_max_bound ds l :
  l <= foldl (fun l d => if l <? ad_len d then ad_len d else l) l ds /\
  Forall (fun d => ad_len d <= foldl (fun l d => if l <? ad_len d then ad_len d else l) l ds) ds.
Proof.
  revert l. induction ds as [|d ds IH]; intros l; cbn [foldl]; [split; [lia | constructor]|].
  set (m := if l <? ad_len d then _ else _). assert (l <= m /\ ad_len d <= m) by (unfold m; case_match; zbool; lia).
  destruct (IH m) as [H1 H2]. split; [lia|]. constructor; [lia | done].
Qed.

Lemma auth_init_ok c : o_ok (auth_init c).
Proof.
  unfold auth_init, o_ok. cbn [o_data o_id o_len o_state]. set (ds := if conf_noauth c then _ else _).
  destruct (foldl_max_bound ds 0) as [H0 H]. split; [done|]. split; [done|]. split; [lia|].
  assert (D : Forall (fun d => ad_ok d /\ ad_state d = LCP_OPT_NONE) ds).
  { unfold ds. destruct (conf_noauth c); [constructor|]. apply Forall_map, Forall_true. intros h. now destruct h. }
  split.
  - rewrite Forall_forall in *. intros d Hd. split; [now apply D|]. apply H in Hd. lia.
  - eapply Forall_impl; [exact D|]. now intros d [].
Qed.

Lemma h_init_ok c h w o w' : h_init c h w = (o, w') -> o_ok o /\ link_only w w'.
Proof.
  destruct h; cbn; intros E.
  - injection E as <- <-. split; [done | apply link_only_link].
  - unfold magic_init in E. destruct (call_nzmagic 0 w) as [m w1] eqn:M. injection E as <- <-. split; [done|].
    transitivity w1; [eapply call_nzmagic_link; eauto | apply link_only_link].
  - injection E as <- <-. split; [done | reflexivity].
  - injection E as <- <-. split; [done | reflexivity].
  - injection E as <- <-. split; [apply auth_init_ok | reflexivity].
Qed.

Lemma opts_len_app l k : opts_len (l ++ k) = opts_len l + opts_len k.
Proof. induction l as [|o l IH]; cbn; [done|]. unfold opts_len in *. lia. Qed.

Lemma add_option_keeps w w' o :
  o_ok o -> link_only w w' -> lcp_inv_buf [] false [] w ->
  lcp_inv_buf [] false [] (lw_req_len (lw_options w' (l_options w' ++ [o])) (l_conf_req_len w' + o_len o)).
Proof.
  intros O [E1 E2 E3 E4 _ _ _ E6 _ E7] ([I1 I2 I3 I4 _ I6] & R & _).
  split; [|split; [cbn; congruence | done]]. split; cbn; try congruence.
  - rewrite E1. apply Forall_app. auto.
  - rewrite E1, E2, I3, opts_len_app. cbn. lia.
Qed.

Lemma init_options_keeps c hnds w :
  lcp_inv_buf [] false [] w ->
  lcp_inv_buf [] false [] (init_options c hnds w) /\ l_sent (init_options c hnds w) = l_sent w /\
  (conf_noauth c = false -> In auth_opt_hnd hnds \/ Exists (asks_auth (auth_handlers c)) (l_options w) ->
   Exists (asks_auth (auth_handlers c)) (l_options (init_options c hnds w))).
Proof.
  revert w. induction hnds as [|h hnds IH]; intros w I; cbn [init_options].
  { split; [done|]. split; [done|]. now intros _ [[]|]. }
  destruct (h_init c h w) as [o w1] eqn:Hi. destruct (h_init_ok _ _ _ _ _ Hi) as [O L].
  destruct (IH _ (add_option_keeps _ _ _ O L I)) as (I' & S & A). split; [done|]. split.
  { rewrite S. cbn. apply L. }
  intros N X. apply A; [done|]. cbn [l_options lw_req_len lw_options]. rewrite (lo_options _ _ L).
  destruct X as [[->|X]|X]; [right|now left|right]; apply Exists_app; [right|now left].
  constructor. cbn in Hi. injection Hi as <- _. unfold asks_auth, auth_init. cbn. rewrite N, map_map.
  rewrite (map_ext _ id); [apply map_id|]. now intros [].
Qed.

Lemma start_keeps hs e fc rnd mru mtu flags random :
  env_ok hs e -> (hs <> [] -> hs = auth_handlers (le_conf e) /\ In auth_opt_hnd (option_handlers (le_conf e))) ->
  lcp_inv_buf hs false [] (snd (fst (lcp_layer_start e (lcp_layer_init fc rnd mru mtu flags random)))).
Proof.
  intros E H. unfold lcp_layer_start. cbn [fst snd lcp_layer_init].
  set (w := lcp_zeroed mru mtu flags random).
  assert (I0 : lcp_inv_buf [] false [] (lw_req_len (lw_options w []) (Z.of_nat LCP_HDR))).
  { split; [|split; done]. split; cbn; try done. }
  destruct (init_options_keeps (le_conf e) (option_handlers (le_conf e)) _ I0) as (([I1 I2 I3 I4 _ _] & R & _) & S & A).
  fold (lcp_options_init (le_conf e) w) in *.
  assert (I : lcp_inv_buf hs false [] (lcp_options_init (le_conf e) w)).
  { split; [|split; done]. split; try done; [|rewrite S; constructor].
    intros N. destruct (H N) as [-> X]. apply A; [now apply E | now left]. }
  pose proof (lcp_keeping hs false [] e E).
  match goal with |- context [ppp_fsm_open _ ?x] => set (s1 := x) end.
  assert (I1' : lcp_inv_buf hs false [] (snd s1)) by (now apply lower_up_keeps).
  pose proof (open_keeps _ (lcp_ops e) s1 I1') as I2'.
  destruct (ppp_fsm_open (lcp_ops e) s1) as [s2 r]. exact I2'.
Qed.

Lemma env_ok_nil e : env_ok [] e.
Proof. now intros []. Qed.


(** C3. Authentication cannot be negotiated away: when the session needs it, every
    Configure-Request LCP ever sends, whatever the peer refused before, asks for
    one of the registered protocols, and it is a sequence of well-formed options
    that the receiving side of the protocol parses back. *)
Theorem lcp_always_requests_auth (fc : fsm_conf) (rnd mru mtu flags : Z) (random : list Z) (e : lcp_env)
    (evs : list (lcp_env * lcp_event)) (frame : list Z) :
  In auth_opt_hnd (option_handlers (le_conf e)) -> auth_handlers (le_conf e) <> [] ->
  Forall (fun ev => conf_noauth (le_conf (fst ev)) = false) ((e, LRestart) :: evs) ->
  In frame (l_sent (snd (lcp_run (fst (lcp_layer_start e (lcp_layer_init fc rnd mru mtu flags random))) evs))) ->
  frame_code frame = CONFREQ ->
  exists id bs h, frame = lcp_frame CONFREQ id (concat bs) /\
    collect_opts (length (concat bs)) (concat bs) = (bs, true) /\
    In h (auth_handlers (le_conf e)) /\ In (auth_request h) bs.
Proof.
  intros A N F Hin Hc. inversion_clear F as [|? ? F0 F1].
  set (hs := auth_handlers (le_conf e)) in *.
  assert (I : lcp_inv_buf hs false [] (snd (lcp_run (fst (lcp_layer_start e (lcp_layer_init fc rnd mru mtu flags random))) evs))).
  { apply lcp_run_keeps; [|now apply start_keeps]. eapply Forall_impl; [exact F1|]. now intros ev Hev _. }
  destruct I as [[_ _ _ _ _ S] _]. rewrite List.Forall_forall in S.
  destruct (S frame Hin Hc) as (id & bs & -> & W & R). destruct (R N) as (h & Hh & Hb).
  exists id, bs, h. split; [done|]. split; [now apply collect_opts_concat | done].
Qed.

(** ** The answers to a Configure-Request *)
Lemma lcp_frame_bytes code id payload :
  lcp_frame code id payload =
    192 :: 33 :: u8 code :: u8 id :: be_encode 2 (Z.of_nat (length payload) + 4) ++ payload.
Proof. reflexivity. Qed.

(** A frame that is complete reaches the [switch] with its payload. *)
Lemma lcp_recv_frame e f w code id payload :
  l_buf w = lcp_frame code id payload -> Z.of_nat (length payload) + 4 < 65536 ->
  0 <= code < 256 -> 0 <= id < 256 -> is_answer code = false ->
  fsm_state f <> FSM_Initial -> fsm_state f <> FSM_Closed -> l_terminating w = false ->
  lcp_recv e (f, w) = lcp_dispatch e code (Z.of_nat (length payload) + 4) payload (set_recv_id id f, w).
Proof.
  intros B L Hc Hi A N1 N2 T. unfold lcp_recv. rewrite B, lcp_frame_bytes. cbn [be_encode app].
  set (n := Z.of_nat (length payload) + 4) in *.
  assert (D : be_decode [(n `div` 256 ^ Z.of_nat 1) `mod` 256; (n `div` 256 ^ Z.of_nat 0) `mod` 256] = n).
  { change [_; _] with (be_encode 2 n). rewrite be_decode_encode. apply Z.mod_small. cbn. lia. }
  rewrite D, !u8_small, A, T by done. cbn [andb]. unfold PPP_HEADERLEN, PPP_HDRLEN.
  destruct (_ <? _) eqn:E1; [zbool; cbn [length] in E1; lia|].
  destruct (_ || _) eqn:E2; [bools; cbn [length] in *; lia|].
  rewrite !bool_decide_false by done. cbn [orb].
  replace (Z.to_nat (n - 4)) with (length payload) by lia. rewrite slice_whole. done.
Qed.

Lemma send_back_frame code code' id payload w :
  l_buf w = lcp_frame code id payload -> Z.of_nat (length payload) + 4 < 65536 -> u8 code' = code' ->
  send_back code' w = chan_send (lcp_frame code' id payload) (lw_buf w (lcp_frame code' id payload)).
Proof.
  intros B L U. unfold send_back. rewrite B.
  replace (<[2%nat:=code']> (lcp_frame code id payload)) with (lcp_frame code' id payload)
    by (rewrite !lcp_frame_bytes, U; reflexivity).
  cbn [l_buf lw_buf]. set (n := Z.of_nat (length payload) + 4) in *.
  assert (R : u_read_be16 (lcp_frame code' id payload) 4 = Ok n).
  { apply (read_be16_app [192; 33; u8 code'; u8 id] n payload). lia. }
  rewrite R. cbn [mbind res_bind].
  replace (Z.to_nat (n + 2)) with (length (lcp_frame code' id payload))
    by (rewrite lcp_frame_bytes; cbn [length]; rewrite length_app, length_be_encode; lia).
  now rewrite slice_whole.
Qed.

Lemma worst_ack vs : worst vs = LCP_OPT_ACK <-> Forall (fun v => LCP_OPT_ACK <= v) vs.
Proof.
  unfold worst. induction vs as [|v vs IH]; cbn; [split; auto|]. split.
  - intros H. assert (foldr Z.min LCP_OPT_ACK vs <= LCP_OPT_ACK) by (clear; induction vs; cbn; lia).
    constructor; [lia|]. apply IH. lia.
  - intros H. inversion_clear H as [|? ? Hv F]. apply IH in F. lia.
Qed.

Lemma worst_rej vs : Forall (fun v => LCP_OPT_REJ <= v) vs -> In LCP_OPT_REJ vs -> worst vs = LCP_OPT_REJ.
Proof.
  unfold worst. induction 1 as [|v vs Hv F IH]; intros H; [easy|]. cbn. 
  assert (LCP_OPT_REJ <= foldr Z.min LCP_OPT_ACK vs)
    by (clear - F; induction F; cbn; unfold LCP_OPT_REJ, LCP_OPT_ACK in *; lia).
  destruct H as [->|H]; [lia|]. apply IH in H. lia.
Qed.

Lemma conf_req_parsed hs need c bs w :
  lcp_inv_buf hs need [] w -> Forall opt_wf bs ->
  exists w1 opts, link_only w w1 /\ Forall2 opt_kept (l_options w) opts /\
    lcp_recv_conf_req c (concat bs) w =
      (lw_ropts (lw_options w1 opts) (map (fun b => mk_ropt b (verdict c (l_options w) b)) bs)
         (Z.of_nat (length (concat bs))),
       worst (map (verdict c (l_options w)) bs)).
Proof.
  intros ([_ IO _ _ _ _] & N & _) W. destruct (lcp_recv_conf_req c (concat bs) w) as [w' r] eqn:E.
  destruct (recv_conf_req_spec _ _ _ _ _ E IO N) as (bs' & ok & opts & rs & w1 & C & L & K & -> & _ & _ & G).
  rewrite collect_opts_concat in C by auto. injection C as <- <-. destruct (G eq_refl) as [-> ->].
  exists w1, opts. auto.
Qed.

Lemma confreq_ack_sent e f w id payload :
  negotiating (fsm_state f) = true -> l_buf w = lcp_frame CONFREQ id payload ->
  Z.of_nat (length payload) + 4 < 65536 ->
  l_sent (snd (ppp_fsm_recv_conf_req_ack (lcp_ops e) (f, w))) = l_sent w ++ [lcp_frame CONFACK id payload].
Proof.
  intros N B L. unfold ppp_fsm_recv_conf_req_ack. cbn [fst].
  assert (S : send_back CONFACK w = chan_send (lcp_frame CONFACK id payload) (lw_buf w (lcp_frame CONFACK id payload)))
    by (eapply send_back_frame; eauto).
  destruct (fsm_state f) eqn:F; try discriminate; cbn; unfold lcp_send_conf_ack; cbn [fst snd]; rewrite S; try reflexivity.
  rewrite (is_sent _ _ (start_echo_same _ _)). now case_match.
Qed.

Lemma confreq_rej_sent e f w :
  negotiating (fsm_state f) = true -> conf_failure f + 1 <> max_failure f ->
  l_sent (snd (ppp_fsm_recv_conf_req_rej (lcp_ops e) (f, w))) = l_sent w ++
    [lcp_frame CONFREJ (fsm_recv_id f)
       (concat (map ro_bytes (List.filter (fun r => ro_state r =? LCP_OPT_REJ) (l_ropt_list w))))].
Proof.
  intros N C. unfold ppp_fsm_recv_conf_req_rej, count_failure. cbn [fst upd set_conf_failure conf_failure max_failure].
  apply Z.eqb_neq in C. rewrite C.
  destruct (fsm_state f) eqn:F; try discriminate; cbn; now case_match.
Qed.

Lemma reachable_inv s : lcp_reachable s -> lcp_inv_buf [] false [] (snd s).
Proof.
  intros (fc & rnd & mru & mtu & flags & random & e & evs & ->). apply lcp_run_keeps.
  - apply Forall_forall. intros ev _. apply env_ok_nil.
  - apply start_keeps; [apply env_ok_nil | done].
Qed.

(** C16. While LCP negotiates, the answer to a Configure-Request is the one RFC 1661
    prescribes: if every option is acceptable, a Configure-Ack with the same
    identifier and exactly the options received; if some option is unknown or must
    be refused, a Configure-Reject with the same identifier that lists exactly
    those options, unmodified and in the order received.  The verdict on an option
    does not depend on the options before it. *)
Theorem lcp_conf_req_answer (s : fst_t lcp_t) (e : lcp_env) (id : Z) (bs : list (list Z)) :
  lcp_reachable s -> negotiating (fsm_state (fst s)) = true -> conf_failure (fst s) + 1 <> max_failure (fst s) ->
  l_started (snd s) = false -> l_terminating (snd s) = false ->
  Forall opt_wf bs -> Z.of_nat (length (concat bs)) + 4 < 65536 -> 0 <= id < 256 ->
  let v := verdict (le_conf e) (l_options (snd s)) in
  let s' := lcp_step s (e, LFrame (lcp_frame CONFREQ id (concat bs))) in
  (Forall (fun b => v b = LCP_OPT_ACK) bs ->
     l_sent (snd s') = l_sent (snd s) ++ [lcp_frame CONFACK id (concat bs)]) /\
  (Exists (fun b => v b = LCP_OPT_REJ) bs ->
     l_sent (snd s') = l_sent (snd s) ++
       [lcp_frame CONFREJ id (concat (List.filter (fun b => v b =? LCP_OPT_REJ) bs))]).
Proof.
  intros R N C St T W L Hid v s'. destruct s as [f w]. cbn [fst snd] in *. pose proof (reachable_inv _ R) as I.
  set (w0 := lw_buf w (lcp_frame CONFREQ id (concat bs))).
  assert (I0 : lcp_inv_buf [] false [] w0) by (destruct I as ([] & ? & _); repeat split; done).
  assert (E : s' = recv_CONFREQ e (concat bs) (set_recv_id id f, w0)).
  { change (lcp_recv e (f, w0) = recv_CONFREQ e (concat bs) (set_recv_id id f, w0)).
    rewrite (lcp_recv_frame e f w0 CONFREQ id (concat bs)); auto; try done; destruct (fsm_state f); done. }
  clearbody s'. destruct (conf_req_parsed [] false (le_conf e) bs w0 I0 W) as (w1 & opts & Lo & _ & P).
  unfold recv_CONFREQ in E. rewrite P in E. cbn [l_started lw_ropts lw_options] in E.
  rewrite (lo_started _ _ Lo) in E. cbn [w0 lw_buf l_started] in E. rewrite St in E. cbn [andb] in E.
  change (l_options w0) with (l_options w) in *. fold v in E. set (w2 := lw_ropts _ _ _) in E.
  assert (B2 : l_buf w2 = lcp_frame CONFREQ id (concat bs)) by apply (lo_buf _ _ Lo).
  assert (S2 : l_sent w2 = l_sent w) by apply (lo_sent _ _ Lo).
  split; intros H.
  - assert (V : worst (map v bs) = LCP_OPT_ACK).
    { apply worst_ack, Forall_map. eapply Forall_impl; [exact H|]. intros b Hb. cbn. now rewrite Hb. }
    rewrite V in E. cbn in E. rewrite E. cbn. rewrite <- S2. now apply confreq_ack_sent.
  - assert (V : worst (map v bs) = LCP_OPT_REJ).
    { apply worst_rej; [apply Forall_map, Forall_true; intros b; apply verdict_range|].
      apply List.Exists_exists in H as (b & Hb & <-). now apply in_map. }
    assert (P2 : map ro_bytes (List.filter (fun r => ro_state r =? LCP_OPT_REJ) (l_ropt_list w2)) =
      List.filter (fun b => v b =? LCP_OPT_REJ) bs).
    { unfold w2. cbn [l_ropt_list lw_ropts]. clear. induction bs as [|b bs IH]; cbn; [done|].
      destruct (v b =? LCP_OPT_REJ); cbn; now rewrite IH. }
    rewrite V in E. cbn in E. rewrite E. cbn. now rewrite confreq_rej_sent, S2, P2 by done.
Qed.

(** ** A dead peer *)

Lemma silent_step n f w e :
  silent n w e ->
  send_echo_request e (f, w) =
    if n <? l_echo_sent w then (f, session_do (ap_session_terminate TERM_LOST_CARRIER true) w)
    else (set_id (u8 (fsm_id f + 1)) f,
          chan_send (lcp_frame ECHOREQ (fsm_id f) (be_encode 4 (l_magic w)))
            (lw_echo w (l_echo_timer w) (l_echo_sent w + 1) (l_last_ipackets w) (l_last_echo_ts w))).
Proof.
  intros [<- H]. unfold send_echo_request.
  destruct H as [H|[H1 H2]].
  - rewrite H. done.
  - rewrite H1, Z.eqb_refl, andb_false_r.
    replace (_ <? conf_echo_timeout (le_conf e)) with false by (symmetry; apply Z.ltb_ge; lia).
    now rewrite andb_false_r.
Qed.

Lemma u8_id code x y payload : u8 x = u8 y -> lcp_frame code x payload = lcp_frame code y payload.
Proof. intros E. unfold lcp_frame. now rewrite E. Qed.

Lemma silent_run es : forall n f w,
  Forall (silent n w) es -> l_echo_sent w + Z.of_nat (length es) <= n + 1 ->
  exists f' w', lcp_run (f, w) (map (fun e => (e, LEcho)) es) = (f', w') /\
    l_sent w' = l_sent w ++ map (fun i => lcp_frame ECHOREQ (fsm_id f + Z.of_nat i) (be_encode 4 (l_magic w))) (seq 0 (length es)) /\
    l_calls w' = l_calls w /\ l_echo_sent w' = l_echo_sent w + Z.of_nat (length es) /\
    forall e, silent n w e -> silent n w' e.
Proof.
  induction es as [|e es IH]; intros n f w F L.
  { exists f, w. cbn. rewrite app_nil_r, Z.add_0_r. auto. }
  inversion_clear F as [|? ? He F']. cbn [map]. unfold lcp_run. cbn [foldl lcp_step].
  rewrite (silent_step n f w e He). cbn [length] in L.
  destruct (_ <? _) eqn:E; zbool; [lia|]. set (w1 := chan_send _ _). set (f1 := set_id _ f).
  destruct (IH n f1 w1) as (f' & w' & Hr & Hs & Hc & He' & Hq); [done | cbn; lia |].
  exists f', w'. split; [exact Hr|]. cbn [w1 chan_send l_calls lw_echo l_echo_sent l_sent l_magic] in *.
  split; [|split; [exact Hc | split; [cbn [length]; lia | exact Hq]]].
  rewrite Hs, <- app_assoc. cbn [length seq map app]. f_equal. f_equal.
  { f_equal. lia. }
  rewrite <- seq_shift, map_map. apply map_ext. intros i. apply u8_id. cbn [f1 set_id fsm_id].
  unfold u8. rewrite Zplus_mod_idemp_l. f_equal. lia.
Qed.

(** A peer that stays silent is given up: with [lcp-echo-failure = n], the next
    [n + 1] expiries of the echo timer each send one Echo-Request, with successive
    identifiers and the magic number of the link, and nothing else happens; the one
    after them ends the session with the cause Lost-Carrier. *)
Theorem lcp_dead_peer (n : nat) (f : ppp_fsm_t) (w : lcp_t) (es : list lcp_env) (e : lcp_env) :
  Forall (silent (Z.of_nat n) w) (e :: es) -> length es = S n -> l_echo_sent w = 0 ->
  let s := lcp_run (f, w) (map (fun e => (e, LEcho)) es) in
  l_sent (snd s) = l_sent w ++
    map (fun i => lcp_frame ECHOREQ (fsm_id f + Z.of_nat i) (be_encode 4 (l_magic w))) (seq 0 (S n)) /\
  l_calls (snd s) = l_calls w /\
  l_calls (snd (lcp_step s (e, LEcho))) = l_calls w ++ [ap_session_terminate TERM_LOST_CARRIER true].
Proof.
  intros F L Z s. inversion_clear F as [|? ? He F'].
  destruct (silent_run es (Z.of_nat n) f w F') as (f' & w' & Hr & Hs & Hc & Hn & Hq); [lia|].
  unfold s. rewrite Hr. cbn [fst snd lcp_step]. rewrite L in Hs. split; [exact Hs|]. split; [exact Hc|].
  rewrite (silent_step (Z.of_nat n)) by auto. destruct (_ <? _) eqn:E; zbool; [|lia].
  cbn. now rewrite Hc.
Qed.

(** ** An option given twice *)
Lemma nak_none c opts w :
  Forall (fun o => o_state o <> LCP_OPT_NAK) opts -> nak_options c opts w = Some (opts, [], w).
Proof.
  induction 1 as [|o opts Ho _ IH]; cbn [nak_options]; [done|]. apply Z.eqb_neq in Ho. rewrite Ho. cbn.
  now rewrite IH.
Qed.

(** One option received: where its verdict is stored. *)
Lemma judge_one c b w opts :
  Forall o_ok opts -> (exists o, In o opts /\ o_id o = opt_id b) ->
  exists pre o post w' o', opts = pre ++ o :: post /\ Forall (fun o => o_id o <> opt_id b) pre /\ o_id o = opt_id b /\
    link_only w w' /\ opt_kept o o' /\ o_state o' = verdict c opts b /\
    (forall b', verdict c (pre ++ o' :: post) b' = verdict c opts b') /\
    forall ropts ret, judge_opts c (mk_ropt b LCP_OPT_NONE :: ropts) w opts ret =
      let '(w2, opts2, ropts2, ret2) :=
        judge_opts c ropts w' (pre ++ o' :: post) (if verdict c opts b <? ret then verdict c opts b else ret) in
      (w2, opts2, mk_ropt b (verdict c opts b) :: ropts2, ret2).
Proof.
  intros F (o0 & Hin & Hid). cbn [judge_opts ro_bytes].
  destruct (with_option _ _ w opts) as [[[w1 opts1] r]|] eqn:W.
  2:{ apply with_option_none in W. rewrite List.Forall_forall in W. now apply W in Hin. }
  destruct (with_option_some _ _ _ _ _ _ _ W) as (pre & o & post & o' & -> & P & Hid' & Ho & ->).
  destruct (h_recv_conf_req c b w o) as [[w0 o1] r0] eqn:H0. injection Ho as -> <- <-.
  destruct (recv_req_spec _ _ _ _ _ _ _ H0) as (L & K & Hr & V); [now apply Forall_app in F as [_ F]; inversion F|].
  assert (Hv : verdict c (pre ++ o :: post) b = r0) by (rewrite verdict_here; auto).
  exists pre, o, post, w1, (set_o_state o1 r0). rewrite Hv. repeat (split; [done|]). split; [|done].
  intros b'. apply verdict_insert; [apply K | exact V].
Qed.

Lemma verdict_known c opts b : verdict c opts b <> LCP_OPT_REJ -> exists o, In o opts /\ o_id o = opt_id b.
Proof.
  unfold verdict. destruct (List.find _ opts) as [o|] eqn:E; [|done]. intros _. exists o.
  apply find_some in E as [? E]. zbool. auto.
Qed.

Lemma first_unique id pre pre2 o o2 post post2 :
  Forall (fun o => o_id o <> id) pre -> Forall (fun o => o_id o <> id) pre2 -> o_id o = id -> o_id o2 = id ->
  pre ++ o :: post = pre2 ++ o2 :: post2 -> pre2 = pre /\ post2 = post.
Proof.
  intros P. revert pre2. induction P as [|x pre Hx _ IH]; intros pre2 P2 H1 H2 E; destruct P2 as [|y pre2 Hy P2];
    cbn in E; injection E as -> E; try congruence; [auto|].
  destruct (IH pre2 P2 H1 H2 E) as [-> ->]. auto.
Qed.

(** After a good value for the option of a bad one, no option is in the state NAK. *)
Lemma judge_twice c b1 b2 w opts :
  Forall o_ok opts -> Forall (fun o => o_state o <> LCP_OPT_NAK) opts -> opt_id b1 = opt_id b2 ->
  verdict c opts b1 = LCP_OPT_NAK -> verdict c opts b2 = LCP_OPT_ACK ->
  exists w' opts', link_only w w' /\ Forall (fun o => o_state o <> LCP_OPT_NAK) opts' /\
    judge_opts c [mk_ropt b1 LCP_OPT_NONE; mk_ropt b2 LCP_OPT_NONE] w opts 1 =
      (w', opts', [mk_ropt b1 LCP_OPT_NAK; mk_ropt b2 LCP_OPT_ACK], LCP_OPT_NAK).
Proof.
  intros F S Hid V1 V2.
  destruct (judge_one c b1 w opts F) as (pre & o & post & w1 & o1 & -> & P & I1 & L1 & K & S1 & V & J1);
    [apply (verdict_known c); rewrite V1; discriminate|].
  pose proof (kept_insert _ _ _ _ F K) as K1.
  destruct (judge_one c b2 w1 _ (kept_ok _ _ K1)) as (pre2 & o2 & post2 & w2 & o3 & E & P2 & I2 & L2 & _ & S3 & _ & J2);
    [apply (verdict_known c); rewrite V, V2; discriminate|].
  rewrite <- Hid in P2, I2. destruct (first_unique (opt_id b1) pre pre2 o1 o2 post post2) as [-> ->]; auto.
  { destruct K as (_ & -> & _). done. }
  rewrite V, V2 in S3. apply Forall_app in S as [Sp Sq]. inversion_clear Sq as [|? ? _ Sq'].
  exists w2, (pre ++ o3 :: post). split; [now transitivity w1|]. split.
  - apply Forall_app. split; [done|]. constructor; [rewrite S3; discriminate | done].
  - rewrite J1, J2, V, V1, V2. done.
Qed.

Lemma confreq_nak_empty e f w :
  negotiating (fsm_state f) = true -> conf_failure f + 1 <> max_failure f ->
  Forall (fun o => o_state o <> LCP_OPT_NAK) (l_options w) ->
  l_sent (snd (ppp_fsm_recv_conf_req_nak (lcp_ops e) (f, w))) = l_sent w ++ [lcp_frame CONFNAK (fsm_recv_id f) []].
Proof.
  intros N C S. unfold ppp_fsm_recv_conf_req_nak, count_failure. cbn [fst upd set_conf_failure conf_failure max_failure].
  apply Z.eqb_neq in C. rewrite C.
  destruct (fsm_state f) eqn:F; try discriminate; cbn; rewrite nak_none by done; cbn; now case_match.
Qed.

(** A Configure-Request that gives an option twice, first with a value LCP does
    not accept and then with one it does, is answered with a Configure-Nak that
    names no option: the verdict on the packet is the worst of the two, but the
    option remembers the last. *)
Theorem lcp_duplicate_option_empty_nak (s : fst_t lcp_t) (e : lcp_env) (id : Z) (b1 b2 : list Z) :
  lcp_reachable s -> negotiating (fsm_state (fst s)) = true -> conf_failure (fst s) + 1 <> max_failure (fst s) ->
  l_started (snd s) = false -> l_terminating (snd s) = false ->
  opt_wf b1 -> opt_wf b2 -> opt_id b1 = opt_id b2 -> 0 <= id < 256 ->
  verdict (le_conf e) (l_options (snd s)) b1 = LCP_OPT_NAK ->
  verdict (le_conf e) (l_options (snd s)) b2 = LCP_OPT_ACK ->
  l_sent (snd (lcp_step s (e, LFrame (lcp_frame CONFREQ id (b1 ++ b2))))) =
    l_sent (snd s) ++ [lcp_frame CONFNAK id []].
Proof.
  intros R N C St T W1 W2 Hid Hb V1 V2. destruct s as [f w]. cbn [fst snd] in *.
  pose proof (reachable_inv _ R) as ([_ IO _ _ _ _] & Nr & _). cbn [snd] in *.
  set (w0 := lw_buf w (lcp_frame CONFREQ id (b1 ++ b2))).
  change (lcp_step _ _) with (lcp_recv e (f, w0)).
  assert (L : Z.of_nat (length (b1 ++ b2)) + 4 < 65536).
  { destruct W1 as (? & v1 & -> & ?), W2 as (? & v2 & -> & ?). rewrite length_app. cbn [length]. lia. }
  rewrite (lcp_recv_frame e f w0 CONFREQ id (b1 ++ b2)); auto; try done; try (destruct (fsm_state f); done).
  assert (Ec : collect_opts (length (b1 ++ b2)) (b1 ++ b2) = ([b1; b2], true)).
  { rewrite <- (app_nil_r (b1 ++ b2)), <- app_assoc. change (b1 ++ b2 ++ []) with (concat [b1; b2]).
    now apply collect_opts_concat; auto. }
  change (lcp_dispatch _ _ _ _ _) with (recv_CONFREQ e (b1 ++ b2) (set_recv_id id f, w0)).
  unfold recv_CONFREQ, lcp_recv_conf_req. rewrite Ec. cbn [w0 lw_buf l_ropt_list]. rewrite Nr. cbn [map app].
  fold w0. set (opts := map _ (l_options _)). set (w1 := lw_ropts w0 _ _).
  assert (Vo : forall b, verdict (le_conf e) opts b = verdict (le_conf e) (l_options w) b)
    by (intros b; apply reset_verdict).
  destruct (judge_twice (le_conf e) b1 b2 w1 opts) as (w2 & opts2 & Lo & S2 & ->); auto.
  { eapply kept_ok, reset_kept, IO. }
  { apply Forall_map, Forall_true. now intros o. }
  { now rewrite Vo. }
  { now rewrite Vo. }
  set (w3 := lw_ropts (lw_options w2 opts2) _ _).
  assert (St3 : l_started w3 = false) by (cbn; now rewrite (lo_started _ _ Lo)).
  assert (S3 : l_sent w3 = l_sent w) by apply (lo_sent _ _ Lo).
  rewrite St3. cbn [andb]. cbn [Z.eqb LCP_OPT_NAK LCP_OPT_ACK LCP_OPT_FAIL]. rewrite <- S3.
  now apply (confreq_nak_empty e (set_recv_id id f) w3).
Qed.

(** ** Instances of the theorems *)

(** A PPPoE session that offers CHAP-MD5, then PAP. *)
Definition conf_pppoe : lcp_conf :=
  mk_lcp_conf [mru_opt_hnd; magic_opt_hnd; pcomp_opt_hnd; accomp_opt_hnd; auth_opt_hnd] [auth_chap_md5; auth_pap]
    20 1 0 false 0 0 100 1500 0 0 1492.
Definition env_pppoe : lcp_env := mk_lenv conf_pppoe 1000 50 true true.
#[local] Abbreviation lcp_started :=
  (fst (lcp_layer_start env_pppoe (lcp_layer_init fsm_conf_default 7 1500 1500 0 [0; 305419896]))).

Lemma lcp_started_reachable : lcp_reachable lcp_started.
Proof. exists fsm_conf_default, 7, 1500, 1500, 0, [0; 305419896], env_pppoe, []. unfold lcp_run. cbn [foldl]. reflexivity. Qed.

(** The peer asks for PAP instead of CHAP. *)
Lemma lcp_always_requests_auth_witness :
  let s := lcp_run lcp_started [(env_pppoe, LFrame (lcp_frame CONFNAK 7 (auth_request auth_pap)))] in
  let frame := [192; 33; 1; 8; 0; 18; 1; 4; 5; 212; 5; 6; 18; 52; 86; 120; 3; 4; 192; 35] in
  In frame (l_sent (snd s)) /\
  exists id bs h, frame = lcp_frame CONFREQ id (concat bs) /\
    collect_opts (length (concat bs)) (concat bs) = (bs, true) /\
    In h (auth_handlers conf_pppoe) /\ In (auth_request h) bs.
Proof.
  intros s frame. assert (H : In frame (l_sent (snd s))) by (vm_compute; right; left; reflexivity).
  split; [exact H|].
  apply (lcp_always_requests_auth fsm_conf_default 7 1500 1500 0 [0; 305419896] env_pppoe
    [(env_pppoe, LFrame (lcp_frame CONFNAK 7 (auth_request auth_pap)))] frame).
  - do 4 right. left. reflexivity.
  - discriminate.
  - repeat constructor.
  - exact H.
  - reflexivity.
Defined.

(** An MRU of 1400 and a Multilink option: the latter is rejected. *)
Lemma lcp_conf_req_answer_witness :
  let bs := [[1; 4; 5; 120]; [17; 4; 5; 220]] in
  l_sent (snd (lcp_step lcp_started (env_pppoe, LFrame (lcp_frame CONFREQ 3 (concat bs))))) =
    l_sent (snd lcp_started) ++ [lcp_frame CONFREJ 3 [17; 4; 5; 220]].
Proof.
  refine (proj2 (lcp_conf_req_answer lcp_started env_pppoe 3 [[1; 4; 5; 120]; [17; 4; 5; 220]]
    lcp_started_reachable _ _ _ _ _ _ _) _); try reflexivity; try (cbn; lia).
  - repeat constructor; [exists 1, [5; 120] | exists 17, [5; 220]]; split; reflexivity || (cbn; lia).
  - right. left. reflexivity.
Defined.

Lemma lcp_dead_peer_witness :
  let f := mk_fsm FSM_Opened false 3000 0 2 10 10 0 255 1 in
  let w := lcp_zeroed 1500 1492 0 [] in
  let s := lcp_run (f, w) (map (fun e => (e, LEcho)) [env_pppoe; env_pppoe]) in
  l_sent (snd s) = l_sent w ++
    map (fun i => lcp_frame ECHOREQ (fsm_id f + Z.of_nat i) (be_encode 4 (l_magic w))) (seq 0 2) /\
  l_calls (snd s) = l_calls w /\
  l_calls (snd (lcp_step s (env_pppoe, LEcho))) = l_calls w ++ [ap_session_terminate TERM_LOST_CARRIER true].
Proof.
  intros f w. apply (lcp_dead_peer 1 f w [env_pppoe; env_pppoe] env_pppoe); [|reflexivity..].
  repeat constructor.
Defined.

(** An MRU of 50, then one of 1400. *)
Lemma lcp_duplicate_option_empty_nak_witness :
  l_sent (snd (lcp_step lcp_started (env_pppoe, LFrame (lcp_frame CONFREQ 3 ([1; 4; 0; 50] ++ [1; 4; 5; 120]))))) =
    l_sent (snd lcp_started) ++ [lcp_frame CONFNAK 3 []].
Proof.
  apply (lcp_duplicate_option_empty_nak lcp_started env_pppoe 3 [1; 4; 0; 50] [1; 4; 5; 120]);
    try reflexivity; try (cbn; lia); try (apply lcp_started_reachable);
    [exists 1, [0; 50] | exists 1, [5; 120]]; split; reflexivity || (cbn; lia).
Defined.
