(* ===== verification/Connlimit.v ===== *)
(** * The limiter of connection rates (accel-pppd/extra/connlimit.c)

    [connlimit_check] walks one list of all clients, newest first, and drops the
    entries of others on its way.  The theorems show that each client is limited as
    if it were the only one, and how.  A call is one step here: the lock, which the
    code gives back for a moment before it adds a new entry, is not modelled. *)
From S2P Require Import Prelude CString.

(** [struct timespec] of the monotonic clock. *)
Record timespec : Type := mk_ts {
  tv_sec : Z;
  tv_nsec : Z
}.

(** [(ts.tv_sec - t.tv_sec) * 1000 + (ts.tv_nsec - t.tv_nsec) / 1000000] *)
Definition ms_since (ts t : timespec) : Z :=
  (tv_sec ts - tv_sec t) * 1000 + (tv_nsec ts - tv_nsec t) ÷ 1000000.

Record item : Type := mk_item {
  it_key : Z;
  it_ts : timespec;
  it_count : Z
}.

Record cl_conf : Type := mk_cl_conf {
  conf_burst : Z;
  conf_burst_timeout : Z;
  conf_limit_timeout : Z
}.

Definition cl_conf0 : cl_conf := mk_cl_conf 3 (60 * 1000) 5000.

(** The walk over the list; [pre] are the entries passed.  [None] is r = 1. *)
Fixpoint connlimit_scan (cf : cl_conf) (ts : timespec) (key : Z) (pre items : list item) : list item * option Z :=
  match items with
  | [] => (pre, None)
  | it :: rest =>
      let d := u32 (ms_since ts (it_ts it)) in
      if it_key it =? key then
        if u32 (conf_burst_timeout cf) <=? d then (mk_item key ts 0 :: pre ++ rest, Some 0)
        else
          let count := s32 (it_count it + 1) in
          if conf_burst cf <=? count then
            if u32 (conf_limit_timeout cf) <=? d then (mk_item key ts count :: pre ++ rest, Some 0)
            else (pre ++ mk_item key (it_ts it) count :: rest, Some (-1))
          else (pre ++ mk_item key (it_ts it) count :: rest, Some 0)
      else if u32 (conf_burst_timeout cf) <? d then connlimit_scan cf ts key pre rest
      else connlimit_scan cf ts key (pre ++ [it]) rest
  end.

Definition connlimit_check (cf : cl_conf) (ts : timespec) (key : Z) (items : list item) : list item * Z :=
  match connlimit_scan cf ts key [] items with
  | (items, Some r) => (items, r)
  | (items, None) => (mk_item key ts 0 :: items, 0)
  end.

Definition cl_key_from_ipv4 (ip : Z) : Z := ip.

(** The six bytes and two zeros, read on a little-endian machine. *)
Definition cl_key_from_mac (hw : list Z) : Z := be_decode (rev (take 6 hw ++ [0; 0])).

(** [None] is the -1 return.  Numbers start with a digit or a sign, so the pointer
    is where it was exactly if the number is missing. *)
Definition parse_limit (opt : string) : option (Z * Z) :=
  let '(limit, e) := strtol_int opt in
  match e with
  | EmptyString => Some (limit, 1)
  | String c opt =>
      if Ascii.eqb c "/" then
        let '(t, e) := strtol_int opt in
        let t := if String.eqb e opt then 1 else t in
        match e with
        | EmptyString => None
        | String c _ =>
            if Ascii.eqb c "s" then Some (limit, t)
            else if Ascii.eqb c "m" then Some (limit, s32 (t * 60))
            else if Ascii.eqb c "h" then Some (limit, s32 (t * 3600))
            else None
        end
      else None
  end.

(** [None] is the trap of a division by zero. *)
Definition load_limit (cf : cl_conf) (limit burst timeout : option string) : option cl_conf :=
  let rest cf :=
    let cf := match burst with Some o => mk_cl_conf (atoi o) (conf_burst_timeout cf) (conf_limit_timeout cf) | None => cf end in
    Some match timeout with Some o => mk_cl_conf (conf_burst cf) (s32 (atoi o * 1000)) (conf_limit_timeout cf) | None => cf end in
  match limit with
  | Some o =>
      match parse_limit o with
      | None => Some cf
      | Some (n, t) => if n =? 0 then None else rest (mk_cl_conf (conf_burst cf) (conf_burst_timeout cf) (s32 (t * 1000) ÷ n))
      end
  | None => rest cf
  end.

(** ** Vocabulary of the theorems *)

(** One client alone: since when and how many. *)
Definition limiter_check (cf : cl_conf) (ts : timespec) (l : option (timespec * Z)) : option (timespec * Z) * Z :=
  match l with
  | None => (Some (ts, 0), 0)
  | Some (t, c) =>
      let d := ms_since ts t in
      if conf_burst_timeout cf <=? d then (Some (ts, 0), 0)
      else
        let c := s32 (c + 1) in
        if conf_burst cf <=? c then if conf_limit_timeout cf <=? d then (Some (ts, c), 0) else (Some (t, c), -1)
        else (Some (t, c), 0)
  end.

Definition ts_ok (t : timespec) : Prop := 0 <= tv_nsec t < 1000000000.
Definition ts_le (a b : timespec) : Prop := tv_sec a < tv_sec b \/ (tv_sec a = tv_sec b /\ tv_nsec a <= tv_nsec b).

(** Checks made one after the other, by the code and by one limiter for each key. *)
Fixpoint checks (cf : cl_conf) (reqs : list (timespec * Z)) (items : list item) : list Z :=
  match reqs with
  | [] => []
  | (ts, key) :: reqs => let '(items, r) := connlimit_check cf ts key items in r :: checks cf reqs items
  end.
Fixpoint limiters (cf : cl_conf) (reqs : list (timespec * Z)) (f : Z -> option (timespec * Z)) : list Z :=
  match reqs with
  | [] => []
  | (ts, key) :: reqs =>
      let '(l, r) := limiter_check cf ts (f key) in
      r :: limiters cf reqs (fun k => if k =? key then l else f k)
  end.

(** A clock that does not go back, from [t] on. *)
Fixpoint clock_from (t : timespec) (reqs : list (timespec * Z)) : Prop :=
  match reqs with
  | [] => True
  | (ts, _) :: reqs => ts_ok ts /\ ts_le t ts /\ clock_from ts reqs
  end.

Fixpoint find_item (key : Z) (items : list item) : option (timespec * Z) :=
  match items with
  | [] => None
  | it :: items => if it_key it =? key then Some (it_ts it, it_count it) else find_item key items
  end.

(** The list at time [now] stands for the limiters [f]: an entry that is missing has
    run out; no clock is older than [t0]. *)
Definition stands (cf : cl_conf) (t0 now : timespec) (items : list item) (f : Z -> option (timespec * Z)) : Prop :=
  NoDup (map it_key items) /\
  (forall k t c, f k = Some (t, c) -> ts_ok t /\ ts_le t0 t /\ ts_le t now) /\
  forall k, match find_item k items with
            | Some e => f k = Some e
            | None => match f k with Some (t, _) => conf_burst_timeout cf <= ms_since now t | None => True end
            end.

(** The times at which [reqs] of one client are accepted, until it has paused. *)
Fixpoint accepted (cf : cl_conf) (times : list timespec) (t : timespec) (c : Z) : list timespec :=
  match times with
  | [] => []
  | ts :: times =>
      if conf_burst_timeout cf <=? ms_since ts t then []
      else
        match limiter_check cf ts (Some (t, c)) with
        | (Some (t', c'), r) => (if r =? 0 then [ts] else []) ++ accepted cf times t' c'
        | (None, _) => []
        end
  end.

Fixpoint spaced (gap : Z) (t : timespec) (times : list timespec) : Prop :=
  match times with
  | [] => True
  | ts :: times => gap <= ms_since ts t /\ spaced gap ts times
  end.

(** ** Time *)
Lemma ms_since_mono a b t : ts_ok a -> ts_ok b -> ts_ok t -> ts_le a b -> ms_since a t <= ms_since b t.
Proof. unfold ts_ok, ts_le, ms_since. intros. Z.to_euclidean_division_equations. nia. Qed.

Lemma ms_since_range a b : ts_ok a -> ts_ok b -> ts_le a b -> 0 <= ms_since b a.
Proof. unfold ts_ok, ts_le, ms_since. intros. Z.to_euclidean_division_equations. nia. Qed.

Lemma ms_since_older t0 t now : ts_ok t0 -> ts_ok t -> ts_ok now -> ts_le t0 t -> ms_since now t <= ms_since now t0.
Proof. unfold ts_ok, ts_le, ms_since. intros. Z.to_euclidean_division_equations. nia. Qed.

Lemma ts_le_trans a b c : ts_le a b -> ts_le b c -> ts_le a c.
Proof. unfold ts_le. lia. Qed.
Lemma ts_le_refl a : ts_le a a.
Proof. unfold ts_le. lia. Qed.

(** ** The list *)
Definition conf_ok (cf : cl_conf) : Prop :=
  0 <= conf_burst_timeout cf < 2 ^ 31 /\ 0 <= conf_limit_timeout cf < 2 ^ 31.

Lemma find_item_app k a b :
  find_item k (a ++ b) = match find_item k a with Some e => Some e | None => find_item k b end.
Proof. induction a as [|it a IH]; cbn [find_item app]; [done|]. now destruct (_ =? _). Qed.

Lemma find_item_none k l : find_item k l = None <-> ~ In k (map it_key l).
Proof.
  induction l as [|it l IH]; cbn [find_item map In]; [tauto|]. destruct (it_key it =? k) eqn:E; zbool.
  - split; [done|]. intros H. destruct H. now left.
  - rewrite IH. tauto.
Qed.

(** What happens to the others: they stay, or they go because they have run out. *)
Definition pruned (cf : cl_conf) (ts : timespec) (key : Z) (l l' : list item) : Prop :=
  forall k, k <> key ->
    find_item k l' = find_item k l \/
    (find_item k l' = None /\ exists t c, find_item k l = Some (t, c) /\ conf_burst_timeout cf < ms_since ts t).

Lemma find_item_skip k it a b : it_key it <> k -> find_item k (a ++ it :: b) = find_item k (a ++ b).
Proof. intros N. rewrite !find_item_app. cbn [find_item]. destruct (it_key it =? k) eqn:E; zbool; [lia | done]. Qed.

(** The entry of the client is written anew, in its place or in front. *)
Lemma rewritten cf ts key pre it rest new items' :
  base.NoDup (map it_key (pre ++ it :: rest)) -> it_key it = key -> it_key new = key ->
  (items' = new :: pre ++ rest \/ items' = pre ++ new :: rest) ->
  base.NoDup (map it_key items') /\ pruned cf ts key (pre ++ it :: rest) items' /\
  find_item key items' = Some (it_ts new, it_count new).
Proof.
  intros Nd E1 E2 F. rewrite map_app in Nd. cbn [map] in Nd.
  assert (Np : find_item key pre = None).
  { apply find_item_none. rewrite E1 in Nd. apply NoDup_app in Nd as (_ & D & _). intros I.
    apply (D key); [now apply list_elem_of_In | left]. }
  assert (Nd' : base.NoDup (key :: map it_key pre ++ map it_key rest))
    by (rewrite E1 in Nd; now rewrite <- (Permutation_middle (map it_key pre)) in Nd).
  destruct F as [-> | ->]; (split; [|split]).
  - cbn [map]. rewrite map_app, E2. exact Nd'.
  - intros k K. left. rewrite (find_item_skip k it) by lia. apply (find_item_skip k new []). lia.
  - cbn [find_item]. now rewrite E2, Z.eqb_refl.
  - rewrite map_app. cbn [map]. now rewrite E2, <- (Permutation_middle (map it_key pre)).
  - intros k K. left. now rewrite !find_item_skip by lia.
  - rewrite find_item_app, Np. cbn [find_item]. now rewrite E2, Z.eqb_refl.
Qed.

Lemma dropped cf ts key pre it items items' :
  base.NoDup (map it_key (pre ++ it :: items)) -> conf_burst_timeout cf < ms_since ts (it_ts it) ->
  pruned cf ts key (pre ++ items) items' -> pruned cf ts key (pre ++ it :: items) items'.
Proof.
  intros Nd D P k K. destruct (Z.eq_dec (it_key it) k) as [E|E].
  - right. rewrite map_app in Nd. cbn [map] in Nd. rewrite <- (Permutation_middle (map it_key pre)), E, <- map_app in Nd.
    apply NoDup_cons in Nd as [Nk _]. rewrite list_elem_of_In in Nk. apply find_item_none in Nk.
    split; [destruct (P k K) as [R|[R _]]; congruence|]. exists (it_ts it), (it_count it). split; [|exact D].
    rewrite find_item_app in Nk |- *. destruct (find_item k pre); [done|]. cbn [find_item]. now rewrite E, Z.eqb_refl.
  - rewrite (find_item_skip k it) by done. exact (P k K).
Qed.

Lemma scan_spec cf ts key items pre :
  conf_ok cf -> Forall (fun it => 0 <= ms_since ts (it_ts it) < 2 ^ 32) items ->
  base.NoDup (map it_key (pre ++ items)) -> find_item key pre = None ->
  let '(items', r) := connlimit_scan cf ts key pre items in
  base.NoDup (map it_key items') /\ pruned cf ts key (pre ++ items) items' /\
  match r with
  | None => find_item key items = None /\ find_item key items' = None
  | Some r => exists e, find_item key items = Some e /\ limiter_check cf ts (Some e) = (find_item key items', r)
  end.
Proof.
  intros [C1 C2] Hs. revert pre. induction Hs as [|it items S Hs IH]; intros pre Nd Np; cbn [connlimit_scan find_item].
  - rewrite app_nil_r in *. repeat split; [done | intros k _; now left | done].
  - rewrite !(u32_small (ms_since _ _)), (u32_small (conf_burst_timeout cf)), (u32_small (conf_limit_timeout cf)) by lia.
    destruct (it_key it =? key) eqn:E; zbool.
    + assert (G : forall new items' r,
        it_key new = key -> (items' = new :: pre ++ items \/ items' = pre ++ new :: items) ->
        limiter_check cf ts (Some (it_ts it, it_count it)) = (Some (it_ts new, it_count new), r) ->
        base.NoDup (map it_key items') /\ pruned cf ts key (pre ++ it :: items) items' /\
        exists e, Some (it_ts it, it_count it) = Some e /\ limiter_check cf ts (Some e) = (find_item key items', r)).
      { intros new items' r E' F L. destruct (rewritten cf ts key pre it items new items' Nd E E' F) as (A & B & R).
        refine (conj A (conj B _)). eexists. split; [reflexivity|]. now rewrite R. }
      cbn [limiter_check] in G. destruct (conf_burst_timeout cf <=? _); [apply (G (mk_item key ts 0)); auto|].
      destruct (conf_burst cf <=? _); [destruct (conf_limit_timeout cf <=? _)|].
      * apply (G (mk_item key ts (s32 (it_count it + 1)))); auto.
      * apply (G (mk_item key (it_ts it) (s32 (it_count it + 1)))); auto.
      * apply (G (mk_item key (it_ts it) (s32 (it_count it + 1)))); auto.
    + destruct (conf_burst_timeout cf <? _) eqn:D; zbool.
      * specialize (IH pre). destruct (connlimit_scan cf ts key pre items) as [items' r].
        destruct IH as (N' & P' & R); [|done|].
        { rewrite map_app in *. cbn [map] in Nd. rewrite <- (Permutation_middle (map it_key pre)) in Nd.
          now apply NoDup_cons in Nd as [_ Nd]. }
        split; [exact N'|]. split; [now apply dropped | exact R].
      * specialize (IH (pre ++ [it])). rewrite <- app_assoc in IH. apply IH; [exact Nd|].
        rewrite find_item_app, Np. cbn [find_item]. destruct (it_key it =? key) eqn:E'; zbool; [lia | done].
Qed.

Lemma find_item_forall (P : timespec -> Prop) items :
  base.NoDup (map it_key items) -> (forall k t c, find_item k items = Some (t, c) -> P t) -> Forall (fun it => P (it_ts it)) items.
Proof.
  induction items as [|it items IH]; [constructor|]. cbn [map]. intros [N Nd]%NoDup_cons H. constructor.
  - apply (H (it_key it) _ (it_count it)). cbn [find_item]. now rewrite Z.eqb_refl.
  - apply IH; [done|]. intros k t c F. apply (H k t c). cbn [find_item]. destruct (it_key it =? k) eqn:E; zbool; [|done].
    exfalso. apply N. subst k. destruct (find_item_none (it_key it) items) as [_ F'].
    apply list_elem_of_In. destruct (in_dec Z.eq_dec (it_key it) (map it_key items)) as [I|I]; [done|]. now rewrite F' in F.
Qed.

Lemma limiter_time cf ts l0 l r :
  limiter_check cf ts l0 = (l, r) -> exists t c, l = Some (t, c) /\ (t = ts \/ exists c0, l0 = Some (t, c0)).
Proof.
  unfold limiter_check. destruct l0 as [[t0 c0]|]; [|intros [= <- <-]; eauto].
  repeat case_match; intros [= <- <-]; eauto 6.
Qed.

Lemma stands_step cf t0 now ts key items items' f l :
  stands cf t0 now items f -> ts_ok t0 -> ts_ok now -> ts_ok ts -> ts_le t0 now -> ts_le now ts ->
  base.NoDup (map it_key items') -> pruned cf ts key items items' -> find_item key items' = l ->
  (forall t c, l = Some (t, c) -> t = ts \/ exists c0, f key = Some (t, c0)) ->
  stands cf t0 ts items' (fun k => if k =? key then l else f k).
Proof.
  intros (Nd & Hf & Hs) O0 On Ot L0 L1 Nd' Pr F Hl. split; [exact Nd'|]. split.
  - intros k t c. destruct (k =? key) eqn:E; zbool; intros L.
    + destruct (Hl t c L) as [->|[c0 F0]]; [eauto using ts_le_refl, ts_le_trans|].
      destruct (Hf _ _ _ F0) as (A1 & A2 & A3). eauto using ts_le_trans.
    + destruct (Hf _ _ _ L) as (A1 & A2 & A3). eauto using ts_le_trans.
  - intros k. destruct (k =? key) eqn:E; zbool; [subst k; rewrite F; now destruct l as [[]|]|].
    specialize (Hs k). destruct (Pr k E) as [->|[-> (t & c & Fk & D)]].
    + destruct (find_item k items); [done|]. destruct (f k) as [[t c]|] eqn:Fk; [|done].
      destruct (Hf _ _ _ Fk) as (A1 & A2 & A3). pose proof (ms_since_mono now ts t On Ot A1 L1). lia.
    + rewrite Fk in Hs. rewrite Hs. lia.
Qed.

(** One check, on both sides. *)
Lemma check_step cf t0 now ts key items f :
  conf_ok cf -> stands cf t0 now items f -> ts_ok t0 -> ts_ok now -> ts_ok ts -> ts_le t0 now -> ts_le now ts -> ms_since ts t0 < 2 ^ 32 ->
  let '(items', r) := connlimit_check cf ts key items in
  let '(l, r') := limiter_check cf ts (f key) in
  r = r' /\ stands cf t0 ts items' (fun k => if k =? key then l else f k).
Proof.
  intros Hc Hst O0 On Ot L0 L1 B. pose proof Hst as (Nd & Hf & Hs).
  assert (Sm : Forall (fun it => 0 <= ms_since ts (it_ts it) < 2 ^ 32) items).
  { apply (find_item_forall (fun t => 0 <= ms_since ts t < 2 ^ 32)); [done|]. intros k t c F.
    pose proof (Hs k) as Hk. rewrite F in Hk. destruct (Hf k t c Hk) as (O & A1 & A2).
    pose proof (ms_since_range t ts O Ot (ts_le_trans _ _ _ A2 L1)). pose proof (ms_since_older t0 t ts O0 O Ot A1). lia. }
  pose proof (scan_spec cf ts key items [] Hc Sm Nd eq_refl) as Sp. unfold connlimit_check.
  destruct (connlimit_scan cf ts key [] items) as [items' [r|]]; destruct Sp as (Nd' & Pr & R); cbn [app] in Pr.
  - destruct R as (e & Fe & Le). pose proof (Hs key) as Hk. rewrite Fe in Hk. rewrite Hk, Le.
    split; [done|]. eapply stands_step; eauto. intros t c Ft. destruct (limiter_time _ _ _ _ _ Le) as (t' & c' & E & H). rewrite Hk.
    rewrite Ft in E. injection E as <- <-. exact H.
  - destruct R as [Fi Fi']. pose proof (Hs key) as Hk. rewrite Fi in Hk.
    assert (limiter_check cf ts (f key) = (Some (ts, 0), 0)) as ->.
    { destruct (f key) as [[t c]|] eqn:Ef; [|done]. destruct (Hf _ _ _ Ef) as (A1 & A2 & A3). cbn [limiter_check].
      pose proof (ms_since_mono now ts t On Ot A1 L1). destruct (_ <=? _) eqn:E; zbool; [done | lia]. }
    split; [done|]. apply (stands_step cf t0 now ts key items); auto.
    + cbn [map it_key]. apply NoDup_cons. split; [|done]. rewrite list_elem_of_In. now apply find_item_none.
    + intros k K. destruct (Pr k K) as [P|P]; [left | right]; cbn [find_item it_key]; (destruct (key =? k) eqn:E; zbool; [lia|]); exact P.
    + cbn [find_item it_key]. now rewrite Z.eqb_refl.
    + intros t c [= <- <-]. now left.
Qed.

Lemma checks_limiters cf t0 reqs now items f :
  conf_ok cf -> stands cf t0 now items f -> ts_ok t0 -> ts_ok now -> ts_le t0 now -> clock_from now reqs ->
  Forall (fun r => ms_since (fst r) t0 < 2 ^ 32) reqs -> checks cf reqs items = limiters cf reqs f.
Proof.
  intros Hc Hst O0. revert now items f Hst. induction reqs as [|[ts key] reqs IH]; intros now items f Hst On L0; [done|].
  cbn [clock_from checks limiters]. intros (Ot & L1 & Hr) [B Br]%Forall_cons.
  pose proof (check_step cf t0 now ts key items f Hc Hst O0 On Ot L0 L1 B) as H.
  destruct (connlimit_check cf ts key items) as [items' r], (limiter_check cf ts (f key)) as [l r']. destruct H as [-> Hst'].
  f_equal. apply (IH ts); eauto using ts_le_trans.
Qed.

(** C37. The walk over the shared list limits each client as if it were alone: for
    every sequence of checks within 2^32 milliseconds of one another, the answers are
    those of one limiter for each key.  An entry that the walk for another client
    removes had run out, and makes no difference. *)
Theorem connlimit_refines_limiters cf t0 reqs :
  conf_ok cf -> ts_ok t0 -> clock_from t0 reqs -> Forall (fun r => ms_since (fst r) t0 < 2 ^ 32) reqs ->
  checks cf reqs [] = limiters cf reqs (fun _ => None).
Proof.
  intros Hc O0 Hr B. apply (checks_limiters cf t0 reqs t0); auto using ts_le_refl.
  split; [constructor|]. split; [done | intros k; done].
Qed.

Lemma connlimit_refines_limiters_witness :
  checks cl_conf0 [(mk_ts 10 0, 1); (mk_ts 11 5, 2); (mk_ts 80 0, 1); (mk_ts 80 1, 2)] [] =
  limiters cl_conf0 [(mk_ts 10 0, 1); (mk_ts 11 5, 2); (mk_ts 80 0, 1); (mk_ts 80 1, 2)] (fun _ => None).
Proof.
  apply (connlimit_refines_limiters cl_conf0 (mk_ts 10 0)).
  - unfold conf_ok. cbn. lia.
  - unfold ts_ok. cbn. lia.
  - cbn. unfold ts_ok, ts_le. cbn. lia.
  - repeat constructor; reflexivity.
Defined.

(** Once the burst is used up, the accepted calls of a client are [conf_limit_timeout]
    apart, up to a pause of [conf_burst_timeout]. *)
Theorem limiter_spaced cf times t c :
  conf_burst cf <= c + 1 -> c + Z.of_nat (length times) < 2 ^ 31 -> - 2 ^ 31 <= c + 1 ->
  spaced (conf_limit_timeout cf) t (accepted cf times t c).
Proof.
  revert t c. induction times as [|ts times IH]; intros t c Hb Hc Hc'; [done|]. cbn [accepted limiter_check length] in *.
  destruct (_ <=? ms_since ts t); [done|].
  assert (E : s32 (c + 1) = c + 1) by (unfold s32; rewrite Z.mod_small; lia). rewrite E.
  destruct (conf_burst cf <=? c + 1) eqn:Eb; zbool; [|lia].
  destruct (conf_limit_timeout cf <=? ms_since ts t) eqn:El; zbool; cbn [Z.eqb app].
  - split; [done|]. apply IH; lia.
  - apply IH; lia.
Qed.
