(* ===== verification/PppoeSid.v ===== *)
(** * PPPoE session identifiers (accel-pppd/ctrl/pppoe/pppoe.c)

    The identifiers of all servers come from one bitmap of 65536 bits, kept as
    1024 words; a set bit is a free identifier.  [sid_ptr] always points to word
    [sid_idx], so only the latter is kept.  The functions run under [sid_lock]. *)
From S2P Require Import Prelude.

Definition SID_MAX : Z := 65536.
Definition WORD_BITS : Z := 64.   (* 8*sizeof(long) *)
Definition SID_WORDS : nat := 1024.

Record sid_pool : Type := mk_sids {
  sid_map : list Z;
  sid_idx : nat
}.

(** [ffsl(w) - 1]; [None] is -1. *)
Definition ffsl (w : Z) : option nat := List.find (fun b => Z.testbit w (Z.of_nat b)) (seq 0 64).

(** The [while (1)] of [allocate_channel]; [old] is [old_sid_ptr].  The loop visits
    a word at most once, 1024 rounds are enough. *)
Fixpoint sid_loop (fuel : nat) (old : nat) (p : sid_pool) : res (Z * sid_pool) :=
  match fuel with
  | O => Fail
  | S fuel =>
      w ← res_of_option (sid_map p !! sid_idx p);
      let bit := ffsl w in
      let '(sid, map) :=
        match bit with
        | Some b => (u16 (Z.of_nat (sid_idx p) * WORD_BITS + Z.of_nat b),
                     <[sid_idx p := Z.clearbit w (Z.of_nat b)]> (sid_map p))
        | None => (0, sid_map p)
        end in
      let idx := if (S (sid_idx p) =? SID_WORDS)%nat then 0%nat else S (sid_idx p) in
      if isset bit then mret (sid, mk_sids map idx)
      else if (idx =? old)%nat then mret (0, mk_sids map idx)
      else sid_loop fuel old (mk_sids map idx)
  end.

(** The identifier, 0 when there is none. *)
Definition sid_alloc (p : sid_pool) : res (Z * sid_pool) := sid_loop SID_WORDS (sid_idx p) p.

(** [1 << n] on an [int].  C leaves it undefined for n >= 31; this is what the
    x86 shift gives, which takes the count modulo 32. *)
Definition shl1_int (n : Z) : Z := s32 (2 ^ (n mod 32)).

(** The end of [disconnect]: the [int] is converted to [unsigned long]. *)
Definition sid_release (sid : Z) (p : sid_pool) : res sid_pool :=
  let i := Z.to_nat (sid / WORD_BITS) in
  w ← res_of_option (sid_map p !! i);
  mret (mk_sids (<[i := Z.lor w (u64 (shl1_int (sid mod WORD_BITS)))]> (sid_map p)) (sid_idx p)).

(** [pppoe_init]: all free but the first and the last. *)
Definition sid_init : sid_pool :=
  mk_sids ([2 ^ 64 - 2] ++ replicate 1022 (2 ^ 64 - 1) ++ [2 ^ 63 - 1]) 0.

(** The identifier [k] is free. *)
Definition sid_free (p : sid_pool) (k : Z) : bool :=
  (0 <=? k) && (k <? SID_MAX) && Z.testbit (nth (Z.to_nat (k / WORD_BITS)) (sid_map p) 0) (k mod WORD_BITS).

Definition sid_ok (p : sid_pool) : Prop :=
  length (sid_map p) = SID_WORDS /\ (sid_idx p < SID_WORDS)%nat.

Definition next_idx (i : nat) : nat := if (S i =? SID_WORDS)%nat then 0%nat else S i.

(** The bits the release of an identifier with remainder [n] sets. *)
Definition released (n j : Z) : bool := if n mod 32 =? 31 then 31 <=? j else j =? n mod 32.

Lemma ffsl_some w b : ffsl w = Some b -> (b < 64)%nat /\ Z.testbit w (Z.of_nat b) = true.
Proof.
  intros H. apply find_some in H as [H ?]. apply in_seq in H. split; [lia | done].
Qed.

Lemma ffsl_none w b : ffsl w = None -> (b < 64)%nat -> Z.testbit w (Z.of_nat b) = false.
Proof. intros H L. apply (find_none _ _ H b). apply in_seq. lia. Qed.

Lemma ffsl_first w b :
  (b < 64)%nat -> Z.testbit w (Z.of_nat b) = true ->
  (forall i, (i < b)%nat -> Z.testbit w (Z.of_nat i) = false) -> ffsl w = Some b.
Proof.
  intros L T N. destruct (ffsl w) as [c|] eqn:E.
  - destruct (ffsl_some _ _ E) as [Lc Tc]. destruct (Nat.lt_trichotomy c b) as [H|[->|H]]; [|done|].
    + rewrite N in Tc by done. discriminate.
    + exfalso. unfold ffsl in E. replace 64%nat with (b + (64 - b))%nat in E by lia.
      assert (A : forall l1 l2 f (x : nat), (forall y, In y l1 -> f y = false) -> f x = true -> List.find f (l1 ++ x :: l2) = Some x).
      { intros l1 l2 f x. induction l1 as [|y l1 IH]; cbn; intros H1 H2; [now rewrite H2|].
        rewrite (H1 y) by (now left). apply IH; auto. }
      rewrite seq_app in E. destruct (64 - b)%nat as [|r] eqn:Er; [lia|]. cbn [seq] in E. rewrite A in E.
      * injection E as <-. lia.
      * intros y Hy. apply in_seq in Hy. apply N. lia.
      * exact T.
  - rewrite (ffsl_none _ _ E L) in T. discriminate.
Qed.

Lemma sid_ok_lookup p i : sid_ok p -> (i < SID_WORDS)%nat -> sid_map p !! i = Some (nth i (sid_map p) 0).
Proof.
  intros [L _] Hi. rewrite <- L in Hi. destruct (lookup_lt_is_Some_2 _ _ Hi) as [w Hw]. rewrite Hw.
  now rewrite (nth_lookup_Some _ _ _ _ Hw).
Qed.

(** A change of one word. *)
Lemma sid_free_word p i w idx k :
  sid_ok p -> (i < SID_WORDS)%nat ->
  sid_free (mk_sids (<[i := w]> (sid_map p)) idx) k =
    if decide (k / WORD_BITS = Z.of_nat i) then (0 <=? k) && (k <? SID_MAX) && Z.testbit w (k mod WORD_BITS) else sid_free p k.
Proof.
  intros [L _] Hi. unfold sid_free. cbn [sid_map].
  destruct (decide (k / WORD_BITS = Z.of_nat i)) as [E|E].
  - rewrite E, Nat2Z.id, nth_lookup, list_lookup_insert_eq by lia. done.
  - destruct (0 <=? k) eqn:K; [|done]. zbool.
    assert (0 <= k / WORD_BITS) by (apply Z.div_pos; unfold WORD_BITS; lia).
    rewrite !nth_lookup, list_lookup_insert_ne by lia. done.
Qed.

Lemma clearbit_testbit w b j : 0 <= b -> 0 <= j -> Z.testbit (Z.clearbit w b) j = Z.testbit w j && negb (j =? b).
Proof. intros Hb Hj. rewrite Z.clearbit_eqb by lia. now rewrite Z.eqb_sym. Qed.

(** Taking bit [b] of word [i] takes exactly that identifier. *)
Lemma take_free p i b idx :
  sid_ok p -> (i < SID_WORDS)%nat -> (b < 64)%nat -> Z.testbit (nth i (sid_map p) 0) (Z.of_nat b) = true ->
  let sid := u16 (Z.of_nat i * WORD_BITS + Z.of_nat b) in
  sid_free p sid = true /\
  forall k, sid_free (mk_sids (<[i := Z.clearbit (nth i (sid_map p) 0) (Z.of_nat b)]> (sid_map p)) idx) k =
    sid_free p k && negb (k =? sid).
Proof.
  intros O Hi Hb T sid. unfold SID_WORDS, WORD_BITS in *.
  assert (S : sid = Z.of_nat i * 64 + Z.of_nat b) by (apply u16_small; lia).
  assert (D : sid / 64 = Z.of_nat i /\ sid mod 64 = Z.of_nat b).
  { rewrite S. split; [symmetry; apply Z.div_unique with (Z.of_nat b) | symmetry; apply Z.mod_unique with (Z.of_nat i)]; lia. }
  destruct D as [D1 D2]. split.
  - unfold sid_free, SID_MAX, WORD_BITS. rewrite D1, D2, Nat2Z.id, T.
    replace (0 <=? sid) with true by lia. replace (sid <? 65536) with true by lia. done.
  - intros k. rewrite sid_free_word by done. unfold WORD_BITS in *. destruct (decide (k / 64 = Z.of_nat i)) as [E|E].
    + assert (0 <= k mod 64 < 64) by (apply Z.mod_pos_bound; lia).
      rewrite clearbit_testbit by lia. unfold sid_free, WORD_BITS. rewrite E, Nat2Z.id, !andb_assoc. f_equal. f_equal.
      pose proof (Z.div_mod k 64). destruct (k =? sid) eqn:Ek, (k mod 64 =? Z.of_nat b) eqn:Eb; zbool; try done; lia.
    + destruct (k =? sid) eqn:Ek; zbool; [congruence|]. now rewrite andb_true_r.
Qed.

Lemma sid_loop_found fuel old p b :
  sid_ok p -> ffsl (nth (sid_idx p) (sid_map p) 0) = Some b ->
  sid_loop (S fuel) old p = Ok (u16 (Z.of_nat (sid_idx p) * WORD_BITS + Z.of_nat b),
    mk_sids (<[sid_idx p := Z.clearbit (nth (sid_idx p) (sid_map p) 0) (Z.of_nat b)]> (sid_map p))
      (if (S (sid_idx p) =? SID_WORDS)%nat then 0%nat else S (sid_idx p))).
Proof. intros O F. cbn [sid_loop]. rewrite (sid_ok_lookup p _ O) by apply O. cbn [res_of_option mbind res_bind]. now rewrite F. Qed.

Lemma next_idx_mod i n : (i < SID_WORDS)%nat -> ((next_idx i + n) mod SID_WORDS = (i + S n) mod SID_WORDS)%nat.
Proof.
  intros H. unfold next_idx. destruct (Nat.eqb_spec (S i) SID_WORDS) as [E|E].
  - replace (i + S n)%nat with (n + 1 * SID_WORDS)%nat by lia. now rewrite Nat.Div0.mod_add.
  - f_equal. lia.
Qed.

Lemma next_idx_lt i : (i < SID_WORDS)%nat -> (next_idx i < SID_WORDS)%nat.
Proof. intros H. unfold next_idx. destruct (Nat.eqb_spec (S i) SID_WORDS); unfold SID_WORDS in *; lia. Qed.

(** [d] words are left: the first identifier of the first word that has one is
    taken, or all of them are empty. *)
Lemma sid_loop_spec d : forall fuel old p,
  sid_ok p -> (1 <= d <= fuel)%nat -> ((sid_idx p + d) mod SID_WORDS = old)%nat ->
  (forall i, (1 <= i < d)%nat -> ((sid_idx p + i) mod SID_WORDS <> old)%nat) ->
  exists sid p', sid_loop fuel old p = Ok (sid, p') /\ sid_ok p' /\
    ((sid_free p sid = true /\ forall k, sid_free p' k = sid_free p k && negb (k =? sid)) \/
     (sid = 0 /\ sid_map p' = sid_map p /\
      forall i, (i < d)%nat -> ffsl (nth ((sid_idx p + i) mod SID_WORDS) (sid_map p) 0) = None)).
Proof.
  induction d as [|d IH]; intros fuel old p O L E N; [lia|]. destruct fuel as [|fuel]; [lia|]. cbn [sid_loop].
  pose proof O as [OL OI]. rewrite (sid_ok_lookup p (sid_idx p) O OI). cbn [res_of_option mbind res_bind].
  set (w := nth (sid_idx p) (sid_map p) 0). destruct (ffsl w) as [b|] eqn:F.
  - destruct (ffsl_some _ _ F) as [Hb T]. eexists _, _. split; [reflexivity|].
    split; [split; cbn; [now rewrite length_insert | now apply next_idx_lt]|]. left.
    now apply take_free.
  - cbn [isset]. fold (next_idx (sid_idx p)). set (p1 := mk_sids (sid_map p) (next_idx (sid_idx p))).
    assert (W0 : ffsl (nth ((sid_idx p + 0) mod SID_WORDS) (sid_map p) 0) = None)
      by (rewrite Nat.add_0_r, Nat.mod_small by done; exact F).
    assert (O1 : sid_ok p1) by (split; [done | now apply next_idx_lt]).
    destruct (Nat.eqb_spec (next_idx (sid_idx p)) old) as [Q|Q].
    + exists 0, p1. split; [done|]. split; [done|]. right. split; [done|]. split; [done|].
      intros i Hi. destruct i as [|i]; [exact W0|]. exfalso.
      assert (d <> 0)%nat by lia. apply (N 1%nat); [lia|]. rewrite <- Q.
      rewrite <- (Nat.mod_small (next_idx (sid_idx p)) SID_WORDS) by (now apply next_idx_lt).
      rewrite <- (Nat.add_0_r (next_idx _)), next_idx_mod by done. done.
    + assert (d <> 0)%nat.
      { intros ->. apply Q. rewrite <- E, <- next_idx_mod, Nat.add_0_r by done.
        symmetry. apply Nat.mod_small. now apply next_idx_lt. }
      destruct (IH fuel old p1) as (sid & p' & R & O' & C); auto; [lia | | |].
      * cbn [p1 sid_idx]. now rewrite next_idx_mod.
      * intros i Hi. cbn [p1 sid_idx]. rewrite next_idx_mod by done. apply N. lia.
      * exists sid, p'. split; [exact R|]. split; [done|]. destruct C as [C|(C1 & C2 & C3)]; [now left|].
        right. split; [done|]. split; [done|]. intros i Hi. destruct i as [|i]; [exact W0|].
        specialize (C3 i ltac:(lia)). cbn [p1 sid_idx sid_map] in C3. rewrite next_idx_mod in C3 by done. exact C3.
Qed.

(** The loop on all words. *)
Lemma sid_alloc_loop p :
  sid_ok p ->
  exists sid p', sid_alloc p = Ok (sid, p') /\ sid_ok p' /\
    ((sid_free p sid = true /\ forall k, sid_free p' k = sid_free p k && negb (k =? sid)) \/
     (sid = 0 /\ sid_map p' = sid_map p /\
      forall i, (i < SID_WORDS)%nat -> ffsl (nth ((sid_idx p + i) mod SID_WORDS) (sid_map p) 0) = None)).
Proof.
  intros O. pose proof O as [_ OI]. apply (sid_loop_spec SID_WORDS SID_WORDS (sid_idx p) p O).
  - unfold SID_WORDS. lia.
  - replace (sid_idx p + SID_WORDS)%nat with (sid_idx p + 1 * SID_WORDS)%nat by lia.
    rewrite Nat.Div0.mod_add. now apply Nat.mod_small.
  - intros i Hi E. destruct (decide (sid_idx p + i < SID_WORDS)%nat).
    + rewrite Nat.mod_small in E by done. lia.
    + replace (sid_idx p + i)%nat with (sid_idx p + i - SID_WORDS + 1 * SID_WORDS)%nat in E by lia.
      rewrite Nat.Div0.mod_add, Nat.mod_small in E by lia. lia.
Qed.

(** The rounds come to each word. *)
Lemma word_visited p j : sid_ok p -> (j < SID_WORDS)%nat -> exists i, (i < SID_WORDS)%nat /\ ((sid_idx p + i) mod SID_WORDS = j)%nat.
Proof.
  intros [_ OI] Hj. destruct (decide (sid_idx p <= j)%nat).
  - exists (j - sid_idx p)%nat. split; [lia|]. rewrite Nat.mod_small; lia.
  - exists (j + SID_WORDS - sid_idx p)%nat. split; [lia|].
    replace (sid_idx p + _)%nat with (j + 1 * SID_WORDS)%nat by lia. rewrite Nat.Div0.mod_add. now apply Nat.mod_small.
Qed.

Lemma no_word_free p k :
  sid_ok p -> (forall i, (i < SID_WORDS)%nat -> ffsl (nth ((sid_idx p + i) mod SID_WORDS) (sid_map p) 0) = None) -> sid_free p k = false.
Proof.
  intros O C. unfold sid_free. destruct ((0 <=? k) && (k <? SID_MAX)) eqn:B; [|done]. bools. cbn [andb].
  set (j := Z.to_nat (k / WORD_BITS)). unfold SID_MAX, WORD_BITS in *.
  assert (Hj : (j < SID_WORDS)%nat).
  { assert (k / 64 < 1024) by (apply Z.div_lt_upper_bound; lia). unfold j, SID_WORDS. lia. }
  destruct (word_visited p j O Hj) as (i & Hi & E). specialize (C i Hi). rewrite E in C.
  assert (0 <= k mod 64 < 64) by (apply Z.mod_pos_bound; lia).
  rewrite <- (Z2Nat.id (k mod 64)) by lia. apply (ffsl_none _ _ C). lia.
Qed.

Lemma sid_free_range p k : sid_free p k = true -> 0 <= k < SID_MAX.
Proof. unfold sid_free. intros H. bools. lia. Qed.

(** Allocation of a session identifier always ends, hands out an identifier
    that is free, if there is any, and takes exactly that one; only when all are
    taken it returns 0, and then it changes nothing. *)
Theorem sid_alloc_correct (p : sid_pool) :
  sid_ok p ->
  exists sid p', sid_alloc p = Ok (sid, p') /\ sid_ok p' /\
    ((sid_free p sid = true /\ forall k, sid_free p' k = sid_free p k && negb (k =? sid)) \/
     (sid = 0 /\ sid_map p' = sid_map p /\ forall k, sid_free p k = false)).
Proof.
  intros O. destruct (sid_alloc_loop p O) as (sid & p' & R & O' & C). exists sid, p'. split; [exact R|]. split; [done|].
  destruct C as [C|(C1 & C2 & C3)]; [now left|]. right. split; [done|]. split; [done|]. intros k. now apply no_word_free.
Qed.

Lemma sid_init_ok : sid_ok sid_init.
Proof. split; [reflexivity | unfold SID_WORDS; cbn; lia]. Qed.

Lemma sid_alloc_correct_witness :
  exists sid p', sid_alloc sid_init = Ok (sid, p') /\ sid_ok p' /\
    ((sid_free sid_init sid = true /\ forall k, sid_free p' k = sid_free sid_init k && negb (k =? sid)) \/
     (sid = 0 /\ sid_map p' = sid_map sid_init /\ forall k, sid_free sid_init k = false)).
Proof. apply (sid_alloc_correct sid_init). apply sid_init_ok. Defined.

(** ** Release *)

Lemma shl1_int_bits n j : 0 <= j < 64 -> Z.testbit (u64 (shl1_int n)) j = released n j.
Proof.
  intros Hj. unfold u64, shl1_int, released. rewrite Z.mod_pow2_bits_low by lia.
  assert (Hn : 0 <= n mod 32 < 32) by (apply Z.mod_pos_bound; lia). generalize dependent (n mod 32). intros m Hm.
  destruct (m =? 31) eqn:E; zbool.
  - subst m. change (s32 (2 ^ 31)) with (Z.shiftl (-1) 31).
    rewrite Z.shiftl_spec by lia. destruct (31 <=? j) eqn:L; zbool.
    + rewrite Z.bits_m1; [done | lia].
    + now rewrite Z.testbit_neg_r by lia.
  - replace (s32 (2 ^ m)) with (2 ^ m); [rewrite Z.pow2_bits_eqb by lia; apply Z.eqb_sym|].
    unfold s32. assert (2 ^ m <= 2 ^ 30) by (apply Z.pow_le_mono_r; lia). assert (0 < 2 ^ m) by (apply Z.pow_pos_nonneg; lia).
    rewrite Z.mod_small by lia. lia.
Qed.

Lemma sid_release_spec sid p :
  sid_ok p -> 0 <= sid < SID_MAX ->
  exists p', sid_release sid p = Ok p' /\ sid_ok p' /\ sid_idx p' = sid_idx p /\
    forall k, 0 <= k < SID_MAX ->
      sid_free p' k = sid_free p k || ((k / WORD_BITS =? sid / WORD_BITS) && released (sid mod WORD_BITS) (k mod WORD_BITS)).
Proof.
  intros O H. unfold sid_release. assert (Hd : 0 <= sid / WORD_BITS < 1024).
  { unfold SID_MAX, WORD_BITS in *. split; [apply Z.div_pos; lia | apply Z.div_lt_upper_bound; lia]. }
  assert (Hi : (Z.to_nat (sid / WORD_BITS) < SID_WORDS)%nat) by (unfold SID_WORDS; lia).
  rewrite (sid_ok_lookup p _ O Hi). cbn [res_of_option mbind res_bind]. eexists. split; [reflexivity|].
  split; [destruct O; split; cbn; [now rewrite length_insert | done]|]. split; [done|]. intros k Hk.
  rewrite sid_free_word, Z2Nat.id by (done || lia).
  destruct (decide (k / WORD_BITS = sid / WORD_BITS)) as [E|E].
  - rewrite E, Z.eqb_refl. cbn [andb]. assert (0 <= k mod WORD_BITS < 64) by (apply Z.mod_pos_bound; done).
    rewrite Z.lor_spec, shl1_int_bits by done. unfold sid_free. rewrite E.
    replace (0 <=? k) with true by lia. replace (k <? SID_MAX) with true by lia. done.
  - replace (k / WORD_BITS =? sid / WORD_BITS) with false by lia. now rewrite orb_false_r.
Qed.

(** The end of a session gives back the right identifier only if its remainder
    modulo 64 is below 31.  Above, the shift of an [int] is out of range: with a
    remainder from 32 to 62 the identifier stays taken for ever and the one 32 below
    it becomes free even if a session uses it, and is handed out again as soon as
    the allocation comes to its word and finds no smaller one; with remainders 31
    and 63 all identifiers of the word from remainder 31 on become free. *)
Theorem sid_release_wrong (p : sid_pool) (sid : Z) :
  sid_ok p -> 0 <= sid < SID_MAX -> sid_free p sid = false ->
  exists p', sid_release sid p = Ok p' /\
    let n := sid mod WORD_BITS in
    (n < 31 -> forall k, 0 <= k < SID_MAX -> sid_free p' k = sid_free p k || (k =? sid)) /\
    (32 <= n < 63 ->
       sid_free p' sid = false /\ sid_free p' (sid - 32) = true /\
       (Z.of_nat (sid_idx p) = sid / WORD_BITS ->
        (forall k, k / WORD_BITS = sid / WORD_BITS -> k < sid - 32 -> sid_free p k = false) ->
        exists p'', sid_alloc p' = Ok (sid - 32, p''))) /\
    (n = 31 \/ n = 63 -> forall k, k / WORD_BITS = sid / WORD_BITS -> 31 <= k mod WORD_BITS -> sid_free p' k = true).
Proof.
  intros O H F. destruct (sid_release_spec sid p O H) as (p' & R & O' & Ei & Sp). exists p'. split; [exact R|].
  intros n. unfold SID_MAX, WORD_BITS in *.
  assert (Hn : 0 <= n < 64) by (apply Z.mod_pos_bound; lia). pose proof (Z.div_mod sid 64 ltac:(lia)) as Ds. fold n in Ds, Sp.
  assert (Bk : forall k, 0 <= k < 65536 -> 0 <= k mod 64 < 64 /\ k = 64 * (k / 64) + k mod 64)
    by (intros k _; split; [apply Z.mod_pos_bound | apply Z.div_mod]; lia).
  split; [|split].
  - intros L k Hk. rewrite Sp by done. f_equal. destruct (Bk k Hk). unfold released. rewrite (Z.mod_small n) by lia.
    destruct (n =? 31) eqn:E31; zbool; [lia|].
    destruct (k =? sid) eqn:E; zbool; [subst k; rewrite Z.eqb_refl; fold n; now rewrite Z.eqb_refl|].
    destruct (k / 64 =? sid / 64) eqn:E2; zbool; [|done]. cbn. lia.
  - intros L. assert (M : n mod 32 = n - 32) by (symmetry; apply Z.mod_unique with 1; lia).
    assert (D : (sid - 32) / 64 = sid / 64 /\ (sid - 32) mod 64 = n - 32).
    { split; [symmetry; apply Z.div_unique with (n - 32) | symmetry; apply Z.mod_unique with (sid / 64)]; lia. }
    destruct D as [D1 D2]. unfold released in Sp. rewrite M in Sp. destruct (n - 32 =? 31) eqn:E31; zbool; [lia|].
    assert (F1 : sid_free p' sid = false).
    { rewrite Sp by lia. rewrite F. fold n. cbn [orb]. replace (n =? n - 32) with false by lia. apply andb_false_r. }
    assert (F2 : sid_free p' (sid - 32) = true).
    { rewrite Sp by lia. now rewrite D1, D2, !Z.eqb_refl, orb_true_r. }
    split; [exact F1|]. split; [exact F2|]. intros I Low.
    assert (Fs : ffsl (nth (sid_idx p') (sid_map p') 0) = Some (Z.to_nat (n - 32))).
    { apply ffsl_first; [lia| |].
      - unfold sid_free, WORD_BITS in F2. rewrite D1, D2, <- I, Nat2Z.id, <- Ei in F2. bools. now rewrite Z2Nat.id by lia.
      - intros b Hb. specialize (Low (sid - 32 - (n - 32) + Z.of_nat b)).
        set (k := sid - 32 - (n - 32) + Z.of_nat b) in *.
        assert (Dk : k / 64 = sid / 64 /\ k mod 64 = Z.of_nat b).
        { split; [symmetry; apply Z.div_unique with (Z.of_nat b) | symmetry; apply Z.mod_unique with (sid / 64)]; lia. }
        destruct Dk as [K1 K2]. specialize (Sp k ltac:(lia)). rewrite (Low K1) in Sp by lia.
        rewrite K1, K2, Z.eqb_refl in Sp. replace (Z.of_nat b =? n - 32) with false in Sp by lia. cbn in Sp.
        unfold sid_free, SID_MAX, WORD_BITS in Sp. rewrite K1, K2, <- I, Nat2Z.id, <- Ei in Sp.
        replace (0 <=? k) with true in Sp by lia. replace (k <? 65536) with true in Sp by lia. exact Sp. }
    eexists. unfold sid_alloc. change SID_WORDS with (Datatypes.S 1023). rewrite (sid_loop_found _ _ _ _ O' Fs).
    do 2 f_equal. rewrite Ei, I, u16_small; unfold WORD_BITS; lia.
  - intros L k E Hk. pose proof (Z.div_mod k 64 ltac:(lia)). assert (0 <= k mod 64 < 64) by (apply Z.mod_pos_bound; lia).
    assert (sid / 64 < 1024) by (apply Z.div_lt_upper_bound; lia). assert (0 <= sid / 64) by (apply Z.div_pos; lia).
    rewrite Sp by lia. rewrite E, Z.eqb_refl. unfold released.
    replace (n mod 32) with 31 by (destruct L as [->| ->]; reflexivity). cbn [Z.eqb]. cbn.
    replace (31 <=? k mod 64) with true by lia. apply orb_true_r.
Qed.

(** Session 96 ends while 64 is in use. *)
Lemma sid_release_wrong_witness :
  let p := mk_sids (replicate 1024 0) 1 in
  exists p', sid_release 96 p = Ok p' /\
    let n := 96 mod WORD_BITS in
    (n < 31 -> forall k, 0 <= k < SID_MAX -> sid_free p' k = sid_free p k || (k =? 96)) /\
    (32 <= n < 63 ->
       sid_free p' 96 = false /\ sid_free p' (96 - 32) = true /\
       (Z.of_nat (sid_idx p) = 96 / WORD_BITS ->
        (forall k, k / WORD_BITS = 96 / WORD_BITS -> k < 96 - 32 -> sid_free p k = false) ->
        exists p'', sid_alloc p' = Ok (96 - 32, p''))) /\
    (n = 31 \/ n = 63 -> forall k, k / WORD_BITS = 96 / WORD_BITS -> 31 <= k mod WORD_BITS -> sid_free p' k = true).
Proof.
  intros p. apply (sid_release_wrong p 96).
  - split; [apply length_replicate | cbn; unfold SID_WORDS; lia].
  - unfold SID_MAX. lia.
  - reflexivity.
Defined.
