(* ===== verification/PppoePacket.v ===== *)
(** * PPPoE discovery packets and cookies (accel-pppd/ctrl/pppoe/pppoe.c)

    Packets are built in an Ethernet frame buffer of [ETHER_MAX_LEN] bytes, whose
    old contents are arbitrary.  A [struct pppoe_tag] is its type and its data;
    in memory they follow each other with the length between them.

    MD5 and DES are OpenSSL's: parameters of the sections that use them. *)
From S2P Require Import Prelude Utils.

Definition ETH_ALEN : nat := 6.
Definition ETH_HLEN : nat := 14.
Definition PPPOE_HDR : nat := 6.     (* sizeof(struct pppoe_hdr) *)
Definition TAG_HDR : nat := 4.       (* sizeof(struct pppoe_tag) *)
Definition ETHER_MAX_LEN : nat := 1518.
Definition ETH_P_PPP_DISC : Z := 34915.

Definition CODE_PADI : Z := 9.
Definition CODE_PADO : Z := 7.
Definition CODE_PADR : Z := 25.
Definition CODE_PADS : Z := 101.
Definition CODE_PADT : Z := 167.

Definition TAG_END_OF_LIST : Z := 0.
Definition TAG_SERVICE_NAME : Z := 257.
Definition TAG_AC_NAME : Z := 258.
Definition TAG_HOST_UNIQ : Z := 259.
Definition TAG_AC_COOKIE : Z := 260.
Definition TAG_VENDOR_SPECIFIC : Z := 261.
Definition TAG_RELAY_SESSION_ID : Z := 272.
Definition TAG_PPP_MAX_PAYLOAD : Z := 288.
Definition TAG_SERVICE_NAME_ERROR : Z := 513.
Definition TAG_AC_SYSTEM_ERROR : Z := 514.
Definition TAG_GENERIC_ERROR : Z := 515.
Definition VENDOR_ADSL_FORUM : Z := 3561.

Definition SECRET_LENGTH : nat := 16.
Definition COOKIE_LENGTH : nat := 24.

Record pppoe_tag : Type := mk_tag {
  tag_type : Z;
  tag_data : list Z
}.

(** ** Building *)

(** [hdr->length], host order. *)
Definition hdr_length (pack : list Z) : res Z := u_read_be16 pack (ETH_HLEN + 4).

Definition setup_header (pack src dst : list Z) (code sid : Z) : res (list Z) :=
  pack ← splice 0 (dst ++ src ++ be_encode 2 ETH_P_PPP_DISC) pack;
  splice ETH_HLEN ([17; u8 code] ++ be_encode 2 sid ++ be_encode 2 0) pack.

(** [data] is [None] for a null pointer.  [false] is the -1 return. *)
Definition add_tag (pack : list Z) (type : Z) (data : option (list Z)) (len : Z) : res (list Z * bool) :=
  n ← hdr_length pack;
  let off := (ETH_HLEN + PPPOE_HDR + Z.to_nat n)%nat in
  if (Z.of_nat (length pack) <=? Z.of_nat (ETH_HLEN + PPPOE_HDR) + n + Z.of_nat TAG_HDR + len) || (len <? 0)
  then mret (pack, false)
  else
    pack ← splice off (be_encode 2 type ++ be_encode 2 len) pack;
    pack ← match data with
           | Some d => if len =? 0 then mret pack else d ← slice 0 (Z.to_nat len) d; splice (off + TAG_HDR) d pack
           | None => mret pack
           end;
    pack ← u_write_be16 pack (ETH_HLEN + 4) (n + Z.of_nat TAG_HDR + len);
    mret (pack, true).

(** The bytes of a tag. *)
Definition tag_bytes (t : pppoe_tag) : list Z :=
  be_encode 2 (tag_type t) ++ be_encode 2 (Z.of_nat (length (tag_data t))) ++ tag_data t.

Definition add_tag2 (pack : list Z) (t : pppoe_tag) : res (list Z * bool) :=
  n ← hdr_length pack;
  let off := (ETH_HLEN + PPPOE_HDR + Z.to_nat n)%nat in
  let tag_len := Z.of_nat (length (tag_data t)) in
  if Z.of_nat (length pack) <=? Z.of_nat (ETH_HLEN + PPPOE_HDR) + n + Z.of_nat TAG_HDR + tag_len
  then mret (pack, false)
  else
    pack ← splice off (tag_bytes t) pack;
    pack ← u_write_be16 pack (ETH_HLEN + 4) (n + Z.of_nat TAG_HDR + tag_len);
    mret (pack, true).

(** The frame [pppoe_send] gives to the socket. *)
Definition pppoe_send (pack : list Z) : res (list Z) :=
  n ← hdr_length pack;
  slice 0 (ETH_HLEN + PPPOE_HDR + Z.to_nat n) pack.

(** The calls of [add_tag] with a whole object or a null pointer, of [add_tag2], and those under a
    condition; the senders ignore the results. *)
Definition put_tag (type : Z) (data : list Z) (pack : list Z) : res (list Z) :=
  r ← add_tag pack type (Some data) (Z.of_nat (length data)); mret (fst r).
Definition put_empty (type : Z) (pack : list Z) : res (list Z) := r ← add_tag pack type None 0; mret (fst r).
Definition put_tag2 (t : pppoe_tag) (pack : list Z) : res (list Z) := r ← add_tag2 pack t; mret (fst r).
Definition put_if (c : bool) (type : Z) (data : list Z) (pack : list Z) : res (list Z) :=
  if c then put_tag type data pack else mret pack.
Definition put_opt (t : option pppoe_tag) (pack : list Z) : res (list Z) :=
  match t with Some t => put_tag2 t pack | None => mret pack end.

(** The loop over [conf_service_name]. *)
Fixpoint put_names (names : list (list Z)) (pack : list Z) : res (list Z) :=
  match names with
  | [] => mret pack
  | n :: names => pack ← put_tag TAG_SERVICE_NAME n pack; put_names names pack
  end.

(** The body of [pppoe_send_PADO]; [pack] is the buffer on the stack, [cookie] what
    [generate_cookie] made. *)
Definition build_PADO (pack hwaddr addr ac_name : list Z) (names : list (list Z)) (service_name : option pppoe_tag)
    (cookie : list Z) (host_uniq relay_sid : option pppoe_tag) (ppp_max_payload : Z) : res (list Z) :=
  pack ← setup_header pack hwaddr addr CODE_PADO 0;
  pack ← put_tag TAG_AC_NAME ac_name pack;
  pack ← put_names names pack;
  pack ← put_opt service_name pack;
  pack ← put_tag TAG_AC_COOKIE cookie pack;
  pack ← put_opt host_uniq pack;
  pack ← put_opt relay_sid pack;
  pack ← put_if (negb (ppp_max_payload =? 0)) TAG_PPP_MAX_PAYLOAD (be_encode 2 ppp_max_payload) pack;
  pppoe_send pack.

Definition pppoe_send_err (pack hwaddr addr ac_name : list Z) (host_uniq relay_sid : option pppoe_tag)
    (code type : Z) : res (list Z) :=
  pack ← setup_header pack hwaddr addr code 0;
  pack ← put_tag TAG_AC_NAME ac_name pack;
  pack ← put_empty type pack;
  pack ← put_opt host_uniq pack;
  pack ← put_opt relay_sid pack;
  pppoe_send pack.

Definition pppoe_send_PADS (pack hwaddr addr ac_name : list Z) (sid : Z) (service_name : pppoe_tag)
    (host_uniq relay_sid : option pppoe_tag) (max_mtu : Z) : res (list Z) :=
  pack ← setup_header pack hwaddr addr CODE_PADS sid;
  pack ← put_tag TAG_AC_NAME ac_name pack;
  pack ← put_tag2 service_name pack;
  pack ← put_opt host_uniq pack;
  pack ← put_opt relay_sid pack;
  pack ← put_if (1500 - 8 <? max_mtu) TAG_PPP_MAX_PAYLOAD (be_encode 2 max_mtu) pack;
  pppoe_send pack.

Definition pppoe_send_PADT (pack hwaddr addr ac_name : list Z) (sid : Z) (service_name : pppoe_tag)
    (relay_sid : option pppoe_tag) : res (list Z) :=
  pack ← setup_header pack hwaddr addr CODE_PADT sid;
  pack ← put_tag TAG_AC_NAME ac_name pack;
  pack ← put_tag2 service_name pack;
  pack ← put_opt relay_sid pack;
  pppoe_send pack.

(** ** Parsing

    The loops over the tags of a PADI and a PADR differ in what they do with a
    tag, [step].  [None] is the return on a malformed packet. *)
Fixpoint tags_loop {A} (step : A -> pppoe_tag -> A) (fuel : nat) (pack : list Z) (len n : Z) (st : A) : res (option A) :=
  if len <=? n then mret (Some st)
  else
    match fuel with
    | O => Fail
    | S fuel =>
        let off := (ETH_HLEN + PPPOE_HDR + Z.to_nat n)%nat in
        if len <? n + Z.of_nat TAG_HDR then mret None
        else
          tag_len ← u_read_be16 pack (off + 2);
          if len <? n + Z.of_nat TAG_HDR + tag_len then mret None
          else
            type ← u_read_be16 pack off;
            if type =? TAG_END_OF_LIST then mret (Some st)
            else
              data ← slice (off + TAG_HDR) (Z.to_nat tag_len) pack;
              tags_loop step fuel pack len (n + Z.of_nat TAG_HDR + tag_len) (step st (mk_tag type data))
    end.

(** Each tag has four bytes at least, the length is fuel enough. *)
Definition parse_tags {A} (step : A -> pppoe_tag -> A) (pack : list Z) (st : A) : res (option A) :=
  len ← hdr_length pack;
  tags_loop step (Z.to_nat len) pack len 0 st.

(** ** The log *)
Inductive log_item : Type :=
| LCode (code : Z)                        (* the name of the code, nothing if unknown *)
| LAddrs (src dst : list Z)
| LSid (sid : Z)
| LString (type : Z) (data : list Z)
| LOctets (type : Z) (data : list Z)
| LVendor (id : option Z)                 (* [None]: invalid *)
| LU16 (v : option Z)
| LName (type : Z)                        (* a tag shown by its name *)
| LUnknown (type : Z)
| LDots.

Definition print_tag_u16 (data : list Z) : res (option Z) :=
  if Z.of_nat (length data) =? 2 then v ← u_read_be16 data 0; mret (Some v) else mret None.

(** The [switch] of [print_packet]. *)
Definition print_tag (t : pppoe_tag) : res log_item :=
  let ty := tag_type t in
  if (ty =? TAG_SERVICE_NAME) || (ty =? TAG_AC_NAME) then mret (LString ty (tag_data t))
  else if (ty =? TAG_HOST_UNIQ) || (ty =? TAG_AC_COOKIE) || (ty =? TAG_RELAY_SESSION_ID) then mret (LOctets ty (tag_data t))
  else if ty =? TAG_VENDOR_SPECIFIC then
    if Z.of_nat (length (tag_data t)) <? 4 then mret (LVendor None)
    else v ← u_read_be32 (tag_data t) 0; mret (LVendor (Some v))
  else if ty =? TAG_PPP_MAX_PAYLOAD then v ← print_tag_u16 (tag_data t); mret (LU16 v)
  else if (ty =? TAG_END_OF_LIST) || (ty =? TAG_SERVICE_NAME_ERROR) || (ty =? TAG_AC_SYSTEM_ERROR) || (ty =? TAG_GENERIC_ERROR)
  then mret (LName ty)
  else mret (LUnknown ty).

(** The loop goes on behind an End-Of-List. *)
Fixpoint print_loop (fuel : nat) (pack : list Z) (len n : Z) : res (list log_item) :=
  if len <=? n then mret []
  else
    match fuel with
    | O => Fail
    | S fuel =>
        let off := (ETH_HLEN + PPPOE_HDR + Z.to_nat n)%nat in
        if len <? n + Z.of_nat TAG_HDR then mret [LDots]
        else
          tag_len ← u_read_be16 pack (off + 2);
          if len <? n + Z.of_nat TAG_HDR + tag_len then mret [LDots]
          else
            type ← u_read_be16 pack off;
            data ← slice (off + TAG_HDR) (Z.to_nat tag_len) pack;
            i ← print_tag (mk_tag type data);
            l ← print_loop fuel pack len (n + Z.of_nat TAG_HDR + tag_len);
            mret (i :: l)
    end.

Definition print_packet (pack : list Z) : res (list log_item) :=
  dst ← slice 0 ETH_ALEN pack;
  src ← slice ETH_ALEN ETH_ALEN pack;
  code ← res_of_option (pack !! (ETH_HLEN + 1)%nat);
  sid ← u_read_be16 pack (ETH_HLEN + 2);
  len ← hdr_length pack;
  l ← print_loop (Z.to_nat len) pack len 0;
  mret (LCode code :: LAddrs src dst :: LSid sid :: l).

(** ** Cookies *)

(** A [uint32_t] in the memory of a little-endian machine. *)
Definition le32 (v : Z) : list Z := rev (be_encode 4 v).
Definition le32_read (b : list Z) : Z := be_decode (rev b).

(** [for (i = 0; i < 3; i++) DES_ecb_encrypt(&in.b[i], &out.b[i], ...)] *)
Definition ecb (f : list Z -> list Z) (b : list Z) : list Z :=
  f (take 8 b) ++ f (take 8 (drop 8 b)) ++ f (take 8 (drop 16 b)).

(** [buf[i] ^ buf[i + 4] ^ buf[i + 8] ^ buf[i + 12]] *)
Definition fold4 (buf : list Z) : list Z :=
  map (fun i => Z.lxor (Z.lxor (Z.lxor (buf !!! i) (buf !!! (i + 4)%nat)) (buf !!! (i + 8)%nat)) (buf !!! (i + 12)%nat))
    (seq 0 4).

Record pppoe_keys : Type := mk_keys {
  k_hwaddr : list Z;
  k_secret : list Z;
  k_des : list Z            (* the key of serv->des_ks *)
}.

Section Crypto.
Variable md5 : list Z -> list Z.
(** DES by key and block. *)
Variables des_encrypt des_decrypt : list Z -> list Z -> list Z.

(** The key made of both addresses. *)
Definition session_key (k : pppoe_keys) (src : list Z) : res (list Z) := t ← slice 4 2 src; mret (k_hwaddr k ++ t).

Definition tag_data_opt (t : option pppoe_tag) : list Z := match t with Some t => tag_data t | None => [] end.

Definition client_digest (k : pppoe_keys) (src : list Z) (relay_sid : option pppoe_tag) : list Z :=
  md5 (k_secret k ++ k_hwaddr k ++ src ++ tag_data_opt relay_sid).

(** [sec] is the clock, [timeout] conf_cookie_timeout. *)
Definition generate_cookie (k : pppoe_keys) (sec timeout : Z) (src : list Z) (host_uniq relay_sid : option pppoe_tag)
  : res (list Z) :=
  key ← session_key k src;
  let u1 := client_digest k src relay_sid ++
    match host_uniq with
    | Some t => fold4 (md5 (k_secret k ++ tag_data t))
    | None => replicate 4 0
    end ++ le32 (u32 (sec + timeout)) in
  mret (ecb (des_encrypt (k_des k)) (ecb (des_encrypt key) u1)).

(** [true] is a result other than 0: the cookie is refused. *)
Definition check_cookie (k : pppoe_keys) (sec : Z) (src cookie : list Z) (relay_sid : option pppoe_tag) : res bool :=
  key ← session_key k src;
  u1 ← slice 0 COOKIE_LENGTH cookie;
  let u1 := ecb (des_decrypt key) (ecb (des_decrypt (k_des k)) u1) in
  expires ← slice 20 4 u1;
  if le32_read expires <? sec then mret true
  else
    d ← slice 0 16 u1;
    mret (negb (bool_decide (d = client_digest k src relay_sid))).
End Crypto.

(** ** Vocabulary of the theorems *)
Definition disc_frame (dst src : list Z) (code sid : Z) (payload : list Z) : list Z :=
  dst ++ src ++ be_encode 2 ETH_P_PPP_DISC ++ [17; u8 code] ++ be_encode 2 sid ++
  be_encode 2 (Z.of_nat (length payload)) ++ payload.

(** A cookie's 24 bytes as they are sealed for the client [src]. *)
Definition seal (des_encrypt : list Z -> list Z -> list Z) (k : pppoe_keys) (src u : list Z) : list Z :=
  ecb (des_encrypt (k_des k)) (ecb (des_encrypt (k_hwaddr k ++ drop 4 src)) u).

(** A tag is added if the frame stays below the size of the buffer. *)
Definition fits (payload : list Z) (t : pppoe_tag) : bool :=
  (ETH_HLEN + PPPOE_HDR + length payload + TAG_HDR + length (tag_data t) <? ETHER_MAX_LEN)%nat.
Definition add_fit (payload : list Z) (t : pppoe_tag) : list Z :=
  if fits payload t then payload ++ tag_bytes t else payload.

(** The tags that get in behind [payload]. *)
Fixpoint fitting (payload : list Z) (ts : list pppoe_tag) : list pppoe_tag :=
  match ts with
  | [] => []
  | t :: ts => if fits payload t then t :: fitting (payload ++ tag_bytes t) ts else fitting payload ts
  end.

Definition payload_of (ts : list pppoe_tag) : list Z := foldl add_fit [] ts.

Definition opt_tag (t : option pppoe_tag) : list pppoe_tag := match t with Some t => [t] | None => [] end.
Definition if_tag (c : bool) (type : Z) (data : list Z) : list pppoe_tag := if c then [mk_tag type data] else [].
Definition name_tag (n : list Z) : pppoe_tag := mk_tag TAG_SERVICE_NAME n.

(** The tags of the packets sent, in order. *)
Definition PADO_tags (ac_name : list Z) (names : list (list Z)) (service_name : option pppoe_tag) (cookie : list Z)
    (host_uniq relay_sid : option pppoe_tag) (ppp_max_payload : Z) : list pppoe_tag :=
  [mk_tag TAG_AC_NAME ac_name] ++ map name_tag names ++ opt_tag service_name ++ [mk_tag TAG_AC_COOKIE cookie] ++
  opt_tag host_uniq ++ opt_tag relay_sid ++
  if_tag (negb (ppp_max_payload =? 0)) TAG_PPP_MAX_PAYLOAD (be_encode 2 ppp_max_payload).
Definition err_tags (ac_name : list Z) (host_uniq relay_sid : option pppoe_tag) (type : Z) : list pppoe_tag :=
  [mk_tag TAG_AC_NAME ac_name; mk_tag type []] ++ opt_tag host_uniq ++ opt_tag relay_sid.
Definition PADS_tags (ac_name : list Z) (service_name : pppoe_tag) (host_uniq relay_sid : option pppoe_tag) (max_mtu : Z)
  : list pppoe_tag :=
  [mk_tag TAG_AC_NAME ac_name; service_name] ++ opt_tag host_uniq ++ opt_tag relay_sid ++
  if_tag (1500 - 8 <? max_mtu) TAG_PPP_MAX_PAYLOAD (be_encode 2 max_mtu).
Definition PADT_tags (ac_name : list Z) (service_name : pppoe_tag) (relay_sid : option pppoe_tag) : list pppoe_tag :=
  [mk_tag TAG_AC_NAME ac_name; service_name] ++ opt_tag relay_sid.

(** A tag that ends no list and has a type of 16 bits. *)
Definition tag_ok (t : pppoe_tag) : Prop := 0 < tag_type t < 65536 /\ Z.of_nat (length (tag_data t)) < 65536.

(** A digest and a cipher to run the cookies with. *)
Definition toy_md5 (m : list Z) : list Z := be_encode 16 (be_decode m).
Definition toy_des (k b : list Z) : list Z := rev b.

(** The buffer holds the frame with [payload]. *)
Definition building (pack dst src : list Z) (code sid : Z) (payload : list Z) : Prop :=
  exists rest, pack = disc_frame dst src code sid payload ++ rest /\ length pack = ETHER_MAX_LEN.

(** ** Building *)
Section Building.
Variables (dst src : list Z) (code sid : Z).
Hypothesis Ldst : length dst = ETH_ALEN.
Hypothesis Lsrc : length src = ETH_ALEN.

(** The frame up to its length field. *)
Definition head : list Z := dst ++ src ++ be_encode 2 ETH_P_PPP_DISC ++ [17; u8 code] ++ be_encode 2 sid.

Lemma head_length : length head = (ETH_HLEN + 4)%nat.
Proof. unfold head. rewrite !length_app, !length_be_encode, Ldst, Lsrc. reflexivity. Qed.

Lemma disc_frame_head payload :
  disc_frame dst src code sid payload = head ++ be_encode 2 (Z.of_nat (length payload)) ++ payload.
Proof. unfold disc_frame, head. now rewrite <- !app_assoc. Qed.

Lemma disc_frame_length payload : length (disc_frame dst src code sid payload) = (ETH_HLEN + PPPOE_HDR + length payload)%nat.
Proof. rewrite disc_frame_head, !length_app, head_length, length_be_encode. unfold ETH_HLEN, PPPOE_HDR. lia. Qed.

Lemma setup_header_building pack :
  length pack = ETHER_MAX_LEN ->
  exists pack', setup_header pack src dst code sid = Ok pack' /\ building pack' dst src code sid [].
Proof.
  intros L. unfold setup_header, ETHER_MAX_LEN, ETH_ALEN in *.
  assert (L1 : length (dst ++ src ++ be_encode 2 ETH_P_PPP_DISC) = 14%nat)
    by (rewrite !length_app, length_be_encode; lia).
  rewrite splice_ok by lia. cbn [mbind res_bind]. rewrite L1. cbn [Nat.add take app].
  set (h := dst ++ src ++ be_encode 2 ETH_P_PPP_DISC) in *. set (t := [17; u8 code] ++ be_encode 2 sid ++ be_encode 2 0).
  assert (Lt : length t = 6%nat) by reflexivity.
  replace (h ++ drop 14 pack) with (h ++ take 6 (drop 14 pack) ++ drop 20 pack)
    by (f_equal; rewrite <- (take_drop 6 (drop 14 pack)) at 2; f_equal; now rewrite drop_drop).
  change (17 :: u8 code :: be_encode 2 sid ++ be_encode 2 0) with t. rewrite take_0. cbn [app].
  rewrite (splice_after h (take 6 (drop 14 pack)) t); [|now rewrite L1 | rewrite length_take, length_drop; lia].
  eexists. split; [reflexivity|]. exists (drop 20 pack). split.
  - rewrite app_assoc. f_equal. unfold disc_frame, h, t. cbn [length]. now rewrite <- !app_assoc, app_nil_r.
  - rewrite !length_app, L1, Lt, length_drop. unfold ETHER_MAX_LEN. lia.
Qed.

Lemma building_length pack payload :
  building pack dst src code sid payload -> Z.of_nat (length payload) < 65536 ->
  hdr_length pack = Ok (Z.of_nat (length payload)).
Proof.
  intros (rest & -> & L) B. unfold hdr_length. rewrite disc_frame_head, <- !app_assoc, <- head_length.
  apply read_be16_app. lia.
Qed.
Lemma building_capacity pack payload :
  building pack dst src code sid payload -> (length payload <= ETHER_MAX_LEN)%nat /\ Z.of_nat (length payload) < 65536.
Proof.
  intros (rest & -> & L). rewrite length_app, disc_frame_length in L. unfold ETHER_MAX_LEN in *. lia.
Qed.

(** Writing [b] behind the payload and the new length in the header. *)
Lemma building_write pack payload b :
  building pack dst src code sid payload -> (ETH_HLEN + PPPOE_HDR + length payload + length b < ETHER_MAX_LEN)%nat ->
  exists pack1 pack2, splice (ETH_HLEN + PPPOE_HDR + length payload) b pack = Ok pack1 /\
    u_write_be16 pack1 (ETH_HLEN + 4) (Z.of_nat (length payload + length b)) = Ok pack2 /\
    building pack2 dst src code sid (payload ++ b).
Proof.
  intros (rest & E & L) F. pose proof L as L'. rewrite E, length_app, disc_frame_length in L'.
  assert (Er : rest = take (length b) rest ++ drop (length b) rest) by (now rewrite take_drop).
  exists (disc_frame dst src code sid payload ++ b ++ drop (length b) rest).
  exists (head ++ be_encode 2 (Z.of_nat (length (payload ++ b))) ++ payload ++ b ++ drop (length b) rest).
  rewrite E. split; [|split].
  - rewrite Er at 1. apply splice_after; [now rewrite disc_frame_length | rewrite length_take; lia].
  - unfold u_write_be16. rewrite u16_small by (unfold ETHER_MAX_LEN in *; lia). rewrite disc_frame_head, <- !app_assoc.
    replace (length payload + length b)%nat with (length (payload ++ b)) by apply length_app.
    rewrite splice_after with (old := be_encode 2 (Z.of_nat (length payload))); [reflexivity | now rewrite head_length |].
    now rewrite !length_be_encode.
  - exists (drop (length b) rest). rewrite disc_frame_head, <- !app_assoc. split; [done|].
    rewrite !length_app, head_length, length_be_encode, length_drop. unfold ETH_HLEN, PPPOE_HDR in *. lia.
Qed.

Lemma put_tag2_building pack payload t :
  building pack dst src code sid payload ->
  exists pack', put_tag2 t pack = Ok pack' /\ building pack' dst src code sid (add_fit payload t).
Proof.
  intros B. destruct (building_capacity _ _ B) as [C1 C2]. pose proof B as (rest & E & L).
  unfold put_tag2, add_tag2, add_fit, fits. rewrite (building_length _ _ B C2). cbn [mbind res_bind].
  rewrite Nat2Z.id, L. set (n := length payload) in *. set (d := length (tag_data t)).
  destruct (Nat.ltb_spec (ETH_HLEN + PPPOE_HDR + n + TAG_HDR + d) ETHER_MAX_LEN) as [F|F].
  2: { destruct (_ <=? _) eqn:F'; zbool; [|lia]. exists pack. split; [done | exact B]. }
  - destruct (_ <=? _) eqn:F'; zbool; [lia|].
    assert (Lt : length (tag_bytes t) = (TAG_HDR + d)%nat) by (unfold tag_bytes; now rewrite !length_app, !length_be_encode).
    destruct (building_write pack payload (tag_bytes t) B) as (p1 & p2 & S1 & S2 & B2); [rewrite Lt; fold n; lia|].
    fold n in S1. cbv zeta. rewrite S1. cbn [mbind res_bind]. rewrite Lt in S2. fold n in S2.
    replace (Z.of_nat n + Z.of_nat TAG_HDR + Z.of_nat d) with (Z.of_nat (n + (TAG_HDR + d))) by lia.
    rewrite S2. exists p2. split; [done | exact B2].
Qed.

(** [add_tag] writes the same bytes in two steps. *)
Lemma put_tag_same pack payload type data :
  building pack dst src code sid payload -> put_tag type data pack = put_tag2 (mk_tag type data) pack.
Proof.
  intros B. destruct (building_capacity _ _ B) as [C1 C2]. pose proof B as (rest & E & L).
  unfold put_tag, put_tag2, add_tag, add_tag2. rewrite (building_length _ _ B C2). cbn [mbind res_bind tag_data].
  destruct (Z.ltb_spec (Z.of_nat (length data)) 0) as [N|_]; [lia|]. rewrite orb_false_r.
  destruct (_ <=? _) eqn:F; [done|]. zbool. rewrite Nat2Z.id. unfold tag_bytes. cbn [tag_type tag_data].
  set (off := (ETH_HLEN + PPPOE_HDR + length payload)%nat).
  assert (W : splice off (be_encode 2 type ++ be_encode 2 (Z.of_nat (length data)) ++ data) pack =
    (pack ← splice off (be_encode 2 type ++ be_encode 2 (Z.of_nat (length data))) pack; splice (off + TAG_HDR) data pack)).
  { rewrite app_assoc. symmetry. apply splice_seq. rewrite length_app, !length_be_encode. unfold TAG_HDR in F. lia. }
  rewrite W, Nat2Z.id, slice_whole. 
  destruct (splice off (be_encode 2 type ++ be_encode 2 (Z.of_nat (length data))) pack) as [p1| |] eqn:S1; cbn [mbind res_bind]; try done.
  destruct (Z.of_nat (length data) =? 0) eqn:Z0; [|done]. zbool. destruct data; [|cbn [length] in Z0; lia].
  apply splice_length in S1. rewrite splice_ok by (cbn [length] in *; unfold off; lia).
  cbn [mbind res_bind mret res_ret app length]. now rewrite Nat.add_0_r, take_drop.
Qed.

(** [f] adds the tags [ts], as far as they fit. *)
Definition adds (f : list Z -> res (list Z)) (ts : list pppoe_tag) : Prop :=
  forall pack payload, building pack dst src code sid payload ->
  exists pack', f pack = Ok pack' /\ building pack' dst src code sid (foldl add_fit payload ts).

Lemma adds_tag type data : adds (put_tag type data) [mk_tag type data].
Proof. intros pack payload B. rewrite (put_tag_same _ _ _ _ B). now apply put_tag2_building. Qed.

Lemma adds_tag2 t : adds (put_tag2 t) [t].
Proof. intros pack payload B. now apply put_tag2_building. Qed.

Lemma adds_none : adds mret [].
Proof. intros pack payload B. now exists pack. Qed.

Lemma adds_opt t : adds (put_opt t) (opt_tag t).
Proof. destruct t; [apply adds_tag2 | apply adds_none]. Qed.

Lemma adds_if c type data : adds (put_if c type data) (if_tag c type data).
Proof. destruct c; [apply adds_tag | apply adds_none]. Qed.

Lemma adds_seq f g ts us : adds f ts -> adds g us -> adds (fun pack => pack ← f pack; g pack) (ts ++ us).
Proof.
  intros Hf Hg pack payload B. destruct (Hf _ _ B) as (p1 & E1 & B1). destruct (Hg _ _ B1) as (p2 & E2 & B2).
  exists p2. rewrite E1, foldl_app. now split.
Qed.

Lemma adds_names names : adds (put_names names) (map name_tag names).
Proof.
  induction names as [|n names IH]; [apply adds_none|].
  exact (adds_seq _ _ [name_tag n] _ (adds_tag _ _) IH).
Qed.

(** [add_tag] with no data. *)
Lemma adds_empty type : adds (put_empty type) [mk_tag type []].
Proof.
  intros pack payload B.
  destruct (adds_tag type [] _ _ B) as (p & E & B'). exists p. split; [|exact B']. rewrite <- E.
  unfold put_empty, put_tag, add_tag. cbn [length Z.of_nat Z.eqb]. destruct (hdr_length pack); done.
Qed.

Lemma pppoe_send_building pack payload :
  building pack dst src code sid payload -> pppoe_send pack = Ok (disc_frame dst src code sid payload).
Proof.
  intros B. destruct (building_capacity _ _ B) as [C1 C2]. unfold pppoe_send. rewrite (building_length _ _ B C2).
  destruct B as (rest & -> & L). cbn [mbind res_bind]. rewrite Nat2Z.id, slice_ok by (rewrite length_app, disc_frame_length; lia).
  rewrite drop_0, take_app_length' by now rewrite disc_frame_length. done.
Qed.

(** One more step of a sender. *)
Lemma adds_then f ts (k : list Z -> res (list Z)) r pack payload :
  building pack dst src code sid payload -> adds f ts ->
  (forall pack', building pack' dst src code sid (foldl add_fit payload ts) -> k pack' = Ok r) ->
  (pack ← f pack; k pack) = Ok r.
Proof. intros B Hf Hk. destruct (Hf _ _ B) as (p & E & B'). rewrite E. now apply Hk. Qed.

Lemma header_then (k : list Z -> res (list Z)) r pack :
  length pack = ETHER_MAX_LEN -> (forall pack', building pack' dst src code sid [] -> k pack' = Ok r) ->
  (pack ← setup_header pack src dst code sid; k pack) = Ok r.
Proof. intros L Hk. destruct (setup_header_building pack L) as (p & E & B). rewrite E. now apply Hk. Qed.
End Building.

Lemma tag_bytes_length t : length (tag_bytes t) = (TAG_HDR + length (tag_data t))%nat.
Proof. unfold tag_bytes. now rewrite !length_app, !length_be_encode. Qed.

Lemma add_fit_bound payload t :
  (ETH_HLEN + PPPOE_HDR + length payload < ETHER_MAX_LEN)%nat ->
  (ETH_HLEN + PPPOE_HDR + length (add_fit payload t) < ETHER_MAX_LEN)%nat.
Proof.
  intros B. unfold add_fit. destruct (fits payload t) eqn:F; [|exact B].
  apply Nat.ltb_lt in F. rewrite length_app, tag_bytes_length. lia.
Qed.

Lemma foldl_add_fit_bound ts payload :
  (ETH_HLEN + PPPOE_HDR + length payload < ETHER_MAX_LEN)%nat ->
  (ETH_HLEN + PPPOE_HDR + length (foldl add_fit payload ts) < ETHER_MAX_LEN)%nat.
Proof. revert payload. induction ts as [|t ts IH]; intros payload B; [exact B | apply IH, add_fit_bound, B]. Qed.

Lemma foldl_add_fit ts payload :
  foldl add_fit payload ts = payload ++ concat (map tag_bytes (fitting payload ts)).
Proof.
  revert payload. induction ts as [|t ts IH]; intros payload; cbn [foldl fitting]; [now rewrite app_nil_r|].
  rewrite IH. unfold add_fit. destruct (fits payload t); [cbn [map concat]; now rewrite app_assoc | done].
Qed.

Lemma fitting_incl ts payload t : In t (fitting payload ts) -> In t ts.
Proof.
  revert payload. induction ts as [|u ts IH]; intros payload; cbn [fitting In]; [done|].
  destruct (fits payload u); [intros [->|H] | intros H]; eauto.
Qed.

Lemma tag_bytes_ok t : bytes_ok (tag_data t) -> bytes_ok (tag_bytes t).
Proof. intros H. unfold tag_bytes. rewrite !bytes_ok_app. auto using be_encode_ok. Qed.

(** The frame is made of bytes, and its header gives its length. *)
Lemma disc_frame_ok dst src code sid ts :
  length dst = ETH_ALEN -> length src = ETH_ALEN -> bytes_ok dst -> bytes_ok src -> Forall (fun t => bytes_ok (tag_data t)) ts ->
  let f := disc_frame dst src code sid (payload_of ts) in
  bytes_ok f /\ exists len, hdr_length f = Ok len /\ Z.of_nat (ETH_HLEN + PPPOE_HDR) + len = Z.of_nat (length f) /\ 0 <= len.
Proof.
  intros Ld Ls Bd Bs Bt f. pose proof (foldl_add_fit_bound ts [] ltac:(unfold ETH_HLEN, PPPOE_HDR, ETHER_MAX_LEN; cbn; lia)) as B.
  fold (payload_of ts) in B. unfold ETHER_MAX_LEN in B. split.
  - assert (Bp : bytes_ok (payload_of ts)).
    { unfold payload_of. rewrite foldl_add_fit. cbn [app]. apply Forall_concat, List.Forall_forall. intros l Hl.
      apply in_map_iff in Hl as (t & <- & Ht). apply fitting_incl in Ht. apply tag_bytes_ok.
      now apply (proj1 (List.Forall_forall _ _) Bt). }
    assert (Bv : bytes_ok [17; u8 code]) by (pose proof (u8_range code); repeat constructor; unfold byte_ok; lia).
    unfold f, disc_frame. rewrite !bytes_ok_app. pose proof be_encode_ok. eauto 10.
  - exists (Z.of_nat (length (payload_of ts))). unfold f. rewrite disc_frame_length by done. split; [|lia].
    unfold hdr_length. rewrite disc_frame_head, <- (head_length dst src code sid) by done.
    rewrite <- (app_nil_r (payload_of ts)) at 2. apply read_be16_app. lia.
Qed.

(** If all fit, all are there. *)
Lemma fitting_all ts payload :
  (ETH_HLEN + PPPOE_HDR + length payload + length (concat (map tag_bytes ts)) < ETHER_MAX_LEN)%nat -> fitting payload ts = ts.
Proof.
  revert payload. induction ts as [|t ts IH]; intros payload L; [done|]. cbn [fitting map concat] in *.
  rewrite length_app, tag_bytes_length in L. unfold fits. destruct (Nat.ltb_spec (ETH_HLEN + PPPOE_HDR + length payload + TAG_HDR + length (tag_data t)) ETHER_MAX_LEN); [|lia].
  f_equal. apply IH. rewrite length_app, tag_bytes_length. lia.
Qed.

(** The steps of a sender, one after the other. *)
Ltac added :=
  first [apply adds_tag; done | apply adds_tag2; done | apply adds_opt; done | apply adds_names; done
        | apply adds_empty; done | apply adds_if; done].
Ltac sender :=
  lazymatch goal with
  | |- (setup_header _ _ _ _ _ ≫= _) = _ => apply header_then; [done | done | done | intros ? ?; sender]
  | B : building ?p ?d ?s ?c ?i _ |- pppoe_send ?p = _ =>
      eapply eq_trans; [apply (pppoe_send_building d s c i); [done | done | exact B] | unfold payload_of; rewrite ?foldl_app; reflexivity]
  | B : building ?p ?d ?s ?c ?i _ |- (?f ?p ≫= _) = _ =>
      eapply (adds_then d s c i); [exact B | added | clear B; intros ? B; sender]
  end.

Lemma build_PADO_frame pack hwaddr addr ac_name names service_name cookie host_uniq relay_sid mp :
  length pack = ETHER_MAX_LEN -> length hwaddr = ETH_ALEN -> length addr = ETH_ALEN ->
  build_PADO pack hwaddr addr ac_name names service_name cookie host_uniq relay_sid mp =
  Ok (disc_frame addr hwaddr CODE_PADO 0 (payload_of (PADO_tags ac_name names service_name cookie host_uniq relay_sid mp))).
Proof. intros L L1 L2. unfold build_PADO, PADO_tags. sender. Qed.

Lemma pppoe_send_err_frame pack hwaddr addr ac_name host_uniq relay_sid code type :
  length pack = ETHER_MAX_LEN -> length hwaddr = ETH_ALEN -> length addr = ETH_ALEN ->
  pppoe_send_err pack hwaddr addr ac_name host_uniq relay_sid code type =
  Ok (disc_frame addr hwaddr code 0 (payload_of (err_tags ac_name host_uniq relay_sid type))).
Proof. intros L L1 L2. unfold pppoe_send_err, err_tags. sender. Qed.

Lemma pppoe_send_PADS_frame pack hwaddr addr ac_name sid service_name host_uniq relay_sid max_mtu :
  length pack = ETHER_MAX_LEN -> length hwaddr = ETH_ALEN -> length addr = ETH_ALEN ->
  pppoe_send_PADS pack hwaddr addr ac_name sid service_name host_uniq relay_sid max_mtu =
  Ok (disc_frame addr hwaddr CODE_PADS sid (payload_of (PADS_tags ac_name service_name host_uniq relay_sid max_mtu))).
Proof. intros L L1 L2. unfold pppoe_send_PADS, PADS_tags. sender. Qed.

Lemma pppoe_send_PADT_frame pack hwaddr addr ac_name sid service_name relay_sid :
  length pack = ETHER_MAX_LEN -> length hwaddr = ETH_ALEN -> length addr = ETH_ALEN ->
  pppoe_send_PADT pack hwaddr addr ac_name sid service_name relay_sid =
  Ok (disc_frame addr hwaddr CODE_PADT sid (payload_of (PADT_tags ac_name service_name relay_sid))).
Proof. intros L L1 L2. unfold pppoe_send_PADT, PADT_tags. sender. Qed.

(** ** Parsing *)
Section Parsing.
Context {A : Type} (step : A -> pppoe_tag -> A).

(** A packet as [disc_read] accepts it: the length in its header is in the buffer.
    [P] is kept by the tags. *)
Lemma tags_loop_safe (P : A -> Prop) fuel pack len n st :
  (forall st t, P st -> bytes_ok (tag_data t) -> P (step st t)) -> P st ->
  bytes_ok pack -> Z.of_nat (ETH_HLEN + PPPOE_HDR) + len <= Z.of_nat (length pack) -> 0 <= n -> len - n <= Z.of_nat fuel ->
  exists o, tags_loop step fuel pack len n st = Ok o /\ match o with Some st => P st | None => True end.
Proof.
  intros HP Hst Hb L. revert n st Hst. induction fuel as [|fuel IH]; intros n st Hst N F; cbn [tags_loop];
    (destruct (len <=? n) eqn:E; zbool; [now eexists|]); [lia|].
  cbv zeta. unfold ETH_HLEN, PPPOE_HDR, TAG_HDR in *.
  destruct (len <? _) eqn:E1; zbool; [now eexists|].
  destruct (u_read_be16_total pack (14 + 6 + Z.to_nat n + 2)) as (tl & R & Rt); [done | lia|].
  rewrite R. cbn [mbind res_bind]. destruct (len <? _) eqn:E2; zbool; [now eexists|].
  destruct (u_read_be16_total pack (14 + 6 + Z.to_nat n)) as (ty & R' & _); [done | lia|].
  rewrite R'. cbn [mbind res_bind]. destruct (ty =? _); [now eexists|].
  rewrite slice_ok by lia. cbn [mbind res_bind]. apply IH; [|lia | lia].
  apply HP; [done|]. apply Forall_take, Forall_drop, Hb.
Qed.

Lemma parse_tags_safe (P : A -> Prop) pack len st :
  (forall st t, P st -> bytes_ok (tag_data t) -> P (step st t)) -> P st ->
  bytes_ok pack -> hdr_length pack = Ok len -> Z.of_nat (ETH_HLEN + PPPOE_HDR) + len <= Z.of_nat (length pack) ->
  exists o, parse_tags step pack st = Ok o /\ match o with Some st => P st | None => True end.
Proof.
  intros HP Hst Hb E L. unfold parse_tags. rewrite E. cbn [mbind res_bind]. apply tags_loop_safe; [done | done | done | done | lia | lia].
Qed.

Lemma tag_reads hd t post :
  tag_ok t ->
  u_read_be16 (hd ++ tag_bytes t ++ post) (length hd + 2) = Ok (Z.of_nat (length (tag_data t))) /\
  u_read_be16 (hd ++ tag_bytes t ++ post) (length hd) = Ok (tag_type t) /\
  slice (length hd + 4) (length (tag_data t)) (hd ++ tag_bytes t ++ post) = Ok (tag_data t).
Proof.
  intros [T1 T2]. unfold tag_bytes. rewrite <- !app_assoc. split; [|split].
  - rewrite app_assoc. replace (length hd + 2)%nat with (length (hd ++ be_encode 2 (tag_type t)))
      by now rewrite length_app, length_be_encode.
    apply read_be16_app. lia.
  - apply read_be16_app. lia.
  - rewrite slice_app_r, (app_assoc (be_encode 2 (tag_type t))), <- (Nat.add_0_r 4).
    change (4 + 0)%nat with (length (be_encode 2 (tag_type t) ++ be_encode 2 (Z.of_nat (length (tag_data t)))) + 0)%nat.
    rewrite slice_app_r, slice_ok by (rewrite length_app; lia). now rewrite drop_0, take_app_length.
Qed.

(** The tags [ts] from offset [n] on, in a packet whose payload is [pre] and their
    bytes. *)
Lemma tags_loop_tags dst src code sid ts pre rest fuel st :
  length dst = ETH_ALEN -> length src = ETH_ALEN ->
  Forall tag_ok ts -> (length (concat (map tag_bytes ts)) <= fuel)%nat ->
  Z.of_nat (length (pre ++ concat (map tag_bytes ts))) < 65536 ->
  tags_loop step fuel (disc_frame dst src code sid (pre ++ concat (map tag_bytes ts)) ++ rest)
    (Z.of_nat (length (pre ++ concat (map tag_bytes ts)))) (Z.of_nat (length pre)) st = Ok (Some (foldl step st ts)).
Proof.
  intros Ld Ls Hts. revert pre fuel st. induction Hts as [|t ts [T1 T2] Hts IH]; intros pre fuel st F B.
  - destruct fuel; cbn [tags_loop map concat]; rewrite app_nil_r; destruct (_ <=? _) eqn:E; zbool; done || lia.
  - cbn [map concat] in *. set (tail := concat (map tag_bytes ts)) in *.
    assert (E : pre ++ tag_bytes t ++ tail = (pre ++ tag_bytes t) ++ tail) by apply app_assoc.
    pose proof (tag_bytes_length t) as Lt. rewrite length_app in F. unfold TAG_HDR in Lt.
    assert (LL : length (pre ++ tag_bytes t ++ tail) = (length pre + length (tag_bytes t) + length tail)%nat)
      by (rewrite !length_app; lia).
    destruct fuel as [|fuel]; [lia|]. cbn [tags_loop]. destruct (_ <=? _) eqn:E0; zbool; [lia|]. cbv zeta.
    unfold TAG_HDR in *. destruct (_ <? _) eqn:E1; zbool; [lia|]. rewrite Nat2Z.id, disc_frame_head, <- !app_assoc.
    set (hd := head dst src code sid ++ be_encode 2 (Z.of_nat (length (pre ++ tag_bytes t ++ tail))) ++ pre).
    assert (Lh : length hd = (ETH_HLEN + PPPOE_HDR + length pre)%nat)
      by (unfold hd; rewrite !length_app, head_length, length_be_encode by done; unfold ETH_HLEN, PPPOE_HDR; lia).
    replace (head dst src code sid ++ be_encode 2 (Z.of_nat (length (pre ++ tag_bytes t ++ tail))) ++ pre ++ tag_bytes t ++ tail ++ rest)
      with (hd ++ tag_bytes t ++ tail ++ rest) by (unfold hd; now rewrite <- !app_assoc).
    destruct (tag_reads hd t (tail ++ rest) (conj T1 T2)) as (R1 & R2 & R3).
    rewrite <- Lh, R1. cbn [mbind res_bind]. destruct (_ <? _) eqn:E2; zbool; [lia|]. rewrite R2. cbn [mbind res_bind].
    destruct (_ =? TAG_END_OF_LIST) eqn:E3; zbool; [unfold TAG_END_OF_LIST in E3; lia|].
    rewrite Nat2Z.id, R3. cbn [mbind res_bind foldl].
    specialize (IH (pre ++ tag_bytes t) fuel (step st t)). fold tail in IH. rewrite <- E, disc_frame_head, <- !app_assoc in IH.
    unfold hd. rewrite <- !app_assoc. rewrite <- IH by lia. rewrite (length_app pre (tag_bytes t)), Lt. destruct t.
    f_equal. lia.
Qed.

(** A built frame is read back. *)
Lemma parse_tags_frame dst src code sid ts rest st :
  length dst = ETH_ALEN -> length src = ETH_ALEN -> Forall tag_ok ts ->
  parse_tags step (disc_frame dst src code sid (payload_of ts) ++ rest) st = Ok (Some (foldl step st (fitting [] ts))).
Proof.
  intros Ld Ls Hts. unfold payload_of. pose proof (foldl_add_fit_bound ts [] ltac:(unfold ETH_HLEN, PPPOE_HDR, ETHER_MAX_LEN; cbn; lia)) as B.
  rewrite foldl_add_fit in *. cbn [app] in *. unfold ETHER_MAX_LEN in B.
  assert (Hf : Forall tag_ok (fitting [] ts)).
  { apply List.Forall_forall. intros t Ht. apply fitting_incl in Ht. now apply (proj1 (List.Forall_forall _ _) Hts). }
  unfold parse_tags. rewrite disc_frame_head, <- !app_assoc at 1. unfold hdr_length.
  rewrite <- (head_length dst src code sid) by done. rewrite read_be16_app by lia. cbn [mbind res_bind].
  apply (tags_loop_tags dst src code sid (fitting [] ts) []); [done | done | done | cbn [app]; lia | cbn [app]; lia].
Qed.
End Parsing.

(** ** The log *)
Lemma print_tag_total t : exists i, print_tag t = Ok i.
Proof.
  unfold print_tag, print_tag_u16, u_read_be16, u_read_be32.
  repeat case_match; zbool; try (now eexists); rewrite slice_ok by lia; now eexists.
Qed.

Lemma print_loop_total fuel pack len n :
  bytes_ok pack -> Z.of_nat (ETH_HLEN + PPPOE_HDR) + len <= Z.of_nat (length pack) -> 0 <= n -> len - n <= Z.of_nat fuel ->
  exists l, print_loop fuel pack len n = Ok l.
Proof.
  intros Hb L. revert n. induction fuel as [|fuel IH]; intros n N F; cbn [print_loop];
    (destruct (len <=? n) eqn:E; zbool; [now eexists|]); [lia|].
  cbv zeta. unfold ETH_HLEN, PPPOE_HDR, TAG_HDR in *.
  destruct (len <? _) eqn:E1; zbool; [now eexists|].
  destruct (u_read_be16_total pack (14 + 6 + Z.to_nat n + 2)) as (tl & R & Rt); [done | lia|].
  rewrite R. cbn [mbind res_bind]. destruct (len <? _) eqn:E2; zbool; [now eexists|].
  destruct (u_read_be16_total pack (14 + 6 + Z.to_nat n)) as (ty & R' & _); [done | lia|].
  rewrite R'. cbn [mbind res_bind]. rewrite slice_ok by lia. cbn [mbind res_bind].
  edestruct print_tag_total as [i ->]. cbn [mbind res_bind].
  destruct (IH (n + Z.of_nat 4 + tl)) as [l ->]; [lia | lia | now eexists].
Qed.

(** The log of a packet is written without leaving the packet. *)
Lemma print_packet_total pack len :
  bytes_ok pack -> hdr_length pack = Ok len -> Z.of_nat (ETH_HLEN + PPPOE_HDR) + len <= Z.of_nat (length pack) ->
  (ETH_HLEN + PPPOE_HDR <= length pack)%nat -> exists l, print_packet pack = Ok l.
Proof.
  intros Hb E L L0. unfold print_packet. unfold ETH_HLEN, PPPOE_HDR, ETH_ALEN in *.
  rewrite !slice_ok by lia. cbn [mbind res_bind].
  destruct (lookup_lt_is_Some_2 pack (14 + 1)) as [c ->]; [lia|]. cbn [res_of_option mbind res_bind].
  destruct (u_read_be16_total pack (14 + 2)) as (sid & -> & _); [done | lia|]. rewrite E. cbn [mbind res_bind].
  destruct (print_loop_total (Z.to_nat len) pack len 0) as [l ->]; [done | unfold ETH_HLEN, PPPOE_HDR; lia | lia | lia | now eexists].
Qed.

(** The four senders write inside the frame buffer whatever it held, and the
    socket gets the Ethernet and PPPoE headers with the true length and the tags in
    order, as far as they fit: a tag that does not is left out and the frame is
    shorter than the buffer. *)
Theorem pppoe_senders pack hwaddr addr ac_name sid names sn service_name cookie host_uniq relay_sid v code type :
  length pack = ETHER_MAX_LEN -> length hwaddr = ETH_ALEN -> length addr = ETH_ALEN ->
  build_PADO pack hwaddr addr ac_name names sn cookie host_uniq relay_sid v =
    Ok (disc_frame addr hwaddr CODE_PADO 0 (payload_of (PADO_tags ac_name names sn cookie host_uniq relay_sid v))) /\
  pppoe_send_err pack hwaddr addr ac_name host_uniq relay_sid code type =
    Ok (disc_frame addr hwaddr code 0 (payload_of (err_tags ac_name host_uniq relay_sid type))) /\
  pppoe_send_PADS pack hwaddr addr ac_name sid service_name host_uniq relay_sid v =
    Ok (disc_frame addr hwaddr CODE_PADS sid (payload_of (PADS_tags ac_name service_name host_uniq relay_sid v))) /\
  pppoe_send_PADT pack hwaddr addr ac_name sid service_name relay_sid =
    Ok (disc_frame addr hwaddr CODE_PADT sid (payload_of (PADT_tags ac_name service_name relay_sid))) /\
  forall code sid ts, (length (disc_frame addr hwaddr code sid (payload_of ts)) < ETHER_MAX_LEN)%nat.
Proof.
  intros L L1 L2. split; [|split; [|split; [|split]]].
  - now apply build_PADO_frame.
  - now apply pppoe_send_err_frame.
  - now apply pppoe_send_PADS_frame.
  - now apply pppoe_send_PADT_frame.
  - intros c i ts. rewrite disc_frame_length by done. apply foldl_add_fit_bound. unfold ETH_HLEN, PPPOE_HDR, ETHER_MAX_LEN. cbn. lia.
Qed.

Lemma pppoe_senders_witness :
  build_PADO (replicate ETHER_MAX_LEN 255) [2;0;0;0;0;1] [2;0;0;0;0;9] [97;99] [[115]] None (replicate 24 7) None None 1500 =
    Ok (disc_frame [2;0;0;0;0;9] [2;0;0;0;0;1] CODE_PADO 0 (payload_of (PADO_tags [97;99] [[115]] None (replicate 24 7) None None 1500))).
Proof.
  apply (pppoe_senders (replicate ETHER_MAX_LEN 255) [2;0;0;0;0;1] [2;0;0;0;0;9] [97;99] 0 [[115]] None
    (mk_tag TAG_SERVICE_NAME []) (replicate 24 7) None None 1500 0 0); [apply length_replicate | reflexivity | reflexivity].
Defined.

(** The loop over the tags of a received packet ends and reads nothing outside
    the packet, for every packet whose header gives a length that was received; on a
    packet the server itself sends it sees the tags that were put in, in order. *)
Theorem pppoe_parse_tags {A} (step : A -> pppoe_tag -> A) st :
  (forall pack len, bytes_ok pack -> hdr_length pack = Ok len ->
     Z.of_nat (ETH_HLEN + PPPOE_HDR) + len <= Z.of_nat (length pack) -> exists o, parse_tags step pack st = Ok o) /\
  (forall dst src code sid ts rest, length dst = ETH_ALEN -> length src = ETH_ALEN -> Forall tag_ok ts ->
     parse_tags step (disc_frame dst src code sid (payload_of ts) ++ rest) st = Ok (Some (foldl step st (fitting [] ts)))).
Proof.
  split; [|intros; now apply parse_tags_frame].
  intros pack len Hb E L. destruct (parse_tags_safe step (fun _ => True) pack len st) as (o & -> & _); eauto.
Qed.

Lemma pppoe_parse_tags_witness :
  parse_tags (fun l t => l ++ [t]) (disc_frame [2;0;0;0;0;9] [2;0;0;0;0;1] CODE_PADO 0
     (payload_of [mk_tag TAG_AC_NAME [97]; mk_tag TAG_AC_COOKIE [1;2]]) ++ [0;0]) [] =
  Ok (Some (foldl (fun l t => l ++ [t]) [] (fitting [] [mk_tag TAG_AC_NAME [97]; mk_tag TAG_AC_COOKIE [1;2]]))).
Proof.
  apply (proj2 (pppoe_parse_tags (fun l t => l ++ [t]) [])); [reflexivity | reflexivity |].
  repeat constructor.
Defined.

(** ** Cookies *)
Lemma le32_length v : length (le32 v) = 4%nat.
Proof. reflexivity. Qed.

Lemma le32_read_le32 v : le32_read (le32 v) = u32 v.
Proof. unfold le32_read, le32. rewrite rev_involutive, be_decode_encode. reflexivity. Qed.

Lemma le32_le32_read b : bytes_ok b -> length b = 4%nat -> le32 (le32_read b) = b.
Proof.
  intros Hb L. unfold le32, le32_read. rewrite <- L, <- length_rev, be_encode_decode, rev_involutive; [done|].
  apply Forall_rev in Hb. exact Hb.
Qed.

Lemma ecb_length f b : (forall x, length x = 8%nat -> length (f x) = 8%nat) -> length b = 24%nat -> length (ecb f b) = 24%nat.
Proof. intros Hf L. unfold ecb. rewrite !length_app, !Hf by (rewrite length_take, ?length_drop; lia). reflexivity. Qed.

(** Deciphering what was enciphered, block by block. *)
Lemma ecb_inv f g b :
  (forall x, length x = 8%nat -> length (f x) = 8%nat) -> (forall x, length x = 8%nat -> g (f x) = x) -> length b = 24%nat ->
  ecb g (ecb f b) = b.
Proof.
  intros Hf Hg L. unfold ecb.
  set (x := take 8 b). set (y := take 8 (drop 8 b)). set (z := take 8 (drop 16 b)).
  assert (Lx : length x = 8%nat) by (unfold x; rewrite length_take; lia).
  assert (Ly : length y = 8%nat) by (unfold y; rewrite length_take, length_drop; lia).
  assert (Lz : length z = 8%nat) by (unfold z; rewrite length_take, length_drop; lia).
  rewrite (drop_app_length' (f x) _ 8), take_app_length', (take_app_length' (f y)) by now rewrite Hf.
  replace 16%nat with (8 + 8)%nat by done.
  rewrite <- (drop_drop (f x ++ _) 8 8), (drop_app_length' (f x) _ 8), (drop_app_length' (f y) _ 8) by now rewrite Hf.
  rewrite (take_ge (f z)) by (rewrite Hf; lia). rewrite !Hg by done.
  unfold x, y, z. rewrite (take_ge (drop 16 b)) by (rewrite length_drop; lia).
  change 16%nat with (8 + 8)%nat. rewrite <- (drop_drop b 8 8). now rewrite !take_drop.
Qed.

Section CookieTheorems.
Variable md5 : list Z -> list Z.
Variables des_encrypt des_decrypt : list Z -> list Z -> list Z.
Hypothesis md5_length : forall m, length (md5 m) = 16%nat.
Hypothesis des_encrypt_length : forall k b, length b = 8%nat -> length (des_encrypt k b) = 8%nat.
Hypothesis des_decrypt_length : forall k b, length b = 8%nat -> length (des_decrypt k b) = 8%nat.
Hypothesis des_decrypt_ok : forall k b, bytes_ok b -> bytes_ok (des_decrypt k b).
Hypothesis des_decrypt_encrypt : forall k b, length b = 8%nat -> des_decrypt k (des_encrypt k b) = b.
Hypothesis des_encrypt_decrypt : forall k b, length b = 8%nat -> des_encrypt k (des_decrypt k b) = b.

Lemma unseal_seal key1 key2 u :
  length u = 24%nat ->
  ecb (des_decrypt key1) (ecb (des_decrypt key2) (ecb (des_encrypt key2) (ecb (des_encrypt key1) u))) = u.
Proof. intros L. rewrite (ecb_inv (des_encrypt key2)), ecb_inv; auto using ecb_length. Qed.

Lemma seal_unseal key1 key2 c :
  length c = 24%nat ->
  ecb (des_encrypt key2) (ecb (des_encrypt key1) (ecb (des_decrypt key1) (ecb (des_decrypt key2) c))) = c.
Proof. intros L. rewrite (ecb_inv (des_decrypt key1)), ecb_inv; auto using ecb_length. Qed.

Lemma ecb_bytes f b : (forall x, bytes_ok x -> bytes_ok (f x)) -> bytes_ok b -> bytes_ok (ecb f b).
Proof.
  intros Hf Hb. unfold ecb, bytes_ok in *. rewrite !Forall_app.
  repeat split; apply Hf; repeat first [apply Forall_take | apply Forall_drop]; exact Hb.
Qed.

Lemma session_key_ok k src : length src = ETH_ALEN -> session_key k src = Ok (k_hwaddr k ++ drop 4 src).
Proof.
  intros L. unfold session_key, ETH_ALEN in *. rewrite slice_ok by lia.
  now rewrite take_ge by (rewrite length_drop; lia).
Qed.

(** What [check_cookie] finds in a cookie. *)
Lemma check_cookie_plain k sec src cookie relay_sid d host e :
  length src = ETH_ALEN -> length d = 16%nat -> length host = 4%nat -> length e = 4%nat ->
  cookie = seal des_encrypt k src (d ++ host ++ e) ->
  check_cookie md5 des_decrypt k sec src cookie relay_sid =
  Ok (if le32_read e <? sec then true else negb (bool_decide (d = client_digest md5 k src relay_sid))).
Proof.
  intros L Ld Lh Le ->. unfold check_cookie. rewrite session_key_ok by done. cbn [mbind res_bind]. unfold seal.
  assert (LL : length (d ++ host ++ e) = 24%nat) by (rewrite !length_app; lia).
  set (c := ecb _ (ecb _ _)). assert (Lc : length c = COOKIE_LENGTH) by (repeat apply ecb_length; auto).
  rewrite <- Lc, slice_whole. cbn [mbind res_bind]. unfold c.
  rewrite unseal_seal by done. rewrite (slice_ok 20) by lia.
  change 20%nat with (16 + 4)%nat. rewrite <- (drop_drop _ 4 16), (drop_app_length' d), (drop_app_length' host), take_ge by lia.
  cbn [mbind res_bind]. destruct (_ <? sec); [done|]. rewrite slice_ok by lia. now rewrite drop_0, take_app_length'.
Qed.

(** What [generate_cookie] makes is accepted until its time has passed. *)
Lemma generated_cookie k src relay_sid sec timeout host_uniq :
  length src = ETH_ALEN -> 0 <= sec + timeout < 4294967296 ->
  exists cookie, generate_cookie md5 des_encrypt k sec timeout src host_uniq relay_sid = Ok cookie /\
    length cookie = COOKIE_LENGTH /\
    forall now, check_cookie md5 des_decrypt k now src cookie relay_sid = Ok (sec + timeout <? now).
Proof.
  intros L Rt. set (dg := client_digest md5 k src relay_sid).
  assert (Ldg : length dg = 16%nat) by apply md5_length. unfold generate_cookie. rewrite session_key_ok by done.
  set (host := match host_uniq with Some t => _ | None => _ end).
  assert (Lh : length host = 4%nat) by (unfold host; destruct host_uniq; reflexivity).
  exists (seal des_encrypt k src (dg ++ host ++ le32 (u32 (sec + timeout)))). split; [reflexivity|].
  split; [repeat apply ecb_length; auto; now rewrite !length_app, Lh, Ldg|].
  intros now. rewrite (check_cookie_plain k now src _ relay_sid dg host (le32 (u32 (sec + timeout))) L Ldg Lh eq_refl eq_refl).
  rewrite le32_read_le32, !u32_small by (rewrite ?u32_small; lia).
  destruct (_ <? _) eqn:E; [done|]. now rewrite bool_decide_true.
Qed.

(** A cookie of [COOKIE_LENGTH] bytes is accepted for a client exactly if it is
    the sealed digest of this client's address and relay session, with any four bytes
    of host data and an expiry time that has not passed; [generate_cookie] makes such
    cookies, and the one it makes is accepted until the clock passes the timeout. *)
Theorem pppoe_cookie_accepts k src relay_sid :
  length src = ETH_ALEN ->
  (forall sec cookie, length cookie = COOKIE_LENGTH -> bytes_ok cookie ->
     check_cookie md5 des_decrypt k sec src cookie relay_sid = Ok false <->
     exists host expires, length host = 4%nat /\ 0 <= expires < 4294967296 /\ sec <= expires /\
       cookie = seal des_encrypt k src (client_digest md5 k src relay_sid ++ host ++ le32 expires)) /\
  (forall sec timeout host_uniq, 0 <= sec + timeout < 4294967296 ->
     exists cookie, generate_cookie md5 des_encrypt k sec timeout src host_uniq relay_sid = Ok cookie /\
       length cookie = COOKIE_LENGTH /\
       forall now, check_cookie md5 des_decrypt k now src cookie relay_sid = Ok (sec + timeout <? now)).
Proof.
  intros L. set (dg := client_digest md5 k src relay_sid).
  assert (Ldg : length dg = 16%nat) by apply md5_length. split.
  - intros sec cookie Lc Bc. split.
    + set (key := k_hwaddr k ++ drop 4 src). set (u := ecb (des_decrypt key) (ecb (des_decrypt (k_des k)) cookie)).
      assert (Lu : length u = 24%nat) by (repeat apply ecb_length; auto).
      assert (Bu : bytes_ok u) by (repeat apply ecb_bytes; auto).
      assert (Ec : cookie = seal des_encrypt k src u) by (unfold seal, u; now rewrite seal_unseal).
      rewrite <- (take_drop 16 u), <- (take_drop 4 (drop 16 u)), drop_drop in Ec.
      assert (Le : length (drop (16 + 4) u) = 4%nat) by (rewrite length_drop; lia).
      assert (Be : bytes_ok (drop (16 + 4) u)) by now apply Forall_drop.
      assert (Ld : length (take 16 u) = 16%nat) by (rewrite length_take; lia).
      assert (Lh : length (take 4 (drop 16 u)) = 4%nat) by (rewrite length_take, length_drop; lia).
      rewrite (check_cookie_plain k sec src cookie relay_sid _ _ _ L Ld Lh Le Ec).
      destruct (_ <? sec) eqn:E; [done|]. zbool. intros [= D%negb_false_iff%bool_decide_eq_true].
      exists (take 4 (drop 16 u)), (le32_read (drop (16 + 4) u)). rewrite le32_le32_read by done.
      repeat split; [exact Lh | | | done | unfold dg; now rewrite <- D].
      all: unfold le32_read; pose proof (be_decode_range (rev (drop (16 + 4) u)) ltac:(now apply Forall_rev)) as R;
        rewrite length_rev, Le in R; lia.
    + intros (host & e & Lh & Re & Hs & ->). 
      rewrite (check_cookie_plain k sec src _ relay_sid dg host (le32 e) L Ldg Lh eq_refl eq_refl).
      rewrite le32_read_le32, u32_small by lia. destruct (_ <? _) eqn:E; zbool; [lia|]. now rewrite bool_decide_true.
  - intros sec timeout host_uniq Rt. now apply generated_cookie.
Qed.
End CookieTheorems.

Lemma pppoe_cookie_accepts_witness :
  exists cookie,
    generate_cookie toy_md5 toy_des (mk_keys [2;0;0;0;0;1] (replicate 16 3) (replicate 8 4)) 1000 5 [2;0;0;0;0;9] None None
      = Ok cookie /\ length cookie = COOKIE_LENGTH /\
    forall now, check_cookie toy_md5 toy_des (mk_keys [2;0;0;0;0;1] (replicate 16 3) (replicate 8 4)) now
      [2;0;0;0;0;9] cookie None = Ok (1000 + 5 <? now).
Proof.
  apply (pppoe_cookie_accepts toy_md5 toy_des toy_des).
  - intros m. apply length_be_encode.
  - intros k b L. unfold toy_des. now rewrite length_rev.
  - intros k b L. unfold toy_des. now rewrite length_rev.
  - intros k b Hb. now apply Forall_rev.
  - intros k b L. apply rev_involutive.
  - intros k b L. apply rev_involutive.
  - reflexivity.
  - lia.
Defined.
