(* ===== verification/PppoeDpado.v ===== *)
(** * The delay of PPPoE offers (accel-pppd/ctrl/pppoe/dpado.c)

    The option pado-delay is a list of delays with the number of sessions from which
    each one counts.  A pointer into the list is an index.  The numbers of sessions
    come from an atomic counter outside the lock of the list; the theorems tell the
    one order of events from the other. *)
From S2P Require Import Prelude CString.

Definition INT_MAX : Z := 2 ^ 31 - 1.

Record dpado_range_t : Type := mk_range {
  conn_cnt : Z;           (* unsigned int *)
  r_pado_delay : Z
}.

Record dpado : Type := mk_dpado {
  dpado_range_list : list dpado_range_t;
  dpado_range_next : option nat;
  dpado_range_prev : option nat;
  pado_delay : Z
}.

Definition dpado0 : dpado := mk_dpado [] None None 0.

(** The entry behind [i], null at the end of the list. *)
Definition next_range (rs : list dpado_range_t) (i : nat) : option nat :=
  if decide (S i < length rs)%nat then Some (S i) else None.

Definition dpado_check_next (conn : Z) (d : dpado) : res dpado :=
  match dpado_range_next d with
  | None => mret d
  | Some i =>
      r ← res_of_option (dpado_range_list d !! i);
      if u32 conn =? conn_cnt r
      then mret (mk_dpado (dpado_range_list d) (next_range (dpado_range_list d) i) (Some i) (r_pado_delay r))
      else mret d
  end.

(** Before the first entry is the head of the list, which is no range. *)
Definition dpado_check_prev (conn : Z) (d : dpado) : res dpado :=
  match dpado_range_prev d with
  | None => mret d
  | Some i =>
      r ← res_of_option (dpado_range_list d !! i);
      if u32 conn =? conn_cnt r
      then
        match i with
        | O => Oob
        | S i' =>
            p ← res_of_option (dpado_range_list d !! i');
            mret (mk_dpado (dpado_range_list d) (Some i) (Some i') (r_pado_delay p))
        end
      else mret d
  end.

(** [u_strstrip] *)
Fixpoint u_strstrip (s : string) (c : ascii) : string :=
  match s with
  | EmptyString => EmptyString
  | String a s => if Ascii.eqb a c then u_strstrip s c else String a (u_strstrip s c)
  end.

(** The number that fills [s]. *)
Definition whole_number (s : string) : option Z :=
  match strtol_int s with
  | (v, EmptyString) => Some v
  | _ => None
  end.

(** The loop over the list; the commas and colons are overwritten by NULs. *)
Fixpoint parse_ranges (fuel : nat) (s : string) (acc : list dpado_range_t) : option (list dpado_range_t) :=
  match fuel with
  | O => None
  | S fuel =>
      let seg := str_upto s "," in
      delay ← whole_number (str_upto seg ":");
      cnt ← match acc with
            | [] => Some INT_MAX
            | _ :: _ => p ← strchr seg ":"; c ← whole_number (str_drop 1 p); Some (u32 c)
            end;
      let acc := acc ++ [mk_range cnt delay] in
      match strchr s "," with
      | None => Some acc
      | Some p => parse_ranges fuel (str_drop 1 p) acc
      end
  end.

(** The choice of the range for [active] sessions. *)
Fixpoint choose_range (active : Z) (rs : list dpado_range_t) (i : nat) (prev : option nat) : option nat :=
  match rs with
  | [] => prev
  | r :: rs => choose_range active rs (S i) (if negb (isset prev) || (conn_cnt r <=? active) then Some i else prev)
  end.

(** [active] is the value of the counter of sessions.  The result 0 or -1. *)
Definition dpado_parse (active : Z) (str : string) (d : dpado) : dpado * Z :=
  let str1 := u_strstrip str " " in
  match parse_ranges (S (String.length str1)) str1 [] with
  | None => (d, -1)
  | Some rs =>
      let prev := choose_range active rs 0 None in
      (mk_dpado rs (i ← prev; next_range rs i) prev
         (match i ← prev; rs !! i with Some r => r_pado_delay r | None => 0 end), 0)
  end.

(** ** Vocabulary of the theorems *)

(** A session starts or ends, in one step: [connect_channel] counts up and passes the
    new number, [disconnect] and [ppp_finished] count down and pass the old one. *)
Inductive session_event : Type := Started | Ended.
Definition session_step (e : session_event) (s : Z * dpado) : res (Z * dpado) :=
  let '(active, d) := s in
  match e with
  | Started => d ← dpado_check_next (active + 1) d; mret (active + 1, d)
  | Ended => d ← dpado_check_prev active d; mret (active - 1, d)
  end.
Fixpoint session_run (es : list session_event) (s : Z * dpado) : res (Z * dpado) :=
  match es with
  | [] => mret s
  | e :: es => s ← session_step e s; session_run es s
  end.

Fixpoint active_after (es : list session_event) (active : Z) : Z :=
  match es with
  | [] => active
  | Started :: es => active_after es (active + 1)
  | Ended :: es => active_after es (active - 1)
  end.

(** The counter stays a number of sessions. *)
Fixpoint active_ok (es : list session_event) (active : Z) : Prop :=
  0 <= active < INT_MAX /\
  match es with
  | [] => True
  | Started :: es => active_ok es (active + 1)
  | Ended :: es => active_ok es (active - 1)
  end.

(** The delay that the option gives for [active] sessions: that of the last entry
    whose number is reached, of the first one if there is none. *)
Fixpoint delay_from (active : Z) (rs : list dpado_range_t) (delay : Z) : Z :=
  match rs with
  | [] => delay
  | r :: rs => if conn_cnt r <=? active then delay_from active rs (r_pado_delay r) else delay
  end.
Definition delay_for (active : Z) (rs : list dpado_range_t) : Z :=
  match rs with [] => 0 | r :: rs => delay_from active rs (r_pado_delay r) end.

(** The numbers grow, as the manual asks for. *)
Definition sorted_from (rs : list dpado_range_t) : Prop :=
  forall i j a b, rs !! i = Some a -> rs !! j = Some b -> (0 < i < j)%nat -> conn_cnt a < conn_cnt b.
Definition sorted_ranges (rs : list dpado_range_t) : Prop :=
  sorted_from rs /\ (forall i r, rs !! i = Some r -> (0 < i)%nat -> 0 < conn_cnt r < INT_MAX).

(** The pointers are at the entry for [active]. *)
Definition dpado_at (active : Z) (d : dpado) : Prop :=
  exists i r, dpado_range_prev d = Some i /\ dpado_range_list d !! i = Some r /\
    dpado_range_next d = next_range (dpado_range_list d) i /\ pado_delay d = r_pado_delay r /\
    ((0 < i)%nat -> conn_cnt r <= active) /\
    (forall j x, (i < j)%nat -> dpado_range_list d !! j = Some x -> active < conn_cnt x).

(** The pointers are into the list, whose first entry is never left. *)
Definition dpado_wf (d : dpado) : Prop :=
  (forall i, dpado_range_next d = Some i -> (i < length (dpado_range_list d))%nat) /\
  (forall i, dpado_range_prev d = Some i -> (i < length (dpado_range_list d))%nat) /\
  (forall r, dpado_range_list d !! O = Some r -> conn_cnt r = INT_MAX).

(** A start and an end of a session at the same time, with [active] sessions before:
    the counter goes up and down, then the checks run in the other order. *)
Definition crossing (active : Z) (d : dpado) : res dpado :=
  d ← dpado_check_prev (active + 1) d; dpado_check_next (active + 1) d.

(** The delay for more than nine sessions is -1: no new ones. *)
Definition ten_conf : string := "0,-1:10".

(** ** Parsing *)

(** Each round takes one character at least: fuel above the length is enough. *)
Lemma strchr_shorter s c p : strchr s c = Some p -> (String.length (str_drop 1 p) < String.length s)%nat.
Proof.
  induction s as [|a s IH]; cbn [strchr]; [done|]. destruct (Ascii.eqb a c).
  - intros [= <-]. cbn. lia.
  - intros H. apply IH in H. cbn [String.length]. lia.
Qed.

Lemma parse_ranges_fuel f1 f2 s acc :
  (String.length s < f1)%nat -> (String.length s < f2)%nat -> parse_ranges f1 s acc = parse_ranges f2 s acc.
Proof.
  revert f2 s acc. induction f1 as [|f1 IH]; intros [|f2] s acc H1 H2; [lia | lia | lia |]. cbn [parse_ranges].
  destruct (whole_number _); [|done]. cbn [mbind option_bind]. destruct (match acc with [] => _ | _ :: _ => _ end); [|done].
  cbn [mbind option_bind]. destruct (strchr s ",") as [p|] eqn:E; [|done]. apply strchr_shorter in E. apply IH; lia.
Qed.

Lemma parse_ranges_head fuel s acc rs :
  parse_ranges fuel s acc = Some rs ->
  (exists r, acc !! O = Some r /\ conn_cnt r = INT_MAX) \/ acc = [] -> exists r, rs !! O = Some r /\ conn_cnt r = INT_MAX.
Proof.
  revert s acc. induction fuel as [|fuel IH]; intros s acc; cbn [parse_ranges]; [done|].
  destruct (whole_number _) as [delay|]; [|done]. cbn [mbind option_bind].
  destruct (match acc with [] => _ | _ :: _ => _ end) as [cnt|] eqn:Ec; [|done]. cbn [mbind option_bind]. intros P H.
  assert (H' : exists r, (acc ++ [mk_range cnt delay]) !! O = Some r /\ conn_cnt r = INT_MAX).
  { destruct H as [(r & Hr & C)| ->].
    - exists r. split; [|done]. now apply lookup_app_l_Some.
    - injection Ec as <-. now eexists. }
  destruct (strchr s ","); [eauto|]. injection P as <-. exact H'.
Qed.

Lemma choose_range_spec active rs i p :
  exists q, choose_range active rs i (Some p) = Some q /\
    (q = p \/ exists k r, q = (i + k)%nat /\ rs !! k = Some r /\ conn_cnt r <= active) /\
    forall k x, (p < i)%nat -> (q < i + k)%nat -> rs !! k = Some x -> active < conn_cnt x.
Proof.
  revert i p. induction rs as [|r rs IH]; intros i p; cbn [choose_range isset negb orb].
  - exists p. repeat split; [now left | intros k x _ _ H; now rewrite lookup_nil in H].
  - destruct (conn_cnt r <=? active) eqn:E; zbool.
    + destruct (IH (S i) i) as (q & Q & D & L). exists q. split; [exact Q|]. split.
      * right. destruct D as [->|(k & x & -> & Hk & Hx)]; [exists O, r | exists (S k), x]; repeat split; try done; lia.
      * intros [|k] x _ Hq Hx.
        -- exfalso. destruct D as [->|(k & y & -> & _)]; lia.
        -- apply (L k x); [lia | lia | exact Hx].
    + destruct (IH (S i) p) as (q & Q & D & L). exists q. split; [exact Q|]. split.
      * destruct D as [->|(k & x & -> & Hk & Hx)]; [now left|]. right. exists (S k), x. repeat split; [lia | done..].
      * intros [|k] x Hp Hq Hx; [now injection Hx as <-|]. apply (L k x); [lia | lia | exact Hx].
Qed.

Lemma dpado_parse_at active str d d' :
  dpado_parse active str d = (d', 0) ->
  dpado_at active d' /\ exists r, dpado_range_list d' !! O = Some r /\ conn_cnt r = INT_MAX.
Proof.
  unfold dpado_parse. destruct (parse_ranges _ _ []) as [rs|] eqn:P; [|done]. intros [= <-].
  apply parse_ranges_head in P as (r0 & R0 & C0); [|now right]. cbn [dpado_range_list]. split; [|eauto].
  destruct rs as [|r rs]; [done|]. injection R0 as ->. cbn [choose_range isset negb orb].
  destruct (choose_range_spec active rs 1 0) as (q & -> & D & L). cbn [mbind option_bind].
  assert (Q : exists x, (r0 :: rs) !! q = Some x /\ ((0 < q)%nat -> conn_cnt x <= active)).
  { destruct D as [->|(k & x & -> & Hk & Hx)]; [exists r0; split; [done | lia] | now exists x]. }
  destruct Q as (x & Hx & Cx). exists q, x. cbn [dpado_range_prev dpado_range_list dpado_range_next pado_delay]. rewrite Hx.
  repeat split; [done|]. intros [|j] y Hj Hy; [lia|]. apply (L j y); [lia | lia | exact Hy].
Qed.

(** ** Starts and ends of sessions *)
Lemma next_range_some rs i j : next_range rs i = Some j -> j = S i.
Proof. unfold next_range. case_decide; [congruence | done]. Qed.
Lemma next_range_none {rs i j} {r : dpado_range_t} : next_range rs i = None -> (i < j)%nat -> rs !! j = Some r -> False.
Proof. unfold next_range. case_decide; [done|]. intros _ L Hj. apply lookup_lt_Some in Hj. lia. Qed.

Lemma session_step_at e active d :
  sorted_ranges (dpado_range_list d) -> (exists r, dpado_range_list d !! O = Some r /\ conn_cnt r = INT_MAX) ->
  dpado_at active d -> 0 <= active < INT_MAX ->
  exists d', session_step e (active, d) = Ok (active_after [e] active, d') /\ dpado_at (active_after [e] active) d' /\
    dpado_range_list d' = dpado_range_list d.
Proof.
  intros (So & Rg) (r0 & R0 & C0) (i & r & Pi & Ri & Ni & Di & Ci & Li) A. unfold INT_MAX in A.
  destruct e; cbn [session_step active_after]; unfold dpado_check_next, dpado_check_prev.
  - rewrite Ni. destruct (next_range _ i) as [j|] eqn:Nj.
    + pose proof (next_range_some _ _ _ Nj) as ->. unfold next_range in Nj. case_decide as Lt; [|done].
      destruct (lookup_lt_is_Some_2 _ _ Lt) as [x Hx]. rewrite Hx. cbn [res_of_option mbind res_bind].
      rewrite u32_small by lia. pose proof (Li _ _ (Nat.lt_succ_diag_r i) Hx) as Lx.
      assert (Lj : forall j y, (S i < j)%nat -> dpado_range_list d !! j = Some y -> conn_cnt x < conn_cnt y)
        by (intros j y Hj Hy; apply (So (S i) j); [done | done | lia]).
      destruct (active + 1 =? conn_cnt x) eqn:E; zbool; cbn [mbind res_bind mret res_ret]; eexists; (split; [reflexivity|]); (split; [|done]).
      * exists (S i), x. cbn. repeat split; [done | lia|]. intros j y Hj Hy. specialize (Lj j y Hj Hy). lia.
      * exists i, r. repeat split; try done; [unfold next_range; now rewrite Ni, decide_True | intros Hi; specialize (Ci Hi); lia|]. intros j y Hj Hy.
        destruct (decide (j = S i)) as [->|]; [rewrite Hx in Hy; injection Hy as <-; lia|].
        specialize (Lj j y ltac:(lia) Hy). lia.
    + cbn [mbind res_bind mret res_ret]. eexists. split; [reflexivity|]. split; [|done].
      exists i, r. rewrite Nj. repeat split; try done; [intros Hi; specialize (Ci Hi); lia|].
      intros j y Hj Hy. destruct (next_range_none Nj Hj Hy).
  - rewrite Pi, Ri. cbn [res_of_option mbind res_bind]. rewrite u32_small by lia.
    destruct (active =? conn_cnt r) eqn:E; zbool.
    + destruct i as [|i]; [unfold INT_MAX in C0; congruence || (exfalso; rewrite R0 in Ri; injection Ri as ->; unfold INT_MAX in C0; lia)|].
      assert (Lt : (i < length (dpado_range_list d))%nat) by (apply lookup_lt_Some in Ri; lia).
      destruct (lookup_lt_is_Some_2 _ _ Lt) as [x Hx]. rewrite Hx. cbn [res_of_option mbind res_bind mret res_ret].
      eexists. split; [reflexivity|]. split; [|done]. exists i, x. cbn. repeat split; try done.
      * unfold next_range. rewrite decide_True; [done|]. now apply lookup_lt_Some in Ri.
      * intros Hi. pose proof (So i (S i) x r Hx Ri ltac:(lia)). lia.
      * intros j y Hj Hy. destruct (decide (j = S i)) as [->|]; [rewrite Ri in Hy; injection Hy as <-; lia|].
        pose proof (So (S i) j r y Ri Hy ltac:(lia)). lia.
    + cbn [mbind res_bind mret res_ret]. eexists. split; [reflexivity|]. split; [|done].
      exists i, r. repeat split; try done; [intros Hi; specialize (Ci Hi); lia|]. intros j y Hj Hy. specialize (Li j y Hj Hy). lia.
Qed.

(** Sorted or not, the pointers stay inside the list. *)
Lemma dpado_check_next_wf conn d : dpado_wf d -> exists d', dpado_check_next conn d = Ok d' /\ dpado_wf d'.
Proof.
  intros W. pose proof W as (N & P & H0). unfold dpado_check_next. destruct (dpado_range_next d) as [i|] eqn:E; [|now exists d].
  destruct (lookup_lt_is_Some_2 _ _ (N i eq_refl)) as [r ->]. cbn [res_of_option mbind res_bind].
  destruct (_ =? _); [|now exists d]. eexists. split; [reflexivity|].
  repeat split; cbn [dpado_range_next dpado_range_prev dpado_range_list]; [|now intros j [= <-]; apply N | exact H0].
  unfold next_range. intros j. case_decide; [now intros [= <-] | done].
Qed.

Lemma dpado_check_prev_wf conn d :
  dpado_wf d -> 0 <= conn < INT_MAX -> exists d', dpado_check_prev conn d = Ok d' /\ dpado_wf d'.
Proof.
  intros W C. pose proof W as (N & P & H0). unfold INT_MAX in C. unfold dpado_check_prev.
  destruct (dpado_range_prev d) as [i|] eqn:E; [|now exists d].
  destruct (lookup_lt_is_Some_2 _ _ (P i eq_refl)) as [r R]. rewrite R. cbn [res_of_option mbind res_bind]. rewrite u32_small by lia.
  destruct (_ =? _) eqn:Ec; [|now exists d]. zbool.
  destruct i as [|i]; [specialize (H0 r R); unfold INT_MAX in H0; lia|].
  pose proof (P (S i) eq_refl) as L. destruct (lookup_lt_is_Some_2 (dpado_range_list d) i ltac:(lia)) as [x ->].
  cbn [res_of_option mbind res_bind]. eexists. split; [reflexivity|].
  repeat split; cbn [dpado_range_next dpado_range_prev dpado_range_list]; [intros j [= <-]; lia | intros j [= <-]; lia | exact H0].
Qed.

Lemma session_run_at es active d :
  sorted_ranges (dpado_range_list d) -> (exists r, dpado_range_list d !! O = Some r /\ conn_cnt r = INT_MAX) ->
  dpado_at active d -> active_ok es active ->
  exists d', session_run es (active, d) = Ok (active_after es active, d') /\ dpado_at (active_after es active) d' /\
    dpado_range_list d' = dpado_range_list d.
Proof.
  revert active d. induction es as [|e es IH]; intros active d So H0 At Ok.
  - now exists d.
  - assert (A : 0 <= active < INT_MAX) by (destruct e; apply Ok).
    destruct (session_step_at e active d So H0 At A) as (d1 & E1 & At1 & L1).
    destruct (IH (active_after [e] active) d1) as (d2 & E2 & At2 & L2);
      [now rewrite L1 | now rewrite L1 | done | destruct e; apply Ok|].
    exists d2. cbn [session_run]. rewrite E1. cbn [mbind res_bind]. rewrite L2, L1. destruct e; now split.
Qed.

Lemma delay_from_at active rs delay i r :
  rs !! i = Some r -> (forall k x, (k <= i)%nat -> rs !! k = Some x -> conn_cnt x <= active) ->
  (forall k x, (i < k)%nat -> rs !! k = Some x -> active < conn_cnt x) -> delay_from active rs delay = r_pado_delay r.
Proof.
  revert delay i. induction rs as [|x rs IH]; intros delay i Hi Le Lt; [done|]. cbn [delay_from].
  pose proof (Le O x ltac:(lia) eq_refl). destruct (_ <=? _) eqn:E; zbool; [|lia].
  destruct i as [|i].
  - injection Hi as ->. destruct rs as [|y rs]; [done|]. cbn [delay_from].
    pose proof (Lt 1%nat y ltac:(lia) eq_refl). destruct (_ <=? _) eqn:E'; zbool; [lia | done].
  - apply (IH _ i); [done | |]; intros k y Hk Hy; [apply (Le (S k)) | apply (Lt (S k))]; done || lia.
Qed.

Lemma dpado_at_delay active d :
  sorted_ranges (dpado_range_list d) -> dpado_at active d -> pado_delay d = delay_for active (dpado_range_list d).
Proof.
  intros [So _] (i & r & _ & Ri & _ & -> & Ci & Li). unfold delay_for. destruct (dpado_range_list d) as [|x rs] eqn:L; [done|].
  destruct i as [|i].
  - injection Ri as ->. destruct rs as [|y rs]; [done|]. cbn [delay_from].
    pose proof (Li 1%nat y ltac:(lia) eq_refl). destruct (_ <=? _) eqn:E'; zbool; [lia | done].
  - symmetry. apply (delay_from_at _ _ _ i); [done | |].
    + intros k y Hk Hy. specialize (Ci ltac:(lia)). destruct (decide (k = i)) as [->|]; [change ((x :: rs) !! S i) with (rs !! i) in Ri; rewrite Ri in Hy; now injection Hy as <-|].
      pose proof (So (S k) (S i) y r Hy Ri ltac:(lia)). lia.
    + intros k y Hk Hy. apply (Li (S k) y); [lia | done].
Qed.

(** With the list sorted as the manual asks for, the delay is always that of the
    option for the number of sessions: after the option is read, and after every
    sequence of starts and ends of sessions, and the pointers stay inside the list. *)
Theorem dpado_tracks active str d d' es :
  dpado_parse active str d = (d', 0) -> sorted_ranges (dpado_range_list d') -> active_ok es active ->
  exists d'', session_run es (active, d') = Ok (active_after es active, d'') /\
    pado_delay d'' = delay_for (active_after es active) (dpado_range_list d').
Proof.
  intros P So A. destruct (dpado_parse_at _ _ _ _ P) as [At H0].
  destruct (session_run_at es active d' So H0 At A) as (d2 & E & At2 & L). exists d2. split; [exact E|].
  rewrite <- L. apply dpado_at_delay; [now rewrite L | exact At2].
Qed.

Lemma dpado_tracks_witness :
  exists d'', session_run [Started; Started; Ended] (8, fst (dpado_parse 8 ten_conf dpado0)) = Ok (9, d'') /\
    pado_delay d'' = delay_for 9 (dpado_range_list (fst (dpado_parse 8 ten_conf dpado0))).
Proof.
  apply (dpado_tracks 8 ten_conf dpado0 _ [Started; Started; Ended]).
  - reflexivity.
  - split.
    + intros [|[|i]] [|[|j]] a b Ha Hb H; try lia; destruct i || destruct j; done.
    + intros [|[|i]] r Hr H; [lia | injection Hr as <-; split; reflexivity | destruct i; done].
  - cbn. unfold INT_MAX. lia.
Defined.

(** The counter and the list are updated one after the other.  With [0,-1:10] and
    nine sessions, a start and an end at the same time whose checks run in the other
    order leave the delay -1, no new sessions, with nine of them; it stays -1 while
    all the sessions end. *)
Theorem dpado_crossing_blocks :
  exists d, crossing 9 (fst (dpado_parse 9 ten_conf dpado0)) = Ok d /\
    delay_for 9 (dpado_range_list d) = 0 /\
    Forall (fun n => exists d', session_run (replicate n Ended) (9, d) = Ok (9 - Z.of_nat n, d') /\ pado_delay d' = -1) (seq 0 10).
Proof.
  eexists. split; [reflexivity|]. split; [reflexivity|].
  repeat (apply Forall_cons; split; [eexists; split; reflexivity|]). apply Forall_nil. exact I.
Qed.
