(* ===== verification/PppoeServ.v ===== *)
(** * The PPPoE server (accel-pppd/ctrl/pppoe/pppoe.c, disc.c, mac_filter.c)

    The servers of all interfaces, the sessions they have and what they share: the
    session identifiers, the statistics, the limits and the delay of offers.  One
    [input] is one run of a handler in the context of a server or of a session; the
    order in which the contexts run is the order of the inputs.  What a handler
    passes to the outside is recorded as [out]: frames, events, calls into other
    contexts.

    MD5, DES, the clock, the sockets and the numbers of the session layer come from
    outside. *)
From S2P Require Import Prelude Utils CString Connlimit PppoeSid PppoePacket PppoeDpado.

Definition ETH_DATA_LEN : Z := 1500.
Definition IFNAMSIZ : nat := 16.
Definition bc_addr : list Z := replicate ETH_ALEN 255.

(** ** Data *)

(** What a session copies from the configuration. *)
Record ses_conf : Type := mk_ses_conf {
  conf_ip_pool : option string;
  conf_ipv6_pool : option string;
  conf_dpv6_pool : option string;
  conf_ifname : option string;
  conf_session_timeout : Z;
  conf_mppe : Z
}.

Inductive csid : Type := CSID_MAC | CSID_IFNAME | CSID_IFNAME_MAC.

Record pppoe_conf : Type := mk_pppoe_conf {
  conf_verbose : bool;
  conf_service_name : list (list Z);
  conf_accept_any_service : bool;
  conf_accept_blank_service : bool;
  conf_ac_name : list Z;
  conf_ifname_in_sid : Z;
  conf_sid_uppercase : bool;
  conf_called_sid : csid;
  conf_tr101 : bool;
  conf_padi_limit : Z;
  conf_cookie_timeout : Z;
  conf_vlan_timeout : Z;
  conf_max_starting : Z;
  conf_max_sessions : Z;
  connlimit_loaded : bool;
  conf_connlimit : cl_conf;
  conf_ses : ses_conf;
  mac_filter_type : Z;       (* -1 - disabled, 1 - allow, 0 - denied *)
  mac_list : list (list Z)
}.

(** What a handler finds: the clock, [ap_shutdown], the counters of the session
    layer, the old contents of its stack buffer, whether memory is to be had. *)
Record env : Type := mk_env {
  e_now : timespec;
  e_shutdown : bool;
  e_ses_starting : Z;
  e_ses_active : Z;
  e_stack : list Z;
  e_mem : bool
}.

Record pppoe_conn_t : Type := mk_conn {
  cn_id : nat;                        (* which object this is *)
  cn_sid : Z;
  cn_addr : list Z;
  cn_starting : bool;
  cn_started : bool;
  cn_relay_sid : option pppoe_tag;
  cn_host_uniq : option pppoe_tag;
  cn_service_name : pppoe_tag;
  cn_tr101 : option pppoe_tag;
  cn_cookie : list Z;
  cn_max_mtu : Z;
  cn_called_station_id : list Z;
  cn_calling_station_id : list Z;
  cn_ctrl_service_name : list Z;
  cn_ses : ses_conf;
  cn_username : bool                  (* ppp.ses.username is set *)
}.

Record delayed_pado_t : Type := mk_pado {
  dp_addr : list Z;
  dp_host_uniq : option pppoe_tag;
  dp_relay_sid : option pppoe_tag;
  dp_service_name : option pppoe_tag;
  dp_ppp_max_payload : Z;
  dp_expire_sec : Z;
  dp_expire_usec : Z
}.

Record padi_t : Type := mk_padi {
  padi_ts : timespec;
  padi_addr : list Z
}.

Record pppoe_serv_t : Type := mk_serv {
  sv_keys : pppoe_keys;               (* hwaddr, secret, des_ks *)
  sv_ifname : list Z;
  sv_ifindex : Z;
  sv_mtu : Z;
  sv_conn_cnt : Z;
  sv_conn_list : list pppoe_conn_t;
  sv_pado_list : list delayed_pado_t;
  sv_padi_list : list padi_t;
  sv_padi_cnt : Z;
  sv_padi_limit : Z;
  sv_last_padi_limit_warn : Z;
  sv_stopping : bool;
  sv_vlan_mon : bool;
  sv_timer : bool;                    (* timer.tpd is set *)
  sv_listening : bool;                (* in the tree of disc.c *)
  sv_freed : bool
}.

Record pppoe_stat_t : Type := mk_stat {
  st_starting : Z;
  st_active : Z;
  st_delayed_PADO : Z;
  st_PADI_recv : Z;
  st_PADI_drop : Z;
  st_PADO_sent : Z;
  st_PADR_recv : Z;
  st_PADR_dup_recv : Z;
  st_PADS_sent : Z;
  st_filtered : Z
}.

(** What the servers share. *)
Record shared : Type := mk_shared {
  g_sids : sid_pool;
  g_stat : pppoe_stat_t;
  g_total_padi_cnt : Z;
  g_dpado : dpado;
  g_items : list item;
  g_next : nat                        (* the next object *)
}.

Inductive term_cause : Type := TERM_USER_REQUEST | TERM_ADMIN_RESET.
Inductive ctrl_event : Type := EV_CTRL_STARTING | EV_CTRL_STARTED | EV_CTRL_FINISHED.

Inductive out : Type :=
| Send (frame : list Z)
| CallConnect (id : nat)
| CallDisconnect (id : nat)
| CallConnStop (id : nat)
| CallServRead (s : nat) (pack : list Z)
| CallServerFree
| CallStartTimer
| Terminate (id : nat) (cause : term_cause) (hard : bool)
| Event (id : nat) (e : ctrl_event)
| DiscStop
| VlanDel
| WarnOverlimit.

(** ** Updates of one field *)
Definition with_conns (sv : pppoe_serv_t) (cnt : Z) (l : list pppoe_conn_t) : pppoe_serv_t :=
  mk_serv (sv_keys sv) (sv_ifname sv) (sv_ifindex sv) (sv_mtu sv) cnt l (sv_pado_list sv) (sv_padi_list sv) (sv_padi_cnt sv)
    (sv_padi_limit sv) (sv_last_padi_limit_warn sv) (sv_stopping sv) (sv_vlan_mon sv) (sv_timer sv) (sv_listening sv) (sv_freed sv).
Definition with_pados (sv : pppoe_serv_t) (l : list delayed_pado_t) : pppoe_serv_t :=
  mk_serv (sv_keys sv) (sv_ifname sv) (sv_ifindex sv) (sv_mtu sv) (sv_conn_cnt sv) (sv_conn_list sv) l (sv_padi_list sv) (sv_padi_cnt sv)
    (sv_padi_limit sv) (sv_last_padi_limit_warn sv) (sv_stopping sv) (sv_vlan_mon sv) (sv_timer sv) (sv_listening sv) (sv_freed sv).
Definition with_padis (sv : pppoe_serv_t) (l : list padi_t) (cnt : Z) : pppoe_serv_t :=
  mk_serv (sv_keys sv) (sv_ifname sv) (sv_ifindex sv) (sv_mtu sv) (sv_conn_cnt sv) (sv_conn_list sv) (sv_pado_list sv) l cnt
    (sv_padi_limit sv) (sv_last_padi_limit_warn sv) (sv_stopping sv) (sv_vlan_mon sv) (sv_timer sv) (sv_listening sv) (sv_freed sv).
Definition with_warn (sv : pppoe_serv_t) (t : Z) : pppoe_serv_t :=
  mk_serv (sv_keys sv) (sv_ifname sv) (sv_ifindex sv) (sv_mtu sv) (sv_conn_cnt sv) (sv_conn_list sv) (sv_pado_list sv) (sv_padi_list sv)
    (sv_padi_cnt sv) (sv_padi_limit sv) t (sv_stopping sv) (sv_vlan_mon sv) (sv_timer sv) (sv_listening sv) (sv_freed sv).
Definition with_life (sv : pppoe_serv_t) (stopping timer listening freed : bool) : pppoe_serv_t :=
  mk_serv (sv_keys sv) (sv_ifname sv) (sv_ifindex sv) (sv_mtu sv) (sv_conn_cnt sv) (sv_conn_list sv) (sv_pado_list sv) (sv_padi_list sv)
    (sv_padi_cnt sv) (sv_padi_limit sv) (sv_last_padi_limit_warn sv) stopping (sv_vlan_mon sv) timer listening freed.

Definition with_run (c : pppoe_conn_t) (starting started : bool) : pppoe_conn_t :=
  mk_conn (cn_id c) (cn_sid c) (cn_addr c) starting started (cn_relay_sid c) (cn_host_uniq c) (cn_service_name c) (cn_tr101 c)
    (cn_cookie c) (cn_max_mtu c) (cn_called_station_id c) (cn_calling_station_id c) (cn_ctrl_service_name c) (cn_ses c) (cn_username c).
Definition with_username (c : pppoe_conn_t) : pppoe_conn_t :=
  mk_conn (cn_id c) (cn_sid c) (cn_addr c) (cn_starting c) (cn_started c) (cn_relay_sid c) (cn_host_uniq c) (cn_service_name c) (cn_tr101 c)
    (cn_cookie c) (cn_max_mtu c) (cn_called_station_id c) (cn_calling_station_id c) (cn_ctrl_service_name c) (cn_ses c) true.

Definition with_sids (g : shared) (p : sid_pool) : shared :=
  mk_shared p (g_stat g) (g_total_padi_cnt g) (g_dpado g) (g_items g) (g_next g).
Definition with_stat (g : shared) (s : pppoe_stat_t) : shared :=
  mk_shared (g_sids g) s (g_total_padi_cnt g) (g_dpado g) (g_items g) (g_next g).
Definition with_total (g : shared) (n : Z) : shared :=
  mk_shared (g_sids g) (g_stat g) n (g_dpado g) (g_items g) (g_next g).
Definition with_dpado (g : shared) (d : dpado) : shared :=
  mk_shared (g_sids g) (g_stat g) (g_total_padi_cnt g) d (g_items g) (g_next g).
Definition with_items (g : shared) (l : list item) : shared :=
  mk_shared (g_sids g) (g_stat g) (g_total_padi_cnt g) (g_dpado g) l (g_next g).
Definition with_next (g : shared) (n : nat) : shared :=
  mk_shared (g_sids g) (g_stat g) (g_total_padi_cnt g) (g_dpado g) (g_items g) n.

(** The counters of sessions and delayed offers have 32 bits, those of packets 64. *)
Definition add_starting (d : Z) (s : pppoe_stat_t) : pppoe_stat_t :=
  mk_stat (u32 (st_starting s + d)) (st_active s) (st_delayed_PADO s) (st_PADI_recv s) (st_PADI_drop s) (st_PADO_sent s) (st_PADR_recv s)
    (st_PADR_dup_recv s) (st_PADS_sent s) (st_filtered s).
Definition add_active (d : Z) (s : pppoe_stat_t) : pppoe_stat_t :=
  mk_stat (st_starting s) (u32 (st_active s + d)) (st_delayed_PADO s) (st_PADI_recv s) (st_PADI_drop s) (st_PADO_sent s) (st_PADR_recv s)
    (st_PADR_dup_recv s) (st_PADS_sent s) (st_filtered s).
Definition add_delayed (d : Z) (s : pppoe_stat_t) : pppoe_stat_t :=
  mk_stat (st_starting s) (st_active s) (u32 (st_delayed_PADO s + d)) (st_PADI_recv s) (st_PADI_drop s) (st_PADO_sent s) (st_PADR_recv s)
    (st_PADR_dup_recv s) (st_PADS_sent s) (st_filtered s).
(** [padi_recv], [padi_drop], [pado_sent], [padr_recv], [padr_dup], [pads_sent], [filtered] *)
Definition add_packets (a b c d e f h : Z) (s : pppoe_stat_t) : pppoe_stat_t :=
  mk_stat (st_starting s) (st_active s) (st_delayed_PADO s) (u64 (st_PADI_recv s + a)) (u64 (st_PADI_drop s + b)) (u64 (st_PADO_sent s + c))
    (u64 (st_PADR_recv s + d)) (u64 (st_PADR_dup_recv s + e)) (u64 (st_PADS_sent s + f)) (u64 (st_filtered s + h)).
Definition count_PADI_recv := add_packets 1 0 0 0 0 0 0.
Definition count_PADI_drop := add_packets 0 1 0 0 0 0 0.
Definition count_PADO_sent := add_packets 0 0 1 0 0 0 0.
Definition count_PADR_recv := add_packets 0 0 0 1 0 0 0.
Definition count_PADR_dup := add_packets 0 0 0 0 1 0 0.
Definition count_PADS_sent := add_packets 0 0 0 0 0 1 0.
Definition pppoe_stat_add_filtered := add_packets 0 0 0 0 0 0 1.
Definition counting (f : pppoe_stat_t -> pppoe_stat_t) (g : shared) : shared := with_stat g (f (g_stat g)).

(** ** Station identifiers *)
Definition hex_digit (upper : bool) (n : Z) : Z := if n <? 10 then 48 + n else (if upper then 55 else 87) + n.
(** [%02x] *)
Definition hex2 (upper : bool) (b : Z) : list Z := [hex_digit upper (b / 16); hex_digit upper (b mod 16)].
Fixpoint mac_string (upper : bool) (addr : list Z) : list Z :=
  match addr with
  | [] => []
  | [b] => hex2 upper b
  | b :: addr => hex2 upper b ++ [58] ++ mac_string upper addr
  end.

Definition called_station_id (cf : pppoe_conf) (sv : pppoe_serv_t) : list Z :=
  let mac := mac_string (conf_sid_uppercase cf) (k_hwaddr (sv_keys sv)) in
  match conf_called_sid cf with
  | CSID_IFNAME => sv_ifname sv
  | CSID_IFNAME_MAC => sv_ifname sv ++ [58] ++ mac
  | CSID_MAC => if (conf_ifname_in_sid cf =? 2) || (conf_ifname_in_sid cf =? 3) then sv_ifname sv ++ [58] ++ mac else mac
  end.
Definition calling_station_id (cf : pppoe_conf) (sv : pppoe_serv_t) (addr : list Z) : list Z :=
  let mac := mac_string (conf_sid_uppercase cf) addr in
  if (conf_ifname_in_sid cf =? 1) || (conf_ifname_in_sid cf =? 3) then sv_ifname sv ++ [58] ++ mac else mac.

(** The string in a zeroed buffer of 256 bytes. *)
Definition ctrl_service_name (t : pppoe_tag) : list Z :=
  let len := Z.of_nat (length (tag_data t)) in
  if (len <? 256) && (0 <? len) then tag_data t else [].

Definition max_mtu_of (mtu ppp_max_payload : Z) : Z :=
  if ETH_DATA_LEN - 8 <? ppp_max_payload then Z.min ppp_max_payload (mtu - 8) else Z.min ETH_DATA_LEN mtu - 8.

(** ** Limits *)

(** The entries at the front that are older than a second go. *)
Fixpoint expire_padis (now : timespec) (l : list padi_t) : list padi_t :=
  match l with
  | [] => []
  | p :: rest => if 1000 <? ms_since now (padi_ts p) then expire_padis now rest else l
  end.

(** [true] is the -1 return. *)
Definition check_connlimit (cf : pppoe_conf) (e : env) (addr : list Z) (g : shared) : shared * bool :=
  if connlimit_loaded cf then
    let '(items, r) := connlimit_check (conf_connlimit cf) (e_now e) (cl_key_from_mac addr) (g_items g) in
    (with_items g items, negb (r =? 0))
  else (g, false).

Definition check_padi_limit (cf : pppoe_conf) (e : env) (addr : list Z) (sv : pppoe_serv_t) (g : shared)
  : pppoe_serv_t * shared * bool :=
  if sv_padi_limit sv =? 0 then let '(g, r) := check_connlimit cf e addr g in (sv, g, r)
  else
    let l := expire_padis (e_now e) (sv_padi_list sv) in
    let gone := Z.of_nat (length (sv_padi_list sv)) - Z.of_nat (length l) in
    let sv := with_padis sv l (sv_padi_cnt sv - gone) in
    let g := with_total g (u32 (g_total_padi_cnt g - gone)) in
    if sv_padi_cnt sv =? sv_padi_limit sv then (sv, g, true)
    else if negb (conf_padi_limit cf =? 0) && (u32 (conf_padi_limit cf) <=? g_total_padi_cnt g) then (sv, g, true)
    else if existsb (fun p => bool_decide (padi_addr p = addr)) l then (sv, g, true)
    else if negb (e_mem e) then (sv, g, true)
    else
      let sv := with_padis sv (l ++ [mk_padi (e_now e) addr]) (sv_padi_cnt sv + 1) in
      let g := with_total g (u32 (g_total_padi_cnt g + 1)) in
      let '(g, r) := check_connlimit cf e addr g in (sv, g, r).

(** The tests of [conf_max_starting] and [conf_max_sessions]; [true] is the return. *)
Definition over_sessions (cf : pppoe_conf) (e : env) : bool :=
  (negb (conf_max_starting cf =? 0) && (conf_max_starting cf <=? e_ses_starting e)) ||
  (negb (conf_max_sessions cf =? 0) && (conf_max_sessions cf <=? e_ses_active e + e_ses_starting e)).

(** ** The tags of PADI and PADR *)
Definition name_matches (names : list (list Z)) (t : pppoe_tag) : bool := existsb (fun n => bool_decide (tag_data t = n)) names.

(** Both keep the last of each tag; PADI does not use all of them. *)
Record tags : Type := mk_tags {
  t_host_uniq : option pppoe_tag;
  t_relay_sid : option pppoe_tag;
  t_ac_cookie : option pppoe_tag;
  t_service_name : option pppoe_tag;
  t_tr101 : option pppoe_tag;
  t_service_match : bool;
  t_service_name_count : Z;
  t_ppp_max_payload : Z
}.
Definition tags0 (match0 : bool) : tags := mk_tags None None None None None match0 0 0.

Definition set_service (s : tags) (name : option pppoe_tag) (m : bool) (cnt : Z) : tags :=
  mk_tags (t_host_uniq s) (t_relay_sid s) (t_ac_cookie s) name (t_tr101 s) m cnt (t_ppp_max_payload s).
Definition set_host_uniq (s : tags) (t : pppoe_tag) : tags :=
  mk_tags (Some t) (t_relay_sid s) (t_ac_cookie s) (t_service_name s) (t_tr101 s) (t_service_match s) (t_service_name_count s) (t_ppp_max_payload s).
Definition set_relay_sid (s : tags) (t : pppoe_tag) : tags :=
  mk_tags (t_host_uniq s) (Some t) (t_ac_cookie s) (t_service_name s) (t_tr101 s) (t_service_match s) (t_service_name_count s) (t_ppp_max_payload s).
Definition set_cookie (s : tags) (t : pppoe_tag) : tags :=
  mk_tags (t_host_uniq s) (t_relay_sid s) (Some t) (t_service_name s) (t_tr101 s) (t_service_match s) (t_service_name_count s) (t_ppp_max_payload s).
Definition set_tr101 (s : tags) (t : pppoe_tag) : tags :=
  mk_tags (t_host_uniq s) (t_relay_sid s) (t_ac_cookie s) (t_service_name s) (Some t) (t_service_match s) (t_service_name_count s) (t_ppp_max_payload s).
Definition set_max_payload (s : tags) (t : pppoe_tag) : tags :=
  if (length (tag_data t) =? 2)%nat
  then mk_tags (t_host_uniq s) (t_relay_sid s) (t_ac_cookie s) (t_service_name s) (t_tr101 s) (t_service_match s) (t_service_name_count s)
         (be_decode (tag_data t))
  else s.

Definition padi_tag (cf : pppoe_conf) (s : tags) (t : pppoe_tag) : tags :=
  if tag_type t =? TAG_SERVICE_NAME then
    if (length (tag_data t) =? 0)%nat && conf_accept_blank_service cf then set_service s (t_service_name s) true 0
    else
      match conf_service_name cf with
      | _ :: _ => set_service s (t_service_name s) (t_service_match s || name_matches (conf_service_name cf) t) 0
      | [] => set_service s (Some t) (t_service_match s) 0
      end
  else if tag_type t =? TAG_HOST_UNIQ then set_host_uniq s t
  else if tag_type t =? TAG_RELAY_SESSION_ID then set_relay_sid s t
  else if tag_type t =? TAG_PPP_MAX_PAYLOAD then set_max_payload s t
  else s.

Definition padr_tag (cf : pppoe_conf) (s : tags) (t : pppoe_tag) : tags :=
  if tag_type t =? TAG_SERVICE_NAME then
    let m := if (length (tag_data t) =? 0)%nat then true
             else match conf_service_name cf with
                  | _ :: _ => t_service_match s || name_matches (conf_service_name cf) t
                  | [] => true
                  end in
    set_service s (Some t) m (t_service_name_count s + 1)
  else if tag_type t =? TAG_HOST_UNIQ then set_host_uniq s t
  else if tag_type t =? TAG_AC_COOKIE then set_cookie s t
  else if tag_type t =? TAG_RELAY_SESSION_ID then set_relay_sid s t
  else if tag_type t =? TAG_VENDOR_SPECIFIC then
    if (length (tag_data t) <? 4)%nat then s
    else if (be_decode (take 4 (tag_data t)) =? VENDOR_ADSL_FORUM) && conf_tr101 cf then set_tr101 s t else s
  else if tag_type t =? TAG_PPP_MAX_PAYLOAD then set_max_payload s t
  else s.

(** ** Handlers *)
Definition state : Type := (pppoe_serv_t * shared * list out)%type.

(** The verbose log: what it prints is not kept, that it can is. *)
Definition log_packet (cf : pppoe_conf) (pack : list Z) : res unit :=
  if conf_verbose cf then _ ← print_packet pack; mret tt else mret tt.

Definition h_source (pack : list Z) : res (list Z) := slice ETH_ALEN ETH_ALEN pack.
Definition h_dest (pack : list Z) : res (list Z) := slice 0 ETH_ALEN pack.
Definition hdr_sid (pack : list Z) : res Z := u_read_be16 pack (ETH_HLEN + 2).
Definition hdr_code (pack : list Z) : res Z := res_of_option (pack !! (ETH_HLEN + 1)%nat).

Definition find_channel (sv : pppoe_serv_t) (cookie : list Z) : res (option pppoe_conn_t) :=
  c ← slice 0 (COOKIE_LENGTH - 4) cookie;
  mret (List.find (fun cn => bool_decide (cn_cookie cn = c)) (sv_conn_list sv)).

(** [pppoe_send_PADS] and [pppoe_send_PADT] of a session. *)
Definition send_PADS (cf : pppoe_conf) (e : env) (sv : pppoe_serv_t) (g : shared) (cn : pppoe_conn_t) : res (shared * list out) :=
  f ← pppoe_send_PADS (e_stack e) (k_hwaddr (sv_keys sv)) (cn_addr cn) (conf_ac_name cf) (cn_sid cn) (cn_service_name cn) (cn_host_uniq cn)
        (cn_relay_sid cn) (cn_max_mtu cn);
  _ ← log_packet cf f;
  mret (counting count_PADS_sent g, [Send f]).
Definition send_PADT (cf : pppoe_conf) (e : env) (sv : pppoe_serv_t) (cn : pppoe_conn_t) : res (list out) :=
  f ← pppoe_send_PADT (e_stack e) (k_hwaddr (sv_keys sv)) (cn_addr cn) (conf_ac_name cf) (cn_sid cn) (cn_service_name cn) (cn_relay_sid cn);
  _ ← log_packet cf f;
  mret [Send f].
Definition send_err (cf : pppoe_conf) (e : env) (sv : pppoe_serv_t) (addr : list Z) (t : tags) (code type : Z) : res (list out) :=
  f ← pppoe_send_err (e_stack e) (k_hwaddr (sv_keys sv)) addr (conf_ac_name cf) (t_host_uniq t) (t_relay_sid t) code type;
  _ ← log_packet cf f;
  mret [Send f].

(** [None] is the null pointer. *)
Definition allocate_channel (cf : pppoe_conf) (e : env) (addr : list Z) (t : tags) (cookie : list Z) (sv : pppoe_serv_t) (g : shared)
  : res (pppoe_serv_t * shared * option pppoe_conn_t) :=
  let service_name := match t_service_name t with Some n => n | None => mk_tag TAG_SERVICE_NAME [] end in
  if negb (e_mem e) then mret (sv, g, None)
  else
    r ← sid_alloc (g_sids g);
    let '(sid, sids) := r in
    let g := with_sids g sids in
    if sid =? 0 then mret (sv, g, None)
    else
      c ← slice 0 (COOKIE_LENGTH - 4) cookie;
      let cn := mk_conn (g_next g) sid addr false false (t_relay_sid t) (t_host_uniq t) service_name (t_tr101 t) c
                  (max_mtu_of (sv_mtu sv) (t_ppp_max_payload t)) (called_station_id cf sv) (calling_station_id cf sv addr)
                  (ctrl_service_name service_name) (conf_ses cf) false in
      let sv := with_conns sv (u32 (sv_conn_cnt sv + 1)) (sv_conn_list sv ++ [cn]) in
      mret (with_life sv (sv_stopping sv) false (sv_listening sv) (sv_freed sv), with_next g (S (g_next g)), Some cn).

(** The session [id] of the server is another one now. *)
Definition set_conn (sv : pppoe_serv_t) (cn : pppoe_conn_t) : pppoe_serv_t :=
  with_conns sv (sv_conn_cnt sv) (map (fun c => if (cn_id c =? cn_id cn)%nat then cn else c) (sv_conn_list sv)).

Definition disconnect (cf : pppoe_conf) (e : env) (cn : pppoe_conn_t) (sv : pppoe_serv_t) (g : shared) : res state :=
  r ← (if cn_started cn then
         d ← dpado_check_prev (s32 (st_active (g_stat g))) (g_dpado g);
         mret (with_dpado (counting (add_active (-1)) g) d, [Terminate (cn_id cn) TERM_USER_REQUEST true])
       else if cn_starting cn then mret (counting (add_starting (-1)) g, [])
       else mret (g, []));
  let '(g, o1) := r in
  o2 ← send_PADT cf e sv cn;
  let sv := with_conns sv (u32 (sv_conn_cnt sv - 1)) (List.filter (fun c => negb (cn_id c =? cn_id cn)%nat) (sv_conn_list sv)) in
  let o3 := if sv_conn_cnt sv =? 0
            then if sv_stopping sv then [CallServerFree] else if sv_vlan_mon sv then [CallStartTimer] else []
            else [] in
  sids ← sid_release (cn_sid cn) (g_sids g);
  mret (sv, with_sids g sids, o1 ++ o2 ++ [Event (cn_id cn) EV_CTRL_FINISHED] ++ o3).

Definition ppp_finished (cn : pppoe_conn_t) (sv : pppoe_serv_t) (g : shared) : res state :=
  if cn_started cn then
    d ← dpado_check_prev (s32 (st_active (g_stat g))) (g_dpado g);
    mret (set_conn sv (with_run cn (cn_starting cn) false), with_dpado (counting (add_active (-1)) g) d, [CallDisconnect (cn_id cn)])
  else mret (sv, g, []).

Definition pppoe_conn_close (cf : pppoe_conf) (e : env) (cn : pppoe_conn_t) (sv : pppoe_serv_t) (g : shared) : res state :=
  if cn_started cn then mret (sv, g, [Terminate (cn_id cn) TERM_ADMIN_RESET false])
  else disconnect cf e cn sv g.

(** How the calls of [connect_channel] turn out. *)
Inductive connect_result : Type := SocketFails | ConnectFails | EstablishFails | Connected.

Definition connect_channel (cf : pppoe_conf) (e : env) (r : connect_result) (cn : pppoe_conn_t) (sv : pppoe_serv_t) (g : shared) : res state :=
  let evs := [Event (cn_id cn) EV_CTRL_STARTING; Event (cn_id cn) EV_CTRL_STARTED] in
  let cn := with_run cn true (cn_started cn) in
  let sv := set_conn sv cn in
  let g := counting (add_starting 1) g in
  match r with
  | Connected =>
      let cn := with_run cn false true in
      let g := counting (add_active 1) (counting (add_starting (-1)) g) in
      d ← dpado_check_next (s32 (st_active (g_stat g))) (g_dpado g);
      mret (set_conn sv cn, with_dpado g d, evs)
  | _ => r ← disconnect cf e cn sv g; let '(sv, g, o) := r in mret (sv, g, evs ++ o)
  end.

Definition pppoe_server_free (cf : pppoe_conf) (sv : pppoe_serv_t) (g : shared) : state :=
  let g := counting (add_delayed (- Z.of_nat (length (sv_pado_list sv)))) g in
  (with_life (with_pados sv []) (sv_stopping sv) false (sv_listening sv) true, g,
   if sv_vlan_mon sv && negb (conf_vlan_timeout cf =? 0) then [VlanDel] else []).

(** [pppoe_disc_stop] takes the server out of the tree. *)
Definition pppoe_disc_stop (sv : pppoe_serv_t) : pppoe_serv_t := with_life sv (sv_stopping sv) (sv_timer sv) false (sv_freed sv).

Definition stop_then_free (cf : pppoe_conf) (sv : pppoe_serv_t) (g : shared) : state :=
  let '(sv, g, o) := pppoe_server_free cf (pppoe_disc_stop sv) g in (sv, g, DiscStop :: o).

Definition pppoe_serv_start_timer (cf : pppoe_conf) (sv : pppoe_serv_t) (g : shared) : state :=
  if negb (sv_conn_cnt sv =? 0) then (sv, g, [])
  else if negb (conf_vlan_timeout cf =? 0) then (with_life sv (sv_stopping sv) true (sv_listening sv) (sv_freed sv), g, [])
  else stop_then_free cf sv g.

Definition pppoe_serv_timeout (cf : pppoe_conf) (sv : pppoe_serv_t) (g : shared) : state :=
  if negb (sv_conn_cnt sv =? 0) then (sv, g, []) else stop_then_free cf sv g.

(** [pppoe_serv_close] and [_server_stop] differ in what they do with the sessions. *)
Definition serv_stop (cf : pppoe_conf) (calls : bool) (sv : pppoe_serv_t) (g : shared) : state :=
  if sv_stopping sv then (sv, g, [])
  else
    let sv := pppoe_disc_stop (with_life sv true (sv_timer sv) (sv_listening sv) (sv_freed sv)) in
    if sv_conn_cnt sv =? 0 then let '(sv, g, o) := pppoe_server_free cf sv g in (sv, g, DiscStop :: o)
    else (sv, g, DiscStop :: if calls then map (fun c => CallConnStop (cn_id c)) (sv_conn_list sv) else []).
Definition pppoe_serv_close (cf : pppoe_conf) : pppoe_serv_t -> shared -> state := serv_stop cf false.
Definition _server_stop (cf : pppoe_conf) : pppoe_serv_t -> shared -> state := serv_stop cf true.

Section Handlers.
Variable md5 : list Z -> list Z.
Variables des_encrypt des_decrypt : list Z -> list Z -> list Z.
Variable cf : pppoe_conf.

Definition pppoe_send_PADO (e : env) (sv : pppoe_serv_t) (g : shared) (addr : list Z)
    (host_uniq relay_sid service_name : option pppoe_tag) (ppp_max_payload : Z) : res (shared * list out) :=
  c ← generate_cookie md5 des_encrypt (sv_keys sv) (tv_sec (e_now e)) (conf_cookie_timeout cf) addr host_uniq relay_sid;
  f ← build_PADO (e_stack e) (k_hwaddr (sv_keys sv)) addr (conf_ac_name cf) (conf_service_name cf) service_name c host_uniq relay_sid ppp_max_payload;
  _ ← log_packet cf f;
  mret (counting count_PADO_sent g, [Send f]).

(** The timer of the [i]th delayed offer. *)
Definition pado_timer (e : env) (i : nat) (sv : pppoe_serv_t) (g : shared) : res state :=
  match sv_pado_list sv !! i with
  | None => mret (sv, g, [])
  | Some p =>
      r ← (if e_shutdown e then mret (g, [])
           else pppoe_send_PADO e sv g (dp_addr p) (dp_host_uniq p) (dp_relay_sid p) (dp_service_name p) (dp_ppp_max_payload p));
      let '(g, o) := r in
      mret (with_pados sv (delete i (sv_pado_list sv)), counting (add_delayed (-1)) g, o)
  end.

(** The end of [pppoe_recv_PADI]: the offer, now or later. *)
Definition offer (e : env) (addr : list Z) (t : tags) (sv : pppoe_serv_t) (g : shared) : res state :=
  let mp := if sv_mtu sv - 8 <? t_ppp_max_payload t then u16 (sv_mtu sv - 8) else t_ppp_max_payload t in
  let delay := pado_delay (g_dpado g) in
  if negb (delay =? 0) then
    if existsb (fun p => bool_decide (dp_addr p = addr)) (sv_pado_list sv) then mret (sv, g, [])
    else
      let p := mk_pado addr (t_host_uniq t) (t_relay_sid t) (t_service_name t) mp (delay ÷ 1000) (Z.rem delay 1000 * 1000) in
      mret (with_pados sv (sv_pado_list sv ++ [p]), counting (add_delayed 1) g, [])
  else
    r ← pppoe_send_PADO e sv g addr (t_host_uniq t) (t_relay_sid t) (t_service_name t) mp;
    let '(g, o) := r in mret (sv, g, o).

Definition pppoe_recv_PADI (e : env) (pack : list Z) (sv : pppoe_serv_t) (g : shared) : res state :=
  let g := counting count_PADI_recv g in
  if e_shutdown e || (pado_delay (g_dpado g) =? -1) then mret (sv, g, [])
  else if over_sessions cf e then mret (sv, g, [])
  else
    addr ← h_source pack;
    let '(sv, g, drop) := check_padi_limit cf e addr sv g in
    if drop then
      let g := counting count_PADI_drop g in
      if conf_verbose cf && (sv_last_padi_limit_warn sv <=? tv_sec (e_now e) - 60)
      then mret (with_warn sv (tv_sec (e_now e)), g, [WarnOverlimit])
      else mret (sv, g, [])
    else
      sid ← hdr_sid pack;
      if negb (sid =? 0) then mret (sv, g, [])
      else
        r ← parse_tags (padi_tag cf) pack (tags0 (bool_decide (conf_service_name cf = [])));
        match r with
        | None => mret (sv, g, [])
        | Some t =>
            _ ← log_packet cf pack;
            if negb (t_service_match t) && negb (conf_accept_any_service cf) then mret (sv, g, [])
            else offer e addr t sv g
        end.

(** The end of [pppoe_recv_PADR]: the session, new or found. *)
Definition answer_PADR (e : env) (addr : list Z) (t : tags) (cookie : list Z) (sv : pppoe_serv_t) (g : shared) : res state :=
  c ← find_channel sv cookie;
  match c with
  | Some cn =>
      if cn_username cn then mret (sv, g, [])
      else r ← send_PADS cf e sv (counting count_PADR_dup g) cn; let '(g, o) := r in mret (sv, g, o)
  | None =>
      r ← allocate_channel cf e addr t cookie sv g;
      match r with
      | (sv, g, None) => o ← send_err cf e sv addr t CODE_PADS TAG_AC_SYSTEM_ERROR; mret (sv, g, o)
      | (sv, g, Some cn) => r ← send_PADS cf e sv g cn; let '(g, o) := r in mret (sv, g, o ++ [CallConnect (cn_id cn)])
      end
  end.

Definition pppoe_recv_PADR (e : env) (pack : list Z) (sv : pppoe_serv_t) (g : shared) : res state :=
  let g := counting count_PADR_recv g in
  if e_shutdown e then mret (sv, g, [])
  else if over_sessions cf e then mret (sv, g, [])
  else
    dst ← h_dest pack;
    if bool_decide (dst = bc_addr) then mret (sv, g, [])
    else
      sid ← hdr_sid pack;
      if negb (sid =? 0) then mret (sv, g, [])
      else
        _ ← log_packet cf pack;
        addr ← h_source pack;
        r ← parse_tags (padr_tag cf) pack (tags0 false);
        match r with
        | None => mret (sv, g, [])
        | Some t =>
            match t_ac_cookie t with
            | None => mret (sv, g, [])
            | Some c =>
                if negb (t_service_name_count t =? 1) then mret (sv, g, [])
                else if negb (length (tag_data c) =? COOKIE_LENGTH)%nat then mret (sv, g, [])
                else
                  bad ← check_cookie md5 des_decrypt (sv_keys sv) (tv_sec (e_now e)) addr (tag_data c) (t_relay_sid t);
                  if (bad : bool) then mret (sv, g, [])
                  else if negb (t_service_match t) && negb (conf_accept_any_service cf)
                  then o ← send_err cf e sv addr t CODE_PADS TAG_SERVICE_NAME_ERROR; mret (sv, g, o)
                  else answer_PADR e addr t (tag_data c) sv g
            end
        end.

Definition pppoe_recv_PADT (pack : list Z) (sv : pppoe_serv_t) (g : shared) : res state :=
  sid ← hdr_sid pack;
  dst ← h_dest pack;
  if bool_decide (dst = bc_addr) then mret (sv, g, [])
  else
    _ ← log_packet cf pack;
    addr ← h_source pack;
    match List.find (fun cn => cn_sid cn =? sid) (sv_conn_list sv) with
    | Some cn => mret (sv, g, if bool_decide (cn_addr cn = addr) then [CallDisconnect (cn_id cn)] else [])
    | None => mret (sv, g, [])
    end.

Definition pppoe_serv_read (e : env) (pack : list Z) (sv : pppoe_serv_t) (g : shared) : res state :=
  code ← hdr_code pack;
  if code =? CODE_PADI then pppoe_recv_PADI e pack sv g
  else if code =? CODE_PADR then pppoe_recv_PADR e pack sv g
  else if code =? CODE_PADT then pppoe_recv_PADT pack sv g
  else mret (sv, g, []).

(** ** Reception (disc.c) *)
Definition mac_filter_check (addr : list Z) : bool :=
  if mac_filter_type cf =? -1 then false
  else if existsb (fun m => bool_decide (m = addr)) (mac_list cf) then mac_filter_type cf =? 0
  else negb (mac_filter_type cf =? 0).

(** The tests of [disc_read] on the [n] bytes received.  [Some true]: to a server;
    [Some false]: discarded; [None]: discarded by the filter, and counted. *)
Definition disc_accept (pack : list Z) : res (option bool) :=
  if Z.of_nat (length pack) <? Z.of_nat (ETH_HLEN + PPPOE_HDR) then mret (Some false)
  else
    src ← h_source pack;
    if mac_filter_check src then mret None
    else if bool_decide (src = bc_addr) then mret (Some false)
    else
      s0 ← res_of_option (src !! O);
      if negb (Z.land s0 1 =? 0) then mret (Some false)
      else
        len ← hdr_length pack;
        vt ← res_of_option (pack !! ETH_HLEN);
        if Z.of_nat (length pack) <? Z.of_nat (ETH_HLEN + PPPOE_HDR) + len then mret (Some false)
        else if negb (Z.land vt 15 =? 1) then mret (Some false)
        else if negb (Z.shiftr vt 4 =? 1) then mret (Some false)
        else mret (Some true).

(** A server takes what is sent to it or to all. *)
Definition takes (ifindex : Z) (dst : list Z) (sv : pppoe_serv_t) : bool :=
  sv_listening sv && (sv_ifindex sv =? ifindex) &&
  (bool_decide (dst = bc_addr) || bool_decide (dst = k_hwaddr (sv_keys sv))).

(** ** All servers *)
Record system : Type := mk_system {
  servs : list pppoe_serv_t;
  sh : shared
}.

Inductive input : Type :=
| Frame (ifindex : Z) (pack : list Z)           (* disc_read, forward *)
| ServRead (s : nat) (pack : list Z)            (* the call that [forward] makes *)
| PadoTimer (s i : nat)
| Connect (s id : nat) (r : connect_result)
| Disconnect (s id : nat)
| PppFinished (s id : nat)
| ConnClose (s id : nat)
| Username (s id : nat)                         (* the session layer sets ses.username *)
| ServClose (s : nat)
| ServStop (s : nat)
| ServTimeout (s : nat)
| StartTimer (s : nat)
| ServFree (s : nat).

(** A handler of the server [s]; a server that is freed has no context. *)
Definition on_serv (s : nat) (f : pppoe_serv_t -> shared -> res state) (w : system) : res (system * list out) :=
  match servs w !! s with
  | Some sv =>
      if sv_freed sv then mret (w, [])
      else r ← f sv (sh w); let '(sv, g, o) := r in mret (mk_system (<[s := sv]> (servs w)) g, o)
  | None => mret (w, [])
  end.

(** A handler of the session [id]; with a session its pending calls are gone.  The
    handlers use the server of the session: [Oob] if that is freed. *)
Definition on_conn (s id : nat) (f : pppoe_conn_t -> pppoe_serv_t -> shared -> res state) (w : system) : res (system * list out) :=
  match servs w !! s with
  | Some sv =>
      match List.find (fun c => (cn_id c =? id)%nat) (sv_conn_list sv) with
      | Some cn =>
          if sv_freed sv then Oob
          else r ← f cn sv (sh w); let '(sv, g, o) := r in mret (mk_system (<[s := sv]> (servs w)) g, o)
      | None => mret (w, [])
      end
  | None => mret (w, [])
  end.

Definition pppoe_step (e : env) (i : input) (w : system) : res (system * list out) :=
  match i with
  | Frame ifindex pack =>
      a ← disc_accept pack;
      match a with
      | None => mret (mk_system (servs w) (counting pppoe_stat_add_filtered (sh w)), [])
      | Some false => mret (w, [])
      | Some true =>
          dst ← h_dest pack;
          match list_find (fun sv => takes ifindex dst sv = true) (servs w) with
          | Some (s, _) => mret (w, [CallServRead s pack])
          | None => mret (w, [])
          end
      end
  | ServRead s pack => on_serv s (pppoe_serv_read e pack) w
  | PadoTimer s k => on_serv s (pado_timer e k) w
  | Connect s id r => on_conn s id (connect_channel cf e r) w
  | Disconnect s id => on_conn s id (disconnect cf e) w
  | PppFinished s id => on_conn s id ppp_finished w
  | ConnClose s id => on_conn s id (pppoe_conn_close cf e) w
  | Username s id => on_conn s id (fun cn sv g => mret (set_conn sv (with_username cn), g, [])) w
  | ServClose s => on_serv s (fun sv g => mret (pppoe_serv_close cf sv g)) w
  | ServStop s => on_serv s (fun sv g => mret (_server_stop cf sv g)) w
  | ServTimeout s => on_serv s (fun sv g => mret (pppoe_serv_timeout cf sv g)) w
  | StartTimer s => on_serv s (fun sv g => mret (pppoe_serv_start_timer cf sv g)) w
  | ServFree s => on_serv s (fun sv g => mret (pppoe_server_free cf sv g)) w
  end.

Fixpoint pppoe_run (ins : list (env * input)) (w : system) : res (system * list out) :=
  match ins with
  | [] => mret (w, [])
  | (e, i) :: ins =>
      r ← pppoe_step e i w;
      let '(w, o) := r in
      r ← pppoe_run ins w;
      let '(w, o') := r in mret (w, o ++ o')
  end.
End Handlers.

(** ** Vocabulary of the theorems *)
Definition tag_wf (t : pppoe_tag) : Prop := bytes_ok (tag_data t).
Definition opt_wf (t : option pppoe_tag) : Prop := match t with Some t => tag_wf t | None => True end.
Definition tags_wf (t : tags) : Prop :=
  opt_wf (t_host_uniq t) /\ opt_wf (t_relay_sid t) /\ opt_wf (t_ac_cookie t) /\ opt_wf (t_service_name t) /\ opt_wf (t_tr101 t).
Definition addr_ok (a : list Z) : Prop := length a = ETH_ALEN /\ bytes_ok a.

Definition conf_wf (cf : pppoe_conf) : Prop := bytes_ok (conf_ac_name cf) /\ Forall bytes_ok (conf_service_name cf).
Definition env_ok (e : env) : Prop := length (e_stack e) = ETHER_MAX_LEN.

(** A session: its identifier, its tags, and strings that fit the buffers of
    [IFNAMSIZ + 19] and 256 bytes with their NUL. *)
Definition conn_ok (next : nat) (c : pppoe_conn_t) : Prop :=
  (cn_id c < next)%nat /\ 0 < cn_sid c < SID_MAX /\ addr_ok (cn_addr c) /\ length (cn_cookie c) = (COOKIE_LENGTH - 4)%nat /\
  opt_wf (cn_relay_sid c) /\ opt_wf (cn_host_uniq c) /\ tag_wf (cn_service_name c) /\
  (length (cn_called_station_id c) < IFNAMSIZ + 19)%nat /\ (length (cn_calling_station_id c) < IFNAMSIZ + 19)%nat /\
  (length (cn_ctrl_service_name c) < 256)%nat /\ (cn_starting c && cn_started c = false).

Definition pado_ok (p : delayed_pado_t) : Prop :=
  addr_ok (dp_addr p) /\ opt_wf (dp_host_uniq p) /\ opt_wf (dp_relay_sid p) /\ opt_wf (dp_service_name p).

(** A server: the counters are the lengths of the lists, the lists have no doubles,
    the limit of PADIs is kept, and nothing is left when it is freed. *)
Record serv_ok (next : nat) (sv : pppoe_serv_t) : Prop := mk_serv_ok {
  ok_hwaddr : addr_ok (k_hwaddr (sv_keys sv));
  ok_secret : bytes_ok (k_secret (sv_keys sv));
  ok_ifname : (length (sv_ifname sv) < IFNAMSIZ)%nat;
  ok_conns : Forall (conn_ok next) (sv_conn_list sv);
  ok_ids : base.NoDup (map cn_id (sv_conn_list sv));
  ok_conn_cnt : sv_conn_cnt sv = u32 (Z.of_nat (length (sv_conn_list sv)));
  ok_pados : Forall pado_ok (sv_pado_list sv);
  ok_pado_addrs : base.NoDup (map dp_addr (sv_pado_list sv));
  ok_padi_cnt : sv_padi_cnt sv = Z.of_nat (length (sv_padi_list sv));
  ok_padi_limit : 0 <= sv_padi_cnt sv <= Z.max 0 (sv_padi_limit sv) /\ 0 <= sv_padi_limit sv;
  ok_padi_addrs : base.NoDup (map padi_addr (sv_padi_list sv));
  ok_freed : sv_freed sv = true -> sv_conn_list sv = [] /\ sv_pado_list sv = []
}.

Definition shared_ok (g : shared) : Prop := sid_ok (g_sids g) /\ dpado_wf (g_dpado g).

(** Counting over the sessions of a server. *)
Definition count_in (f : pppoe_conn_t -> bool) (l : list pppoe_conn_t) : Z := Z.of_nat (length (List.filter f l)).
Definition count (f : pppoe_conn_t -> bool) (sv : pppoe_serv_t) : Z := count_in f (sv_conn_list sv).
Definition n_conns (sv : pppoe_serv_t) : Z := Z.of_nat (length (sv_conn_list sv)).
Definition n_pados (sv : pppoe_serv_t) : Z := Z.of_nat (length (sv_pado_list sv)).
Fixpoint total (f : pppoe_serv_t -> Z) (l : list pppoe_serv_t) : Z :=
  match l with [] => 0 | sv :: l => f sv + total f l end.

(** All servers: what they share counts what they have. *)
Record system_ok (w : system) : Prop := mk_system_ok {
  sys_servs : Forall (serv_ok (g_next (sh w))) (servs w);
  sys_shared : shared_ok (sh w);
  sys_starting : st_starting (g_stat (sh w)) = u32 (total (count cn_starting) (servs w));
  sys_active : st_active (g_stat (sh w)) = u32 (total (count cn_started) (servs w));
  sys_delayed : st_delayed_PADO (g_stat (sh w)) = u32 (total n_pados (servs w));
  sys_padi : g_total_padi_cnt (sh w) = u32 (total sv_padi_cnt (servs w));
  sys_conns : total n_conns (servs w) <= Z.of_nat (g_next (sh w))
}.

(** The change a handler that makes at most [k] sessions makes to its server and to
    what is shared. *)
Record moves (k : nat) (sv : pppoe_serv_t) (g : shared) (sv' : pppoe_serv_t) (g' : shared) : Prop := mk_moves {
  mv_serv : serv_ok (g_next g') sv';
  mv_shared : shared_ok g';
  mv_starting : st_starting (g_stat g') = u32 (st_starting (g_stat g) + (count cn_starting sv' - count cn_starting sv));
  mv_active : st_active (g_stat g') = u32 (st_active (g_stat g) + (count cn_started sv' - count cn_started sv));
  mv_delayed : st_delayed_PADO (g_stat g') = u32 (st_delayed_PADO (g_stat g) + (n_pados sv' - n_pados sv));
  mv_padi : g_total_padi_cnt g' = u32 (g_total_padi_cnt g + (sv_padi_cnt sv' - sv_padi_cnt sv));
  mv_conns : n_conns sv' - n_conns sv <= Z.of_nat (g_next g') - Z.of_nat (g_next g);
  mv_next : (g_next g <= g_next g' <= k + g_next g)%nat
}.

Definition ends (k : nat) (r : res state) (sv : pppoe_serv_t) (g : shared) : Prop :=
  exists sv' g' o, r = Ok (sv', g', o) /\ moves k sv g sv' g'.

(** The counters are numbers of their width. *)
Definition counters_ok (g : shared) : Prop :=
  u32 (st_starting (g_stat g)) = st_starting (g_stat g) /\ u32 (st_active (g_stat g)) = st_active (g_stat g) /\
  u32 (st_delayed_PADO (g_stat g)) = st_delayed_PADO (g_stat g) /\ u32 (g_total_padi_cnt g) = g_total_padi_cnt g.

(** A frame as [disc_read] passes it on. *)
Definition frame_ok (pack : list Z) : Prop :=
  bytes_ok pack /\ (ETH_HLEN + PPPOE_HDR <= length pack)%nat /\
  exists len, hdr_length pack = Ok len /\ Z.of_nat (ETH_HLEN + PPPOE_HDR) + len <= Z.of_nat (length pack).

(** An input that can come: [ServFree] is the call at the end of the last session of a
    server that stops, [Connect] the one made for a new session; they come when they
    should.  See [pppoe_free_race] for the first. *)
Definition well_timed (w : system) (i : input) : Prop :=
  match i with
  | ServFree s => forall sv, servs w !! s = Some sv -> sv_conn_list sv = []
  | Connect s id _ =>
      forall sv cn, servs w !! s = Some sv -> List.find (fun c => (cn_id c =? id)%nat) (sv_conn_list sv) = Some cn ->
        cn_starting cn = false /\ cn_started cn = false
  | _ => True
  end.

(** Frames are bytes, and a server reads what [disc_read] accepted. *)
Definition input_ok (cf : pppoe_conf) (i : input) : Prop :=
  match i with
  | Frame _ pack => bytes_ok pack
  | ServRead _ pack => bytes_ok pack /\ disc_accept cf pack = Ok (Some true)
  | _ => True
  end.

Fixpoint timed (md5 : list Z -> list Z) (enc dec : list Z -> list Z -> list Z) (cf : pppoe_conf) (ins : list (env * input)) (w : system) : Prop :=
  match ins with
  | [] => True
  | (e, i) :: ins =>
      well_timed w i /\ forall w' o, pppoe_step md5 enc dec cf e i w = Ok (w', o) -> timed md5 enc dec cf ins w'
  end.

(** A server to run: interface 2, no limits, no delay. *)
Definition demo_conf : pppoe_conf :=
  mk_pppoe_conf false [] false false [97; 99] 0 false CSID_MAC true 0 5 60 0 0 false cl_conf0 (mk_ses_conf None None None None 0 0) (-1) [].
Definition demo_hwaddr : list Z := [2; 0; 0; 0; 0; 1].
Definition demo_serv : pppoe_serv_t :=
  mk_serv (mk_keys demo_hwaddr (replicate 16 3) (replicate 8 4)) [101; 116; 104; 48] 2 1500 0 [] [] [] 0 0 0 false false false true false.
Definition demo_padi : list Z := bc_addr ++ [2; 0; 0; 0; 0; 9; 136; 99; 17; 9; 0; 0; 0; 4; 1; 1; 0; 0].
Definition demo_shared : shared := mk_shared sid_init (mk_stat 0 0 0 0 0 0 0 0 0 0) 0 dpado0 [] 0.
Definition demo_env (sec : Z) : env := mk_env (mk_ts sec 0) false 0 0 (replicate ETHER_MAX_LEN 255) true.

(** ** Changes *)
Lemma u32_u32_add a d : u32 (u32 a + d) = u32 (a + d).
Proof. unfold u32. apply Z.add_mod_idemp_l. lia. Qed.

Lemma u32_idem a : u32 (u32 a) = u32 a.
Proof. unfold u32. apply Z.mod_mod. lia. Qed.

Lemma conn_ok_next n n' c : (n <= n')%nat -> conn_ok n c -> conn_ok n' c.
Proof. intros L (H & R). split; [lia | exact R]. Qed.

Lemma serv_ok_next n n' sv : (n <= n')%nat -> serv_ok n sv -> serv_ok n' sv.
Proof. intros L []. constructor; auto. eapply Forall_impl; [eassumption|]. intros c. now apply conn_ok_next. Qed.

Lemma moves_refl sv g : serv_ok (g_next g) sv -> shared_ok g -> counters_ok g -> moves 0 sv g sv g.
Proof. intros S G (C1 & C2 & C3 & C4). constructor; rewrite ?Z.sub_diag, ?Z.add_0_r; auto; lia. Qed.

Lemma moves_trans k1 k2 sv g sv1 g1 sv2 g2 : moves k1 sv g sv1 g1 -> moves k2 sv1 g1 sv2 g2 -> moves (k1 + k2) sv g sv2 g2.
Proof.
  intros [] []. constructor; auto; try lia.
  all: repeat match goal with H : _ = u32 _ |- _ => rewrite H; clear H end; rewrite u32_u32_add; f_equal; lia.
Qed.

Lemma moves_le k k' sv g sv' g' : (k <= k')%nat -> moves k sv g sv' g' -> moves k' sv g sv' g'.
Proof. intros L []. constructor; auto. lia. Qed.

Lemma moves_counters k sv g sv' g' : moves k sv g sv' g' -> counters_ok g'.
Proof. intros []. unfold counters_ok. repeat match goal with H : _ = u32 _ |- _ => rewrite H; clear H end. now rewrite !u32_idem. Qed.

(** Changes of what does not count. *)
Lemma moves_packets k sv g sv' g' a b c d e f h :
  moves k sv g sv' g' -> moves k sv g sv' (counting (add_packets a b c d e f h) g').
Proof. intros []. constructor; assumption. Qed.
Lemma moves_items k sv g sv' g' l : moves k sv g sv' g' -> moves k sv g sv' (with_items g' l).
Proof. intros []. constructor; assumption. Qed.
Lemma moves_from_packets k sv g sv' g' a b c d e f h :
  moves k sv (counting (add_packets a b c d e f h) g) sv' g' -> moves k sv g sv' g'.
Proof. intros []. constructor; assumption. Qed.

(** ** Sessions of a server *)
Lemma count_in_app f a b : count_in f (a ++ b) = count_in f a + count_in f b.
Proof. unfold count_in. rewrite List.filter_app, length_app. lia. Qed.
Lemma count_in_cons f c l : count_in f (c :: l) = b2z (f c) + count_in f l.
Proof. unfold count_in. cbn [List.filter]. destruct (f c); cbn [length b2z]; lia. Qed.

Lemma find_split {A} (p : A -> bool) l x : List.find p l = Some x -> exists l1 l2, l = l1 ++ x :: l2 /\ p x = true.
Proof.
  intros H. apply find_some in H as [I P]. apply in_split in I as (l1 & l2 & ->). eauto.
Qed.

Lemma ids_apart l1 cn l2 c :
  base.NoDup (map cn_id (l1 ++ cn :: l2)) -> In c (l1 ++ l2) -> (cn_id c =? cn_id cn)%nat = false.
Proof.
  intros Nd I. rewrite map_app in Nd. cbn [map] in Nd. rewrite <- (Permutation_middle (map cn_id l1)), <- map_app in Nd.
  apply NoDup_cons in Nd as [N _]. apply Nat.eqb_neq. intros E. apply N. rewrite <- E. apply list_elem_of_In. now apply in_map.
Qed.

Lemma map_same {A} (f : A -> A) l : (forall x, In x l -> f x = x) -> map f l = l.
Proof. intros H. induction l as [|x l IH]; [done|]. cbn [map]. rewrite H, IH; [done | intros; apply H; now right | now left]. Qed.
Lemma filter_all {A} (p : A -> bool) l : (forall x, In x l -> p x = true) -> List.filter p l = l.
Proof. intros H. induction l as [|x l IH]; [done|]. cbn [List.filter]. rewrite H, IH; [done | intros; apply H; now right | now left]. Qed.

Lemma set_conn_list sv l1 cn l2 cn' :
  base.NoDup (map cn_id (sv_conn_list sv)) -> sv_conn_list sv = l1 ++ cn :: l2 -> cn_id cn' = cn_id cn ->
  sv_conn_list (set_conn sv cn') = l1 ++ cn' :: l2.
Proof.
  intros Nd E I. cbn [set_conn with_conns sv_conn_list]. rewrite E in *. rewrite map_app. cbn [map]. rewrite I, Nat.eqb_refl.
  pose proof (fun c => ids_apart l1 cn l2 c Nd) as A.
  rewrite !map_same; [done | |]; intros x Hx; rewrite A; auto; apply in_or_app; auto.
Qed.

Lemma filter_conn_list sv l1 cn l2 :
  base.NoDup (map cn_id (sv_conn_list sv)) -> sv_conn_list sv = l1 ++ cn :: l2 ->
  List.filter (fun c => negb (cn_id c =? cn_id cn)%nat) (sv_conn_list sv) = l1 ++ l2.
Proof.
  intros Nd E. rewrite E in *. rewrite List.filter_app. cbn [List.filter]. rewrite Nat.eqb_refl. cbn [negb].
  pose proof (fun c => ids_apart l1 cn l2 c Nd) as A.
  rewrite !filter_all; [done | |]; intros x Hx; rewrite A; auto; apply in_or_app; auto.
Qed.

Lemma app_cons_nil {A} (l1 : list A) x l2 : l1 ++ x :: l2 = [] -> False.
Proof. now destruct l1. Qed.

(** A session becomes another one with the same identity. *)
Lemma moves_set_conn sv g l1 cn l2 cn' g' :
  serv_ok (g_next g) sv -> sv_conn_list sv = l1 ++ cn :: l2 -> cn_id cn' = cn_id cn -> conn_ok (g_next g) cn' ->
  shared_ok g' -> g_next g' = g_next g ->
  st_starting (g_stat g') = u32 (st_starting (g_stat g) + (b2z (cn_starting cn') - b2z (cn_starting cn))) ->
  st_active (g_stat g') = u32 (st_active (g_stat g) + (b2z (cn_started cn') - b2z (cn_started cn))) ->
  st_delayed_PADO (g_stat g') = u32 (st_delayed_PADO (g_stat g)) -> g_total_padi_cnt g' = u32 (g_total_padi_cnt g) ->
  moves 0 sv g (set_conn sv cn') g'.
Proof.
  intros [] E I Hc Hg Hn S A D P. pose proof (set_conn_list sv l1 cn l2 cn' ok_ids0 E I) as E'.
  constructor; unfold count, n_conns; rewrite ?E', ?E, ?count_in_app, ?count_in_cons, ?length_app; cbn [length]; auto; try lia.
  - rewrite Hn. constructor; auto; rewrite ?E'.
    + rewrite Forall_app, Forall_cons. rewrite E, Forall_app, Forall_cons in ok_conns0. tauto.
    + rewrite E in ok_ids0. rewrite !map_app in *. cbn [map] in *. now rewrite I.
    + change (sv_conn_cnt sv = u32 (Z.of_nat (length (l1 ++ cn' :: l2)))). now rewrite ok_conn_cnt0, E, !length_app.
    + intros F. rewrite E in ok_freed0. destruct (ok_freed0 F) as [X _]. destruct (app_cons_nil _ _ _ X).
  - rewrite S. f_equal. lia.
  - rewrite A. f_equal. lia.
  - rewrite D. f_equal. cbn. unfold n_pados. cbn. lia.
  - rewrite P. f_equal. cbn. lia.
Qed.

(** A session goes. *)
Lemma moves_drop_conn sv g l1 cn l2 g' :
  let sv' := with_conns sv (u32 (sv_conn_cnt sv - 1)) (List.filter (fun c => negb (cn_id c =? cn_id cn)%nat) (sv_conn_list sv)) in
  serv_ok (g_next g) sv -> sv_conn_list sv = l1 ++ cn :: l2 -> shared_ok g' -> g_next g' = g_next g ->
  st_starting (g_stat g') = u32 (st_starting (g_stat g) - b2z (cn_starting cn)) ->
  st_active (g_stat g') = u32 (st_active (g_stat g) - b2z (cn_started cn)) ->
  st_delayed_PADO (g_stat g') = u32 (st_delayed_PADO (g_stat g)) -> g_total_padi_cnt g' = u32 (g_total_padi_cnt g) ->
  moves 0 sv g sv' g'.
Proof.
  intros sv' [] E Hg Hn S A D P. assert (E' : sv_conn_list sv' = l1 ++ l2) by exact (filter_conn_list sv l1 cn l2 ok_ids0 E).
  constructor; unfold count, n_conns; rewrite ?E', ?E, ?count_in_app, ?count_in_cons, ?length_app; cbn [length]; auto; try lia.
  - rewrite Hn. constructor; auto; rewrite ?E'.
    + rewrite Forall_app. rewrite E, Forall_app, Forall_cons in ok_conns0. tauto.
    + rewrite E in ok_ids0. rewrite !map_app in *. cbn [map] in *.
      rewrite <- (Permutation_middle (map cn_id l1)) in ok_ids0. now apply NoDup_cons in ok_ids0 as [_ ?].
    + change (u32 (sv_conn_cnt sv - 1) = u32 (Z.of_nat (length (l1 ++ l2)))). rewrite ok_conn_cnt0, E. unfold Z.sub.
      rewrite u32_u32_add, !length_app. cbn [length]. f_equal. lia.
    + intros F. rewrite E in ok_freed0. destruct (ok_freed0 F) as [X _]. destruct (app_cons_nil _ _ _ X).
  - rewrite S. f_equal. lia.
  - rewrite A. f_equal. lia.
  - rewrite D. f_equal. cbn. unfold n_pados. cbn. lia.
  - rewrite P. f_equal. cbn. lia.
Qed.

Section Moves.
Context {cf : pppoe_conf} (Hcf : conf_wf cf).

(** ** Frames and tags *)
Lemma log_packet_frame pack : frame_ok pack -> log_packet cf pack = Ok tt.
Proof.
  intros (B & L & len & E & Ll). unfold log_packet. destruct (conf_verbose cf); [|done].
  destruct (print_packet_total pack len B E Ll L) as [l ->]. done.
Qed.

Lemma disc_frame_frame_ok dst src code sid ts :
  addr_ok dst -> addr_ok src -> Forall tag_wf ts -> frame_ok (disc_frame dst src code sid (payload_of ts)).
Proof.
  intros [Ld Bd] [Ls Bs] Ht. destruct (disc_frame_ok dst src code sid ts Ld Ls Bd Bs Ht) as (B & len & E & L & N).
  split; [exact B|]. split; [rewrite disc_frame_length by done; lia|]. exists len. split; [exact E | lia].
Qed.

Lemma opt_tag_wf t : opt_wf t -> Forall tag_wf (opt_tag t).
Proof. destruct t; cbn; auto. Qed.

Lemma tags0_wf m : tags_wf (tags0 m).
Proof. repeat split. Qed.

Lemma set_max_payload_wf s t : tags_wf s -> tags_wf (set_max_payload s t).
Proof. intros H. unfold set_max_payload. now destruct (_ =? _)%nat. Qed.

Lemma padi_tag_wf s t : tags_wf s -> bytes_ok (tag_data t) -> tags_wf (padi_tag cf s t).
Proof.
  intros H Ht. unfold padi_tag. pose proof H as (? & ? & ? & ? & ?).
  repeat case_match; auto using set_max_payload_wf; repeat split; done.
Qed.

Lemma padr_tag_wf s t : tags_wf s -> bytes_ok (tag_data t) -> tags_wf (padr_tag cf s t).
Proof.
  intros H Ht. unfold padr_tag. pose proof H as (? & ? & ? & ? & ?).
  repeat case_match; auto using set_max_payload_wf; repeat split; done.
Qed.

(** The tags of the packets sent, with their data in bytes. *)
Lemma PADS_tags_wf sn hu rs mtu : tag_wf sn -> opt_wf hu -> opt_wf rs -> Forall tag_wf (PADS_tags (conf_ac_name cf) sn hu rs mtu).
Proof.
  intros H1 H2 H3. unfold PADS_tags, if_tag. rewrite !Forall_app.
  repeat split; auto using opt_tag_wf; [constructor; [apply Hcf | now apply Forall_singleton]|].
  destruct (_ <? _); [apply Forall_singleton, be_encode_ok | constructor].
Qed.
Lemma PADT_tags_wf sn rs : tag_wf sn -> opt_wf rs -> Forall tag_wf (PADT_tags (conf_ac_name cf) sn rs).
Proof.
  intros H1 H3. unfold PADT_tags. rewrite !Forall_app. repeat split; auto using opt_tag_wf. constructor; [apply Hcf | now apply Forall_singleton].
Qed.
Lemma err_tags_wf hu rs type : opt_wf hu -> opt_wf rs -> Forall tag_wf (err_tags (conf_ac_name cf) hu rs type).
Proof.
  intros H2 H3. unfold err_tags. rewrite !Forall_app. repeat split; auto using opt_tag_wf. constructor; [apply Hcf | apply Forall_singleton; constructor].
Qed.
Lemma PADO_tags_wf sn c hu rs mp :
  opt_wf sn -> bytes_ok c -> opt_wf hu -> opt_wf rs -> Forall tag_wf (PADO_tags (conf_ac_name cf) (conf_service_name cf) sn c hu rs mp).
Proof.
  intros H1 H2 H3 H4. unfold PADO_tags, if_tag. rewrite !Forall_app. repeat split; auto using opt_tag_wf.
  - apply Forall_singleton, Hcf.
  - apply List.Forall_forall. intros t Ht. apply in_map_iff in Ht as (n & <- & Hn). now apply (proj1 (List.Forall_forall _ _) (proj2 Hcf)).
  - destruct (negb _); [apply Forall_singleton, be_encode_ok | constructor].
Qed.

(** ** Sending *)
Lemma send_PADS_ok e sv g cn next :
  env_ok e -> addr_ok (k_hwaddr (sv_keys sv)) -> conn_ok next cn ->
  send_PADS cf e sv g cn = Ok (counting count_PADS_sent g,
    [Send (disc_frame (cn_addr cn) (k_hwaddr (sv_keys sv)) CODE_PADS (cn_sid cn)
       (payload_of (PADS_tags (conf_ac_name cf) (cn_service_name cn) (cn_host_uniq cn) (cn_relay_sid cn) (cn_max_mtu cn))))]).
Proof.
  intros He Hh (_ & _ & Ha & _ & Hr & Hu & Hs & _). unfold send_PADS.
  rewrite pppoe_send_PADS_frame by (apply He || apply Hh || apply Ha). cbn [mbind res_bind].
  rewrite log_packet_frame; [done|]. apply disc_frame_frame_ok; [done | done | now apply PADS_tags_wf].
Qed.

Lemma send_PADT_ok e sv cn next :
  env_ok e -> addr_ok (k_hwaddr (sv_keys sv)) -> conn_ok next cn -> exists f, send_PADT cf e sv cn = Ok [Send f].
Proof.
  intros He Hh (_ & _ & Ha & _ & Hr & Hu & Hs & _). unfold send_PADT.
  rewrite pppoe_send_PADT_frame by (apply He || apply Hh || apply Ha). cbn [mbind res_bind].
  rewrite log_packet_frame; [now eexists|]. apply disc_frame_frame_ok; [done | done | now apply PADT_tags_wf].
Qed.

Lemma send_err_ok e sv addr t code type :
  env_ok e -> addr_ok (k_hwaddr (sv_keys sv)) -> addr_ok addr -> tags_wf t -> exists f, send_err cf e sv addr t code type = Ok [Send f].
Proof.
  intros He Hh Ha (Hu & Hr & _). unfold send_err.
  rewrite pppoe_send_err_frame by (apply He || apply Hh || apply Ha). cbn [mbind res_bind].
  rewrite log_packet_frame; [now eexists|]. apply disc_frame_frame_ok; [done | done | now apply err_tags_wf].
Qed.

(** ** The limit of PADIs *)
Lemma expire_padis_suffix now l : exists old, l = old ++ expire_padis now l.
Proof.
  induction l as [|p l [old IH]]; [now exists []|]. cbn [expire_padis]. destruct (1000 <? _); [|now exists []].
  exists (p :: old). cbn [app]. now rewrite <- IH.
Qed.

Lemma check_connlimit_moves e addr k sv g sv' g' :
  moves k sv g sv' g' -> moves k sv g sv' (fst (check_connlimit cf e addr g')).
Proof.
  intros M. unfold check_connlimit. destruct (connlimit_loaded cf); [|exact M].
  destruct (connlimit_check _ _ _ _) as [items r]. now apply moves_items.
Qed.

Lemma existsb_addr {A} (f : A -> list Z) addr l :
  existsb (fun p => bool_decide (f p = addr)) l = false -> ~ In addr (map f l).
Proof.
  intros E I. apply in_map_iff in I as (p & <- & Hp). apply not_true_iff_false in E. apply E. apply existsb_exists.
  exists p. split; [done|]. now apply bool_decide_eq_true.
Qed.

Lemma NoDup_snoc {A} (l : list A) x : base.NoDup l -> ~ In x l -> base.NoDup (l ++ [x]).
Proof.
  intros Nd N. apply NoDup_app. split; [done|]. split; [|apply NoDup_singleton].
  intros y Hy Hy'. apply list_elem_of_In in Hy, Hy'. destruct Hy' as [->|[]]. exact (N Hy).
Qed.

Lemma padis_moves sv g l d :
  serv_ok (g_next g) sv -> shared_ok g -> counters_ok g ->
  d = Z.of_nat (length l) - Z.of_nat (length (sv_padi_list sv)) -> base.NoDup (map padi_addr l) ->
  Z.of_nat (length l) <= Z.max 0 (sv_padi_limit sv) ->
  moves 0 sv g (with_padis sv l (sv_padi_cnt sv + d)) (with_total g (u32 (g_total_padi_cnt g + d))).
Proof.
  intros [] Hg (C1 & C2 & C3 & C4) -> Nd L. constructor; cbn; rewrite ?Z.sub_diag, ?Z.add_0_r; auto.
  { constructor; auto; cbn [with_padis sv_padi_cnt sv_padi_list sv_padi_limit]; lia. }
  all: unfold n_conns; cbn; lia || (f_equal; lia).
Qed.

Lemma check_padi_limit_moves e addr sv g :
  serv_ok (g_next g) sv -> shared_ok g -> counters_ok g ->
  let '(sv', g', r) := check_padi_limit cf e addr sv g in moves 0 sv g sv' g'.
Proof.
  intros S G C. unfold check_padi_limit. destruct (sv_padi_limit sv =? 0).
  { pose proof (check_connlimit_moves e addr _ _ _ _ _ (moves_refl sv g S G C)) as M. now destruct (check_connlimit cf e addr g). }
  destruct (expire_padis_suffix (e_now e) (sv_padi_list sv)) as [old E].
  set (l := expire_padis (e_now e) (sv_padi_list sv)) in *. set (gone := Z.of_nat (length (sv_padi_list sv)) - Z.of_nat (length l)).
  pose proof S as []. assert (Lg : length (sv_padi_list sv) = (length old + length l)%nat) by (rewrite E at 1; apply length_app).
  assert (Nl : base.NoDup (map padi_addr l)) by (rewrite E, map_app in ok_padi_addrs0; now apply NoDup_app in ok_padi_addrs0 as (_ & _ & ?)).
  assert (M1 : moves 0 sv g (with_padis sv l (sv_padi_cnt sv - gone)) (with_total g (u32 (g_total_padi_cnt g - gone)))).
  { apply (padis_moves sv g l (- gone)); auto; unfold gone; lia. }
  set (sv1 := with_padis sv l (sv_padi_cnt sv - gone)) in *. set (g1 := with_total g (u32 (g_total_padi_cnt g - gone))) in *.
  destruct (sv_padi_cnt sv1 =? sv_padi_limit sv1) eqn:El; zbool; [exact M1|].
  destruct (negb _ && _); [exact M1|]. destruct (existsb _ l) eqn:Ex; [exact M1|]. destruct (negb (e_mem e)); [exact M1|].
  assert (M2 : moves 0 sv1 g1 (with_padis sv1 (l ++ [mk_padi (e_now e) addr]) (sv_padi_cnt sv1 + 1))
                 (with_total g1 (u32 (g_total_padi_cnt g1 + 1)))).
  { apply padis_moves; [apply M1 | apply M1 | now apply moves_counters in M1 | | |].
    - rewrite length_app. cbn [sv1 with_padis sv_padi_list length]. lia.
    - rewrite map_app. apply NoDup_snoc; [exact Nl | now apply existsb_addr].
    - rewrite length_app. cbn [sv1 with_padis sv_padi_limit sv_padi_cnt length] in *. unfold gone in *. lia. }
  pose proof (check_connlimit_moves e addr _ _ _ _ _ (moves_trans _ _ _ _ _ _ _ _ M1 M2)) as M.
  now destruct (check_connlimit cf e addr _).
Qed.

(** ** Sessions come and go *)
Lemma mac_string_length upper a : length a = ETH_ALEN -> length (mac_string upper a) = 17%nat.
Proof. destruct a as [|a [|b [|c [|d [|e [|f [|]]]]]]]; try done. Qed.

Lemma station_ids_fit sv addr :
  addr_ok (k_hwaddr (sv_keys sv)) -> addr_ok addr -> (length (sv_ifname sv) < IFNAMSIZ)%nat ->
  (length (called_station_id cf sv) < IFNAMSIZ + 19)%nat /\ (length (calling_station_id cf sv addr) < IFNAMSIZ + 19)%nat.
Proof.
  intros [H _] [A _] L. unfold called_station_id, calling_station_id, IFNAMSIZ in *.
  pose proof (mac_string_length (conf_sid_uppercase cf) _ H). pose proof (mac_string_length (conf_sid_uppercase cf) _ A).
  repeat case_match; rewrite ?length_app; cbn [length]; lia.
Qed.

Lemma ctrl_service_name_fits t : (length (ctrl_service_name t) < 256)%nat.
Proof. unfold ctrl_service_name. destruct (_ && _) eqn:E; bools; cbn [length]; lia. Qed.

Lemma allocate_channel_moves e addr t cookie sv g :
  serv_ok (g_next g) sv -> shared_ok g -> counters_ok g -> sv_freed sv = false -> addr_ok addr -> tags_wf t ->
  length cookie = COOKIE_LENGTH ->
  exists sv' g' r, allocate_channel cf e addr t cookie sv g = Ok (sv', g', r) /\ moves 1 sv g sv' g' /\ sv_keys sv' = sv_keys sv /\
    match r with Some cn => conn_ok (g_next g') cn | None => True end.
Proof.
  intros S G C Fr Ha (Wu & Wr & Wc & Ws & Wt) Lc. unfold allocate_channel. pose proof (moves_refl sv g S G C) as M.
  assert (M1 : moves 1 sv g sv g) by (eapply moves_le; [|exact M]; lia).
  destruct (e_mem e); cbn [negb]; [|now eexists _, _, _].
  destruct (sid_alloc_loop _ (proj1 G)) as (sid & sids & R & O & D). rewrite R. cbn [mbind res_bind].
  destruct (sid =? 0) eqn:E0; zbool.
  { eexists _, _, _. split; [reflexivity|]. split; [|done]. destruct M1. constructor; auto. split; [exact O | apply G]. }
  rewrite slice_ok by (rewrite Lc; unfold COOKIE_LENGTH; lia). cbn [mbind res_bind mret res_ret].
  set (sn := match t_service_name t with Some n => n | None => _ end).
  assert (Wsn : tag_wf sn) by (unfold sn; destruct (t_service_name t); [exact Ws | constructor]).
  pose proof S as []. destruct (station_ids_fit sv addr ok_hwaddr0 Ha ok_ifname0) as [F1 F2].
  assert (Rs : 0 < sid < SID_MAX) by (destruct D as [[F _]|[]]; [apply sid_free_range in F; lia | done]).
  set (cn := mk_conn _ _ _ _ _ _ _ _ _ _ _ _ _ _ _ _).
  assert (Kn : conn_ok (Datatypes.S (g_next g)) cn).
  { unfold conn_ok, cn. cbn. repeat split; auto using ctrl_service_name_fits; try lia; [apply Ha | apply Ha|].
    rewrite length_take, drop_0, Lc. unfold COOKIE_LENGTH. lia. }
  eexists _, _, _. split; [reflexivity|]. split; [|split; [done | exact Kn]].
  destruct C as (C1 & C2 & C3 & C4).
  constructor; cbn; unfold count, n_conns, n_pados; cbn; rewrite ?count_in_app, ?count_in_cons, ?length_app, ?Z.sub_diag, ?Z.add_0_r; cbn; auto; try lia.
  - constructor; cbn; auto.
    + rewrite Forall_app. split; [|now apply Forall_singleton]. eapply Forall_impl; [exact ok_conns0|]. intros c. apply conn_ok_next. lia.
    + rewrite map_app. apply NoDup_snoc; [done|]. cbn. intros I. apply in_map_iff in I as (c & Ec & Ic).
      pose proof (proj1 (List.Forall_forall _ _) ok_conns0 c Ic) as [K _]. lia.
    + rewrite ok_conn_cnt0, u32_u32_add, length_app. cbn [length]. f_equal. lia.
    + congruence.
  - split; [exact O | apply G].
  - rewrite <- C1 at 1. f_equal. unfold count_in. cbn. lia.
  - rewrite <- C2 at 1. f_equal. unfold count_in. cbn. lia.
Qed.

Lemma disconnect_moves e cn l1 l2 sv g :
  serv_ok (g_next g) sv -> shared_ok g -> counters_ok g -> env_ok e -> sv_conn_list sv = l1 ++ cn :: l2 ->
  0 <= st_active (g_stat g) < INT_MAX -> ends 0 (disconnect cf e cn sv g) sv g.
Proof.
  intros S G C He E A. pose proof S as []. pose proof C as (C1 & C2 & C3 & C4).
  assert (Kc : conn_ok (g_next g) cn) by (rewrite E, Forall_app, Forall_cons in ok_conns0; tauto).
  unfold disconnect. destruct (send_PADT_ok e sv cn (g_next g) He ok_hwaddr0 Kc) as [f Ef].
  destruct (sid_release_spec (cn_sid cn) (g_sids g) (proj1 G)) as (sids & Er & Os & _); [destruct Kc as (_ & R & _); lia|].
  assert (As : s32 (st_active (g_stat g)) = st_active (g_stat g)) by (unfold s32, INT_MAX in *; rewrite Z.mod_small; lia).
  destruct (dpado_check_prev_wf (s32 (st_active (g_stat g))) (g_dpado g) (proj2 G)) as (d & Ed & Wd); [lia|].
  assert (X : cn_starting cn && cn_started cn = false) by apply Kc.
  destruct (cn_started cn) eqn:Est.
  - rewrite Ed. cbn [mbind res_bind mret res_ret]. rewrite Ef. cbn [mbind res_bind].
    change (g_sids (with_dpado (counting (add_active (-1)) g) d)) with (g_sids g). rewrite Er. cbn [mbind res_bind mret res_ret].
    eexists _, _, _. split; [reflexivity|]. rewrite andb_true_r in X.
    apply (moves_drop_conn sv g l1 cn l2); auto; cbn; rewrite ?Est, ?X, ?Z.sub_0_r; cbn; auto. now split.
  - destruct (cn_starting cn) eqn:Esg; cbn [mbind res_bind mret res_ret]; rewrite Ef; cbn [mbind res_bind].
    + change (g_sids (counting (add_starting (-1)) g)) with (g_sids g). rewrite Er. cbn [mbind res_bind mret res_ret].
      eexists _, _, _. split; [reflexivity|].
      apply (moves_drop_conn sv g l1 cn l2); auto; cbn; rewrite ?Est, ?Esg, ?Z.sub_0_r; cbn; auto. split; [done | apply G].
    + rewrite Er. cbn [mbind res_bind mret res_ret]. eexists _, _, _. split; [reflexivity|].
      apply (moves_drop_conn sv g l1 cn l2); auto; cbn; rewrite ?Est, ?Esg, ?Z.sub_0_r; cbn; auto. split; [done | apply G].
Qed.

Lemma ends_here k r sv g sv' g' o : r = Ok (sv', g', o) -> moves k sv g sv' g' -> ends k r sv g.
Proof. intros -> M. now exists sv', g', o. Qed.

Lemma ends_after k1 k2 r sv g sv1 g1 : moves k1 sv g sv1 g1 -> ends k2 r sv1 g1 -> ends (k1 + k2) r sv g.
Proof. intros M (sv2 & g2 & o & E & M2). exists sv2, g2, o. split; [exact E | eapply moves_trans; eassumption]. Qed.

Lemma ends_le k k' r sv g : (k <= k')%nat -> ends k r sv g -> ends k' r sv g.
Proof. intros L (sv2 & g2 & o & E & M2). exists sv2, g2, o. split; [exact E | eapply moves_le; eassumption]. Qed.

Lemma with_run_ok n cn a b : conn_ok n cn -> a && b = false -> conn_ok n (with_run cn a b).
Proof. unfold conn_ok. cbn. tauto. Qed.

Lemma ppp_finished_moves cn l1 l2 sv g :
  serv_ok (g_next g) sv -> shared_ok g -> counters_ok g -> sv_conn_list sv = l1 ++ cn :: l2 ->
  0 <= st_active (g_stat g) < INT_MAX -> ends 0 (ppp_finished cn sv g) sv g.
Proof.
  intros S G C E A. pose proof S as []. pose proof C as (C1 & C2 & C3 & C4).
  assert (Kc : conn_ok (g_next g) cn) by (rewrite E, Forall_app, Forall_cons in ok_conns0; tauto).
  unfold ppp_finished. destruct (cn_started cn) eqn:Est; [|eapply ends_here; [reflexivity | now apply moves_refl]].
  assert (As : s32 (st_active (g_stat g)) = st_active (g_stat g)) by (unfold s32, INT_MAX in *; rewrite Z.mod_small; lia).
  destruct (dpado_check_prev_wf (s32 (st_active (g_stat g))) (g_dpado g) (proj2 G)) as (d & -> & Wd); [lia|].
  cbn [mbind res_bind mret res_ret]. eapply ends_here; [reflexivity|].
  apply (moves_set_conn sv g l1 cn l2); cbn; auto; rewrite ?Est, ?Z.sub_diag, ?Z.add_0_r; cbn; auto;
    [apply with_run_ok; [done | apply andb_false_r] | split; [apply G | done]].
Qed.

Lemma pppoe_conn_close_moves e cn l1 l2 sv g :
  serv_ok (g_next g) sv -> shared_ok g -> counters_ok g -> env_ok e -> sv_conn_list sv = l1 ++ cn :: l2 ->
  0 <= st_active (g_stat g) < INT_MAX -> ends 0 (pppoe_conn_close cf e cn sv g) sv g.
Proof.
  intros S G C He E A. unfold pppoe_conn_close. destruct (cn_started cn); [eapply ends_here; [reflexivity | now apply moves_refl]|].
  eapply disconnect_moves; eassumption.
Qed.

Lemma connect_channel_moves e r cn l1 l2 sv g :
  serv_ok (g_next g) sv -> shared_ok g -> counters_ok g -> env_ok e -> sv_conn_list sv = l1 ++ cn :: l2 ->
  cn_starting cn = false -> cn_started cn = false ->
  0 <= st_active (g_stat g) < INT_MAX -> ends 0 (connect_channel cf e r cn sv g) sv g.
Proof.
  intros S G C He E N1 N2 A. pose proof S as []. pose proof C as (C1 & C2 & C3 & C4).
  assert (Kc : conn_ok (g_next g) cn) by (rewrite E, Forall_app, Forall_cons in ok_conns0; tauto).
  unfold connect_channel. rewrite N2. set (cn1 := with_run cn true false).
  assert (E1 : sv_conn_list (set_conn sv cn1) = l1 ++ cn1 :: l2) by (apply (set_conn_list sv l1 cn); done).
  assert (M1 : moves 0 sv g (set_conn sv cn1) (counting (add_starting 1) g)).
  { apply (moves_set_conn sv g l1 cn l2); cbn; auto; rewrite ?N1, ?N2, ?Z.add_0_r; cbn; auto; now apply with_run_ok. }
  set (sv1 := set_conn sv cn1) in *. set (g1 := counting (add_starting 1) g) in *.
  assert (Fail : ends 0 (r ← disconnect cf e cn1 sv1 g1; let '(sv, g, o) := r in
            mret (sv, g, [Event (cn_id cn) EV_CTRL_STARTING; Event (cn_id cn) EV_CTRL_STARTED] ++ o)) sv g).
  { destruct (disconnect_moves e cn1 l1 l2 sv1 g1) as (sv2 & g2 & o & -> & M2); auto; try apply M1; [now apply moves_counters in M1|].
    eapply ends_here; [reflexivity|]. exact (moves_trans _ _ _ _ _ _ _ _ M1 M2). }
  destruct r; [exact Fail | exact Fail | exact Fail|].
  set (g2 := counting (add_active 1) (counting (add_starting (-1)) g1)).
  destruct (dpado_check_next_wf (s32 (st_active (g_stat g2))) (g_dpado g2)) as (d & Ed & Wd); [apply G|].
  rewrite Ed. cbn [mbind res_bind mret res_ret]. eapply ends_here; [reflexivity|]. eapply (moves_trans 0 0 _ _ _ _ _ _ M1).
  apply (moves_set_conn sv1 g1 l1 cn1 l2); cbn; auto; [apply M1 | | split; [apply G | done]].
  apply with_run_ok; [now apply with_run_ok | done].
Qed.

Lemma username_moves cn l1 l2 sv g :
  serv_ok (g_next g) sv -> shared_ok g -> counters_ok g -> sv_conn_list sv = l1 ++ cn :: l2 ->
  moves 0 sv g (set_conn sv (with_username cn)) g.
Proof.
  intros S G C E. pose proof S as []. pose proof C as (C1 & C2 & C3 & C4).
  assert (Kc : conn_ok (g_next g) cn) by (rewrite E, Forall_app, Forall_cons in ok_conns0; tauto).
  apply (moves_set_conn sv g l1 cn l2); cbn; auto; rewrite ?Z.sub_diag, ?Z.add_0_r; auto.
Qed.

(** ** The life of a server *)
Lemma with_life_moves sv g a b c :
  serv_ok (g_next g) sv -> shared_ok g -> counters_ok g -> moves 0 sv g (with_life sv a b c (sv_freed sv)) g.
Proof. intros S G C. destruct (moves_refl sv g S G C). constructor; auto. destruct S. now constructor. Qed.

Lemma no_conns sv g : serv_ok (g_next g) sv -> n_conns sv < 2 ^ 32 -> sv_conn_cnt sv = 0 -> sv_conn_list sv = [].
Proof. intros [] L Z0. unfold n_conns in L. rewrite ok_conn_cnt0, u32_small in Z0 by lia. apply length_zero_iff_nil. lia. Qed.

Lemma pppoe_server_free_moves sv g :
  serv_ok (g_next g) sv -> shared_ok g -> counters_ok g -> sv_conn_list sv = [] ->
  ends 0 (Ok (pppoe_server_free cf sv g)) sv g.
Proof.
  intros S G C E. pose proof C as (C1 & C2 & C3 & C4). destruct S. eapply ends_here; [reflexivity|].
  constructor; cbn; unfold n_pados, n_conns, count; cbn; rewrite ?Z.sub_diag, ?Z.add_0_r; auto; try lia.
  constructor; cbn; auto; constructor.
Qed.

Lemma stop_then_free_moves sv g :
  serv_ok (g_next g) sv -> shared_ok g -> counters_ok g -> sv_conn_list sv = [] -> ends 0 (Ok (stop_then_free cf sv g)) sv g.
Proof.
  intros S G C E. pose proof (with_life_moves sv g (sv_stopping sv) (sv_timer sv) false S G C) as M. unfold stop_then_free.
  destruct (pppoe_server_free_moves (pppoe_disc_stop sv) g) as (sv2 & g2 & o & E2 & M2); auto; [apply M|].
  apply ok_inj in E2. rewrite E2. eapply ends_here; [reflexivity|]. exact (moves_trans _ _ _ _ _ _ _ _ M M2).
Qed.

Lemma pppoe_serv_timeout_moves sv g :
  serv_ok (g_next g) sv -> shared_ok g -> counters_ok g -> n_conns sv < 2 ^ 32 -> ends 0 (Ok (pppoe_serv_timeout cf sv g)) sv g.
Proof.
  intros S G C L. unfold pppoe_serv_timeout. destruct (_ =? 0) eqn:E; zbool; cbn [negb].
  - apply stop_then_free_moves; eauto using no_conns.
  - eapply ends_here; [reflexivity | now apply moves_refl].
Qed.

Lemma pppoe_serv_start_timer_moves sv g :
  serv_ok (g_next g) sv -> shared_ok g -> counters_ok g -> n_conns sv < 2 ^ 32 -> ends 0 (Ok (pppoe_serv_start_timer cf sv g)) sv g.
Proof.
  intros S G C L. unfold pppoe_serv_start_timer. destruct (sv_conn_cnt sv =? 0) eqn:E; zbool; cbn [negb].
  - destruct (negb _); [eapply ends_here; [reflexivity | now apply with_life_moves]|]. apply stop_then_free_moves; eauto using no_conns.
  - eapply ends_here; [reflexivity | now apply moves_refl].
Qed.

Lemma serv_stop_moves calls sv g :
  serv_ok (g_next g) sv -> shared_ok g -> counters_ok g -> n_conns sv < 2 ^ 32 -> ends 0 (Ok (serv_stop cf calls sv g)) sv g.
Proof.
  intros S G C L. unfold serv_stop. destruct (sv_stopping sv); [eapply ends_here; [reflexivity | now apply moves_refl]|].
  pose proof (with_life_moves sv g true (sv_timer sv) false S G C) as M.
  set (sv1 := pppoe_disc_stop _). change (moves 0 sv g sv1 g) in M.
  destruct (sv_conn_cnt sv1 =? 0) eqn:E; zbool; [|eapply ends_here; [reflexivity | exact M]].
  destruct (pppoe_server_free_moves sv1 g) as (sv2 & g2 & o & E2 & M2); auto; [apply M | now apply (no_conns sv g)|].
  apply ok_inj in E2. rewrite E2. eapply ends_here; [reflexivity|]. exact (moves_trans _ _ _ _ _ _ _ _ M M2).
Qed.
End Moves.

Section CryptoMoves.
Variable md5 : list Z -> list Z.
Variables des_encrypt des_decrypt : list Z -> list Z -> list Z.
Hypothesis md5_length : forall m, length (md5 m) = 16%nat.
Hypothesis md5_ok : forall m, bytes_ok m -> bytes_ok (md5 m).
Hypothesis des_encrypt_ok : forall k b, bytes_ok b -> bytes_ok (des_encrypt k b).
Hypothesis des_decrypt_length : forall k b, length b = 8%nat -> length (des_decrypt k b) = 8%nat.
Context {cf : pppoe_conf} (Hcf : conf_wf cf).

Lemma fold4_ok b : bytes_ok b -> length b = 16%nat -> bytes_ok (fold4 b).
Proof.
  intros B L. unfold fold4. cbn [seq map]. repeat constructor; apply lxor_byte; try apply lxor_byte; try apply lxor_byte;
    apply bytes_ok_total; auto; lia.
Qed.

Lemma generate_cookie_bytes k sec timeout src hu rs :
  addr_ok src -> bytes_ok (k_hwaddr k) -> bytes_ok (k_secret k) -> opt_wf hu -> opt_wf rs ->
  exists c, generate_cookie md5 des_encrypt k sec timeout src hu rs = Ok c /\ bytes_ok c.
Proof.
  intros [La Ba] Bh Bs Wh Wr. unfold generate_cookie. rewrite session_key_ok by done. cbn [mbind res_bind].
  eexists. split; [reflexivity|]. repeat (apply ecb_bytes; [auto|]). rewrite !bytes_ok_app. split; [|split].
  - unfold client_digest. apply md5_ok. rewrite !bytes_ok_app. repeat split; auto. destruct rs; [exact Wr | constructor].
  - destruct hu as [t|]; [|repeat constructor; unfold byte_ok; lia]. apply fold4_ok; [|apply md5_length].
    apply md5_ok. rewrite bytes_ok_app. now split.
  - unfold le32. apply Forall_rev, be_encode_ok.
Qed.

Lemma check_cookie_total k sec src cookie rs :
  addr_ok src -> length cookie = COOKIE_LENGTH -> exists b, check_cookie md5 des_decrypt k sec src cookie rs = Ok b.
Proof.
  intros [La _] Lc. unfold check_cookie. rewrite session_key_ok by done. cbn [mbind res_bind].
  rewrite <- Lc, slice_whole. cbn [mbind res_bind]. set (u := ecb _ (ecb _ _)).
  assert (Lu : length u = 24%nat) by (repeat apply ecb_length; auto).
  rewrite !slice_ok by lia. cbn [mbind res_bind]. destruct (le32_read _ <? sec); now eexists.
Qed.

Lemma pppoe_send_PADO_ok e sv g addr hu rs sn mp :
  env_ok e -> addr_ok (k_hwaddr (sv_keys sv)) -> bytes_ok (k_secret (sv_keys sv)) -> addr_ok addr -> opt_wf hu -> opt_wf rs -> opt_wf sn ->
  exists c, generate_cookie md5 des_encrypt (sv_keys sv) (tv_sec (e_now e)) (conf_cookie_timeout cf) addr hu rs = Ok c /\
    pppoe_send_PADO md5 des_encrypt cf e sv g addr hu rs sn mp = Ok (counting count_PADO_sent g,
      [Send (disc_frame addr (k_hwaddr (sv_keys sv)) CODE_PADO 0
        (payload_of (PADO_tags (conf_ac_name cf) (conf_service_name cf) sn c hu rs mp)))]).
Proof.
  intros He Hh Hk Ha Wu Wr Ws. unfold pppoe_send_PADO.
  destruct (generate_cookie_bytes (sv_keys sv) (tv_sec (e_now e)) (conf_cookie_timeout cf) addr hu rs) as (c & -> & Bc); auto; [apply Hh|].
  exists c. split; [done|]. cbn [mbind res_bind]. rewrite build_PADO_frame by (apply He || apply Hh || apply Ha). cbn [mbind res_bind].
  rewrite log_packet_frame; [done|]. apply disc_frame_frame_ok; [done | done | now apply PADO_tags_wf].
Qed.

Lemma pado_timer_moves e i sv g :
  serv_ok (g_next g) sv -> shared_ok g -> counters_ok g -> env_ok e -> ends 0 (pado_timer md5 des_encrypt cf e i sv g) sv g.
Proof.
  intros S G C He. pose proof S as []. pose proof C as (C1 & C2 & C3 & C4). unfold pado_timer.
  destruct (sv_pado_list sv !! i) as [p|] eqn:E; [|eapply ends_here; [reflexivity | now apply moves_refl]].
  assert (Kp : pado_ok p) by (eapply Forall_lookup_1; eassumption). destruct Kp as (Ka & Ku & Kr & Ks).
  assert (M : moves 0 sv g (with_pados sv (delete i (sv_pado_list sv))) (counting (add_delayed (-1)) g)).
  { pose proof (length_delete (sv_pado_list sv) i ltac:(eauto)). pose proof (lookup_lt_Some _ _ _ E).
    constructor; cbn; unfold count, n_conns, n_pados; cbn; rewrite ?Z.sub_diag, ?Z.add_0_r; auto; try lia.
    - constructor; cbn; auto; [now apply Forall_delete | | intros F; destruct (ok_freed0 F) as [? X]; now rewrite X].
      rewrite delete_take_drop, map_app. rewrite <- (take_drop_middle _ _ _ E), map_app in ok_pado_addrs0. cbn [map] in ok_pado_addrs0.
      rewrite <- (Permutation_middle (map dp_addr (take i (sv_pado_list sv)))) in ok_pado_addrs0. now apply NoDup_cons in ok_pado_addrs0 as [_ ?].
    - f_equal. lia. }
  destruct (e_shutdown e); cbn [mbind res_bind mret res_ret]; [eapply ends_here; [reflexivity | exact M]|].
  destruct (pppoe_send_PADO_ok e sv g (dp_addr p) (dp_host_uniq p) (dp_relay_sid p) (dp_service_name p) (dp_ppp_max_payload p))
    as (c & _ & ->); auto. cbn [mbind res_bind mret res_ret]. eapply ends_here; [reflexivity|].
  destruct M. constructor; assumption.
Qed.

(** ** Packets *)
Lemma frame_fields pack :
  frame_ok pack ->
  (exists a, h_source pack = Ok a /\ addr_ok a) /\ (exists a, h_dest pack = Ok a /\ addr_ok a) /\
  (exists s, hdr_sid pack = Ok s) /\ (exists c, hdr_code pack = Ok c).
Proof.
  intros (B & L & _). unfold h_source, h_dest, hdr_sid, hdr_code, ETH_ALEN, ETH_HLEN, PPPOE_HDR, addr_ok in *.
  rewrite !slice_ok by lia. repeat split.
  - eexists. split; [reflexivity|]. split; [rewrite length_take, length_drop; unfold ETH_ALEN; lia | apply Forall_take, Forall_drop, B].
  - eexists. split; [reflexivity|]. split; [rewrite length_take, length_drop; unfold ETH_ALEN; lia | apply Forall_take, Forall_drop, B].
  - destruct (u_read_be16_total pack (14 + 2) B ltac:(lia)) as (v & -> & _). eauto.
  - destruct (lookup_lt_is_Some_2 pack (14 + 1)) as [c ->]; [lia|]. now exists c.
Qed.

Lemma parse_wf {step} pack st :
  frame_ok pack -> (forall s t, tags_wf s -> bytes_ok (tag_data t) -> tags_wf (step s t)) -> tags_wf st ->
  exists o, parse_tags step pack st = Ok o /\ match o with Some t => tags_wf t | None => True end.
Proof. intros (B & _ & len & E & L) H W. now apply (parse_tags_safe step tags_wf pack len). Qed.

Lemma offer_moves e addr t sv g :
  serv_ok (g_next g) sv -> shared_ok g -> counters_ok g -> env_ok e -> sv_freed sv = false -> addr_ok addr -> tags_wf t ->
  ends 0 (offer md5 des_encrypt cf e addr t sv g) sv g.
Proof.
  intros S G C He Fr Ha (Wu & Wr & Wc & Ws & Wt). pose proof S as []. pose proof C as (C1 & C2 & C3 & C4). unfold offer. cbv zeta.
  set (mp := if _ <? _ then _ else _). clearbody mp. destruct (negb _).
  - destruct (existsb _ _) eqn:Ex; [eapply ends_here; [reflexivity | now apply moves_refl]|].
    eapply ends_here; [reflexivity|].
    constructor; cbn; unfold count, n_conns, n_pados; cbn; rewrite ?length_app, ?Z.sub_diag, ?Z.add_0_r; cbn; auto; try lia.
    + constructor; cbn; auto; [rewrite Forall_app; split; [done|]; apply Forall_singleton; exact (conj Ha (conj Wu (conj Wr Ws))) | | congruence].
      rewrite map_app. apply NoDup_snoc; [done | now apply existsb_addr].
    + f_equal. lia.
  - destruct (pppoe_send_PADO_ok e sv g addr (t_host_uniq t) (t_relay_sid t) (t_service_name t) mp) as (c & _ & ->); auto.
    cbn [mbind res_bind mret res_ret]. eapply ends_here; [reflexivity|]. apply moves_packets. now apply moves_refl.
Qed.

Lemma pppoe_recv_PADI_moves e pack sv g :
  serv_ok (g_next g) sv -> shared_ok g -> counters_ok g -> env_ok e -> sv_freed sv = false -> frame_ok pack ->
  ends 0 (pppoe_recv_PADI md5 des_encrypt cf e pack sv g) sv g.
Proof.
  intros S G C He Fr Hp. unfold pppoe_recv_PADI. cbv zeta. set (g0 := counting count_PADI_recv g).
  assert (M0 : moves 0 sv g sv g0) by (apply moves_packets; now apply moves_refl).
  destruct (e_shutdown e || _); [eapply ends_here; [reflexivity | exact M0]|].
  destruct (over_sessions cf e); [eapply ends_here; [reflexivity | exact M0]|].
  destruct (frame_fields pack Hp) as ((a & Ea & Ha) & _ & (sid & Es) & _). rewrite Ea. cbn [mbind res_bind].
  pose proof (check_padi_limit_moves (cf := cf) e a sv g0 S G C) as M1.
  destruct (check_padi_limit cf e a sv g0) as [[sv1 g1] r] eqn:El. apply moves_from_packets in M1.
  destruct r.
  { destruct (conf_verbose cf && _); (eapply ends_here; [reflexivity|]); apply moves_packets; [|exact M1].
    destruct M1. constructor; auto. destruct mv_serv0. now constructor. }
  rewrite Es. cbn [mbind res_bind]. destruct (negb (sid =? 0)); [eapply ends_here; [reflexivity | exact M1]|].
  destruct (parse_wf (step := padi_tag cf) pack (tags0 (bool_decide (conf_service_name cf = []))) Hp) as (o & -> & Wo);
    [intros; now apply padi_tag_wf | apply tags0_wf|].
  cbn [mbind res_bind]. destruct o as [t|]; [|eapply ends_here; [reflexivity | exact M1]].
  rewrite log_packet_frame by done. cbn [mbind res_bind].
  destruct (negb _ && _); [eapply ends_here; [reflexivity | exact M1]|].
  eapply (ends_after 0 0 _ _ _ _ _ M1). apply offer_moves; auto; try apply M1; [now apply moves_counters in M1|].
  unfold check_padi_limit in El. repeat case_match; simplify_eq; done.
Qed.

Lemma answer_PADR_moves e addr t cookie sv g :
  serv_ok (g_next g) sv -> shared_ok g -> counters_ok g -> env_ok e -> sv_freed sv = false -> addr_ok addr -> tags_wf t ->
  length cookie = COOKIE_LENGTH -> ends 1 (answer_PADR cf e addr t cookie sv g) sv g.
Proof.
  intros S G C He Fr Ha Wt Lc. pose proof S as []. unfold answer_PADR, find_channel. pose proof (moves_refl sv g S G C) as M.
  assert (M1 : moves 1 sv g sv g) by (eapply moves_le; [|exact M]; lia).
  rewrite slice_ok by (rewrite Lc; unfold COOKIE_LENGTH; lia). cbn [mbind res_bind mret res_ret].
  destruct (List.find _ _) as [cn|] eqn:F.
  - destruct (cn_username cn); [eapply ends_here; [reflexivity | exact M1]|].
    apply find_split in F as (l1 & l2 & E & _). rewrite E, Forall_app, Forall_cons in ok_conns0.
    rewrite (send_PADS_ok Hcf e sv _ cn (g_next g)) by (done || apply ok_conns0). cbn [mbind res_bind mret res_ret].
    eapply ends_here; [reflexivity|]. now do 2 apply moves_packets.
  - destruct (allocate_channel_moves (cf := cf) e addr t cookie sv g) as (sv1 & g1 & r & -> & M2 & Ek & Kr); auto.
    cbn [mbind res_bind]. destruct r as [cn|].
    + rewrite (send_PADS_ok Hcf e sv1 _ cn (g_next g1)) by (done || (rewrite Ek; apply ok_hwaddr0)). cbn [mbind res_bind mret res_ret].
      eapply ends_here; [reflexivity|]. now apply moves_packets.
    + destruct (send_err_ok Hcf e sv1 addr t CODE_PADS TAG_AC_SYSTEM_ERROR) as (f & ->); auto; [rewrite Ek; apply ok_hwaddr0|].
      cbn [mbind res_bind mret res_ret]. eapply ends_here; [reflexivity | exact M2].
Qed.

Lemma pppoe_recv_PADR_moves e pack sv g :
  serv_ok (g_next g) sv -> shared_ok g -> counters_ok g -> env_ok e -> sv_freed sv = false -> frame_ok pack ->
  ends 1 (pppoe_recv_PADR md5 des_decrypt cf e pack sv g) sv g.
Proof.
  intros S G C He Fr Hp. unfold pppoe_recv_PADR. cbv zeta. set (g0 := counting count_PADR_recv g).
  assert (M0 : moves 0 sv g sv g0) by (apply moves_packets; now apply moves_refl).
  assert (Stop : forall o, ends 1 (mret (sv, g0, o)) sv g) by (intros o; apply (ends_le 0); [lia|]; eapply ends_here; [reflexivity | exact M0]).
  destruct (e_shutdown e); [apply Stop|]. destruct (over_sessions cf e); [apply Stop|].
  destruct (frame_fields pack Hp) as ((a & Ea & Ha) & (b & Eb & Hb) & (sid & Es) & _). rewrite Eb. cbn [mbind res_bind].
  destruct (bool_decide (b = bc_addr)); [apply Stop|]. rewrite Es. cbn [mbind res_bind]. destruct (negb (sid =? 0)); [apply Stop|].
  rewrite log_packet_frame by done. rewrite Ea. cbn [mbind res_bind].
  destruct (parse_wf (step := padr_tag cf) pack (tags0 false) Hp) as (o & -> & Wo); [intros; now apply padr_tag_wf | apply tags0_wf|].
  cbn [mbind res_bind]. destruct o as [t|]; [|apply Stop]. destruct (t_ac_cookie t) as [c|]; [|apply Stop].
  destruct (negb (t_service_name_count t =? 1)); [apply Stop|].
  destruct (length (tag_data c) =? COOKIE_LENGTH)%nat eqn:Lc; cbn [negb]; [|apply Stop]. apply Nat.eqb_eq in Lc.
  destruct (check_cookie_total (sv_keys sv) (tv_sec (e_now e)) a (tag_data c) (t_relay_sid t)) as (bad & ->); auto. cbn [mbind res_bind].
  destruct bad; [apply Stop|]. destruct (negb _ && _).
  - destruct (send_err_ok Hcf e sv a t CODE_PADS TAG_SERVICE_NAME_ERROR) as (f & ->); auto; [apply S|]. apply Stop.
  - eapply (ends_after 0 1 _ _ _ _ _ M0). now apply answer_PADR_moves.
Qed.

Lemma pppoe_recv_PADT_moves pack sv g :
  serv_ok (g_next g) sv -> shared_ok g -> counters_ok g -> frame_ok pack -> ends 0 (pppoe_recv_PADT cf pack sv g) sv g.
Proof.
  intros S G C Hp. unfold pppoe_recv_PADT.
  assert (Stop : forall o, ends 0 (mret (sv, g, o)) sv g) by (intros o; eapply ends_here; [reflexivity | now apply moves_refl]).
  destruct (frame_fields pack Hp) as ((a & Ea & Ha) & (b & Eb & Hb) & (sid & Es) & _). rewrite Es, Eb. cbn [mbind res_bind].
  destruct (bool_decide (b = bc_addr)); [apply Stop|]. rewrite log_packet_frame by done. rewrite Ea. cbn [mbind res_bind].
  destruct (List.find _ _); apply Stop.
Qed.

Lemma pppoe_serv_read_moves e pack sv g :
  serv_ok (g_next g) sv -> shared_ok g -> counters_ok g -> env_ok e -> sv_freed sv = false -> frame_ok pack ->
  ends 1 (pppoe_serv_read md5 des_encrypt des_decrypt cf e pack sv g) sv g.
Proof.
  intros S G C He Fr Hp. unfold pppoe_serv_read. destruct (frame_fields pack Hp) as (_ & _ & _ & (c & ->)). cbn [mbind res_bind].
  destruct (c =? CODE_PADI); [apply (ends_le 0); [lia | now apply pppoe_recv_PADI_moves]|].
  destruct (c =? CODE_PADR); [now apply pppoe_recv_PADR_moves|].
  destruct (c =? CODE_PADT); [apply (ends_le 0); [lia | now apply pppoe_recv_PADT_moves]|].
  apply (ends_le 0); [lia|]. eapply ends_here; [reflexivity | now apply moves_refl].
Qed.

(** ** Steps of the system *)
Lemma total_insert f l s sv sv' : l !! s = Some sv -> total f (<[s := sv']> l) = total f l + (f sv' - f sv).
Proof.
  revert s. induction l as [|x l IH]; intros [|s] E; try done.
  - injection E as ->. cbn. lia.
  - change (total f (x :: <[s := sv']> l) = total f (x :: l) + (f sv' - f sv)). cbn [total]. rewrite (IH s E). lia.
Qed.

Lemma total_le f g l : (forall sv, f sv <= g sv) -> total f l <= total g l.
Proof. intros H. induction l as [|x l IH]; cbn; [lia|]. specialize (H x). lia. Qed.

Lemma total_nonneg f l : (forall sv, 0 <= f sv) -> 0 <= total f l.
Proof. intros H. induction l as [|x l IH]; cbn; [lia | specialize (H x); lia]. Qed.

Lemma total_part f l s sv : (forall sv, 0 <= f sv) -> l !! s = Some sv -> 0 <= f sv <= total f l.
Proof.
  intros H. revert s. induction l as [|x l IH]; intros [|s] E; try done; cbn in E |- *.
  - injection E as ->. pose proof (H sv). pose proof (total_nonneg f l H). lia.
  - specialize (IH s E). pose proof (H x). lia.
Qed.

Lemma moves_system w s sv k sv' g' :
  system_ok w -> servs w !! s = Some sv -> moves k sv (sh w) sv' g' -> system_ok (mk_system (<[s := sv']> (servs w)) g').
Proof.
  intros [] E []. constructor; cbn [servs sh]; auto; rewrite ?(total_insert _ _ _ _ _ E).
  - apply Forall_insert; [|exact mv_serv0]. eapply Forall_impl; [exact sys_servs0|]. intros x. apply serv_ok_next. lia.
  - now rewrite mv_starting0, sys_starting0, u32_u32_add.
  - now rewrite mv_active0, sys_active0, u32_u32_add.
  - now rewrite mv_delayed0, sys_delayed0, u32_u32_add.
  - now rewrite mv_padi0, sys_padi0, u32_u32_add.
  - lia.
Qed.

Lemma system_counters w : system_ok w -> counters_ok (sh w).
Proof. intros []. unfold counters_ok. now rewrite sys_starting0, sys_active0, sys_delayed0, sys_padi0, !u32_idem. Qed.

Lemma system_small w :
  system_ok w -> Z.of_nat (g_next (sh w)) < INT_MAX ->
  0 <= st_active (g_stat (sh w)) < INT_MAX /\ forall s sv, servs w !! s = Some sv -> n_conns sv < 2 ^ 32.
Proof.
  intros [] L. unfold INT_MAX in *.
  assert (T : total (count cn_started) (servs w) <= total n_conns (servs w)).
  { apply total_le. intros sv. unfold count, count_in, n_conns. pose proof (filter_length_le cn_started (sv_conn_list sv)). lia. }
  assert (T0 : 0 <= total (count cn_started) (servs w)) by (apply total_nonneg; intros sv; apply Zle_0_nat).
  split.
  - rewrite sys_active0, u32_small; lia.
  - intros s sv E. pose proof (total_part n_conns (servs w) s sv (fun sv => Zle_0_nat _) E). lia.
Qed.

Definition steps (w : system) (r : res (system * list out)) : Prop :=
  exists w' o, r = Ok (w', o) /\ system_ok w' /\ (g_next (sh w') <= S (g_next (sh w)))%nat.

Lemma on_serv_steps w s f :
  system_ok w ->
  (forall sv, servs w !! s = Some sv -> sv_freed sv = false -> ends 1 (f sv (sh w)) sv (sh w)) -> steps w (on_serv s f w).
Proof.
  intros W H. unfold on_serv. destruct (servs w !! s) as [sv|] eqn:E; [|exists w, []; auto].
  destruct (sv_freed sv) eqn:F; [exists w, []; auto|].
  destruct (H sv eq_refl F) as (sv' & g' & o & -> & M). eexists _, _. split; [reflexivity|]. split; [eapply moves_system; eassumption|].
  apply M.
Qed.

Lemma on_conn_steps w s id f :
  system_ok w ->
  (forall sv cn l1 l2, servs w !! s = Some sv -> sv_conn_list sv = l1 ++ cn :: l2 ->
     List.find (fun c => (cn_id c =? id)%nat) (sv_conn_list sv) = Some cn -> ends 0 (f cn sv (sh w)) sv (sh w)) ->
  steps w (on_conn s id f w).
Proof.
  intros W H. unfold on_conn. destruct (servs w !! s) as [sv|] eqn:E; [|exists w, []; auto].
  destruct (List.find _ _) as [cn|] eqn:Fi; [|exists w, []; auto]. destruct (find_split _ _ _ Fi) as (l1 & l2 & El & _).
  destruct (sv_freed sv) eqn:F.
  { pose proof (Forall_lookup_1 _ _ _ _ (sys_servs _ W) E) as []. destruct (ok_freed0 F) as [X _]. rewrite El in X.
    destruct (app_cons_nil _ _ _ X). }
  destruct (H sv cn l1 l2 eq_refl El Fi) as (sv' & g' & o & -> & M). eexists _, _. split; [reflexivity|].
  split; [eapply moves_system; eassumption|]. destruct M. cbn [sh]. lia.
Qed.

Lemma disc_accept_frame pack :
  bytes_ok pack -> exists r, disc_accept cf pack = Ok r /\ (r = Some true -> frame_ok pack).
Proof.
  intros B. unfold disc_accept, h_source, hdr_length. unfold ETH_HLEN, PPPOE_HDR, ETH_ALEN.
  destruct (_ <? _) eqn:L; zbool; [now eexists|]. rewrite slice_ok by lia. cbn [mbind res_bind].
  set (src := take 6 (drop 6 pack)). assert (Ls : length src = 6%nat) by (unfold src; rewrite length_take, length_drop; lia).
  destruct (mac_filter_check cf src); [now eexists|]. destruct (bool_decide (src = bc_addr)); [now eexists|].
  destruct (lookup_lt_is_Some_2 src 0) as [s0 ->]; [lia|]. cbn [res_of_option mbind res_bind].
  destruct (negb _); [now eexists|]. destruct (u_read_be16_total pack (14 + 4) B ltac:(lia)) as (len & El & Rl). rewrite El. cbn [mbind res_bind].
  destruct (lookup_lt_is_Some_2 pack 14) as [vt ->]; [lia|]. cbn [res_of_option mbind res_bind].
  destruct (_ <? _) eqn:L2; zbool; [now eexists|]. destruct (negb _); [now eexists|]. destruct (negb _); [now eexists|].
  eexists. split; [reflexivity|]. intros _. split; [done|]. unfold ETH_HLEN, PPPOE_HDR. split; [lia|]. exists len. now split.
Qed.

Lemma pppoe_step_ok e i w :
  system_ok w -> env_ok e -> input_ok cf i -> well_timed w i -> Z.of_nat (g_next (sh w)) < INT_MAX ->
  steps w (pppoe_step md5 des_encrypt des_decrypt cf e i w).
Proof.
  intros W He Hi Ht L. destruct (system_small w W L) as [A Sm]. pose proof (system_counters w W) as C. pose proof (sys_shared _ W) as G.
  assert (S : forall s sv, servs w !! s = Some sv -> serv_ok (g_next (sh w)) sv)
    by (intros s sv E; exact (Forall_lookup_1 _ _ _ _ (sys_servs _ W) E)).
  destruct i; cbn [pppoe_step input_ok well_timed] in *.
  - destruct (disc_accept_frame pack Hi) as (r & -> & Hr). cbn [mbind res_bind]. destruct r as [[]|].
    + destruct (frame_fields pack (Hr eq_refl)) as (_ & (d & -> & _) & _). cbn [mbind res_bind].
      destruct (list_find _ _) as [[]|]; eexists _, _; (split; [reflexivity|]); auto.
    + eexists _, _. split; [reflexivity|]. auto.
    + eexists _, _. split; [reflexivity|]. split; [destruct W; now constructor | cbn; lia].
  - destruct Hi as [B Ac]. destruct (disc_accept_frame pack B) as (r & E & Hr). rewrite E in Ac. injection Ac as ->.
    apply on_serv_steps; [done|]. intros sv Es F. apply pppoe_serv_read_moves; eauto.
  - apply on_serv_steps; [done|]. intros sv Es F. apply (ends_le 0); [lia|]. apply pado_timer_moves; eauto.
  - apply on_conn_steps; [done|]. intros sv cn l1 l2 Es El Fi. destruct (Ht sv cn Es Fi). eapply connect_channel_moves; eauto.
  - apply on_conn_steps; [done|]. intros sv cn l1 l2 Es El Fi. eapply disconnect_moves; eauto.
  - apply on_conn_steps; [done|]. intros sv cn l1 l2 Es El Fi. eapply ppp_finished_moves; eauto.
  - apply on_conn_steps; [done|]. intros sv cn l1 l2 Es El Fi. eapply pppoe_conn_close_moves; eauto.
  - apply on_conn_steps; [done|]. intros sv cn l1 l2 Es El Fi. eapply ends_here; [reflexivity|]. eapply username_moves; eauto.
  - apply on_serv_steps; [done|]. intros sv Es F. apply (ends_le 0); [lia|]. apply serv_stop_moves; eauto.
  - apply on_serv_steps; [done|]. intros sv Es F. apply (ends_le 0); [lia|]. apply serv_stop_moves; eauto.
  - apply on_serv_steps; [done|]. intros sv Es F. apply (ends_le 0); [lia|]. apply pppoe_serv_timeout_moves; eauto.
  - apply on_serv_steps; [done|]. intros sv Es F. apply (ends_le 0); [lia|]. apply pppoe_serv_start_timer_moves; eauto.
  - apply on_serv_steps; [done|]. intros sv Es F. apply (ends_le 0); [lia|]. apply pppoe_server_free_moves; eauto.
Qed.

End CryptoMoves.

Lemma dpado0_wf : dpado_wf dpado0.
Proof. repeat split; done. Qed.

Lemma demo_serv_ok n : serv_ok n demo_serv.
Proof.
  constructor; try done; try (constructor; fail); try (cbn; lia).
  - split; [reflexivity | repeat constructor; lia].
  - repeat constructor; lia.
  - unfold IFNAMSIZ. cbn. lia.
Qed.


