(* ===== verification/PppoeHandshake.v ===== *)
(** * What the PPPoE server promises (accel-pppd/ctrl/pppoe/pppoe.c)

    Properties of the handlers of PppoeServ.v: a client that follows the protocol gets
    a session, one without a valid cookie gets nothing, PADIs are limited, and the end
    of a server that has one more packet to read. *)
From S2P Require Import Prelude Utils CString Connlimit PppoeSid PppoePacket PppoeDpado PppoeServ.

(** ** Vocabulary of the theorems *)

(** The packets of a client that asks for any service. *)
Definition padi_frame (addr : list Z) (hu : option pppoe_tag) : list Z :=
  disc_frame bc_addr addr CODE_PADI 0 (payload_of (mk_tag TAG_SERVICE_NAME [] :: opt_tag hu)).
Definition padr_frame (hwaddr addr cookie : list Z) (hu : option pppoe_tag) : list Z :=
  disc_frame hwaddr addr CODE_PADR 0 (payload_of (mk_tag TAG_SERVICE_NAME [] :: mk_tag TAG_AC_COOKIE cookie :: opt_tag hu)).

Definition client_host_uniq (hu : option pppoe_tag) : Prop :=
  match hu with
  | Some t => tag_type t = TAG_HOST_UNIQ /\ bytes_ok (tag_data t) /\ (length (tag_data t) <= 1000)%nat
  | None => True
  end.

(** The server takes new sessions. *)
Definition ready (cf : pppoe_conf) (e : env) : Prop := e_shutdown e = false /\ over_sessions cf e = false /\ env_ok e.

Definition accepts_blank (cf : pppoe_conf) : Prop :=
  conf_service_name cf = [] \/ conf_accept_blank_service cf = true \/ conf_accept_any_service cf = true.

(** The session that a PADR of [padr_frame] gets, and the PADS for it. *)
Definition new_conn (cf : pppoe_conf) (sv : pppoe_serv_t) (id : nat) (sid : Z) (addr cookie : list Z) (hu : option pppoe_tag) : pppoe_conn_t :=
  mk_conn id sid addr false false None hu (mk_tag TAG_SERVICE_NAME []) None (take 20 cookie) (max_mtu_of (sv_mtu sv) 0)
    (called_station_id cf sv) (calling_station_id cf sv addr) [] (conf_ses cf) false.
Definition pads_frame (cf : pppoe_conf) (sv : pppoe_serv_t) (sid : Z) (addr : list Z) (hu : option pppoe_tag) : list Z :=
  disc_frame addr (k_hwaddr (sv_keys sv)) CODE_PADS sid
    (payload_of (PADS_tags (conf_ac_name cf) (mk_tag TAG_SERVICE_NAME []) hu None (max_mtu_of (sv_mtu sv) 0))).

(** [allocate_channel] with an identifier. *)
Definition with_new_conn (sv : pppoe_serv_t) (cn : pppoe_conn_t) : pppoe_serv_t :=
  let sv := with_conns sv (u32 (sv_conn_cnt sv + 1)) (sv_conn_list sv ++ [cn]) in
  with_life sv (sv_stopping sv) false (sv_listening sv) (sv_freed sv).

(** The PADIs that pass, in order, when one server gets them one after the other;
    what the servers share may be anything each time. *)
Fixpoint padi_passed (cf : pppoe_conf) (calls : list (env * list Z * shared)) (sv : pppoe_serv_t) (passed : list (timespec * list Z))
  : pppoe_serv_t * list (timespec * list Z) :=
  match calls with
  | [] => (sv, passed)
  | (e, addr, g) :: calls =>
      let '(sv, _, drop) := check_padi_limit cf e addr sv g in
      padi_passed cf calls sv (if drop then passed else passed ++ [(e_now e, addr)])
  end.

(** The clocks of the calls, which do not go back, up to [now]. *)
Fixpoint calls_until (t now : timespec) (calls : list (env * list Z * shared)) : Prop :=
  match calls with
  | [] => t = now
  | (e, _, _) :: calls => ts_ok (e_now e) /\ ts_le t (e_now e) /\ calls_until (e_now e) now calls
  end.

Definition recent (now : timespec) (p : timespec * list Z) : bool := ms_since now (fst p) <=? 1000.

(** A PADR without tags. *)
Definition demo_padr : list Z := demo_hwaddr ++ [2; 0; 0; 0; 0; 9; 136; 99; 17; 25; 0; 0; 0; 0].

(** A server with one session that stops while one more PADR waits to be read. *)
Definition race_client : list Z := [2; 0; 0; 0; 0; 9].
Definition race_conn : pppoe_conn_t := new_conn demo_conf demo_serv 0 1 [2; 0; 0; 0; 0; 8] (replicate 24 0) None.
Definition race_system : system :=
  mk_system [with_conns demo_serv 1 [race_conn]] (mk_shared sid_init (mk_stat 0 0 0 0 0 0 0 0 0 0) 0 dpado0 [] 1).
Definition race_padr : list Z :=
  match generate_cookie toy_md5 toy_des (sv_keys demo_serv) 10 5 race_client None None with
  | Ok c => padr_frame demo_hwaddr race_client c None
  | _ => []
  end.
Definition race : list (env * input) :=
  [(demo_env 11, ServStop 0); (demo_env 11, Disconnect 0 0); (demo_env 11, ServRead 0 race_padr); (demo_env 11, ServFree 0)].
Definition outs (r : res (system * list out)) : list out := match r with Ok (_, o) => o | _ => [] end.

(** ** Frames of a client *)
Lemma disc_frame_fields dst src code sid ts :
  addr_ok dst -> addr_ok src -> 0 <= sid < 65536 ->
  let f := disc_frame dst src code sid (payload_of ts) in
  h_dest f = Ok dst /\ h_source f = Ok src /\ hdr_sid f = Ok sid.
Proof.
  intros [Ld _] [Ls _] Rs f. unfold h_dest, h_source, hdr_sid, f, disc_frame. split; [|split].
  - rewrite <- Ld, slice_ok by (rewrite length_app; lia). now rewrite drop_0, take_app_length.
  - rewrite <- Ld at 1. rewrite <- (Nat.add_0_r (length dst)), slice_app_r, <- Ls, slice_ok by (rewrite length_app; lia).
    now rewrite drop_0, take_app_length.
  - set (pre := dst ++ src ++ be_encode 2 ETH_P_PPP_DISC ++ [17; u8 code]).
    assert (Lp : length pre = (ETH_HLEN + 2)%nat) by (unfold pre; rewrite !length_app, length_be_encode, Ld, Ls; reflexivity).
    replace (dst ++ _) with (pre ++ be_encode 2 sid ++ be_encode 2 (Z.of_nat (length (payload_of ts))) ++ payload_of ts)
      by (unfold pre; now rewrite <- !app_assoc).
    rewrite <- Lp. apply read_be16_app. lia.
Qed.

Lemma tag_ok_intro type data : 0 < type < 65536 -> Z.of_nat (length data) < 65536 -> tag_ok (mk_tag type data).
Proof. intros H L. now split. Qed.

Lemma client_tags_wf hu : client_host_uniq hu -> Forall tag_wf (opt_tag hu) /\ Forall tag_ok (opt_tag hu) /\
  (length (concat (map tag_bytes (opt_tag hu))) <= 1004)%nat.
Proof.
  destruct hu as [t|]; [|repeat split; [constructor | constructor | cbn; lia]]. intros (T & B & L). cbn [opt_tag map concat].
  rewrite app_nil_r, tag_bytes_length. unfold TAG_HDR. repeat split; [now apply Forall_singleton | | lia].
  apply Forall_singleton. split; [rewrite T; unfold TAG_HOST_UNIQ; lia | lia].
Qed.

(** What the loops find in the frames of the client. *)
Lemma padi_parsed cf addr hu :
  addr_ok addr -> client_host_uniq hu ->
  frame_ok (padi_frame addr hu) /\
  exists t, parse_tags (padi_tag cf) (padi_frame addr hu) (tags0 (bool_decide (conf_service_name cf = []))) = Ok (Some t) /\
    t_host_uniq t = hu /\ t_relay_sid t = None /\ t_ppp_max_payload t = 0 /\
    (conf_service_name cf = [] \/ conf_accept_blank_service cf = true -> t_service_match t = true) /\ tags_wf t.
Proof.
  intros Ha Hu. destruct (client_tags_wf hu Hu) as (W & O & L). unfold padi_frame.
  assert (Hb : addr_ok bc_addr) by (split; [reflexivity | repeat constructor; lia]).
  set (ts := mk_tag TAG_SERVICE_NAME [] :: opt_tag hu). split; [apply disc_frame_frame_ok; auto; constructor; [constructor | done]|].
  rewrite <- (app_nil_r (disc_frame _ _ _ _ _)), parse_tags_frame by (apply Hb || apply Ha || (constructor; [apply tag_ok_intro; [unfold TAG_SERVICE_NAME | cbn [length]]; lia | done])).
  rewrite fitting_all by (cbn [ts map concat]; rewrite length_app, tag_bytes_length; unfold TAG_HDR, ETH_HLEN, PPPOE_HDR, ETHER_MAX_LEN; cbn [length tag_data]; lia).
  eexists. split; [reflexivity|]. unfold ts. destruct hu as [[ty d]|]; [destruct Hu as (T & B & _); cbn in T, B; subst ty|];
    cbn [opt_tag foldl]; unfold padi_tag; cbn; destruct (conf_service_name cf), (conf_accept_blank_service cf); cbn; repeat split; auto; intuition congruence || exact (Forall_nil_2 _).
Qed.

Lemma padr_parsed cf hwaddr addr cookie hu :
  addr_ok hwaddr -> addr_ok addr -> client_host_uniq hu -> length cookie = COOKIE_LENGTH -> bytes_ok cookie ->
  frame_ok (padr_frame hwaddr addr cookie hu) /\
  parse_tags (padr_tag cf) (padr_frame hwaddr addr cookie hu) (tags0 false) =
    Ok (Some (mk_tags hu None (Some (mk_tag TAG_AC_COOKIE cookie)) (Some (mk_tag TAG_SERVICE_NAME [])) None true 1 0)).
Proof.
  intros Hh Ha Hu Lc Bc. destruct (client_tags_wf hu Hu) as (W & O & L). unfold padr_frame.
  set (ts := mk_tag TAG_SERVICE_NAME [] :: mk_tag TAG_AC_COOKIE cookie :: opt_tag hu).
  split; [apply disc_frame_frame_ok; auto; constructor; [constructor | now constructor]|].
  unfold COOKIE_LENGTH in Lc.
  rewrite <- (app_nil_r (disc_frame _ _ _ _ _)), parse_tags_frame
    by (apply Hh || apply Ha || (constructor; [|constructor; [|done]]; apply tag_ok_intro; unfold TAG_SERVICE_NAME, TAG_AC_COOKIE; cbn [length]; lia)).
  rewrite fitting_all by (cbn [ts map concat]; rewrite !length_app, !tag_bytes_length; unfold TAG_HDR, ETH_HLEN, PPPOE_HDR, ETHER_MAX_LEN; cbn [length tag_data]; lia).
  unfold ts. destruct hu as [[ty d]|]; [destruct Hu as (T & _); cbn in T; subst ty|];
    cbn [opt_tag foldl]; unfold padr_tag; cbn; reflexivity.
Qed.

Section Handshake.
Variable md5 : list Z -> list Z.
Variables des_encrypt des_decrypt : list Z -> list Z -> list Z.
Hypothesis md5_length : forall m, length (md5 m) = 16%nat.
Hypothesis md5_ok : forall m, bytes_ok m -> bytes_ok (md5 m).
Hypothesis des_encrypt_length : forall k b, length b = 8%nat -> length (des_encrypt k b) = 8%nat.
Hypothesis des_encrypt_ok : forall k b, bytes_ok b -> bytes_ok (des_encrypt k b).
Hypothesis des_decrypt_length : forall k b, length b = 8%nat -> length (des_decrypt k b) = 8%nat.
Hypothesis des_decrypt_encrypt : forall k b, length b = 8%nat -> des_decrypt k (des_encrypt k b) = b.
Context {cf : pppoe_conf} (Hcf : conf_wf cf).

Lemma check_padi_limit_keys e addr sv g sv' g' r :
  check_padi_limit cf e addr sv g = (sv', g', r) -> sv_keys sv' = sv_keys sv /\ sv_mtu sv' = sv_mtu sv /\ g_dpado g' = g_dpado g.
Proof. unfold check_padi_limit, check_connlimit. intros H. repeat case_match; simplify_eq; done. Qed.

(** The offer. *)
Lemma padi_offered e addr hu sv g sv1 g1 :
  ready cf e -> serv_ok (g_next g) sv -> addr_ok addr -> client_host_uniq hu -> accepts_blank cf -> 8 <= sv_mtu sv ->
  pado_delay (g_dpado g) = 0 -> check_padi_limit cf e addr sv (counting count_PADI_recv g) = (sv1, g1, false) ->
  exists cookie sn,
    generate_cookie md5 des_encrypt (sv_keys sv) (tv_sec (e_now e)) (conf_cookie_timeout cf) addr hu None = Ok cookie /\
    pppoe_recv_PADI md5 des_encrypt cf e (padi_frame addr hu) sv g = Ok (sv1, counting count_PADO_sent g1,
      [Send (disc_frame addr (k_hwaddr (sv_keys sv)) CODE_PADO 0
        (payload_of (PADO_tags (conf_ac_name cf) (conf_service_name cf) sn cookie hu None 0)))]).
Proof.
  intros (R1 & R2 & R3) S Ha Hu Ab Mt Dl Lm. destruct (padi_parsed cf addr hu Ha Hu) as (Fr & t & Pt & Th & Tr & Tp & Tm & Tw).
  assert (Hb : addr_ok bc_addr) by (split; [reflexivity | repeat constructor; lia]).
  destruct (disc_frame_fields bc_addr addr CODE_PADI 0 (mk_tag TAG_SERVICE_NAME [] :: opt_tag hu) Hb Ha ltac:(lia)) as (_ & Fs & Fi).
  fold (padi_frame addr hu) in Fs, Fi. destruct (check_padi_limit_keys _ _ _ _ _ _ _ Lm) as (Ek & Em & Ed).
  unfold pppoe_recv_PADI. cbv zeta. rewrite R1. change (g_dpado (counting count_PADI_recv g)) with (g_dpado g). rewrite Dl. cbn [orb Z.eqb].
  rewrite R2, Fs. cbn [mbind res_bind]. rewrite Lm, Fi. cbn [mbind res_bind Z.eqb negb]. rewrite Pt. cbn [mbind res_bind].
  rewrite log_packet_frame by done. cbn [mbind res_bind].
  assert (negb (t_service_match t) && negb (conf_accept_any_service cf) = false) as ->.
  { destruct Ab as [A|[A|A]]; [rewrite Tm by auto; done | rewrite Tm by auto; done | rewrite A; apply andb_false_r]. }
  unfold offer. rewrite Ed, Em. change (g_dpado (counting count_PADI_recv g)) with (g_dpado g). rewrite Dl, Tp. cbn [Z.eqb negb].
  destruct (sv_mtu sv - 8 <? 0) eqn:E; zbool; [lia|]. rewrite Th, Tr.
  destruct (pppoe_send_PADO_ok md5 des_encrypt md5_length md5_ok des_encrypt_ok Hcf e sv1 g1 addr hu None (t_service_name t) 0) as (c & Ec & ->);
    [done | rewrite Ek; apply S | rewrite Ek; apply S | done | rewrite <- Th; apply Tw | done | apply Tw|].
  rewrite Ek in Ec |- *. exists c, (t_service_name t). split; [exact Ec | reflexivity].
Qed.

(** The session: a PADR with a cookie that is accepted. *)
Lemma padr_answered e addr cookie hu sv g :
  ready cf e -> serv_ok (g_next g) sv -> addr_ok addr -> client_host_uniq hu -> k_hwaddr (sv_keys sv) <> bc_addr ->
  length cookie = COOKIE_LENGTH -> bytes_ok cookie ->
  check_cookie md5 des_decrypt (sv_keys sv) (tv_sec (e_now e)) addr cookie None = Ok false ->
  pppoe_recv_PADR md5 des_decrypt cf e (padr_frame (k_hwaddr (sv_keys sv)) addr cookie hu) sv g =
  answer_PADR cf e addr (mk_tags hu None (Some (mk_tag TAG_AC_COOKIE cookie)) (Some (mk_tag TAG_SERVICE_NAME [])) None true 1 0) cookie
    sv (counting count_PADR_recv g).
Proof.
  intros (R1 & R2 & R3) S Ha Hu Nb Lc Bc Ck. set (hw := k_hwaddr (sv_keys sv)) in *. assert (Hh : addr_ok hw) by apply S.
  destruct (padr_parsed cf hw addr cookie hu Hh Ha Hu Lc Bc) as (Fr & Pt).
  destruct (disc_frame_fields hw addr CODE_PADR 0 (mk_tag TAG_SERVICE_NAME [] :: mk_tag TAG_AC_COOKIE cookie :: opt_tag hu) Hh Ha ltac:(lia))
    as (Fd & Fs & Fi).
  fold (padr_frame hw addr cookie hu) in Fd, Fs, Fi. unfold pppoe_recv_PADR. cbv zeta.
  rewrite R1, R2, Fd. cbn [mbind res_bind]. rewrite bool_decide_false by done. rewrite Fi. cbn [mbind res_bind Z.eqb negb].
  rewrite log_packet_frame by done. rewrite Fs. cbn [mbind res_bind]. rewrite Pt. cbn [mbind res_bind t_ac_cookie t_service_name_count Z.eqb negb tag_data].
  rewrite Lc, Nat.eqb_refl. cbn [negb t_relay_sid]. rewrite Ck. cbn [mbind res_bind t_service_match negb andb]. reflexivity.
Qed.

Lemma find_app_none {A} (f : A -> bool) l x : List.find f l = None -> f x = true -> List.find f (l ++ [x]) = Some x.
Proof. induction l as [|y l IH]; cbn; [intros _ ->; done|]. destruct (f y); [done | exact IH]. Qed.

Lemma PADS_sent e sv sv' g cn sid addr cookie hu :
  env_ok e -> addr_ok (k_hwaddr (sv_keys sv)) -> sv_keys sv' = sv_keys sv -> (exists n, conn_ok n cn) -> (exists id, cn = new_conn cf sv id sid addr cookie hu) ->
  send_PADS cf e sv' g cn = Ok (counting count_PADS_sent g, [Send (pads_frame cf sv sid addr hu)]).
Proof. intros He Hh Ek (n & K) (id & ->). rewrite (send_PADS_ok Hcf e sv' g _ n); rewrite ?Ek; done. Qed.

Lemma allocate_new e addr ck cookie hu sv g sid sids :
  e_mem e = true -> sid_alloc (g_sids g) = Ok (sid, sids) -> sid <> 0 -> length cookie = COOKIE_LENGTH ->
  allocate_channel cf e addr (mk_tags hu None ck (Some (mk_tag TAG_SERVICE_NAME [])) None true 1 0) cookie sv g =
  Ok (with_new_conn sv (new_conn cf sv (g_next g) sid addr cookie hu), with_next (with_sids g sids) (S (g_next g)),
      Some (new_conn cf sv (g_next g) sid addr cookie hu)).
Proof.
  intros Me Al Ns Lc. unfold allocate_channel. rewrite Me, Al. cbn [negb mbind res_bind].
  destruct (Z.eqb_spec sid 0) as [E|_]; [lia|]. rewrite slice_ok by (rewrite Lc; unfold COOKIE_LENGTH; lia). reflexivity.
Qed.

(** C6. A client that follows the protocol gets its session: a PADI for any service is
    answered with an offer to the client with a cookie; the PADR with that cookie, until
    it runs out and whatever has happened to the server in between, makes exactly one
    new session, with the identifier that was allocated, which is announced to the client and
    connected; the same PADR once more makes no second session and repeats the PADS. *)
Theorem pppoe_handshake e1 addr hu sv g sv1 g1 :
  ready cf e1 -> serv_ok (g_next g) sv -> addr_ok addr -> client_host_uniq hu -> accepts_blank cf -> 8 <= sv_mtu sv ->
  k_hwaddr (sv_keys sv) <> bc_addr -> pado_delay (g_dpado g) = 0 ->
  check_padi_limit cf e1 addr sv (counting count_PADI_recv g) = (sv1, g1, false) ->
  0 <= tv_sec (e_now e1) + conf_cookie_timeout cf < 4294967296 ->
  exists cookie sn,
    pppoe_recv_PADI md5 des_encrypt cf e1 (padi_frame addr hu) sv g = Ok (sv1, counting count_PADO_sent g1,
      [Send (disc_frame addr (k_hwaddr (sv_keys sv)) CODE_PADO 0
        (payload_of (PADO_tags (conf_ac_name cf) (conf_service_name cf) sn cookie hu None 0)))]) /\
    forall e2 sv2 g2 sid sids,
      ready cf e2 -> e_mem e2 = true -> tv_sec (e_now e2) <= tv_sec (e_now e1) + conf_cookie_timeout cf ->
      serv_ok (g_next g2) sv2 -> shared_ok g2 -> counters_ok g2 -> sv_freed sv2 = false -> sv_keys sv2 = sv_keys sv ->
      find_channel sv2 cookie = Ok None -> sid_alloc (g_sids g2) = Ok (sid, sids) -> sid <> 0 ->
      let padr := padr_frame (k_hwaddr (sv_keys sv)) addr cookie hu in
      exists sv3 g3,
        pppoe_recv_PADR md5 des_decrypt cf e2 padr sv2 g2 =
          Ok (sv3, g3, [Send (pads_frame cf sv2 sid addr hu); CallConnect (g_next g2)]) /\
        sv_conn_list sv3 = sv_conn_list sv2 ++ [new_conn cf sv2 (g_next g2) sid addr cookie hu] /\
        forall e3, ready cf e3 -> tv_sec (e_now e3) <= tv_sec (e_now e1) + conf_cookie_timeout cf ->
          pppoe_recv_PADR md5 des_decrypt cf e3 padr sv3 g3 =
            Ok (sv3, counting count_PADS_sent (counting count_PADR_dup (counting count_PADR_recv g3)), [Send (pads_frame cf sv2 sid addr hu)]).
Proof.
  intros R S Ha Hu Ab Mt Nb Dl Lm Rt.
  destruct (padi_offered e1 addr hu sv g sv1 g1) as (cookie & sn & Gc & Ep); auto. exists cookie, sn. split; [exact Ep|].
  destruct (generated_cookie md5 des_encrypt des_decrypt md5_length des_encrypt_length des_decrypt_encrypt (sv_keys sv) addr None
    (tv_sec (e_now e1)) (conf_cookie_timeout cf) hu (proj1 Ha) Rt) as (c & Gc' & Lc & Ck).
  destruct (generate_cookie_bytes md5 des_encrypt md5_length md5_ok des_encrypt_ok (sv_keys sv) (tv_sec (e_now e1)) (conf_cookie_timeout cf) addr hu None)
    as (c' & Gc'' & Bc); [exact Ha | apply S | apply S | destruct hu; [apply Hu | done] | exact I |].
  rewrite Gc in Gc', Gc''. injection Gc' as <-. injection Gc'' as <-. clear Gc.
  intros e2 sv2 g2 sid sids R2 Me T2 S2 G2 C2 Fr Ek Nf Al Ns padr.
  assert (Ok2 : forall e g', ready cf e -> tv_sec (e_now e) <= tv_sec (e_now e1) + conf_cookie_timeout cf ->
    forall sv', sv_keys sv' = sv_keys sv -> serv_ok (g_next g') sv' ->
    pppoe_recv_PADR md5 des_decrypt cf e padr sv' g' =
    answer_PADR cf e addr (mk_tags hu None (Some (mk_tag TAG_AC_COOKIE cookie)) (Some (mk_tag TAG_SERVICE_NAME [])) None true 1 0) cookie
      sv' (counting count_PADR_recv g')).
  { intros e g' Re Te sv' Ek' S'. unfold padr. rewrite <- Ek'. apply padr_answered; auto; [now rewrite Ek'|]. rewrite Ek', Ck.
    destruct (_ <? _) eqn:E; zbool; [lia | done]. }
  rewrite (Ok2 e2 g2 R2 T2 sv2 Ek S2). set (tg := mk_tags _ _ _ _ _ _ _ _).
  assert (Wt : tags_wf tg) by (repeat split; [destruct hu; [apply Hu | done] | exact Bc | constructor]).
  destruct (allocate_channel_moves (cf := cf) e2 addr tg cookie sv2 (counting count_PADR_recv g2)) as (sv3 & g3 & r & Ea & M & Ek3 & Kr); auto.
  pose proof (allocate_new e2 addr (Some (mk_tag TAG_AC_COOKIE cookie)) cookie hu sv2 (counting count_PADR_recv g2) sid sids Me Al Ns Lc) as Ea'.
  fold tg in Ea'. rewrite Ea in Ea'. apply ok_inj in Ea'. injection Ea' as E3 Eg Er. rewrite Er in Kr.
  change (g_next (counting count_PADR_recv g2)) with (g_next g2) in *.
  set (cn := new_conn cf sv2 (g_next g2) sid addr cookie hu) in *.
  assert (Cn : exists id, cn = new_conn cf sv2 id sid addr cookie hu) by (now eexists).
  exists sv3, (counting count_PADS_sent g3). split; [|split].
  - unfold answer_PADR. rewrite Nf. cbn [mbind res_bind]. rewrite Ea, Er. cbn [mbind res_bind].
    rewrite (PADS_sent e2 sv2 sv3 g3 cn sid addr cookie hu); [reflexivity | apply R2 | apply S2 | done | eauto | exact Cn].
  - now rewrite E3.
  - intros e3 R3 T3. rewrite (Ok2 e3 _ R3 T3); [|now rewrite Ek3 | apply M]. fold tg. unfold answer_PADR.
    assert (find_channel sv3 cookie = Ok (Some cn)) as ->.
    { unfold find_channel in *. rewrite slice_ok in * by (rewrite Lc; unfold COOKIE_LENGTH; lia). cbn [mbind res_bind mret res_ret] in *.
      apply ok_inj in Nf. rewrite E3. f_equal. apply find_app_none; [exact Nf | now apply bool_decide_eq_true]. }
    cbn [mbind res_bind]. rewrite (PADS_sent e3 sv2 sv3 _ cn sid addr cookie hu); [reflexivity | apply R3 | apply S2 | done | | exact Cn].
    exists (g_next g3). exact Kr.
Qed.
End Handshake.

(** ** No cookie, no session *)
Section Cookie.
Variable md5 : list Z -> list Z.
Variables des_decrypt : list Z -> list Z -> list Z.
Hypothesis des_decrypt_length : forall k b, length b = 8%nat -> length (des_decrypt k b) = 8%nat.

(** A PADR without a cookie that [check_cookie] accepts for its sender at that time
    leaves the server and all that the servers share as they were, but for the count of PADRs,
    and is not answered. *)
Theorem pppoe_padr_needs_cookie cf e pack sv g :
  frame_ok pack ->
  (forall t c src, parse_tags (padr_tag cf) pack (tags0 false) = Ok (Some t) -> t_ac_cookie t = Some c -> h_source pack = Ok src ->
     length (tag_data c) = COOKIE_LENGTH ->
     check_cookie md5 des_decrypt (sv_keys sv) (tv_sec (e_now e)) src (tag_data c) (t_relay_sid t) <> Ok false) ->
  pppoe_recv_PADR md5 des_decrypt cf e pack sv g = Ok (sv, counting count_PADR_recv g, []).
Proof.
  intros Hp No. unfold pppoe_recv_PADR. cbv zeta. destruct (e_shutdown e); [done|]. destruct (over_sessions cf e); [done|].
  destruct (frame_fields pack Hp) as ((a & Ea & Ha) & (b & Eb & Hb) & (sid & Es) & _). rewrite Eb. cbn [mbind res_bind].
  destruct (bool_decide (b = bc_addr)); [done|]. rewrite Es. cbn [mbind res_bind]. destruct (negb (sid =? 0)); [done|].
  rewrite log_packet_frame by done. rewrite Ea. cbn [mbind res_bind].
  destruct (parse_wf (step := padr_tag cf) pack (tags0 false) Hp) as (o & Eo & Wo); [intros; now apply padr_tag_wf | apply tags0_wf|].
  rewrite Eo. cbn [mbind res_bind]. destruct o as [t|]; [|done]. destruct (t_ac_cookie t) as [c|] eqn:Ec; [|done].
  destruct (negb (t_service_name_count t =? 1)); [done|].
  destruct (length (tag_data c) =? COOKIE_LENGTH)%nat eqn:Lc; cbn [negb]; [|done]. apply Nat.eqb_eq in Lc.
  destruct (check_cookie_total md5 des_decrypt des_decrypt_length (sv_keys sv) (tv_sec (e_now e)) a (tag_data c) (t_relay_sid t)) as (bad & Ek); auto.
  rewrite Ek. cbn [mbind res_bind]. destruct bad; [done|]. destruct (No t c a Eo Ec Ea Lc Ek).
Qed.
End Cookie.

(** ** The limit of PADIs *)

(** The list of the server is the end of what was taken; what is gone is old. *)
Definition padis_of (now : timespec) (taken : list padi_t) (sv : pppoe_serv_t) : Prop :=
  exists old, taken = old ++ sv_padi_list sv /\ Forall (fun p => 1000 < ms_since now (padi_ts p)) old /\
    Forall (fun p => ts_ok (padi_ts p)) taken.

Lemma expire_padis_split now l : exists old, l = old ++ expire_padis now l /\ Forall (fun p => 1000 < ms_since now (padi_ts p)) old.
Proof.
  induction l as [|p l (old & E & F)]; [now exists []|]. cbn [expire_padis]. destruct (1000 <? _) eqn:D; zbool; [|now exists []].
  exists (p :: old). cbn [app]. split; [now rewrite <- E | now constructor].
Qed.

Definition padis_ok (sv : pppoe_serv_t) : Prop :=
  base.NoDup (map padi_addr (sv_padi_list sv)) /\ sv_padi_cnt sv = Z.of_nat (length (sv_padi_list sv)) /\ sv_padi_cnt sv <= sv_padi_limit sv.

Lemma check_padi_limit_taken cf e addr sv g sv' g' drop t taken :
  sv_padi_limit sv <> 0 -> padis_ok sv -> padis_of t taken sv -> ts_ok t -> ts_ok (e_now e) -> ts_le t (e_now e) ->
  check_padi_limit cf e addr sv g = (sv', g', drop) ->
  sv_padi_limit sv' = sv_padi_limit sv /\ padis_ok sv' /\
  exists taken', padis_of (e_now e) taken' sv' /\
    ((taken' = taken /\ drop = true) \/ taken' = taken ++ [mk_padi (e_now e) addr]).
Proof.
  intros Nz (Nd & Ec & Le) (old & Et & Fo & Ft) O1 O2 L H. unfold check_padi_limit in H.
  destruct (sv_padi_limit sv =? 0) eqn:E0; zbool; [lia|].
  destruct (expire_padis_split (e_now e) (sv_padi_list sv)) as (gone & Eg & Fg).
  set (l := expire_padis (e_now e) (sv_padi_list sv)) in *.
  assert (P1 : taken = (old ++ gone) ++ l) by (now rewrite <- app_assoc, <- Eg).
  assert (Nl : base.NoDup (map padi_addr l)) by (rewrite Eg, map_app in Nd; now apply NoDup_app in Nd as (_ & _ & ?)).
  assert (Ll : (length l <= length (sv_padi_list sv))%nat) by (rewrite Eg, length_app; lia).
  assert (F1 : Forall (fun p => 1000 < ms_since (e_now e) (padi_ts p)) (old ++ gone)).
  { rewrite Forall_app. split; [|done]. rewrite Et, Forall_app in Ft. apply Forall_forall. intros p Hp.
    pose proof (proj1 (Forall_forall _ _) Fo p Hp) as D. pose proof (proj1 (Forall_forall _ _) (proj1 Ft) p Hp) as Op.
    cbn in D, Op. pose proof (ms_since_mono t (e_now e) (padi_ts p) O1 O2 Op L). lia. }
  clearbody l. clear Et Eg. subst taken.
  assert (Q : forall g2 r, let sv2 := with_padis sv l (sv_padi_cnt sv - (Z.of_nat (length (sv_padi_list sv)) - Z.of_nat (length l))) in
    (sv2, g2, true) = (sv', g', r) -> sv_padi_limit sv' = sv_padi_limit sv /\ padis_ok sv' /\
    exists taken', padis_of (e_now e) taken' sv' /\ ((taken' = (old ++ gone) ++ l /\ r = true) \/ taken' = ((old ++ gone) ++ l) ++ [mk_padi (e_now e) addr])).
  { intros g2 r sv2 [= <- <- <-]. split; [done|]. split; [repeat split; cbn; auto; lia|].
    eexists. split; [exists (old ++ gone); cbn; eauto | now left]. }
  cbv zeta in H, Q. destruct (_ =? sv_padi_limit _) eqn:El; [exact (Q _ _ H)|]. destruct (negb _ && _); [exact (Q _ _ H)|].
  destruct (existsb _ l) eqn:Ex; [exact (Q _ _ H)|]. destruct (negb (e_mem e)); [exact (Q _ _ H)|]. clear Q.
  cbn [with_padis sv_padi_cnt sv_padi_limit] in *. zbool. destruct (check_connlimit _ _ _ _) as [g3 r]. simplify_eq. cbn.
  split; [done|]. split.
  - unfold padis_ok. cbn. rewrite map_app, length_app. cbn. split; [apply NoDup_snoc; [done | now apply existsb_addr] | lia].
  - eexists. split; [|right; reflexivity]. exists (old ++ gone). cbn. rewrite <- app_assoc. split; [done|]. split; [done|].
    rewrite app_assoc, Forall_app. split; [done | now apply Forall_singleton].
Qed.

Lemma sublist_map_filter {A} (f : A -> bool) l k : l `sublist_of` k -> List.filter f l `sublist_of` List.filter f k.
Proof. induction 1; cbn; [constructor | destruct (f x); [now constructor | done] | destruct (f x); [now constructor | done]]. Qed.

Definition padi_pair (p : padi_t) : timespec * list Z := (padi_ts p, padi_addr p).

Lemma padi_passed_ok cf calls t now sv passed taken :
  sv_padi_limit sv <> 0 -> padis_ok sv -> padis_of t taken sv -> ts_ok t -> calls_until t now calls ->
  passed `sublist_of` map padi_pair taken ->
  let '(sv', passed') := padi_passed cf calls sv passed in
  exists taken', sv_padi_limit sv' = sv_padi_limit sv /\ padis_ok sv' /\ padis_of now taken' sv' /\ passed' `sublist_of` map padi_pair taken'.
Proof.
  revert t sv passed taken. induction calls as [|[[e addr] g] calls IH]; intros t sv passed taken Nz Ok Of Ot Cu Su; cbn [padi_passed calls_until] in *.
  - subst now. now exists taken.
  - destruct Cu as (Oe & Le & Cu). destruct (check_padi_limit cf e addr sv g) as [[sv' g'] drop] eqn:E.
    destruct (check_padi_limit_taken _ _ _ _ _ _ _ _ _ _ Nz Ok Of Ot Oe Le E) as (El & Ok' & taken' & Of' & D).
    assert (S' : (if drop then passed else passed ++ [(e_now e, addr)]) `sublist_of` map padi_pair taken').
    { destruct D as [[-> ->]| ->]; [exact Su|]. rewrite map_app. destruct drop; [now apply sublist_inserts_r | now apply sublist_app]. }
    specialize (IH (e_now e) sv' _ taken' ltac:(congruence) Ok' Of' Oe Cu S').
    destruct (padi_passed cf calls sv' _) as [sv2 p2]. destruct IH as (tk & A & B & C & D'). exists tk. rewrite <- El. auto.
Qed.

(** However many PADIs arrive, a server whose limit is not zero answers at most
    that many of any second, and one of each client: of the PADIs that have passed
    when one is looked at, those not older than 1000 ms are no more than the limit
    and from different addresses. *)
Theorem pppoe_padi_rate cf calls t now sv :
  sv_padi_limit sv > 0 -> sv_padi_list sv = [] -> sv_padi_cnt sv = 0 -> ts_ok t -> calls_until t now calls ->
  let passed := snd (padi_passed cf calls sv []) in
  Z.of_nat (length (List.filter (recent now) passed)) <= sv_padi_limit sv /\
  base.NoDup (map snd (List.filter (recent now) passed)).
Proof.
  intros Lp El Ec Ot Cu passed.
  assert (Ok : padis_ok sv) by (unfold padis_ok; rewrite El, Ec; cbn; split; [constructor | lia]).
  assert (Of : padis_of t [] sv) by (exists []; rewrite El; repeat split; constructor).
  pose proof (padi_passed_ok cf calls t now sv [] [] ltac:(lia) Ok Of Ot Cu (sublist_nil_l _)) as H.
  unfold passed. destruct (padi_passed cf calls sv []) as [sv' p]. destruct H as (taken & E' & (Nd & Ec' & Le) & (old & -> & Fo & _) & Su). cbn [snd].
  assert (S1 : List.filter (recent now) p `sublist_of` map padi_pair (sv_padi_list sv')).
  { apply (sublist_map_filter (recent now)) in Su. rewrite map_app, List.filter_app in Su.
    assert (List.filter (recent now) (map padi_pair old) = []) as X.
    { clear - Fo. induction Fo as [|x l Hx Hl IH]; [done|]. cbn. unfold recent at 1. cbn. destruct (_ <=? _) eqn:D; zbool; [lia | exact IH]. }
    rewrite X in Su. cbn [app] in Su. etransitivity; [exact Su|]. clear. induction (map padi_pair (sv_padi_list sv')) as [|x l IH]; cbn; [constructor|].
    destruct (recent now x); now constructor. }
  split.
  - apply sublist_length in S1. rewrite length_map in S1. lia.
  - apply (fmap_sublist snd) in S1. refine (sublist_NoDup _ _ _ S1). clear - Nd.
    change (base.NoDup (map snd (map padi_pair (sv_padi_list sv')))). rewrite map_map. exact Nd.
Qed.

Lemma pppoe_padi_rate_witness :
  let sv := with_padis (mk_serv (sv_keys demo_serv) [101] 2 1500 0 [] [] [] 0 1 0 false false false true false) [] 0 in
  let passed := snd (padi_passed demo_conf [(demo_env 10, demo_hwaddr, demo_shared); (demo_env 11, [2;0;0;0;0;9], demo_shared)] sv []) in
  Z.of_nat (length (List.filter (recent (mk_ts 11 0)) passed)) <= 1 /\ base.NoDup (map snd (List.filter (recent (mk_ts 11 0)) passed)).
Proof.
  intros sv passed.
  apply (pppoe_padi_rate demo_conf [(demo_env 10, demo_hwaddr, demo_shared); (demo_env 11, [2;0;0;0;0;9], demo_shared)] (mk_ts 0 0) (mk_ts 11 0) sv).
  - reflexivity.
  - reflexivity.
  - reflexivity.
  - unfold ts_ok. cbn. lia.
  - cbn. unfold ts_ok, ts_le. cbn. do 4 (split; [lia|]). reflexivity.
Defined.

Lemma pppoe_padr_needs_cookie_witness :
  pppoe_recv_PADR toy_md5 toy_des demo_conf (demo_env 10) demo_padr demo_serv demo_shared =
  Ok (demo_serv, counting count_PADR_recv demo_shared, []).
Proof.
  apply (pppoe_padr_needs_cookie toy_md5 toy_des).
  - intros k b L. unfold toy_des. now rewrite length_rev.
  - split; [repeat constructor; lia|]. split; [unfold ETH_HLEN, PPPOE_HDR; cbn; lia|]. exists 0. now split.
  - intros t c src E Ec. assert (X : parse_tags (padr_tag demo_conf) demo_padr (tags0 false) = Ok (Some (tags0 false))) by reflexivity.
    rewrite X in E. injection E as <-. done.
Defined.

Lemma pppoe_handshake_witness :
  exists cookie sn,
    pppoe_recv_PADI toy_md5 toy_des demo_conf (demo_env 10) (padi_frame [2;0;0;0;0;9] None) demo_serv demo_shared =
      Ok (demo_serv, counting count_PADO_sent (counting count_PADI_recv demo_shared),
      [Send (disc_frame [2;0;0;0;0;9] demo_hwaddr CODE_PADO 0 (payload_of (PADO_tags [97; 99] [] sn cookie None None 0)))]) /\
    forall e2 sv2 g2 sid sids,
      ready demo_conf e2 -> e_mem e2 = true -> tv_sec (e_now e2) <= 10 + 5 ->
      serv_ok (g_next g2) sv2 -> shared_ok g2 -> counters_ok g2 -> sv_freed sv2 = false -> sv_keys sv2 = sv_keys demo_serv ->
      find_channel sv2 cookie = Ok None -> sid_alloc (g_sids g2) = Ok (sid, sids) -> sid <> 0 ->
      let padr := padr_frame demo_hwaddr [2;0;0;0;0;9] cookie None in
      exists sv3 g3,
        pppoe_recv_PADR toy_md5 toy_des demo_conf e2 padr sv2 g2 =
          Ok (sv3, g3, [Send (pads_frame demo_conf sv2 sid [2;0;0;0;0;9] None); CallConnect (g_next g2)]) /\
        sv_conn_list sv3 = sv_conn_list sv2 ++ [new_conn demo_conf sv2 (g_next g2) sid [2;0;0;0;0;9] cookie None] /\
        forall e3, ready demo_conf e3 -> tv_sec (e_now e3) <= 10 + 5 ->
          pppoe_recv_PADR toy_md5 toy_des demo_conf e3 padr sv3 g3 =
            Ok (sv3, counting count_PADS_sent (counting count_PADR_dup (counting count_PADR_recv g3)), [Send (pads_frame demo_conf sv2 sid [2;0;0;0;0;9] None)]).
Proof.
  apply (pppoe_handshake toy_md5 toy_des toy_des) with (cf := demo_conf) (e1 := demo_env 10) (addr := [2;0;0;0;0;9]) (hu := None) (sv := demo_serv).
  - intros m. apply length_be_encode.
  - intros m _. apply be_encode_ok.
  - intros k b L. unfold toy_des. now rewrite length_rev.
  - intros k b Hb. now apply Forall_rev.
  - intros k b L. apply rev_involutive.
  - split; [repeat constructor; lia | exact (Forall_nil_2 _)].
  - split; [reflexivity|]. split; [reflexivity | apply length_replicate].
  - apply demo_serv_ok.
  - split; [reflexivity | repeat constructor; lia].
  - exact I.
  - now left.
  - cbn. lia.
  - done.
  - reflexivity.
  - reflexivity.
  - cbn. lia.
Defined.

(** A server that stops is freed by a call that the end of its last session makes.
    If a PADR waits in front of that call, it still makes a session, and the server is
    freed under it: the connection of the session then uses freed memory. *)
Theorem pppoe_free_race :
  In CallServerFree (outs (pppoe_run toy_md5 toy_des toy_des demo_conf (take 2 race) race_system)) /\
  In (CallConnect 1) (outs (pppoe_run toy_md5 toy_des toy_des demo_conf race race_system)) /\
  pppoe_run toy_md5 toy_des toy_des demo_conf (race ++ [(demo_env 11, Connect 0 1 Connected)]) race_system = Oob.
Proof. split; [cbv; auto 20|]. split; [cbv; auto 20 | reflexivity]. Qed.

