(* ===== verification/PppAuth.v ===== *)
(** * The authentication phase of PPP (accel-pppd/ppp/ppp_auth.c, pwdb.c, session.c)

    The password databases, the part of a session that authentication acts on, the
    authentication layer, and what a protocol (PAP, CHAP, MS-CHAP) owes to it: the
    class [SoundProto], against which it is proved that the network layers start
    only for a peer that a protocol has accepted, that a session that ends is silent,
    and that no string is freed twice.

    C strings are lists of bytes without the final 0.  [ppp_auth_succeeded] makes a call
    of [__ppp_auth_started] pending in the context of the session.  [ap_session_terminate]
    finishes the layer before it returns; what the handlers do after it touches nothing that
    [finish] does, so the layer is finished at the end of the step here.  The end of a
    session also takes back a check that waits (ses_finishing in radius.c): there is a result
    only for a protocol that waits for one. *)
From stdpp Require Import strings.
From S2P Require Import Prelude CString.

Definition PPP_PAP : Z := 0xc023.
Definition PPP_CHAP : Z := 0xc223.
Definition PWDB_SUCCESS : Z := 0.
Definition PWDB_DENIED : Z := 1.
Definition PWDB_WAIT : Z := 2.
Definition PWDB_NO_IMPL : Z := 3.
Definition TERM_USER_ERROR : Z := 4.
Definition TERM_AUTH_ERROR : Z := 8.
Definition PPP_BUF_SIZE : Z := 8192.

(** The bytes of a string of the source. *)
Definition str_bytes (s : string) : list Z := (fun a => Z.of_nat (nat_of_ascii a)) <$> String.list_ascii_of_string s.

(** A pointer to a string on the heap. *)
Inductive str_ptr : Type :=
| SNull
| SLive (s : list Z)
| SDangling.

Definition is_null (p : str_ptr) : bool := match p with SNull => true | _ => false end.
Definition str_at (p : str_ptr) : res (list Z) := match p with SLive s => mret s | _ => Oob end.

(** [if (p) _free(p);], which leaves the pointer *)
Definition free_str (p : str_ptr) : res str_ptr :=
  match p with SNull => mret SNull | SLive _ => mret SDangling | SDangling => Oob end.

(** [strndup(buf + off, n)] *)
Fixpoint strn (n : nat) (l : list Z) : option (list Z) :=
  match n, l with
  | O, _ => Some []
  | S _, [] => None
  | S n', c :: l' => if c =? 0 then Some [] else r ← strn n' l'; Some (c :: r)
  end.

(** [n] is a size_t; more than what is in the buffer is as much as that and one more. *)
Definition strndup (buf : list Z) (off n : Z) : res (list Z) :=
  res_of_option (strn (Z.to_nat (Z.min n (Z.of_nat (length buf) + 1))) (drop (Z.to_nat off) buf)).

Definition byte_at (buf : list Z) (off : Z) : res Z := res_of_option (buf !! Z.to_nat off).

(** ** Configuration *)

(** The section "auth", of which each protocol reads a part. *)
Record auth_conf : Type := mk_aconf {
  conf_timeout : Z;
  conf_interval : Z;
  conf_max_failure : Z;
  conf_any_login : Z;
  conf_challenge_name : option (list Z)
}.

Definition auth_conf0 : auth_conf := mk_aconf 5 0 3 0 None.

(** An option that counts only when it is positive. *)
Definition opt_pos (o : option string) (old : Z) : Z :=
  match o with Some v => if 0 <? atoi v then atoi v else old | None => old end.
Definition opt_int (o : option string) (old : Z) : Z := match o with Some v => atoi v | None => old end.

(** ** Password databases *)

(** [pw_check] and [pw_get_passwd] may be NULL; [A] are the variable arguments, [W] is what a
    check stores through those that are pointers. *)
Record pwdb_t (A W : Type) : Type := mk_pwdb {
  pw_check : option (list Z -> A -> Z * list W);
  pw_get_passwd : option (list Z -> option (list Z))
}.
Arguments mk_pwdb {A W}.
Arguments pw_check {A W}.
Arguments pw_get_passwd {A W}.

(** What is looked at in the sessions of [ses_list]: username and terminate_cause. *)
Record other_ses : Type := mk_other { os_username : option (list Z); os_cause : Z }.

(** What a step finds: the configuration ([session] single-session, -1 when it is not set),
    the other sessions, whether the channel can be connected to a unit, random bytes and the
    registered databases as they answer now. *)
Record auth_env (A W : Type) : Type := mk_aenv {
  ae_conf : auth_conf;
  ae_single_session : Z;
  ae_ignore_case : bool;
  ae_sessions : list other_ses;
  ae_connect : bool;
  ae_random : list Z;
  ae_dbs : list (pwdb_t A W)
}.
Arguments mk_aenv {A W}.
Arguments ae_conf {A W}.
Arguments ae_single_session {A W}.
Arguments ae_ignore_case {A W}.
Arguments ae_sessions {A W}.
Arguments ae_connect {A W}.
Arguments ae_random {A W}.
Arguments ae_dbs {A W}.

(** ** The session *)
Record ses_t : Type := mk_ses {
  ses_username : option (list Z);
  ses_terminate_cause : Z;
  ses_terminating : bool;
  ses_calls : nat;
  ses_authorized : bool;
  ses_keys : list (list Z * list Z);
  ses_sent : list (list Z)
}.

Definition ses0 : ses_t := mk_ses None 0 false 0 false [] [].

Definition ppp_chan_send (s : ses_t) (frame : list Z) : ses_t :=
  mk_ses (ses_username s) (ses_terminate_cause s) (ses_terminating s) (ses_calls s) (ses_authorized s) (ses_keys s)
    (ses_sent s ++ [frame]).
(** EV_MPPE_KEYS with recv_key and send_key *)
Definition ev_mppe_keys (s : ses_t) (recv_key send_key : list Z) : ses_t :=
  mk_ses (ses_username s) (ses_terminate_cause s) (ses_terminating s) (ses_calls s) (ses_authorized s)
    (ses_keys s ++ [(recv_key, send_key)]) (ses_sent s).
Definition with_username (s : ses_t) (u : option (list Z)) : ses_t :=
  mk_ses u (ses_terminate_cause s) (ses_terminating s) (ses_calls s) (ses_authorized s) (ses_keys s) (ses_sent s).
Definition with_calls (s : ses_t) (n : nat) (authorized : bool) : ses_t :=
  mk_ses (ses_username s) (ses_terminate_cause s) (ses_terminating s) n authorized (ses_keys s) (ses_sent s).
Definition with_cause (s : ses_t) (cause : Z) (terminating : bool) : ses_t :=
  mk_ses (ses_username s) cause terminating (ses_calls s) (ses_authorized s) (ses_keys s) (ses_sent s).

(** [ap_session_terminate]: the cause; the layer is finished by [layer_step]. *)
Definition ap_session_terminate (s : ses_t) (cause : Z) : ses_t :=
  with_cause s (if ses_terminate_cause s =? 0 then cause else ses_terminate_cause s) true.

Section Names.
Context {A W : Type} (e : auth_env A W) (s : ses_t).

Definition lower (c : Z) : Z := if (65 <=? c) && (c <=? 90) then c + 32 else c.
Definition same_name (a b : list Z) : bool :=
  if ae_ignore_case e then bool_decide (map lower a = map lower b) else bool_decide (a = b).

(** [ses_list]: the session is in it since [ap_session_starting]. *)
Definition ses_list : list other_ses := mk_other (ses_username s) (ses_terminate_cause s) :: ae_sessions e.

(** [ap_check_username] *)
Definition ap_check_username (username : list Z) : bool :=
  if negb (ae_single_session e =? 0) then false
  else existsb (fun o => match os_username o with Some u => same_name u username | None => false end) ses_list.

(** [ap_session_set_username]: [None] is -1.  That sessions of the same name are ended is
    theirs. *)
Definition ap_session_set_username (username : list Z) : option ses_t :=
  if (0 =? ae_single_session e) &&
     existsb (fun o => match os_username o with
                       | Some u => negb (os_cause o =? TERM_AUTH_ERROR) && same_name u username
                       | None => false
                       end) ses_list
  then None else Some (with_username s (Some username)).

(** [ppp_auth_succeeded]: whether it returned 0. *)
Definition ppp_auth_succeeded (username : list Z) : ses_t * bool :=
  match ap_session_set_username username with
  | None => (s, false)
  | Some s => if negb (ae_connect e) then (s, false) else (with_calls s (S (ses_calls s)) (ses_authorized s), true)
  end.
End Names.

(** [ppp_auth_failed] *)
Definition ppp_auth_failed (s : ses_t) (username : option (list Z)) : ses_t :=
  let s := match username with
           | Some u => with_cause (with_username s (match ses_username s with None => Some u | x => x end))
                         TERM_AUTH_ERROR (ses_terminating s)
           | None => s
           end in
  ap_session_terminate s TERM_AUTH_ERROR.

(** The loop of [pwdb_check]. *)
Fixpoint pwdb_loop {A W} (l : list (pwdb_t A W)) (username : list Z) (args : A) (res : Z) : Z * list W :=
  match l with
  | [] => (res, [])
  | p :: l' =>
      match pw_check p with
      | None => pwdb_loop l' username args res
      | Some check =>
          let '(r, w) := check username args in
          if (r =? PWDB_SUCCESS) || (r =? PWDB_WAIT) then (r, w)
          else
            let '(r', w') := pwdb_loop l' username args (if r =? PWDB_NO_IMPL then res else r) in
            (r', w ++ w')
      end
  end.

(** [pwdb_check] *)
Definition pwdb_check {A W} (e : auth_env A W) (s : ses_t) (username : list Z) (args : A) : Z * list W :=
  if ap_check_username e s username then (PWDB_DENIED, []) else pwdb_loop (ae_dbs e) username args PWDB_NO_IMPL.

(** [pwdb_get_passwd] *)
Fixpoint pwdb_get_passwd {A W} (l : list (pwdb_t A W)) (username : list Z) : option (list Z) :=
  match l with
  | [] => None
  | p :: l' =>
      match pw_get_passwd p with
      | None => pwdb_get_passwd l' username
      | Some get => match get username with Some r => Some r | None => pwdb_get_passwd l' username end
      end
  end.

(** [__ppp_auth_started] when it is called; EV_SES_AUTHORIZED and the start of the network
    layers are [ses_authorized]. *)
Definition __ppp_auth_started (s : ses_t) : ses_t :=
  match ses_calls s with
  | O => s
  | S n => with_calls s n (if ses_terminating s then ses_authorized s else true)
  end.

(** ** Protocols *)

(** What comes to a protocol: a frame in the receive buffer with its size, the timers, a
    restart, the result of a check that had to wait with what the check stored. *)
Inductive auth_input (W : Type) : Type :=
| ARecv (buf : list Z) (size : Z)
| ATimeout
| AInterval
| ARestart
| AResult (r : Z) (w : list W).
Arguments ARecv {W}.
Arguments ATimeout {W}.
Arguments AInterval {W}.
Arguments ARestart {W}.
Arguments AResult {W}.

(** What a name is found to be by a protocol. *)
Inductive verdict : Type := VAccept | VDeny | VWait | VUnknown.
#[export] Instance verdict_eq_dec : EqDecision verdict.
Proof. solve_decision. Defined.

(** A protocol (struct ppp_auth_handler_t) with data [D]: its functions, its states while it
    runs and after it was finished, the inputs its memory accesses are right for, and when a
    step accepts a name. *)
Class AuthProto (D A W : Type) : Type := {
  proto_init : D;
  proto_start : auth_env A W -> D -> ses_t -> D * ses_t;
  proto_step : auth_env A W -> auth_input W -> D -> ses_t -> res (D * ses_t);
  proto_finish : D -> res D;
  proto_running : D -> Prop;
  proto_idle : D -> Prop;
  proto_input_ok : auth_env A W -> auth_input W -> Prop;
  proto_accepts : auth_env A W -> auth_input W -> D -> ses_t -> list Z -> Prop
}.

(** How a session may change in a step: a name that is not accepted is set only where there
    is none, and [ppp_auth_succeeded] is called at most once, for a name that is. *)
Definition ses_step (accepts : list Z -> Prop) (s s' : ses_t) : Prop :=
  ses_authorized s' = ses_authorized s /\
  ((ses_calls s' = ses_calls s /\ (ses_username s' = ses_username s \/ ses_username s = None)) \/
   (ses_calls s' = ses_calls s \/ ses_calls s' = S (ses_calls s)) /\
   exists name, ses_username s' = Some name /\ accepts name).

(** ... and does not stop ending. *)
Definition grows (accepts : list Z -> Prop) (s s' : ses_t) : Prop :=
  ses_step accepts s s' /\ (ses_terminating s = true -> ses_terminating s' = true).

(** What is not touched by sending. *)
Definition ses_same (s s' : ses_t) : Prop :=
  ses_authorized s' = ses_authorized s /\ ses_calls s' = ses_calls s /\ ses_username s' = ses_username s /\
  ses_terminating s' = ses_terminating s.

(** ** The layer *)

(** [starting] of the layer's data and [started] of its option, with the protocol's data. *)
Record auth_layer_t (D : Type) : Type := mk_al { al_starting : bool; al_started : bool; al_d : D }.
Arguments mk_al {D}.
Arguments al_starting {D}.
Arguments al_started {D}.
Arguments al_d {D}.

(** Steps of the protocol, pending calls, and ends of the session for other reasons. *)
Inductive layer_input (A W : Type) : Type :=
| LProto (e : auth_env A W) (i : auth_input W)
| LCall
| LTerminate (cause : Z).
Arguments LProto {A W}.
Arguments LCall {A W}.
Arguments LTerminate {A W}.

Section Layer.
Context {D A W : Type} {P : AuthProto D A W}.

(** [auth_layer_start] for a negotiated protocol *)
Definition auth_layer_start (e : auth_env A W) (d : D) (s : ses_t) : auth_layer_t D * ses_t :=
  let '(d, s) := proto_start e d s in (mk_al true true d, s).

(** [auth_layer_finish] *)
Definition auth_layer_finish (l : auth_layer_t D) : res (auth_layer_t D) :=
  d ← proto_finish (al_d l); mret (mk_al false false d).

(** What [ppp_terminate] does to the layer when the session begins to end. *)
Definition layer_terminate (was : bool) (l : auth_layer_t D) (s : ses_t) : res (auth_layer_t D * ses_t) :=
  if ses_terminating s && negb was && al_starting l then l ← auth_layer_finish l; mret (l, s) else mret (l, s).

(** [auth_free]: the handlers and their data go. *)
Definition auth_free (l : auth_layer_t D) : res unit :=
  if al_started l then d ← proto_finish (al_d l); mret () else mret ().

Definition layer_step (i : layer_input A W) (l : auth_layer_t D) (s : ses_t) : res (auth_layer_t D * ses_t) :=
  match i with
  | LProto e i =>
      p ← proto_step e i (al_d l) s;
      layer_terminate (ses_terminating s) (mk_al (al_starting l) (al_started l) (fst p)) (snd p)
  | LCall => mret (l, __ppp_auth_started s)
  | LTerminate cause => layer_terminate (ses_terminating s) l (ap_session_terminate s cause)
  end.

Fixpoint layer_run (ins : list (layer_input A W)) (l : auth_layer_t D) (s : ses_t) : res (auth_layer_t D * ses_t) :=
  match ins with
  | [] => mret (l, s)
  | i :: ins' => p ← layer_step i l s; layer_run ins' (fst p) (snd p)
  end.

(** A step of the run [ins] from [l], [s] accepts [name]. *)
Definition accepted_in (ins : list (layer_input A W)) (l : auth_layer_t D) (s : ses_t) (name : list Z) : Prop :=
  exists ins1 e i ins2 l1 s1, ins = ins1 ++ LProto e i :: ins2 /\ layer_run ins1 l s = Ok (l1, s1) /\
    proto_accepts e i (al_d l1) s1 name.

Definition layer_input_ok (i : layer_input A W) : Prop := match i with LProto e i => proto_input_ok e i | _ => True end.

(** The layer runs until the session ends. *)
Definition layer_ok (l : auth_layer_t D) (s : ses_t) : Prop :=
  if ses_terminating s then al_starting l = false /\ al_started l = false /\ proto_idle (al_d l)
  else al_starting l = true /\ al_started l = true /\ proto_running (al_d l).
End Layer.

(** The laws of a protocol. *)
Class SoundProto (D A W : Type) {P : AuthProto D A W} : Prop := {
  proto_start_ok : forall e s, proto_running (fst (proto_start e proto_init s)) /\
    ses_step (fun _ => False) s (snd (proto_start e proto_init s)) /\
    ses_terminating (snd (proto_start e proto_init s)) = ses_terminating s;
  proto_sound : forall e i d s d' s', proto_step e i d s = Ok (d', s') ->
    grows (proto_accepts e i d s) s s';
  proto_total : forall e i d s, proto_running d -> proto_input_ok e i ->
    exists d' s', proto_step e i d s = Ok (d', s') /\ proto_running d';
  proto_finish_ok : forall d, proto_running d -> exists d', proto_finish d = Ok d' /\ proto_idle d';
  proto_idle_step : forall e i d s, proto_idle d -> proto_input_ok e i -> proto_step e i d s = Ok (d, s)
}.

(** ** Lemmas on the receive buffer *)

Lemma strndup_at pre l post off : Forall (fun c => 0 < c < 256) l -> off = Z.of_nat (length pre) ->
  strndup (pre ++ l ++ post) off (Z.of_nat (length l)) = Ok l.
Proof.
  intros F ->. unfold strndup. rewrite Nat2Z.id, drop_app_length, !length_app.
  rewrite Z.min_l, Nat2Z.id by lia.
  enough (E : strn (length l) (l ++ post) = Some l) by now rewrite E.
  induction F as [|c l Hc _ IH]; [now destruct post|]. cbn. destruct (Z.eqb_spec c 0); [lia|]. now rewrite IH.
Qed.

Lemma byte_at_mid pre c post off : off = Z.of_nat (length pre) -> byte_at (pre ++ c :: post) off = Ok c.
Proof. intros ->. unfold byte_at. rewrite Nat2Z.id. now rewrite list_lookup_middle. Qed.

Lemma byte_at_ok buf off : bytes_ok buf -> 0 <= off < Z.of_nat (length buf) -> exists c, byte_at buf off = Ok c /\ 0 <= c < 256.
Proof.
  intros B H. unfold byte_at. destruct (buf !! Z.to_nat off) as [c|] eqn:E.
  - exists c. split; [done|]. now apply (Forall_lookup_1 _ _ _ _ B E).
  - apply lookup_ge_None in E. lia.
Qed.

Lemma strndup_ok buf off n : 0 <= off -> off + n <= Z.of_nat (length buf) -> exists x, strndup buf off n = Ok x.
Proof.
  intros H1 H2. unfold strndup.
  assert (G : forall k (l : list Z), (k <= length l)%nat -> exists x, strn k l = Some x).
  { induction k as [|k IH]; intros [|c l]; cbn; intros; try lia; eauto.
    destruct (c =? 0); eauto. destruct (IH l) as [x ->]; [lia|]. eauto. }
  destruct (G (Z.to_nat (Z.min n (Z.of_nat (length buf) + 1))) (drop (Z.to_nat off) buf)) as [x ->]; [|eauto].
  rewrite length_drop. lia.
Qed.

Lemma bytes_ok_compute l : forallb (fun b => (0 <=? b) && (b <? 256)) l = true -> bytes_ok l.
Proof.
  rewrite forallb_forall. intros H. apply Forall_forall. intros b Hb. apply list_elem_of_In, H in Hb. unfold byte_ok.
  apply andb_true_iff in Hb as [H1%Z.leb_le H2%Z.ltb_lt]. lia.
Qed.

(** A frame in the receive buffer with zeros behind it. *)
Definition pad_buf (frame : list Z) : list Z := frame ++ replicate (Z.to_nat (PPP_BUF_SIZE - Z.of_nat (length frame))) 0.

Lemma pad_buf_ok frame : bytes_ok frame -> Z.of_nat (length frame) <= PPP_BUF_SIZE ->
  bytes_ok (pad_buf frame) /\ Z.of_nat (length (pad_buf frame)) = PPP_BUF_SIZE.
Proof.
  intros B L. unfold pad_buf. split.
  - apply Forall_app. split; [done|]. apply Forall_replicate. unfold byte_ok. lia.
  - rewrite length_app, length_replicate. lia.
Qed.

(** ** Lemmas on sessions *)

Lemma ses_step_refl P s : ses_step P s s.
Proof. split; [done|]. left. auto. Qed.

(** What leaves name, calls and authorization alone. *)
Lemma ses_step_same P s s' :
  ses_authorized s' = ses_authorized s -> ses_calls s' = ses_calls s -> ses_username s' = ses_username s -> ses_step P s s'.
Proof. intros. split; [done|]. left. auto. Qed.

Lemma ses_step_failed P s u : ses_step P s (ppp_auth_failed s u).
Proof.
  split; [now destruct u|]. left. split; [now destruct u|]. destruct u; [|now left]. cbn. destruct (ses_username s); auto.
Qed.

(** [ppp_auth_succeeded] and then what leaves the name alone *)
Lemma ses_step_succeeded {A W} (e : auth_env A W) (P : list Z -> Prop) s name s1 ok s' :
  ppp_auth_succeeded e s name = (s1, ok) -> P name ->
  ses_authorized s' = ses_authorized s1 -> ses_calls s' = ses_calls s1 -> ses_username s' = ses_username s1 -> ses_step P s s'.
Proof.
  unfold ppp_auth_succeeded, ap_session_set_username. intros E HP EA EC EU.
  destruct (_ && _); [|destruct (ae_connect e)]; cbn in E; injection E as <- <-; cbn in *;
    (split; [done|]); (left; now auto) || (right; split; [auto|]; now exists name).
Qed.

Lemma grows_refl P s : grows P s s.
Proof. split; [apply ses_step_refl | done]. Qed.

Lemma grows_same P s s' :
  ses_authorized s' = ses_authorized s -> ses_calls s' = ses_calls s -> ses_username s' = ses_username s ->
  (ses_terminating s = true -> ses_terminating s' = true) -> grows P s s'.
Proof. intros. split; [now apply ses_step_same | done]. Qed.

Lemma ses_step_weaken (P Q : list Z -> Prop) s s' : (forall n, P n -> Q n) -> ses_step P s s' -> ses_step Q s s'.
Proof. intros H (EA & [?|(EC & n & U & HP)]); (split; [done|]); [now left|]. right. split; [done|]. eauto. Qed.

Lemma ses_step_trans (P : list Z -> Prop) s s1 s2 :
  ses_authorized s1 = ses_authorized s -> ses_calls s1 = ses_calls s -> ses_username s1 = ses_username s ->
  ses_step P s1 s2 -> ses_step P s s2.
Proof. intros E1 E2 E3. unfold ses_step. now rewrite E1, E2, E3. Qed.

Lemma succeeded_terminating {A W} (e : auth_env A W) s name s1 ok :
  ppp_auth_succeeded e s name = (s1, ok) -> ses_terminating s1 = ses_terminating s.
Proof.
  unfold ppp_auth_succeeded, ap_session_set_username.
  destruct (_ && _); [|destruct (ae_connect e)]; cbn; now intros [= <- <-].
Qed.

(** [grows] after what leaves name, calls and authorization alone *)
Lemma grows_after (P : list Z -> Prop) s s1 s2 : ses_same s s1 -> grows P s1 s2 -> grows P s s2.
Proof. intros (E1 & E2 & E3 & E4) [H T]. split; [now apply (ses_step_trans _ _ s1) | now rewrite <- E4]. Qed.

Lemma ses_same_trans s1 s2 s3 : ses_same s1 s2 -> ses_same s2 s3 -> ses_same s1 s3.
Proof. unfold ses_same. intuition congruence. Qed.

Lemma grows_ses_same (P : list Z -> Prop) s s' : ses_same s s' -> grows P s s'.
Proof. intros (E1 & E2 & E3 & E4). apply grows_same; congruence. Qed.

Lemma grows_failed P s u : grows P s (ppp_auth_failed s u).
Proof. split; [apply ses_step_failed | now destruct u]. Qed.

Lemma grows_terminate P s c : grows P s (ap_session_terminate s c).
Proof. now apply grows_same. Qed.

Lemma grows_succeeded {A W} (e : auth_env A W) (P : list Z -> Prop) s name s1 ok s' :
  ppp_auth_succeeded e s name = (s1, ok) -> P name -> ses_same s1 s' -> grows P s s'.
Proof.
  intros E HP (EA & EC & EU & ET). split; [now apply (ses_step_succeeded e P s name s1 ok)|].
  now rewrite ET, (succeeded_terminating _ _ _ _ _ E).
Qed.

Lemma grows_succeeded_end {A W} (e : auth_env A W) (P : list Z -> Prop) s name s1 ok s' c :
  ppp_auth_succeeded e s name = (s1, ok) -> P name -> ses_same s1 s' -> grows P s (ap_session_terminate s' c).
Proof. intros E HP (EA & EC & EU & ET). split; [now apply (ses_step_succeeded e P s name s1 ok) | done]. Qed.

Lemma terminate_cause s c : c <> 0 -> ses_terminate_cause (ap_session_terminate s c) <> 0.
Proof. cbn. now destruct (Z.eqb_spec (ses_terminate_cause s) 0). Qed.

Create HintDb auth discriminated.
#[export] Hint Resolve grows_refl grows_same grows_ses_same grows_failed grows_terminate : auth.

(** ** The layer, for every protocol *)
Section Sound.
Context {D A W : Type} {P : AuthProto D A W} {SP : SoundProto D A W}.
Implicit Types (l : auth_layer_t D) (ins : list (layer_input A W)).

Lemma layer_run_app ins1 ins2 l s :
  layer_run (ins1 ++ ins2) l s = (p ← layer_run ins1 l s; layer_run ins2 (fst p) (snd p)).
Proof using.
  revert l s. induction ins1 as [|i ins1 IH]; intros l s; [done|]. cbn.
  destruct (layer_step i l s) as [[l1 s1]| |]; [|done..]. apply IH.
Qed.

Lemma accepted_more ins i l s name : accepted_in ins l s name -> accepted_in (ins ++ [i]) l s name.
Proof using.
  intros (ins1 & e & j & ins2 & l1 & s1 & -> & H & Acc). exists ins1, e, j, (ins2 ++ [i]), l1, s1. split; [|done].
  now rewrite <- app_assoc.
Qed.

Lemma layer_terminate_ses was l s l' s' : layer_terminate was l s = Ok (l', s') -> s' = s.
Proof using.
  unfold layer_terminate, auth_layer_finish. destruct (_ && _); [|now intros [= <- <-]].
  destruct (proto_finish (al_d l)); [|done..]. now intros [= <- <-].
Qed.

Lemma layer_start_ok (e : auth_env A W) : let '(l, s) := auth_layer_start e proto_init ses0 in
  layer_ok l s /\ ses_calls s = 0%nat /\ ses_authorized s = false.
Proof using SP.
  unfold auth_layer_start. pose proof (proto_start_ok e ses0) as (R & (EA & H) & ET).
  destruct (proto_start e proto_init ses0) as [d' s']. cbn in *. unfold layer_ok. rewrite ET. cbn.
  repeat split; auto. destruct H as [(-> & _)|(_ & n & _ & [])]. done.
Qed.

Lemma layer_terminate_ok (was : bool) l s :
  (if was then al_starting l = false /\ al_started l = false /\ proto_idle (al_d l)
   else al_starting l = true /\ al_started l = true /\ proto_running (al_d l)) ->
  (was = true -> ses_terminating s = true) ->
  exists l', layer_terminate was l s = Ok (l', s) /\ layer_ok l' s.
Proof using SP.
  unfold layer_terminate, layer_ok. intros H M. destruct was; cbn in *.
  { rewrite (M eq_refl). cbn. now exists l. }
  destruct H as (Es & E & R). rewrite Es. destruct (ses_terminating s); cbn; [|now exists l].
  unfold auth_layer_finish. destruct (proto_finish_ok _ R) as (d' & -> & I). cbn. now exists (mk_al false false d').
Qed.

Lemma layer_step_ok i l s : layer_ok l s -> layer_input_ok i ->
  exists l' s', layer_step i l s = Ok (l', s') /\ layer_ok l' s'.
Proof using SP.
  intros H I. destruct i as [e i| |cause]; cbn in *.
  - assert (G : exists d' s', proto_step e i (al_d l) s = Ok (d', s') /\
      if ses_terminating s then d' = al_d l /\ s' = s else proto_running d').
    { unfold layer_ok in H. destruct (ses_terminating s) eqn:T.
      - exists (al_d l), s. split; [apply proto_idle_step; tauto | done].
      - now apply proto_total. }
    destruct G as (d' & s' & E & G). rewrite E. cbn.
    destruct (layer_terminate_ok (ses_terminating s) (mk_al (al_starting l) (al_started l) d') s') as (l' & -> & L).
    { unfold layer_ok in H. destruct (ses_terminating s); cbn; [destruct G as [-> _]|]; tauto. }
    { now apply (proto_sound e i (al_d l) s d' s' E). }
    eauto.
  - exists l, (__ppp_auth_started s). split; [done|]. unfold layer_ok, __ppp_auth_started in *.
    now destruct (ses_calls s).
  - destruct (layer_terminate_ok (ses_terminating s) l (ap_session_terminate s cause)) as (l' & -> & L); [done..|]. eauto.
Qed.

Lemma layer_run_ok ins l s : layer_ok l s -> Forall layer_input_ok ins ->
  exists l' s', layer_run ins l s = Ok (l', s') /\ layer_ok l' s'.
Proof using SP.
  intros H F. revert l s H. induction F as [|i ins I _ IH]; intros l s H; [now exists l, s|]. cbn.
  destruct (layer_step_ok i l s H I) as (l1 & s1 & -> & H1). cbn. now apply IH.
Qed.

Lemma layer_free_ok l s : layer_ok l s -> auth_free l = Ok ().
Proof using SP.
  unfold layer_ok, auth_free. destruct (ses_terminating s); [now intros (_ & -> & _)|]. intros (_ & -> & R).
  destruct (proto_finish_ok _ R) as (d' & -> & _). done.
Qed.

Lemma layer_silent ins l s l' s' : layer_ok l s -> ses_terminating s = true -> Forall layer_input_ok ins ->
  layer_run ins l s = Ok (l', s') ->
  ses_sent s' = ses_sent s /\ ses_authorized s' = ses_authorized s /\ ses_username s' = ses_username s /\
  ses_keys s' = ses_keys s /\ ses_terminating s' = true.
Proof using SP.
  intros H T F. revert l s H T. induction F as [|i ins I _ IH]; intros l s H T R; cbn in R; [now injection R as <- <-|].
  destruct (layer_step_ok i l s H I) as (l1 & s1 & E & H1). rewrite E in R. cbn in R.
  assert (G : ses_sent s1 = ses_sent s /\ ses_authorized s1 = ses_authorized s /\ ses_username s1 = ses_username s /\
    ses_keys s1 = ses_keys s /\ ses_terminating s1 = true).
  { destruct i as [e i| |cause]; cbn in E, I.
    - rewrite proto_idle_step in E by (unfold layer_ok in H; rewrite T in H; tauto || done).
      cbn in E. now apply layer_terminate_ses in E as ->.
    - injection E as <- <-. unfold __ppp_auth_started. destruct (ses_calls s); [done|]. cbn. now rewrite T.
    - now apply layer_terminate_ses in E as ->. }
  destruct G as (<- & <- & <- & <- & T1). now apply (IH l1 s1).
Qed.

Lemma authorized_accepted ins l s l' s' :
  ses_calls s = 0%nat -> ses_authorized s = false -> layer_run ins l s = Ok (l', s') ->
  ses_calls s' <> 0%nat \/ ses_authorized s' = true ->
  exists name, ses_username s' = Some name /\ accepted_in ins l s name.
Proof using SP.
  intros C0 A0. revert l' s'. induction ins as [|i ins IH] using rev_ind; intros l' s' R H.
  { injection R as <- <-. destruct H; congruence. }
  rewrite layer_run_app in R. destruct (layer_run ins l s) as [[l1 s1]| |] eqn:R1; [|done..].
  cbn in R. specialize (IH l1 s1 eq_refl).
  assert (Old : (ses_calls s1 <> 0%nat \/ ses_authorized s1 = true) -> ses_username s' = ses_username s1 ->
    exists name, ses_username s' = Some name /\ accepted_in (ins ++ [i]) l s name).
  { intros H1 E. destruct (IH H1) as (name & Hn & Acc). exists name. split; [congruence | now apply accepted_more]. }
  destruct (layer_step i l1 s1) as [[l2 s2]| |] eqn:E; [|done..]. injection R as <- <-.
  destruct i as [e i| |cause]; cbn in E.
  - destruct (proto_step e i (al_d l1) s1) as [[d2 s3]| |] eqn:E1; [|done..].
    cbn in E. apply layer_terminate_ses in E as ->.
    destruct (proto_sound e i _ s1 d2 s3 E1) as ((EA & [(EC & U)|(EC & name & U & Acc)]) & _).
    + assert (H1 : ses_calls s1 <> 0%nat \/ ses_authorized s1 = true) by (destruct H; [left | right]; congruence).
      destruct U as [U|U]; [now apply Old|]. destruct (IH H1) as (name & Hn & _). congruence.
    + exists name. split; [done|]. now exists ins, e, i, [], l1, s1.
  - injection E as <- <-. apply Old; unfold __ppp_auth_started in *; destruct (ses_calls s1) eqn:E1; cbn in *; auto.
    destruct H as [H|H]; auto.
  - apply layer_terminate_ses in E as ->. now apply Old.
Qed.

(** What every protocol is worth to the layer. *)
Lemma layer_authorized (e : auth_env A W) ins : Forall layer_input_ok ins ->
  let '(l, s) := auth_layer_start e proto_init ses0 in
  exists l' s', layer_run ins l s = Ok (l', s') /\ auth_free l' = Ok () /\
    (ses_terminating s' = true -> proto_idle (al_d l')) /\
    (ses_authorized s' = true -> exists name, ses_username s' = Some name /\ accepted_in ins l s name).
Proof using SP.
  intros F. pose proof (layer_start_ok e) as H. destruct (auth_layer_start e proto_init ses0) as [l s].
  destruct H as (H & C & A0). destruct (layer_run_ok ins l s H F) as (l' & s' & R & H'). exists l', s'. split; [done|].
  split; [now apply (layer_free_ok l' s')|]. split.
  - intros T. unfold layer_ok in H'. rewrite T in H'. tauto.
  - intros A'. apply (authorized_accepted ins l s l' s'); auto.
Qed.
End Sound.
