(* ===== verification/AuthPap.v ===== *)
(** * PAP (accel-pppd/auth/auth_pap.c)

    The password protocol as a protocol of [PppAuth].  [buf] is the receive buffer of
    the channel (ppp->buf), of which [size] bytes were read; what is behind them is left
    from before. *)
From stdpp Require Import strings.
From S2P Require Import Prelude CString PppAuth.

(** The arguments of a check are the password; nothing is stored. *)
Notation pap_env := (auth_env (list Z) Empty_set).

Definition PAP_REQ : Z := 1.
Definition PAP_ACK : Z := 2.
Definition PAP_NAK : Z := 3.
(** sizeof(struct pap_hdr) *)
Definition PAP_HDR : Z := 6.
Definition HDR_LEN : Z := PAP_HDR - 2.

Definition MSG_FAILED : list Z := str_bytes "Authentication failed".
Definition MSG_SUCCESSED : list Z := str_bytes "Authentication succeeded".

Record pap_auth_data : Type := mk_pap {
  pap_timer : bool;
  pap_peer_id : str_ptr;
  pap_req_id : Z;
  pap_started : bool;
  pap_active : bool
}.

Definition set_pap_timer (p : pap_auth_data) (b : bool) : pap_auth_data :=
  mk_pap b (pap_peer_id p) (pap_req_id p) (pap_started p) (pap_active p).
Definition set_pap_pending (p : pap_auth_data) (x : str_ptr) (id : Z) : pap_auth_data :=
  mk_pap (pap_timer p) x id (pap_started p) (pap_active p).
Definition set_pap_started (p : pap_auth_data) : pap_auth_data :=
  mk_pap (pap_timer p) (pap_peer_id p) (pap_req_id p) true (pap_active p).

(** [auth_data_init] *)
Definition pap_init : pap_auth_data := mk_pap false SNull 0 false false.

(** [pap_start] *)
Definition pap_start (p : pap_auth_data) : pap_auth_data :=
  mk_pap true (pap_peer_id p) (pap_req_id p) (pap_started p) true.

(** [pap_finish] *)
Definition pap_finish (p : pap_auth_data) : res pap_auth_data :=
  x ← free_str (pap_peer_id p); mret (mk_pap false x (pap_req_id p) (pap_started p) false).

(** [pap_timeout] *)
Definition pap_timeout (p : pap_auth_data) (s : ses_t) : pap_auth_data * ses_t := (p, ppp_auth_failed s None).

(** [pap_send_ack], [pap_send_nak] *)
Definition pap_msg (code id : Z) (msg : list Z) : list Z :=
  be_encode 2 PPP_PAP ++ [code; u8 id] ++ be_encode 2 (HDR_LEN + 1 + Z.of_nat (length msg)) ++
  [u8 (Z.of_nat (length msg))] ++ msg.
Definition pap_send_ack (s : ses_t) (id : Z) : ses_t := ppp_chan_send s (pap_msg PAP_ACK id MSG_SUCCESSED).
Definition pap_send_nak (s : ses_t) (id : Z) : ses_t := ppp_chan_send s (pap_msg PAP_NAK id MSG_FAILED).

(** [load_config] *)
Definition pap_load_config (opt : string -> option string) (c : auth_conf) : auth_conf :=
  mk_aconf (opt_pos (opt "timeout"%string) (conf_timeout c)) (conf_interval c) (conf_max_failure c)
    (opt_int (opt "any-login"%string) (conf_any_login c)) (conf_challenge_name c).

(** A name that is right: the session gets it or is ended. *)
Definition pap_accept (e : pap_env) (p : pap_auth_data) (s : ses_t) (id : Z) (peer_id : list Z) : pap_auth_data * ses_t :=
  let '(s, ok) := ppp_auth_succeeded e s peer_id in
  if negb ok then (p, ap_session_terminate (pap_send_nak s id) TERM_AUTH_ERROR)
  else (set_pap_started p, pap_send_ack s id).

(** A name that is wrong. *)
Definition pap_deny (p : pap_auth_data) (s : ses_t) (id : Z) (peer_id : list Z) : pap_auth_data * ses_t :=
  let s := pap_send_nak s id in
  (p, if pap_started p then ap_session_terminate s TERM_AUTH_ERROR else ppp_auth_failed s (Some peer_id)).

(** [pap_auth_result] *)
Definition pap_auth_result (e : pap_env) (p : pap_auth_data) (s : ses_t) (r : Z) : res (pap_auth_data * ses_t) :=
  peer_id ← str_at (pap_peer_id p);
  let p := set_pap_pending p SNull (pap_req_id p) in
  mret (if r =? PWDB_DENIED then pap_deny p s (pap_req_id p) peer_id else pap_accept e p s (pap_req_id p) peer_id).

(** The local check of a password when no database has done it. *)
Definition pap_local (e : pap_env) (r : Z) (peer_id passwd : list Z) : Z :=
  if r =? PWDB_NO_IMPL then
    match pwdb_get_passwd (ae_dbs e) peer_id with
    | None => PWDB_DENIED
    | Some passwd2 => if bool_decide (passwd2 = passwd) then PWDB_SUCCESS else PWDB_DENIED
    end
  else r.

(** [pap_recv_req]; the lengths are compared as size_t. *)
Definition pap_recv_req (e : pap_env) (p : pap_auth_data) (s : ses_t) (buf : list Z) : res (pap_auth_data * ses_t) :=
  if negb (pap_active p) then mret (p, s)
  else
    let p := set_pap_timer p false in
    id ← byte_at buf 3;
    l ← slice 4 2 buf;
    let len := be_decode l in
    if pap_started p then mret (p, pap_send_ack s id)
    else if negb (is_null (pap_peer_id p)) then mret (p, s)
    else
      peer_id_len ← byte_at buf 6;
      if u64 (len - PAP_HDR + 2 - 1) <? peer_id_len then mret (p, s)
      else
        passwd_len ← byte_at buf (7 + peer_id_len);
        if u64 (len - PAP_HDR + 2 - 2 - peer_id_len) <? passwd_len then mret (p, s)
        else
          peer_id ← strndup buf 7 peer_id_len;
          if negb (conf_any_login (ae_conf e) =? 0) then mret (pap_accept e p s id peer_id)
          else
            passwd ← strndup buf (8 + peer_id_len) passwd_len;
            let '(r, _) := pwdb_check e s peer_id passwd in
            if r =? PWDB_WAIT then mret (set_pap_pending p (SLive peer_id) id, s)
            else if pap_local e r peer_id passwd =? PWDB_DENIED then mret (pap_deny p s id peer_id)
            else mret (pap_accept e p s id peer_id).

(** [pap_recv] *)
Definition pap_recv (e : pap_env) (p : pap_auth_data) (s : ses_t) (buf : list Z) (size : Z) : res (pap_auth_data * ses_t) :=
  if size <? PAP_HDR then mret (p, s)
  else
    l ← slice 4 2 buf;
    let len := be_decode l in
    if (len <? HDR_LEN) || (size - 2 <? len) then mret (p, s)
    else
      code ← byte_at buf 2;
      if code =? PAP_REQ then pap_recv_req e p s buf else mret (p, s).

(** The protocol; the timer runs out only while it runs, a result comes only to a check that
    waits. *)
Definition pap_step (e : pap_env) (i : auth_input Empty_set) (p : pap_auth_data) (s : ses_t) : res (pap_auth_data * ses_t) :=
  match i with
  | ARecv buf size => pap_recv e p s buf size
  | ATimeout => mret (if pap_timer p then pap_timeout p s else (p, s))
  | AInterval | ARestart => mret (p, s)
  | AResult r _ => match pap_peer_id p with SLive _ => pap_auth_result e p s r | _ => mret (p, s) end
  end.

(** ** Vocabulary of the theorems *)

(** The body of an Authenticate-Request, and the whole frame (RFC 1334). *)
Definition pap_body (peer_id passwd : list Z) : list Z :=
  [Z.of_nat (length peer_id)] ++ peer_id ++ [Z.of_nat (length passwd)] ++ passwd.
Definition pap_header (id len : Z) : list Z := be_encode 2 PPP_PAP ++ [PAP_REQ; id] ++ be_encode 2 len.
Definition pap_request (id : Z) (peer_id passwd : list Z) : list Z :=
  pap_header id (HDR_LEN + Z.of_nat (length (pap_body peer_id passwd))) ++ pap_body peer_id passwd.

(** A name or password that can be sent. *)
Definition pap_string (l : list Z) : Prop := Forall (fun c => 0 < c < 256) l /\ (length l < 256)%nat.

(** What a name and a password are good for. *)
Definition pap_verdict (e : pap_env) (s : ses_t) (peer_id passwd : list Z) : verdict :=
  if negb (conf_any_login (ae_conf e) =? 0) then VAccept
  else
    let r := fst (pwdb_check e s peer_id passwd) in
    if r =? PWDB_WAIT then VWait
    else if r =? PWDB_DENIED then VDeny
    else if r =? PWDB_NO_IMPL then
      if bool_decide (pwdb_get_passwd (ae_dbs e) peer_id = Some passwd) then VAccept else VDeny
    else VAccept.

(** A running protocol that has no request yet. *)
Definition pap_waits (p : pap_auth_data) : Prop :=
  pap_active p = true /\ pap_started p = false /\ pap_peer_id p = SNull.

(** A name is accepted by a request with a right password, or by the late result of the
    database that was asked for that name. *)
Definition pap_accepts (e : pap_env) (i : auth_input Empty_set) (p : pap_auth_data) (s : ses_t) (name : list Z) : Prop :=
  match i with
  | ARecv buf size => exists peer_id_len passwd_len passwd,
      byte_at buf 6 = Ok peer_id_len /\ strndup buf 7 peer_id_len = Ok name /\
      byte_at buf (7 + peer_id_len) = Ok passwd_len /\
      (strndup buf (8 + peer_id_len) passwd_len = Ok passwd \/ conf_any_login (ae_conf e) <> 0) /\
      pap_verdict e s name passwd = VAccept
  | AResult r _ => pap_peer_id p = SLive name /\ r <> PWDB_DENIED
  | _ => False
  end.

#[export] Instance pap_proto : AuthProto pap_auth_data (list Z) Empty_set := {|
  proto_init := pap_init;
  proto_start _ d s := (pap_start d, s);
  proto_step := pap_step;
  proto_finish := pap_finish;
  proto_running p := pap_active p = true /\ pap_peer_id p <> SDangling;
  proto_idle p := pap_active p = false /\ pap_timer p = false /\ (forall x, pap_peer_id p <> SLive x);
  proto_input_ok _ i := match i with
                      | ARecv buf size => bytes_ok buf /\ Z.of_nat (length buf) = PPP_BUF_SIZE
                      | _ => True
                      end;
  proto_accepts := pap_accepts
|}.

(** ** Receiving a request *)
Definition pap_outcome (e : pap_env) (p : pap_auth_data) (s : ses_t) (id : Z) (peer_id passwd : list Z) : pap_auth_data * ses_t :=
  let p := set_pap_timer p false in
  match pap_verdict e s peer_id passwd with
  | VAccept => pap_accept e p s id peer_id
  | VDeny | VUnknown => pap_deny p s id peer_id
  | VWait => (set_pap_pending p (SLive peer_id) id, s)
  end.

Lemma pap_verdict_local e s peer_id passwd : conf_any_login (ae_conf e) = 0 ->
  pap_verdict e s peer_id passwd =
  let r := fst (pwdb_check e s peer_id passwd) in
  if r =? PWDB_WAIT then VWait
  else if pap_local e r peer_id passwd =? PWDB_DENIED then VDeny else VAccept.
Proof.
  intros H. unfold pap_verdict, pap_local, PWDB_WAIT, PWDB_DENIED, PWDB_NO_IMPL. rewrite H. cbn.
  set (r := fst _). destruct (Z.eqb_spec r 2); [done|]. destruct (Z.eqb_spec r 1) as [->|]; [done|].
  destruct (Z.eqb_spec r 3) as [->|]; cbn.
  - destruct (pwdb_get_passwd _ _) as [x|]; [|done].
    destruct (decide (x = passwd)) as [->|]; [now rewrite !bool_decide_true|]. rewrite !bool_decide_false by congruence. done.
  - destruct (Z.eqb_spec r 1); done.
Qed.

(** What the buffer has where. *)
Lemma pap_frame id len peer_id passwd rest (buf := pap_header id len ++ pap_body peer_id passwd ++ rest) :
  pap_string peer_id -> pap_string passwd ->
  byte_at buf 2 = Ok PAP_REQ /\ byte_at buf 3 = Ok id /\ slice 4 2 buf = Ok (be_encode 2 len) /\
  byte_at buf 6 = Ok (Z.of_nat (length peer_id)) /\ strndup buf 7 (Z.of_nat (length peer_id)) = Ok peer_id /\
  byte_at buf (7 + Z.of_nat (length peer_id)) = Ok (Z.of_nat (length passwd)) /\
  strndup buf (8 + Z.of_nat (length peer_id)) (Z.of_nat (length passwd)) = Ok passwd.
Proof.
  intros [F1 L1] [F2 L2].
  assert (En : strndup buf 7 (Z.of_nat (length peer_id)) = Ok peer_id).
  { replace buf with ((pap_header id len ++ [Z.of_nat (length peer_id)]) ++ peer_id ++ ([Z.of_nat (length passwd)] ++ passwd ++ rest))
      by (unfold buf, pap_body; now rewrite <- !app_assoc).
    now apply strndup_at. }
  assert (El : byte_at buf (7 + Z.of_nat (length peer_id)) = Ok (Z.of_nat (length passwd))).
  { replace buf with ((pap_header id len ++ [Z.of_nat (length peer_id)] ++ peer_id) ++ Z.of_nat (length passwd) :: (passwd ++ rest))
      by (unfold buf, pap_body; now rewrite <- !app_assoc).
    apply byte_at_mid. rewrite !length_app. cbn. lia. }
  assert (Ep : strndup buf (8 + Z.of_nat (length peer_id)) (Z.of_nat (length passwd)) = Ok passwd).
  { replace buf with ((pap_header id len ++ [Z.of_nat (length peer_id)] ++ peer_id ++ [Z.of_nat (length passwd)]) ++ passwd ++ rest)
      by (unfold buf, pap_body; now rewrite <- !app_assoc).
    apply strndup_at; [done|]. rewrite !length_app. cbn. lia. }
  auto 10.
Qed.

Lemma pap_recv_body e p s id len peer_id passwd rest size :
  pap_waits p -> pap_string peer_id -> pap_string passwd ->
  HDR_LEN <= len <= size - 2 -> len < 65536 ->
  Z.of_nat (length peer_id) <= u64 (len - 5) ->
  Z.of_nat (length passwd) <= u64 (len - 6 - Z.of_nat (length peer_id)) ->
  pap_recv e p s (pap_header id len ++ pap_body peer_id passwd ++ rest) size = Ok (pap_outcome e p s id peer_id passwd).
Proof.
  intros (Ha & Hs & Hp) F1 F2 Hlen Hmax C1 C2.
  destruct (pap_frame id len peer_id passwd rest F1 F2) as (Ec & Ei & E6 & E7 & En & El & Ep).
  set (buf := pap_header id len ++ _) in *. unfold HDR_LEN, PAP_HDR in Hlen.
  clearbody buf. unfold pap_recv, PAP_HDR, HDR_LEN, PAP_HDR. rewrite E6, Ec.
  cbn [res_of_option mbind res_bind mret res_ret]. rewrite be_decode_encode.
  rewrite (Z.mod_small len) by (change (256 ^ Z.of_nat 2) with 65536; lia).
  destruct (Z.ltb_spec size 6); [lia|]. destruct (Z.ltb_spec len (6 - 2)); [lia|].
  destruct (Z.ltb_spec (size - 2) len); [lia|]. cbn [orb Z.eqb PAP_REQ Pos.eqb].
  unfold pap_recv_req, PAP_HDR. rewrite Ha, Ei, E6, E7. cbn [negb res_of_option mbind res_bind mret res_ret].
  rewrite be_decode_encode, (Z.mod_small len) by (change (256 ^ Z.of_nat 2) with 65536; lia).
  change (pap_started (set_pap_timer p false)) with (pap_started p).
  change (pap_peer_id (set_pap_timer p false)) with (pap_peer_id p). rewrite Hs, Hp. cbn [is_null negb].
  replace (len - 6 + 2 - 1) with (len - 5) by lia. destruct (Z.ltb_spec (u64 (len - 5)) (Z.of_nat (length peer_id))); [lia|].
  rewrite El. cbn [res_of_option mbind res_bind mret res_ret].
  replace (len - 6 + 2 - 2 - Z.of_nat (length peer_id)) with (len - 6 - Z.of_nat (length peer_id)) by lia.
  destruct (Z.ltb_spec (u64 (len - 6 - Z.of_nat (length peer_id))) (Z.of_nat (length passwd))); [lia|].
  rewrite En, Ep. cbn [res_of_option mbind res_bind mret res_ret]. unfold pap_outcome.
  destruct (Z.eqb_spec (conf_any_login (ae_conf e)) 0) as [Hy|Hy]; cbn [negb].
  - rewrite (pap_verdict_local _ _ _ _ Hy). destruct (pwdb_check e s peer_id passwd) as [r w]. cbn [fst].
    destruct (r =? PWDB_WAIT); [done|]. now destruct (_ =? PWDB_DENIED).
  - unfold pap_verdict. now destruct (Z.eqb_spec (conf_any_login (ae_conf e)) 0).
Qed.

(** ** PAP as a protocol of the layer *)
Lemma pap_accept_grows (P : list Z -> Prop) e p s id name : P name -> grows P s (snd (pap_accept e p s id name)).
Proof.
  intros HP. unfold pap_accept. destruct (ppp_auth_succeeded e s name) as [s1 ok] eqn:E.
  destruct ok; cbn; [now apply (grows_succeeded _ _ _ _ _ _ _ E) | now apply (grows_succeeded_end _ _ _ _ _ _ _ _ E)].
Qed.

Lemma pap_deny_grows P p s id name : grows P s (snd (pap_deny p s id name)).
Proof.
  unfold pap_deny. cbn. apply (grows_after _ _ (pap_send_nak s id)); [done|]. destruct (pap_started p); auto with auth.
Qed.
#[local] Hint Resolve pap_deny_grows : auth.

Lemma pap_recv_req_grows e p s buf size q : pap_recv_req e p s buf = Ok q ->
  grows (pap_accepts e (ARecv buf size) p s) s (snd q).
Proof.
  unfold pap_recv_req. destruct (pap_active p); cbn [negb]; [|intros [= <-]; auto with auth].
  destruct (byte_at buf 3) as [id| |]; [|done..]. cbn [mbind res_bind].
  destruct (slice 4 2 buf) as [l| |]; [|done..]. cbn [mbind res_bind].
  destruct (pap_started _); [intros [= <-]; auto with auth|].
  destruct (is_null _); cbn [negb]; [|intros [= <-]; auto with auth].
  destruct (byte_at buf 6) as [n| |] eqn:E6; [|done..]. cbn [mbind res_bind].
  destruct (_ <? _); [intros [= <-]; auto with auth|].
  destruct (byte_at buf (7 + n)) as [m| |] eqn:E7; [|done..]. cbn [mbind res_bind].
  destruct (_ <? _); [intros [= <-]; auto with auth|].
  destruct (strndup buf 7 n) as [name| |] eqn:En; [|done..]. cbn [mbind res_bind].
  destruct (Z.eqb_spec (conf_any_login (ae_conf e)) 0) as [Hy|Hy]; cbn [negb].
  - destruct (strndup buf (8 + n) m) as [pw| |] eqn:Ep; [|done..]. cbn [mbind res_bind].
    pose proof (pap_verdict_local e s name pw Hy) as V. destruct (pwdb_check e s name pw) as [r w]. cbn in V.
    destruct (r =? PWDB_WAIT); [intros [= <-]; auto with auth|].
    destruct (_ =? PWDB_DENIED); intros [= <-]; [auto with auth|].
    apply pap_accept_grows. exists n, m, pw. auto 10.
  - intros [= <-]. apply pap_accept_grows. exists n, m, []. repeat split; auto.
    unfold pap_verdict. now destruct (Z.eqb_spec (conf_any_login (ae_conf e)) 0).
Qed.

Lemma pap_step_grows e i p s q : pap_step e i p s = Ok q -> grows (pap_accepts e i p s) s (snd q).
Proof.
  destruct i as [buf size| | | |r w]; cbn.
  - unfold pap_recv. destruct (_ <? _); [intros [= <-]; auto with auth|].
    destruct (slice 4 2 buf) as [l| |]; [|done..]. cbn [mbind res_bind].
    destruct (_ || _); [intros [= <-]; auto with auth|].
    destruct (byte_at buf 2) as [c| |]; [|done..]. cbn [mbind res_bind].
    destruct (_ =? _); [apply pap_recv_req_grows | intros [= <-]; auto with auth].
  - destruct (pap_timer p); intros [= <-]; cbn; auto with auth.
  - intros [= <-]; auto with auth.
  - intros [= <-]; auto with auth.
  - destruct (pap_peer_id p) as [|name|] eqn:E; try (intros [= <-]; auto with auth; fail).
    unfold pap_auth_result. rewrite E. cbn. destruct (Z.eqb_spec r PWDB_DENIED); intros [= <-]; [auto with auth|].
    now apply pap_accept_grows.
Qed.

Lemma pap_accept_data e p s id name : pap_active (fst (pap_accept e p s id name)) = pap_active p /\
  pap_peer_id (fst (pap_accept e p s id name)) = pap_peer_id p.
Proof. unfold pap_accept. destruct (ppp_auth_succeeded e s name) as [s1 [|]]; done. Qed.

(** A state of a running protocol. *)
Definition pap_run_ok (r : res (pap_auth_data * ses_t)) : Prop :=
  exists p s, r = Ok (p, s) /\ pap_active p = true /\ pap_peer_id p <> SDangling.

Lemma pap_run_same p s : pap_active p = true -> pap_peer_id p <> SDangling -> pap_run_ok (Ok (p, s)).
Proof. intros. now exists p, s. Qed.

Lemma pap_run_accept e p s id name : pap_active p = true -> pap_peer_id p <> SDangling -> pap_run_ok (Ok (pap_accept e p s id name)).
Proof.
  intros A X. destruct (pap_accept_data e p s id name) as [E1 E2]. destruct (pap_accept e p s id name) as [p' s'].
  cbn in *. exists p', s'. rewrite E1, E2. done.
Qed.
#[local] Hint Resolve pap_run_same pap_run_accept : auth.

Lemma pap_recv_req_total e p s buf : bytes_ok buf -> Z.of_nat (length buf) = PPP_BUF_SIZE ->
  pap_active p = true -> pap_peer_id p <> SDangling -> pap_run_ok (pap_recv_req e p s buf).
Proof.
  intros B L A X. unfold pap_recv_req. rewrite A. cbn [negb]. unfold PPP_BUF_SIZE in L.
  destruct (byte_at_ok buf 3 B) as (id & -> & _); [lia|]. cbn [mbind res_bind].
  rewrite slice_ok by lia. cbn [mbind res_bind mret res_ret].
  destruct (pap_started _); [auto with auth|]. destruct (is_null _); cbn [negb]; [|auto with auth].
  destruct (byte_at_ok buf 6 B) as (n & -> & Hn); [lia|]. cbn [mbind res_bind].
  destruct (_ <? n); [auto with auth|].
  destruct (byte_at_ok buf (7 + n) B) as (m & -> & Hm); [lia|]. cbn [mbind res_bind].
  destruct (_ <? m); [auto with auth|].
  destruct (strndup_ok buf 7 n) as (name & ->); [lia..|]. cbn [mbind res_bind].
  destruct (_ =? 0); cbn [negb]; [|auto with auth].
  destruct (strndup_ok buf (8 + n) m) as (pw & ->); [lia..|]. cbn [mbind res_bind].
  destruct (pwdb_check e s name pw) as [r w].
  destruct (r =? PWDB_WAIT); [now apply pap_run_same|]. destruct (_ =? PWDB_DENIED); [|auto with auth].
  now apply pap_run_same.
Qed.

Lemma pap_step_total e i p s : proto_running p -> proto_input_ok e i -> pap_run_ok (pap_step e i p s).
Proof.
  cbn. intros [A X] I. destruct i as [buf size| | | |r w]; cbn; [|destruct (pap_timer p); now apply pap_run_same|now apply pap_run_same..|].
  - destruct I as [B L]. unfold pap_recv. destruct (_ <? _); [now apply pap_run_same|].
    rewrite slice_ok by (unfold PPP_BUF_SIZE in L; lia). cbn [mbind res_bind mret res_ret].
    destruct (_ || _); [now apply pap_run_same|].
    destruct (byte_at_ok buf 2 B) as (c & -> & _); [unfold PPP_BUF_SIZE in L; lia|]. cbn [mbind res_bind].
    destruct (c =? PAP_REQ); [now apply pap_recv_req_total | now apply pap_run_same].
  - destruct (pap_peer_id p) as [|name|] eqn:E; [apply pap_run_same; congruence| |done].
    unfold pap_auth_result. rewrite E. cbn [str_at mbind res_bind mret res_ret]. destruct (r =? PWDB_DENIED); [now apply pap_run_same|].
    now apply pap_run_accept.
Qed.

#[export] Instance pap_sound : SoundProto pap_auth_data (list Z) Empty_set.
Proof.
  split.
  - intros e s. cbn. repeat split; auto; left; auto.
  - intros e i d s d' s' E. now apply (pap_step_grows e i d s (d', s')).
  - intros e i d s R I. destruct (pap_step_total e i d s R I) as (d' & s' & E & R'). eauto.
  - intros d [A X]. unfold proto_finish, pap_proto, pap_finish. destruct (pap_peer_id d); [| |done]; cbn; eauto 10.
  - intros e i d s (A & T & N) I. destruct i as [buf size| | | |r w]; cbn in *; [|now rewrite T|done..|].
    + destruct I as [B L]. unfold pap_recv. destruct (_ <? _); [done|].
      rewrite slice_ok by (unfold PPP_BUF_SIZE in L; lia). cbn [mbind res_bind mret res_ret].
      destruct (_ || _); [done|].
      destruct (byte_at_ok buf 2 B) as (c & -> & _); [unfold PPP_BUF_SIZE in L; lia|]. cbn [mbind res_bind].
      unfold pap_recv_req. rewrite A. now destruct (c =? PAP_REQ).
    + destruct (pap_peer_id d) eqn:E; [done| |done]. now specialize (N s0).
Qed.

(** ** Theorems *)

Lemma pap_recv_request e p s id peer_id passwd rest : pap_waits p -> pap_string peer_id -> pap_string passwd ->
  pap_recv e p s (pap_request id peer_id passwd ++ rest) (Z.of_nat (length (pap_request id peer_id passwd))) =
  Ok (pap_outcome e p s id peer_id passwd).
Proof.
  intros Hp H1 H2. unfold pap_request. rewrite <- app_assoc, length_app.
  assert (L : length (pap_body peer_id passwd) = (2 + length peer_id + length passwd)%nat)
    by (unfold pap_body; rewrite !length_app; cbn; lia).
  change (length (pap_header id _)) with 6%nat. rewrite L.
  destruct H1 as [F1 L1], H2 as [F2 L2]. unfold HDR_LEN, PAP_HDR.
  apply pap_recv_body; unfold HDR_LEN, PAP_HDR, u64; try done; try lia; rewrite Z.mod_small; lia.
Qed.

(** C33. A request of PAP is decided as the databases and the stored password say, whatever is behind it
    in the receive buffer: a right password is acknowledged with the id of the request, the
    session gets the name and the start of the network layers is pending, unless the name is
    taken or there is no unit, and then, as after a wrong password, the request is rejected
    and the session ends; a check that has to wait answers nothing.  In every case the timer
    is stopped. *)
Theorem pap_request_decided e p s id peer_id passwd rest (frame := pap_request id peer_id passwd) :
  pap_waits p -> pap_string peer_id -> pap_string passwd ->
  exists p' s', pap_recv e p s (frame ++ rest) (Z.of_nat (length frame)) = Ok (p', s') /\ pap_timer p' = false /\
    match pap_verdict e s peer_id passwd with
    | VWait => pap_peer_id p' = SLive peer_id /\ pap_req_id p' = id /\ s' = s
    | v =>
        if bool_decide (v = VAccept) && bool_decide (is_Some (ap_session_set_username e s peer_id)) && ae_connect e
        then pap_started p' = true /\ ses_username s' = Some peer_id /\ ses_calls s' = S (ses_calls s) /\
             ses_terminating s' = ses_terminating s /\ ses_sent s' = ses_sent s ++ [pap_msg PAP_ACK id MSG_SUCCESSED]
        else pap_started p' = false /\ ses_calls s' = ses_calls s /\ ses_terminating s' = true /\
             ses_terminate_cause s' <> 0 /\ ses_sent s' = ses_sent s ++ [pap_msg PAP_NAK id MSG_FAILED]
    end.
Proof.
  intros Hp H1 H2. unfold frame. rewrite pap_recv_request by done. unfold pap_outcome. destruct Hp as (_ & Hs & _).
  destruct (pap_verdict e s peer_id passwd) eqn:Ev; [| |eexists _, _; now split|].
  - unfold pap_accept, ppp_auth_succeeded. rewrite bool_decide_true by done. unfold ap_session_set_username.
    destruct (_ && existsb _ _); [rewrite bool_decide_false by now intros [? ?] | rewrite bool_decide_true by eauto];
      [|destruct (ae_connect e)]; eexists _, _; cbn; split_and!; auto using terminate_cause.
  - unfold pap_deny. cbn. rewrite Hs. eexists _, _; cbn. split_and!; done || now apply terminate_cause.
  - unfold pap_deny. cbn. rewrite Hs. eexists _, _; cbn. split_and!; done || now apply terminate_cause.
Qed.

(** No name is authorized by PAP that no request had a right password for: in every run of the
    layer, whatever frames, timers, results of databases and ends of the session it has in
    whatever order, nothing is read outside the receive buffer and nothing is freed twice,
    and if the network layers start, the name of the session was accepted in that run; when
    the session ends the layer is idle. *)
Theorem pap_authorized e ins :
  Forall (layer_input_ok (P := pap_proto)) ins ->
  let '(l, s) := auth_layer_start e pap_init ses0 in
  exists l' s', layer_run ins l s = Ok (l', s') /\ auth_free l' = Ok () /\
    (ses_terminating s' = true -> pap_active (al_d l') = false /\ pap_timer (al_d l') = false) /\
    (ses_authorized s' = true -> exists name, ses_username s' = Some name /\ accepted_in ins l s name).
Proof.
  intros F. pose proof (layer_authorized e ins F) as H. change (@proto_init _ _ _ _) with pap_init in H.
  destruct (auth_layer_start e pap_init ses0) as [l s]. destruct H as (l' & s' & R & Fr & T & H). exists l', s'.
  split_and!; [done..| |done]. intros (I1 & I2 & _)%T. auto.
Qed.

(** A request that has only a header passes the checks of lengths, which are made with the
    unsigned lengths wrapped around: the name and the password are what is behind it in the
    receive buffer. *)
Theorem pap_header_reads_on e p s id peer_id passwd rest :
  pap_waits p -> pap_string peer_id -> pap_string passwd ->
  pap_recv e p s (pap_header id 4 ++ pap_body peer_id passwd ++ rest) 6 =
  pap_recv e p s (pap_request id peer_id passwd ++ rest) (Z.of_nat (length (pap_request id peer_id passwd))).
Proof.
  intros Hp H1 H2. rewrite pap_recv_request by done. apply pap_recv_body; auto; unfold HDR_LEN, PAP_HDR; try lia.
  - destruct H1. change (u64 (4 - 5)) with (2 ^ 64 - 1). lia.
  - destruct H1, H2. unfold u64. replace (4 - 6 - Z.of_nat (length peer_id)) with (2 ^ 64 - 2 - Z.of_nat (length peer_id) + (-1) * 2 ^ 64) by lia.
    rewrite Z_mod_plus_full, Z.mod_small; lia.
Qed.

(** A request whose name is longer than the request stops the timer of the authentication and
    is not answered: after it the protocol still waits, and no timeout ends the session. *)
Theorem pap_malformed_disarms e p s id len n rest e' :
  pap_waits p -> 5 <= len -> len < 65536 -> len - 5 < n ->
  exists p', pap_recv e p s (pap_header id len ++ n :: rest) (len + 2) = Ok (p', s) /\ pap_waits p' /\
    pap_step e' ATimeout p' s = Ok (p', s).
Proof.
  intros (Ha & Hs & Hp) H1 H2 H3. exists (set_pap_timer p false). split_and!; [|done..].
  unfold pap_recv, HDR_LEN, PAP_HDR. destruct (Z.ltb_spec (len + 2) 6); [lia|].
  change (slice 4 2 (pap_header id len ++ n :: rest)) with (Ok (be_encode 2 len)). cbn [mbind res_bind].
  rewrite be_decode_encode, (Z.mod_small len) by (change (256 ^ Z.of_nat 2) with 65536; lia).
  destruct (Z.ltb_spec len (6 - 2)); [lia|]. destruct (Z.ltb_spec (len + 2 - 2) len); [lia|]. cbn [orb].
  change (byte_at (pap_header id len ++ n :: rest) 2) with (Ok PAP_REQ). cbn [mbind res_bind Z.eqb PAP_REQ Pos.eqb].
  unfold pap_recv_req, PAP_HDR. rewrite Ha. cbn [negb]. change (byte_at (pap_header id len ++ n :: rest) 3) with (Ok id).
  change (slice 4 2 (pap_header id len ++ n :: rest)) with (Ok (be_encode 2 len)). cbn [mbind res_bind].
  rewrite be_decode_encode, (Z.mod_small len) by (change (256 ^ Z.of_nat 2) with 65536; lia).
  change (pap_started (set_pap_timer p false)) with (pap_started p).
  change (pap_peer_id (set_pap_timer p false)) with (pap_peer_id p). rewrite Hs, Hp. cbn [is_null negb].
  change (byte_at (pap_header id len ++ n :: rest) 6) with (Ok n). cbn [mbind res_bind].
  unfold u64. rewrite Z.mod_small by lia. destruct (Z.ltb_spec (len - 6 + 2 - 1) n); [done | lia].
Qed.

(** ** Witnesses *)
Definition pap_env0 : pap_env :=
  mk_aenv auth_conf0 (-1) false [] true [] [mk_pwdb None (Some (fun _ => Some [112]))].

Lemma pap_request_decided_witness :
  exists p' s', pap_recv pap_env0 (pap_start pap_init) ses0 (pap_request 7 [117] [112] ++ [9]) 10 = Ok (p', s') /\
    ses_username s' = Some [117].
Proof.
  destruct (pap_request_decided pap_env0 (pap_start pap_init) ses0 7 [117] [112] [9]) as (p' & s' & E & _ & H);
    [done | split; [repeat constructor; lia | cbn; lia] | split; [repeat constructor; lia | cbn; lia] |].
  exists p', s'. split; [exact E|]. vm_compute in H. apply H.
Defined.
