(* ===== verification/AuthChap.v ===== *)
(** * CHAP with MD5 (accel-pppd/auth/auth_chap_md5.c)

    The challenge-response protocol as a protocol of [PppAuth].  What auth_chap_md5.c,
    auth_mschap_v1.c and auth_mschap_v2.c have in the same words (data, timers, start, finish,
    the outcome of a right response) is defined once, over what a protocol keeps in addition
    ([ch_x]) and its messages; [AuthMschap] has the other two.

    MD5 is a parameter.  The names in the configuration and the messages are short enough for
    the length field of a frame. *)
From stdpp Require Import strings.
From S2P Require Import Prelude CString PppAuth AuthPap.

Definition CHAP_CHALLENGE : Z := 1.
Definition CHAP_RESPONSE : Z := 2.
Definition CHAP_SUCCESS : Z := 3.
Definition CHAP_FAILURE : Z := 4.
(** sizeof(struct chap_hdr) *)
Definition CHAP_HDR : Z := 6.

Record chap_auth_data (X : Type) : Type := mk_chap {
  ch_h : bool;
  ch_id : Z;
  ch_val : list Z;
  ch_timeout : bool;
  ch_interval : bool;
  ch_failure : Z;
  ch_name : str_ptr;
  ch_started : bool;
  ch_x : X
}.
Arguments mk_chap {X}.
Arguments ch_h {X}.
Arguments ch_id {X}.
Arguments ch_val {X}.
Arguments ch_timeout {X}.
Arguments ch_interval {X}.
Arguments ch_failure {X}.
Arguments ch_name {X}.
Arguments ch_started {X}.
Arguments ch_x {X}.

Section Fields.
Context {X : Type} (d : chap_auth_data X).
Definition set_ch_id (n : Z) : chap_auth_data X :=
  mk_chap (ch_h d) n (ch_val d) (ch_timeout d) (ch_interval d) (ch_failure d) (ch_name d) (ch_started d) (ch_x d).
Definition set_ch_val (v : list Z) (t : bool) : chap_auth_data X :=
  mk_chap (ch_h d) (ch_id d) v t (ch_interval d) (ch_failure d) (ch_name d) (ch_started d) (ch_x d).
Definition set_ch_timeout (t : bool) : chap_auth_data X :=
  mk_chap (ch_h d) (ch_id d) (ch_val d) t (ch_interval d) (ch_failure d) (ch_name d) (ch_started d) (ch_x d).
Definition set_ch_failure (n : Z) : chap_auth_data X :=
  mk_chap (ch_h d) (ch_id d) (ch_val d) (ch_timeout d) (ch_interval d) n (ch_name d) (ch_started d) (ch_x d).
Definition set_ch_name (p : str_ptr) : chap_auth_data X :=
  mk_chap (ch_h d) (ch_id d) (ch_val d) (ch_timeout d) (ch_interval d) (ch_failure d) p (ch_started d) (ch_x d).
Definition set_ch_started (i : bool) : chap_auth_data X :=
  mk_chap (ch_h d) (ch_id d) (ch_val d) (ch_timeout d) (ch_interval d || i) (ch_failure d) (ch_name d) true (ch_x d).
Definition set_ch_x (x : X) : chap_auth_data X :=
  mk_chap (ch_h d) (ch_id d) (ch_val d) (ch_timeout d) (ch_interval d) (ch_failure d) (ch_name d) (ch_started d) x.
End Fields.

(** A frame with its header. *)
Definition chap_frame (code id : Z) (body : list Z) : list Z :=
  be_encode 2 PPP_CHAP ++ [code; u8 id] ++ be_encode 2 (CHAP_HDR - 2 + Z.of_nat (length body)) ++ body.

(** ** What the three protocols share *)
Section Chap.
Context {X A W : Type}.
(** VALUE_SIZE, the name in a challenge, and the messages; a message may be read through a
    null pointer. *)
Context (value_size : nat) (challenge_name : auth_env A W -> list Z).
Context (chap_send_failure : chap_auth_data X -> ses_t -> res ses_t)
  (chap_send_success : chap_auth_data X -> Z -> ses_t -> ses_t).
Notation env := (auth_env A W).
Notation data := (chap_auth_data X).

(** [auth_data_init] *)
Definition chap_init (x : X) : data := mk_chap false 0 (replicate value_size 0) false false 0 SNull false x.

(** [chap_send_challenge]; a short read of random bytes leaves the rest of the old value. *)
Definition chap_send_challenge (e : env) (d : data) (s : ses_t) (new : bool) : data * ses_t :=
  let v := if new then take value_size (ae_random e ++ drop (length (ae_random e)) (ch_val d)) else ch_val d in
  (set_ch_val d v (ch_timeout d || negb (conf_timeout (ae_conf e) =? 0)),
   ppp_chan_send s (chap_frame CHAP_CHALLENGE (ch_id d) ([Z.of_nat value_size] ++ v ++ challenge_name e))).

(** [chap_start] *)
Definition chap_start (e : env) (d : data) (s : ses_t) : data * ses_t :=
  chap_send_challenge e (mk_chap true 1 (ch_val d) (ch_timeout d) (ch_interval d) (ch_failure d) SNull (ch_started d) (ch_x d)) s true.

(** [chap_finish]; [free_name] is false in MS-CHAP v2, which does not free the name. *)
Definition chap_finish (free_name : bool) (d : data) : res data :=
  x ← (if free_name then free_str (ch_name d) else mret (ch_name d));
  mret (mk_chap false (ch_id d) (ch_val d) false false (ch_failure d) x (ch_started d) (ch_x d)).

(** [chap_timeout_timer] *)
Definition chap_timeout_timer (e : env) (d : data) (s : ses_t) : data * ses_t :=
  let d := set_ch_failure d (ch_failure d + 1) in
  if ch_failure d =? conf_max_failure (ae_conf e)
  then (d, if ch_started d then ap_session_terminate s TERM_USER_ERROR else ppp_auth_failed s None)
  else chap_send_challenge e d s false.

(** [chap_restart_timer], [chap_restart] *)
Definition chap_restart (e : env) (d : data) (s : ses_t) : data * ses_t := chap_send_challenge e d s true.

(** A response that is right. *)
Definition chap_ok (e : env) (d : data) (s : ses_t) (name : list Z) : res (data * ses_t) :=
  if negb (ch_started d) then
    let '(s, ok) := ppp_auth_succeeded e s name in
    if negb ok then
      s ← chap_send_failure d s;
      mret (set_ch_id d (u8 (ch_id d + 1)), ap_session_terminate s TERM_AUTH_ERROR)
    else
      let s := chap_send_success d (ch_id d) s in
      let d := set_ch_started d (negb (conf_interval (ae_conf e) =? 0)) in
      mret (set_ch_id d (u8 (ch_id d + 1)), s)
  else mret (set_ch_id d (u8 (ch_id d + 1)), chap_send_success d (ch_id d) s).

(** A response that is wrong, in a session that runs or in one that does not yet. *)
Definition chap_bad (d : data) (s : ses_t) (cause : Z) (name : option (list Z)) : ses_t :=
  if ch_started d then ap_session_terminate s cause else ppp_auth_failed s name.

(** Where any name will do. *)
Definition chap_any (e : env) (d : data) (s : ses_t) (name : list Z) : res (data * ses_t) :=
  let '(s, ok) := ppp_auth_succeeded e s name in
  if negb ok then s ← chap_send_failure d s; mret (d, ap_session_terminate s TERM_AUTH_ERROR)
  else
    let s := chap_send_success d (ch_id d) s in
    mret (set_ch_id (set_ch_started d false) (u8 (ch_id d + 1)), s).

(** [auth_result] as far as it is shared *)
Definition chap_auth_result (e : env) (d : data) (s : ses_t) (r : Z) : res (data * ses_t) :=
  name ← str_at (ch_name d);
  let d := set_ch_name d SNull in
  if r =? PWDB_DENIED then
    s ← chap_send_failure d s;
    mret (set_ch_id d (u8 (ch_id d + 1)), chap_bad d s TERM_AUTH_ERROR (Some name))
  else chap_ok e d s name.

(** [chap_recv] *)
Definition chap_recv (recv_response : env -> data -> ses_t -> list Z -> res (data * ses_t))
    (e : env) (d : data) (s : ses_t) (buf : list Z) (size : Z) : res (data * ses_t) :=
  if size <? CHAP_HDR then mret (d, s)
  else
    l ← slice 4 2 buf;
    let len := be_decode l in
    if (len <? CHAP_HDR - 2) || (size - 2 <? len) then mret (d, s)
    else
      code ← byte_at buf 2;
      if code =? CHAP_RESPONSE then recv_response e d s buf else mret (d, s).

(** The protocol: frames come while the handler is registered, timers run out while they run,
    a restart is for a session that does not end, a result for a running protocol that waits. *)
Definition chap_step (recv_response : env -> data -> ses_t -> list Z -> res (data * ses_t))
    (auth_result : env -> data -> ses_t -> Z -> list W -> res (data * ses_t))
    (e : env) (i : auth_input W) (d : data) (s : ses_t) : res (data * ses_t) :=
  match i with
  | ARecv buf size => if ch_h d then chap_recv recv_response e d s buf size else mret (d, s)
  | ATimeout => mret (if ch_timeout d then chap_timeout_timer e d s else (d, s))
  | AInterval => mret (if ch_interval d then chap_restart e d s else (d, s))
  | ARestart => mret (if ch_h d then chap_restart e d s else (d, s))
  | AResult r w => match ch_h d, ch_name d with true, SLive _ => auth_result e d s r w | _, _ => mret (d, s) end
  end.
End Chap.

(** ** CHAP-MD5 *)

Definition VALUE_SIZE : nat := 16.
Definition CHAP_MSG_FAILURE : list Z := str_bytes "Authentication failed".
Definition CHAP_MSG_SUCCESS : list Z := str_bytes "Authentication succeeded".
(** sizeof(struct chap_challenge) *)
Definition CHAP_MSG : Z := 23.

(** The arguments of a check: id, challenge, response. *)
Record chap_args : Type := mk_cargs { ca_id : Z; ca_challenge : list Z; ca_response : list Z }.
Notation md5_env := (auth_env chap_args Empty_set).
Notation md5_data := (chap_auth_data unit).

Definition md5_challenge_name (e : md5_env) : list Z := default [] (conf_challenge_name (ae_conf e)).

(** [chap_send_failure] *)
Definition chap_send_failure (d : md5_data) (s : ses_t) : res ses_t :=
  mret (ppp_chan_send s (chap_frame CHAP_FAILURE (ch_id d) CHAP_MSG_FAILURE)).

(** [chap_send_success] *)
Definition chap_send_success (d : md5_data) (id : Z) (s : ses_t) : ses_t :=
  ppp_chan_send s (chap_frame CHAP_SUCCESS id CHAP_MSG_SUCCESS).

(** [load_config] *)
Definition chap_load_config (opt : string -> option string) (c : auth_conf) : auth_conf :=
  mk_aconf (opt_pos (opt "timeout"%string) (conf_timeout c)) (opt_pos (opt "interval"%string) (conf_interval c))
    (opt_pos (opt "max-failure"%string) (conf_max_failure c)) (opt_int (opt "any-login"%string) (conf_any_login c))
    (Some (str_bytes (default "accel-ppp"%string (opt "challenge-name"%string)))).

Section Md5.
Context (md5 : list Z -> list Z).

(** [chap_recv_response] *)
Definition chap_recv_response (e : md5_env) (d : md5_data) (s : ses_t) (buf : list Z) : res (md5_data * ses_t) :=
  let d := set_ch_timeout d false in
  id ← byte_at buf 3;
  if ch_started d && (id =? ch_id d - 1) then mret (d, chap_send_success d id s)
  else if negb (is_null (ch_name d)) then mret (d, s)
  else if negb (id =? ch_id d) then mret (d, s)
  else
    val_size ← byte_at buf 6;
    if negb (val_size =? Z.of_nat VALUE_SIZE) then
      s ← chap_send_failure d s;
      mret (d, chap_bad d s TERM_USER_ERROR None)
    else
      l ← slice 4 2 buf;
      name ← strndup buf CHAP_MSG (u64 (be_decode l - CHAP_MSG + 2));
      if negb (conf_any_login (ae_conf e) =? 0) then chap_any chap_send_failure chap_send_success e d s name
      else
        val ← slice 7 VALUE_SIZE buf;
        let '(r, _) := pwdb_check e s name (mk_cargs (ch_id d) (ch_val d) val) in
        if r =? PWDB_WAIT then mret (set_ch_name d (SLive name), s)
        else if r =? PWDB_NO_IMPL then
          match pwdb_get_passwd (ae_dbs e) name with
          | None => s ← chap_send_failure d s; mret (d, s)
          | Some passwd =>
              if negb (bool_decide (md5 ([id] ++ passwd ++ ch_val d) = val)) then
                s ← chap_send_failure d s;
                mret (d, chap_bad d s TERM_USER_ERROR (Some name))
              else chap_ok chap_send_failure chap_send_success e d s name
          end
        else if r =? PWDB_DENIED then
          s ← chap_send_failure d s;
          mret (d, chap_bad d s TERM_USER_ERROR (Some name))
        else chap_ok chap_send_failure chap_send_success e d s name.

(** [auth_result] *)
Definition md5_auth_result (e : md5_env) (d : md5_data) (s : ses_t) (r : Z) (_ : list Empty_set) : res (md5_data * ses_t) :=
  chap_auth_result chap_send_failure chap_send_success e d s r.

Definition md5_step : md5_env -> auth_input Empty_set -> md5_data -> ses_t -> res (md5_data * ses_t) :=
  chap_step VALUE_SIZE md5_challenge_name chap_recv_response md5_auth_result.
Definition md5_start : md5_env -> md5_data -> ses_t -> md5_data * ses_t := chap_start VALUE_SIZE md5_challenge_name.
Definition md5_init : md5_data := chap_init VALUE_SIZE tt.
End Md5.

(** ** What holds for the three protocols *)
Section ChapLemmas.
Context {X A W : Type} (value_size : nat) (challenge_name : auth_env A W -> list Z).
Context (failure : chap_auth_data X -> ses_t -> res ses_t) (success : chap_auth_data X -> Z -> ses_t -> ses_t).
Context (failure_same : forall d s s', failure d s = Ok s' -> ses_same s s').
Context (success_same : forall d id s, ses_same s (success d id s)).
Notation env := (auth_env A W).
Notation data := (chap_auth_data X).
Implicit Types (e : env) (d : data).

(** When the messages can be sent. *)
Context (xready : X -> Prop).

(** A step whose result is not outside memory and leaves a running protocol. *)
Definition chap_running (d : data) : Prop :=
  ch_h d = true /\ ch_name d <> SDangling /\ (forall name, ch_name d = SLive name -> xready (ch_x d)).
Definition chap_idle (d : data) : Prop :=
  ch_h d = false /\ ch_timeout d = false /\ ch_interval d = false.
Definition chap_run_ok (r : res (data * ses_t)) : Prop := exists d s, r = Ok (d, s) /\ chap_running d.

Lemma chap_run_same d s : chap_running d -> chap_run_ok (Ok (d, s)).
Proof using. intros. now exists d, s. Qed.

Lemma chap_ok_grows (P : list Z -> Prop) e d s name q : P name ->
  chap_ok failure success e d s name = Ok q -> grows P s (snd q).
Proof using failure_same success_same.
  intros HP. unfold chap_ok. destruct (ch_started d); cbn [negb]; [intros [= <-]; cbn; auto with auth|].
  destruct (ppp_auth_succeeded e s name) as [s1 ok] eqn:E. destruct ok; cbn [negb].
  - intros [= <-]. cbn. apply (grows_succeeded _ _ _ _ _ _ _ E); auto.
  - destruct (failure d s1) as [s2| |] eqn:E1; [|done..]. intros [= <-].
    cbn. apply (grows_succeeded_end _ _ _ _ _ _ _ _ E); [done | now apply (failure_same d)].
Qed.

Lemma chap_any_grows (P : list Z -> Prop) e d s name q : P name ->
  chap_any failure success e d s name = Ok q -> grows P s (snd q).
Proof using failure_same success_same.
  intros HP. unfold chap_any. destruct (ppp_auth_succeeded e s name) as [s1 ok] eqn:E. destruct ok; cbn [negb].
  - intros [= <-]. cbn. apply (grows_succeeded _ _ _ _ _ _ _ E); auto.
  - destruct (failure d s1) as [s2| |] eqn:E1; [|done..]. intros [= <-].
    cbn. apply (grows_succeeded_end _ _ _ _ _ _ _ _ E); [done | now apply (failure_same d)].
Qed.

Lemma chap_bad_grows P d s c name : grows P s (chap_bad d s c name).
Proof using. unfold chap_bad. destruct (ch_started d); auto with auth. Qed.

(** A failure that is sent before the session ends. *)
Lemma chap_fail_grows P d d' d1 s c name q :
  (s ← failure d s; mret (d', chap_bad d1 s c name)) = Ok q -> grows P s (snd q).
Proof using failure_same.
  destruct (failure d s) as [s1| |] eqn:E; [|done..]. intros [= <-]. apply (grows_after _ _ s1), chap_bad_grows.
  now apply (failure_same d).
Qed.

Lemma chap_auth_result_grows (P : list Z -> Prop) e d s r q :
  (forall name, ch_name d = SLive name -> r <> PWDB_DENIED -> P name) ->
  chap_auth_result failure success e d s r = Ok q -> grows P s (snd q).
Proof using failure_same success_same.
  intros HP. unfold chap_auth_result. destruct (ch_name d) as [|name|]; [done| |done]. cbn [str_at mbind res_bind mret res_ret].
  destruct (Z.eqb_spec r PWDB_DENIED); [apply chap_fail_grows | apply chap_ok_grows; auto].
Qed.

Lemma chap_timer_grows P e d s : grows P s (snd (chap_timeout_timer value_size challenge_name e d s)).
Proof using.
  unfold chap_timeout_timer. destruct (_ =? _); cbn; [|auto with auth]. destruct (ch_started d); auto with auth.
Qed.

Lemma chap_step_grows (P : list Z -> Prop) recv_response auth_result e i d s q :
  (forall buf size q, i = ARecv buf size -> recv_response e d s buf = Ok q -> grows P s (snd q)) ->
  (forall r w q, i = AResult r w -> auth_result e d s r w = Ok q -> grows P s (snd q)) ->
  chap_step value_size challenge_name recv_response auth_result e i d s = Ok q -> grows P s (snd q).
Proof using.
  intros HR HA. destruct i as [buf size| | | |r w]; cbn.
  - destruct (ch_h d); [|intros [= <-]; auto with auth]. unfold chap_recv.
    destruct (_ <? _); [intros [= <-]; auto with auth|].
    destruct (slice 4 2 buf) as [l| |]; [|done..]. cbn [mbind res_bind].
    destruct (_ || _); [intros [= <-]; auto with auth|].
    destruct (byte_at buf 2) as [c| |]; [|done..]. cbn [mbind res_bind].
    destruct (_ =? _); [now apply (HR buf size) | intros [= <-]; auto with auth].
  - intros [= <-]. destruct (ch_timeout d); [apply chap_timer_grows | auto with auth].
  - intros [= <-]. destruct (ch_interval d); cbn; auto with auth.
  - intros [= <-]. destruct (ch_h d); cbn; auto with auth.
  - destruct (ch_h d), (ch_name d); try (intros [= <-]; auto with auth; fail). now apply (HA r w).
Qed.

Section Total.
Context (failure_total : forall d s, xready (ch_x d) -> exists s', failure d s = Ok s').

Lemma chap_ok_total e d s name : chap_running d -> xready (ch_x d) -> chap_run_ok (chap_ok failure success e d s name).
Proof using failure_total.
  intros R Rx. unfold chap_ok. destruct (ch_started d); cbn [negb]; [now apply chap_run_same|].
  destruct (ppp_auth_succeeded e s name) as [s1 [|]]; cbn [negb]; [now apply chap_run_same|].
  destruct (failure_total d s1 Rx) as [s2 ->]. now apply chap_run_same.
Qed.

Lemma chap_any_total e d s name : chap_running d -> xready (ch_x d) -> chap_run_ok (chap_any failure success e d s name).
Proof using failure_total.
  intros R Rx. unfold chap_any.
  destruct (ppp_auth_succeeded e s name) as [s1 [|]]; cbn [negb]; [now apply chap_run_same|].
  destruct (failure_total d s1 Rx) as [s2 ->]. now apply chap_run_same.
Qed.

Lemma chap_fail_total d d' s (f : ses_t -> ses_t) : chap_running d' -> xready (ch_x d) ->
  chap_run_ok (s ← failure d s; mret (d', f s)).
Proof using failure_total. intros R Rx. destruct (failure_total d s Rx) as [s1 ->]. now apply chap_run_same. Qed.

Lemma chap_auth_result_total e d s r name : chap_running d -> ch_name d = SLive name ->
  chap_run_ok (chap_auth_result failure success e d s r).
Proof using failure_total.
  intros (R & _ & Rx) E. specialize (Rx _ E). unfold chap_auth_result. rewrite E. cbn [str_at mbind res_bind mret res_ret].
  assert (R0 : chap_running (set_ch_name d SNull)) by now split.
  destruct (_ =? _); [now apply chap_fail_total | now apply chap_ok_total].
Qed.
End Total.

Lemma chap_challenge_running e d s new : chap_running d -> chap_running (fst (chap_send_challenge value_size challenge_name e d s new)).
Proof using. done. Qed.

(** A frame whose accesses are inside the receive buffer: the name of a message of [off] bytes
    before it is in the frame or ends in the buffer. *)
Definition chap_buf_ok (off : nat) (buf : list Z) (size : Z) : Prop :=
  bytes_ok buf /\ Z.of_nat (length buf) = PPP_BUF_SIZE /\ size <= PPP_BUF_SIZE /\
  (0 ∈ drop off buf \/ Z.of_nat off <= be_decode (take 2 (drop 4 buf)) + 2).

Lemma chap_step_total recv_response auth_result off e i d s :
  (forall buf size, i = ARecv buf size -> be_decode (take 2 (drop 4 buf)) + 2 <= size -> chap_buf_ok off buf size ->
     chap_run_ok (recv_response e d s buf)) ->
  (forall r w name, i = AResult r w -> ch_name d = SLive name -> chap_run_ok (auth_result e d s r w)) ->
  chap_running d -> match i with ARecv buf size => chap_buf_ok off buf size | _ => True end ->
  chap_run_ok (chap_step value_size challenge_name recv_response auth_result e i d s).
Proof using.
  intros HR HA R I. destruct i as [buf size| | | |r w]; cbn.
  - destruct (ch_h d); [|now apply chap_run_same]. unfold chap_recv. destruct (_ <? _); [now apply chap_run_same|].
    pose proof I as (B & L & _). unfold PPP_BUF_SIZE in L. rewrite slice_ok by lia. cbn [mbind res_bind mret res_ret].
    destruct (_ <? CHAP_HDR - 2); cbn [orb]; [now apply chap_run_same|].
    destruct (Z.ltb_spec (size - 2) (be_decode (take 2 (drop 4 buf)))) as [|Hl]; [now apply chap_run_same|].
    destruct (byte_at_ok buf 2 B) as (c & -> & _); [lia|]. cbn [mbind res_bind].
    destruct (c =? CHAP_RESPONSE); [apply (HR buf size); auto; lia | now apply chap_run_same].
  - destruct (ch_timeout d); [|now apply chap_run_same]. unfold chap_timeout_timer.
    destruct (_ =? _); now apply chap_run_same.
  - destruct (ch_interval d); now apply chap_run_same.
  - destruct (ch_h d); now apply chap_run_same.
  - destruct (ch_h d), (ch_name d) eqn:E; try now apply chap_run_same. now apply (HA r w s0).
Qed.

Lemma chap_finish_total b d : chap_running d -> exists d', chap_finish b d = Ok d' /\ chap_idle d'.
Proof using. intros (R & N & _). unfold chap_finish. destruct b, (ch_name d); cbn; try done; eexists; now split. Qed.

Lemma chap_idle_step recv_response auth_result e i d s : chap_idle d ->
  chap_step value_size challenge_name recv_response auth_result e i d s = Ok (d, s).
Proof using.
  intros (H & T & I). destruct i; cbn; now rewrite ?H, ?T, ?I.
Qed.

(** The name of a response is read inside the buffer. *)
Lemma chap_name_ok off buf size l : chap_buf_ok off buf size -> l = be_decode (take 2 (drop 4 buf)) -> l + 2 <= size ->
  exists name, strndup buf (Z.of_nat off) (u64 (l - Z.of_nat off + 2)) = Ok name.
Proof using.
  intros (B & L & Hs & H) -> Hl. set (l := be_decode _) in *. unfold PPP_BUF_SIZE in *.
  destruct (decide (Z.of_nat off <= l + 2)) as [Hin|Hout].
  - apply strndup_ok; [lia|]. unfold u64. rewrite Z.mod_small by lia. lia.
  - destruct H as [H|H]; [|lia]. unfold strndup. rewrite Nat2Z.id.
    enough (G : forall n, exists x, strn n (drop off buf) = Some x) by (edestruct G as [x ->]; now exists x).
    clear -H. revert H. generalize (drop off buf). intros b. induction b as [|c b IH]; intros Hb; [now apply elem_of_nil in Hb|].
    intros [|n]; cbn; [eauto|]. destruct (Z.eqb_spec c 0); [eauto|].
    apply elem_of_cons in Hb as [E|Hb]; [congruence|]. destruct (IH Hb n) as [x ->]. eauto.
Qed.
End ChapLemmas.

(** ** CHAP-MD5: theorems *)
Section Md5Theorems.
Context (md5 : list Z -> list Z).
Implicit Types (e : md5_env) (d : md5_data).

(** What a response is good for. *)
Definition md5_verdict e s d (name val : list Z) : verdict :=
  let r := fst (pwdb_check e s name (mk_cargs (ch_id d) (ch_val d) val)) in
  if r =? PWDB_WAIT then VWait
  else if r =? PWDB_NO_IMPL then
    match pwdb_get_passwd (ae_dbs e) name with
    | None => VUnknown
    | Some passwd => if bool_decide (md5 ([ch_id d] ++ passwd ++ ch_val d) = val) then VAccept else VDeny
    end
  else if r =? PWDB_DENIED then VDeny else VAccept.

(** A name is accepted by a response to the challenge that waits for one, or by the late
    result of the database that was asked for that name. *)
Definition md5_accepts e (i : auth_input Empty_set) d s (name : list Z) : Prop :=
  match i with
  | ARecv buf size => exists val n, byte_at buf 3 = Ok (ch_id d) /\ strndup buf CHAP_MSG n = Ok name /\
      (conf_any_login (ae_conf e) <> 0 \/ slice 7 VALUE_SIZE buf = Ok val /\ md5_verdict e s d name val = VAccept)
  | AResult r _ => ch_name d = SLive name /\ r <> PWDB_DENIED
  | _ => False
  end.

(** The end of [chap_recv_response], once the value is read. *)
Definition md5_outcome e d s (name val : list Z) : res (md5_data * ses_t) :=
  match md5_verdict e s d name val with
  | VAccept => chap_ok chap_send_failure chap_send_success e d s name
  | VDeny => s ← chap_send_failure d s; mret (d, chap_bad d s TERM_USER_ERROR (Some name))
  | VWait => mret (set_ch_name d (SLive name), s)
  | VUnknown => s ← chap_send_failure d s; mret (d, s)
  end.

Lemma chap_recv_response_eq e d s buf id (d0 := set_ch_timeout d false) : byte_at buf 3 = Ok id ->
  chap_recv_response md5 e d s buf =
  if ch_started d && (id =? ch_id d - 1) then Ok (d0, chap_send_success d0 id s)
  else if negb (is_null (ch_name d)) || negb (id =? ch_id d) then Ok (d0, s)
  else
    val_size ← byte_at buf 6;
    if negb (val_size =? Z.of_nat VALUE_SIZE) then
      s ← chap_send_failure d0 s; mret (d0, chap_bad d0 s TERM_USER_ERROR None)
    else
      l ← slice 4 2 buf;
      name ← strndup buf CHAP_MSG (u64 (be_decode l - CHAP_MSG + 2));
      if negb (conf_any_login (ae_conf e) =? 0) then chap_any chap_send_failure chap_send_success e d0 s name
      else val ← slice 7 VALUE_SIZE buf; md5_outcome e d0 s name val.
Proof using.
  intros E. unfold chap_recv_response, md5_outcome, md5_verdict. rewrite E. cbn [mbind res_bind].
  change (ch_started (set_ch_timeout d false)) with (ch_started d). change (ch_id (set_ch_timeout d false)) with (ch_id d).
  change (ch_name (set_ch_timeout d false)) with (ch_name d). change (ch_val (set_ch_timeout d false)) with (ch_val d).
  destruct (_ && _); [done|]. destruct (is_null _); cbn [negb orb]; [|done].
  destruct (Z.eqb_spec id (ch_id d)) as [->|]; cbn [negb]; [|done].
  destruct (byte_at buf 6) as [v| |]; [|done..]. cbn [mbind res_bind]. destruct (v =? _); cbn [negb]; [|done].
  destruct (slice 4 2 buf) as [l| |]; [|done..]. cbn [mbind res_bind].
  destruct (strndup _ _ _) as [name| |]; [|done..]. cbn [mbind res_bind]. destruct (_ =? 0); cbn [negb]; [|done].
  destruct (slice 7 VALUE_SIZE buf) as [val| |]; [|done..]. cbn [mbind res_bind].
  destruct (pwdb_check _ _ _ _) as [r w]. cbn [fst]. destruct (r =? PWDB_WAIT); [done|].
  destruct (r =? PWDB_NO_IMPL); [|now destruct (r =? PWDB_DENIED)].
  destruct (pwdb_get_passwd _ _) as [pw|]; [|done]. now destruct (bool_decide _).
Qed.

Lemma md5_failure_same (d : md5_data) s s' : chap_send_failure d s = Ok s' -> ses_same s s'.
Proof using. now intros [= <-]. Qed.
Lemma md5_success_same (d : md5_data) id s : ses_same s (chap_send_success d id s).
Proof using. done. Qed.
Definition md5_ready (_ : unit) : Prop := True.
Lemma md5_failure_total (d : md5_data) s : md5_ready (ch_x d) -> exists s', chap_send_failure d s = Ok s'.
Proof using. now eexists. Qed.

Lemma chap_recv_response_grows e d s buf size q : chap_recv_response md5 e d s buf = Ok q ->
  grows (md5_accepts e (ARecv buf size) d s) s (snd q).
Proof using.
  destruct (byte_at buf 3) as [id| |] eqn:E3; [|unfold chap_recv_response; now rewrite E3..].
  rewrite (chap_recv_response_eq e d s buf id E3). set (d0 := set_ch_timeout d false).
  destruct (_ && _); [intros [= <-]; cbn; auto with auth|].
  destruct (is_null _); cbn [negb orb]; [|intros [= <-]; auto with auth].
  destruct (Z.eqb_spec id (ch_id d)) as [->|]; cbn [negb]; [|intros [= <-]; auto with auth].
  destruct (byte_at buf 6) as [v| |]; [|done..]. cbn [mbind res_bind].
  destruct (v =? _); cbn [negb]; [|apply (chap_fail_grows _ md5_failure_same)].
  destruct (slice 4 2 buf) as [l| |]; [|done..]. cbn [mbind res_bind].
  destruct (strndup _ _ _) as [name| |] eqn:En; [|done..]. cbn [mbind res_bind].
  destruct (Z.eqb_spec (conf_any_login (ae_conf e)) 0) as [Hy|Hy]; cbn [negb].
  - destruct (slice 7 VALUE_SIZE buf) as [val| |] eqn:Ev; [|done..]. cbn [mbind res_bind]. unfold md5_outcome.
    destruct (md5_verdict e s d0 name val) eqn:Hv.
    + apply (chap_ok_grows _ _ md5_failure_same md5_success_same). exists val, (u64 (be_decode l - CHAP_MSG + 2)). auto.
    + apply (chap_fail_grows _ md5_failure_same).
    + intros [= <-]; auto with auth.
    + intros [= <-]; cbn. auto with auth.
  - apply (chap_any_grows _ _ md5_failure_same md5_success_same). exists [], (u64 (be_decode l - CHAP_MSG + 2)). auto.
Qed.

Lemma chap_recv_response_total e d s buf size : chap_running md5_ready d -> chap_buf_ok 23 buf size ->
  be_decode (take 2 (drop 4 buf)) + 2 <= size -> chap_run_ok md5_ready (chap_recv_response md5 e d s buf).
Proof using.
  intros R I Hl. pose proof I as (B & L & _). unfold PPP_BUF_SIZE in L.
  destruct (byte_at_ok buf 3 B) as (id & E3 & _); [lia|]. rewrite (chap_recv_response_eq e d s buf id E3).
  set (d0 := set_ch_timeout d false). assert (R0 : chap_running md5_ready d0) by done.
  destruct (_ && _); [now apply chap_run_same|]. destruct (_ || _); [now apply chap_run_same|].
  destruct (byte_at_ok buf 6 B) as (v & -> & _); [lia|]. cbn [mbind res_bind].
  destruct (v =? _); cbn [negb]; [|now apply (chap_fail_total _ _ md5_failure_total)].
  rewrite (slice_ok 4 2) by lia. cbn [mbind res_bind mret res_ret].
  destruct (chap_name_ok 23 buf size _ I eq_refl Hl) as (name & En). change (Z.of_nat 23) with CHAP_MSG in En. rewrite En.
  cbn [mbind res_bind]. destruct (_ =? 0); cbn [negb]; [|now apply (chap_any_total _ _ _ md5_failure_total)].
  rewrite slice_ok by (unfold VALUE_SIZE; lia). cbn [mbind res_bind mret res_ret]. unfold md5_outcome.
  destruct (md5_verdict _ _ _ _ _); [|now apply (chap_fail_total _ _ md5_failure_total)|apply chap_run_same; split_and!; [apply R | done | done]|].
  - now apply (chap_ok_total _ _ _ md5_failure_total).
  - now apply (chap_fail_total _ _ md5_failure_total d0 d0 s (fun s => s)).
Qed.

#[local] Instance md5_proto : AuthProto md5_data chap_args Empty_set := {|
  proto_init := md5_init;
  proto_start := md5_start;
  proto_step := md5_step md5;
  proto_finish := chap_finish true;
  proto_running := chap_running md5_ready;
  proto_idle := chap_idle;
  proto_input_ok _ i := match i with ARecv buf size => chap_buf_ok 23 buf size | _ => True end;
  proto_accepts := md5_accepts
|}.

#[local] Instance md5_sound : SoundProto md5_data chap_args Empty_set.
Proof.
  split.
  - intros e s. split; [done|]. split; [now apply ses_step_same | done].
  - intros e i d s d' s'. apply (chap_step_grows VALUE_SIZE md5_challenge_name _ (chap_recv_response md5) md5_auth_result e i d s (d', s')).
    + intros buf size q ->. apply chap_recv_response_grows.
    + intros r w q ->. now apply (chap_auth_result_grows _ _ md5_failure_same md5_success_same).
  - intros e i d s R I. apply (chap_step_total _ _ _ _ _ 23); auto.
    + intros buf size -> Hl Hb. now apply (chap_recv_response_total e d s buf size).
    + intros r w name -> Hn. apply (chap_auth_result_total _ _ _ md5_failure_total e d s r name); auto.
  - intros d R. now apply (chap_finish_total md5_ready).
  - intros e i d s H _. now apply chap_idle_step.
Qed.

(** A response as the peer sends it (RFC 1994). *)
Definition chap_response (id : Z) (val name : list Z) : list Z := chap_frame CHAP_RESPONSE id ([Z.of_nat VALUE_SIZE] ++ val ++ name).

(** A name that can be sent. *)
Definition chap_string (l : list Z) : Prop := Forall (fun c => 0 < c < 256) l /\ Z.of_nat (length l) < 65000.

Lemma chap_recv_frame e d s id val name rest : 0 <= id < 256 -> length val = VALUE_SIZE -> chap_string name ->
  chap_recv (chap_recv_response md5) e d s (chap_response id val name ++ rest) (Z.of_nat (length (chap_response id val name))) =
  let d0 := set_ch_timeout d false in
  if ch_started d && (id =? ch_id d - 1) then Ok (d0, chap_send_success d0 id s)
  else if negb (is_null (ch_name d)) || negb (id =? ch_id d) then Ok (d0, s)
  else if negb (conf_any_login (ae_conf e) =? 0) then chap_any chap_send_failure chap_send_success e d0 s name
  else md5_outcome e d0 s name val.
Proof using.
  intros Hid Hv [F Ln]. unfold VALUE_SIZE in Hv.
  assert (L : length (chap_response id val name) = (23 + length name)%nat).
  { unfold chap_response, chap_frame. rewrite !length_app, !length_be_encode, Hv. cbn. lia. }
  set (len := CHAP_HDR - 2 + Z.of_nat (length ([Z.of_nat VALUE_SIZE] ++ val ++ name))).
  assert (El : len = 21 + Z.of_nat (length name)) by (unfold len, CHAP_HDR; rewrite !length_app, Hv; cbn [length]; lia).
  set (buf := chap_response id val name ++ rest).
  assert (E2 : byte_at buf 2 = Ok CHAP_RESPONSE) by reflexivity.
  assert (E3 : byte_at buf 3 = Ok id) by (change (byte_at buf 3) with (Ok (u8 id)); unfold u8; now rewrite Z.mod_small by lia).
  assert (E4 : slice 4 2 buf = Ok (be_encode 2 len)) by reflexivity.
  assert (E6 : byte_at buf 6 = Ok 16) by reflexivity.
  assert (E7 : slice 7 VALUE_SIZE buf = Ok val).
  { replace buf with ((be_encode 2 PPP_CHAP ++ [CHAP_RESPONSE; u8 id] ++ be_encode 2 len ++ [16]) ++ val ++ (name ++ rest))
      by (unfold buf, chap_response, chap_frame; now rewrite <- !app_assoc).
    transitivity (slice 0 VALUE_SIZE (val ++ name ++ rest)); [|now apply slice_app_l'].
    exact (slice_app_r (be_encode 2 PPP_CHAP ++ [CHAP_RESPONSE; u8 id] ++ be_encode 2 len ++ [16]) _ 0 _). }
  assert (En : strndup buf CHAP_MSG (u64 (len - CHAP_MSG + 2)) = Ok name).
  { replace buf with ((be_encode 2 PPP_CHAP ++ [CHAP_RESPONSE; u8 id] ++ be_encode 2 len ++ [16] ++ val) ++ name ++ rest)
      by (unfold buf, chap_response, chap_frame; now rewrite <- !app_assoc).
    unfold u64, CHAP_MSG. rewrite Z.mod_small by lia. replace (len - 23 + 2) with (Z.of_nat (length name)) by lia.
    apply strndup_at; [done|]. rewrite !length_app, Hv. done. }
  clearbody buf. unfold chap_recv, CHAP_HDR. rewrite E4, E2. cbn [mbind res_bind]. rewrite be_decode_encode.
  rewrite (Z.mod_small len) by (change (256 ^ Z.of_nat 2) with 65536; lia).
  destruct (Z.ltb_spec (Z.of_nat (length (chap_response id val name))) 6); [lia|].
  destruct (Z.ltb_spec len (6 - 2)); [lia|].
  destruct (Z.ltb_spec (Z.of_nat (length (chap_response id val name)) - 2) len); [lia|].
  cbn [orb Z.eqb CHAP_RESPONSE Pos.eqb]. rewrite (chap_recv_response_eq e d s buf id E3), E4, E6, E7.
  cbn [mbind res_bind negb Z.eqb VALUE_SIZE Z.of_nat Pos.of_succ_nat Pos.succ Pos.eqb].
  rewrite be_decode_encode, (Z.mod_small len) by (change (256 ^ Z.of_nat 2) with 65536; lia).
  rewrite En. cbn [mbind res_bind]. done.
Qed.

(** What a failure and a success look like. *)
Definition md5_failure_frame (id : Z) : list Z := chap_frame CHAP_FAILURE id CHAP_MSG_FAILURE.
Definition md5_success_frame (id : Z) : list Z := chap_frame CHAP_SUCCESS id CHAP_MSG_SUCCESS.

Lemma pwdb_loop_none (l : list (pwdb_t chap_args Empty_set)) name args : Forall (fun db => pw_check db = None) l ->
  pwdb_loop l name args PWDB_NO_IMPL = (PWDB_NO_IMPL, []).
Proof using. induction 1 as [|db l H _ IH]; [done|]. cbn. now rewrite H. Qed.

Lemma md5_start_eq e d s : length (ae_random e) = VALUE_SIZE -> md5_start e md5_init ses0 = (d, s) ->
  ch_h d = true /\ ch_id d = 1 /\ ch_val d = ae_random e /\ ch_name d = SNull /\ ch_started d = false /\
  s = ppp_chan_send ses0 (chap_frame CHAP_CHALLENGE 1 ([16] ++ ae_random e ++ md5_challenge_name e)).
Proof using.
  intros Hr [= <- <-]. rewrite Hr, drop_ge, app_nil_r by done. rewrite take_ge by (rewrite Hr; done). done.
Qed.

(** A response in the layer. *)
Lemma md5_layer_recv e b1 b2 d s name val rest (frame := chap_response (ch_id d) val name) :
  ch_h d = true -> ch_name d = SNull -> 0 <= ch_id d < 256 -> conf_any_login (ae_conf e) = 0 ->
  length val = VALUE_SIZE -> chap_string name ->
  layer_step (LProto e (ARecv (frame ++ rest) (Z.of_nat (length frame)))) (mk_al b1 b2 d) s =
  p ← md5_outcome e (set_ch_timeout d false) s name val; layer_terminate (ses_terminating s) (mk_al b1 b2 (fst p)) (snd p).
Proof using.
  intros Hh Hm Hi Hy Hv Hn. cbn [layer_step al_d al_starting al_started].
  change (proto_step e) with (md5_step md5 e). unfold md5_step, chap_step. rewrite Hh. unfold frame.
  rewrite chap_recv_frame by done. rewrite Hm, Hy. destruct (Z.eqb_spec (ch_id d) (ch_id d - 1)); [lia|].
  rewrite andb_false_r, Z.eqb_refl. done.
Qed.

(** What a response for a stored password is good for. *)
Lemma md5_verdict_stored e s d name val secret :
  ae_single_session e <> 0 -> Forall (fun db => pw_check db = None) (ae_dbs e) -> pwdb_get_passwd (ae_dbs e) name = Some secret ->
  md5_verdict e s d name val = if bool_decide (md5 ([ch_id d] ++ secret ++ ch_val d) = val) then VAccept else VDeny.
Proof using.
  intros Hs Hdb Hpw. unfold md5_verdict, pwdb_check, ap_check_username.
  destruct (Z.eqb_spec (ae_single_session e) 0); [done|]. cbn [negb]. rewrite pwdb_loop_none by done. cbn [fst].
  now rewrite Hpw.
Qed.

Lemma set_username_ok e s name : ae_single_session e <> 0 -> ap_session_set_username e s name = Some (with_username s (Some name)).
Proof using. intros H. unfold ap_session_set_username. now destruct (Z.eqb_spec 0 (ae_single_session e)); [congruence|]. Qed.


(** C27. The handshake of CHAP: the start of the layer sends a challenge of sixteen random bytes, and for a
    password that is stored here the response is right exactly when it is the MD5 of id,
    password and challenge.  A right one authorizes the name of the peer and is answered with
    a success, every other one is answered with a failure and ends the session. *)
Theorem chap_handshake e name secret val rest (frame := chap_response 1 val name) :
  conf_any_login (ae_conf e) = 0 -> ae_single_session e <> 0 -> ae_connect e = true ->
  Forall (fun db => pw_check db = None) (ae_dbs e) -> pwdb_get_passwd (ae_dbs e) name = Some secret ->
  length (ae_random e) = VALUE_SIZE -> length val = VALUE_SIZE -> chap_string name ->
  let '(l, s) := auth_layer_start e md5_init ses0 in
  ses_sent s = [chap_frame CHAP_CHALLENGE 1 ([16] ++ ae_random e ++ md5_challenge_name e)] /\
  exists l' s', layer_run [LProto e (ARecv (frame ++ rest) (Z.of_nat (length frame))); LCall] l s = Ok (l', s') /\
    if bool_decide (md5 ([1] ++ secret ++ ae_random e) = val)
    then ses_authorized s' = true /\ ses_username s' = Some name /\ ses_terminating s' = false /\
         ses_sent s' = ses_sent s ++ [md5_success_frame 1]
    else ses_authorized s' = false /\ ses_terminating s' = true /\ ses_terminate_cause s' = TERM_AUTH_ERROR /\
         ses_sent s' = ses_sent s ++ [md5_failure_frame 1] /\ chap_idle (al_d l').
Proof using.
  intros Hy Hs Hc Hdb Hpw Hr Hv Hn.
  unfold auth_layer_start. change (proto_start e md5_init ses0) with (md5_start e md5_init ses0).
  destruct (md5_start e md5_init ses0) as [d s] eqn:Es. destruct (md5_start_eq e d s Hr Es) as (Hh & Hi & Hx & Hm & Ht & ->).
  split; [done|]. set (s := ppp_chan_send _ _). unfold frame.
  replace (chap_response 1 val name) with (chap_response (ch_id d) val name) by now rewrite Hi.
  cbn [layer_run]. rewrite md5_layer_recv by (done || now rewrite Hi). unfold md5_outcome.
  rewrite (md5_verdict_stored e s _ name val secret) by done.
  change (ch_id (set_ch_timeout d false)) with (ch_id d). change (ch_val (set_ch_timeout d false)) with (ch_val d).
  rewrite Hi, Hx. case_bool_decide.
  - unfold chap_ok, ppp_auth_succeeded. rewrite set_username_ok by done. cbn [ch_started ch_id set_ch_timeout]. rewrite Ht, Hc. cbn. rewrite ?Hi.
    eexists _, _. split; [done|]. cbn. done.
  - unfold chap_bad. cbn [ch_started set_ch_timeout]. rewrite Ht. unfold chap_send_failure. cbn [ch_id set_ch_timeout]. rewrite ?Hi. cbn. unfold layer_terminate. cbn.
    unfold auth_layer_finish. cbn. unfold chap_finish. cbn. rewrite Hm. cbn. eexists _, _. split; [done|]. cbn. done.
Qed.

Lemma same_name_refl (e : md5_env) name : same_name e name name = true.
Proof using. unfold same_name. destruct (ae_ignore_case e); now apply bool_decide_true. Qed.

(** Where a name may have only one session (single-session=deny) the session itself counts: a response to a
    challenge in a session that runs, for the name of the session, ends it, whether the
    response is right or not. *)
Theorem chap_reauth_denied e d s name val rest (frame := chap_response (ch_id d) val name) :
  ch_h d = true -> ch_name d = SNull -> 0 <= ch_id d < 256 -> ch_started d = true ->
  conf_any_login (ae_conf e) = 0 -> ae_single_session e = 0 -> ses_username s = Some name ->
  length val = VALUE_SIZE -> chap_string name ->
  exists d' s', md5_step md5 e (ARecv (frame ++ rest) (Z.of_nat (length frame))) d s = Ok (d', s') /\
    ses_terminating s' = true /\ ses_sent s' = ses_sent s ++ [md5_failure_frame (ch_id d)].
Proof using.
  intros Hh Hm Hi Ht Hy Hs Hu Hv Hn. unfold md5_step, chap_step. rewrite Hh. unfold frame. rewrite chap_recv_frame by done.
  rewrite Hm, Hy. destruct (Z.eqb_spec (ch_id d) (ch_id d - 1)); [lia|]. rewrite andb_false_r, Z.eqb_refl. cbn [is_null negb orb Z.eqb].
  assert (E : md5_verdict e s (set_ch_timeout d false) name val = VDeny).
  { unfold md5_verdict, pwdb_check, ap_check_username. rewrite Hs. cbn [Z.eqb negb]. unfold ses_list. rewrite Hu. cbn [existsb os_username].
    now rewrite same_name_refl. }
  unfold md5_outcome. rewrite E. cbn. unfold chap_bad. cbn. rewrite Ht. eexists _, _. split; [done|]. done.
Qed.

(** A response that is not to the current challenge, and one for a name that is not known, stop the timer and
    leave the protocol where it was: the same challenge waits, the session does not end, and
    no timeout ends it. *)
Theorem chap_stray_disarms e d s id name val rest e' (frame := chap_response id val name) :
  ch_h d = true -> ch_name d = SNull -> 0 <= id < 256 -> ch_started d = false ->
  conf_any_login (ae_conf e) = 0 -> length val = VALUE_SIZE -> chap_string name ->
  id <> ch_id d \/ md5_verdict e s d name val = VUnknown ->
  exists d' s', md5_step md5 e (ARecv (frame ++ rest) (Z.of_nat (length frame))) d s = Ok (d', s') /\
    ch_timeout d' = false /\ ch_id d' = ch_id d /\ ch_val d' = ch_val d /\ ch_name d' = SNull /\ ch_h d' = true /\
    ses_terminating s' = ses_terminating s /\ ses_calls s' = ses_calls s /\
    md5_step md5 e' ATimeout d' s' = Ok (d', s').
Proof using.
  intros Hh Hm Hi Ht Hy Hv Hn Hor. unfold md5_step at 1, chap_step. rewrite Hh. unfold frame. rewrite chap_recv_frame by done.
  rewrite Hm, Hy, Ht. cbn [andb is_null negb orb Z.eqb].
  destruct (Z.eqb_spec id (ch_id d)) as [E|E]; cbn [negb]; [|eexists _, _; split; [done|]; now repeat split].
  destruct Hor as [Hor|Hor]; [done|]. unfold md5_outcome.
  change (md5_verdict e s (set_ch_timeout d false) name val) with (md5_verdict e s d name val). rewrite Hor.
  eexists _, _. split; [done|]. now repeat split.
Qed.
End Md5Theorems.

(** ** Witnesses *)
Definition toy_md5 (x : list Z) : list Z := take 16 (x ++ replicate 16 0).
Definition md5_env0 (single : Z) : md5_env :=
  mk_aenv auth_conf0 single false [] true (replicate 16 7) [mk_pwdb None (Some (fun n => if bool_decide (n = [117]) then Some [112] else None))].
Definition md5_val0 : list Z := toy_md5 ([1] ++ [112] ++ replicate 16 7).

Lemma chap_string0 : chap_string [117].
Proof. split; [repeat constructor; lia | cbn; lia]. Qed.

Lemma chap_handshake_witness :
  exists l s l' s', auth_layer_start (P := md5_proto toy_md5) (md5_env0 (-1)) md5_init ses0 = (l, s) /\
    layer_run (P := md5_proto toy_md5) [LProto (md5_env0 (-1)) (ARecv (chap_response 1 md5_val0 [117] ++ []) 24); LCall] l s = Ok (l', s') /\
    ses_authorized s' = true.
Proof.
  pose proof (chap_handshake toy_md5 (md5_env0 (-1)) [117] [112] md5_val0 []) as H.
  destruct (auth_layer_start (P := md5_proto toy_md5) (md5_env0 (-1)) md5_init ses0) as [l s].
  destruct H as (_ & l' & s' & R & H); [done..|repeat constructor|done|done|done|apply chap_string0|].
  exists l, s, l', s'. split; [done|]. split; [exact R|]. rewrite bool_decide_true in H by done. apply H.
Defined.


Definition md5_running0 : md5_data := mk_chap true 2 (replicate 16 7) true false 0 SNull true tt.

Lemma chap_reauth_denied_witness :
  exists d' s', md5_step toy_md5 (md5_env0 0) (ARecv (chap_response 2 (toy_md5 ([2] ++ [112] ++ replicate 16 7)) [117] ++ []) 24)
    md5_running0 (with_username ses0 (Some [117])) = Ok (d', s') /\ ses_terminating s' = true.
Proof.
  destruct (chap_reauth_denied toy_md5 (md5_env0 0) md5_running0 (with_username ses0 (Some [117])) [117]
    (toy_md5 ([2] ++ [112] ++ replicate 16 7)) []) as (d' & s' & E & T & _); [done|done|cbn; lia|done..|apply chap_string0|].
  exists d', s'. split; [exact E | exact T].
Defined.

Lemma chap_stray_disarms_witness :
  exists d' s', md5_step toy_md5 (md5_env0 (-1)) (ARecv (chap_response 9 md5_val0 [117] ++ []) 24)
    (fst (md5_start (md5_env0 (-1)) md5_init ses0)) ses0 = Ok (d', s') /\ ch_timeout d' = false.
Proof.
  destruct (chap_stray_disarms toy_md5 (md5_env0 (-1)) (fst (md5_start (md5_env0 (-1)) md5_init ses0)) ses0 9 [117] md5_val0 []
    (md5_env0 (-1))) as (d' & s' & E & T & _); [done|done|lia|done..|apply chap_string0|left; cbn; lia|].
  exists d', s'. split; [exact E | exact T].
Defined.
