(* ===== verification/AuthMschap.v ===== *)
(** * MS-CHAP v1 and v2 (accel-pppd/auth/auth_mschap_v1.c, auth_mschap_v2.c)

    The two protocols over the shared part of [AuthChap], with the computation of responses,
    of the authenticator and of the keys for MPPE.

    MD4, SHA-1 and DES of OpenSSL are parameters.  [DES_set_key_checked] leaves the key
    schedule alone when it refuses a key; the schedule of [des_encrypt] and the last byte of
    its key are not initialised and are parameters too, as is the fresh block of memory a
    message is written to. *)
From stdpp Require Import strings.
From S2P Require Import Prelude CString PppAuth AuthChap.

Definition MSCHAP_V1_VALUE_SIZE : nat := 8.
Definition MSCHAP_V2_VALUE_SIZE : nat := 16.
Definition RESPONSE_VALUE_SIZE : Z := 49.
(** sizeof(struct chap_response) *)
Definition MSCHAP_MSG : Z := 56.

(** A message: NULL, the one of the source or one on the heap. *)
Inductive msg_ptr : Type :=
| MNull
| MConf
| MHeap (s : list Z).

Definition msg_at (conf : list Z) (p : msg_ptr) : res (list Z) :=
  match p with MNull => Oob | MConf => mret conf | MHeap s => mret s end.

(** What a check stores or does besides its result. *)
Inductive ms_write : Type :=
| WAuthenticator (s : list Z)
| WError (s : list Z)
| WReply (s : list Z)
| WKeys (recv_key send_key : list Z).

Definition write_keys (s : ses_t) (w : list ms_write) : ses_t :=
  foldl (fun s x => match x with WKeys r k => ev_mppe_keys s r k | _ => s end) s w.

(** [load_config] of both; MS-CHAP v2 has no any-login. *)
Definition mschap_load_config (v2 : bool) (opt : string -> option string) (c : auth_conf) : auth_conf :=
  mk_aconf (opt_pos (opt "timeout"%string) (conf_timeout c)) (opt_pos (opt "interval"%string) (conf_interval c))
    (opt_pos (opt "max-failure"%string) (conf_max_failure c))
    (if v2 then conf_any_login c else opt_int (opt "any-login"%string) (conf_any_login c)) (conf_challenge_name c).

(** ** Hashes, keys *)

(** The password in UTF-16. *)
Definition u_passwd (passwd : list Z) : list Z := passwd ≫= (fun c => [c; 0]).

(** The 56 bits of a key spread over eight bytes of odd parity. *)
Definition p_key (key : list Z) (junk : Z) : Z := be_decode (take 7 key ++ [junk]).
Definition des_parity (c : Z) : Z := foldl (fun n j => if Z.testbit c (j + 1) then n + 1 else n) 0 (seqZ 0 7).
Definition des_cb (k i : Z) : Z :=
  let c := Z.land (Z.shiftr (u64 (Z.shiftl k (7 * i))) 56) 0xfe in
  Z.lor c (Z.land (Z.lnot (des_parity c)) 1).
Definition des_key (key : list Z) (junk : Z) : list Z := des_cb (p_key key junk) <$> seqZ 0 8.

Definition MS_MAGIC1 : list Z := str_bytes "Magic server to client signing constant".
Definition MS_MAGIC2 : list Z := str_bytes "Pad to make it do more than one iteration".
Definition MPPE_MAGIC1 : list Z := str_bytes "This is the MPPE Master Key".
Definition MPPE_MAGIC2 : list Z :=
  str_bytes "On the client side, this is the send key; on the server side, it is the receive key.".
Definition MPPE_MAGIC3 : list Z :=
  str_bytes "On the client side, this is the receive key; on the server side, it is the send key.".
Definition MPPE_PAD1 : list Z := replicate 40 0.
Definition MPPE_PAD2 : list Z := replicate 40 0xf2.

(** sprintf("%02X") *)
Definition uhex_digit (n : Z) : Z := if n <? 10 then 48 + n else 55 + n.
Definition hex_byte (b : Z) : list Z := [uhex_digit (b / 16); uhex_digit (b mod 16)].

Section Mschap.
Context (md4 sha1 : list Z -> list Z).
Context {K : Type} (DES_set_key_checked : list Z -> option K) (DES_ecb_encrypt : K -> list Z -> list Z).
(** What is in memory that is not initialised. *)
Context (junk : Z) (ks : K) (heap : list Z).

(** [des_encrypt] *)
Definition des_encrypt (input key : list Z) : list Z :=
  DES_ecb_encrypt (default ks (DES_set_key_checked (des_key key junk))) (take 8 input).

(** The three blocks of a response. *)
Definition z_hash_of (passwd : list Z) : list Z := take 16 (md4 (u_passwd passwd)) ++ replicate 5 0.
Definition nt_hash_of (c_hash z_hash : list Z) : list Z :=
  des_encrypt c_hash z_hash ++ des_encrypt c_hash (drop 7 z_hash) ++ des_encrypt c_hash (drop 14 z_hash).

(** [set_mppe_keys] of MS-CHAP v1: both keys *)
Definition mppe_key_v1 (z_hash val : list Z) : list Z :=
  let digest := take 16 (md4 (take 16 z_hash)) in sha1 (digest ++ digest ++ val).

(** [set_mppe_keys] of MS-CHAP v2: recv_key, send_key *)
Definition mppe_keys_v2 (z_hash nt_hash : list Z) : list Z * list Z :=
  let digest := sha1 (take 16 (md4 (take 16 z_hash)) ++ nt_hash ++ MPPE_MAGIC1) in
  let send_key := sha1 (take 16 digest ++ MPPE_PAD1 ++ MPPE_MAGIC3 ++ MPPE_PAD2) in
  let recv_key := sha1 (take 16 digest ++ MPPE_PAD1 ++ MPPE_MAGIC2 ++ MPPE_PAD2) in
  (recv_key, send_key).

(** ** MS-CHAP v1 *)
Record v1_args : Type := mk_v1 {
  v1_id : Z; v1_challenge : list Z; v1_lm : list Z; v1_nt : list Z; v1_flags : Z
}.
Notation v1_env := (auth_env v1_args ms_write).
Notation v1_data := (chap_auth_data msg_ptr).

Definition V1_MSG_FAILURE : list Z := str_bytes "E=691 R=0".
Definition V1_MSG_SUCCESS : list Z := str_bytes "Authentication succeeded".

(** [chap_send_failure] *)
Definition v1_send_failure (d : v1_data) (s : ses_t) : res ses_t :=
  mschap_error ← msg_at V1_MSG_FAILURE (ch_x d);
  mret (ppp_chan_send s (chap_frame CHAP_FAILURE (ch_id d) mschap_error)).

(** [chap_send_success] *)
Definition v1_send_success (d : v1_data) (id : Z) (s : ses_t) : ses_t :=
  ppp_chan_send s (chap_frame CHAP_SUCCESS id V1_MSG_SUCCESS).

(** What the check stores through &ad->mschap_error *)
Definition v1_write (x : msg_ptr) (w : list ms_write) : msg_ptr :=
  foldl (fun x y => match y with WError s => MHeap s | _ => x end) x w.

(** [auth_result] *)
Definition v1_auth_result (e : v1_env) (d : v1_data) (s : ses_t) (r : Z) (w : list ms_write) : res (v1_data * ses_t) :=
  p ← chap_auth_result v1_send_failure v1_send_success e (set_ch_x d (v1_write (ch_x d) w)) (write_keys s w) r;
  mret (set_ch_x (fst p) MConf, snd p).

(** [chap_check_response]: 0 and the session with the keys *)
Definition v1_check_response (e : v1_env) (d : v1_data) (s : ses_t) (name nt : list Z) : bool * ses_t :=
  match pwdb_get_passwd (ae_dbs e) name with
  | None => (false, s)
  | Some passwd =>
      let z_hash := z_hash_of passwd in
      let nt_hash := nt_hash_of (ch_val d) z_hash in
      let digest := mppe_key_v1 z_hash (ch_val d) in
      (bool_decide (nt_hash = nt), ev_mppe_keys s digest digest)
  end.

(** [chap_recv_response] *)
Definition v1_recv_response (e : v1_env) (d : v1_data) (s : ses_t) (buf : list Z) : res (v1_data * ses_t) :=
  let d := set_ch_timeout d false in
  id ← byte_at buf 3;
  if ch_started d && (id =? ch_id d - 1) then mret (d, v1_send_success d id s)
  else if negb (is_null (ch_name d)) then mret (d, s)
  else if negb (id =? ch_id d) then mret (d, s)
  else
    val_size ← byte_at buf 6;
    if negb (val_size =? RESPONSE_VALUE_SIZE) then mret (d, chap_bad d s TERM_AUTH_ERROR None)
    else
      l ← slice 4 2 buf;
      name ← strndup buf MSCHAP_MSG (u64 (be_decode l - MSCHAP_MSG + 2));
      if negb (conf_any_login (ae_conf e) =? 0) then chap_any v1_send_failure v1_send_success e d s name
      else
        let d := set_ch_x d MConf in
        lm ← slice 7 24 buf;
        nt ← slice 31 24 buf;
        flags ← byte_at buf 55;
        let '(r, w) := pwdb_check e s name (mk_v1 (ch_id d) (ch_val d) lm nt flags) in
        let d := set_ch_x d (v1_write (ch_x d) w) in
        let s := write_keys s w in
        if r =? PWDB_WAIT then mret (set_ch_name d (SLive name), s)
        else
          let '(r, s) := if r =? PWDB_NO_IMPL
                         then let '(ok, s) := v1_check_response e d s name nt in (if ok then r else PWDB_DENIED, s)
                         else (r, s) in
          if r =? PWDB_DENIED then
            s ← v1_send_failure d s;
            mret (set_ch_x d MConf, chap_bad d s TERM_AUTH_ERROR (Some name))
          else chap_ok v1_send_failure v1_send_success e d s name.

Definition v1_step : v1_env -> auth_input ms_write -> v1_data -> ses_t -> res (v1_data * ses_t) :=
  chap_step MSCHAP_V1_VALUE_SIZE (fun _ => []) v1_recv_response v1_auth_result.
Definition v1_start : v1_env -> v1_data -> ses_t -> v1_data * ses_t := chap_start MSCHAP_V1_VALUE_SIZE (fun _ => []).
Definition v1_init : v1_data := chap_init MSCHAP_V1_VALUE_SIZE MNull.
Definition v1_finish : v1_data -> res v1_data := chap_finish true.

(** ** MS-CHAP v2 *)
Record v2_args : Type := mk_v2 {
  v2_id : Z; v2_challenge : list Z; v2_peer_challenge : list Z; v2_reserved : list Z; v2_response : list Z; v2_flags : Z
}.

(** What the data has besides: authenticator, mschap_error, reply_msg. *)
Record v2_x : Type := mk_v2x { v2_authenticator : list Z; v2_error : msg_ptr; v2_reply : msg_ptr }.
Notation v2_env := (auth_env v2_args ms_write).
Notation v2_data := (chap_auth_data v2_x).

Definition V2_MSG_FAILURE : list Z := str_bytes "E=691 R=0 V=3".
Definition V2_MSG_FAILURE2 : list Z := str_bytes "Authentication failure".
Definition V2_MSG_SUCCESS : list Z := str_bytes "Authentication succeeded".

(** [chap_send_failure] *)
Definition v2_send_failure (d : v2_data) (s : ses_t) : res ses_t :=
  mschap_error ← msg_at V2_MSG_FAILURE (v2_error (ch_x d));
  reply_msg ← msg_at V2_MSG_FAILURE2 (v2_reply (ch_x d));
  mret (ppp_chan_send s (chap_frame CHAP_FAILURE (ch_id d) (mschap_error ++ str_bytes " M=" ++ reply_msg))).

(** [chap_send_success]: the frame is as long as one with an authenticator of 40 bytes. *)
Definition v2_success_text (authenticator : list Z) : list Z :=
  str_bytes "S=" ++ authenticator ++ str_bytes " M=" ++ V2_MSG_SUCCESS.
Definition v2_send_success (d : v2_data) (id : Z) (s : ses_t) : ses_t :=
  ppp_chan_send s (chap_frame CHAP_SUCCESS id
    (take (length V2_MSG_SUCCESS + 45) (v2_success_text (v2_authenticator (ch_x d)) ++ [0] ++ heap))).

(** What the check stores through authenticator, &ad->mschap_error, &ad->reply_msg *)
Definition v2_write (x : v2_x) (w : list ms_write) : v2_x :=
  foldl (fun x y => match y with
                    | WAuthenticator s => mk_v2x s (v2_error x) (v2_reply x)
                    | WError s => mk_v2x (v2_authenticator x) (MHeap s) (v2_reply x)
                    | WReply s => mk_v2x (v2_authenticator x) (v2_error x) (MHeap s)
                    | WKeys _ _ => x
                    end) x w.

(** The messages are those of the source again. *)
Definition v2_reset (d : v2_data) : v2_data := set_ch_x d (mk_v2x (v2_authenticator (ch_x d)) MConf MConf).

(** [auth_result] *)
Definition v2_auth_result (e : v2_env) (d : v2_data) (s : ses_t) (r : Z) (w : list ms_write) : res (v2_data * ses_t) :=
  p ← chap_auth_result v2_send_failure v2_send_success e (set_ch_x d (v2_write (ch_x d) w)) (write_keys s w) r;
  mret (v2_reset (fst p), snd p).

(** The hash of the challenges and the name. *)
Definition c_hash_of (peer_challenge val name : list Z) : list Z := take 8 (sha1 (take 16 peer_challenge ++ take 16 val ++ name)).

(** [generate_response]: the authenticator *)
Definition generate_response (z_hash nt_hash c_hash : list Z) : list Z :=
  let pw_hash := take 16 (md4 (take 16 z_hash)) in
  let response := sha1 (pw_hash ++ nt_hash ++ MS_MAGIC1) in
  let response := sha1 (take 20 response ++ c_hash ++ MS_MAGIC2) in
  take 20 response ≫= hex_byte.

(** [chap_check_response] and, after a right response, [generate_response]: the authenticator
    and the session with the keys *)
Definition v2_check_response (e : v2_env) (d : v2_data) (s : ses_t) (name peer_challenge nt : list Z) : option (list Z) * ses_t :=
  match pwdb_get_passwd (ae_dbs e) name with
  | None => (None, s)
  | Some passwd =>
      let c_hash := c_hash_of peer_challenge (ch_val d) name in
      let z_hash := z_hash_of passwd in
      let nt_hash := nt_hash_of c_hash z_hash in
      let '(recv_key, send_key) := mppe_keys_v2 z_hash nt in
      (if bool_decide (nt_hash = nt) then Some (generate_response z_hash nt c_hash) else None,
       ev_mppe_keys s recv_key send_key)
  end.

(** [chap_recv_response] *)
Definition v2_recv_response (e : v2_env) (d : v2_data) (s : ses_t) (buf : list Z) : res (v2_data * ses_t) :=
  let d := set_ch_timeout d false in
  id ← byte_at buf 3;
  if ch_started d && (id =? ch_id d - 1) then mret (d, v2_send_success d id s)
  else if negb (is_null (ch_name d)) then mret (d, s)
  else
    let d := v2_reset d in
    if negb (id =? ch_id d) then mret (d, s)
    else
      val_size ← byte_at buf 6;
      if negb (val_size =? RESPONSE_VALUE_SIZE) then
        s ← v2_send_failure d s;
        mret (d, chap_bad d s TERM_USER_ERROR None)
      else
        l ← slice 4 2 buf;
        name ← strndup buf MSCHAP_MSG (u64 (be_decode l - MSCHAP_MSG + 2));
        peer_challenge ← slice 7 16 buf;
        reserved ← slice 23 8 buf;
        nt ← slice 31 24 buf;
        flags ← byte_at buf 55;
        let '(r, w) := pwdb_check e s name (mk_v2 (ch_id d) (ch_val d) peer_challenge reserved nt flags) in
        let d := set_ch_x d (v2_write (ch_x d) w) in
        let s := write_keys s w in
        if r =? PWDB_WAIT then mret (set_ch_name d (SLive name), s)
        else
          let '(r, d, s) :=
            if r =? PWDB_NO_IMPL then
              match v2_check_response e d s name peer_challenge nt with
              | (Some a, s) => (r, set_ch_x d (mk_v2x a (v2_error (ch_x d)) (v2_reply (ch_x d))), s)
              | (None, s) => (PWDB_DENIED, d, s)
              end
            else (r, d, s) in
          if r =? PWDB_DENIED then
            s ← v2_send_failure d s;
            mret (v2_reset d, chap_bad d s TERM_AUTH_ERROR (Some name))
          else chap_ok v2_send_failure v2_send_success e d s name.

Definition v2_step : v2_env -> auth_input ms_write -> v2_data -> ses_t -> res (v2_data * ses_t) :=
  chap_step MSCHAP_V2_VALUE_SIZE (fun _ => []) v2_recv_response v2_auth_result.
Definition v2_start : v2_env -> v2_data -> ses_t -> v2_data * ses_t := chap_start MSCHAP_V2_VALUE_SIZE (fun _ => []).
Definition v2_init : v2_data := chap_init MSCHAP_V2_VALUE_SIZE (mk_v2x [] MNull MNull).
Definition v2_finish : v2_data -> res v2_data := chap_finish false.

(** ** Lemmas on the protocols *)

Lemma write_keys_same s w : ses_same s (write_keys s w).
Proof using.
  revert s. induction w as [|x w IH]; intros s; [done|]. destruct x; try apply IH. cbn.
  destruct (IH (ev_mppe_keys s recv_key send_key)) as (E1 & E2 & E3 & E4). now repeat split.
Qed.

Lemma v1_failure_same (d : v1_data) s s' : v1_send_failure d s = Ok s' -> ses_same s s'.
Proof using. unfold v1_send_failure. destruct (ch_x d); now intros [= <-]. Qed.
Lemma v1_success_same (d : v1_data) id s : ses_same s (v1_send_success d id s).
Proof using. done. Qed.
Definition v1_ready (x : msg_ptr) : Prop := x <> MNull.
Lemma v1_failure_total (d : v1_data) s : v1_ready (ch_x d) -> exists s', v1_send_failure d s = Ok s'.
Proof using. unfold v1_ready, v1_send_failure. destruct (ch_x d); [done|..]; intros _; now eexists. Qed.
Lemma v1_write_ready x w : v1_ready x -> v1_ready (v1_write x w).
Proof using. revert x. induction w as [|[] w IH]; intros x H; [done|..]; now apply IH. Qed.

Lemma v2_failure_same (d : v2_data) s s' : v2_send_failure d s = Ok s' -> ses_same s s'.
Proof using. unfold v2_send_failure. destruct (v2_error (ch_x d)), (v2_reply (ch_x d)); now intros [= <-]. Qed.
Lemma v2_success_same (d : v2_data) id s : ses_same s (v2_send_success d id s).
Proof using. done. Qed.
Definition v2_ready (x : v2_x) : Prop := v2_error x <> MNull /\ v2_reply x <> MNull.
Lemma v2_failure_total (d : v2_data) s : v2_ready (ch_x d) -> exists s', v2_send_failure d s = Ok s'.
Proof using.
  unfold v2_ready, v2_send_failure. destruct (v2_error (ch_x d)), (v2_reply (ch_x d)); intros []; try done; now eexists.
Qed.
Lemma v2_write_ready x w : v2_ready x -> v2_ready (v2_write x w).
Proof using. unfold v2_ready. revert x. induction w as [|[] w IH]; intros x []; [done|..]; now apply IH. Qed.

(** What a response is good for. *)
Definition v2_verdict (e : v2_env) (s : ses_t) (d : v2_data) (name : list Z) (a : v2_args) : verdict :=
  let r := fst (pwdb_check e s name a) in
  if r =? PWDB_WAIT then VWait
  else if r =? PWDB_NO_IMPL then
    match pwdb_get_passwd (ae_dbs e) name with
    | None => VDeny
    | Some passwd =>
        if bool_decide (nt_hash_of (c_hash_of (v2_peer_challenge a) (ch_val d) name) (z_hash_of passwd) = v2_response a)
        then VAccept else VDeny
    end
  else if r =? PWDB_DENIED then VDeny else VAccept.

(** A name is accepted by a response to the challenge that waits for one, or by the late
    result of the database that was asked for that name. *)
Definition v2_accepts (e : v2_env) (i : auth_input ms_write) (d : v2_data) (s : ses_t) (name : list Z) : Prop :=
  match i with
  | ARecv buf size => exists a n, byte_at buf 3 = Ok (ch_id d) /\ strndup buf MSCHAP_MSG n = Ok name /\
      v2_id a = ch_id d /\ v2_challenge a = ch_val d /\ slice 7 16 buf = Ok (v2_peer_challenge a) /\
      slice 31 24 buf = Ok (v2_response a) /\ v2_verdict e s d name a = VAccept
  | AResult r _ => ch_name d = SLive name /\ r <> PWDB_DENIED
  | _ => False
  end.

Lemma v2_check_same e d s name pc nt : ses_same s (snd (v2_check_response e d s name pc nt)).
Proof using. unfold v2_check_response. destruct (pwdb_get_passwd _ _); [|done]. now destruct (mppe_keys_v2 _ _). Qed.

(** The decision of [v2_recv_response] once everything is read. *)
Definition v2_decide (e : v2_env) (d : v2_data) (s : ses_t) (name : list Z) (a : v2_args) : res (v2_data * ses_t) :=
  let '(r, w) := pwdb_check e s name a in
  let d := set_ch_x d (v2_write (ch_x d) w) in
  let s := write_keys s w in
  if r =? PWDB_WAIT then mret (set_ch_name d (SLive name), s)
  else
    let '(r, d, s) :=
      if r =? PWDB_NO_IMPL then
        match v2_check_response e d s name (v2_peer_challenge a) (v2_response a) with
        | (Some au, s) => (r, set_ch_x d (mk_v2x au (v2_error (ch_x d)) (v2_reply (ch_x d))), s)
        | (None, s) => (PWDB_DENIED, d, s)
        end
      else (r, d, s) in
    if r =? PWDB_DENIED then s ← v2_send_failure d s; mret (v2_reset d, chap_bad d s TERM_AUTH_ERROR (Some name))
    else chap_ok v2_send_failure v2_send_success e d s name.

Lemma v2_decide_grows (P : list Z -> Prop) e d s name a q : (v2_verdict e s d name a = VAccept -> P name) ->
  v2_decide e d s name a = Ok q -> grows P s (snd q).
Proof using.
  unfold v2_decide, v2_verdict. intros HP. destruct (pwdb_check e s name a) as [r w]. cbn [fst] in HP.
  set (d1 := set_ch_x d _). set (s1 := write_keys s w). assert (S1 : ses_same s s1) by apply write_keys_same.
  destruct (r =? PWDB_WAIT); [intros [= <-]; cbn; auto with auth|].
  destruct (Z.eqb_spec r PWDB_NO_IMPL) as [->|Hr].
  - pose proof (v2_check_same e d1 s1 name (v2_peer_challenge a) (v2_response a)) as S2.
    apply (ses_same_trans _ _ _ S1) in S2. revert S2. unfold v2_check_response at 1 2.
    destruct (pwdb_get_passwd (ae_dbs e) name) as [pw|].
    + destruct (mppe_keys_v2 _ _) as [rk sk]. cbn [snd]. change (ch_val d1) with (ch_val d). intros S2.
      destruct (bool_decide _); cbn [Z.eqb PWDB_NO_IMPL PWDB_DENIED Pos.eqb]; intros H; apply (grows_after _ _ _ _ S2).
      * revert H. apply (chap_ok_grows _ _ v2_failure_same v2_success_same). auto.
      * revert H. apply (chap_fail_grows _ v2_failure_same).
    + cbn [snd]. intros S2 H. apply (grows_after _ _ _ _ S2). revert H. apply (chap_fail_grows _ v2_failure_same).
  - destruct (r =? PWDB_DENIED); intros H; apply (grows_after _ _ _ _ S1); revert H.
    + apply (chap_fail_grows _ v2_failure_same).
    + apply (chap_ok_grows _ _ v2_failure_same v2_success_same). auto.
Qed.

Lemma v2_decide_total e d s name a : chap_running v2_ready d -> v2_ready (ch_x d) -> chap_run_ok v2_ready (v2_decide e d s name a).
Proof using.
  unfold v2_decide. intros (Hh & Hn & Hl) Hx. destruct (pwdb_check e s name a) as [r w].
  set (d1 := set_ch_x d _). set (s1 := write_keys s w).
  assert (Hx1 : v2_ready (ch_x d1)) by now apply v2_write_ready.
  assert (R1 : chap_running v2_ready d1) by now split.
  destruct (r =? PWDB_WAIT); [apply chap_run_same; now split|].
  destruct (r =? PWDB_NO_IMPL).
  - destruct (v2_check_response _ _ _ _ _ _) as [[au|] s2]; cbn [Z.eqb PWDB_DENIED Pos.eqb].
    + destruct (r =? PWDB_DENIED).
      * apply (chap_fail_total _ _ v2_failure_total); [now split | done].
      * apply (chap_ok_total _ _ _ v2_failure_total); [now split | done].
    + apply (chap_fail_total _ _ v2_failure_total); [now split | done].
  - destruct (r =? PWDB_DENIED).
    + apply (chap_fail_total _ _ v2_failure_total); [now split | done].
    + now apply (chap_ok_total _ _ _ v2_failure_total).
Qed.

Lemma v2_recv_response_eq e d s buf id (d0 := set_ch_timeout d false) : byte_at buf 3 = Ok id ->
  v2_recv_response e d s buf =
  if ch_started d && (id =? ch_id d - 1) then Ok (d0, v2_send_success d0 id s)
  else if negb (is_null (ch_name d)) then Ok (d0, s)
  else if negb (id =? ch_id d) then Ok (v2_reset d0, s)
  else
    val_size ← byte_at buf 6;
    if negb (val_size =? RESPONSE_VALUE_SIZE) then
      s ← v2_send_failure (v2_reset d0) s; mret (v2_reset d0, chap_bad (v2_reset d0) s TERM_USER_ERROR None)
    else
      l ← slice 4 2 buf;
      name ← strndup buf MSCHAP_MSG (u64 (be_decode l - MSCHAP_MSG + 2));
      peer_challenge ← slice 7 16 buf;
      reserved ← slice 23 8 buf;
      nt ← slice 31 24 buf;
      flags ← byte_at buf 55;
      v2_decide e (v2_reset d0) s name (mk_v2 (ch_id d) (ch_val d) peer_challenge reserved nt flags).
Proof using. intros E. unfold v2_recv_response. rewrite E. reflexivity. Qed.

Lemma v2_recv_response_grows e d s buf size q : v2_recv_response e d s buf = Ok q ->
  grows (v2_accepts e (ARecv buf size) d s) s (snd q).
Proof using.
  destruct (byte_at buf 3) as [id| |] eqn:E3; [|unfold v2_recv_response; now rewrite E3..].
  rewrite (v2_recv_response_eq e d s buf id E3). set (d0 := set_ch_timeout d false).
  destruct (_ && _); [intros [= <-]; cbn; auto with auth|].
  destruct (is_null _); cbn [negb]; [|intros [= <-]; auto with auth].
  destruct (Z.eqb_spec id (ch_id d)) as [->|]; cbn [negb]; [|intros [= <-]; auto with auth].
  destruct (byte_at buf 6) as [v| |]; [|done..]. cbn [mbind res_bind].
  destruct (v =? _); cbn [negb]; [|apply (chap_fail_grows _ v2_failure_same)].
  destruct (slice 4 2 buf) as [l| |]; [|done..]. cbn [mbind res_bind].
  destruct (strndup _ _ _) as [name| |] eqn:En; [|done..]. cbn [mbind res_bind].
  destruct (slice 7 16 buf) as [pc| |] eqn:Epc; [|done..]. cbn [mbind res_bind].
  destruct (slice 23 8 buf) as [rs| |]; [|done..]. cbn [mbind res_bind].
  destruct (slice 31 24 buf) as [nt| |] eqn:Ent; [|done..]. cbn [mbind res_bind].
  destruct (byte_at buf 55) as [fl| |]; [|done..]. cbn [mbind res_bind].
  apply v2_decide_grows. intros Hv. exists (mk_v2 (ch_id d) (ch_val d) pc rs nt fl), (u64 (be_decode l - MSCHAP_MSG + 2)).
  now split_and!.
Qed.

Lemma v2_recv_response_total e d s buf size : chap_running v2_ready d -> chap_buf_ok 56 buf size ->
  be_decode (take 2 (drop 4 buf)) + 2 <= size -> chap_run_ok v2_ready (v2_recv_response e d s buf).
Proof using.
  intros R I Hl. pose proof I as (B & L & _). unfold PPP_BUF_SIZE in L. pose proof R as (Hh & Hn & _).
  destruct (byte_at_ok buf 3 B) as (id & E3 & _); [lia|]. rewrite (v2_recv_response_eq e d s buf id E3).
  set (d0 := set_ch_timeout d false). assert (R0 : chap_running v2_ready d0) by done.
  assert (R1 : chap_running v2_ready (v2_reset d0)) by now split_and!.
  destruct (_ && _); [now apply chap_run_same|]. destruct (is_null _); cbn [negb]; [|now apply chap_run_same].
  destruct (_ =? ch_id d); cbn [negb]; [|now apply chap_run_same].
  destruct (byte_at_ok buf 6 B) as (v & -> & _); [lia|]. cbn [mbind res_bind].
  destruct (v =? _); cbn [negb]; [|now apply (chap_fail_total _ _ v2_failure_total)].
  rewrite !slice_ok by lia. cbn [mbind res_bind mret res_ret].
  destruct (chap_name_ok 56 buf size _ I eq_refl Hl) as (name & En). change (Z.of_nat 56) with MSCHAP_MSG in En. rewrite En.
  cbn [mbind res_bind]. destruct (byte_at_ok buf 55 B) as (fl & -> & _); [lia|]. cbn [mbind res_bind].
  now apply v2_decide_total.
Qed.

#[local] Instance v2_proto : AuthProto v2_data v2_args ms_write := {|
  proto_init := v2_init;
  proto_start := v2_start;
  proto_step := v2_step;
  proto_finish := v2_finish;
  proto_running := chap_running v2_ready;
  proto_idle := chap_idle;
  proto_input_ok _ i := match i with ARecv buf size => chap_buf_ok 56 buf size | _ => True end;
  proto_accepts := v2_accepts
|}.

Lemma v2_result_grows e d s r w q : v2_auth_result e d s r w = Ok q -> grows (v2_accepts e (AResult r w) d s) s (snd q).
Proof using.
  unfold v2_auth_result. destruct (chap_auth_result _ _ _ _ _ _) as [p| |] eqn:E; [|done..]. intros [= <-]. cbn [snd].
  apply (grows_after _ _ (write_keys s w)); [apply write_keys_same|].
  now apply (chap_auth_result_grows _ _ v2_failure_same v2_success_same _ e (set_ch_x d (v2_write (ch_x d) w)) _ r).
Qed.

Lemma v2_result_total e d s r w name : chap_running v2_ready d -> ch_name d = SLive name -> chap_run_ok v2_ready (v2_auth_result e d s r w).
Proof using.
  intros (Hh & Hn & Hx) E. unfold v2_auth_result.
  destruct (chap_auth_result_total _ v2_send_success _ v2_failure_total e (set_ch_x d (v2_write (ch_x d) w)) (write_keys s w) r name)
    as (d' & s' & -> & R); [|done|].
  - split; [done|]. split; [done|]. intros n En. apply v2_write_ready. now apply (Hx n).
  - apply chap_run_same. destruct R as (? & ? & _). now split_and!.
Qed.

#[local] Instance v2_sound : SoundProto v2_data v2_args ms_write.
Proof using.
  split.
  - intros e s. split; [now split_and!|]. split; [now apply ses_step_same | done].
  - intros e i d s d' s'. apply (chap_step_grows MSCHAP_V2_VALUE_SIZE (fun _ => []) _ v2_recv_response v2_auth_result e i d s (d', s')).
    + intros buf size q ->. apply v2_recv_response_grows.
    + intros r w q ->. apply v2_result_grows.
  - intros e i d s R I. apply (chap_step_total _ _ _ _ _ 56); auto.
    + intros buf size -> Hl Hb. now apply (v2_recv_response_total e d s buf size).
    + intros r w name -> Hn. now apply (v2_result_total e d s r w name).
  - intros d R. now apply (chap_finish_total v2_ready).
  - intros e i d s H _. now apply chap_idle_step.
Qed.

(** ** The same for MS-CHAP v1 *)

Definition v1_verdict (e : v1_env) (s : ses_t) (d : v1_data) (name : list Z) (a : v1_args) : verdict :=
  let r := fst (pwdb_check e s name a) in
  if r =? PWDB_WAIT then VWait
  else if r =? PWDB_NO_IMPL then
    match pwdb_get_passwd (ae_dbs e) name with
    | None => VDeny
    | Some passwd => if bool_decide (nt_hash_of (ch_val d) (z_hash_of passwd) = v1_nt a) then VAccept else VDeny
    end
  else if r =? PWDB_DENIED then VDeny else VAccept.

Definition v1_accepts (e : v1_env) (i : auth_input ms_write) (d : v1_data) (s : ses_t) (name : list Z) : Prop :=
  match i with
  | ARecv buf size => exists a n, byte_at buf 3 = Ok (ch_id d) /\ strndup buf MSCHAP_MSG n = Ok name /\
      (conf_any_login (ae_conf e) <> 0 \/
       v1_id a = ch_id d /\ v1_challenge a = ch_val d /\ slice 31 24 buf = Ok (v1_nt a) /\ v1_verdict e s d name a = VAccept)
  | AResult r _ => ch_name d = SLive name /\ r <> PWDB_DENIED
  | _ => False
  end.

(** The decision of [v1_recv_response] once everything is read. *)
Definition v1_decide (e : v1_env) (d : v1_data) (s : ses_t) (name : list Z) (a : v1_args) : res (v1_data * ses_t) :=
  let '(r, w) := pwdb_check e s name a in
  let d := set_ch_x d (v1_write (ch_x d) w) in
  let s := write_keys s w in
  if r =? PWDB_WAIT then mret (set_ch_name d (SLive name), s)
  else
    let '(r, s) := if r =? PWDB_NO_IMPL
                   then let '(ok, s) := v1_check_response e d s name (v1_nt a) in (if ok then r else PWDB_DENIED, s)
                   else (r, s) in
    if r =? PWDB_DENIED then s ← v1_send_failure d s; mret (set_ch_x d MConf, chap_bad d s TERM_AUTH_ERROR (Some name))
    else chap_ok v1_send_failure v1_send_success e d s name.

Lemma v1_decide_grows (P : list Z -> Prop) e d s name a q : (v1_verdict e s d name a = VAccept -> P name) ->
  v1_decide e d s name a = Ok q -> grows P s (snd q).
Proof using.
  unfold v1_decide, v1_verdict. intros HP. destruct (pwdb_check e s name a) as [r w]. cbn [fst] in HP.
  set (d1 := set_ch_x d _). set (s1 := write_keys s w). assert (S1 : ses_same s s1) by apply write_keys_same.
  destruct (r =? PWDB_WAIT); [intros [= <-]; cbn; auto with auth|].
  destruct (Z.eqb_spec r PWDB_NO_IMPL) as [->|Hr].
  - unfold v1_check_response. destruct (pwdb_get_passwd (ae_dbs e) name) as [pw|].
    + change (ch_val d1) with (ch_val d).
      destruct (bool_decide _); cbn [Z.eqb PWDB_NO_IMPL PWDB_DENIED Pos.eqb]; intros H;
        (apply (grows_after _ _ (ev_mppe_keys s1 (mppe_key_v1 (z_hash_of pw) (ch_val d)) (mppe_key_v1 (z_hash_of pw) (ch_val d))));
         [now apply (ses_same_trans _ s1)|]).
      * revert H. apply (chap_ok_grows _ _ v1_failure_same v1_success_same). auto.
      * revert H. apply (chap_fail_grows _ v1_failure_same).
    + intros H. apply (grows_after _ _ _ _ S1). revert H. apply (chap_fail_grows _ v1_failure_same).
  - destruct (r =? PWDB_DENIED); intros H; apply (grows_after _ _ _ _ S1); revert H.
    + apply (chap_fail_grows _ v1_failure_same).
    + apply (chap_ok_grows _ _ v1_failure_same v1_success_same). auto.
Qed.

Lemma v1_decide_total e d s name a : chap_running v1_ready d -> v1_ready (ch_x d) -> chap_run_ok v1_ready (v1_decide e d s name a).
Proof using.
  unfold v1_decide. intros (Hh & Hn & Hl) Hx. destruct (pwdb_check e s name a) as [r w].
  set (d1 := set_ch_x d _). set (s1 := write_keys s w).
  assert (Hx1 : v1_ready (ch_x d1)) by now apply v1_write_ready.
  assert (R1 : chap_running v1_ready d1) by now split.
  destruct (r =? PWDB_WAIT); [apply chap_run_same; now split|].
  set (p := if r =? PWDB_NO_IMPL then _ else _). destruct p as [r' s2].
  destruct (r' =? PWDB_DENIED).
  - apply (chap_fail_total _ _ v1_failure_total); [now split | done].
  - now apply (chap_ok_total _ _ _ v1_failure_total).
Qed.

Lemma v1_recv_response_eq e d s buf id (d0 := set_ch_timeout d false) : byte_at buf 3 = Ok id ->
  v1_recv_response e d s buf =
  if ch_started d && (id =? ch_id d - 1) then Ok (d0, v1_send_success d0 id s)
  else if negb (is_null (ch_name d)) then Ok (d0, s)
  else if negb (id =? ch_id d) then Ok (d0, s)
  else
    val_size ← byte_at buf 6;
    if negb (val_size =? RESPONSE_VALUE_SIZE) then mret (d0, chap_bad d0 s TERM_AUTH_ERROR None)
    else
      l ← slice 4 2 buf;
      name ← strndup buf MSCHAP_MSG (u64 (be_decode l - MSCHAP_MSG + 2));
      if negb (conf_any_login (ae_conf e) =? 0) then chap_any v1_send_failure v1_send_success e d0 s name
      else
        lm ← slice 7 24 buf;
        nt ← slice 31 24 buf;
        flags ← byte_at buf 55;
        v1_decide e (set_ch_x d0 MConf) s name (mk_v1 (ch_id d) (ch_val d) lm nt flags).
Proof using. intros E. unfold v1_recv_response. rewrite E. reflexivity. Qed.

Lemma v1_recv_response_grows e d s buf size q : v1_recv_response e d s buf = Ok q ->
  grows (v1_accepts e (ARecv buf size) d s) s (snd q).
Proof using.
  destruct (byte_at buf 3) as [id| |] eqn:E3; [|unfold v1_recv_response; now rewrite E3..].
  rewrite (v1_recv_response_eq e d s buf id E3). set (d0 := set_ch_timeout d false).
  destruct (_ && _); [intros [= <-]; cbn; auto with auth|].
  destruct (is_null _); cbn [negb]; [|intros [= <-]; auto with auth].
  destruct (Z.eqb_spec id (ch_id d)) as [->|]; cbn [negb]; [|intros [= <-]; auto with auth].
  destruct (byte_at buf 6) as [v| |]; [|done..]. cbn [mbind res_bind].
  destruct (v =? _); cbn [negb]; [|intros [= <-]; apply chap_bad_grows].
  destruct (slice 4 2 buf) as [l| |]; [|done..]. cbn [mbind res_bind].
  destruct (strndup _ _ _) as [name| |] eqn:En; [|done..]. cbn [mbind res_bind].
  destruct (Z.eqb_spec (conf_any_login (ae_conf e)) 0) as [Hy|Hy]; cbn [negb].
  - destruct (slice 7 24 buf) as [lm| |]; [|done..]. cbn [mbind res_bind].
    destruct (slice 31 24 buf) as [nt| |] eqn:Ent; [|done..]. cbn [mbind res_bind].
    destruct (byte_at buf 55) as [fl| |]; [|done..]. cbn [mbind res_bind].
    apply v1_decide_grows. intros Hv. exists (mk_v1 (ch_id d) (ch_val d) lm nt fl), (u64 (be_decode l - MSCHAP_MSG + 2)).
    split_and!; auto 10.
  - apply (chap_any_grows _ _ v1_failure_same v1_success_same).
    exists (mk_v1 0 [] [] [] 0), (u64 (be_decode l - MSCHAP_MSG + 2)). auto.
Qed.

Lemma v1_recv_response_total e d s buf size : conf_any_login (ae_conf e) = 0 -> chap_running v1_ready d -> chap_buf_ok 56 buf size ->
  be_decode (take 2 (drop 4 buf)) + 2 <= size -> chap_run_ok v1_ready (v1_recv_response e d s buf).
Proof using.
  intros Hy R I Hl. pose proof I as (B & L & _). unfold PPP_BUF_SIZE in L. pose proof R as (Hh & Hn & _).
  destruct (byte_at_ok buf 3 B) as (id & E3 & _); [lia|]. rewrite (v1_recv_response_eq e d s buf id E3), Hy.
  set (d0 := set_ch_timeout d false). assert (R0 : chap_running v1_ready d0) by done.
  destruct (_ && _); [now apply chap_run_same|]. destruct (is_null _) eqn:En0; cbn [negb]; [|now apply chap_run_same].
  destruct (_ =? ch_id d); cbn [negb]; [|now apply chap_run_same].
  destruct (byte_at_ok buf 6 B) as (v & -> & _); [lia|]. cbn [mbind res_bind].
  destruct (v =? _); cbn [negb]; [|now apply chap_run_same].
  rewrite !slice_ok by lia. cbn [mbind res_bind mret res_ret].
  destruct (chap_name_ok 56 buf size _ I eq_refl Hl) as (name & En). change (Z.of_nat 56) with MSCHAP_MSG in En. rewrite En.
  cbn [mbind res_bind Z.eqb negb]. destruct (byte_at_ok buf 55 B) as (fl & -> & _); [lia|]. cbn [mbind res_bind].
  apply v1_decide_total; [now split_and! | done].
Qed.

#[local] Instance v1_proto : AuthProto v1_data v1_args ms_write := {|
  proto_init := v1_init;
  proto_start := v1_start;
  proto_step := v1_step;
  proto_finish := v1_finish;
  proto_running := chap_running v1_ready;
  proto_idle := chap_idle;
  proto_input_ok e i := conf_any_login (ae_conf e) = 0 /\
                        match i with ARecv buf size => chap_buf_ok 56 buf size | _ => True end;
  proto_accepts := v1_accepts
|}.

Lemma v1_result_grows e d s r w q : v1_auth_result e d s r w = Ok q -> grows (v1_accepts e (AResult r w) d s) s (snd q).
Proof using.
  unfold v1_auth_result. destruct (chap_auth_result _ _ _ _ _ _) as [p| |] eqn:E; [|done..]. intros [= <-]. cbn [snd].
  apply (grows_after _ _ (write_keys s w)); [apply write_keys_same|].
  now apply (chap_auth_result_grows _ _ v1_failure_same v1_success_same _ e (set_ch_x d (v1_write (ch_x d) w)) _ r).
Qed.

Lemma v1_result_total e d s r w name : chap_running v1_ready d -> ch_name d = SLive name -> chap_run_ok v1_ready (v1_auth_result e d s r w).
Proof using.
  intros (Hh & Hn & Hx) E. unfold v1_auth_result.
  destruct (chap_auth_result_total _ v1_send_success _ v1_failure_total e (set_ch_x d (v1_write (ch_x d) w)) (write_keys s w) r name)
    as (d' & s' & -> & R); [|done|].
  - split; [done|]. split; [done|]. intros n En. apply v1_write_ready. now apply (Hx n).
  - apply chap_run_same. destruct R as (? & ? & _). now split_and!.
Qed.

#[local] Instance v1_sound : SoundProto v1_data v1_args ms_write.
Proof using.
  split.
  - intros e s. split; [now split_and!|]. split; [now apply ses_step_same | done].
  - intros e i d s d' s'. apply (chap_step_grows MSCHAP_V1_VALUE_SIZE (fun _ => []) _ v1_recv_response v1_auth_result e i d s (d', s')).
    + intros buf size q ->. apply v1_recv_response_grows.
    + intros r w q ->. apply v1_result_grows.
  - intros e i d s R [Hy I]. apply (chap_step_total _ _ _ _ _ 56); auto.
    + intros buf size -> Hl Hb. now apply (v1_recv_response_total e d s buf size).
    + intros r w name -> Hn. now apply (v1_result_total e d s r w name).
  - intros d R. now apply (chap_finish_total v1_ready).
  - intros e i d s H _. now apply chap_idle_step.
Qed.

(** ** Frames *)

(** A response as the peer sends it (RFC 2759): peer challenge, eight reserved bytes, the NT
    response, flags and name. *)
Definition ms_response (id : Z) (pc rs nt : list Z) (fl : Z) (name : list Z) : list Z :=
  chap_frame CHAP_RESPONSE id ([RESPONSE_VALUE_SIZE] ++ pc ++ rs ++ nt ++ [fl] ++ name).

Lemma ms_frame id pc rs nt fl name rest (buf := ms_response id pc rs nt fl name ++ rest) :
  0 <= id < 256 -> length pc = 16%nat -> length rs = 8%nat -> length nt = 24%nat -> chap_string name ->
  Z.of_nat (length (ms_response id pc rs nt fl name)) = 56 + Z.of_nat (length name) /\
  byte_at buf 2 = Ok CHAP_RESPONSE /\ byte_at buf 3 = Ok id /\ slice 4 2 buf = Ok (be_encode 2 (54 + Z.of_nat (length name))) /\
  byte_at buf 6 = Ok RESPONSE_VALUE_SIZE /\ slice 7 16 buf = Ok pc /\ slice 23 8 buf = Ok rs /\ slice 31 24 buf = Ok nt /\
  byte_at buf 55 = Ok fl /\ strndup buf MSCHAP_MSG (Z.of_nat (length name)) = Ok name.
Proof using.
  intros Hi Hpc Hrs Hnt [F Hl].
  set (h := be_encode 2 PPP_CHAP ++ [CHAP_RESPONSE; u8 id] ++ be_encode 2 (54 + Z.of_nat (length name)) ++ [RESPONSE_VALUE_SIZE]).
  assert (Eb : buf = h ++ pc ++ rs ++ nt ++ [fl] ++ name ++ rest).
  { unfold buf, ms_response, chap_frame, h. rewrite !length_app, Hpc, Hrs, Hnt. cbn [length].
    replace (CHAP_HDR - 2 + _) with (54 + Z.of_nat (length name)) by (unfold CHAP_HDR; lia). now rewrite <- !app_assoc. }
  clearbody buf. subst buf. split_and!.
  - unfold ms_response, chap_frame. rewrite !length_app, !length_be_encode, Hpc, Hrs, Hnt. cbn [length]. lia.
  - reflexivity.
  - change (Ok (u8 id) = Ok id). unfold u8. now rewrite Z.mod_small by lia.
  - reflexivity.
  - reflexivity.
  - transitivity (slice 0 16 (pc ++ rs ++ nt ++ [fl] ++ name ++ rest)); [exact (slice_app_r h _ 0 _) | now apply slice_app_l'].
  - transitivity (slice 16 8 (pc ++ rs ++ nt ++ [fl] ++ name ++ rest)); [exact (slice_app_r h _ 16 _)|].
    replace 16%nat with (length pc + 0)%nat by lia. rewrite slice_app_r. now apply slice_app_l'.
  - transitivity (slice 24 24 (pc ++ rs ++ nt ++ [fl] ++ name ++ rest)); [exact (slice_app_r h _ 24 _)|].
    rewrite (app_assoc pc). replace 24%nat with (length (pc ++ rs) + 0)%nat at 1 by (rewrite length_app; lia).
    rewrite slice_app_r. now apply slice_app_l'.
  - replace (h ++ _) with ((h ++ pc ++ rs ++ nt) ++ fl :: (name ++ rest)) by now rewrite <- !app_assoc.
    apply byte_at_mid. rewrite !length_app, Hpc, Hrs, Hnt. done.
  - replace (h ++ _) with ((h ++ pc ++ rs ++ nt ++ [fl]) ++ name ++ rest) by now rewrite <- !app_assoc.
    apply strndup_at; [done|]. rewrite !length_app, Hpc, Hrs, Hnt. done.
Qed.

(** A whole response comes to the function for responses. *)
Lemma ms_recv {X A W : Type} recv (e : auth_env A W) (d : chap_auth_data X) s id pc rs nt fl name rest
    (frame := ms_response id pc rs nt fl name) :
  0 <= id < 256 -> length pc = 16%nat -> length rs = 8%nat -> length nt = 24%nat -> chap_string name ->
  chap_recv recv e d s (frame ++ rest) (Z.of_nat (length frame)) = recv e d s (frame ++ rest) /\
  exists l, slice 4 2 (frame ++ rest) = Ok l /\ strndup (frame ++ rest) MSCHAP_MSG (u64 (be_decode l - MSCHAP_MSG + 2)) = Ok name.
Proof using.
  intros Hi Hpc Hrs Hnt Hn. pose proof Hn as [_ Hl].
  destruct (ms_frame id pc rs nt fl name rest Hi Hpc Hrs Hnt Hn) as (L & E2 & E3 & E4 & E6 & _ & _ & _ & _ & En).
  fold frame in L, E2, E3, E4, E6, En. split.
  - unfold chap_recv, CHAP_HDR. rewrite L, E4, E2. cbn [mbind res_bind]. rewrite be_decode_encode.
    rewrite (Z.mod_small (54 + _)) by (change (256 ^ Z.of_nat 2) with 65536; lia).
    destruct (Z.ltb_spec (56 + Z.of_nat (length name)) 6); [lia|]. destruct (Z.ltb_spec (54 + Z.of_nat (length name)) (6 - 2)); [lia|].
    now destruct (Z.ltb_spec (56 + Z.of_nat (length name) - 2) (54 + Z.of_nat (length name))); [lia|].
  - eexists. split; [exact E4|]. rewrite be_decode_encode, (Z.mod_small (54 + _)) by (change (256 ^ Z.of_nat 2) with 65536; lia).
    unfold u64, MSCHAP_MSG. rewrite (Z.mod_small (54 + _ - 56 + 2)) by lia.
    now replace (54 + Z.of_nat (length name) - 56 + 2) with (Z.of_nat (length name)) by lia.
Qed.

(** ** The key of DES *)

(** The 56 bits in groups of seven, each with a bit that makes its parity odd. *)
Definition ones (g : Z) : Z := foldl (fun n j => n + Z.b2z (Z.testbit g j)) 0 (seqZ 0 8).
Definition des_key_ref (key : list Z) : list Z :=
  (fun i => let g := be_decode (take 7 key) / 2 ^ (49 - 7 * i) mod 128 in 2 * g + (ones g + 1) mod 2) <$> seqZ 0 8.

Definition des_byte_of (x : Z) : Z :=
  let c := Z.land x 0xfe in Z.lor c (Z.land (Z.lnot (des_parity c)) 1).

Lemma des_byte_all : forallb (fun x => (des_byte_of x =? 2 * (x / 2) + (ones (x / 2) + 1) mod 2) &&
  (ones (des_byte_of x) mod 2 =? 1)) (seqZ 0 256) = true.
Proof using. vm_compute. reflexivity. Qed.

Lemma des_byte_spec x : 0 <= x < 256 ->
  des_byte_of x = 2 * (x / 2) + (ones (x / 2) + 1) mod 2 /\ ones (des_byte_of x) mod 2 = 1.
Proof using.
  intros Hx. pose proof des_byte_all as H. rewrite forallb_forall in H. specialize (H x).
  rewrite andb_true_iff, !Z.eqb_eq in H. apply H, list_elem_of_In, elem_of_seqZ. lia.
Qed.

Lemma des_cb_spec key i : bytes_ok key -> (7 <= length key)%nat -> 0 <= junk < 256 -> 0 <= i < 8 ->
  des_cb (p_key key junk) i =
  des_byte_of ((be_decode (take 7 key) * 256 + junk) / 2 ^ (56 - 7 * i) mod 256).
Proof using.
  intros B L J Hi. unfold des_cb. fold (des_byte_of (Z.shiftr (u64 (Z.shiftl (p_key key junk) (7 * i))) 56)). f_equal.
  assert (E : p_key key junk = be_decode (take 7 key) * 256 + junk).
  { unfold p_key, be_decode. rewrite foldl_app. done. }
  rewrite E. clear E. set (k := be_decode (take 7 key) * 256 + junk).
  rewrite Z.shiftl_mul_pow2, Z.shiftr_div_pow2 by lia. unfold u64.
  replace (2 ^ 64) with (2 ^ (7 * i) * 2 ^ (64 - 7 * i)) by (rewrite <- Z.pow_add_r by lia; f_equal; lia).
  rewrite (Z.mul_comm k), Z.mul_mod_distr_l by (apply Z.pow_nonzero; lia).
  replace (2 ^ 56) with (2 ^ (7 * i) * 2 ^ (56 - 7 * i)) by (rewrite <- Z.pow_add_r by lia; f_equal; lia).
  rewrite Z.div_mul_cancel_l by (apply Z.pow_nonzero; lia).
  replace (2 ^ (64 - 7 * i)) with (2 ^ (56 - 7 * i) * 256).
  2: { change 256 with (2 ^ 8). rewrite <- Z.pow_add_r by lia. f_equal. lia. }
  rewrite Z.rem_mul_r by (lia || apply Z.pow_nonzero; lia).
  rewrite (Z.mul_comm (2 ^ (56 - 7 * i))), Z.div_add by (apply Z.pow_nonzero; lia).
  rewrite (Z.div_small (k mod _)) by (apply Z.mod_pos_bound, Z.pow_pos_nonneg; lia). lia.
Qed.

Lemma des_key_eq key : bytes_ok key -> (7 <= length key)%nat -> 0 <= junk < 256 -> des_key key junk = des_key_ref key.
Proof using.
  intros B L J. apply list_fmap_ext. intros n i Hi. apply lookup_seqZ in Hi. rewrite des_cb_spec by (done || lia).
  set (q := be_decode (take 7 key)).
  destruct (des_byte_spec ((q * 256 + junk) / 2 ^ (56 - 7 * i) mod 256)) as [-> _]; [apply Z.mod_pos_bound; lia|].
  assert (E : (q * 256 + junk) / 2 ^ (56 - 7 * i) mod 256 / 2 = q / 2 ^ (49 - 7 * i) mod 128); [|now rewrite E].
  change 256 with (2 * 128) at 2. rewrite Z.rem_mul_r by lia. rewrite (Z.mul_comm 2), Z.div_add by lia.
  rewrite (Z.div_small (_ mod 2)) by (apply Z.mod_pos_bound; lia). rewrite Z.add_0_l. f_equal.
  rewrite Z.div_div by (try lia; apply Z.pow_nonzero; lia).
  replace (2 ^ (56 - 7 * i) * 2) with (256 * 2 ^ (49 - 7 * i)).
  2: { change 256 with (2 ^ 8). change 2 with (2 ^ 1) at 4. rewrite <- !Z.pow_add_r by lia. f_equal. lia. }
  rewrite <- Z.div_div by (try lia; apply Z.pow_pos_nonneg; lia). f_equal.
  rewrite Z.div_add_l, Z.div_small by lia. lia.
Qed.

(** ** The handshake of MS-CHAP v2 *)

(** The peer's side, from RFC 2759 and RFC 3079, over DES with a key of eight bytes. *)
Section Peer.
Context (DES : list Z -> list Z -> list Z).

Definition rfc_password_hash (passwd : list Z) : list Z := md4 (u_passwd passwd).
Definition rfc_challenge_hash (peer_challenge challenge name : list Z) : list Z :=
  take 8 (sha1 (peer_challenge ++ challenge ++ name)).
Definition rfc_nt_response (passwd challenge8 : list Z) : list Z :=
  let z := rfc_password_hash passwd ++ replicate 5 0 in
  DES (des_key_ref z) challenge8 ++ DES (des_key_ref (drop 7 z)) challenge8 ++ DES (des_key_ref (drop 14 z)) challenge8.
Definition rfc_authenticator (passwd nt challenge8 : list Z) : list Z :=
  sha1 (sha1 (md4 (rfc_password_hash passwd) ++ nt ++ MS_MAGIC1) ++ challenge8 ++ MS_MAGIC2) ≫= hex_byte.
Definition rfc_key (is_send is_server : bool) (passwd nt : list Z) : list Z :=
  let master := take 16 (sha1 (md4 (rfc_password_hash passwd) ++ nt ++ MPPE_MAGIC1)) in
  sha1 (master ++ MPPE_PAD1 ++ (if Bool.eqb is_send is_server then MPPE_MAGIC3 else MPPE_MAGIC2) ++ MPPE_PAD2).

(** The library does DES with a key. *)
Definition des_good (k : list Z) : Prop :=
  exists sched, DES_set_key_checked k = Some sched /\ forall x, DES_ecb_encrypt sched x = DES k x.

Lemma des_encrypt_good input key : bytes_ok key -> (7 <= length key)%nat -> 0 <= junk < 256 -> length input = 8%nat ->
  des_good (des_key_ref key) -> des_encrypt input key = DES (des_key_ref key) input.
Proof using.
  intros B L J Li (sched & E & H). unfold des_encrypt. rewrite des_key_eq, E by done. cbn. rewrite H. now rewrite take_ge by lia.
Qed.

Context (md4_length : forall x, length (md4 x) = 16%nat) (md4_bytes : forall x, bytes_ok (md4 x)).
Context (sha1_length : forall x, length (sha1 x) = 20%nat).

Lemma z_hash_eq passwd : z_hash_of passwd = rfc_password_hash passwd ++ replicate 5 0.
Proof using md4_length. unfold z_hash_of, rfc_password_hash. now rewrite take_ge by (rewrite md4_length; lia). Qed.

Definition password_good (passwd : list Z) : Prop :=
  let z := rfc_password_hash passwd ++ replicate 5 0 in
  des_good (des_key_ref z) /\ des_good (des_key_ref (drop 7 z)) /\ des_good (des_key_ref (drop 14 z)).

Lemma nt_hash_eq passwd c8 : 0 <= junk < 256 -> length c8 = 8%nat -> password_good passwd ->
  nt_hash_of c8 (z_hash_of passwd) = rfc_nt_response passwd c8.
Proof using md4_length md4_bytes.
  intros J L (G1 & G2 & G3). unfold nt_hash_of, rfc_nt_response. rewrite z_hash_eq.
  assert (Lz : length (rfc_password_hash passwd ++ replicate 5 0) = 21%nat)
    by (rewrite length_app, length_replicate; unfold rfc_password_hash; rewrite md4_length; done).
  assert (Bz : bytes_ok (rfc_password_hash passwd ++ replicate 5 0)).
  { apply Forall_app. split; [apply md4_bytes|]. repeat constructor; lia. }
  set (z := _ ++ _) in *. rewrite !des_encrypt_good by (rewrite ?length_drop, ?Lz; auto using bytes_ok_drop; lia). done.
Qed.

Lemma generate_eq passwd nt c8 : generate_response (z_hash_of passwd) nt c8 = rfc_authenticator passwd nt c8.
Proof using md4_length sha1_length.
  unfold generate_response, rfc_authenticator. rewrite z_hash_eq. unfold rfc_password_hash.
  rewrite take_app_length' by now rewrite md4_length. rewrite !take_ge by (rewrite ?md4_length, ?sha1_length; lia). done.
Qed.

Lemma mppe_keys_eq passwd nt : mppe_keys_v2 (z_hash_of passwd) nt = (rfc_key true false passwd nt, rfc_key false false passwd nt).
Proof using md4_length.
  unfold mppe_keys_v2, rfc_key. rewrite z_hash_eq. unfold rfc_password_hash.
  rewrite take_app_length' by now rewrite md4_length. rewrite (take_ge (md4 (md4 _))) by (rewrite md4_length; lia). done.
Qed.

Lemma length_authenticator passwd nt c8 : length (rfc_authenticator passwd nt c8) = 40%nat.
Proof using sha1_length.
  unfold rfc_authenticator. set (x := sha1 _ ++ _). pose proof (sha1_length x) as H. clearbody x.
  replace 40%nat with (2 * length (sha1 x))%nat by lia. generalize (sha1 x). intros l.
  induction l as [|b l IH]; [done|]. cbn. cbn in IH. rewrite IH. lia.
Qed.

Lemma v2_success_body (d : v2_data) id s : length (v2_authenticator (ch_x d)) = 40%nat ->
  v2_send_success d id s = ppp_chan_send s (chap_frame CHAP_SUCCESS id (v2_success_text (v2_authenticator (ch_x d)))).
Proof using.
  intros L. unfold v2_send_success. do 2 f_equal. rewrite take_app_length'; [done|].
  unfold v2_success_text. rewrite !length_app, L. done.
Qed.

Lemma v2_layer_recv e b1 b2 d s name pc rs nt fl rest (frame := ms_response (ch_id d) pc rs nt fl name) :
  ch_h d = true -> ch_name d = SNull -> 0 <= ch_id d < 256 ->
  length pc = 16%nat -> length rs = 8%nat -> length nt = 24%nat -> chap_string name ->
  layer_step (LProto e (ARecv (frame ++ rest) (Z.of_nat (length frame)))) (mk_al b1 b2 d) s =
  p ← v2_decide e (v2_reset (set_ch_timeout d false)) s name (mk_v2 (ch_id d) (ch_val d) pc rs nt fl);
  layer_terminate (ses_terminating s) (mk_al b1 b2 (fst p)) (snd p).
Proof using.
  intros Hh Hm Hi Hpc Hrs Hnt Hn.
  destruct (ms_frame (ch_id d) pc rs nt fl name rest Hi Hpc Hrs Hnt Hn) as (_ & _ & E3 & _ & E6 & E7 & E23 & E31 & E55 & _).
  destruct (ms_recv v2_recv_response e d s (ch_id d) pc rs nt fl name rest Hi Hpc Hrs Hnt Hn) as (E & l & E4 & En).
  fold frame in E3, E4, E6, E7, E23, E31, E55, En, E.
  cbn [layer_step al_d al_starting al_started]. change (proto_step e) with (v2_step e). unfold v2_step, chap_step.
  rewrite Hh, E, (v2_recv_response_eq e d s _ _ E3), E4, E6, E7, E23, E31, E55, Hm.
  destruct (Z.eqb_spec (ch_id d) (ch_id d - 1)); [lia|]. rewrite andb_false_r, !Z.eqb_refl. cbn [is_null negb mbind res_bind].
  now rewrite En.
Qed.

Lemma v2_start_eq e d s : length (ae_random e) = MSCHAP_V2_VALUE_SIZE -> v2_start e v2_init ses0 = (d, s) ->
  ch_h d = true /\ ch_id d = 1 /\ ch_val d = ae_random e /\ ch_name d = SNull /\ ch_started d = false /\
  s = ppp_chan_send ses0 (chap_frame CHAP_CHALLENGE 1 ([16] ++ ae_random e)).
Proof using.
  intros Hr [= <- <-]. rewrite Hr, drop_ge, app_nil_r by done. rewrite take_ge by (rewrite Hr; done). now rewrite app_nil_r.
Qed.

(** The decision for a stored password. *)
Lemma v2_decide_stored e d s name passwd a :
  ae_single_session e <> 0 -> Forall (fun db => pw_check db = None) (ae_dbs e) -> pwdb_get_passwd (ae_dbs e) name = Some passwd ->
  0 <= junk < 256 -> password_good passwd -> length (v2_peer_challenge a) = 16%nat -> length (ch_val d) = 16%nat ->
  let c8 := rfc_challenge_hash (v2_peer_challenge a) (ch_val d) name in
  let nt := v2_response a in
  let s1 := ev_mppe_keys s (rfc_key true false passwd nt) (rfc_key false false passwd nt) in
  v2_decide e d s name a =
  if bool_decide (rfc_nt_response passwd c8 = nt)
  then chap_ok v2_send_failure v2_send_success e
         (set_ch_x d (mk_v2x (rfc_authenticator passwd nt c8) (v2_error (ch_x d)) (v2_reply (ch_x d)))) s1 name
  else s2 ← v2_send_failure d s1; mret (v2_reset d, chap_bad d s2 TERM_AUTH_ERROR (Some name)).
Proof using md4_length md4_bytes sha1_length.
  intros Hs Hdb Hpw J G Lp Lv. cbv zeta. unfold v2_decide, pwdb_check, ap_check_username.
  destruct (Z.eqb_spec (ae_single_session e) 0); [done|]. cbn [negb].
  assert (El : forall l : list (pwdb_t v2_args ms_write), Forall (fun db => pw_check db = None) l ->
    pwdb_loop l name a PWDB_NO_IMPL = (PWDB_NO_IMPL, [])).
  { induction 1 as [|db l H _ IH]; [done|]. cbn. now rewrite H. }
  rewrite El by done. cbn [v2_write write_keys foldl Z.eqb PWDB_NO_IMPL PWDB_WAIT PWDB_DENIED Pos.eqb].
  replace (set_ch_x d (ch_x d)) with d by now destruct d.
  unfold v2_check_response. rewrite Hpw, mppe_keys_eq. unfold c_hash_of. rewrite !(take_ge _ 16) by lia.
  fold (rfc_challenge_hash (v2_peer_challenge a) (ch_val d) name). rewrite nt_hash_eq, generate_eq; [|done| |done].
  - now case_bool_decide.
  - unfold rfc_challenge_hash. rewrite length_take, sha1_length. done.
Qed.

(** C10. The handshake of MS-CHAP v2, with a peer that follows RFC 2759: the start of the layer
    sends a challenge of sixteen random bytes, and for a password that is stored here the
    response is right exactly when it is the one the peer computes.  A right one authorizes
    the name and is answered with the authenticator that the peer expects, and the keys for
    MPPE are those of the peer (RFC 3079), what it sends with is what is received with here
    and the other way round; every other response is answered with a failure and ends the
    session.  DES is done for the three keys of the password. *)
Theorem mschap_v2_handshake e name passwd pc rs nt fl rest (frame := ms_response 1 pc rs nt fl name)
    (c8 := rfc_challenge_hash pc (ae_random e) name) :
  ae_single_session e <> 0 -> ae_connect e = true ->
  Forall (fun db => pw_check db = None) (ae_dbs e) -> pwdb_get_passwd (ae_dbs e) name = Some passwd ->
  0 <= junk < 256 -> password_good passwd -> chap_string name ->
  length (ae_random e) = 16%nat -> length pc = 16%nat -> length rs = 8%nat -> length nt = 24%nat ->
  let '(l, s) := auth_layer_start e v2_init ses0 in
  ses_sent s = [chap_frame CHAP_CHALLENGE 1 ([16] ++ ae_random e)] /\
  exists l' s', layer_run [LProto e (ARecv (frame ++ rest) (Z.of_nat (length frame))); LCall] l s = Ok (l', s') /\
    if bool_decide (rfc_nt_response passwd c8 = nt)
    then ses_authorized s' = true /\ ses_username s' = Some name /\ ses_terminating s' = false /\
         ses_keys s' = [(rfc_key true false passwd nt, rfc_key false false passwd nt)] /\
         ses_sent s' = ses_sent s ++ [chap_frame CHAP_SUCCESS 1 (v2_success_text (rfc_authenticator passwd nt c8))]
    else ses_authorized s' = false /\ ses_terminating s' = true /\ ses_terminate_cause s' = TERM_AUTH_ERROR /\
         ses_sent s' = ses_sent s ++ [chap_frame CHAP_FAILURE 1 (V2_MSG_FAILURE ++ str_bytes " M=" ++ V2_MSG_FAILURE2)] /\
         chap_idle (al_d l').
Proof using md4_length md4_bytes sha1_length.
  intros Hs Hc Hdb Hpw J G Hn Hr Hpc Hrs Hnt.
  unfold auth_layer_start. change (proto_start e v2_init ses0) with (v2_start e v2_init ses0).
  destruct (v2_start e v2_init ses0) as [d s] eqn:Es. destruct (v2_start_eq e d s Hr Es) as (Hh & Hi & Hx & Hm & Ht & ->).
  split; [done|]. set (s := ppp_chan_send _ _). unfold frame.
  replace (ms_response 1 pc rs nt fl name) with (ms_response (ch_id d) pc rs nt fl name) by now rewrite Hi.
  cbn [layer_run]. rewrite v2_layer_recv by (done || rewrite Hi; lia).
  rewrite (v2_decide_stored e _ s name passwd); [|done..|change (length (ch_val d) = 16%nat); now rewrite Hx].
  change (ch_val (v2_reset (set_ch_timeout d false))) with (ch_val d). cbn [v2_peer_challenge v2_response]. rewrite Hx. fold c8.
  case_bool_decide.
  - unfold chap_ok, ppp_auth_succeeded, ap_session_set_username. destruct (Z.eqb_spec 0 (ae_single_session e)); [congruence|].
    cbn [ch_started set_ch_x set_ch_timeout v2_reset]. rewrite Ht, Hc. cbn [negb andb].
    rewrite v2_success_body by apply length_authenticator. cbn. rewrite ?Hi. eexists _, _. split; [done|]. cbn. done.
  - unfold chap_bad, v2_send_failure. cbn [ch_started ch_id set_ch_x set_ch_timeout v2_reset]. rewrite Ht, ?Hi. cbn.
    unfold layer_terminate. cbn. unfold auth_layer_finish. cbn. rewrite Hm. cbn. eexists _, _. split; [done|]. cbn. done.
Qed.
End Peer.

(** The key of a block of a response is the one RFC 2759 asks for: the 56 bits are spread over eight bytes in
    groups of seven, each byte with odd parity, and the byte behind the seven of the key,
    which the code does not initialise, has no part in it. *)
Theorem des_key_expands key : bytes_ok key -> (7 <= length key)%nat -> 0 <= junk < 256 ->
  des_key key junk = des_key_ref key /\ Forall (fun c => ones c mod 2 = 1) (des_key key junk).
Proof using.
  intros B L J. split; [now apply des_key_eq|]. apply Forall_fmap, Forall_forall. intros i Hi. apply elem_of_seqZ in Hi.
  cbn. rewrite des_cb_spec by (done || lia). apply des_byte_spec, Z.mod_pos_bound. lia.
Qed.


(** The same for MS-CHAP v1, where not any name will do (any-login). *)
Theorem mschap_v1_authorized e ins :
  Forall (layer_input_ok (P := v1_proto)) ins ->
  let '(l, s) := auth_layer_start e v1_init ses0 in
  exists l' s', layer_run ins l s = Ok (l', s') /\ auth_free l' = Ok () /\
    (ses_terminating s' = true -> ch_h (al_d l') = false /\ ch_timeout (al_d l') = false /\ ch_interval (al_d l') = false) /\
    (ses_authorized s' = true -> exists name, ses_username s' = Some name /\ accepted_in ins l s name).
Proof using.
  intros F. pose proof (layer_authorized e ins F) as H. change (@proto_init _ _ _ _) with v1_init in H.
  destruct (auth_layer_start e v1_init ses0) as [l s]. destruct H as (l' & s' & R & Fr & T & H). exists l', s'.
  split_and!; [done..| |done]. intros (I1 & I2 & I3)%T. auto.
Qed.

(** Where any name will do, MS-CHAP v1 reads the text of a failure through a null pointer for the first name
    that is refused, because it is set only for responses that are checked. *)
Theorem mschap_v1_any_null e d s name lm nt fl rest (frame := ms_response (ch_id d) (take 16 lm) (drop 16 lm) nt fl name) :
  ch_h d = true -> ch_name d = SNull -> 0 <= ch_id d < 256 -> ch_x d = MNull ->
  conf_any_login (ae_conf e) <> 0 -> ap_session_set_username e s name = None ->
  length lm = 24%nat -> length nt = 24%nat -> chap_string name ->
  v1_step e (ARecv (frame ++ rest) (Z.of_nat (length frame))) d s = Oob.
Proof using.
  intros Hh Hm Hi Hx Hy Hu Llm Hnt Hn.
  assert (H16 : length (take 16 lm) = 16%nat) by (rewrite length_take; lia).
  assert (H8 : length (drop 16 lm) = 8%nat) by (rewrite length_drop; lia).
  destruct (ms_frame (ch_id d) (take 16 lm) (drop 16 lm) nt fl name rest Hi H16 H8 Hnt Hn) as (_ & _ & E3 & _ & E6 & _).
  destruct (ms_recv v1_recv_response e d s (ch_id d) (take 16 lm) (drop 16 lm) nt fl name rest Hi H16 H8 Hnt Hn) as (E & l & E4 & En).
  fold frame in E3, E4, E6, En, E. unfold v1_step, chap_step.
  rewrite Hh, E, (v1_recv_response_eq e d s _ _ E3), E4, E6, Hm.
  destruct (Z.eqb_spec (ch_id d) (ch_id d - 1)); [lia|]. rewrite andb_false_r, !Z.eqb_refl. cbn [is_null negb mbind res_bind].
  rewrite En. cbn [mbind res_bind]. destruct (Z.eqb_spec (conf_any_login (ae_conf e)) 0); [done|]. cbn [negb].
  unfold chap_any, ppp_auth_succeeded. rewrite Hu. unfold v1_send_failure. cbn [negb ch_x set_ch_timeout]. now rewrite Hx.
Qed.

(** For a password whose NT hash ends in two zero bytes the third key of DES is a weak key, which
    the library refuses: the last block of the response that is compared is made with
    a key schedule that was never set. *)
Theorem mschap_weak_hash passwd c_hash :
  DES_set_key_checked (replicate 8 1) = None -> (forall x, length (md4 x) = 16%nat) ->
  (forall k x, length (DES_ecb_encrypt k x) = 8%nat) -> 0 <= junk < 256 ->
  drop 14 (md4 (u_passwd passwd)) = [0; 0] ->
  drop 16 (nt_hash_of c_hash (z_hash_of passwd)) = DES_ecb_encrypt ks (take 8 c_hash).
Proof using.
  intros Hw L4 L8 J Hz. unfold nt_hash_of. rewrite app_assoc, drop_app_length' by (rewrite length_app; unfold des_encrypt; now rewrite !L8).
  assert (E : drop 14 (z_hash_of passwd) = replicate 7 0).
  { unfold z_hash_of. rewrite (take_ge (md4 _)) by (rewrite L4; lia). rewrite drop_app_le by (rewrite L4; lia). now rewrite Hz. }
  unfold des_encrypt at 1. rewrite E, des_key_eq; [|repeat constructor; lia|done|done].
  change (des_key_ref (replicate 7 0)) with (replicate 8 1). now rewrite Hw.
Qed.
End Mschap.

(** ** Witnesses *)
Definition toy_md4 (_ : list Z) : list Z := replicate 16 5.
Definition toy_sha1 (x : list Z) : list Z := take 20 (x ++ replicate 20 6).
Definition toy_set_key (k : list Z) : option (list Z) := if bool_decide (k = replicate 8 1) then None else Some k.
Definition toy_ecb (k x : list Z) : list Z := take 8 (x ++ replicate 8 0).
Definition toy_des (k x : list Z) : list Z := take 8 (x ++ replicate 8 0).
Definition v2_env0 : auth_env v2_args ms_write :=
  mk_aenv auth_conf0 (-1) false [] true (replicate 16 7) [mk_pwdb None (Some (fun _ => Some [112]))].
Definition v2_nt0 : list Z := rfc_nt_response toy_md4 toy_des [112] (rfc_challenge_hash toy_sha1 (replicate 16 3) (replicate 16 7) [117]).
Definition v2_frame0 : list Z := ms_response 1 (replicate 16 3) (replicate 8 0) v2_nt0 0 [117].
Notation toy_v2 := (v2_proto toy_md4 toy_sha1 toy_set_key toy_ecb 9 [] []).

Lemma des_key_expands_witness : des_key [1; 2; 3; 4; 5; 6; 7] 200 = des_key_ref [1; 2; 3; 4; 5; 6; 7].
Proof. apply (des_key_expands 200 [1; 2; 3; 4; 5; 6; 7]); [now apply bytes_ok_compute | done | lia]. Defined.

Lemma mschap_v2_handshake_witness :
  exists l s l' s', auth_layer_start (P := toy_v2) v2_env0 v2_init ses0 = (l, s) /\
    layer_run (P := toy_v2) [LProto v2_env0 (ARecv (v2_frame0 ++ []) (Z.of_nat (length v2_frame0))); LCall] l s = Ok (l', s') /\
    ses_authorized s' = true.
Proof.
  pose proof (mschap_v2_handshake toy_md4 toy_sha1 toy_set_key toy_ecb 9 [] [] toy_des) as H.
  specialize (H (fun _ => eq_refl) (fun _ => ltac:(now apply bytes_ok_compute))
    (fun x => ltac:(unfold toy_sha1; rewrite length_take, length_app, length_replicate; lia))
    v2_env0 [117] [112] (replicate 16 3) (replicate 8 0) v2_nt0 0 []).
  destruct (auth_layer_start (P := toy_v2) v2_env0 v2_init ses0) as [l s].
  destruct H as (_ & l' & s' & R & H); [done|done|repeat constructor|done|lia| |apply chap_string0|done..|].
  { split_and!; eexists; (split; [reflexivity | done]). }
  exists l, s, l', s'. split; [done|]. split; [exact R|]. rewrite bool_decide_true in H by done. apply H.
Defined.


Lemma mschap_weak_hash_witness :
  drop 16 (nt_hash_of toy_set_key toy_ecb 9 [4] (replicate 8 2) (z_hash_of (fun _ => replicate 16 0) [112])) = toy_ecb [4] (replicate 8 2).
Proof.
  apply (mschap_weak_hash (fun _ => replicate 16 0) toy_set_key toy_ecb 9 [4] [112] (replicate 8 2));
    [done | done | intros k x; unfold toy_ecb; rewrite length_take, length_app, length_replicate; lia | lia | done].
Defined.
