(* ===== verification/ChapSecrets.v ===== *)
(** * The password file (accel-pppd/extra/chap-secrets.c)

    A database of passwords and addresses in a file, plain or as NT hashes, with what it keeps
    in a session.  A file is the list of its bytes; a line is read and cut into words in place,
    and here a word is what it is in the buffer after that.  [inet_aton], [inet_addr] and the
    digests are those of the libraries.  What a session keeps was made under the present
    setting of encrypted. *)
From stdpp Require Import strings.
From S2P Require Import Prelude CString PppAuth AuthChap AuthMschap.

(** ** Words of a line *)

Definition is_quote (c : Z) : bool := (c =? 39) || (c =? 34).

(** The loop of [skip_word]: the word and what is left, from the character that ended it. *)
Fixpoint word_loop (quote : Z) (s : list Z) : list Z * list Z :=
  match s with
  | [] => ([], [])
  | c :: s' =>
      if negb (quote =? 0) then
        if c =? 10 then ([], s)
        else
          match s' with
          | c1 :: s'' =>
              if (c =? 92) && negb (c1 =? 10) then let '(w, r) := word_loop quote s'' in (c1 :: w, r)
              else if c =? quote then ([], 32 :: s')
              else let '(w, r) := word_loop quote s' in (c :: w, r)
          | [] => if c =? quote then ([], [32]) else ([c], [])
          end
      else if (c =? 32) || (c =? 9) || (c =? 10) then ([], s)
      else let '(w, r) := word_loop quote s' in (c :: w, r)
  end.

(** [skip_word] *)
Definition skip_word (s : list Z) : list Z * list Z :=
  match s with
  | c :: s' => if is_quote c then let '(w, r) := word_loop c s' in (c :: w, r) else word_loop 0 s
  | [] => ([], [])
  end.

(** [skip_space] *)
Fixpoint cs_skip_space (s : list Z) : list Z :=
  match s with
  | c :: s' => if negb (c =? 32) && negb (c =? 9) then s else cs_skip_space s'
  | [] => []
  end.

(** [split]: the words; the first is the line itself, the others are [ptr]. *)
Fixpoint split_loop (n : nat) (s : list Z) : list (list Z) :=
  let '(w, r) := skip_word s in
  match n with
  | O => [w]
  | S n' =>
      match r with
      | [] => [w]
      | _ :: r => match cs_skip_space r with [] => [w] | r => w :: split_loop n' r end
      end
  end.
Definition split (s : list Z) : list (list Z) := split_loop 4 s.

(** A word without the quote in front. *)
Definition unquote (w : list Z) : list Z :=
  match w with c :: w' => if is_quote c then w' else w | [] => [] end.

(** ** The file *)

(** [fgets(buf, 4096, f)] until the end, as C strings *)
Fixpoint take_line (n : nat) (l : list Z) : list Z * list Z :=
  match n, l with
  | O, _ => ([], l)
  | S _, [] => ([], [])
  | S n', c :: l' => if c =? 10 then ([c], l') else let '(a, b) := take_line n' l' in (c :: a, b)
  end.
Fixpoint until_nul (l : list Z) : list Z := match l with [] => [] | c :: l' => if c =? 0 then [] else c :: until_nul l' end.
Fixpoint fgets_all (fuel : nat) (l : list Z) : list (list Z) :=
  match fuel, l with
  | S f, _ :: _ => let '(a, b) := take_line (Z.to_nat 4095) l in until_nul a :: fgets_all f b
  | _, _ => []
  end.
Definition cs_lines (file : list Z) : list (list Z) := fgets_all (length file) file.

(** [strtol(s, NULL, 16)] *)
Definition hex_val (c : Z) : option Z :=
  if (48 <=? c) && (c <=? 57) then Some (c - 48)
  else if (97 <=? c) && (c <=? 102) then Some (c - 87)
  else if (65 <=? c) && (c <=? 70) then Some (c - 55)
  else None.
Fixpoint hex_digits (s : list Z) (acc : Z) : Z :=
  match s with
  | c :: s' => match hex_val c with Some v => hex_digits s' (acc * 16 + v) | None => acc end
  | [] => acc
  end.
Definition hex_number (s : list Z) : Z :=
  match s with
  | a :: b :: c :: s' =>
      if (a =? 48) && ((b =? 120) || (b =? 88)) && bool_decide (is_Some (hex_val c)) then hex_digits (c :: s') 0 else hex_digits s 0
  | _ => hex_digits s 0
  end.
Fixpoint strtol16 (s : list Z) : Z :=
  match s with
  | c :: s' =>
      if (c =? 32) || ((9 <=? c) && (c <=? 13)) then strtol16 s'
      else if c =? 45 then - hex_number s'
      else if c =? 43 then hex_number s'
      else hex_number s
  | [] => 0
  end.

(** ** What is kept in a session *)

(** [struct cs_pd_t] *)
Record cs_pd_t : Type := mk_cs {
  cs_addr : Z; cs_peer_addr : Z; cs_mask : Z; cs_passwd : list Z; cs_rate : option (list Z); cs_pool : option (list Z)
}.

(** The configuration; [conf_chap_secrets] is the contents of the file, if it can be opened. *)
Record cs_conf : Type := mk_csconf {
  conf_chap_secrets : option (list Z);
  conf_encrypted : bool;
  conf_gw_ip_address : Z;
  conf_netmask : Z;
  hash_chain : list (list Z -> list Z)
}.

(** sprintf("%02x") *)
Definition lhex_digit (n : Z) : Z := if n <? 10 then 48 + n else 87 + n.
Definition lhex_byte (b : Z) : list Z := [lhex_digit (b / 16); lhex_digit (b mod 16)].

Section Secrets.
Context (inet_aton : list Z -> option Z) (conf : cs_conf).

(** The name that is looked up. *)
Definition cs_username (username : list Z) : list Z :=
  if conf_encrypted conf && negb (bool_decide (hash_chain conf = []))
  then foldl (fun x md => md x) username (hash_chain conf) ≫= lhex_byte else username.

(** The loop over the lines *)
Fixpoint cs_find (username : list Z) (lines : list (list Z)) : option (list (list Z)) :=
  match lines with
  | [] => None
  | buf :: lines' =>
      if bool_decide (head buf = Some 35) then cs_find username lines'
      else
        let ws := split buf in
        if Z.of_nat (length ws) - 1 <? 3 then cs_find username lines'
        else if bool_decide (unquote (default [] (ws !! 0%nat)) = username) then Some ws
        else cs_find username lines'
  end.

(** The sixteen bytes of a hash in hexadecimal. *)
Definition cs_hash (s : list Z) : list Z := (fun i => u8 (strtol16 (take 2 (drop (2 * i) s)))) <$> seq 0 16.

(** [create_pd] *)
Definition create_pd (username : list Z) : option cs_pd_t :=
  file ← conf_chap_secrets conf;
  ws ← cs_find (cs_username username) (cs_lines file);
  let ptr i := unquote (default [] (ws !! S i)) in
  if conf_encrypted conf && negb (Nat.eqb (length (ptr 1%nat)) 32) then None
  else
    let passwd := if conf_encrypted conf then cs_hash (ptr 1%nat) else ptr 1%nat in
    let '(peer_addr, pool) :=
      match ptr 2%nat with
      | [] => (0, None)
      | c :: _ =>
          if (c =? 42) || (c =? 45) || (c =? 33) then (0, None)
          else match inet_aton (ptr 2%nat) with Some a => (a, None) | None => (0, Some (ptr 2%nat)) end
      end in
    let rate := if Nat.leb 5 (length ws) then Some (ptr 3%nat) else None in
    Some (mk_cs (conf_gw_ip_address conf) peer_addr (conf_netmask conf) passwd rate pool).

(** [find_pd] or else [create_pd] *)
Definition cs_pd (pd : option cs_pd_t) (username : list Z) : option cs_pd_t :=
  match pd with Some _ => pd | None => create_pd username end.

(** [get_passwd]: what the session keeps then, and the password *)
Definition get_passwd (pd : option cs_pd_t) (username : list Z) : option cs_pd_t * option (list Z) :=
  if conf_encrypted conf then (pd, None)
  else let pd := cs_pd pd username in (pd, cs_passwd <$> pd).

(** [get_ip]: what is kept, the address (addr, peer_addr, mask) and the name of a pool that is set *)
Definition cs_get_ip (ppp : bool) (pd : option cs_pd_t) : option cs_pd_t * option (Z * Z * Z) * option (list Z) :=
  if (conf_gw_ip_address conf =? 0) && ppp then (pd, None, None)
  else
    match pd with
    | None => (pd, None, None)
    | Some p =>
        match cs_pool p with
        | Some pool => (pd, None, Some pool)
        | None =>
            if cs_peer_addr p =? 0 then (pd, None, None)
            else
              let p := if negb ppp then mk_cs 0 (cs_peer_addr p) (cs_mask p) (cs_passwd p) (cs_rate p) (cs_pool p) else p in
              (Some p, Some (cs_addr p, cs_peer_addr p, cs_mask p), None)
        end
    end.

(** [ev_ses_pre_up]: the value of EV_SHAPER *)
Definition cs_ses_pre_up (pd : option cs_pd_t) : option (list Z) := p ← pd; cs_rate p.

(** [ev_ses_finished] *)
Definition cs_ses_finished (pd : option cs_pd_t) : option cs_pd_t := match pd with None => pd | Some _ => None end.

(** ** Checks against a hash *)
Section Hashes.
Context (md4 sha1 : list Z -> list Z).
Context {K : Type} (DES_set_key_checked : list Z -> option K) (DES_ecb_encrypt : K -> list Z -> list Z).
Context (junk : Z) (ks : K).
Notation des := (des_encrypt DES_set_key_checked DES_ecb_encrypt junk ks).

(** [auth_pap] *)
Definition cs_auth_pap (pd : cs_pd_t) (passwd : list Z) : Z :=
  if bool_decide (take 16 (md4 (u_passwd passwd)) = take 16 (cs_passwd pd)) then PWDB_SUCCESS else PWDB_DENIED.

(** [derive_mppe_keys_mschap_v1] *)
Definition derive_mppe_keys_mschap_v1 (z_hash challenge : list Z) : ms_write :=
  let digest := take 16 (md4 (take 16 z_hash)) in
  let digest := sha1 (digest ++ digest ++ challenge) in
  WKeys digest digest.

(** [auth_mschap_v1] *)
Definition cs_auth_mschap_v1 (ppp : bool) (pd : cs_pd_t) (a : v1_args) : Z * list ms_write :=
  let z_hash := take 16 (cs_passwd pd) ++ replicate 5 0 in
  let nt_hash := des (v1_challenge a) z_hash ++ des (v1_challenge a) (drop 7 z_hash) ++ des (v1_challenge a) (drop 14 z_hash) in
  if negb (bool_decide (nt_hash = v1_nt a)) then (PWDB_DENIED, [])
  else (PWDB_SUCCESS, if ppp then [derive_mppe_keys_mschap_v1 z_hash (v1_challenge a)] else []).

(** [generate_mschap_response] *)
Definition generate_mschap_response (nt_response c_hash z_hash : list Z) : ms_write :=
  let pw_hash := take 16 (md4 (take 16 z_hash)) in
  let response := sha1 (pw_hash ++ nt_response ++ MS_MAGIC1) in
  let response := sha1 (take 20 response ++ take 8 c_hash ++ MS_MAGIC2) in
  WAuthenticator (take 20 response ≫= hex_byte).

(** [derive_mppe_keys_mschap_v2] *)
Definition derive_mppe_keys_mschap_v2 (z_hash nt_hash : list Z) : ms_write :=
  let digest := take 16 (md4 (take 16 z_hash)) in
  let digest := sha1 (digest ++ nt_hash ++ MPPE_MAGIC1) in
  let send_key := sha1 (take 16 digest ++ MPPE_PAD1 ++ MPPE_MAGIC3 ++ MPPE_PAD2) in
  let recv_key := sha1 (take 16 digest ++ MPPE_PAD1 ++ MPPE_MAGIC2 ++ MPPE_PAD2) in
  WKeys recv_key send_key.

(** [auth_mschap_v2] *)
Definition cs_auth_mschap_v2 (ppp : bool) (pd : cs_pd_t) (username : list Z) (a : v2_args) : Z * list ms_write :=
  let c_hash := sha1 (take 16 (v2_peer_challenge a) ++ take 16 (v2_challenge a) ++ username) in
  let z_hash := take 16 (cs_passwd pd) ++ replicate 5 0 in
  let nt_hash := des c_hash z_hash ++ des c_hash (drop 7 z_hash) ++ des c_hash (drop 14 z_hash) in
  if negb (bool_decide (nt_hash = v2_response a)) then (PWDB_DENIED, [])
  else (PWDB_SUCCESS, (if ppp then [derive_mppe_keys_mschap_v2 z_hash (v2_response a)] else []) ++
                      [generate_mschap_response (v2_response a) c_hash z_hash]).

(** The arguments by protocol. *)
Inductive cs_args : Type :=
| CsPap (passwd : list Z)
| CsMd5 (a : chap_args)
| CsV1 (a : v1_args)
| CsV2 (a : v2_args)
| CsOther.

(** [check_passwd]: what the session keeps then, the result and what is stored *)
Definition check_passwd (ppp : bool) (pd : option cs_pd_t) (username : list Z) (a : cs_args) : option cs_pd_t * (Z * list ms_write) :=
  if negb (conf_encrypted conf) then (pd, (PWDB_NO_IMPL, []))
  else
    match cs_pd pd username with
    | None => (None, (PWDB_NO_IMPL, []))
    | Some p =>
        (Some p, match a with
                 | CsPap passwd => (cs_auth_pap p passwd, [])
                 | CsMd5 _ => (PWDB_NO_IMPL, [])
                 | CsV1 a => cs_auth_mschap_v1 ppp p a
                 | CsV2 a => cs_auth_mschap_v2 ppp p username a
                 | CsOther => (PWDB_NO_IMPL, [])
                 end)
    end.

(** The database as the protocols see it in a session. *)
Definition cs_pwdb {A : Type} (wrap : A -> cs_args) (ppp : bool) (pd : option cs_pd_t) : pwdb_t A ms_write :=
  mk_pwdb (Some (fun username a => snd (check_passwd ppp pd username (wrap a)))) (Some (fun username => snd (get_passwd pd username))).
End Hashes.
End Secrets.

(** ** Configuration *)

(** [parse_hash_chain]; the search for the comma starts behind the first character. *)
Section HashChain.
Context (EVP_get_digestbyname : list Z -> option (list Z -> list Z)).

(** From [ptr1 + 1]: the rest of the name, and what is behind the comma if there is one. *)
Fixpoint chain_name (s : list Z) : list Z * option (list Z) :=
  match s with
  | [] => ([], None)
  | c :: s' => if c =? 44 then ([], Some s') else let '(w, r) := chain_name s' in (c :: w, r)
  end.

Fixpoint chain_loop (fuel : nat) (ptr1 : list Z) (acc : list (list Z -> list Z)) : res (list (list Z -> list Z)) :=
  match fuel, ptr1 with
  | O, _ => Oob
  | _, [] => Oob
  | S f, c :: s =>
      let '(w, r) := chain_name s in
      match EVP_get_digestbyname (c :: w) with
      | None => mret acc
      | Some md => match r with None => mret (acc ++ [md]) | Some ptr1 => chain_loop f ptr1 (acc ++ [md]) end
      end
  end.
Definition parse_hash_chain (opt : list Z) : res (list (list Z -> list Z)) := chain_loop (S (length opt)) opt [].
End HashChain.

(** [parse_gw_ip_address]: address and netmask *)
Definition cs_parse_gw (inet_addr : string -> Z) (opt : string) : Z * Z :=
  match strchr opt "/" with
  | Some ptr =>
      let n := Z.of_nat (String.length opt) - Z.of_nat (String.length ptr) in
      if (16 <? n) || (n <? 7) then (0, 0)
      else
        let addr := inet_addr (str_upto opt "/") in
        match ptr with
        | String _ EmptyString => (addr, 32)
        | String _ m => let mask := atoi m in (addr, if (mask <? 0) || (32 <? mask) then 32 else mask)
        | EmptyString => (addr, 32)
        end
  | None => (inet_addr opt, 32)
  end.

(** [load_config]; [file] opens what the option names, or the default. *)
Definition cs_load_config (EVP : list Z -> option (list Z -> list Z)) (inet_addr : string -> Z) (file : option string -> option (list Z))
    (opt : string -> option string) : res cs_conf :=
  let '(gw, mask) := match opt "gw-ip-address"%string with Some o => cs_parse_gw inet_addr o | None => (0, 0) end in
  let encrypted := match opt "encrypted"%string with Some o => negb (atoi o =? 0) | None => false end in
  chain ← match opt "username-hash"%string with Some o => parse_hash_chain EVP (str_bytes o) | None => mret [] end;
  mret (mk_csconf (file (opt "chap-secrets"%string)) encrypted gw mask chain).

(** ** Files and what is found in them *)

(** A field in quotes, as it is written to a file. *)
Definition cs_escape (f : list Z) : list Z := f ≫= (fun c => if (c =? 34) || (c =? 92) then [92; c] else [c]).
Definition cs_quote (f : list Z) : list Z := 34 :: cs_escape f ++ [34].

(** An account: name, server, password and address. *)
Record cs_entry : Type := mk_entry { en_user : list Z; en_server : list Z; en_secret : list Z; en_ip : list Z }.
Definition entry_line (e : cs_entry) : list Z :=
  cs_quote (en_user e) ++ [32] ++ cs_quote (en_server e) ++ [32] ++ cs_quote (en_secret e) ++ [32] ++ en_ip e ++ [10].
Definition cs_file (es : list cs_entry) : list Z := concat (entry_line <$> es).

Definition text_ok (f : list Z) : Prop := Forall (fun c => c <> 0 /\ c <> 10) f.
Definition ip_ok (f : list Z) : Prop :=
  Forall (fun c => c <> 0 /\ c <> 10 /\ c <> 32 /\ c <> 9) f /\ exists c f', f = c :: f' /\ is_quote c = false.
Definition entry_ok (e : cs_entry) : Prop :=
  text_ok (en_user e) /\ text_ok (en_server e) /\ text_ok (en_secret e) /\ ip_ok (en_ip e) /\
  Z.of_nat (length (entry_line e)) <= 4095.

Lemma word_loop_char q c s : q <> 0 -> c <> 10 -> c <> 92 -> c <> q ->
  word_loop q (c :: s) = let '(w, r) := word_loop q s in (c :: w, r).
Proof.
  intros H1 H2 H3 H4. destruct s as [|c1 s]; cbn [word_loop];
    destruct (Z.eqb_spec q 0), (Z.eqb_spec c 10), (Z.eqb_spec c 92), (Z.eqb_spec c q); done.
Qed.

Lemma word_loop_quoted f r : text_ok f -> word_loop 34 (cs_escape f ++ 34 :: r) = (f, 32 :: r).
Proof.
  induction 1 as [|c f [_ Hc] _ IH]; [now destruct r|]. cbn [cs_escape mbind list_bind]. fold (cs_escape f).
  destruct (Z.eqb_spec c 34) as [->|E1]; [cbn; now rewrite IH|].
  destruct (Z.eqb_spec c 92) as [->|E2]; [cbn; now rewrite IH|]. cbn [orb app].
  now rewrite word_loop_char, IH.
Qed.

Lemma skip_word_quoted f r : text_ok f -> skip_word (cs_quote f ++ r) = (34 :: f, 32 :: r).
Proof. intros H. unfold cs_quote. rewrite <- app_comm_cons, <- app_assoc. cbn. now rewrite (word_loop_quoted f r H). Qed.

Lemma skip_word_ip f : ip_ok f -> skip_word (f ++ [10]) = (f, [10]).
Proof.
  intros [F (c & f' & -> & Hc)]. cbn [skip_word app]. rewrite Hc.
  enough (G : forall l, Forall (fun c => c <> 0 /\ c <> 10 /\ c <> 32 /\ c <> 9) l -> word_loop 0 (l ++ [10]) = (l, [10])).
  { exact (G _ F). }
  induction 1 as [|x l (_ & H1 & H2 & H3) _ IH]; [done|]. cbn [word_loop app].
  change (negb (0 =? 0)) with false. cbv iota.
  destruct (Z.eqb_spec x 32), (Z.eqb_spec x 9), (Z.eqb_spec x 10); try done. cbn [orb]. now rewrite IH.
Qed.

Lemma split_entry e : entry_ok e -> split (entry_line e) = [34 :: en_user e; 34 :: en_server e; 34 :: en_secret e; en_ip e].
Proof.
  intros (H1 & H2 & H3 & H4 & _). unfold split, entry_line.
  assert (G : forall n f c r, text_ok f -> c <> 32 -> c <> 9 ->
    split_loop (S n) (cs_quote f ++ [32] ++ c :: r) = (34 :: f) :: split_loop n (c :: r)).
  { intros n f c r Hf N1 N2. cbn [split_loop]. rewrite (skip_word_quoted f _ Hf). cbn [cs_skip_space app].
    change (negb (32 =? 32)) with false. cbn [andb]. destruct (Z.eqb_spec c 32), (Z.eqb_spec c 9); done. }
  pose proof H4 as [F (c & f' & E & _)]. rewrite E in F. apply Forall_cons_1 in F as [(_ & _ & N1 & N2) _].
  change (cs_quote (en_server e) ++ ?r) with (34 :: (cs_escape (en_server e) ++ [34]) ++ r).
  change (cs_quote (en_secret e) ++ ?r) with (34 :: (cs_escape (en_secret e) ++ [34]) ++ r).
  rewrite G by done. change (34 :: (cs_escape (en_server e) ++ [34]) ++ ?r) with (cs_quote (en_server e) ++ r).
  rewrite G by done. change (34 :: (cs_escape (en_secret e) ++ [34]) ++ ?r) with (cs_quote (en_secret e) ++ r).
  rewrite E. change ((c :: f') ++ [10]) with (c :: (f' ++ [10])). rewrite G by done.
  change (c :: (f' ++ [10])) with ((c :: f') ++ [10]). rewrite <- E. cbn [split_loop].
  now rewrite (skip_word_ip _ H4).
Qed.

Lemma text_ok_escape f : text_ok f -> text_ok (cs_escape f).
Proof.
  induction 1 as [|c f H _ IH]; [constructor|]. cbn [cs_escape mbind list_bind]. fold (cs_escape f). apply Forall_app. split; [|done].
  destruct (_ || _); [apply Forall_cons; split; [done|]|]; (apply Forall_cons; split; [done | constructor]).
Qed.

(** A line is its characters and the end of the line. *)
Lemma entry_line_text e : entry_ok e -> exists b, entry_line e = b ++ [10] /\ text_ok b.
Proof.
  intros (H1 & H2 & H3 & [H4 _] & _).
  exists (cs_quote (en_user e) ++ [32] ++ cs_quote (en_server e) ++ [32] ++ cs_quote (en_secret e) ++ [32] ++ en_ip e).
  split; [unfold entry_line; now rewrite <- !app_assoc|].
  assert (Q : forall f, text_ok f -> text_ok (cs_quote f)).
  { intros f Hf. apply Forall_cons. split; [done|]. apply Forall_app. split; [now apply text_ok_escape | now repeat constructor]. }
  unfold text_ok. rewrite !Forall_app. split_and!; try (now apply Q); try (now repeat constructor).
  apply (Forall_impl _ _ _ H4). tauto.
Qed.

Lemma take_line_text n b rest : text_ok b -> (length b < n)%nat -> take_line n (b ++ 10 :: rest) = (b ++ [10], rest).
Proof.
  intros H. revert n. induction H as [|c b [_ Hc] _ IH]; intros [|n] L; cbn in *; try lia; [done|].
  destruct (Z.eqb_spec c 10); [done|]. now rewrite IH by lia.
Qed.

Lemma until_nul_text b : Forall (fun c => c <> 0) b -> until_nul b = b.
Proof. induction 1 as [|c b H _ IH]; [done|]. cbn. destruct (Z.eqb_spec c 0); [done|]. now rewrite IH. Qed.

Lemma fgets_all_file es fuel : Forall entry_ok es -> (length es <= fuel)%nat -> fgets_all fuel (cs_file es) = entry_line <$> es.
Proof.
  intros F. revert fuel. induction F as [|e es He _ IH]; intros fuel L; [now destruct fuel|].
  destruct fuel as [|fuel]; [cbn in L; lia|]. change (cs_file (e :: es)) with (entry_line e ++ cs_file es).
  destruct (entry_line_text e He) as (b & Eb & Tb). destruct He as (_ & _ & _ & _ & Hl).
  assert (Lb : Z.of_nat (length b) < 4095) by (rewrite Eb, length_app in Hl; cbn in Hl; lia).
  cbn [fmap list_fmap]. rewrite Eb, <- app_assoc.
  assert (E : take_line (Z.to_nat 4095) (b ++ [10] ++ cs_file es) = (b ++ [10], cs_file es)) by (apply take_line_text; [done | lia]).
  destruct (b ++ [10] ++ cs_file es) as [|c t] eqn:Et; [now destruct b|]. unfold fgets_all. rewrite E. fold fgets_all. f_equal.
  - apply until_nul_text. apply Forall_app. split; [|now repeat constructor]. apply (Forall_impl _ _ _ Tb). tauto.
  - apply IH. cbn in L. lia.
Qed.

Lemma cs_lines_file es : Forall entry_ok es -> cs_lines (cs_file es) = entry_line <$> es.
Proof.
  intros F. apply fgets_all_file; [done|]. induction F as [|e es He _ IH]; [done|].
  change (cs_file (e :: es)) with (entry_line e ++ cs_file es). rewrite length_app.
  destruct (entry_line_text e He) as (b & -> & _). rewrite length_app. cbn. lia.
Qed.

(** The first account of a name. *)
Fixpoint entry_of (user : list Z) (es : list cs_entry) : option cs_entry :=
  match es with
  | [] => None
  | e :: es' => if bool_decide (en_user e = user) then Some e else entry_of user es'
  end.

Lemma cs_find_file es user : Forall entry_ok es ->
  cs_find user (entry_line <$> es) =
  (fun e => [34 :: en_user e; 34 :: en_server e; 34 :: en_secret e; en_ip e]) <$> entry_of user es.
Proof.
  induction 1 as [|e es He _ IH]; [done|]. cbn [fmap list_fmap cs_find entry_of].
  rewrite bool_decide_false by done. rewrite (split_entry e He).
  change (_ <? 3) with false. cbv iota zeta. change (unquote (default [] _)) with (en_user e).
  case_bool_decide; [done|]. apply IH.
Qed.

(** What is kept of an account. *)
Definition entry_pd (inet_aton : list Z -> option Z) (gw mask : Z) (passwd : list Z) (ip : list Z) : cs_pd_t :=
  let none := bool_decide (head ip = Some 42) || bool_decide (head ip = Some 45) || bool_decide (head ip = Some 33) in
  match inet_aton ip with
  | Some a => mk_cs gw (if none then 0 else a) mask passwd None None
  | None => mk_cs gw 0 mask passwd None (if none then None else Some ip)
  end.

Lemma create_pd_file inet_aton conf es user : Forall entry_ok es -> conf_chap_secrets conf = Some (cs_file es) ->
  create_pd inet_aton conf user =
  e ← entry_of (cs_username conf user) es;
  if conf_encrypted conf && negb (Nat.eqb (length (en_secret e)) 32) then None
  else Some (entry_pd inet_aton (conf_gw_ip_address conf) (conf_netmask conf)
               (if conf_encrypted conf then cs_hash (en_secret e) else en_secret e) (en_ip e)).
Proof.
  intros F E. unfold create_pd. rewrite E. cbn [mbind option_bind]. rewrite cs_lines_file, cs_find_file by done.
  assert (G : forall e, entry_of (cs_username conf user) es = Some e -> ip_ok (en_ip e)).
  { intros e. clear E. induction F as [|e' es He _ IH]; [done|]. cbn. case_bool_decide; [intros [= <-]; apply He | apply IH]. }
  destruct (entry_of (cs_username conf user) es) as [e|]; [|done]. specialize (G e eq_refl). destruct G as [_ (c & f & Ei & Hq)].
  cbn [fmap option_fmap option_map mbind option_bind]. set (ws := [_; _; _; _]).
  assert (P1 : unquote (default [] (ws !! 2%nat)) = en_secret e) by done.
  assert (P2 : unquote (default [] (ws !! 3%nat)) = en_ip e) by (unfold ws; cbn; rewrite Ei; cbn; now rewrite Hq).
  change (Nat.leb 5 (length ws)) with false. clearbody ws. cbv zeta. rewrite P1, P2.
  destruct (conf_encrypted conf && _); [done|]. rewrite Ei. unfold entry_pd. cbn [head].
  destruct (Z.eqb_spec c 42) as [->|N1]; [rewrite bool_decide_true by done; cbn [orb]; now destruct (inet_aton _)|].
  destruct (Z.eqb_spec c 45) as [->|N2]; [rewrite (bool_decide_true (Some 45 = Some 45)), orb_true_r by done; cbn [orb]; now destruct (inet_aton _)|].
  destruct (Z.eqb_spec c 33) as [->|N3]; [rewrite (bool_decide_true (Some 33 = Some 33)), orb_true_r by done; cbn [orb]; now destruct (inet_aton _)|].
  rewrite !bool_decide_false by congruence. cbn [orb]. now destruct (inet_aton _).
Qed.

(** A hash in hexadecimal is read back. *)
Lemma lhex_back_all : forallb (fun b => u8 (strtol16 (lhex_byte b)) =? b) (seqZ 0 256) = true.
Proof. vm_compute. reflexivity. Qed.

Lemma lhex_back b : byte_ok b -> u8 (strtol16 (lhex_byte b)) = b.
Proof.
  intros Hb. pose proof lhex_back_all as H. rewrite forallb_forall in H. apply Z.eqb_eq, H, list_elem_of_In, elem_of_seqZ.
  unfold byte_ok in Hb. lia.
Qed.

Lemma cs_hash_back h : bytes_ok h -> length h = 16%nat -> cs_hash (h ≫= lhex_byte) = h.
Proof.
  intros B L. unfold cs_hash. apply list_eq. intros i. rewrite list_lookup_fmap.
  destruct (decide (i < 16)%nat) as [Hi|Hi]; [|rewrite !lookup_ge_None_2 by (rewrite ?length_seq; lia); done].
  rewrite lookup_seq_lt by done. cbn [fmap option_fmap option_map]. destruct (lookup_lt_is_Some_2 h i) as [b Eb]; [lia|]. rewrite Eb.
  f_equal. rewrite Nat.add_0_l. rewrite <- (lhex_back b) by apply (Forall_lookup_1 _ _ _ _ B Eb). do 2 f_equal.
  clear L Hi B. revert i Eb. induction h as [|x h IH]; intros i Eb; [done|]. destruct i as [|i].
  - cbn in Eb. injection Eb as ->. done.
  - cbn in Eb. rewrite <- (IH i Eb). replace (2 * S i)%nat with (S (S (2 * i))) by lia. done.
Qed.

Lemma length_lhex h : length (h ≫= lhex_byte) = (2 * length h)%nat.
Proof. induction h as [|b h IH]; [done|]. cbn. cbn in IH. rewrite IH. lia. Qed.

(** C32. A file of accounts is read back: what a session keeps for a name is the first account of that name in
    the file, with its password byte for byte, or the hash that is written in hexadecimal,
    whatever quotes and backslashes names and passwords have, and nothing for a name that
    has none. *)
Theorem secrets_file_found inet_aton conf es hash user :
  Forall entry_ok es -> conf_chap_secrets conf = Some (cs_file es) -> hash_chain conf = [] ->
  (conf_encrypted conf = true -> Forall (fun e => en_secret e = hash e ≫= lhex_byte /\ bytes_ok (hash e) /\ length (hash e) = 16%nat) es) ->
  create_pd inet_aton conf user =
  (fun e => entry_pd inet_aton (conf_gw_ip_address conf) (conf_netmask conf)
              (if conf_encrypted conf then hash e else en_secret e) (en_ip e)) <$> entry_of user es.
Proof.
  intros F E Hc H. rewrite (create_pd_file inet_aton conf es user F E). unfold cs_username. rewrite Hc.
  rewrite bool_decide_true by done. rewrite andb_false_r.
  destruct (conf_encrypted conf); [|now destruct (entry_of user es)]. specialize (H eq_refl). clear E F.
  induction H as [|e es (E & B & L) _ IH]; [done|]. pose proof (length_lhex (hash e)) as L1. pose proof (cs_hash_back (hash e) B L) as L2.
  rewrite <- E in L1, L2. rewrite L in L1. cbn [entry_of]. case_bool_decide; [|apply IH]. cbn -[cs_hash]. now rewrite L1, L2.
Qed.

(** ** Hashes instead of passwords *)
Section Same.
Context (md4 sha1 : list Z -> list Z).
Context {K : Type} (DES_set_key_checked : list Z -> option K) (DES_ecb_encrypt : K -> list Z -> list Z).
Context (junk : Z) (ks : K) (heap : list Z) (inet_aton : list Z -> option Z).
Context (md4_length : forall x, length (md4 x) = 16%nat) (md4_bytes : forall x, bytes_ok (md4 x)).

(** The account with the NT hash of its password. *)
Definition hash_entry (e : cs_entry) : cs_entry :=
  mk_entry (en_user e) (en_server e) (md4 (u_passwd (en_secret e)) ≫= lhex_byte) (en_ip e).

Definition cs_plain (es : list cs_entry) : cs_conf := mk_csconf (Some (cs_file es)) false 0 0 [].
Definition cs_hashed (es : list cs_entry) : cs_conf := mk_csconf (Some (cs_file (hash_entry <$> es))) true 0 0 [].

(** An environment whose database is a file. *)
Definition with_secrets (e : auth_env v2_args ms_write) (conf : cs_conf) : auth_env v2_args ms_write :=
  mk_aenv (ae_conf e) (ae_single_session e) (ae_ignore_case e) (ae_sessions e) (ae_connect e) (ae_random e)
    [cs_pwdb inet_aton conf md4 sha1 DES_set_key_checked DES_ecb_encrypt junk ks CsV2 true None].

Definition without_keys (s : ses_t) : ses_t :=
  mk_ses (ses_username s) (ses_terminate_cause s) (ses_terminating s) (ses_calls s) (ses_authorized s) [] (ses_sent s).

Lemma entry_of_hashed user es : entry_of user (hash_entry <$> es) = hash_entry <$> entry_of user es.
Proof using. induction es as [|e es IH]; [done|]. cbn. now case_bool_decide. Qed.

Lemma plain_found es user : Forall entry_ok es -> get_passwd inet_aton (cs_plain es) None user =
  ((fun e => entry_pd inet_aton 0 0 (en_secret e) (en_ip e)) <$> entry_of user es, en_secret <$> entry_of user es).
Proof using.
  intros F. unfold get_passwd, cs_pd. cbn [conf_encrypted cs_plain]. rewrite (create_pd_file inet_aton _ es) by done.
  unfold cs_username. cbn [conf_encrypted cs_plain andb conf_gw_ip_address conf_netmask].
  destruct (entry_of user es) as [e|]; [|done]. cbn. f_equal. unfold entry_pd. now destruct (inet_aton (en_ip e)).
Qed.

Lemma hashed_found es user : Forall entry_ok (hash_entry <$> es) ->
  create_pd inet_aton (cs_hashed es) user =
  (fun e => entry_pd inet_aton 0 0 (md4 (u_passwd (en_secret e))) (en_ip e)) <$> entry_of user es.
Proof using md4_length md4_bytes.
  intros F. rewrite (create_pd_file inet_aton _ (hash_entry <$> es)) by done. unfold cs_username.
  cbn [conf_encrypted cs_hashed hash_chain]. rewrite bool_decide_true by done. cbn [negb andb]. rewrite entry_of_hashed.
  destruct (entry_of user es) as [e|]; [|done]. pose proof (length_lhex (md4 (u_passwd (en_secret e)))) as L1.
  pose proof (cs_hash_back (md4 (u_passwd (en_secret e))) (md4_bytes _) (md4_length _)) as L2. rewrite md4_length in L1.
  fold (en_secret (hash_entry e)) in L1, L2. change (md4 _ ≫= lhex_byte) with (en_secret (hash_entry e)) in L1, L2.
  cbn [fmap option_fmap option_map mbind option_bind].
  destruct (hash_entry e) as [u v sec ip] eqn:Eh. cbn -[cs_hash] in L1, L2 |- *. injection Eh as _ _ _ <-. now rewrite L1, L2.
Qed.

Notation decide2 := (v2_decide md4 sha1 DES_set_key_checked DES_ecb_encrypt junk ks heap).
Notation nt_of pw a d name := (nt_hash_of DES_set_key_checked DES_ecb_encrypt junk ks
  (c_hash_of sha1 (v2_peer_challenge a) (ch_val d) name) (z_hash_of md4 pw)).

Lemma pwdb_plain e es s name a : Forall entry_ok es ->
  pwdb_check (with_secrets e (cs_plain es)) s name a = if ap_check_username e s name then (PWDB_DENIED, []) else (PWDB_NO_IMPL, []).
Proof using. done. Qed.

Lemma cs_auth_v2_eq pd name a (d : chap_auth_data v2_x) pw : v2_challenge a = ch_val d -> cs_passwd pd = md4 (u_passwd pw) ->
  let z := z_hash_of md4 pw in
  let '(recv_key, send_key) := mppe_keys_v2 md4 sha1 z (v2_response a) in
  cs_auth_mschap_v2 md4 sha1 DES_set_key_checked DES_ecb_encrypt junk ks true pd name a =
  if bool_decide (nt_of pw a d name = v2_response a)
  then (PWDB_SUCCESS, [WKeys recv_key send_key;
                       WAuthenticator (generate_response md4 sha1 z (v2_response a) (c_hash_of sha1 (v2_peer_challenge a) (ch_val d) name))])
  else (PWDB_DENIED, []).
Proof using.
  intros E Ep. cbv zeta. unfold cs_auth_mschap_v2, mppe_keys_v2. rewrite Ep, E.
  unfold nt_hash_of, des_encrypt, c_hash_of. rewrite take_take. change (8 `min` 8)%nat with 8%nat.
  fold (z_hash_of md4 pw). now case_bool_decide.
Qed.

Lemma pwdb_hashed e es s name a : Forall entry_ok (hash_entry <$> es) ->
  pwdb_check (with_secrets e (cs_hashed es)) s name a =
  if ap_check_username e s name then (PWDB_DENIED, [])
  else match entry_of name es with
       | None => (PWDB_NO_IMPL, [])
       | Some en => cs_auth_mschap_v2 md4 sha1 DES_set_key_checked DES_ecb_encrypt junk ks true
                      (entry_pd inet_aton 0 0 (md4 (u_passwd (en_secret en))) (en_ip en)) name a
       end.
Proof using md4_length md4_bytes.
  intros F. unfold pwdb_check. change (ap_check_username (with_secrets e (cs_hashed es)) s name) with (ap_check_username e s name).
  destruct (ap_check_username e s name); [done|]. cbn [with_secrets ae_dbs pwdb_loop cs_pwdb pw_check].
  unfold check_passwd. cbn [conf_encrypted cs_hashed negb cs_pd]. rewrite hashed_found by done.
  destruct (entry_of name es) as [en|]; [|done]. cbn [fmap option_fmap option_map snd].
  unfold cs_auth_mschap_v2. now destruct (negb _).
Qed.

Lemma v2_failure_text (d : chap_auth_data v2_x) : v2_ready (ch_x d) -> exists m, forall s, v2_send_failure d s = Ok (ppp_chan_send s m).
Proof using.
  intros [H1 H2]. unfold v2_send_failure. destruct (v2_error (ch_x d)), (v2_reply (ch_x d)); try done; eexists; intros ?; done.
Qed.

Lemma v2_ok_some (e : auth_env v2_args ms_write) (d : chap_auth_data v2_x) s name : v2_ready (ch_x d) ->
  exists d' s', chap_ok v2_send_failure (v2_send_success heap) e d s name = Ok (d', s').
Proof using.
  intros H. destruct (v2_failure_text d H) as [m E]. unfold chap_ok. destruct (ch_started d); cbn [negb]; [now eexists _, _|].
  destruct (ppp_auth_succeeded e s name) as [s1 [|]]; cbn [negb]; [now eexists _, _|]. rewrite E. now eexists _, _.
Qed.

(** A denial, with keys that were announced before and without them. *)
Lemma v2_deny_same (d : chap_auth_data v2_x) s r k name : v2_ready (ch_x d) -> exists sp sh,
  (s2 ← v2_send_failure d (ev_mppe_keys s r k); mret (v2_reset d, chap_bad d s2 TERM_AUTH_ERROR (Some name))) = Ok (v2_reset d, sp) /\
  (s2 ← v2_send_failure d s; mret (v2_reset d, chap_bad d s2 TERM_AUTH_ERROR (Some name))) = Ok (v2_reset d, sh) /\
  without_keys sp = without_keys sh.
Proof using.
  intros H. destruct (v2_failure_text d H) as [m E]. rewrite !E. eexists _, _. split; [done|]. split; [done|].
  unfold chap_bad. now destruct (ch_started d).
Qed.

(** C31. It makes no difference to MS-CHAP v2 whether the file has the passwords or their NT hashes: for every
    account and every response the protocol ends in the same state with the same messages,
    and where the response is right, with the same keys. *)
Theorem secrets_hashed_same e es d s name a :
  Forall entry_ok es -> Forall entry_ok (hash_entry <$> es) -> v2_ready (ch_x d) -> v2_challenge a = ch_val d ->
  exists d' sp sh, decide2 (with_secrets e (cs_plain es)) d s name a = Ok (d', sp) /\
    decide2 (with_secrets e (cs_hashed es)) d s name a = Ok (d', sh) /\ without_keys sp = without_keys sh /\
    (forall en, entry_of name es = Some en -> nt_of (en_secret en) a d name = v2_response a -> sp = sh).
Proof using md4_length md4_bytes.
  intros F Fh Hr Hc. unfold v2_decide. rewrite pwdb_plain, pwdb_hashed by done.
  assert (Hd : set_ch_x d (ch_x d) = d) by now destruct d.
  destruct (v2_failure_text d Hr) as [m Em].
  destruct (ap_check_username e s name).
  { cbn. rewrite Hd, Em. cbn. eexists _, _, _. split; [done|]. split; [done|]. done. }
  cbn [v2_write write_keys foldl Z.eqb PWDB_NO_IMPL PWDB_WAIT PWDB_DENIED Pos.eqb]. rewrite Hd.
  unfold v2_check_response at 1. cbn [with_secrets ae_dbs pwdb_get_passwd cs_pwdb pw_get_passwd]. rewrite plain_found by done. cbn [snd].
  destruct (entry_of name es) as [en|]; cbn [fmap option_fmap option_map].
  - pose proof (cs_auth_v2_eq (entry_pd inet_aton 0 0 (md4 (u_passwd (en_secret en))) (en_ip en)) name a d (en_secret en) Hc) as E.
    cbv zeta in E. destruct (mppe_keys_v2 md4 sha1 (z_hash_of md4 (en_secret en)) (v2_response a)) as [rk sk].
    rewrite E by (unfold entry_pd; now destruct (inet_aton _)). case_bool_decide as Hn.
    + cbn [v2_write write_keys foldl Z.eqb PWDB_SUCCESS PWDB_NO_IMPL PWDB_WAIT PWDB_DENIED Pos.eqb v2_authenticator v2_error v2_reply].
      set (au := generate_response _ _ _ _ _). set (d1 := set_ch_x d _).
      destruct (v2_ok_some (with_secrets e (cs_plain es)) d1 (ev_mppe_keys s rk sk) name Hr) as (d' & s' & Eo).
      exists d', s', s'. split; [exact Eo|]. split; [exact Eo|]. done.
    + cbn [v2_write write_keys foldl Z.eqb PWDB_NO_IMPL PWDB_WAIT PWDB_DENIED Pos.eqb]. rewrite Hd.
      destruct (v2_deny_same d s rk sk name Hr) as (sp & sh & E1 & E2 & E3). exists (v2_reset d), sp, sh.
      split; [exact E1|]. split; [exact E2|]. split; [done|]. intros en' [= <-]. done.
  - cbn [v2_write write_keys foldl Z.eqb PWDB_NO_IMPL PWDB_WAIT PWDB_DENIED Pos.eqb]. rewrite Hd.
    change (v2_check_response _ _ _ _ _ _ (with_secrets e (cs_hashed es)) d s name _ _) with (@None (list Z), s).
    cbn [Z.eqb PWDB_DENIED Pos.eqb]. rewrite Em. eexists _, _, _. split; [done|]. split; [done|]. done.
Qed.
End Same.

(** ** Witnesses *)
Definition entries0 : list cs_entry := [mk_entry [117; 34] [42] [112; 92; 34; 32] [42]; mk_entry [117] [42] [113] [49]].

Lemma entries0_ok : Forall entry_ok entries0.
Proof.
  repeat constructor; try lia; try (eexists _, _; split; [done | done]); vm_compute; discriminate.
Qed.

Lemma secrets_file_found_witness :
  create_pd (fun _ => None) (cs_plain entries0) [117; 34] = Some (mk_cs 0 0 0 [112; 92; 34; 32] None None).
Proof.
  rewrite (secrets_file_found (fun _ => None) (cs_plain entries0) entries0 (fun _ => []) [117; 34]); [done|apply entries0_ok|done|done|done].
Defined.

Definition v2_args0 : v2_args := mk_v2 1 (replicate 16 7) (replicate 16 3) (replicate 8 0) (replicate 24 1) 0.
Definition v2_data0 : chap_auth_data v2_x := mk_chap true 1 (replicate 16 7) false false 0 SNull false (mk_v2x [] MConf MConf).

Lemma hashed0_ok : Forall entry_ok (hash_entry toy_md4 <$> entries0).
Proof.
  repeat constructor; try (vm_compute; discriminate); try (eexists _, _; split; [done | done]).
Qed.

Lemma secrets_hashed_same_witness :
  exists d' sp sh,
    v2_decide toy_md4 toy_sha1 toy_set_key toy_ecb 9 [] []
      (with_secrets toy_md4 toy_sha1 toy_set_key toy_ecb 9 [] (fun _ => None) v2_env0 (cs_plain entries0)) v2_data0 ses0 [117] v2_args0 = Ok (d', sp) /\
    v2_decide toy_md4 toy_sha1 toy_set_key toy_ecb 9 [] []
      (with_secrets toy_md4 toy_sha1 toy_set_key toy_ecb 9 [] (fun _ => None) v2_env0 (cs_hashed toy_md4 entries0)) v2_data0 ses0 [117] v2_args0 = Ok (d', sh).
Proof.
  destruct (secrets_hashed_same toy_md4 toy_sha1 toy_set_key toy_ecb 9 [] [] (fun _ => None) (fun _ => eq_refl)
    (fun _ => ltac:(now apply bytes_ok_compute)) v2_env0 entries0 v2_data0 ses0 [117] v2_args0) as (d' & sp & sh & E1 & E2 & _);
    [apply entries0_ok | apply hashed0_ok | done | done |].
  exists d', sp, sh. split; [exact E1 | exact E2].
Defined.
