(* ===== verification/IpRange.v ===== *)
(** * Ranges of client addresses (accel-pppd/iprange.c, the parsers of utils.c)

    The [client-ip-range] section lists the networks tunnels may come from.  An address is
    the number it stands for, most significant byte first ([ntohl] of an [in_addr_t]).  A
    parser takes a pointer into a string; what it returns is the value and the rest of
    the string, [None] for the length 0. *)
From S2P Require Import Prelude CString.

(** ** utils.c *)

(** [sprintf("%i")] of a byte. *)
Definition digit_char (d : Z) : ascii := ascii_of_nat (Z.to_nat (48 + d)).
Definition dec_byte (b : Z) : string :=
  if b <? 10 then String (digit_char b) EmptyString
  else if b <? 100 then String (digit_char (b / 10)) (String (digit_char (b mod 10)) EmptyString)
  else String (digit_char (b / 100)) (String (digit_char (b / 10 mod 10)) (String (digit_char (b mod 10)) EmptyString)).

Definition dot : string := String "." EmptyString.

Definition u_inet_ntoa (addr : Z) : string :=
  (dec_byte (Z.land (Z.shiftr addr 24) 255) +:+ dot +:+ dec_byte (Z.land (Z.shiftr addr 16) 255) +:+ dot +:+
   dec_byte (Z.land (Z.shiftr addr 8) 255) +:+ dot +:+ dec_byte (Z.land addr 255))%string.

(** [strspn] with the set of characters [p]: the span and the rest. *)
Fixpoint strspn (p : ascii -> bool) (s : string) : string * string :=
  match s with
  | String a s' => if p a then let '(l, r) := strspn p s' in (String a l, r) else (EmptyString, s)
  | EmptyString => (EmptyString, EmptyString)
  end.

Definition u_parse_spaces (str : string) : string := snd (strspn (fun a => Ascii.eqb a " ") str).

Definition u_parse_endstr (str : string) : bool := String.eqb (u_parse_spaces str) EmptyString.

(** [strtoul] saturates at [ULONG_MAX], which is out of range for all three. *)
Definition parse_unsigned (max : Z) (str : string) : option (Z * string) :=
  if starts_digit str then
    let '(ul, rest) := digits str 0 in
    if max <? ul then None else Some (ul, rest)
  else None.
Definition u_parse_u8 : string -> option (Z * string) := parse_unsigned 255.
Definition u_parse_u16 : string -> option (Z * string) := parse_unsigned 65535.
Definition u_parse_u32 : string -> option (Z * string) := parse_unsigned 4294967295.

Definition INET_ADDRSTRLEN : nat := 16.

(** [inet_pton(AF_INET)]: the octets complete so far, the one being read. *)
Fixpoint pton_loop (s : string) (octets : list Z) (cur : option Z) : option (list Z) :=
  match s with
  | EmptyString =>
      match cur with
      | Some c => if (length octets <? 3)%nat then None else Some (octets ++ [c])
      | None => None
      end
  | String ch s' =>
      if is_digit ch then
        let d := Z.of_nat (nat_of_ascii ch) - 48 in
        match cur with
        | Some c =>
            if c =? 0 then None
            else if 255 <? c * 10 + d then None else pton_loop s' octets (Some (c * 10 + d))
        | None => if (3 <? length octets)%nat then None else pton_loop s' octets (Some d)
        end
      else
        match cur with
        | Some c =>
            if Ascii.eqb ch "." then
              if (length octets =? 3)%nat then None else pton_loop s' (octets ++ [c]) None
            else None
        | None => None
        end
  end.
Definition inet_pton4 (s : string) : option Z := be_decode <$> pton_loop s [] None.

Definition addr_char (a : ascii) : bool := Ascii.eqb a "." || is_digit a.

Definition u_parse_ip4addr (str : string) : option (Z * string) :=
  let '(buf, rest) := strspn addr_char str in
  let len := String.length buf in
  if (len =? 0)%nat || (INET_ADDRSTRLEN <=? len)%nat then None
  else addr ← inet_pton4 buf; Some (addr, rest).

Definition u_parse_ip4cidr (str : string) : option (Z * Z * string) :=
  '(netp, ptr) ← u_parse_ip4addr str;
  ptr ← scan_lit "/" ptr;
  '(plen, ptr) ← u_parse_u8 ptr;
  if 32 <? plen then None else Some (netp, plen, ptr).

Definition u_parse_ip4range (str : string) : option (Z * Z * string) :=
  '(base_ip, ptr) ← u_parse_ip4addr str;
  ptr ← scan_lit "-" ptr;
  '(max, ptr) ← u_parse_u8 ptr;
  if max <? Z.land base_ip 255 then None else Some (base_ip, max, ptr).

(** ** iprange.c *)
Record iprange_t : Type := mk_iprange {
  r_begin : Z;
  r_end : Z
}.

Definition INADDR_BROADCAST : Z := 4294967295.

(** The common part after the two notations. *)
Definition addrange (ip_min ip_max : Z) (ptr : string) : option (option iprange_t) :=
  if u_parse_endstr ptr then
    if (ip_min =? 0) && (ip_max =? INADDR_BROADCAST) then Some None else Some (Some (mk_iprange ip_min ip_max))
  else None.

(** [None] is the -1 return, [Some None] switches the check off. *)
Definition parse_iprange (str : string) : option (option iprange_t) :=
  if String.eqb str "disable" then Some None
  else
    match u_parse_ip4cidr str with
    | Some (addr_hbo, suffix, ptr) =>
        let mask := u32 (u64 (Z.shiftl 4294967295 (32 - suffix))) in
        addrange (Z.land addr_hbo mask) (Z.lor addr_hbo (u32 (Z.lnot mask))) ptr
    | None =>
        match u_parse_ip4range str with
        | Some (ip_min, suffix, ptr) => addrange ip_min (Z.lor (Z.land ip_min 4294967040) suffix) ptr
        | None => None
        end
    end.

(** The names of the options of the section, in order: the ranges and [conf_disable]. *)
Fixpoint load_ranges (opts : list string) (ranges : list iprange_t) : list iprange_t * bool :=
  match opts with
  | [] => (ranges, false)
  | o :: opts =>
      match parse_iprange o with
      | None => load_ranges opts ranges
      | Some None => ([], true)
      | Some (Some r) => load_ranges opts (ranges ++ [r])
      end
  end.

Record iprange_state : Type := mk_iprange_state {
  client_ranges : list iprange_t;
  conf_disable : bool
}.

(** [None]: no such section. *)
Definition iprange_load_config (sect : option (list string)) : iprange_state :=
  match sect with
  | Some opts => let '(l, d) := load_ranges opts [] in mk_iprange_state l d
  | None => mk_iprange_state [] false
  end.

Definition check_range (l : list iprange_t) (a : Z) : Z :=
  if existsb (fun r => (r_begin r <=? a) && (a <=? r_end r)) l then 0 else -1.

Inductive iprange_status : Type := IPRANGE_DISABLED | IPRANGE_NO_RANGE | IPRANGE_ACTIVE.

Definition iprange_check_activation (st : iprange_state) : iprange_status :=
  if conf_disable st then IPRANGE_DISABLED
  else match client_ranges st with [] => IPRANGE_NO_RANGE | _ => IPRANGE_ACTIVE end.

Definition iprange_client_check (st : iprange_state) (ipaddr : Z) : Z :=
  if conf_disable st then 0 else check_range (client_ranges st) ipaddr.

Definition iprange_tunnel_check (st : iprange_state) (ipaddr : Z) : Z :=
  if conf_disable st then 0 else b2z (check_range (client_ranges st) ipaddr =? 0).

(** ** Vocabulary of the theorems *)

(** An option as it is meant: a network, or addresses that share three bytes. *)
Inductive entry : Type :=
| Cidr (addr len : Z)
| Last (addr max : Z).

Definition entry_ok (e : entry) : Prop :=
  match e with
  | Cidr a n => 0 <= a < 2 ^ 32 /\ 0 <= n <= 32
  | Last a m => 0 <= a < 2 ^ 32 /\ a mod 256 <= m < 256
  end.

Definition entry_text (e : entry) : string :=
  match e with
  | Cidr a n => (u_inet_ntoa a +:+ "/" +:+ dec_byte n)%string
  | Last a m => (u_inet_ntoa a +:+ "-" +:+ dec_byte m)%string
  end.

(** [ip] is one of the addresses of the option. *)
Definition covers (e : entry) (ip : Z) : Prop :=
  match e with
  | Cidr a n => ip / 2 ^ (32 - n) = a / 2 ^ (32 - n)
  | Last a m => ip / 256 = a / 256 /\ a mod 256 <= ip mod 256 <= m
  end.

(** The option covers all addresses, which switches the check off. *)
Definition everything (e : entry) : Prop := match e with Cidr _ n => n = 0 | Last _ _ => False end.
#[export] Instance everything_dec e : Decision (everything e).
Proof. destruct e; apply _. Defined.

(** ** Decimal notation *)
#[local] Arguments String.append !_ _ / : simpl nomatch.

Lemma digit_char_val d : 0 <= d < 10 -> Z.of_nat (nat_of_ascii (digit_char d)) = 48 + d.
Proof.
  intros H. unfold digit_char. rewrite nat_ascii_embedding by lia. lia.
Qed.

Lemma digit_char_digit d : 0 <= d < 10 -> is_digit (digit_char d) = true.
Proof. intros H. unfold is_digit. rewrite digit_char_val by done. apply andb_true_iff. split; apply Z.leb_le; lia. Qed.

(** The digits of a byte: none of them a zero in front of another. *)
Inductive dec_view (b : Z) : string -> Prop :=
| dec1 : 0 <= b < 10 -> dec_view b (String (digit_char b) EmptyString)
| dec2 x y : 0 < x < 10 -> 0 <= y < 10 -> b = x * 10 + y ->
    dec_view b (String (digit_char x) (String (digit_char y) EmptyString))
| dec3 x y z : 0 < x < 10 -> 0 <= y < 10 -> 0 <= z < 10 -> b = (x * 10 + y) * 10 + z ->
    dec_view b (String (digit_char x) (String (digit_char y) (String (digit_char z) EmptyString))).

Lemma dec_byte_view b : 0 <= b < 256 -> dec_view b (dec_byte b).
Proof.
  intros H. unfold dec_byte. destruct (Z.ltb_spec b 10); [constructor; lia|].
  destruct (Z.ltb_spec b 100); constructor; Z.to_euclidean_division_equations; lia.
Qed.

(** Decimal notation of numbers, read by [digits] and by [inet_pton]. *)
Lemma digits_dec b s : 0 <= b < 256 -> starts_digit s = false -> digits (dec_byte b +:+ s) 0 = (b, s).
Proof.
  intros Hb Hs.
  assert (E : forall acc, digits s acc = (acc, s)) by (destruct s; cbn in *; [done|now rewrite Hs]).
  destruct (dec_byte_view b Hb); cbn [String.append digits];
    repeat (rewrite digit_char_digit by lia; cbn [String.append digits]);
    rewrite ?digit_char_val by lia; rewrite E; f_equal; lia.
Qed.

Lemma dec_starts b s : 0 <= b < 256 -> starts_digit (dec_byte b +:+ s) = true.
Proof. intros Hb. destruct (dec_byte_view b Hb); cbn; apply digit_char_digit; lia. Qed.

Lemma parse_u8_dec b s : 0 <= b < 256 -> starts_digit s = false -> u_parse_u8 (dec_byte b +:+ s) = Some (b, s).
Proof.
  intros Hb Hs. unfold u_parse_u8, parse_unsigned. rewrite dec_starts, digits_dec by done.
  destruct (Z.ltb_spec 255 b); [lia|done].
Qed.

Lemma pton_dec b s octets :
  0 <= b < 256 -> (length octets <= 3)%nat ->
  pton_loop (dec_byte b +:+ s) octets None = pton_loop s octets (Some b).
Proof.
  intros Hb L. assert (L3 : (3 <? length octets)%nat = false) by (apply Nat.ltb_ge; lia).
  destruct (dec_byte_view b Hb) as [H|x y Hx Hy ->|x y z Hx Hy Hz ->]; cbn [String.append pton_loop];
    rewrite digit_char_digit, L3, digit_char_val by lia; cbn [String.append pton_loop].
  - do 2 f_equal. lia.
  - rewrite digit_char_digit, digit_char_val by lia. destruct (Z.eqb_spec (48 + x - 48) 0); [lia|].
    destruct (Z.ltb_spec 255 ((48 + x - 48) * 10 + (48 + y - 48))); [lia|]. do 2 f_equal. lia.
  - rewrite !digit_char_digit, !digit_char_val by lia. destruct (Z.eqb_spec (48 + x - 48) 0); [lia|].
    destruct (Z.ltb_spec 255 ((48 + x - 48) * 10 + (48 + y - 48))); [lia|].
    destruct (Z.eqb_spec ((48 + x - 48) * 10 + (48 + y - 48)) 0); [lia|].
    destruct (Z.ltb_spec 255 (((48 + x - 48) * 10 + (48 + y - 48)) * 10 + (48 + z - 48))); [lia|].
    do 2 f_equal. lia.
Qed.

(** ** Addresses *)
Lemma string_app_assoc (a b c : string) : ((a +:+ b) +:+ c = a +:+ (b +:+ c))%string.
Proof. induction a as [|x a IH]; cbn; [done|]. now rewrite IH. Qed.

Lemma string_app_nil (a : string) : (a +:+ EmptyString)%string = a.
Proof. induction a as [|x a IH]; cbn; [done|]. now rewrite IH. Qed.

Lemma string_length_app (a b : string) : String.length (a +:+ b) = (String.length a + String.length b)%nat.
Proof. induction a as [|x a IH]; cbn; [done|]. now rewrite IH. Qed.

Lemma pton_dot s octets b :
  (length octets < 3)%nat -> pton_loop (dot +:+ s) octets (Some b) = pton_loop s (octets ++ [b]) None.
Proof. intros H. cbn. destruct (Nat.eqb_spec (length octets) 3); [lia|done]. Qed.

Lemma strspn_app p a s : (forall x r, s = String x r -> p x = false) -> strspn p a = (a, EmptyString) -> strspn p (a +:+ s) = (a, s).
Proof.
  intros Hs. induction a as [|x a IH]; cbn.
  - intros _. destruct s as [|x r]; cbn; [done|]. now rewrite (Hs x r).
  - destruct (p x); [|done]. destruct (strspn p a) as [l r] eqn:E. intros [= -> ->]. now rewrite IH.
Qed.

Lemma strspn_both p a b : strspn p a = (a, EmptyString) -> strspn p b = (b, EmptyString) -> strspn p (a +:+ b) = (a +:+ b, EmptyString)%string.
Proof.
  intros Ha Hb. induction a as [|x a IH]; cbn in *; [done|].
  destruct (p x); [|done]. destruct (strspn p a) as [l r]. simplify_eq. now rewrite IH.
Qed.

Lemma dec_addr_chars b : 0 <= b < 256 -> strspn addr_char (dec_byte b) = (dec_byte b, EmptyString).
Proof.
  intros Hb. assert (A : forall d, 0 <= d < 10 -> addr_char (digit_char d) = true).
  { intros d Hd. unfold addr_char. now rewrite digit_char_digit, orb_true_r. }
  destruct (dec_byte_view b Hb); cbn; rewrite !A by lia; done.
Qed.

Lemma dec_length b : 0 <= b < 256 -> (1 <= String.length (dec_byte b) <= 3)%nat.
Proof. intros Hb. destruct (dec_byte_view b Hb); cbn; lia. Qed.

(** The four bytes of an address. *)
Definition quad (a : Z) : list Z := be_encode 4 a.

Lemma land_byte x : Z.land x 255 = x mod 256.
Proof. apply (Z.land_ones x 8). lia. Qed.

Lemma ntoa_quad a :
  (u_inet_ntoa a = dec_byte (quad a !!! 0%nat) +:+ dot +:+ dec_byte (quad a !!! 1%nat) +:+ dot +:+
                   dec_byte (quad a !!! 2%nat) +:+ dot +:+ dec_byte (quad a !!! 3%nat))%string.
Proof.
  unfold u_inet_ntoa. rewrite !land_byte, !Z.shiftr_div_pow2 by lia. cbn. now rewrite Z.div_1_r.
Qed.

Lemma quad_byte a i : (i < 4)%nat -> 0 <= quad a !!! i < 256.
Proof. intros H. apply bytes_ok_total; [apply be_encode_ok|]. unfold quad. now rewrite length_be_encode. Qed.

(** Text made from an address is read back, whatever follows it. *)
Lemma parse_ip4addr_ntoa a s :
  0 <= a < 2 ^ 32 -> (forall x r, s = String x r -> addr_char x = false) ->
  u_parse_ip4addr (u_inet_ntoa a +:+ s) = Some (a, s).
Proof.
  intros Ha Hs. unfold u_parse_ip4addr.
  pose proof (quad_byte a 0 ltac:(lia)) as B0. pose proof (quad_byte a 1 ltac:(lia)) as B1.
  pose proof (quad_byte a 2 ltac:(lia)) as B2. pose proof (quad_byte a 3 ltac:(lia)) as B3.
  rewrite (strspn_app _ _ _ Hs).
  2: { rewrite ntoa_quad. repeat apply strspn_both; try apply dec_addr_chars; done. }
  assert (L : (7 <= String.length (u_inet_ntoa a) <= 15)%nat).
  { rewrite ntoa_quad, !string_length_app. cbn [dot String.length].
    pose proof (dec_length _ B0); pose proof (dec_length _ B1); pose proof (dec_length _ B2); pose proof (dec_length _ B3). lia. }
  destruct (Nat.eqb_spec (String.length (u_inet_ntoa a)) 0); [lia|].
  destruct (Nat.leb_spec INET_ADDRSTRLEN (String.length (u_inet_ntoa a))); [unfold INET_ADDRSTRLEN in *; lia|].
  cbn [orb]. unfold inet_pton4. rewrite ntoa_quad.
  rewrite pton_dec, pton_dot, pton_dec, pton_dot, pton_dec, pton_dot by (assumption || cbn [length app]; lia).
  rewrite <- (string_app_nil (dec_byte (quad a !!! 3%nat))), pton_dec by (assumption || cbn [length app]; lia). cbn [pton_loop length app Nat.ltb Nat.leb fmap option_fmap option_map mbind option_bind].
  do 2 f_equal. transitivity (be_decode (quad a)); [done|].
  unfold quad. rewrite be_decode_encode. apply Z.mod_small. done.
Qed.

(** ** Networks *)
Lemma mask_ones n : 0 <= n <= 32 -> u32 (u64 (Z.shiftl 4294967295 (32 - n))) = Z.shiftl (Z.ones n) (32 - n).
Proof.
  intros H. unfold u32, u64. rewrite !Z.shiftl_mul_pow2, Z.ones_equiv by lia.
  assert (E : 2 ^ 32 = 2 ^ n * 2 ^ (32 - n)) by (rewrite <- Z.pow_add_r by lia; f_equal; lia).
  assert (0 < 2 ^ (32 - n) <= 2 ^ 32) by (split; [lia|apply Z.pow_le_mono_r; lia]).
  assert (0 < 2 ^ n <= 2 ^ 32) by (split; [lia|apply Z.pow_le_mono_r; lia]).
  rewrite (Z.mod_small _ (2 ^ 64)) by (cbn in *; nia).
  symmetry. apply (Z.mod_unique_pos _ _ (2 ^ (32 - n) - 1)); [cbn in *; nia|].
  change 4294967295 with (2 ^ 32 - 1). nia.
Qed.

Lemma mask_bit n i : 0 <= n <= 32 -> 0 <= i -> Z.testbit (Z.shiftl (Z.ones n) (32 - n)) i = (32 - n <=? i) && (i <? 32).
Proof.
  intros Hn Hi. rewrite Z.shiftl_spec by lia.
  destruct (Z.leb_spec (32 - n) i) as [H|H]; cbn [andb]; [|apply Z.testbit_neg_r; lia].
  destruct (Z.ltb_spec i 32); [apply Z.ones_spec_low|apply Z.ones_spec_high]; lia.
Qed.

Lemma high_bit a i : 0 <= a < 2 ^ 32 -> 32 <= i -> Z.testbit a i = false.
Proof.
  intros Ha Hi. destruct (Z.eq_dec a 0) as [->|]; [apply Z.testbit_0_l|].
  apply Z.bits_above_log2; [lia|]. apply Z.log2_lt_pow2; [lia|].
  eapply Z.lt_le_trans; [apply Ha|]. apply Z.pow_le_mono_r; lia.
Qed.

(** The first address of a network. *)
Lemma net_first a n : 0 <= a < 2 ^ 32 -> 0 <= n <= 32 ->
  Z.land a (Z.shiftl (Z.ones n) (32 - n)) = a / 2 ^ (32 - n) * 2 ^ (32 - n).
Proof.
  intros Ha Hn. rewrite <- Z.shiftr_div_pow2, <- Z.shiftl_mul_pow2 by lia.
  apply Z.bits_inj'. intros i Hi. rewrite Z.land_spec, mask_bit, Z.shiftl_spec by lia.
  destruct (Z.leb_spec (32 - n) i).
  - rewrite Z.shiftr_spec by lia. replace (i - (32 - n) + (32 - n)) with i by lia.
    destruct (Z.ltb_spec i 32); cbn [andb]; [apply andb_true_r|]. now rewrite high_bit by lia.
  - cbn [andb]. rewrite andb_false_r. symmetry. apply Z.testbit_neg_r. lia.
Qed.

(** The last one. *)
Lemma net_last a n : 0 <= a < 2 ^ 32 -> 0 <= n <= 32 ->
  Z.lor a (u32 (Z.lnot (Z.shiftl (Z.ones n) (32 - n)))) = a / 2 ^ (32 - n) * 2 ^ (32 - n) + (2 ^ (32 - n) - 1).
Proof.
  intros Ha Hn. assert (P : 0 < 2 ^ (32 - n)) by lia.
  transitivity (Z.lor (Z.ldiff a (Z.ones (32 - n))) (Z.ones (32 - n))).
  - apply Z.bits_inj'. intros i Hi. unfold u32. rewrite !Z.lor_spec, <- Z.land_ones, Z.land_spec, Z.lnot_spec, mask_bit, Z.ldiff_spec by lia.
    destruct (Z.leb_spec (32 - n) i), (Z.ltb_spec i 32); cbn [andb negb];
      rewrite ?(Z.ones_spec_high (32 - n) i), ?(Z.ones_spec_low (32 - n) i) by lia;
      rewrite ?(Z.ones_spec_high 32 i), ?(Z.ones_spec_low 32 i) by lia; cbn [andb negb];
      rewrite ?andb_true_r, ?orb_false_r, ?orb_true_r; done.
  - rewrite Z.ldiff_ones_r, Z.shiftl_mul_pow2, Z.shiftr_div_pow2 by lia.
    pose proof (Z.add_lor_land (a / 2 ^ (32 - n) * 2 ^ (32 - n)) (Z.ones (32 - n))) as E.
    rewrite Z.land_ones, Z.mod_mul in E by lia. rewrite Z.ones_equiv in *. lia.
Qed.

(** The last byte replaced. *)
Lemma last_byte a m : 0 <= m < 256 -> 0 <= a < 2 ^ 32 -> Z.lor (Z.land a 4294967040) m = a / 256 * 256 + m.
Proof.
  intros Hm Ha. change 4294967040 with (Z.shiftl (Z.ones 24) (32 - 24)). rewrite net_first by lia.
  change (2 ^ (32 - 24)) with 256. pose proof (Z.add_lor_land (a / 256 * 256) m) as E.
  replace (Z.land (a / 256 * 256) m) with 0 in E; [lia|].
  rewrite <- (Z.mod_small m 256) by done. change 256 with (2 ^ 8) at 3. rewrite <- Z.land_ones by lia.
  rewrite (Z.land_comm m), Z.land_assoc, Z.land_ones by lia. change (2 ^ 8) with 256. now rewrite Z.mod_mul by lia.
Qed.

(** ** Options *)

(** The range an option stands for. *)
Definition range_of (e : entry) : iprange_t :=
  match e with
  | Cidr a n => mk_iprange (a / 2 ^ (32 - n) * 2 ^ (32 - n)) (a / 2 ^ (32 - n) * 2 ^ (32 - n) + (2 ^ (32 - n) - 1))
  | Last a m => mk_iprange a (a / 256 * 256 + m)
  end.

Lemma in_range e ip : entry_ok e -> (r_begin (range_of e) <= ip <= r_end (range_of e) <-> covers e ip).
Proof.
  destruct e as [a n|a m]; cbn; intros [Ha Hn].
  - assert (0 < 2 ^ (32 - n)) by lia. set (p := 2 ^ (32 - n)) in *. split; intros H1.
    + symmetry. apply (Z.div_unique_pos ip p (a / p) (ip - a / p * p)); lia.
    + pose proof (Z.div_mod ip p ltac:(lia)). pose proof (Z.mod_pos_bound ip p ltac:(lia)). rewrite H1 in *. lia.
  - Z.to_euclidean_division_equations. lia.
Qed.

Lemma ntoa_not_disable a s : 0 <= a < 2 ^ 32 -> String.eqb (u_inet_ntoa a +:+ s) "disable" = false.
Proof.
  intros Ha. apply String.eqb_neq. intros E. rewrite ntoa_quad, !string_app_assoc in E.
  pose proof (dec_starts (quad a !!! 0%nat) (dot +:+ (dec_byte (quad a !!! 1%nat) +:+ (dot +:+
    (dec_byte (quad a !!! 2%nat) +:+ (dot +:+ (dec_byte (quad a !!! 3%nat) +:+ s)))))) (quad_byte a 0 ltac:(lia))) as S.
  rewrite E in S. done.
Qed.

Lemma addrange_end mn mx : addrange mn mx EmptyString =
  if (mn =? 0) && (mx =? INADDR_BROADCAST) then Some None else Some (Some (mk_iprange mn mx)).
Proof. done. Qed.

(** An option is read as the range it stands for, or as the switch. *)
Lemma parse_iprange_text e : entry_ok e ->
  parse_iprange (entry_text e) = Some (if decide (everything e) then None else Some (range_of e)).
Proof.
  destruct e as [a n|a m]; intros [Ha Hn]; unfold parse_iprange, entry_text; rewrite ntoa_not_disable by done.
  - unfold u_parse_ip4cidr. rewrite parse_ip4addr_ntoa by (done || now intros x r [= <- _]).
    cbn [mbind option_bind scan_lit String.append Ascii.eqb Bool.eqb]. rewrite <- (string_app_nil (dec_byte n)).
    rewrite parse_u8_dec by (lia || done). cbn [mbind option_bind].
    destruct (Z.ltb_spec 32 n); [lia|]. rewrite mask_ones, net_first, net_last, addrange_end by done.
    case_decide as E; cbn in E.
    + subst n. assert (a / 2 ^ (32 - 0) = 0) as -> by (apply Z.div_small; lia). done.
    + cbn [range_of]. assert (2 ^ (32 - n) <= 2 ^ 31) by (apply Z.pow_le_mono_r; lia).
      destruct (Z.eqb_spec (a / 2 ^ (32 - n) * 2 ^ (32 - n)) 0) as [->|]; [|done]. cbn [andb].
      unfold INADDR_BROADCAST. destruct (Z.eqb_spec (0 + (2 ^ (32 - n) - 1)) 4294967295); [cbn in *; lia|done].
  - unfold u_parse_ip4cidr, u_parse_ip4range. rewrite parse_ip4addr_ntoa by (done || now intros x r [= <- _]).
    cbn [mbind option_bind scan_lit String.append Ascii.eqb Bool.eqb]. rewrite <- (string_app_nil (dec_byte m)).
    rewrite parse_u8_dec by (Z.to_euclidean_division_equations; lia || done). cbn [mbind option_bind].
    rewrite land_byte. destruct (Z.ltb_spec m (a mod 256)); [lia|].
    assert (0 <= m < 256) by (pose proof (Z.mod_pos_bound a 256 ltac:(lia)); lia).
    rewrite last_byte, addrange_end by done. rewrite decide_False by (cbn; tauto). cbn [range_of].
    destruct (Z.eqb_spec a 0) as [->|]; [|done]. unfold INADDR_BROADCAST. cbn [andb].
    change (0 / 256 * 256) with 0. destruct (Z.eqb_spec (0 + m) 4294967295); [lia|done].
Qed.

Lemma load_ranges_text es acc :
  Forall entry_ok es ->
  load_ranges (map entry_text es) acc =
    if decide (Exists everything es) then ([], true) else (acc ++ map range_of es, false).
Proof.
  intros H. revert acc. induction H as [|e es He _ IH]; intros acc; cbn [map load_ranges].
  - rewrite decide_False by (rewrite Exists_nil; tauto). now rewrite app_nil_r.
  - rewrite parse_iprange_text by done. destruct (decide (everything e)) as [E|E].
    + now rewrite decide_True by (now left).
    + rewrite IH, <- app_assoc. cbn [app]. repeat case_decide; try done; rewrite Exists_cons in *; tauto.
Qed.

(** C30. A configuration of networks and ranges, as the manual writes them, lets in exactly the
    addresses they cover, all if one of them covers everything; a server behind a tunnel
    is checked the other way round. *)
Theorem iprange_exact es ip :
  Forall entry_ok es ->
  let st := iprange_load_config (Some (map entry_text es)) in
  let inside := Exists (fun e => covers e ip) es in
  let off := Exists everything es in
  (iprange_client_check st ip = 0 <-> off \/ inside) /\
  (iprange_tunnel_check st ip = 0 <-> off \/ ~ inside) /\
  (iprange_check_activation st = IPRANGE_ACTIVE <-> ~ off /\ es <> []).
Proof.
  intros H. unfold iprange_load_config. rewrite load_ranges_text by done. cbv zeta.
  unfold iprange_client_check, iprange_tunnel_check, iprange_check_activation, check_range.
  case_decide as E; cbn [conf_disable client_ranges app].
  - split_and!; split; try tauto; done.
  - assert (X : existsb (fun r => (r_begin r <=? ip) && (ip <=? r_end r)) (map range_of es) = true
                <-> Exists (fun e => covers e ip) es).
    { rewrite existsb_exists, Exists_exists. split.
      - intros (r & Hr & C). apply in_map_iff in Hr as (e & <- & He). exists e. rewrite <- list_elem_of_In in He.
        split; [done|]. apply in_range; [exact (proj1 (Forall_forall _ _) H e He)|]. bools. lia.
      - intros (e & He & C). exists (range_of e). split; [apply in_map, list_elem_of_In, He|].
        apply in_range in C; [|exact (proj1 (Forall_forall _ _) H e He)]. apply andb_true_iff. split; apply Z.leb_le; lia. }
    destruct (existsb _ _) eqn:B.
    + assert (Exists (fun e => covers e ip) es) by now apply X. cbn.
      split_and!; [tauto|split; [done|tauto]|]. destruct es; [now rewrite Exists_nil in *|]. cbn. split; [|done]. split; done.
    + assert (~ Exists (fun e => covers e ip) es) by (intros ?%X; done). cbn.
      split_and!; [split; [done|tauto]|tauto|]. destruct es; cbn; split; done || tauto.
Qed.

Lemma iprange_exact_witness :
  iprange_client_check (iprange_load_config (Some (map entry_text [Cidr 3221225984 24; Last 167772160 9]))) 167772165 = 0.
Proof.
  apply (iprange_exact [Cidr 3221225984 24; Last 167772160 9] 167772165).
  - apply Forall_cons; split; [cbn [entry_ok]; lia|]. apply Forall_cons; split; [|apply Forall_nil_2]. split_and!; vm_compute; done.
  - right. apply Exists_cons_tl, Exists_cons_hd. split_and!; vm_compute; done.
Defined.
