(* ===== verification/Pptp.v ===== *)
(** * The PPTP server (accel-pppd/ctrl/pptp)

    A connection is a TCP stream of control messages, reassembled in [in_buf], and at most
    one PPP session.  Handlers run one after the other.  From outside come the results of
    [read], [write] and [accept] and of the system calls that make the PPP channel; a call that was
    interrupted is repeated by the code, so only its last result is given. *)
From S2P Require Import Prelude Utils CString IpRange Connlimit.

(** ** pptp_prot.h *)
Definition PPTP_MAGIC : Z := 439041101.
Definition PPTP_VERSION : Z := 256.

Definition PPTP_START_CTRL_CONN_RQST : Z := 1.
Definition PPTP_START_CTRL_CONN_RPLY : Z := 2.
Definition PPTP_STOP_CTRL_CONN_RQST : Z := 3.
Definition PPTP_STOP_CTRL_CONN_RPLY : Z := 4.
Definition PPTP_ECHO_RQST : Z := 5.
Definition PPTP_ECHO_RPLY : Z := 6.
Definition PPTP_OUT_CALL_RQST : Z := 7.
Definition PPTP_OUT_CALL_RPLY : Z := 8.
Definition PPTP_CALL_CLEAR_RQST : Z := 12.
Definition PPTP_CALL_CLEAR_NTFY : Z := 13.
Definition PPTP_SET_LINK_INFO : Z := 15.

Definition PPTP_CONN_RES_SUCCESS : Z := 1.
Definition PPTP_CONN_RES_EXISTS : Z := 3.
Definition PPTP_CONN_RES_PROTOCOL : Z := 5.
Definition PPTP_CONN_STOP_OK : Z := 1.
Definition PPTP_CALL_RES_OK : Z := 1.
Definition PPTP_CALL_RES_GE : Z := 2.
Definition PPTP_GE_NOCONN : Z := 1.

(** The sizes of the messages, types 1 to 15. *)
Definition PPTP_CTRL_SIZE (type : Z) : Z :=
  match type with
  | 1 | 2 => 156 | 3 | 4 => 16 | 5 => 16 | 6 => 20 | 7 => 168 | 8 => 32 | 9 => 220 | 10 => 24 | 11 => 28
  | 12 => 16 | 13 => 148 | 14 => 40 | 15 => 24 | _ => 0
  end.
Definition PPTP_CTRL_SIZE_MAX : nat := 220.

(** [sizeof(struct pptp_header)] *)
Definition HDR : nat := 12.

Definition PPTP_HEADER_CTRL (type : Z) : list Z :=
  be_encode 2 (PPTP_CTRL_SIZE type) ++ be_encode 2 1 ++ be_encode 4 PPTP_MAGIC ++ be_encode 2 type ++ [0; 0].

(** ** State *)
Inductive conn_state : Type := STATE_IDLE | STATE_ESTB | STATE_PPP | STATE_FIN | STATE_CLOSE.
#[export] Instance conn_state_eq_dec : EqDecision conn_state.
Proof. solve_decision. Defined.

(** [cn_hnd]: the socket's handler is registered, [cn_wr]: it waits to write;
    the timers are there when their [tpd] is set; [cn_calls]: pending calls of
    [disconnect]; [cn_ses]: the PPP session runs; [cn_freed]: the connection's memory was freed. *)
Record pptp_conn_t : Type := mk_conn {
  cn_hnd : bool;
  cn_wr : bool;
  cn_timeout_timer : bool;
  cn_echo_timer : bool;
  cn_call_id : Z;
  cn_peer_call_id : Z;
  cn_state : conn_state;
  cn_echo_sent : Z;
  cn_in_buf : list Z;
  cn_in_size : nat;
  cn_out_buf : list Z;
  cn_out_size : nat;
  cn_out_pos : nat;
  cn_calls : nat;
  cn_ses : bool;
  cn_freed : bool
}.

Record pptp_stat_t : Type := mk_stat {
  starting : Z;
  active : Z
}.

Record pptp_conf : Type := mk_conf {
  conf_echo_interval : Z;
  conf_echo_failure : Z;
  conf_max_starting : Z;
  conf_max_sessions : Z
}.

Inductive term_cause : Type := TERM_USER_REQUEST | TERM_ADMIN_RESET | TERM_LOST_CARRIER.

(** What a handler passes on. *)
Inductive out : Type :=
| Sent (bs : list Z)
| CtrlStarting
| CtrlStarted
| CtrlFinished
| SesTerminated (cause : term_cause).

(** One result of [write]: an error, or the number of bytes taken, 0 for [EAGAIN]. *)
Inductive write_result : Type :=
| WErr
| WTook (n : nat).

(** A connection, the counters of the server, the results of the writes to come (a socket
    takes everything when they are used up) and what was passed on. *)
Record st : Type := mk_st {
  s_conn : pptp_conn_t;
  s_stat : pptp_stat_t;
  s_writes : list write_result;
  s_out : list out
}.

Definition with_conn (s : st) (c : pptp_conn_t) : st := mk_st c (s_stat s) (s_writes s) (s_out s).
Definition with_stat (s : st) (t : pptp_stat_t) : st := mk_st (s_conn s) t (s_writes s) (s_out s).
Definition emit (o : out) (s : st) : st := mk_st (s_conn s) (s_stat s) (s_writes s) (s_out s ++ [o]).

Definition set_state (c : pptp_conn_t) (x : conn_state) : pptp_conn_t :=
  mk_conn (cn_hnd c) (cn_wr c) (cn_timeout_timer c) (cn_echo_timer c) (cn_call_id c) (cn_peer_call_id c) x (cn_echo_sent c)
    (cn_in_buf c) (cn_in_size c) (cn_out_buf c) (cn_out_size c) (cn_out_pos c) (cn_calls c) (cn_ses c) (cn_freed c).
Definition set_timers (c : pptp_conn_t) (timeout echo : bool) : pptp_conn_t :=
  mk_conn (cn_hnd c) (cn_wr c) timeout echo (cn_call_id c) (cn_peer_call_id c) (cn_state c) (cn_echo_sent c)
    (cn_in_buf c) (cn_in_size c) (cn_out_buf c) (cn_out_size c) (cn_out_pos c) (cn_calls c) (cn_ses c) (cn_freed c).
Definition set_call (c : pptp_conn_t) (call_id peer : Z) : pptp_conn_t :=
  mk_conn (cn_hnd c) (cn_wr c) (cn_timeout_timer c) (cn_echo_timer c) call_id peer (cn_state c) (cn_echo_sent c)
    (cn_in_buf c) (cn_in_size c) (cn_out_buf c) (cn_out_size c) (cn_out_pos c) (cn_calls c) (cn_ses c) (cn_freed c).
Definition set_echo_sent (c : pptp_conn_t) (n : Z) : pptp_conn_t :=
  mk_conn (cn_hnd c) (cn_wr c) (cn_timeout_timer c) (cn_echo_timer c) (cn_call_id c) (cn_peer_call_id c) (cn_state c) n
    (cn_in_buf c) (cn_in_size c) (cn_out_buf c) (cn_out_size c) (cn_out_pos c) (cn_calls c) (cn_ses c) (cn_freed c).
Definition set_in (c : pptp_conn_t) (buf : list Z) (size : nat) : pptp_conn_t :=
  mk_conn (cn_hnd c) (cn_wr c) (cn_timeout_timer c) (cn_echo_timer c) (cn_call_id c) (cn_peer_call_id c) (cn_state c) (cn_echo_sent c)
    buf size (cn_out_buf c) (cn_out_size c) (cn_out_pos c) (cn_calls c) (cn_ses c) (cn_freed c).
Definition set_out (c : pptp_conn_t) (wr : bool) (buf : list Z) (size pos : nat) : pptp_conn_t :=
  mk_conn (cn_hnd c) wr (cn_timeout_timer c) (cn_echo_timer c) (cn_call_id c) (cn_peer_call_id c) (cn_state c) (cn_echo_sent c)
    (cn_in_buf c) (cn_in_size c) buf size pos (cn_calls c) (cn_ses c) (cn_freed c).
Definition set_life (c : pptp_conn_t) (hnd wr : bool) (calls : nat) (ses freed : bool) : pptp_conn_t :=
  mk_conn hnd wr (cn_timeout_timer c) (cn_echo_timer c) (cn_call_id c) (cn_peer_call_id c) (cn_state c) (cn_echo_sent c)
    (cn_in_buf c) (cn_in_size c) (cn_out_buf c) (cn_out_size c) (cn_out_pos c) calls ses freed.

Definition add_starting (d : Z) (t : pptp_stat_t) : pptp_stat_t := mk_stat (u32 (starting t + d)) (active t).
Definition add_active (d : Z) (t : pptp_stat_t) : pptp_stat_t := mk_stat (starting t) (u32 (active t + d)).
Definition pptp_stat_move (t : pptp_stat_t) : pptp_stat_t := add_active 1 (add_starting (-1) t).

(** ** Sending *)

(** The next result of [write] for [size] bytes. *)
Definition next_write (size : nat) (s : st) : write_result * st :=
  match s_writes s with
  | [] => (WTook size, s)
  | w :: ws => (match w with WErr => WErr | WTook n => WTook (Nat.min n size) end, mk_st (s_conn s) (s_stat s) ws (s_out s))
  end.

(** The boolean is the error return. *)
Definition post_msg (buf : list Z) (s : st) : res (st * bool) :=
  if (0 <? cn_out_size (s_conn s))%nat then mret (s, true)
  else
    let size := length buf in
    match next_write size s with
    | (WErr, s) => mret (s, true)
    | (WTook n, s) =>
        let c := s_conn s in
        let s := emit (Sent (take n buf)) s in
        if (n <? size)%nat then
          out_buf ← splice 0 (drop n buf) (cn_out_buf c);
          mret (with_conn s (set_out c true out_buf (size - n) (cn_out_pos c)), false)
        else mret (s, false)
    end.

Definition send_pptp_stop_ctrl_conn_rqst (reason : Z) : st -> res (st * bool) :=
  post_msg (PPTP_HEADER_CTRL PPTP_STOP_CTRL_CONN_RQST ++ [u8 reason; 0; 0; 0]).

Definition send_pptp_stop_ctrl_conn_rply (reason err_code : Z) : st -> res (st * bool) :=
  post_msg (PPTP_HEADER_CTRL PPTP_STOP_CTRL_CONN_RPLY ++ [u8 reason; u8 err_code; 0; 0]).

(** "local" and "cananian", in fields of 64 bytes. *)
Definition PPTP_HOSTNAME : list Z := [108; 111; 99; 97; 108].
Definition PPTP_VENDOR : list Z := [99; 97; 110; 97; 110; 105; 97; 110].
Definition field64 (l : list Z) : list Z := l ++ replicate (64 - length l) 0.

Definition send_pptp_start_ctrl_conn_rply (res_code err_code : Z) : st -> res (st * bool) :=
  post_msg (PPTP_HEADER_CTRL PPTP_START_CTRL_CONN_RPLY ++ be_encode 2 PPTP_VERSION ++ [u8 res_code; u8 err_code] ++
            be_encode 4 3 ++ be_encode 4 3 ++ be_encode 2 1 ++ be_encode 2 1 ++ field64 PPTP_HOSTNAME ++ field64 PPTP_VENDOR).

(** The request is still in [in_buf]: its call id, its speed and its window are copied. *)
Definition send_pptp_out_call_rply (call_id res_code err_code : Z) (s : st) : res (st * bool) :=
  let buf := cn_in_buf (s_conn s) in
  rq_call_id ← slice 12 2 buf;
  rq_bps_max ← slice 20 4 buf;
  rq_recv_size ← slice 32 2 buf;
  post_msg (PPTP_HEADER_CTRL PPTP_OUT_CALL_RPLY ++ be_encode 2 (u16 call_id) ++ rq_call_id ++ [u8 res_code; u8 err_code] ++
            [0; 0] ++ rq_bps_max ++ rq_recv_size ++ [0; 0] ++ [0; 0; 0; 0]) s.

Definition send_pptp_call_disconnect_notify (result : Z) (s : st) : res (st * bool) :=
  post_msg (PPTP_HEADER_CTRL PPTP_CALL_CLEAR_NTFY ++ be_encode 2 (u16 (cn_peer_call_id (s_conn s))) ++ [u8 result; 0; 0; 0; 0; 0] ++
            replicate 128 0) s.

(** [triton_context_call(disconnect)] *)
Definition call_disconnect (s : st) : st :=
  let c := s_conn s in with_conn s (set_life c (cn_hnd c) (cn_wr c) (S (cn_calls c)) (cn_ses c) (cn_freed c)).

(** [triton_timer_mod] or [triton_timer_add]. *)
Definition arm_timeout (s : st) : st := let c := s_conn s in with_conn s (set_timers c true (cn_echo_timer c)).

(** [ctrl.finished] *)
Definition ppp_finished (s : st) : res st :=
  if decide (cn_state (s_conn s) = STATE_CLOSE) then mret s
  else
    let s := with_conn s (set_state (s_conn s) STATE_CLOSE) in
    let s := with_stat s (add_active (-1) (s_stat s)) in
    '(s, err) ← send_pptp_call_disconnect_notify 3 s;
    if err : bool then mret (call_disconnect s)
    else
      '(s, err) ← send_pptp_stop_ctrl_conn_rqst 0 s;
      mret (if err : bool then call_disconnect s else arm_timeout s).

(** [ap_session_terminate] with [hard] set: the session is torn down at once,
    [ctrl.finished] included; nothing is left to do if it has ended. *)
Definition ap_session_terminate_hard (cause : term_cause) (s : st) : res st :=
  let c := s_conn s in
  if cn_ses c then
    ppp_finished (emit (SesTerminated cause) (with_conn s (set_life c (cn_hnd c) (cn_wr c) (cn_calls c) false (cn_freed c))))
  else mret s.

(** [triton_context_unregister] aborts with handlers left, those of a running session say. *)
Definition disconnect (s : st) : res st :=
  let c := s_conn s in
  if cn_freed c then Oob
  else
    let c := set_life c false false (cn_calls c) (cn_ses c) (cn_freed c) in
    let s := with_conn s (set_timers c false false) in
    s ← (if decide (cn_state c = STATE_PPP) then
           let s := with_stat s (add_active (-1) (s_stat s)) in
           ap_session_terminate_hard TERM_LOST_CARRIER (with_conn s (set_state (s_conn s) STATE_CLOSE))
         else if decide (cn_state c = STATE_CLOSE) then mret s
         else mret (with_stat s (add_starting (-1) (s_stat s))));
    let s := emit CtrlFinished s in
    let c := s_conn s in
    if cn_ses c || cn_timeout_timer c || cn_echo_timer c then Oob
    else mret (with_conn s (set_life c false false 0 false true)).

(** ** Messages *)
Definition pptp_stop_ctrl_conn_rqst (s : st) : res (st * bool) :=
  '(s, _) ← send_pptp_stop_ctrl_conn_rply PPTP_CONN_STOP_OK 0 s; mret (s, true).

Definition pptp_stop_ctrl_conn_rply (s : st) : res (st * bool) := mret (s, true).

Definition pptp_start_ctrl_conn_rqst (s : st) : res (st * bool) :=
  version ← u_read_be16 (cn_in_buf (s_conn s)) 12;
  if decide (cn_state (s_conn s) = STATE_IDLE) then
    if version =? PPTP_VERSION then
      '(s, err) ← send_pptp_start_ctrl_conn_rply PPTP_CONN_RES_SUCCESS 0 s;
      if err : bool then mret (s, true) else mret (with_conn s (set_state (s_conn s) STATE_ESTB), false)
    else send_pptp_start_ctrl_conn_rply PPTP_CONN_RES_PROTOCOL 0 s
  else send_pptp_start_ctrl_conn_rply PPTP_CONN_RES_EXISTS 0 s.

(** How the system calls that make the channel end: one of those before the reply fails, or
    the kernel gives a call id; then whether [establish_ppp] succeeds. *)
Inductive channel : Type :=
| NoChannel
| Channel (call_id : Z) (established : bool).

Definition pptp_out_call_rqst (cf : pptp_conf) (ch : channel) (s : st) : res (st * bool) :=
  if decide (cn_state (s_conn s) = STATE_ESTB) then
    match ch with
    | NoChannel => mret (s, true)
    | Channel call_id established =>
        '(s, err) ← send_pptp_out_call_rply call_id PPTP_CALL_RES_OK 0 s;
        if err : bool then mret (s, true)
        else
          peer ← u_read_be16 (cn_in_buf (s_conn s)) 12;
          let s := emit CtrlStarted (with_conn s (set_call (s_conn s) call_id peer)) in
          let c := s_conn s in
          if established then
            let c := set_life c (cn_hnd c) (cn_wr c) (cn_calls c) true (cn_freed c) in
            let c := set_timers (set_state c STATE_PPP) false (if conf_echo_interval cf =? 0 then cn_echo_timer c else true) in
            mret (with_conn (with_stat s (pptp_stat_move (s_stat s))) c, false)
          else mret (with_conn s (set_state c STATE_FIN), true)
    end
  else send_pptp_out_call_rply 0 PPTP_CALL_RES_GE PPTP_GE_NOCONN s.

Definition pptp_call_clear_rqst (s : st) : res (st * bool) :=
  let c := s_conn s in
  let s := with_conn s (set_timers c (cn_timeout_timer c) false) in
  s ← (if decide (cn_state c = STATE_PPP) then
         let s := with_stat s (add_active (-1) (s_stat s)) in
         ap_session_terminate_hard TERM_USER_REQUEST (with_conn s (set_state (s_conn s) STATE_CLOSE))
       else mret s);
  send_pptp_call_disconnect_notify 4 s.

Definition pptp_echo_rqst (s : st) : res (st * bool) :=
  identifier ← slice 12 4 (cn_in_buf (s_conn s));
  post_msg (PPTP_HEADER_CTRL PPTP_ECHO_RPLY ++ identifier ++ [1; 0; 0; 0]) s.

Definition pptp_echo_rply (s : st) : res (st * bool) := mret (with_conn s (set_echo_sent (s_conn s) 0), false).

Definition process_packet (cf : pptp_conf) (ch : channel) (s : st) : res (st * bool) :=
  ctrl_type ← u_read_be16 (cn_in_buf (s_conn s)) 8;
  if ctrl_type =? PPTP_START_CTRL_CONN_RQST then pptp_start_ctrl_conn_rqst s
  else if ctrl_type =? PPTP_STOP_CTRL_CONN_RQST then pptp_stop_ctrl_conn_rqst s
  else if ctrl_type =? PPTP_STOP_CTRL_CONN_RPLY then pptp_stop_ctrl_conn_rply s
  else if ctrl_type =? PPTP_OUT_CALL_RQST then pptp_out_call_rqst cf ch s
  else if ctrl_type =? PPTP_ECHO_RQST then pptp_echo_rqst s
  else if ctrl_type =? PPTP_ECHO_RPLY then pptp_echo_rply s
  else if ctrl_type =? PPTP_CALL_CLEAR_RQST then pptp_call_clear_rqst s
  else mret (s, false).

(** ** The socket *)

(** One result of [read]: an error, or data, no bytes at the end of the stream. *)
Inductive read_result : Type :=
| RErr
| RData (bs : list Z).

(** What is done with the bytes in [in_buf] after a [read]: at most one message. *)
Definition pptp_input (cf : pptp_conf) (ch : channel) (s : st) : res (st * bool) :=
  let c := s_conn s in
  if (cn_in_size c <? HDR)%nat then mret (s, false)
  else
    magic ← u_read_be32 (cn_in_buf c) 4;
    length ← u_read_be16 (cn_in_buf c) 0;
    if negb (magic =? PPTP_MAGIC) then mret (s, true)
    else if length <? Z.of_nat HDR then mret (s, true)
    else if Z.of_nat PPTP_CTRL_SIZE_MAX <=? length then mret (s, true)
    else if Z.of_nat (cn_in_size c) <? length then mret (s, false)
    else
      ctrl_type ← u_read_be16 (cn_in_buf c) 8;
      if negb (length =? PPTP_CTRL_SIZE ctrl_type) then mret (s, true)
      else
        '(s, err) ← process_packet cf ch s;
        if err : bool then mret (s, true)
        else
          let c := s_conn s in
          length ← u_read_be16 (cn_in_buf c) 0;
          let n := Z.to_nat length in
          let size := (cn_in_size c - n)%nat in
          rest ← slice n size (cn_in_buf c);
          buf ← splice 0 rest (cn_in_buf c);
          mret (with_conn s (set_in c buf size), false).

(** [read] may leave a part of what has arrived to the next call; without data it gives
    [EAGAIN].  [Fail]: out of fuel. *)
Fixpoint read_loop (cf : pptp_conf) (ch : channel) (fuel : nat) (q : list read_result) (s : st) : res st :=
  match fuel with
  | O => Fail
  | S fuel =>
      match q with
      | [] => mret s
      | RErr :: _ => disconnect s
      | RData bs :: q =>
          let c := s_conn s in
          let n := Nat.min (length bs) (PPTP_CTRL_SIZE_MAX - cn_in_size c) in
          if (n =? 0)%nat then disconnect s
          else
            buf ← splice (cn_in_size c) (take n bs) (cn_in_buf c);
            '(s, drop_it) ← pptp_input cf ch (with_conn s (set_in c buf (cn_in_size c + n)));
            if drop_it : bool then disconnect s
            else read_loop cf ch fuel (if (n <? length bs)%nat then RData (drop n bs) :: q else q) s
      end
  end.

Definition read_fuel (q : list read_result) : nat :=
  S (foldr (fun r n => match r with RErr => S n | RData bs => S (length bs) + n end)%nat 0%nat q).

Definition pptp_read (cf : pptp_conf) (ch : channel) (q : list read_result) (s : st) : res st := read_loop cf ch (read_fuel q) q s.

(** [Fail]: the results are used up and the loop has not ended. *)
Fixpoint pptp_write (ws : list write_result) (s : st) : res st :=
  match ws with
  | [] => Fail
  | WErr :: _ => disconnect s
  | WTook n :: ws =>
      let c := s_conn s in
      bs ← slice (cn_out_pos c) (cn_out_size c - cn_out_pos c) (cn_out_buf c);
      let s := emit (Sent (take n bs)) s in
      let pos := (cn_out_pos c + Nat.min n (length bs))%nat in
      if (pos =? cn_out_size c)%nat then mret (with_conn s (set_out c false (cn_out_buf c) 0 0))
      else pptp_write ws (with_conn s (set_out c (cn_wr c) (cn_out_buf c) (cn_out_size c) pos))
  end.

(** ** Timers and the end *)
Definition pptp_send_echo (cf : pptp_conf) (random : Z) (s : st) : res st :=
  let c := s_conn s in
  let sent := if conf_echo_failure cf =? 0 then cn_echo_sent c else s32 (cn_echo_sent c + 1) in
  let s := with_conn s (set_echo_sent c sent) in
  if negb (conf_echo_failure cf =? 0) && (conf_echo_failure cf <=? sent) then disconnect s
  else
    '(s, err) ← post_msg (PPTP_HEADER_CTRL PPTP_ECHO_RQST ++ be_encode 4 (u32 random)) s;
    if err : bool then disconnect s else mret s.

Definition pptp_timeout : st -> res st := disconnect.

Definition pptp_close (s : st) : res st :=
  '(s, err) ←
    (if decide (cn_state (s_conn s) = STATE_PPP) then
       let s := with_stat s (add_active (-1) (s_stat s)) in
       s ← ap_session_terminate_hard TERM_ADMIN_RESET (with_conn s (set_state (s_conn s) STATE_CLOSE));
       send_pptp_call_disconnect_notify 3 s
     else send_pptp_stop_ctrl_conn_rqst 0 s);
  mret (if err : bool then call_disconnect s else arm_timeout s).

(** ** Steps of one connection: those that cannot happen change nothing *)
Inductive input : Type :=
| IRead (ch : channel) (q : list read_result)
| IWrite (ws : list write_result)
| ITimeout
| IEcho (random : Z)
| IClose
| ICall
| ISesFinished.

Definition pptp_step (cf : pptp_conf) (i : input) (s : st) : res st :=
  let c := s_conn s in
  match i with
  | IRead ch q => if cn_hnd c then pptp_read cf ch q s else mret s
  | IWrite ws => if cn_hnd c && cn_wr c then pptp_write ws s else mret s
  | ITimeout => if cn_timeout_timer c then pptp_timeout s else mret s
  | IEcho random => if cn_echo_timer c then pptp_send_echo cf random s else mret s
  | IClose => if cn_freed c then mret s else pptp_close s
  | ICall =>
      match cn_calls c with
      | O => mret s
      | S n => disconnect (with_conn s (set_life c (cn_hnd c) (cn_wr c) n (cn_ses c) (cn_freed c)))
      end
  | ISesFinished =>
      if cn_ses c then ppp_finished (with_conn s (set_life c (cn_hnd c) (cn_wr c) (cn_calls c) false (cn_freed c))) else mret s
  end.

(** ** The server *)

(** [accept] gave a socket: the addresses, the clock, the state of the daemon. *)
Record accepted : Type := mk_accepted {
  ac_addr : Z;
  ac_ts : timespec;
  ac_shutdown : bool;
  ac_ses_starting : Z;
  ac_ses_active : Z;
  ac_connlimit : bool;
  ac_getsockname : bool;
  ac_fcntl : bool
}.

(** [mempool_alloc] and [memset], with fresh buffers of any contents. *)
Definition new_conn (in_buf out_buf : list Z) : pptp_conn_t :=
  mk_conn true false true false 0 0 STATE_IDLE 0 in_buf 0 out_buf 0 0 0 false false.

Record server : Type := mk_server {
  sv_conns : list pptp_conn_t;
  sv_stat : pptp_stat_t;
  sv_items : list item;
  sv_ranges : iprange_state;
  sv_out : list out
}.

(** One turn of the loop of [pptp_connect]; the key of the limiter is the address. *)
Definition pptp_connect (cf : pptp_conf) (cl : cl_conf) (a : accepted) (in_buf out_buf : list Z) (sv : server) : server :=
  if ac_shutdown a then sv
  else if negb (conf_max_starting cf =? 0) && (u32 (conf_max_starting cf) <=? u32 (ac_ses_starting a)) then sv
  else if negb (conf_max_sessions cf =? 0) && (u32 (conf_max_sessions cf) <=? u32 (ac_ses_active a + ac_ses_starting a)) then sv
  else
    let '(items, r) := if ac_connlimit a then connlimit_check cl (ac_ts a) (cl_key_from_ipv4 (ac_addr a)) (sv_items sv) else (sv_items sv, 0) in
    let sv := mk_server (sv_conns sv) (sv_stat sv) items (sv_ranges sv) (sv_out sv) in
    if negb (r =? 0) then sv
    else if negb (iprange_client_check (sv_ranges sv) (ac_addr a) =? 0) then sv
    else if negb (ac_getsockname a) then sv
    else if negb (ac_fcntl a) then sv
    else mk_server (sv_conns sv ++ [new_conn in_buf out_buf]) (add_starting 1 (sv_stat sv)) (sv_items sv) (sv_ranges sv) (sv_out sv ++ [CtrlStarting]).

Inductive event : Type :=
| Accept (a : accepted) (in_buf out_buf : list Z)
| Conn (i : nat) (writes : list write_result) (inp : input).

Definition serv_step (cf : pptp_conf) (cl : cl_conf) (e : event) (sv : server) : res server :=
  match e with
  | Accept a in_buf out_buf => mret (pptp_connect cf cl a in_buf out_buf sv)
  | Conn i writes inp =>
      match sv_conns sv !! i with
      | None => mret sv
      | Some c =>
          s ← pptp_step cf inp (mk_st c (sv_stat sv) writes (sv_out sv));
          mret (mk_server (<[i := s_conn s]> (sv_conns sv)) (s_stat s) (sv_items sv) (sv_ranges sv) (s_out s))
      end
  end.

Fixpoint serv_run (cf : pptp_conf) (cl : cl_conf) (es : list event) (sv : server) : res server :=
  match es with
  | [] => mret sv
  | e :: es => sv ← serv_step cf cl e sv; serv_run cf cl es sv
  end.

(** ** Vocabulary of the theorems *)

(** A connection that is counted as starting, as active. *)
Definition is_starting (c : pptp_conn_t) : Z :=
  if cn_freed c then 0 else match cn_state c with STATE_IDLE | STATE_ESTB | STATE_FIN => 1 | _ => 0 end.
Definition is_active (c : pptp_conn_t) : Z :=
  if cn_freed c then 0 else match cn_state c with STATE_PPP => 1 | _ => 0 end.

(** The output buffer: empty, or something left to write. *)
Definition out_ok (c : pptp_conn_t) : Prop :=
  length (cn_out_buf c) = PPTP_CTRL_SIZE_MAX /\ (cn_out_size c <= PPTP_CTRL_SIZE_MAX)%nat /\
  ((cn_out_pos c < cn_out_size c)%nat \/ (cn_out_size c = 0%nat /\ cn_out_pos c = 0%nat)).

(** A live connection, with at most [lim] bytes in its input buffer. *)
Definition live_ok (lim : nat) (c : pptp_conn_t) : Prop :=
  cn_freed c = false /\ cn_hnd c = true /\ length (cn_in_buf c) = PPTP_CTRL_SIZE_MAX /\ (cn_in_size c <= lim)%nat /\ out_ok c /\
  (cn_ses c = true <-> cn_state c = STATE_PPP).

(** Nothing can be called for a connection that was freed. *)
Definition gone (c : pptp_conn_t) : Prop :=
  cn_freed c = true /\ cn_hnd c = false /\ cn_timeout_timer c = false /\ cn_echo_timer c = false /\ cn_calls c = 0%nat /\ cn_ses c = false.

Definition conn_ok (c : pptp_conn_t) : Prop := live_ok (PPTP_CTRL_SIZE_MAX - 1) c \/ gone c.

(** The counters, without this connection. *)
Definition others (s : st) : Z * Z :=
  (u32 (starting (s_stat s) - is_starting (s_conn s)), u32 (active (s_stat s) - is_active (s_conn s))).

Definition sum_by {A} (f : A -> Z) (l : list A) : Z := foldr (fun x n => f x + n) 0 l.

Definition server_ok (sv : server) : Prop :=
  Forall conn_ok (sv_conns sv) /\
  u32 (starting (sv_stat sv)) = u32 (sum_by is_starting (sv_conns sv)) /\
  u32 (active (sv_stat sv)) = u32 (sum_by is_active (sv_conns sv)).

(** The bytes a socket takes; an error ends the loop as well. *)
Definition took (ws : list write_result) : nat := foldr (fun w n => match w with WErr => PPTP_CTRL_SIZE_MAX | WTook k => k + n end)%nat 0%nat ws.

(** Fresh buffers have the size asked for; a socket takes what is left at last. *)
Definition event_ok (e : event) : Prop :=
  match e with
  | Accept _ in_buf out_buf => length in_buf = PPTP_CTRL_SIZE_MAX /\ length out_buf = PPTP_CTRL_SIZE_MAX
  | Conn _ _ (IWrite ws) => (PPTP_CTRL_SIZE_MAX <= took ws)%nat
  | Conn _ _ _ => True
  end.

(** A message as RFC 2637 frames it. *)
Definition well_formed (m : list Z) : Prop :=
  (HDR <= length m < PPTP_CTRL_SIZE_MAX)%nat /\ u_read_be16 m 0 = Ok (Z.of_nat (length m)) /\ u_read_be32 m 4 = Ok PPTP_MAGIC /\
  exists t, u_read_be16 m 8 = Ok t /\ PPTP_CTRL_SIZE t = Z.of_nat (length m).

(** The message stands at the start of the buffer. *)
Definition with_msg (m : list Z) (size : nat) (s : st) : st :=
  with_conn s (set_in (s_conn s) (m ++ drop (length m) (cn_in_buf (s_conn s))) size).

(** What a stream of messages does, one after the other. *)
Fixpoint take_msgs (cf : pptp_conf) (ch : channel) (ms : list (list Z)) (s : st) : res st :=
  match ms with
  | [] => mret s
  | m :: ms =>
      '(s, err) ← process_packet cf ch (with_msg m (length m) s);
      if err : bool then disconnect s else take_msgs cf ch ms (with_conn s (set_in (s_conn s) (cn_in_buf (s_conn s)) 0))
  end.

(** ** Sending *)

(** [post_msg] changes the output side of the connection only. *)
Definition only_out (s s' : st) : Prop :=
  s_stat s' = s_stat s /\ out_ok (s_conn s') /\
  exists wr buf size pos, s_conn s' = set_out (s_conn s) wr buf size pos.

Lemma post_msg_ok buf s :
  out_ok (s_conn s) -> (length buf <= PPTP_CTRL_SIZE_MAX)%nat ->
  exists s' err, post_msg buf s = Ok (s', err) /\ only_out s s'.
Proof.
  destruct s as [c t ws o]. cbn [s_conn]. intros Ho L. unfold post_msg. cbn [s_conn].
  assert (Same : forall ws' o', only_out (mk_st c t ws o) (mk_st c t ws' o')).
  { intros ws' o'. split_and!; [done..|]. exists (cn_wr c), (cn_out_buf c), (cn_out_size c), (cn_out_pos c). now destruct c. }
  destruct (Nat.ltb_spec 0 (cn_out_size c)) as [H|H]; [eauto|].
  assert (P : forall n ws', exists s' err,
    (if (n <? length buf)%nat then
       out_buf ← splice 0 (drop n buf) (cn_out_buf c);
       mret (with_conn (emit (Sent (take n buf)) (mk_st c t ws' o)) (set_out c true out_buf (length buf - n) (cn_out_pos c)), false)
     else mret (emit (Sent (take n buf)) (mk_st c t ws' o), false)) = Ok (s', err) /\ only_out (mk_st c t ws o) s').
  { intros n ws'. destruct (Nat.ltb_spec n (length buf)) as [Hn|Hn].
    - destruct Ho as (Lb & Ls & Hp). rewrite splice_ok by (rewrite length_drop; lia).
      eexists _, _. split; [reflexivity|]. split_and!; [done| |unfold with_conn; cbn; eauto].
      split_and!; cbn -[Nat.sub]; [|lia|left; lia].
      rewrite !length_app, length_take, !length_drop. lia.
    - eexists _, _. split; [reflexivity|]. apply Same. }
  unfold next_write. cbn [s_writes s_conn s_stat s_out]. destruct ws as [|[|n] ws].
  - apply P.
  - eexists _, _. split; [reflexivity|]. apply Same.
  - apply P.
Qed.

Lemma length_header t : length (PPTP_HEADER_CTRL t) = HDR.
Proof. unfold PPTP_HEADER_CTRL. now rewrite !length_app, !length_be_encode. Qed.

(** All messages fit. *)
Ltac msg_length :=
  rewrite ?length_app, ?length_header, ?length_be_encode, ?length_replicate; cbn [length field64 PPTP_HOSTNAME PPTP_VENDOR app replicate Nat.sub];
  unfold HDR, PPTP_CTRL_SIZE_MAX; lia.

Lemma only_out_live lim s s' : live_ok lim (s_conn s) -> only_out s s' -> live_ok lim (s_conn s') /\ others s' = others s /\
  cn_state (s_conn s') = cn_state (s_conn s) /\ cn_in_buf (s_conn s') = cn_in_buf (s_conn s) /\ cn_in_size (s_conn s') = cn_in_size (s_conn s).
Proof.
  intros (F & Hh & Li & Ls & Lo & S) (E & O' & wr & buf & size & pos & Ec).
  unfold live_ok, others. rewrite E, Ec in *. cbn. split_and!; done.
Qed.

(** ** The end of a session and of a connection *)
Lemma u32_add a b : u32 (u32 a + b) = u32 (a + b).
Proof. unfold u32. now rewrite Zplus_mod_idemp_l. Qed.

Lemma u32_dec a : u32 (u32 (a + -1) - 0) = u32 (a - 1).
Proof. rewrite Z.sub_0_r. unfold u32. now rewrite Z.mod_mod. Qed.

Definition no_ses (c : pptp_conn_t) : pptp_conn_t := set_life c (cn_hnd c) (cn_wr c) (cn_calls c) false (cn_freed c).

(** In [STATE_CLOSE] only the session goes. *)
Lemma terminate_closed cause s :
  cn_state (s_conn s) = STATE_CLOSE ->
  exists o, ap_session_terminate_hard cause s = Ok (mk_st (no_ses (s_conn s)) (s_stat s) (s_writes s) o).
Proof.
  intros H. unfold ap_session_terminate_hard. destruct (cn_ses (s_conn s)) eqn:E.
  - unfold ppp_finished. rewrite decide_True by done. eexists. reflexivity.
  - exists (s_out s). destruct s as [c t ws o], c; cbn in *. now subst.
Qed.

(** Leaving [STATE_PPP]: the session ends and the counter goes down. *)
Lemma leave_ppp cause lim s :
  live_ok lim (s_conn s) -> cn_state (s_conn s) = STATE_PPP ->
  exists s', ap_session_terminate_hard cause
      (with_conn (with_stat s (add_active (-1) (s_stat s))) (set_state (s_conn (with_stat s (add_active (-1) (s_stat s)))) STATE_CLOSE)) = Ok s' /\
    live_ok lim (s_conn s') /\ others s' = others s /\ s_conn s' = no_ses (set_state (s_conn s) STATE_CLOSE).
Proof.
  intros (F & Hh & Li & Ls & Lo & S) Hs.
  match goal with |- context [ap_session_terminate_hard ?x ?y] => destruct (terminate_closed x y eq_refl) as [o ->] end.
  eexists. split; [reflexivity|]. split_and!; [|unfold others, is_starting, is_active; cbn; rewrite F, Hs|done].
  - unfold live_ok. cbn. split_and!; done.
  - cbn. f_equal. apply u32_dec.
Qed.

Lemma send_notify_ok r s : out_ok (s_conn s) -> exists s' err, send_pptp_call_disconnect_notify r s = Ok (s', err) /\ only_out s s'.
Proof. intros H. apply post_msg_ok; [done|]. msg_length. Qed.

Lemma send_stop_ok r s : out_ok (s_conn s) -> exists s' err, send_pptp_stop_ctrl_conn_rqst r s = Ok (s', err) /\ only_out s s'.
Proof. intros H. apply post_msg_ok; [done|]. msg_length. Qed.

(** Pending calls and timers do not matter to the invariant. *)
Lemma after_send lim s err : live_ok lim (s_conn s) ->
  let s' := if err : bool then call_disconnect s else arm_timeout s in live_ok lim (s_conn s') /\ others s' = others s.
Proof. destruct err; cbn; intros H; split; done. Qed.

(** The session of a live connection has just ended. *)
Lemma ppp_finished_ok lim s :
  live_ok lim (s_conn s) -> cn_ses (s_conn s) = true ->
  exists s', ppp_finished (with_conn s (no_ses (s_conn s))) = Ok s' /\ live_ok lim (s_conn s') /\ others s' = others s.
Proof.
  intros (F & Hh & Li & Ls & Lo & S) Hs. pose proof (proj1 S Hs) as Hp.
  unfold ppp_finished. rewrite decide_False by (cbn; congruence). cbv zeta.
  match goal with |- context [send_pptp_call_disconnect_notify 3 ?x] =>
    assert (L : live_ok lim (s_conn x)) by (unfold live_ok; cbn; split_and!; done);
    assert (O1 : others x = others s);
      [unfold others, is_starting, is_active; cbn; rewrite F, Hp; cbn; f_equal; apply u32_dec|];
    destruct (send_notify_ok 3 x) as (s1 & e1 & -> & H1); [apply L|]
  end.
  cbn [mbind res_bind]. destruct (only_out_live lim _ _ L H1) as (L1 & O2 & _). destruct e1.
  - eexists. split; [reflexivity|]. split; [exact L1|]. now rewrite <- O1, <- O2.
  - destruct (send_stop_ok 0 s1) as (s2 & e2 & -> & H2); [apply L1|]. cbn [mbind res_bind].
    destruct (only_out_live lim _ _ L1 H2) as (L2 & O3 & _).
    destruct (after_send lim s2 e2 L2) as [L3 O4]. eexists. split; [reflexivity|]. split; [exact L3|].
    now rewrite O4, O3, O2, O1.
Qed.

Lemma pptp_disconnect_ok lim s :
  live_ok lim (s_conn s) -> exists s', disconnect s = Ok s' /\ gone (s_conn s') /\ others s' = others s.
Proof.
  intros L. pose proof L as (F & Hh & Li & Ls & Lo & S). unfold disconnect. rewrite F. cbv zeta. cbn [cn_state set_life].
  case_decide as Hp.
  - match goal with |- context [ap_session_terminate_hard ?x ?y] => destruct (terminate_closed x y eq_refl) as [o ->] end.
    cbn. eexists. split; [reflexivity|]. split; [done|].
    unfold others, is_starting, is_active; cbn. rewrite F, Hp. cbn. f_equal. apply u32_dec.
  - assert (N : cn_ses (s_conn s) = false) by (destruct (cn_ses (s_conn s)); [exfalso; tauto|done]).
    case_decide as Hc; cbn; rewrite N; cbn; (eexists; split; [reflexivity|]; split; [done|]);
      unfold others, is_starting, is_active; cbn; rewrite F.
    + now rewrite Hc.
    + destruct (cn_state (s_conn s)); try done; cbn; f_equal; apply u32_dec.
Qed.

(** ** Messages *)

(** A handler of messages returns, keeps the invariant and the input buffer. *)
Definition handled (lim : nat) (s : st) (r : res (st * bool)) : Prop :=
  exists s' err, r = Ok (s', err) /\ live_ok lim (s_conn s') /\ others s' = others s /\
    cn_in_buf (s_conn s') = cn_in_buf (s_conn s) /\ cn_in_size (s_conn s') = cn_in_size (s_conn s).

Lemma handled_trans lim s s1 r :
  others s1 = others s -> cn_in_buf (s_conn s1) = cn_in_buf (s_conn s) -> cn_in_size (s_conn s1) = cn_in_size (s_conn s) ->
  handled lim s1 r -> handled lim s r.
Proof. intros O1 B1 N1 (s' & err & -> & L & O2 & B2 & N2). exists s', err. split_and!; congruence || done. Qed.

Lemma field_ok lim s off n : live_ok lim (s_conn s) -> (off + n <= PPTP_CTRL_SIZE_MAX)%nat ->
  exists f, slice off n (cn_in_buf (s_conn s)) = Ok f /\ length f = n.
Proof.
  intros (_ & _ & L & _) H. rewrite slice_ok by lia. eexists. split; [done|]. rewrite length_take, length_drop. lia.
Qed.

Lemma field16_ok lim s off : live_ok lim (s_conn s) -> (off + 2 <= PPTP_CTRL_SIZE_MAX)%nat ->
  exists v, u_read_be16 (cn_in_buf (s_conn s)) off = Ok v.
Proof. intros L H. destruct (field_ok lim s off 2 L H) as (f & E & _). unfold u_read_be16. rewrite E. cbn. eauto. Qed.

(** A reply goes out, or into the output buffer, or the connection is given up. *)
Definition sent (s : st) (r : res (st * bool)) : Prop := exists s' err, r = Ok (s', err) /\ only_out s s'.

Lemma sent_handled lim s r : live_ok lim (s_conn s) -> sent s r -> handled lim s r.
Proof.
  intros L (s' & err & -> & O'). destruct (only_out_live lim _ _ L O') as (L' & E & _ & B & N). exists s', err. split_and!; done.
Qed.

Lemma sent_start_rply lim a b s : live_ok lim (s_conn s) -> sent s (send_pptp_start_ctrl_conn_rply a b s).
Proof. intros L. apply post_msg_ok; [apply L|]. msg_length. Qed.

Lemma sent_out_rply lim a b c s : live_ok lim (s_conn s) -> sent s (send_pptp_out_call_rply a b c s).
Proof.
  intros L. unfold send_pptp_out_call_rply.
  destruct (field_ok lim s 12 2 L ltac:(unfold PPTP_CTRL_SIZE_MAX; lia)) as (f1 & -> & L1).
  destruct (field_ok lim s 20 4 L ltac:(unfold PPTP_CTRL_SIZE_MAX; lia)) as (f2 & -> & L2).
  destruct (field_ok lim s 32 2 L ltac:(unfold PPTP_CTRL_SIZE_MAX; lia)) as (f3 & -> & L3). cbn [mbind res_bind].
  apply post_msg_ok; [apply L|]. rewrite !length_app, length_header, length_be_encode, L1, L2, L3. cbn [length].
  unfold HDR, PPTP_CTRL_SIZE_MAX. lia.
Qed.

Lemma handled_start lim s : live_ok lim (s_conn s) -> handled lim s (pptp_start_ctrl_conn_rqst s).
Proof.
  intros L. unfold pptp_start_ctrl_conn_rqst.
  destruct (field16_ok lim s 12 L ltac:(unfold PPTP_CTRL_SIZE_MAX; lia)) as [v ->]. cbn [mbind res_bind].
  case_decide as Hi; [|eapply sent_handled, sent_start_rply; eauto].
  destruct (v =? PPTP_VERSION); [|eapply sent_handled, sent_start_rply; eauto].
  destruct (sent_start_rply lim PPTP_CONN_RES_SUCCESS 0 s L) as (s1 & err & -> & H1). cbn [mbind res_bind].
  destruct (only_out_live lim _ _ L H1) as (L1 & O1 & S1 & B1 & N1).
  destruct err; eexists _, _; (split; [reflexivity|]); [now split_and!|].
  pose proof L1 as (F1 & Hh & Li & Ls & Lo & S). split_and!; [|rewrite <- O1|done..].
  - unfold live_ok. cbn. split_and!; try done. rewrite S, S1, Hi. split; done.
  - unfold others, is_starting, is_active. cbn. now rewrite F1, S1, Hi.
Qed.

Lemma u32_move a b d : u32 (u32 (a + d) - b) = u32 (a + d - b).
Proof. unfold u32. now rewrite Zminus_mod_idemp_l. Qed.

Lemma handled_out_call lim cf ch s : live_ok lim (s_conn s) -> handled lim s (pptp_out_call_rqst cf ch s).
Proof.
  intros L. unfold pptp_out_call_rqst. case_decide as He; [|eapply sent_handled, sent_out_rply; eauto].
  destruct ch as [|call_id est]; [exists s, true; now split_and!|].
  destruct (sent_out_rply lim call_id PPTP_CALL_RES_OK 0 s L) as (s1 & err & -> & H1). cbn [mbind res_bind].
  destruct (only_out_live lim _ _ L H1) as (L1 & O1 & S1 & B1 & N1). rewrite He in S1.
  destruct err; [eexists _, _; split; [reflexivity|]; now split_and!|].
  destruct (field16_ok lim s1 12 L1 ltac:(unfold PPTP_CTRL_SIZE_MAX; lia)) as [v ->]. cbn [mbind res_bind].
  pose proof L1 as (F1 & Hh & Li & Ls & Lo & S).
  destruct est; eexists _, _; (split; [reflexivity|]); (split_and!; [unfold live_ok; cbn; split_and!; try done| |done..]).
  - rewrite <- O1. unfold others, is_starting, is_active. cbn. rewrite F1, S1, !u32_move. do 2 f_equal; lia.
  - rewrite S, S1. split; done.
  - rewrite <- O1. unfold others, is_starting, is_active. cbn. now rewrite F1, S1.
Qed.

Lemma handled_clear lim s : live_ok lim (s_conn s) -> handled lim s (pptp_call_clear_rqst s).
Proof.
  intros L. unfold pptp_call_clear_rqst. set (s1 := with_conn s (set_timers (s_conn s) (cn_timeout_timer (s_conn s)) false)).
  assert (L1 : live_ok lim (s_conn s1)) by exact L.
  case_decide as Hp.
  - destruct (leave_ppp TERM_USER_REQUEST lim s1 L1 Hp) as (s2 & -> & L2 & O2 & C2). cbn [mbind res_bind].
    apply (handled_trans _ _ s2); [exact O2|now rewrite C2..|]. apply sent_handled; [done|]. apply send_notify_ok, L2.
  - cbn [mbind res_bind]. apply (handled_trans _ _ s1); [done..|]. apply sent_handled; [done|]. apply send_notify_ok, L1.
Qed.

Lemma process_packet_ok lim cf ch s : live_ok lim (s_conn s) -> handled lim s (process_packet cf ch s).
Proof.
  intros L. unfold process_packet.
  destruct (field16_ok lim s 8 L ltac:(unfold PPTP_CTRL_SIZE_MAX; lia)) as [t ->]. cbn [mbind res_bind].
  assert (Same : forall b, handled lim s (mret (s, b))) by (intros b; exists s, b; now split_and!).
  destruct (t =? _); [now apply handled_start|].
  destruct (t =? _).
  { unfold pptp_stop_ctrl_conn_rqst. destruct (post_msg_ok (PPTP_HEADER_CTRL PPTP_STOP_CTRL_CONN_RPLY ++ [u8 PPTP_CONN_STOP_OK; u8 0; 0; 0]) s)
      as (s1 & err & E & H1); [apply L|msg_length|]. unfold send_pptp_stop_ctrl_conn_rply. rewrite E. cbn [mbind res_bind].
    destruct (only_out_live lim _ _ L H1) as (L1 & O1 & _ & B1 & N1). eexists _, _. split; [reflexivity|]. now split_and!. }
  destruct (t =? _); [apply Same|]. destruct (t =? _); [now apply handled_out_call|].
  destruct (t =? _).
  { unfold pptp_echo_rqst. destruct (field_ok lim s 12 4 L ltac:(unfold PPTP_CTRL_SIZE_MAX; lia)) as (f & -> & Lf). cbn [mbind res_bind].
    apply sent_handled; [done|]. apply post_msg_ok; [apply L|]. rewrite !length_app, Lf, length_header. cbn. unfold HDR, PPTP_CTRL_SIZE_MAX. lia. }
  destruct (t =? _); [eexists _, _; split; [reflexivity|]; split_and!; [exact L|done..]|].
  destruct (t =? _); [now apply handled_clear|apply Same].
Qed.

(** ** The socket *)
Lemma pptp_input_ok cf ch s :
  live_ok PPTP_CTRL_SIZE_MAX (s_conn s) ->
  exists s' b, pptp_input cf ch s = Ok (s', b) /\ others s' = others s /\
    live_ok (if b then PPTP_CTRL_SIZE_MAX else PPTP_CTRL_SIZE_MAX - 1) (s_conn s').
Proof.
  intros L. unfold pptp_input. set (c := s_conn s) in *.
  assert (Keep : (cn_in_size c < PPTP_CTRL_SIZE_MAX)%nat -> live_ok (PPTP_CTRL_SIZE_MAX - 1) c).
  { intros Hc. destruct L as (F & Hh & Li & Ls & Lo & S). unfold live_ok. split_and!; try done. unfold PPTP_CTRL_SIZE_MAX in *. lia. }
  destruct (Nat.ltb_spec (cn_in_size c) HDR).
  { exists s, false. split_and!; [done..|]. apply Keep. unfold HDR, PPTP_CTRL_SIZE_MAX in *. lia. }
  assert (R4 : exists v, u_read_be32 (cn_in_buf c) 4 = Ok v).
  { destruct (field_ok _ s 4 4 L ltac:(unfold PPTP_CTRL_SIZE_MAX; lia)) as (f & E & _). unfold u_read_be32. fold c in E. rewrite E. cbn. eauto. }
  destruct R4 as [magic ->].
  destruct (field16_ok _ s 0 L ltac:(unfold PPTP_CTRL_SIZE_MAX; lia)) as [len El]. fold c in El. rewrite El. cbn [mbind res_bind].
  destruct (negb (magic =? PPTP_MAGIC)); [exists s, true; now split_and!|].
  destruct (Z.ltb_spec len (Z.of_nat HDR)); [exists s, true; now split_and!|].
  destruct (Z.leb_spec (Z.of_nat PPTP_CTRL_SIZE_MAX) len); [exists s, true; now split_and!|].
  destruct (Z.ltb_spec (Z.of_nat (cn_in_size c)) len).
  { exists s, false. split_and!; [done..|]. apply Keep. lia. }
  destruct (field16_ok _ s 8 L ltac:(unfold PPTP_CTRL_SIZE_MAX; lia)) as [t Et]. fold c in Et. rewrite Et. cbn [mbind res_bind].
  destruct (negb _); [exists s, true; now split_and!|].
  destruct (process_packet_ok _ cf ch s L) as (s1 & err & -> & L1 & O1 & B1 & N1). cbn [mbind res_bind]. fold c in B1, N1.
  destruct err; [exists s1, true; now split_and!|]. rewrite B1, N1, El. cbn [mbind res_bind].
  pose proof L1 as (F & Hh & Li & Ls & Lo & S). pose proof L as (_ & _ & Lb & Lc & _). fold c in Lb, Lc.
  assert (n0 : (Z.to_nat len <= cn_in_size c)%nat) by lia. assert (12 <= Z.to_nat len)%nat by (unfold HDR in *; lia).
  rewrite slice_ok by lia. cbn [mbind res_bind].
  rewrite splice_ok by (rewrite length_take, length_drop; lia). cbn [mbind res_bind mret res_ret].
  eexists _, _. split; [reflexivity|]. split; [exact O1|]. cbn [with_conn s_conn set_in]. unfold live_ok. cbn -[Nat.sub].
  split_and!; try done; [|unfold PPTP_CTRL_SIZE_MAX in *; lia].
  rewrite !length_app, !length_take, !length_drop. lia.
Qed.

Definition queue_size (q : list read_result) : nat :=
  foldr (fun r n => match r with RErr => S n | RData bs => S (length bs) + n end)%nat 0%nat q.

(** Every round takes a byte or a result off the queue. *)
Lemma read_loop_ok cf ch fuel q s :
  (queue_size q < fuel)%nat -> live_ok (PPTP_CTRL_SIZE_MAX - 1) (s_conn s) ->
  exists s', read_loop cf ch fuel q s = Ok s' /\ conn_ok (s_conn s') /\ others s' = others s.
Proof.
  revert q s. induction fuel as [|fuel IH]; intros q s Hf L; [lia|]. cbn [read_loop].
  assert (D : forall lim s1, live_ok lim (s_conn s1) -> others s1 = others s ->
            exists s', disconnect s1 = Ok s' /\ conn_ok (s_conn s') /\ others s' = others s).
  { intros lim s1 L1 O1. destruct (pptp_disconnect_ok lim s1 L1) as (s' & -> & G & O2). exists s'. split_and!; [done|now right|congruence]. }
  destruct q as [|[|bs] q]; [exists s; split_and!; [done|now left|done]|eauto|].
  set (c := s_conn s) in *. set (n := Nat.min _ _). destruct (Nat.eqb_spec n 0); [eauto|].
  pose proof L as (F & Hh & Li & Ls & Lo & S). fold c in Li, Ls.
  rewrite splice_ok by (rewrite length_take; unfold n in *; lia). cbn [mbind res_bind].
  match goal with |- context [pptp_input cf ch ?x] => assert (L1 : live_ok PPTP_CTRL_SIZE_MAX (s_conn x)) end.
  { cbn [with_conn s_conn set_in]. unfold live_ok. cbn -[Nat.sub]. split_and!; try done.
    - rewrite !length_app, !length_take, length_drop. unfold n in *. lia.
    - unfold n in *. lia. }
  destruct (pptp_input_ok cf ch _ L1) as (s1 & b & -> & O1 & L2). cbn [mbind res_bind].
  destruct b; [now apply (D _ _ L2)|].
  destruct (IH (if (n <? length bs)%nat then RData (drop n bs) :: q else q) s1) as (s' & -> & C & O2); [|done|].
  - cbn [queue_size foldr] in Hf. fold (queue_size q) in Hf.
    destruct (Nat.ltb_spec n (length bs)); cbn [queue_size foldr]; fold (queue_size q); rewrite ?length_drop; lia.
  - exists s'. split_and!; [done..|]. now rewrite O2.
Qed.

(** A step returns, keeps the invariant of the connection and the share of the others in the counters. *)
Definition stays (s : st) (r : res st) : Prop := exists s', r = Ok s' /\ conn_ok (s_conn s') /\ others s' = others s.

Lemma stays_same s : conn_ok (s_conn s) -> stays s (mret s).
Proof. intros C. exists s. done. Qed.

Lemma stays_disconnect lim s s1 : live_ok lim (s_conn s1) -> others s1 = others s -> stays s (disconnect s1).
Proof. intros L O1. destruct (pptp_disconnect_ok _ s1 L) as (s' & -> & G & O2). exists s'. split_and!; [done|now right|congruence]. Qed.

(** The socket takes what is left, or fails. *)
Lemma pptp_write_ok ws s :
  live_ok (PPTP_CTRL_SIZE_MAX - 1) (s_conn s) -> (cn_out_size (s_conn s) - cn_out_pos (s_conn s) <= took ws)%nat -> (0 < took ws)%nat ->
  stays s (pptp_write ws s).
Proof.
  revert s. induction ws as [|[|n] ws IH]; intros s L; cbn [pptp_write took foldr]; [lia| |].
  - intros _ _. now apply (stays_disconnect _ _ _ L).
  - intros T _. pose proof L as (F & Hh & Li & Ls & (Lb & Lz & Lp) & S). fold (took ws) in *.
    rewrite slice_ok by lia. cbn [mbind res_bind]. rewrite length_take, length_drop. case_match eqn:E.
    + eexists. split; [reflexivity|]. split; [left|done]. unfold live_ok, out_ok. cbn -[Nat.sub]. split_and!; try done; [lia|now right].
    + apply Nat.eqb_neq in E. match goal with |- stays _ (pptp_write ws ?x) => destruct (IH x) as (s' & -> & C & O') end;
        [unfold live_ok, out_ok; cbn -[Nat.sub Nat.min]; split_and!; try done; left; lia|cbn -[Nat.sub Nat.min]; lia|lia|].
      exists s'. done.
Qed.

(** ** Steps *)
Lemma stays_close s1 s r : live_ok (PPTP_CTRL_SIZE_MAX - 1) (s_conn s1) -> others s1 = others s -> sent s1 r ->
  stays s ('(s, err) ← r; mret (if err : bool then call_disconnect s else arm_timeout s)).
Proof.
  intros L1 O1 (s2 & err & -> & H2). cbn [mbind res_bind]. destruct (only_out_live _ _ _ L1 H2) as (L2 & O2 & _).
  destruct (after_send _ s2 err L2) as [L3 O3]. eexists. split; [reflexivity|]. split; [now left|]. rewrite O3. congruence.
Qed.

Lemma stays_echo cf random s : live_ok (PPTP_CTRL_SIZE_MAX - 1) (s_conn s) -> stays s (pptp_send_echo cf random s).
Proof.
  intros L. unfold pptp_send_echo. cbv zeta. set (s1 := with_conn s (set_echo_sent _ _)).
  assert (L1 : live_ok (PPTP_CTRL_SIZE_MAX - 1) (s_conn s1)) by exact L.
  destruct (_ && _); [now apply (stays_disconnect _ _ _ L1)|].
  destruct (post_msg_ok (PPTP_HEADER_CTRL PPTP_ECHO_RQST ++ be_encode 4 (u32 random)) s1) as (s2 & err & -> & H2); [apply L1|msg_length|].
  cbn [mbind res_bind]. destruct (only_out_live _ _ _ L1 H2) as (L2 & O2 & _).
  destruct err; [now apply (stays_disconnect _ _ _ L2)|]. exists s2. split_and!; [done|now left|done].
Qed.

Lemma pptp_step_ok cf i s : conn_ok (s_conn s) -> event_ok (Conn 0 [] i) -> stays s (pptp_step cf i s).
Proof.
  intros C Ev. pose proof (stays_same s C) as Same. destruct C as [L|(F & Hh & T & E & C & Se)].
  2: { unfold pptp_step. rewrite ?F, ?Hh, ?T, ?E, ?C, ?Se. destruct i; apply Same. }
  destruct i; cbn [pptp_step].
  - destruct (cn_hnd _); [|done]. apply read_loop_ok; [|done]. unfold read_fuel, queue_size. lia.
  - destruct (cn_hnd _ && cn_wr _); [|done]. cbn in Ev. pose proof L as (_ & _ & _ & _ & (_ & Lz & _) & _).
    apply pptp_write_ok; [done|lia|unfold PPTP_CTRL_SIZE_MAX in *; lia].
  - destruct (cn_timeout_timer _); [|done]. now apply (stays_disconnect _ _ _ L).
  - destruct (cn_echo_timer _); [|done]. now apply stays_echo.
  - pose proof L as (F & _). rewrite F. unfold pptp_close. case_decide as Hp.
    + destruct (leave_ppp TERM_ADMIN_RESET _ s L Hp) as (s1 & -> & L1 & O1 & _). cbn [mbind res_bind].
      apply (stays_close s1); [done..|]. apply send_notify_ok, L1.
    + apply (stays_close s); [done..|]. apply send_stop_ok, L.
  - destruct (cn_calls _); [done|]. apply (stays_disconnect (PPTP_CTRL_SIZE_MAX - 1)); [exact L|done].
  - destruct (cn_ses (s_conn s)) eqn:Se; [|done].
    destruct (ppp_finished_ok _ s L Se) as (s' & E & L' & O'). unfold no_ses in E. rewrite E. exists s'. split_and!; [done|now left|done].
Qed.

(** ** The server *)
Lemma sum_by_app {A} (f : A -> Z) l k : sum_by f (l ++ k) = sum_by f l + sum_by f k.
Proof. induction l as [|x l IH]; cbn; [done|]. fold (sum_by f l) in *. unfold sum_by in *. cbn. lia. Qed.

Lemma sum_by_insert {A} (f : A -> Z) l i x y : l !! i = Some x -> sum_by f (<[i := y]> l) = sum_by f l - f x + f y.
Proof.
  revert i. induction l as [|z l IH]; intros [|i] H; [done..| |]; cbn [lookup list_lookup] in H.
  - simplify_eq. change (f y + sum_by f l = f x + sum_by f l - f x + f y). lia.
  - change (f z + sum_by f (<[i := y]> l) = f z + sum_by f l - f x + f y). rewrite (IH i H). lia.
Qed.

Lemma u32_cancel a b w w' n : u32 (a - w') = u32 (b - w) -> u32 b = u32 n -> u32 a = u32 (n - w + w').
Proof.
  unfold u32. intros H1 H2. replace a with (a - w' + w') by lia. rewrite Z.add_mod, H1, <- Z.add_mod by lia.
  replace (b - w + w') with (b + (w' - w)) by lia. rewrite Z.add_mod, H2, <- Z.add_mod by lia. f_equal. lia.
Qed.

Lemma serv_step_ok cf cl e sv : server_ok sv -> event_ok e -> exists sv', serv_step cf cl e sv = Ok sv' /\ server_ok sv'.
Proof.
  intros (C & Hs & Ha) E. destruct e as [a ib ob|i ws inp]; cbn [serv_step].
  - eexists. split; [reflexivity|]. unfold pptp_connect.
    assert (Keep : forall items, server_ok (mk_server (sv_conns sv) (sv_stat sv) items (sv_ranges sv) (sv_out sv))) by done.
    destruct (ac_shutdown a); [done|]. destruct (_ && _); [done|]. destruct (_ && _); [done|].
    destruct (if ac_connlimit a then _ else _) as [items r]. destruct (negb (r =? 0)); [apply Keep|].
    destruct (negb _); [apply Keep|]. destruct (negb (ac_getsockname a)); [apply Keep|]. destruct (negb (ac_fcntl a)); [apply Keep|].
    split; [|cbn [sv_conns sv_stat add_starting starting active]; rewrite !sum_by_app; cbn].
    + apply Forall_app. split; [done|]. apply Forall_singleton. left. destruct E as [E1 E2].
      unfold live_ok, out_ok. cbn -[Nat.sub]. split_and!; try done; try lia; now right.
    + split; [|now rewrite Z.add_0_r]. unfold u32 in *. rewrite Z.mod_mod, Z.add_mod, Hs, <- Z.add_mod by lia. done.
  - destruct (sv_conns sv !! i) as [c|] eqn:Ec; [|exists sv; now split_and!].
    destruct (pptp_step_ok cf inp (mk_st c (sv_stat sv) ws (sv_out sv))) as (s' & -> & C' & O').
    + exact (proj1 (Forall_lookup _ _) C i c Ec).
    + exact E.
    + eexists. split; [reflexivity|]. injection O' as O1 O2. cbn in O1, O2. split; [|split]; cbn [sv_conns sv_stat].
      * now apply Forall_insert.
      * rewrite (sum_by_insert _ _ _ _ _ Ec). eapply u32_cancel; eauto.
      * rewrite (sum_by_insert _ _ _ _ _ Ec). eapply u32_cancel; eauto.
Qed.


(** ** The stream *)

(** With enough fuel the loop does not depend on it. *)
Lemma read_loop_fuel cf ch f1 f2 q s :
  (queue_size q < f1)%nat -> (queue_size q < f2)%nat -> read_loop cf ch f1 q s = read_loop cf ch f2 q s.
Proof.
  revert f2 q s. induction f1 as [|f1 IH]; intros f2 q s H1 H2; [lia|]. destruct f2 as [|f2]; [lia|]. cbn [read_loop].
  destruct q as [|[|bs] q]; [done..|]. set (n := Nat.min _ _). destruct (Nat.eqb_spec n 0); [done|].
  destruct (splice _ _ _) as [buf| |]; [|done..]. cbn [mbind res_bind]. destruct (pptp_input _ _ _) as [[s1 b]| |]; [|done..].
  cbn [mbind res_bind]. destruct b; [done|].
  cbn [queue_size foldr] in H1, H2. fold (queue_size q) in H1, H2.
  apply IH; destruct (Nat.ltb_spec n (length bs)); cbn [queue_size foldr]; fold (queue_size q); rewrite ?length_drop; lia.
Qed.

(** Data that fits is taken whole. *)
Lemma pptp_read_data cf ch bs q s :
  bs <> [] -> (cn_in_size (s_conn s) + length bs <= PPTP_CTRL_SIZE_MAX)%nat ->
  pptp_read cf ch (RData bs :: q) s =
    buf ← splice (cn_in_size (s_conn s)) bs (cn_in_buf (s_conn s));
    '(s, b) ← pptp_input cf ch (with_conn s (set_in (s_conn s) buf (cn_in_size (s_conn s) + length bs)));
    if b : bool then disconnect s else pptp_read cf ch q s.
Proof.
  intros H L. unfold pptp_read at 1. cbn [read_fuel read_loop]. rewrite Nat.min_l by lia.
  destruct (Nat.eqb_spec (length bs) 0) as [E|_]; [now apply nil_length_inv in E|]. rewrite take_ge by lia.
  destruct (splice _ _ _) as [buf| |]; [|done..]. cbn [mbind res_bind]. destruct (pptp_input _ _ _) as [[s1 b]| |]; [|done..].
  cbn [mbind res_bind]. destruct b; [done|]. rewrite Nat.ltb_irrefl.
  apply read_loop_fuel; unfold read_fuel; cbn [foldr]; fold (queue_size q); lia.
Qed.

(** Headers are read from the front of the buffer. *)
Lemma be16_front m l off : (off + 2 <= length m)%nat -> u_read_be16 (m ++ l) off = u_read_be16 m off.
Proof. intros H. unfold u_read_be16. now rewrite slice_front. Qed.
Lemma be32_front m l off : (off + 4 <= length m)%nat -> u_read_be32 (m ++ l) off = u_read_be32 m off.
Proof. intros H. unfold u_read_be32. now rewrite slice_front. Qed.

(** The header of [m ++ l] is there: [pptp_input] waits for the rest of [m]. *)
Lemma pptp_input_waits cf ch pre post s :
  well_formed (pre ++ post) -> (length (pre ++ post) <= length (cn_in_buf (s_conn s)))%nat -> post <> [] ->
  pptp_input cf ch (with_msg pre (length pre) s) = Ok (with_msg pre (length pre) s, false).
Proof.
  intros ([L1 L2] & R0 & R4 & t & R8 & T) Lb Hp. unfold pptp_input. cbn [with_msg with_conn s_conn set_in cn_in_size cn_in_buf].
  destruct (Nat.ltb_spec (length pre) HDR) as [H|H]; [done|]. unfold HDR in *.
  assert (N : (length pre < length (pre ++ post))%nat) by (destruct post; [done|rewrite length_app; cbn; lia]).
  rewrite (be16_front pre _ 0), be32_front by lia. rewrite be16_front in R0 by lia. rewrite be32_front in R4 by lia.
  rewrite R4, R0. cbn [mbind res_bind]. rewrite Z.eqb_refl. cbn [negb].
  destruct (Z.ltb_spec (Z.of_nat (length (pre ++ post))) (Z.of_nat 12)); [lia|].
  destruct (Z.leb_spec (Z.of_nat PPTP_CTRL_SIZE_MAX) (Z.of_nat (length (pre ++ post)))); [lia|].
  destruct (Z.ltb_spec (Z.of_nat (length pre)) (Z.of_nat (length (pre ++ post)))); [done|lia].
Qed.

(** A message is complete: it is processed, what follows it moves to the front. *)
Lemma pptp_input_msg cf ch m l s :
  well_formed m -> live_ok PPTP_CTRL_SIZE_MAX (s_conn (with_msg (m ++ l) (length (m ++ l)) s)) ->
  pptp_input cf ch (with_msg (m ++ l) (length (m ++ l)) s) =
    '(s, err) ← process_packet cf ch (with_msg (m ++ l) (length (m ++ l)) s);
    if err : bool then mret (s, true)
    else
      buf ← splice 0 l (cn_in_buf (s_conn s));
      mret (with_conn s (set_in (s_conn s) buf (length l)), false).
Proof.
  intros ([L1 L2] & R0 & R4 & t & R8 & T) Lv. set (s0 := with_msg (m ++ l) (length (m ++ l)) s) in *.
  assert (B0 : cn_in_buf (s_conn s0) = (m ++ l) ++ drop (length (m ++ l)) (cn_in_buf (s_conn s))) by done.
  assert (N0 : cn_in_size (s_conn s0) = length (m ++ l)) by done.
  unfold pptp_input. cbv zeta. rewrite N0, B0, <- !app_assoc, length_app. unfold HDR in *.
  destruct (Nat.ltb_spec (length m + length l) 12); [lia|].
  rewrite !be16_front, be32_front, R0, R4 by lia. cbn [mbind res_bind]. rewrite Z.eqb_refl. cbn [negb].
  destruct (Z.ltb_spec (Z.of_nat (length m)) (Z.of_nat 12)); [lia|].
  destruct (Z.leb_spec (Z.of_nat PPTP_CTRL_SIZE_MAX) (Z.of_nat (length m))); [lia|].
  destruct (Z.ltb_spec (Z.of_nat (length m + length l)) (Z.of_nat (length m))); [lia|].
  rewrite R8. cbn [mbind res_bind]. rewrite T, Z.eqb_refl. cbn [negb].
  destruct (process_packet_ok _ cf ch s0 Lv) as (s1 & err & -> & L3 & _ & B1 & N1). cbn [mbind res_bind].
  destruct err; [done|]. rewrite N1, N0, B1, B0, <- !app_assoc, be16_front, R0 by lia. cbn [mbind res_bind].
  rewrite Nat2Z.id, length_app. replace (length m + length l - length m)%nat with (length l) by lia.
  rewrite <- (Nat.add_0_r (length m)), slice_app_r, slice_app_l. done.
Qed.

Lemma with_msg_add pre b s :
  (length (pre ++ b) <= length (cn_in_buf (s_conn s)))%nat ->
  splice (length pre) b (cn_in_buf (s_conn (with_msg pre (length pre) s))) = Ok (cn_in_buf (s_conn (with_msg (pre ++ b) (length (pre ++ b)) s))).
Proof.
  intros H. cbn [with_msg with_conn s_conn set_in cn_in_buf]. rewrite length_app in H.
  rewrite <- (Nat.add_0_r (length pre)) at 1. rewrite splice_app_r, splice_ok by (rewrite length_drop; lia). cbn [mbind res_bind mret res_ret Nat.add].
  rewrite take_0, drop_drop, length_app, <- app_assoc. done.
Qed.

Lemma with_msg_live m s :
  live_ok (PPTP_CTRL_SIZE_MAX - 1) (s_conn s) -> (length m <= PPTP_CTRL_SIZE_MAX)%nat -> live_ok PPTP_CTRL_SIZE_MAX (s_conn (with_msg m (length m) s)).
Proof.
  intros (F & Hh & Li & Ls & Lo & S) H. unfold live_ok. cbn. split_and!; try done. rewrite length_app, length_drop. lia.
Qed.

(** The pieces of one message. *)
Lemma read_pieces cf ch cs pre q s :
  well_formed (pre ++ concat cs) -> cs <> [] -> Forall (fun b => b <> []) cs -> live_ok (PPTP_CTRL_SIZE_MAX - 1) (s_conn s) ->
  pptp_read cf ch (map RData cs ++ q) (with_msg pre (length pre) s) =
    '(s, err) ← process_packet cf ch (with_msg (pre ++ concat cs) (length (pre ++ concat cs)) s);
    if err : bool then disconnect s else pptp_read cf ch q (with_conn s (set_in (s_conn s) (cn_in_buf (s_conn s)) 0)).
Proof.
  intros W N F L. revert pre W. induction F as [|b cs Hb F IH]; intros pre W; [done|].
  assert (Lb : length (cn_in_buf (s_conn s)) = PPTP_CTRL_SIZE_MAX) by apply L.
  pose proof W as ([_ L2] & _). cbn [concat] in *. rewrite app_assoc in *.
  assert (Lp : (length (pre ++ b) <= length ((pre ++ b) ++ concat cs))%nat) by (rewrite (length_app (pre ++ b)); lia).
  cbn [map app]. rewrite pptp_read_data; [|done|cbn [with_msg with_conn s_conn set_in cn_in_size]; rewrite length_app in Lp; lia].
  change (cn_in_size (s_conn (with_msg pre (length pre) s))) with (length pre). rewrite with_msg_add by lia. cbn [mbind res_bind].
  match goal with |- context [pptp_input cf ch ?x] => replace x with (with_msg (pre ++ b) (length (pre ++ b)) s) end.
  2: { unfold with_msg, with_conn, set_in. cbn. rewrite length_app. done. }
  destruct cs as [|b2 cs].
  - cbn [concat] in *. rewrite app_nil_r in *.
    pose proof (pptp_input_msg cf ch (pre ++ b) [] s) as E. rewrite app_nil_r in E. rewrite E; [|done|apply with_msg_live; [done|lia]].
    destruct (process_packet cf ch _) as [[s1 err]| |]; [|done..]. cbn [mbind res_bind]. destruct err; [done|].
    rewrite splice_ok by (cbn; lia). done.
  - rewrite (pptp_input_waits cf ch (pre ++ b) (concat (b2 :: cs))); [|done|lia|].
    + cbn [mbind res_bind]. rewrite IH by done. done.
    + apply Forall_cons in F as [F _]. cbn [concat]. now destruct b2.
Qed.

Lemma read_msgs cf ch ms pieces s :
  live_ok (PPTP_CTRL_SIZE_MAX - 1) (s_conn s) -> cn_in_size (s_conn s) = 0%nat -> Forall well_formed ms ->
  Forall2 (fun m cs => concat cs = m /\ Forall (fun b => b <> []) cs) ms pieces ->
  pptp_read cf ch (map RData (concat pieces)) s = take_msgs cf ch ms s.
Proof.
  intros L Z0 W F. revert s L Z0 W. induction F as [|m cs ms pieces [E N] F IH]; intros s L Z0 W; [done|].
  apply Forall_cons in W as [Wm W]. cbn [concat]. rewrite map_app.
  assert (B : s = with_msg [] (length (@nil Z)) s).
  { destruct s as [c t ws o], c; cbn in *. now subst. }
  rewrite B at 1. rewrite read_pieces; cbn [app]; rewrite ?E; [|done| |done..].
  - cbn [take_msgs].
    assert (Lm : live_ok PPTP_CTRL_SIZE_MAX (s_conn (with_msg m (length m) s))) by (apply with_msg_live; [done|destruct Wm; lia]).
    destruct (process_packet_ok _ cf ch _ Lm) as (s1 & err & -> & L1 & _). cbn [mbind res_bind]. destruct err; [done|].
    apply IH; [|done..]. destruct L1 as (F1 & Hh & Li & Ls & Lo & S1). unfold live_ok. cbn -[Nat.sub]. split_and!; done || lia.
  - intros ->. cbn in E. subst m. destruct Wm as [[? _] _]. unfold HDR in *. cbn in *. lia.
Qed.

(** C21. However the TCP stream cuts the messages of a peer into pieces, as long as no piece holds
    bytes of two of them, each is processed once, whole and in order, and nothing else is. *)
Theorem pptp_reassembly cf ch ms pieces s :
  live_ok (PPTP_CTRL_SIZE_MAX - 1) (s_conn s) -> cn_in_size (s_conn s) = 0%nat -> Forall well_formed ms ->
  Forall2 (fun m cs => concat cs = m /\ Forall (fun b => b <> []) cs) ms pieces ->
  pptp_read cf ch (map RData (concat pieces)) s = take_msgs cf ch ms s.
Proof. apply read_msgs. Qed.

(** Defect: two messages that arrive in one piece are not both handled.  The second one, complete,
    waits in the buffer until the peer sends something else. *)
Theorem pptp_pipelined_waits cf ch m1 m2 s s1 :
  live_ok (PPTP_CTRL_SIZE_MAX - 1) (s_conn s) -> cn_in_size (s_conn s) = 0%nat -> well_formed m1 -> well_formed m2 ->
  (length (m1 ++ m2) <= PPTP_CTRL_SIZE_MAX)%nat ->
  process_packet cf ch (with_msg (m1 ++ m2) (length (m1 ++ m2)) s) = Ok (s1, false) ->
  exists buf, pptp_read cf ch [RData (m1 ++ m2)] s = Ok (with_conn s1 (set_in (s_conn s1) buf (length m2))) /\
    take (length m2) buf = m2 /\ s_out (with_conn s1 (set_in (s_conn s1) buf (length m2))) = s_out s1.
Proof.
  intros L Z0 W1 W2 H P. assert (Lb : length (cn_in_buf (s_conn s)) = PPTP_CTRL_SIZE_MAX) by apply L.
  pose proof (with_msg_live (m1 ++ m2) s L H) as Lm.
  assert (NE : m1 ++ m2 <> []) by (destruct W1 as [[? _] _], m1; [unfold HDR in *; cbn in *; lia|done]).
  rewrite pptp_read_data by (rewrite ?Z0; done). rewrite Z0.
  rewrite splice_ok by (cbn; lia). cbn [mbind res_bind take app Nat.add].
  match goal with |- context [pptp_input cf ch ?x] => change x with (with_msg (m1 ++ m2) (length (m1 ++ m2)) s) end.
  rewrite pptp_input_msg, P by done. cbn [mbind res_bind].
  destruct (process_packet_ok _ cf ch _ Lm) as (s2 & e2 & P2 & L2 & _). rewrite P in P2. simplify_eq.
  pose proof L2 as (_ & _ & Li & _). rewrite length_app in H. rewrite splice_ok by (cbn; lia). cbn [mbind res_bind mret res_ret take app].
  eexists. split; [reflexivity|]. split; [rewrite take_0; apply (take_app_length m2)|done].
Qed.

(** The bytes of the replies of a successful start. *)
Definition start_reply : list Z :=
  PPTP_HEADER_CTRL PPTP_START_CTRL_CONN_RPLY ++ be_encode 2 PPTP_VERSION ++ [PPTP_CONN_RES_SUCCESS; 0] ++
  be_encode 4 3 ++ be_encode 4 3 ++ be_encode 2 1 ++ be_encode 2 1 ++ field64 PPTP_HOSTNAME ++ field64 PPTP_VENDOR.
Definition call_reply (call_id : Z) (m : list Z) : list Z :=
  PPTP_HEADER_CTRL PPTP_OUT_CALL_RPLY ++ be_encode 2 (u16 call_id) ++ take 2 (drop 12 m) ++ [PPTP_CALL_RES_OK; 0] ++
  [0; 0] ++ take 4 (drop 20 m) ++ take 2 (drop 32 m) ++ [0; 0] ++ [0; 0; 0; 0].

Lemma post_msg_all buf c t o :
  cn_out_size c = 0%nat -> post_msg buf (mk_st c t [] o) = Ok (mk_st c t [] (o ++ [Sent buf]), false).
Proof. intros E. unfold post_msg. cbn [s_conn]. rewrite E. change (0 <? 0)%nat with false. cbv zeta.
  unfold next_write. cbn [s_writes s_conn]. now rewrite Nat.ltb_irrefl, firstn_all.
Qed.

Lemma slice_msg off n (m l : list Z) : (off + n <= length m)%nat -> slice off n (m ++ l) = Ok (take n (drop off m)).
Proof. intros H. now rewrite slice_front, slice_ok. Qed.

Lemma process_start cf ch m c t o :
  well_formed m -> u_read_be16 m 8 = Ok PPTP_START_CTRL_CONN_RQST -> u_read_be16 m 12 = Ok PPTP_VERSION ->
  cn_state c = STATE_IDLE -> cn_out_size c = 0%nat ->
  process_packet cf ch (with_msg m (length m) (mk_st c t [] o)) =
    Ok (mk_st (set_state (s_conn (with_msg m (length m) (mk_st c t [] o))) STATE_ESTB) t [] (o ++ [Sent start_reply]), false).
Proof.
  intros ([L _] & R0 & _ & ty & R8 & T) R8' R12 S O'. rewrite R8 in R8'. simplify_eq.
  assert (L' : length m = 156%nat) by (cbn in T; lia).
  unfold with_msg, with_conn. cbn [s_conn s_stat s_writes s_out]. set (c0 := set_in c _ _).
  assert (B0 : cn_in_buf c0 = m ++ drop (length m) (cn_in_buf c)) by done.
  unfold process_packet. cbn [s_conn]. rewrite B0, be16_front, R8 by lia. cbn [mbind res_bind].
  rewrite Z.eqb_refl. unfold pptp_start_ctrl_conn_rqst. cbn [s_conn].
  rewrite B0, be16_front, R12 by lia. cbn [mbind res_bind]. rewrite decide_True by done. rewrite Z.eqb_refl.
  unfold send_pptp_start_ctrl_conn_rply. rewrite post_msg_all by done. done.
Qed.

Lemma process_call cf call_id m c t o :
  well_formed m -> u_read_be16 m 8 = Ok PPTP_OUT_CALL_RQST -> cn_state c = STATE_ESTB -> cn_out_size c = 0%nat ->
  exists peer c', u_read_be16 m 12 = Ok peer /\
    process_packet cf (Channel call_id true) (with_msg m (length m) (mk_st c t [] o)) =
      Ok (mk_st c' (pptp_stat_move t) [] (o ++ [Sent (call_reply call_id m); CtrlStarted]), false) /\
    cn_state c' = STATE_PPP /\ cn_ses c' = true /\ cn_call_id c' = call_id /\ cn_peer_call_id c' = peer /\
    cn_timeout_timer c' = false /\ cn_echo_timer c' = (if conf_echo_interval cf =? 0 then cn_echo_timer c else true).
Proof.
  intros ([L _] & R0 & _ & ty & R8 & T) R8' S O'. rewrite R8 in R8'. simplify_eq.
  assert (L' : length m = 168%nat) by (cbn in T; lia).
  unfold with_msg, with_conn. cbn [s_conn s_stat s_writes s_out]. set (c0 := set_in c _ _).
  assert (B0 : cn_in_buf c0 = m ++ drop (length m) (cn_in_buf c)) by done.
  unfold process_packet. cbn [s_conn]. rewrite B0, be16_front, R8 by lia. cbn [mbind res_bind].
  cbn [Z.eqb PPTP_OUT_CALL_RQST PPTP_START_CTRL_CONN_RQST PPTP_STOP_CTRL_CONN_RQST PPTP_STOP_CTRL_CONN_RPLY Pos.eqb].
  unfold pptp_out_call_rqst. cbn [s_conn]. rewrite decide_True by done.
  unfold send_pptp_out_call_rply. cbn [s_conn]. rewrite B0, !slice_msg by lia. cbn [mbind res_bind].
  rewrite post_msg_all by done. cbn [mbind res_bind s_conn]. rewrite B0, be16_front by lia.
  destruct (u_read_be16 m 12) as [peer| |] eqn:E; [|unfold u_read_be16 in E; rewrite slice_ok in E by lia; done..].
  cbn [mbind res_bind].
  eexists peer, _. split; [done|]. split; [unfold with_conn, with_stat, emit; cbn [s_conn s_stat s_writes s_out]; rewrite <- app_assoc; reflexivity|].
  cbn. split_and!; done.
Qed.

(** C28. A peer that starts a connection and asks for a call gets both replies, with the call ids
    and the window it named, a running session and, if configured, echo requests; the connection
    counts as active from then on. *)
Theorem pptp_handshake cf call_id ib ob t o m1 m2 :
  length ib = PPTP_CTRL_SIZE_MAX -> length ob = PPTP_CTRL_SIZE_MAX -> well_formed m1 -> well_formed m2 ->
  u_read_be16 m1 8 = Ok PPTP_START_CTRL_CONN_RQST -> u_read_be16 m1 12 = Ok PPTP_VERSION -> u_read_be16 m2 8 = Ok PPTP_OUT_CALL_RQST ->
  exists peer c', u_read_be16 m2 12 = Ok peer /\
    pptp_read cf (Channel call_id true) [RData m1; RData m2] (mk_st (new_conn ib ob) t [] o) =
      Ok (mk_st c' (pptp_stat_move t) [] (o ++ [Sent start_reply; Sent (call_reply call_id m2); CtrlStarted])) /\
    cn_state c' = STATE_PPP /\ cn_ses c' = true /\ cn_call_id c' = call_id /\ cn_peer_call_id c' = peer /\
    cn_timeout_timer c' = false /\ cn_echo_timer c' = negb (conf_echo_interval cf =? 0).
Proof.
  intros Li Lo W1 W2 T1 V1 T2. set (s0 := mk_st (new_conn ib ob) t [] o).
  assert (L0 : live_ok (PPTP_CTRL_SIZE_MAX - 1) (s_conn s0)).
  { unfold live_ok, out_ok. cbn -[Nat.sub]. split_and!; try done; try lia; now right. }
  assert (NE : forall m, well_formed m -> m <> []) by (intros m [[? _] _]; destruct m; [unfold HDR in *; cbn in *; lia|done]).
  change [RData m1; RData m2] with (map RData (concat [[m1]; [m2]])).
  destruct (process_call cf call_id m2 (set_in (set_state (s_conn (with_msg m1 (length m1) s0)) STATE_ESTB)
      (cn_in_buf (s_conn (with_msg m1 (length m1) s0))) 0) t (o ++ [Sent start_reply]) W2 T2 eq_refl eq_refl)
    as (peer & c' & P & E & R).
  exists peer, (set_in c' (cn_in_buf c') 0). split; [done|]. split; [|now destruct (conf_echo_interval cf =? 0)].
  rewrite (read_msgs cf _ [m1; m2]); [|done|done|now rewrite !Forall_cons, Forall_nil|].
  2: { constructor; [|constructor; [|constructor]]; cbn; rewrite app_nil_r; (split; [done|]); apply Forall_singleton; auto. }
  cbn [take_msgs]. unfold s0 at 1. rewrite process_start by done. cbn [mbind res_bind]. unfold with_conn at 1. cbn [s_conn s_stat s_writes s_out].
  match type of E with _ = ?r =>
    match goal with |- context [process_packet ?a ?b ?x] => replace (process_packet a b x) with r by (symmetry; exact E) end
  end. cbn [mbind res_bind]. unfold with_conn. cbn [s_conn s_stat s_writes s_out]. rewrite <- app_assoc. done.
Qed.

(** Defect: a peer that has its call cleared and keeps the TCP connection holds the connection for
    ever: no timer runs any more and no call is pending. *)
Theorem pptp_clear_abandoned cf s :
  live_ok (PPTP_CTRL_SIZE_MAX - 1) (s_conn s) -> cn_state (s_conn s) = STATE_PPP -> cn_timeout_timer (s_conn s) = false -> cn_calls (s_conn s) = 0%nat ->
  exists s' err, pptp_call_clear_rqst s = Ok (s', err) /\ cn_state (s_conn s') = STATE_CLOSE /\ cn_freed (s_conn s') = false /\
    forall i, match i with ITimeout | IEcho _ | ICall | ISesFinished => pptp_step cf i s' = Ok s' | _ => True end.
Proof.
  intros L Hp Ht Hc. unfold pptp_call_clear_rqst. rewrite decide_True by done.
  set (s1 := with_conn s (set_timers (s_conn s) (cn_timeout_timer (s_conn s)) false)).
  assert (L1 : live_ok (PPTP_CTRL_SIZE_MAX - 1) (s_conn s1)) by exact L.
  destruct (leave_ppp TERM_USER_REQUEST _ s1 L1 Hp) as (s2 & -> & L2 & O2 & C2). cbn [mbind res_bind].
  destruct (send_notify_ok 4 s2) as (s3 & err & E3 & _ & _ & wr & buf & size & pos & C3); [apply L2|].
  exists s3, err. split; [done|]. rewrite C3, C2. destruct L as (F & _). split_and!; [done|exact F|].
  intros [| | | | | |]; try done; cbn [pptp_step]; rewrite C3, C2; cbn; rewrite ?Ht, ?Hc; done.
Qed.

(** Defect: while the socket takes nothing ([EAGAIN]), [pptp_write] does not return: it asks again
    at once, however often, and all connections of the thread wait. *)
Theorem pptp_write_spins n s :
  live_ok (PPTP_CTRL_SIZE_MAX - 1) (s_conn s) -> (0 < cn_out_size (s_conn s))%nat -> pptp_write (replicate n (WTook 0)) s = Fail.
Proof.
  intros L H. revert s L H. induction n as [|n IH]; intros s L H; [done|]. cbn [replicate pptp_write].
  pose proof L as (F & Hh & Li & Ls & (Lb & Lz & Lp) & S). rewrite slice_ok by lia. cbn [mbind res_bind Nat.min].
  rewrite Nat.add_0_r. destruct (Nat.eqb_spec (cn_out_pos (s_conn s)) (cn_out_size (s_conn s))); [lia|].
  apply IH; [|done]. unfold live_ok, out_ok. cbn -[Nat.sub]. split_and!; done.
Qed.

(** ** Witnesses *)
Definition buf0 : list Z := replicate PPTP_CTRL_SIZE_MAX 0.
Definition start_msg : list Z := PPTP_HEADER_CTRL PPTP_START_CTRL_CONN_RQST ++ be_encode 2 PPTP_VERSION ++ replicate 142 0.
Definition call_msg : list Z := PPTP_HEADER_CTRL PPTP_OUT_CALL_RQST ++ be_encode 2 77 ++ replicate 154 0.
Definition echo_msg : list Z := PPTP_HEADER_CTRL PPTP_ECHO_RQST ++ be_encode 4 7.
Definition clear_msg : list Z := PPTP_HEADER_CTRL PPTP_CALL_CLEAR_RQST ++ [0; 77; 0; 0].
Definition conf0 : pptp_conf := mk_conf 0 3 0 0.
Definition st0 : st := mk_st (new_conn buf0 buf0) (mk_stat 1 0) [] [].

Ltac wf_msg t := split; [vm_compute; lia|split; [reflexivity|split; [reflexivity|exists t; split; reflexivity]]].

Lemma st0_live : live_ok (PPTP_CTRL_SIZE_MAX - 1) (s_conn st0).
Proof. unfold live_ok, out_ok. cbn -[Nat.sub]. split_and!; try done; try lia; now right. Qed.


Lemma pptp_reassembly_witness :
  pptp_read conf0 NoChannel (map RData (concat [[take 5 echo_msg; drop 5 echo_msg]; [start_msg]])) st0 = take_msgs conf0 NoChannel [echo_msg; start_msg] st0.
Proof.
  apply (pptp_reassembly conf0 NoChannel [echo_msg; start_msg]).
  - apply st0_live.
  - reflexivity.
  - apply Forall_cons; split; [wf_msg 5|]. apply Forall_cons; split; [wf_msg 1|apply Forall_nil_2].
  - apply Forall2_cons; split; [split; [reflexivity|]|].
    + apply Forall_cons; split; [discriminate|]. apply Forall_cons; split; [discriminate|apply Forall_nil_2].
    + apply Forall2_cons; split; [|apply Forall2_nil_2]. split; [reflexivity|]. apply Forall_cons; split; [discriminate|apply Forall_nil_2].
Defined.

Lemma pptp_pipelined_waits_witness : exists s1 buf,
  pptp_read conf0 NoChannel [RData (echo_msg ++ clear_msg)] st0 = Ok (with_conn s1 (set_in (s_conn s1) buf 16)) /\ take 16 buf = clear_msg.
Proof.
  destruct (process_packet conf0 NoChannel (with_msg (echo_msg ++ clear_msg) (length (echo_msg ++ clear_msg)) st0)) as [[s1 [|]]| |] eqn:E;
    [vm_compute in E; discriminate| |vm_compute in E; discriminate..].
  destruct (pptp_pipelined_waits conf0 NoChannel echo_msg clear_msg st0 s1) as (buf & R & T & _).
  - apply st0_live.
  - reflexivity.
  - wf_msg 5.
  - wf_msg 12.
  - vm_compute. lia.
  - exact E.
  - exists s1, buf. split; [exact R|exact T].
Defined.

Lemma pptp_handshake_witness : exists c',
  pptp_read conf0 (Channel 5 true) [RData start_msg; RData call_msg] st0 =
    Ok (mk_st c' (pptp_stat_move (mk_stat 1 0)) [] [Sent start_reply; Sent (call_reply 5 call_msg); CtrlStarted]) /\ cn_state c' = STATE_PPP /\ cn_peer_call_id c' = 77.
Proof.
  destruct (pptp_handshake conf0 5 buf0 buf0 (mk_stat 1 0) [] start_msg call_msg) as (peer & c' & P & E & S & _ & _ & Q & _).
  - reflexivity.
  - reflexivity.
  - wf_msg 1.
  - wf_msg 7.
  - reflexivity.
  - reflexivity.
  - reflexivity.
  - exists c'. split; [exact E|]. split; [exact S|]. rewrite Q. vm_compute in P. congruence.
Defined.

Lemma pptp_write_spins_witness :
  pptp_write (replicate 1000 (WTook 0)) (with_conn st0 (set_out (s_conn st0) true buf0 16 0)) = Fail.
Proof.
  apply (pptp_write_spins 1000).
  - unfold live_ok, out_ok. cbn -[Nat.sub]. split_and!; try done; unfold PPTP_CTRL_SIZE_MAX; lia.
  - cbn. lia.
Defined.
