(* ===== verification/Dhcpv4.v ===== *)
(** * DHCPv4 packets (accel-pppd/ctrl/ipoe/dhcpv4.c, dhcpv4_options.c)

    A packet is its buffer of [BUF_SIZE] bytes, the options found in it or added to it, as
    offsets into the buffer, and a write position.  Addresses of headers and options are
    the four bytes in the order they have in the packet.  The machine is little-endian
    where 16-bit words are summed. *)
From S2P Require Import Prelude Utils.

(** ** dhcpv4.h *)
Definition BUF_SIZE : nat := Z.to_nat 4096.
(** [sizeof(struct dhcpv4_hdr)] and the offsets of its fields. *)
Definition HDR : nat := Z.to_nat 240.
Definition OP : nat := 0.
Definition HTYPE : nat := 1.
Definition HLEN : nat := 2.
Definition XID : nat := 4.
Definition FLAGS : nat := 10.
Definition CIADDR : nat := 12.
Definition YIADDR : nat := 16.
Definition SIADDR : nat := 20.
Definition GIADDR : nat := 24.
Definition CHADDR : nat := 28.
Definition MAGIC : nat := Z.to_nat 236.

Definition DHCP_MAGIC : list Z := [99; 130; 83; 99].
Definition DHCP_SERV_PORT : Z := 67.
Definition DHCP_CLIENT_PORT : Z := 68.
Definition DHCP_OP_REQUEST : Z := 1.
Definition DHCP_OP_REPLY : Z := 2.
Definition DHCPDISCOVER : Z := 1.
Definition DHCPACK : Z := 5.
Definition DHCPNAK : Z := 6.
Definition DHCPRELEASE : Z := 7.
Definition ACCEL_PPP_MAGIC : Z := 4250318346.

Record dhcpv4_option : Type := mk_opt {
  o_type : Z;
  o_len : Z;
  o_data : nat
}.

Record dhcpv4_packet : Type := mk_pack {
  p_data : list Z;
  p_options : list dhcpv4_option;
  p_client_id : option dhcpv4_option;
  p_relay_agent : option dhcpv4_option;
  p_request_ip : list Z;
  p_server_id : list Z;
  p_msg_type : Z;
  p_dst_addr : list Z;
  p_ptr : nat
}.

Definition zero4 : list Z := [0; 0; 0; 0].
(** C's test of an [in_addr_t]. *)
Definition nonzero (addr : list Z) : bool := existsb (fun b => negb (b =? 0)) addr.

Definition set_data (p : dhcpv4_packet) (data : list Z) : dhcpv4_packet :=
  mk_pack data (p_options p) (p_client_id p) (p_relay_agent p) (p_request_ip p) (p_server_id p) (p_msg_type p) (p_dst_addr p) (p_ptr p).
Definition set_ptr (p : dhcpv4_packet) (ptr : nat) : dhcpv4_packet :=
  mk_pack (p_data p) (p_options p) (p_client_id p) (p_relay_agent p) (p_request_ip p) (p_server_id p) (p_msg_type p) (p_dst_addr p) ptr.

(** A field of the header or of an option. *)
Definition field (off n : nat) (p : dhcpv4_packet) : res (list Z) := slice off n (p_data p).
Definition put_field (off : nat) (bs : list Z) (p : dhcpv4_packet) : res dhcpv4_packet :=
  data ← splice off bs (p_data p); mret (set_data p data).
Definition opt_bytes (p : dhcpv4_packet) (o : dhcpv4_option) : res (list Z) := field (o_data o) (Z.to_nat (o_len o)) p.

(** ** dhcpv4_options.c *)
Inductive printer : Type :=
| print_int | print_uint | print_ip | print_str | print_hex | print_route | print_classless_route
| print_message_type | print_request_list | print_relay_agent.

Record known_option : Type := mk_known {
  k_type : Z;
  k_min_len : Z;
  k_max_len : Z;
  k_elem_size : Z;
  k_print : printer
}.

Definition options : list known_option :=
  [mk_known 1 4 4 4 print_ip; mk_known 2 4 4 4 print_int; mk_known 3 4 255 4 print_ip; mk_known 4 4 255 4 print_ip;
   mk_known 5 4 255 4 print_ip; mk_known 6 4 255 4 print_ip; mk_known 12 1 255 1 print_str; mk_known 15 1 255 1 print_str;
   mk_known 26 2 2 2 print_int; mk_known 28 4 4 4 print_ip; mk_known 33 8 255 8 print_route; mk_known 42 4 255 4 print_ip;
   mk_known 43 1 255 1 print_hex; mk_known 50 4 4 4 print_ip; mk_known 51 4 4 4 print_uint; mk_known 53 1 1 1 print_message_type;
   mk_known 54 4 4 4 print_ip; mk_known 55 1 255 1 print_request_list; mk_known 56 1 255 1 print_str; mk_known 57 2 2 2 print_uint;
   mk_known 58 4 4 4 print_uint; mk_known 59 4 4 4 print_uint; mk_known 60 1 255 1 print_hex; mk_known 61 2 255 1 print_hex;
   mk_known 82 3 255 1 print_relay_agent; mk_known 121 5 255 1 print_classless_route].

Definition find_known (type : Z) : option known_option := List.find (fun k => k_type k =? type) options.

Definition check_option (type len : Z) : bool :=
  match find_known type with
  | Some k => (k_min_len k <=? len) && (len <=? k_max_len k) && (len mod k_elem_size k =? 0)
  | None => true
  end.

(** [true]: the 0 return. *)
Definition dhcpv4_check_options (opts : list dhcpv4_option) : bool := forallb (fun o => check_option (o_type o) (o_len o)) opts.

(** ** Reception *)

(** The loop over the options, from [ptr] to [endptr]. *)
Fixpoint parse_options (fuel : nat) (data : list Z) (ptr endptr : nat) (opts : list dhcpv4_option) : res (list dhcpv4_option * nat) :=
  match fuel with
  | O => Fail
  | S fuel =>
      if (ptr <? endptr)%nat then
        type ← res_of_option (data !! ptr);
        if type =? 0 then parse_options fuel data (S ptr) endptr opts
        else if type =? 255 then mret (opts, S ptr)
        else if (endptr <? ptr + 2)%nat then Fail
        else
          len ← res_of_option (data !! S ptr);
          if (endptr <? ptr + 2 + Z.to_nat len)%nat then Fail
          else parse_options fuel data (ptr + 2 + Z.to_nat len) endptr (opts ++ [mk_opt type len (ptr + 2)])
      else mret (opts, ptr)
  end.

(** The options the server looks at. *)
Definition note_option (p : dhcpv4_packet) (o : dhcpv4_option) : res dhcpv4_packet :=
  if o_type o =? 53 then
    b ← field (o_data o) 1 p;
    mret (mk_pack (p_data p) (p_options p) (p_client_id p) (p_relay_agent p) (p_request_ip p) (p_server_id p) (be_decode b) (p_dst_addr p) (p_ptr p))
  else if o_type o =? 82 then
    mret (mk_pack (p_data p) (p_options p) (p_client_id p) (Some o) (p_request_ip p) (p_server_id p) (p_msg_type p) (p_dst_addr p) (p_ptr p))
  else if o_type o =? 62 then
    mret (mk_pack (p_data p) (p_options p) (Some o) (p_relay_agent p) (p_request_ip p) (p_server_id p) (p_msg_type p) (p_dst_addr p) (p_ptr p))
  else if o_type o =? 50 then
    b ← field (o_data o) 4 p;
    mret (mk_pack (p_data p) (p_options p) (p_client_id p) (p_relay_agent p) b (p_server_id p) (p_msg_type p) (p_dst_addr p) (p_ptr p))
  else if o_type o =? 54 then
    b ← field (o_data o) 4 p;
    mret (mk_pack (p_data p) (p_options p) (p_client_id p) (p_relay_agent p) (p_request_ip p) b (p_msg_type p) (p_dst_addr p) (p_ptr p))
  else mret p.

Fixpoint note_options (opts : list dhcpv4_option) (p : dhcpv4_packet) : res dhcpv4_packet :=
  match opts with
  | [] => mret p
  | o :: opts => p ← note_option p o; note_options opts p
  end.

(** [len] bytes were received into [p_data]. *)
Definition dhcpv4_parse_packet (p : dhcpv4_packet) (len : nat) : res dhcpv4_packet :=
  if (len <? HDR)%nat then Fail
  else
    htype ← field HTYPE 1 p;
    hlen ← field HLEN 1 p;
    magic ← field MAGIC 4 p;
    if negb (bool_decide (htype = [1])) then Fail
    else if negb (bool_decide (hlen = [6])) then Fail
    else if negb (bool_decide (magic = DHCP_MAGIC)) then Fail
    else
      '(opts, ptr) ← parse_options (S (len - HDR)) (p_data p) HDR len [];
      if negb (dhcpv4_check_options opts) then Fail
      else
        p ← note_options opts (mk_pack (p_data p) opts (p_client_id p) (p_relay_agent p) (p_request_ip p) (p_server_id p) (p_msg_type p) (p_dst_addr p) ptr);
        if (p_msg_type p =? 0) || (8 <? p_msg_type p) then Fail else mret p.

(** [dhcpv4_packet_alloc]: the struct is cleared, its buffer has old contents [old]. *)
Definition dhcpv4_packet_alloc (old : list Z) : res dhcpv4_packet :=
  put_field MAGIC DHCP_MAGIC (mk_pack old [] None None zero4 zero4 0 zero4 HDR).

Definition dhcpv4_packet_find_opt (p : dhcpv4_packet) (type : Z) : option dhcpv4_option :=
  List.find (fun o => o_type o =? type) (p_options p).

(** [recvmsg] or [recv] into a new packet: at most [BUF_SIZE] bytes of a datagram. *)
Definition receive (old : list Z) (datagram : list Z) : res dhcpv4_packet :=
  p ← dhcpv4_packet_alloc old;
  p ← put_field 0 (take BUF_SIZE datagram) p;
  dhcpv4_parse_packet p (length (take BUF_SIZE datagram)).

(** What is passed to [recv], with the destination of the datagram. *)
Definition dhcpv4_read (old : list Z) (datagram dst : list Z) : res dhcpv4_packet :=
  p ← receive old datagram;
  op ← field OP 1 p;
  if negb (bool_decide (op = [DHCP_OP_REQUEST])) then Fail
  else mret (mk_pack (p_data p) (p_options p) (p_client_id p) (p_relay_agent p) (p_request_ip p) (p_server_id p) (p_msg_type p) dst (p_ptr p)).

(** The same from a DHCP server, for all sessions that wait. *)
Definition dhcpv4_relay_read (old : list Z) (datagram : list Z) : res dhcpv4_packet :=
  p ← receive old datagram;
  op ← field OP 1 p;
  if negb (bool_decide (op = [DHCP_OP_REPLY])) then Fail else mret p.

(** Option 82: where the length bytes of the circuit id, the remote id and the link selection are. *)
Fixpoint opt82_loop (fuel : nat) (data : list Z) (ptr endptr : nat) (ids : option nat * option nat * option nat)
    : res (option nat * option nat * option nat) :=
  match fuel with
  | O => Fail
  | S fuel =>
      if (ptr <? endptr)%nat then
        if (endptr <? ptr + 2)%nat then Fail
        else
          type ← res_of_option (data !! ptr);
          len ← res_of_option (data !! S ptr);
          if (endptr <? ptr + 2 + Z.to_nat len)%nat then Fail
          else
            let '(c, r, l) := ids in
            let ids := if type =? 1 then (Some (S ptr), r, l) else if type =? 2 then (c, Some (S ptr), l)
                       else if type =? 5 then (c, r, Some (S ptr)) else (c, r, l) in
            opt82_loop fuel data (ptr + 2 + Z.to_nat len) endptr ids
      else mret ids
  end.

Definition dhcpv4_parse_opt82 (data : list Z) (o : dhcpv4_option) : res (option nat * option nat * option nat) :=
  opt82_loop (S (Z.to_nat (o_len o))) data (o_data o) (o_data o + Z.to_nat (o_len o)) (None, None, None).

(** ** Building *)
Definition dhcpv4_packet_add_opt (type : Z) (bs : list Z) (p : dhcpv4_packet) : res dhcpv4_packet :=
  let len := length bs in
  if (Z.of_nat BUF_SIZE - Z.of_nat (p_ptr p) <? 2 + Z.of_nat len) then Fail
  else
    data ← splice (p_ptr p) ([u8 type; u8 (Z.of_nat len)] ++ bs) (p_data p);
    let o := mk_opt (u8 type) (u8 (Z.of_nat len)) (p_ptr p + 2) in
    mret (mk_pack data (p_options p ++ [o]) (p_client_id p) (if type =? 82 then Some o else p_relay_agent p)
            (p_request_ip p) (p_server_id p) (p_msg_type p) (p_dst_addr p) (p_ptr p + 2 + len)).

Definition dhcpv4_packet_add_opt_u8 (type val : Z) : dhcpv4_packet -> res dhcpv4_packet := dhcpv4_packet_add_opt type [u8 val].
Definition dhcpv4_packet_add_opt_u32 (type val : Z) : dhcpv4_packet -> res dhcpv4_packet := dhcpv4_packet_add_opt type (be_encode 4 (u32 val)).

(** [*pack->ptr++ = 255] *)
Definition end_options (p : dhcpv4_packet) : res dhcpv4_packet :=
  p' ← put_field (p_ptr p) [255] p; mret (set_ptr p' (S (p_ptr p))).

(** [dhcpv4_packet_insert_opt82]: [pton] is the address of [link_selection] when it is one;
    [_malloc] gives memory of any contents. *)
Definition opt82_data (old circuit_id : list Z) (remote_id pton : option (list Z)) : res (list Z) :=
  let len2 := match remote_id with Some r => length r | None => 0%nat end in
  let total := (length circuit_id + 2 + match remote_id with Some r => len2 + 2 | None => 0 end + match pton with Some _ => 6 | None => 0 end)%nat in
  data ← slice 0 total old;
  splice 0 ([1; u8 (Z.of_nat (length circuit_id))] ++ circuit_id ++
            (if (0 <? len2)%nat then [2; u8 (Z.of_nat len2)] ++ default [] remote_id else []) ++
            match pton with Some a => [5; 4] ++ a | None => [] end) data.

Definition dhcpv4_packet_insert_opt82 (old circuit_id : list Z) (remote_id pton : option (list Z)) (p : dhcpv4_packet) : res dhcpv4_packet :=
  let p := set_ptr p (p_ptr p - 1) in
  data ← opt82_data old circuit_id remote_id pton;
  p ← dhcpv4_packet_add_opt 82 data p;
  end_options p.

(** ** Checksums and frames *)

(** 16-bit words in memory order, an odd byte last. *)
Fixpoint word_sum (l : list Z) : Z :=
  match l with
  | a :: b :: l => a + 256 * b + word_sum l
  | [a] => a
  | [] => 0
  end.

Fixpoint fold_carries (fuel : nat) (sum : Z) : Z :=
  match fuel with
  | O => sum
  | S fuel => if Z.shiftr sum 16 =? 0 then sum else fold_carries fuel (Z.land sum 65535 + Z.shiftr sum 16)
  end.

(** A 32-bit sum has no carry left after two rounds. *)
Definition ip_csum (l : list Z) : Z := Z.land (Z.lnot (fold_carries 3 (u32 (word_sum l)))) 65535.

(** A [uint16_t] in memory. *)
Definition le16 (v : Z) : list Z := [v mod 256; v / 256 mod 256].

Definition ETH_P_IP : Z := 2048.
Definition IPPROTO_UDP : Z := 17.

(** [struct iphdr] without options; the two fields the code changes between the checksums are arguments. *)
Definition ip_header (first : list Z) (tot_len : Z) (ttl : Z) (check : list Z) (saddr daddr : list Z) : list Z :=
  first ++ be_encode 2 (u16 tot_len) ++ [0; 0; 0; 0] ++ [ttl; IPPROTO_UDP] ++ check ++ saddr ++ daddr.
Definition udp_header (dport len : Z) (check : list Z) : list Z :=
  be_encode 2 DHCP_SERV_PORT ++ be_encode 2 (u16 dport) ++ be_encode 2 (u16 len) ++ check.

(** [DHCP_F_BROADCAST]: the first bit of the field. *)
Definition broadcast (flags : list Z) : bool := match flags with b :: _ => 128 <=? b | [] => false end.

(** Padded to the length of a BOOTP packet. *)
Definition bootp_pad (l : list Z) : list Z := l ++ replicate (300 - length l) 0.

Inductive sent : Type :=
| Udp (bs : list Z) (addr : list Z) (port : Z)
| Raw (frame : list Z).

Definition bc_addr : list Z := replicate 6 255.

(** [sendto] gives the length of the frame, or -1 where [ok] is false; the code compares it with
    the length of the DHCP packet. *)
Definition dhcpv4_send_raw (hwaddr : list Z) (ok : bool) (p : dhcpv4_packet) (saddr daddr : list Z) (dport : Z) : res (Z * sent) :=
  body ← slice 0 (p_ptr p) (p_data p);
  flags ← field FLAGS 2 p;
  chaddr ← field CHADDR 6 p;
  let data := bootp_pad body in
  let len := Z.of_nat (length data) in
  let daddr := if broadcast flags then [255; 255; 255; 255] else daddr in
  let csum := ip_csum (ip_header [0; 0] (8 + len) 0 [0; 0] saddr daddr ++ udp_header dport (8 + len) [0; 0] ++ data) in
  let icsum := ip_csum (ip_header [69; 16] (20 + 8 + len) 128 [0; 0] saddr daddr) in
  let frame := (if broadcast flags then bc_addr else chaddr) ++ hwaddr ++ be_encode 2 ETH_P_IP ++
               ip_header [69; 16] (20 + 8 + len) 128 (le16 icsum) saddr daddr ++ udp_header dport (8 + len) (le16 csum) ++ data in
  let n := if ok then Z.of_nat (length frame) else -1 in
  mret (if n =? len then 0 else -1, Raw frame).

Definition dhcpv4_send_udp (ok : bool) (p : dhcpv4_packet) (ip : list Z) (port : Z) : res (Z * sent) :=
  body ← slice 0 (p_ptr p) (p_data p);
  let data := bootp_pad body in
  let n := if ok then Z.of_nat (length data) else -1 in
  mret (if n =? Z.of_nat (length data) then 0 else -1, Udp data ip port).

(** ** Replies *)
Record dhcp_conf : Type := mk_dhcp_conf {
  conf_dns1 : list Z;
  conf_dns2 : list Z;
  conf_wins1 : list Z;
  conf_wins2 : list Z
}.

(** [memcpy] of the request's header and the fields that are set. *)
Definition reply_header (req : dhcpv4_packet) (ciaddr yiaddr : list Z) (p : dhcpv4_packet) : res dhcpv4_packet :=
  hdr ← field 0 HDR req;
  p ← put_field 0 hdr p;
  p ← put_field OP [DHCP_OP_REPLY] p;
  p ← put_field YIADDR yiaddr p;
  p ← put_field CIADDR ciaddr p;
  put_field SIADDR zero4 p.

Fixpoint add_opts (opts : list (Z * list Z)) (p : dhcpv4_packet) : res dhcpv4_packet :=
  match opts with
  | [] => mret p
  | (t, bs) :: opts => p ← dhcpv4_packet_add_opt t bs p; add_opts opts p
  end.

(** [htonl(~((1 << (32 - mask)) - 1))] *)
Definition mask_bytes (mask : Z) : list Z := be_encode 4 (u32 (Z.lnot (Z.shiftl 1 (32 - mask) - 1))).

(** The options of a DHCP server's reply that are passed on. *)
Definition relayed (router : bool) (type : Z) : bool :=
  negb ((type =? 53) || (type =? 54) || (type =? 51) || (type =? 58) || (type =? 1) || ((type =? 3) && router) || (type =? 82)).

Fixpoint relay_opts (router : bool) (relay : dhcpv4_packet) (opts : list dhcpv4_option) : res (list (Z * list Z)) :=
  match opts with
  | [] => mret []
  | o :: opts =>
      if relayed router (o_type o) then
        bs ← opt_bytes relay o; rest ← relay_opts router relay opts; mret ((o_type o, bs) :: rest)
      else relay_opts router relay opts
  end.

Definition two_addrs (a b : list Z) : list Z := (if nonzero a then a else []) ++ (if nonzero b then b else []).

(** All options of a reply, in order: [req82] is option 82 of the request. *)
Definition reply_opts (cf : dhcp_conf) (msg_type : Z) (siaddr router : list Z) (mask lease_time renew_time rebind_time : Z)
    (relay : list (Z * list Z)) (req82 : option (list Z)) : list (Z * list Z) :=
  let has t := existsb (fun o => o.1 =? t) relay in
  let dns := two_addrs (conf_dns1 cf) (conf_dns2 cf) in
  let wins := two_addrs (conf_wins1 cf) (conf_wins2 cf) in
  [(53, [u8 msg_type]); (54, siaddr); (51, be_encode 4 (u32 lease_time))] ++
  (if renew_time =? 0 then [] else [(58, be_encode 4 (u32 renew_time))]) ++
  (if rebind_time =? 0 then [] else [(59, be_encode 4 (u32 rebind_time))]) ++
  (if nonzero router then [(3, router)] else []) ++
  [(1, mask_bytes mask)] ++
  relay ++
  (if has 6 || (length dns =? 0)%nat then [] else [(6, dns)]) ++
  (if has 44 || (length wins =? 0)%nat then [] else [(44, wins)]) ++
  match req82 with Some bs => [(82, bs)] | None => [] end.

(** What is sent where. *)
Definition dispatch (hwaddr : list Z) (ok : bool) (req p : dhcpv4_packet) (siaddr yiaddr : list Z) : res (Z * sent) :=
  giaddr ← field GIADDR 4 req;
  ciaddr ← field CIADDR 4 req;
  flags ← field FLAGS 2 p;
  if nonzero giaddr then dhcpv4_send_udp ok p giaddr DHCP_SERV_PORT
  else if nonzero ciaddr && negb (broadcast flags) then dhcpv4_send_udp ok p ciaddr DHCP_CLIENT_PORT
  else dhcpv4_send_raw hwaddr ok p siaddr yiaddr DHCP_CLIENT_PORT.

Definition build_reply (cf : dhcp_conf) (old : list Z) (msg_type : Z) (req : dhcpv4_packet) (yiaddr siaddr router : list Z)
    (mask lease_time renew_time rebind_time : Z) (relay : option dhcpv4_packet) : res dhcpv4_packet :=
  p ← dhcpv4_packet_alloc old;
  req_ciaddr ← field CIADDR 4 req;
  p ← reply_header req (if msg_type =? DHCPACK then req_ciaddr else zero4) yiaddr p;
  rel ← match relay with Some r => relay_opts (nonzero router) r (p_options r) | None => mret [] end;
  req82 ← match p_relay_agent req with Some o => bs ← opt_bytes req o; mret (Some bs) | None => mret None end;
  p ← add_opts (reply_opts cf msg_type siaddr router mask lease_time renew_time rebind_time rel req82) p;
  end_options p.

Definition dhcpv4_send_reply (cf : dhcp_conf) (old hwaddr : list Z) (ok : bool) (msg_type : Z) (req : dhcpv4_packet) (yiaddr siaddr router : list Z)
    (mask lease_time renew_time rebind_time : Z) (relay : option dhcpv4_packet) : res (Z * sent) :=
  p ← build_reply cf old msg_type req yiaddr siaddr router mask lease_time renew_time rebind_time relay;
  dispatch hwaddr ok req p siaddr yiaddr.

(** [err]: the text of option 56. *)
Definition dhcpv4_send_nak (old hwaddr : list Z) (ok : bool) (req : dhcpv4_packet) (err : option (list Z)) : res (Z * sent) :=
  siaddr ← field SIADDR 4 req;
  let server_id := if nonzero (p_server_id req) then p_server_id req else if nonzero siaddr then siaddr else p_dst_addr req in
  p ← dhcpv4_packet_alloc old;
  p ← reply_header req zero4 zero4 p;
  req82 ← match p_relay_agent req with Some o => bs ← opt_bytes req o; mret [(82, bs)] | None => mret [] end;
  p ← add_opts ([(53, [DHCPNAK])] ++ (if nonzero server_id then [(54, server_id)] else []) ++ req82 ++
                match err with Some t => [(56, t)] | None => [] end) p;
  p ← end_options p;
  giaddr ← field GIADDR 4 req;
  if nonzero giaddr then dhcpv4_send_udp ok p giaddr DHCP_SERV_PORT
  else dhcpv4_send_raw hwaddr ok p zero4 [255; 255; 255; 255] DHCP_CLIENT_PORT.

(** The notice to other servers; its result is not looked at. *)
Definition dhcpv4_send_notify (old hwaddr : list Z) (req : dhcpv4_packet) (weight : Z) : res sent :=
  p ← dhcpv4_packet_alloc old;
  hdr ← field 0 HDR req;
  p ← put_field 0 hdr p;
  p ← put_field FLAGS [128; 0] p;
  p ← put_field CIADDR zero4 p;
  p ← put_field YIADDR zero4 p;
  p ← put_field SIADDR zero4 p;
  p ← put_field GIADDR zero4 p;
  p ← add_opts [(53, [DHCPDISCOVER]); (43, be_encode 4 ACCEL_PPP_MAGIC ++ be_encode 4 (u32 weight) ++ hwaddr)] p;
  p ← end_options p;
  '(_, s) ← dhcpv4_send_raw hwaddr true p zero4 [255; 255; 255; 255] DHCP_SERV_PORT;
  mret s.

(** ** Relaying *)

(** [dhcpv4_relay_send]: the bytes written and the request as it is left. *)
Definition dhcpv4_relay_send (giaddr server_id : list Z) (old circuit_id : list Z) (remote_id : option (list Z)) (link_selection : bool)
    (pton : option (list Z)) (request : dhcpv4_packet) : res (list Z * dhcpv4_packet) :=
  req_giaddr ← field GIADDR 4 request;
  p ← (if negb (isset (p_relay_agent request)) && (isset remote_id || link_selection)
       then dhcpv4_packet_insert_opt82 old circuit_id remote_id pton request else mret request);
  p ← put_field GIADDR giaddr p;
  let o := if nonzero server_id then dhcpv4_packet_find_opt p 54 else None in
  saved ← match o with Some o => field (o_data o) 4 p | None => mret [] end;
  p ← match o with Some o => put_field (o_data o) server_id p | None => mret p end;
  p ← put_field (p_ptr p) (replicate (300 - p_ptr p) 0) p;
  bs ← slice 0 (Nat.max (p_ptr p) 300) (p_data p);
  p ← put_field GIADDR req_giaddr p;
  p ← match o with Some o => put_field (o_data o) saved p | None => mret p end;
  mret (bs, p).

(** [client_id] and [relay_agent] are the data of the session's copies. *)
Definition dhcpv4_relay_send_release (giaddr chaddr xid ciaddr : list Z) (client_id relay_agent : option (list Z))
    (old heap circuit_id : list Z) (remote_id : option (list Z)) (link_selection : bool) (pton : option (list Z)) : res (list Z) :=
  p ← dhcpv4_packet_alloc old;
  p ← put_field 0 (replicate HDR 0) p;
  p ← put_field OP [DHCP_OP_REQUEST] p;
  p ← put_field HTYPE [1] p;
  p ← put_field HLEN [6] p;
  p ← put_field CIADDR ciaddr p;
  p ← put_field GIADDR giaddr p;
  p ← put_field XID xid p;
  p ← put_field MAGIC DHCP_MAGIC p;
  p ← put_field CHADDR chaddr p;
  p ← add_opts ([(53, [DHCPRELEASE])] ++ match client_id with Some b => [(61, b)] | None => [] end ++
                match relay_agent with Some b => [(82, b)] | None => [] end) p;
  p ← (if negb (isset relay_agent) && (isset remote_id || link_selection) then
         p ← dhcpv4_packet_insert_opt82 heap circuit_id remote_id pton (set_ptr p (S (p_ptr p)));
         mret (set_ptr p (p_ptr p - 1))
       else mret p);
  p ← end_options p;
  p ← put_field (p_ptr p) (replicate (300 - p_ptr p) 0) p;
  slice 0 (Nat.max (p_ptr p) 300) (p_data p).

(** A relay is shared by the contexts of its interfaces; it is there as long as one of them uses it. *)
Record dhcpv4_relay : Type := mk_relay {
  rl_addr : Z;
  rl_giaddr : Z;
  rl_ctxs : list nat
}.

(** [dhcpv4_relay_create]; [made] is false where the socket cannot be had. *)
Fixpoint relay_join (addr giaddr : Z) (ctx : nat) (l : list dhcpv4_relay) : option (list dhcpv4_relay) :=
  match l with
  | [] => None
  | r :: l =>
      if (rl_addr r =? addr) && (rl_giaddr r =? giaddr) then Some (mk_relay addr giaddr (rl_ctxs r ++ [ctx]) :: l)
      else l' ← relay_join addr giaddr ctx l; Some (r :: l')
  end.
Definition dhcpv4_relay_create (addr giaddr : Z) (made : bool) (ctx : nat) (l : list dhcpv4_relay) : option (list dhcpv4_relay) :=
  match relay_join addr giaddr ctx l with
  | Some l' => Some l'
  | None => if made then Some (l ++ [mk_relay addr giaddr [ctx]]) else None
  end.

Fixpoint remove_ctx (ctx : nat) (l : list nat) : list nat :=
  match l with [] => [] | c :: l => if (c =? ctx)%nat then l else c :: remove_ctx ctx l end.

(** [dhcpv4_relay_free]: the second result is the call of [__dhcpv4_relay_free] that closes the socket. *)
Fixpoint dhcpv4_relay_free (addr giaddr : Z) (ctx : nat) (l : list dhcpv4_relay) : list dhcpv4_relay * bool :=
  match l with
  | [] => ([], false)
  | r :: l =>
      if (rl_addr r =? addr) && (rl_giaddr r =? giaddr) then
        match remove_ctx ctx (rl_ctxs r) with
        | [] => (l, true)
        | ctxs => (mk_relay addr giaddr ctxs :: l, false)
        end
      else let '(l', b) := dhcpv4_relay_free addr giaddr ctx l in (r :: l', b)
  end.

(** ** Options of RADIUS replies *)

(** An attribute: of the DHCP vendor, its number, declared as array, its value. *)
Record rad_attr : Type := mk_rad_attr {
  ra_dhcp : bool;
  ra_id : Z;
  ra_array : bool;
  ra_raw : list Z
}.

(** An option to be, with the values appended to it. *)
Fixpoint clone_add (a : rad_attr) (opts : list (Z * list (list Z))) : option (list (Z * list (list Z))) :=
  match opts with
  | [] => None
  | (t, l) :: opts => if t =? ra_id a then Some ((t, l ++ [ra_raw a]) :: opts) else rest ← clone_add a opts; Some ((t, l) :: rest)
  end.

Fixpoint clone_collect (attrs : list rad_attr) (ptr : nat) (opts : list (Z * list (list Z))) : res (list (Z * list (list Z))) :=
  match attrs with
  | [] => mret opts
  | a :: attrs =>
      if ra_dhcp a && (ra_id a <? 256) then
        if (BUF_SIZE <=? ptr + length (ra_raw a))%nat then Fail
        else
          let opts := match (if ra_array a then clone_add a opts else None) with
                      | Some o => o
                      | None => opts ++ [(ra_id a, [ra_raw a])]
                      end in
          clone_collect attrs (ptr + length (ra_raw a)) opts
      else clone_collect attrs ptr opts
  end.

(** The values are copied one after the other; lengths are bytes. *)
Fixpoint clone_copy (opts : list (Z * list (list Z))) (ptr : nat) (p : dhcpv4_packet) : res dhcpv4_packet :=
  match opts with
  | [] => mret p
  | (t, l) :: opts =>
      p ← put_field ptr (concat l) p;
      let o := mk_opt (u8 t) (u8 (Z.of_nat (length (concat l)))) ptr in
      clone_copy opts (ptr + length (concat l))
        (mk_pack (p_data p) (p_options p ++ [o]) (p_client_id p) (p_relay_agent p) (p_request_ip p) (p_server_id p) (p_msg_type p) (p_dst_addr p) (p_ptr p))
  end.

Definition dhcpv4_clone_radius (old : list Z) (attrs : list rad_attr) : res dhcpv4_packet :=
  p ← dhcpv4_packet_alloc old;
  opts ← clone_collect attrs 0 [];
  clone_copy opts 0 p.

(** ** Vocabulary of the theorems *)

(** An option lies inside the first [len] bytes, after the header. *)
Definition opt_in (len : nat) (o : dhcpv4_option) : Prop :=
  (HDR + 2 <= o_data o)%nat /\ (o_data o + Z.to_nat (o_len o) <= len)%nat /\ 0 < o_type o < 255 /\ 0 <= o_len o < 256.

(** What reception guarantees of a packet of [len] bytes. *)
Definition received (len : nat) (p : dhcpv4_packet) : Prop :=
  length (p_data p) = BUF_SIZE /\ bytes_ok (p_data p) /\ (HDR <= len <= BUF_SIZE)%nat /\
  Forall (opt_in len) (p_options p) /\ dhcpv4_check_options (p_options p) = true /\
  (forall o, p_client_id p = Some o -> o ∈ p_options p) /\ (forall o, p_relay_agent p = Some o -> o ∈ p_options p /\ o_type o = 82) /\
  0 < p_msg_type p <= 8 /\ (HDR <= p_ptr p <= len)%nat /\
  field HTYPE 1 p = Ok [1] /\ field HLEN 1 p = Ok [6] /\ field MAGIC 4 p = Ok DHCP_MAGIC.

(** Options as types and contents. *)
Definition contents (data : list Z) (o : dhcpv4_option) : Z * list Z := (o_type o, take (Z.to_nat (o_len o)) (drop (o_data o) data)).

(** An option that reception accepts. *)
Definition valid_opt (o : Z * list Z) : Prop :=
  0 < o.1 < 255 /\ (length o.2 < 256)%nat /\ bytes_ok o.2 /\ check_option o.1 (Z.of_nat (length o.2)) = true.

(** The bytes of options. *)
Definition wire_opt (o : Z * list Z) : list Z := [o.1; Z.of_nat (length o.2)] ++ o.2.
Definition wire (opts : list (Z * list Z)) : list Z := concat (map wire_opt opts).

(** ** Reception *)
Lemma lookup_byte data i : bytes_ok data -> (i < length data)%nat -> exists b, data !! i = Some b /\ 0 <= b < 256.
Proof.
  intros B H. destruct (lookup_lt_is_Some_2 data i H) as [b E]. exists b. split; [done|]. exact (proj1 (Forall_lookup _ _) B i b E).
Qed.

Lemma parse_options_safe fuel data ptr endptr opts :
  bytes_ok data -> (endptr <= length data)%nat -> (HDR <= ptr <= endptr)%nat -> Forall (opt_in endptr) opts ->
  safe (fun r => Forall (opt_in endptr) r.1 /\ (HDR <= r.2 <= endptr)%nat) (parse_options fuel data ptr endptr opts).
Proof.
  intros B L. revert ptr opts. induction fuel as [|fuel IH]; intros ptr opts P F; cbn [parse_options]; [done|].
  destruct (Nat.ltb_spec ptr endptr); [|done].
  destruct (lookup_byte data ptr B ltac:(lia)) as (t & -> & Ht). cbn [res_of_option mbind res_bind].
  destruct (Z.eqb_spec t 0); [apply IH; [lia|done]|]. destruct (Z.eqb_spec t 255); [cbn; split; [done|lia]|].
  destruct (Nat.ltb_spec endptr (ptr + 2)); [done|].
  destruct (lookup_byte data (S ptr) B ltac:(lia)) as (len & -> & Hn). cbn [res_of_option mbind res_bind].
  destruct (Nat.ltb_spec endptr (ptr + 2 + Z.to_nat len)); [done|]. apply IH; [lia|].
  apply Forall_app. split; [done|]. apply Forall_singleton. unfold opt_in. cbn [o_data o_len o_type]. lia.
Qed.

(** The fuel is enough: each round passes a byte. *)
Lemma parse_options_fuel f1 f2 data ptr endptr opts :
  (endptr - ptr < f1)%nat -> (endptr - ptr < f2)%nat -> parse_options f1 data ptr endptr opts = parse_options f2 data ptr endptr opts.
Proof.
  revert f2 ptr opts. induction f1 as [|f1 IH]; intros f2 ptr opts H1 H2; [lia|]. destruct f2 as [|f2]; [lia|]. cbn [parse_options].
  destruct (Nat.ltb_spec ptr endptr); [|done]. destruct (data !! ptr) as [t|]; [|done]. cbn [res_of_option mbind res_bind].
  destruct (t =? 0); [apply IH; lia|]. destruct (t =? 255); [done|]. destruct (Nat.ltb_spec endptr (ptr + 2)); [done|].
  destruct (data !! S ptr) as [n|]; [|done]. cbn [res_of_option mbind res_bind].
  destruct (Nat.ltb_spec endptr (ptr + 2 + Z.to_nat n)); [done|]. apply IH; lia.
Qed.

Lemma checked_length len opts o :
  Forall (opt_in len) opts -> dhcpv4_check_options opts = true -> o ∈ opts ->
  (o_type o = 53 -> o_len o = 1) /\ (o_type o = 50 \/ o_type o = 54 -> o_len o = 4).
Proof.
  intros F C E. unfold dhcpv4_check_options in C. rewrite forallb_forall in C.
  specialize (C o (proj1 (list_elem_of_In _ _) E)). unfold check_option in C. split; [intros T|intros [T|T]]; rewrite T in C; cbn in C; bools; lia.
Qed.

(** [note_options] changes what it notes only. *)
Lemma note_options_safe len all opts p :
  (len <= length (p_data p))%nat -> bytes_ok (p_data p) -> Forall (opt_in len) all -> dhcpv4_check_options all = true -> (forall o, o ∈ opts -> o ∈ all) ->
  (forall o, p_client_id p = Some o -> o ∈ all) -> (forall o, p_relay_agent p = Some o -> o ∈ all /\ o_type o = 82) -> 0 <= p_msg_type p ->
  exists q, note_options opts p = Ok q /\ p_data q = p_data p /\ p_options q = p_options p /\ p_ptr q = p_ptr p /\ p_dst_addr q = p_dst_addr p /\ 0 <= p_msg_type q /\
    (forall o, p_client_id q = Some o -> o ∈ all) /\ (forall o, p_relay_agent q = Some o -> o ∈ all /\ o_type o = 82).
Proof.
  intros L B F C. revert p L B. induction opts as [|o opts IH]; intros p L B Hin Hc Hr Hm; cbn [note_options]; [exists p; done|].
  assert (Ho : o ∈ all) by (apply Hin; left). destruct (checked_length len all o F C Ho) as [C53 C4].
  pose proof (proj1 (Forall_forall _ _) F o Ho) as (_ & Hl & _ & Hn).
  assert (R : forall n, Z.of_nat n <= o_len o -> exists b, field (o_data o) n p = Ok b /\ 0 <= be_decode b).
  { intros n H. unfold field. rewrite slice_ok by lia. eexists. split; [done|]. apply be_decode_range. auto with accel. }
  assert (Next : forall p', p_data p' = p_data p -> p_options p' = p_options p -> p_ptr p' = p_ptr p -> p_dst_addr p' = p_dst_addr p -> 0 <= p_msg_type p' ->
    (forall o, p_client_id p' = Some o -> o ∈ all) -> (forall o, p_relay_agent p' = Some o -> o ∈ all /\ o_type o = 82) ->
    exists q, note_options opts p' = Ok q /\ p_data q = p_data p /\ p_options q = p_options p /\ p_ptr q = p_ptr p /\ p_dst_addr q = p_dst_addr p /\ 0 <= p_msg_type q /\
      (forall o, p_client_id q = Some o -> o ∈ all) /\ (forall o, p_relay_agent q = Some o -> o ∈ all /\ o_type o = 82)).
  { intros p' E1 E2 E3 E4 M Hc' Hr'. destruct (IH p') as (q & Eq & D & O' & P & A & R'); rewrite ?E1; try done.
    { intros x Hx. apply Hin. now right. } exists q. split_and!; try done; try congruence; apply R'. }
  unfold note_option.
  destruct (Z.eqb_spec (o_type o) 53) as [E|]; [destruct (R 1%nat) as (b & -> & Hb); [rewrite C53 by done; lia|]; cbn [mbind res_bind]; now apply Next|].
  destruct (Z.eqb_spec (o_type o) 82); [cbn [mbind res_bind]; apply Next; try done; cbn; intros x [= <-]; done|].
  destruct (Z.eqb_spec (o_type o) 62); [cbn [mbind res_bind]; apply Next; try done; cbn; intros x [= <-]; done|].
  destruct (Z.eqb_spec (o_type o) 50) as [E|]; [destruct (R 4%nat) as (b & -> & Hb); [rewrite C4 by auto; lia|]; cbn [mbind res_bind]; now apply Next|].
  destruct (Z.eqb_spec (o_type o) 54) as [E|]; [destruct (R 4%nat) as (b & -> & Hb); [rewrite C4 by auto; lia|]; cbn [mbind res_bind]; now apply Next|].
  cbn [mbind res_bind]. now apply Next.
Qed.

(** A packet as [dhcpv4_packet_alloc] makes it, with any bytes received into it. *)
Definition fresh (p : dhcpv4_packet) : Prop :=
  length (p_data p) = BUF_SIZE /\ bytes_ok (p_data p) /\ p_client_id p = None /\ p_relay_agent p = None /\ p_msg_type p = 0.

Lemma parse_packet_safe p len :
  fresh p -> (len <= BUF_SIZE)%nat ->
  safe (fun q => received len q /\ p_data q = p_data p) (dhcpv4_parse_packet p len).
Proof.
  intros (L & B & Hc & Hr & Hm) Hl. unfold dhcpv4_parse_packet. destruct (Nat.ltb_spec len HDR) as [|H]; [done|].
  assert (R : forall off n, (off + n <= HDR)%nat -> field off n p = Ok (take n (drop off (p_data p)))).
  { intros off n Ho. unfold field. rewrite slice_ok by lia. done. }
  rewrite !R by (unfold HTYPE, HLEN, MAGIC, HDR; lia). cbn [mbind res_bind].
  destruct (bool_decide _) eqn:E1; [|done]. destruct (bool_decide (take 1 (drop HLEN _) = _)) eqn:E2; [|done].
  destruct (bool_decide (take 4 _ = _)) eqn:E3; [|done]. cbn [negb].
  apply bool_decide_eq_true in E1, E2, E3.
  pose proof (parse_options_safe (S (len - HDR)) (p_data p) HDR len [] B ltac:(lia) ltac:(lia) (Forall_nil_2 _)) as S.
  destruct (parse_options _ _ _ _ _) as [[opts ptr]| |]; [|done..]. destruct S as [F P]. cbn in F, P. cbn [mbind res_bind].
  destruct (dhcpv4_check_options opts) eqn:C; [|done]. cbn [negb].
  set (p1 := mk_pack _ opts _ _ _ _ _ _ _).
  destruct (note_options_safe len opts opts p1) as (q & -> & D & O' & Pq & A & M & Qc & Qr);
    try done; cbn; rewrite ?Hc, ?Hr, ?Hm; try done; [lia|].
  cbn [mbind res_bind]. destruct (Z.eqb_spec (p_msg_type q) 0); [done|]. destruct (Z.ltb_spec 8 (p_msg_type q)); [done|]. cbn.
  split; [|exact D]. unfold received, field. rewrite D, O', Pq. cbn [p_data p_options p_ptr p1].
  split_and!; try done; try lia; fold (field HTYPE 1 p) (field HLEN 1 p) (field MAGIC 4 p);
    rewrite R by (unfold HTYPE, HLEN, MAGIC, HDR; lia); congruence.
Qed.

(** Writing a field of a packet. *)
Lemma put_field_ok off bs p :
  (off + length bs <= length (p_data p))%nat ->
  exists d, put_field off bs p = Ok (set_data p d) /\ splice off bs (p_data p) = Ok d /\ length d = length (p_data p).
Proof.
  intros H. unfold put_field. rewrite splice_ok by done. eexists. split; [reflexivity|]. split; [done|].
  rewrite !length_app, length_take, length_drop. lia.
Qed.

Lemma dhcp_alloc_ok old : length old = BUF_SIZE -> bytes_ok old ->
  exists d, dhcpv4_packet_alloc old = Ok (mk_pack d [] None None zero4 zero4 0 zero4 HDR) /\ length d = BUF_SIZE /\ bytes_ok d.
Proof.
  intros L B. unfold dhcpv4_packet_alloc.
  destruct (put_field_ok MAGIC DHCP_MAGIC (mk_pack old [] None None zero4 zero4 0 zero4 HDR)) as (d & -> & S & Ld);
    [cbn [p_data DHCP_MAGIC length]; rewrite L; unfold MAGIC, BUF_SIZE; lia|].
  exists d. split; [done|]. cbn in S, Ld. split; [congruence|]. eapply splice_bytes; eauto. bytes_lit.
Qed.

Lemma receive_safe old datagram :
  length old = BUF_SIZE -> bytes_ok old -> bytes_ok datagram -> safe (received (length (take BUF_SIZE datagram))) (receive old datagram).
Proof.
  intros L B Bd. unfold receive. destruct (dhcp_alloc_ok old L B) as (d0 & -> & L0 & B0). rewrite bind_ok.
  assert (Lt : (length (take BUF_SIZE datagram) <= BUF_SIZE)%nat) by (rewrite length_take; lia).
  set (bs := take BUF_SIZE datagram) in *. assert (Bb : bytes_ok bs) by (now apply bytes_ok_take).
  match goal with |- context [put_field 0 bs ?x] => destruct (put_field_ok 0 bs x) as (d & -> & Sd & Ld) end; [cbn [p_data]; lia|]. rewrite bind_ok.
  match goal with |- context [dhcpv4_parse_packet ?x _] => set (p := x) end. cbn [p_data] in Sd, Ld.
  assert (F : fresh p) by (unfold fresh, p; cbn [set_data p_data p_client_id p_relay_agent p_msg_type]; split_and!; [lia|eapply splice_bytes; eauto|done..]).
  pose proof (parse_packet_safe p _ F Lt) as S. destruct (dhcpv4_parse_packet p _) as [q| |]; [|done..]. apply S.
Qed.

Lemma received_field len p off n : received len p -> (off + n <= BUF_SIZE)%nat -> field off n p = Ok (take n (drop off (p_data p))).
Proof. intros (L & _) H. unfold field. apply slice_ok. lia. Qed.

(** Option 82 of a received packet: the positions found are those of length bytes inside it, and the
    bytes these announce are inside, too. *)
Definition id_in (data : list Z) (endptr : nat) (i : option nat) : Prop :=
  forall k, i = Some k -> exists n, data !! k = Some n /\ 0 <= n < 256 /\ (k + 1 + Z.to_nat n <= endptr)%nat.
Definition ids_in (data : list Z) (endptr : nat) (ids : option nat * option nat * option nat) : Prop :=
  id_in data endptr ids.1.1 /\ id_in data endptr ids.1.2 /\ id_in data endptr ids.2.

Lemma opt82_loop_fuel f1 f2 data ptr endptr ids :
  (endptr - ptr < f1)%nat -> (endptr - ptr < f2)%nat -> opt82_loop f1 data ptr endptr ids = opt82_loop f2 data ptr endptr ids.
Proof.
  revert f2 ptr ids. induction f1 as [|f1 IH]; intros f2 ptr ids H1 H2; [lia|]. destruct f2 as [|f2]; [lia|]. cbn [opt82_loop].
  destruct (Nat.ltb_spec ptr endptr); [|done]. destruct (Nat.ltb_spec endptr (ptr + 2)); [done|]. destruct (data !! ptr) as [t|]; [|done].
  destruct (data !! S ptr) as [n|]; [|done]. cbn [res_of_option mbind res_bind].
  destruct (Nat.ltb_spec endptr (ptr + 2 + Z.to_nat n)); [done|]. destruct ids as [[c r] l]. apply IH; lia.
Qed.

Lemma opt82_loop_safe fuel data ptr endptr ids :
  bytes_ok data -> (endptr <= length data)%nat -> ids_in data endptr ids -> safe (ids_in data endptr) (opt82_loop fuel data ptr endptr ids).
Proof.
  intros B L. revert ptr ids. induction fuel as [|fuel IH]; intros ptr ids I; cbn [opt82_loop]; [done|].
  destruct (Nat.ltb_spec ptr endptr); [|done]. destruct (Nat.ltb_spec endptr (ptr + 2)); [done|].
  destruct (lookup_byte data ptr B ltac:(lia)) as (t & -> & Ht). cbn [res_of_option mbind res_bind].
  destruct (lookup_byte data (S ptr) B ltac:(lia)) as (n & En & Hn). rewrite En. cbn [res_of_option mbind res_bind].
  destruct (Nat.ltb_spec endptr (ptr + 2 + Z.to_nat n)); [done|]. destruct ids as [[c r] l].
  assert (Hnew : id_in data endptr (Some (S ptr))) by (intros k [= <-]; exists n; split_and!; [done|lia..]).
  destruct I as (Ic & Ir & Il). cbn [fst snd] in *.
  apply IH. repeat case_match; unfold ids_in; cbn [fst snd]; auto.
Qed.

Lemma parse_opt82_safe len p o :
  received len p -> o ∈ p_options p -> safe (ids_in (p_data p) len) (dhcpv4_parse_opt82 (p_data p) o).
Proof.
  intros R Ho. pose proof R as (L & B & Hl & F & _). pose proof (proj1 (Forall_forall _ _) F o Ho) as (_ & Hi & _).
  assert (S : safe (ids_in (p_data p) (o_data o + Z.to_nat (o_len o))) (dhcpv4_parse_opt82 (p_data p) o)).
  { apply opt82_loop_safe; [done|lia|]. split_and!; intros k; done. }
  destruct (dhcpv4_parse_opt82 _ _) as [ids| |]; [|done..]. destruct S as (S1 & S2 & S3).
  split_and!; intros k E; [destruct (S1 k E) as (n & ? & ? & ?)|destruct (S2 k E) as (n & ? & ? & ?)|destruct (S3 k E) as (n & ? & ? & ?)];
    exists n; split_and!; done || lia.
Qed.

(** C22. Any datagram of any bytes, from a client or from a DHCP server: no read leaves the buffer, and what is
    accepted has all its options inside the bytes received, with the lengths the code relies on later; the
    parts of its option 82 are inside it, too. *)
Theorem dhcpv4_recv_safe old datagram dst :
  length old = BUF_SIZE -> bytes_ok old -> bytes_ok datagram ->
  let ok p := received (length (take BUF_SIZE datagram)) p /\
    forall o, p_relay_agent p = Some o -> safe (ids_in (p_data p) (length (take BUF_SIZE datagram))) (dhcpv4_parse_opt82 (p_data p) o) in
  safe ok (dhcpv4_read old datagram dst) /\ safe ok (dhcpv4_relay_read old datagram).
Proof.
  intros L B Bd ok. pose proof (receive_safe old datagram L B Bd) as S. unfold dhcpv4_read, dhcpv4_relay_read.
  destruct (receive old datagram) as [p| |]; [|done..]. rewrite !bind_ok.
  rewrite !(received_field _ _ OP 1 S), !bind_ok by (unfold OP, BUF_SIZE; lia).
  assert (K : forall q, p_data q = p_data p -> p_options q = p_options p -> p_relay_agent q = p_relay_agent p -> received (length (take BUF_SIZE datagram)) q -> ok q).
  { intros q E1 E2 E3 R. split; [done|]. intros o Eo. apply (parse_opt82_safe _ q o R). apply R. done. }
  split; destruct (negb _); try done; (apply K; [done..|exact S]).
Qed.

(** ** Building *)
Lemma wire_length_app a b : wire (a ++ b) = wire a ++ wire b.
Proof. unfold wire. now rewrite map_app, concat_app. Qed.

(** The options as they lie in the buffer from [off] on. *)
Fixpoint located (off : nat) (opts : list (Z * list Z)) : list dhcpv4_option :=
  match opts with
  | [] => []
  | (t, bs) :: opts => mk_opt t (Z.of_nat (length bs)) (off + 2) :: located (off + 2 + length bs) opts
  end.

Definition small_opt (o : Z * list Z) : Prop := 0 <= o.1 < 256 /\ (length o.2 < 256)%nat.

Lemma add_opts_spec opts p pre :
  Forall small_opt opts -> length (p_data p) = BUF_SIZE -> take (p_ptr p) (p_data p) = pre -> (p_ptr p <= BUF_SIZE)%nat ->
  if (p_ptr p + length (wire opts) <=? BUF_SIZE)%nat then
    exists q, add_opts opts p = Ok q /\ length (p_data q) = BUF_SIZE /\ p_ptr q = (p_ptr p + length (wire opts))%nat /\
      take (p_ptr q) (p_data q) = pre ++ wire opts /\ p_options q = p_options p ++ located (p_ptr p) opts
  else add_opts opts p = Fail.
Proof.
  intros F. revert p pre. induction F as [|[t bs] opts [Ht Hb] F IH]; intros p pre L T P; cbn [add_opts].
  - cbn [wire map concat length]. rewrite Nat.add_0_r. destruct (Nat.leb_spec (p_ptr p) BUF_SIZE); [|lia].
    exists p. cbn [located]. rewrite !app_nil_r. done.
  - change (wire ((t, bs) :: opts)) with (wire_opt (t, bs) ++ wire opts).
    rewrite length_app. assert (Lw : length (wire_opt (t, bs)) = (2 + length bs)%nat) by done. rewrite Lw.
    unfold dhcpv4_packet_add_opt. cbn in Ht, Hb.
    destruct (Z.ltb_spec (Z.of_nat BUF_SIZE - Z.of_nat (p_ptr p)) (2 + Z.of_nat (length bs))).
    { cbn [mbind res_bind]. destruct (Nat.leb_spec (p_ptr p + (2 + length bs + length (wire opts))) BUF_SIZE); [lia|done]. }
    rewrite (u8_small t), (u8_small (Z.of_nat (length bs))) by lia.
    change ([t; Z.of_nat (length bs)] ++ bs) with (wire_opt (t, bs)).
    rewrite splice_ok by lia. cbn [mbind res_bind mret res_ret].
    set (q := mk_pack _ _ _ _ _ _ _ _ _).
    specialize (IH q (pre ++ wire_opt (t, bs))).
    assert (Lq : length (p_data q) = BUF_SIZE).
    { unfold q. cbn [p_data]. rewrite !length_app, length_take, length_drop. lia. }
    assert (Tq : take (p_ptr q) (p_data q) = pre ++ wire_opt (t, bs)).
    { unfold q. cbn [p_data p_ptr]. rewrite T, app_assoc. rewrite take_app_length'; [done|].
      rewrite length_app, Lw, <- T, length_take. lia. }
    specialize (IH Lq Tq ltac:(unfold q; cbn [p_ptr]; lia)).
    assert (Eq : p_ptr q = (p_ptr p + 2 + length bs)%nat) by done. rewrite Eq in IH.
    replace (p_ptr p + (2 + length bs + length (wire opts)))%nat with (p_ptr p + 2 + length bs + length (wire opts))%nat by lia.
    destruct (_ <=? _)%nat; [|done]. destruct IH as (q' & -> & Lq' & Pq' & Tq' & Oq').
    exists q'. split_and!; try done.
    + rewrite Tq', <- app_assoc. done.
    + rewrite Oq'. unfold q. cbn [p_options]. rewrite <- app_assoc. done.
Qed.

Lemma contents_located pre opts post :
  Forall small_opt opts -> map (contents (pre ++ wire opts ++ post)) (located (length pre) opts) = opts.
Proof.
  intros F. revert pre. induction F as [|[t bs] opts [Ht Hb] F IH]; intros pre; cbn [located map]; [done|].
  change (wire ((t, bs) :: opts)) with (([t; Z.of_nat (length bs)] ++ bs) ++ wire opts). f_equal.
  - unfold contents. cbn [o_type o_len o_data]. rewrite Nat2Z.id, <- drop_drop, drop_app_length. rewrite <- !app_assoc. cbn [app skipn].
    now rewrite drop_0, take_app_length.
  - specialize (IH (pre ++ [t; Z.of_nat (length bs)] ++ bs)). rewrite !length_app in IH. cbn [length] in IH.
    rewrite <- !app_assoc in *. replace (length pre + 2 + length bs)%nat with (length pre + (2 + length bs))%nat by lia. exact IH.
Qed.

(** Options are read back as they were written. *)
Lemma parse_wire fuel (pre : list Z) opts (post : list Z) endptr acc :
  Forall (fun o => 0 < o.1 < 255 /\ (length o.2 < 256)%nat) opts ->
  (length pre + length (wire opts) < endptr)%nat -> (endptr <= length (pre ++ wire opts ++ 255%Z :: post))%nat -> (endptr - length pre < fuel)%nat ->
  parse_options fuel (pre ++ wire opts ++ 255 :: post) (length pre) endptr acc = Ok (acc ++ located (length pre) opts, S (length pre + length (wire opts))).
Proof.
  intros F. revert pre fuel acc. induction F as [|[t bs] opts [Ht Hb] F IH]; intros pre fuel acc He Hl Hf; (destruct fuel as [|fuel]; [lia|]); cbn [parse_options].
  - cbn [wire map concat length] in *. destruct (Nat.ltb_spec (length pre) endptr); [|lia].
    cbn [app]. rewrite (list_lookup_middle pre _ _ (length pre) eq_refl). cbn. now rewrite app_nil_r, Nat.add_0_r.
  - change (wire ((t, bs) :: opts)) with ([t; Z.of_nat (length bs)] ++ bs ++ wire opts) in *.
    rewrite !length_app in *. cbn [length] in *. cbn in Ht, Hb.
    destruct (Nat.ltb_spec (length pre) endptr); [|lia].
    rewrite <- !app_assoc. cbn [app]. rewrite (list_lookup_middle pre _ _ (length pre) eq_refl). cbn [res_of_option mbind res_bind].
    destruct (Z.eqb_spec t 0); [lia|]. destruct (Z.eqb_spec t 255); [lia|].
    destruct (Nat.ltb_spec endptr (length pre + 2)); [lia|].
    assert (E1 : (pre ++ t :: Z.of_nat (length bs) :: bs ++ wire opts ++ 255 :: post) !! S (length pre) = Some (Z.of_nat (length bs))).
    { replace (pre ++ t :: Z.of_nat (length bs) :: bs ++ wire opts ++ 255 :: post) with ((pre ++ [t]) ++ Z.of_nat (length bs) :: bs ++ wire opts ++ 255 :: post) by (now rewrite <- app_assoc).
      apply list_lookup_middle. rewrite length_app. cbn. lia. }
    rewrite E1. cbn [res_of_option mbind res_bind]. rewrite Nat2Z.id.
    destruct (Nat.ltb_spec endptr (length pre + 2 + length bs)); [lia|].
    specialize (IH (pre ++ [t; Z.of_nat (length bs)] ++ bs) fuel (acc ++ [mk_opt t (Z.of_nat (length bs)) (length pre + 2)])).
    rewrite !length_app, <- !app_assoc in IH. cbn [length app] in IH.
    replace (length pre + 2 + length bs)%nat with (length pre + (2 + length bs))%nat by lia. rewrite IH by (rewrite ?length_app in *; cbn in *; lia).
    f_equal. f_equal; [|lia]. cbn [located]. replace (length pre + 2 + length bs)%nat with (length pre + (2 + length bs))%nat by lia. done.
Qed.

(** ** Headers *)

(** One after the other. *)
Fixpoint put_fields (fs : list (nat * list Z)) (d : list Z) : res (list Z) :=
  match fs with [] => mret d | (off, bs) :: fs => d ← splice off bs d; put_fields fs d end.

Lemma put_fields_ok fs d :
  Forall (fun f => f.1 + length f.2 <= length d)%nat fs -> exists d', put_fields fs d = Ok d' /\ length d' = length d.
Proof.
  intros F. revert d F. induction fs as [|[off bs] fs IH]; intros d F; cbn [put_fields]; [eauto|].
  apply Forall_cons in F as [H F]. cbn in H. rewrite splice_ok by done. cbn [mbind res_bind].
  match goal with |- context [put_fields fs ?x] => destruct (IH x) as (d' & -> & L) end.
  - rewrite !length_app, length_take, length_drop. replace (_ + (_ + _))%nat with (length d) by lia. done.
  - exists d'. split; [done|]. rewrite L, !length_app, length_take, length_drop. lia.
Qed.

(** The last write to a field is what is read; other fields are as before. *)
Fixpoint last_write (off n : nat) (fs : list (nat * list Z)) (old : res (list Z)) : option (res (list Z)) :=
  match fs with
  | [] => Some old
  | (o, bs) :: fs =>
      if decide (o = off /\ length bs = n) then last_write off n fs (Ok bs)
      else if decide (off + n <= o \/ o + length bs <= off)%nat then last_write off n fs old else None
  end.

Lemma put_fields_read off n fs d d' r : put_fields fs d = Ok d' -> last_write off n fs (slice off n d) = Some r -> slice off n d' = r.
Proof.
  revert d. induction fs as [|[o bs] fs IH]; intros d; cbn [put_fields last_write]; [intros [= <-] [= <-]; done|].
  destruct (splice o bs d) as [d1| |] eqn:E; [|done..]. cbn [mbind res_bind]. intros P. case_decide as H1.
  - destruct H1 as [-> <-]. rewrite <- (slice_splice_same _ _ _ _ E). now apply IH.
  - case_decide as H2; [|done]. rewrite <- (slice_splice_other _ _ _ _ off n E H2). now apply IH.
Qed.

Definition header_writes (hdr ciaddr yiaddr : list Z) : list (nat * list Z) :=
  [(0%nat, hdr); (OP, [DHCP_OP_REPLY]); (YIADDR, yiaddr); (CIADDR, ciaddr); (SIADDR, zero4)].

Lemma reply_header_writes req ciaddr yiaddr p hdr d :
  field 0 HDR req = Ok hdr -> put_fields (header_writes hdr ciaddr yiaddr) (p_data p) = Ok d -> reply_header req ciaddr yiaddr p = Ok (set_data p d).
Proof.
  unfold reply_header, put_field, header_writes. intros ->. cbn [put_fields mbind res_bind].
  destruct (splice 0 hdr _) as [d1| |]; [|done..]. cbn [mbind res_bind mret res_ret set_data p_data].
  destruct (splice OP _ d1) as [d2| |]; [|done..]. cbn [mbind res_bind mret res_ret set_data p_data].
  destruct (splice YIADDR _ d2) as [d3| |]; [|done..]. cbn [mbind res_bind mret res_ret set_data p_data].
  destruct (splice CIADDR _ d3) as [d4| |]; [|done..]. cbn [mbind res_bind mret res_ret set_data p_data].
  destruct (splice SIADDR _ d4) as [d5| |]; [|done..]. now intros [= <-].
Qed.

(** A field of the header, from a copy of the header. *)
Lemma slice_slice {A} off n k (l h : list A) : slice 0 k l = Ok h -> (off + n <= k)%nat -> slice off n h = slice off n l.
Proof.
  intros E H. pose proof (slice_length _ _ _ _ E) as Lh. unfold slice in E. case_decide as D; [|done]. apply ok_inj in E. rewrite drop_0 in E.
  rewrite <- (take_drop k l), E. symmetry. apply slice_front. lia.
Qed.

(** The header of a reply: the request's, but for five fields. *)
Lemma reply_header_ok len req ciaddr yiaddr p :
  received len req -> length (p_data p) = BUF_SIZE -> bytes_ok (p_data p) -> length ciaddr = 4%nat -> length yiaddr = 4%nat -> bytes_ok ciaddr -> bytes_ok yiaddr ->
  exists d, reply_header req ciaddr yiaddr p = Ok (set_data p d) /\ length d = BUF_SIZE /\ bytes_ok d /\
    slice OP 1 d = Ok [DHCP_OP_REPLY] /\ slice YIADDR 4 d = Ok yiaddr /\ slice CIADDR 4 d = Ok ciaddr /\
    slice HTYPE 1 d = Ok [1] /\ slice HLEN 1 d = Ok [6] /\ slice MAGIC 4 d = Ok DHCP_MAGIC /\
    slice XID 4 d = field XID 4 req /\ slice FLAGS 2 d = field FLAGS 2 req /\ slice GIADDR 4 d = field GIADDR 4 req /\ slice CHADDR 16 d = field CHADDR 16 req.
Proof.
  intros (L & B & _ & _ & _ & _ & _ & _ & _ & Rt & Rl & Rm) Lp Bp Lc Ly Bc By.
  assert (H : exists hdr, field 0 HDR req = Ok hdr /\ length hdr = HDR /\ bytes_ok hdr).
  { unfold field. rewrite slice_ok by (rewrite L; unfold HDR, BUF_SIZE; lia). eexists. split; [done|].
    rewrite length_take, drop_0, L. split; [unfold HDR, BUF_SIZE; lia|]. auto with accel. }
  destruct H as (hdr & Eh & Lh & Bh).
  destruct (put_fields_ok (header_writes hdr ciaddr yiaddr) (p_data p)) as (d & Ed & Ld).
  { unfold header_writes. repeat (apply Forall_cons; split); try apply Forall_nil_2; cbn [fst snd length zero4];
      rewrite ?Lh, ?Lc, ?Ly, Lp; unfold HDR, OP, YIADDR, CIADDR, SIADDR, BUF_SIZE; lia. }
  exists d. split; [now apply reply_header_writes with hdr|].
  assert (Bd : bytes_ok d).
  { assert (K : forall fs a b, put_fields fs a = Ok b -> Forall (fun f => bytes_ok f.2) fs -> bytes_ok a -> bytes_ok b).
    { induction fs as [|[o bs] fs IH]; intros a b; cbn [put_fields]; [intros [= <-]; done|]. destruct (splice o bs a) eqn:E; [|done..]. cbn [mbind res_bind].
      intros P F Ba. apply Forall_cons in F as [F1 F]. eapply IH; eauto. eapply splice_bytes; eauto. }
    eapply K; [exact Ed| |done]. unfold header_writes. repeat (apply Forall_cons; split); try apply Forall_nil_2; try done; cbn [snd]; bytes_lit. }
  assert (Old : forall off n, (off + n <= HDR)%nat -> slice off n hdr = field off n req) by (intros; eapply slice_slice; eauto).
  assert (W : forall off n r, (off + n <= HDR)%nat -> last_write off n (tl (header_writes hdr ciaddr yiaddr)) (field off n req) = Some r -> slice off n d = r).
  { intros off n r Ho LW. rewrite <- Old in LW by done.
    change (put_fields (header_writes hdr ciaddr yiaddr) (p_data p))
      with (d1 ← splice 0 hdr (p_data p); put_fields (tl (header_writes hdr ciaddr yiaddr)) d1) in Ed.
    destruct (splice 0 hdr (p_data p)) as [d1| |] eqn:E1; [|done..]. cbn [mbind res_bind] in Ed.
    eapply put_fields_read; [exact Ed|]. rewrite <- LW. f_equal.
    rewrite splice_ok in E1 by (rewrite Lh, Lp; unfold HDR, BUF_SIZE; lia). apply ok_inj in E1. subst d1. rewrite take_0. cbn [app].
    apply slice_front. lia. }
  unfold HDR in *. split_and!; [congruence|done|..]; rewrite <- ?Rt, <- ?Rl, <- ?Rm; apply W;
    unfold OP, YIADDR, CIADDR, SIADDR, HTYPE, HLEN, MAGIC, XID, FLAGS, GIADDR, CHADDR; try lia; cbn [last_write tl header_writes];
    unfold OP, YIADDR, CIADDR, SIADDR; rewrite ?Lc, ?Ly; cbn [length zero4]; repeat case_decide; done || lia.
Qed.

(** ** Replies *)
Lemma valid_small o : valid_opt o -> small_opt o.
Proof. intros (H & L & _). split; [lia|done]. Qed.

(** The options of a received packet can be read, and sent again. *)
Lemma opt_bytes_ok len r o :
  received len r -> o ∈ p_options r -> opt_bytes r o = Ok (contents (p_data r) o).2 /\ valid_opt (contents (p_data r) o).
Proof.
  intros (L & B & Hl & F & C & _) Ho. pose proof (proj1 (Forall_forall _ _) F o Ho) as (H1 & H2 & H3 & H4).
  unfold opt_bytes, field, contents. cbn [fst snd]. rewrite slice_ok by lia. split; [done|].
  assert (Lc : length (take (Z.to_nat (o_len o)) (drop (o_data o) (p_data r))) = Z.to_nat (o_len o)) by (rewrite length_take, length_drop; lia).
  unfold valid_opt. cbn [fst snd]. rewrite Lc. split_and!; [lia..|auto with accel|].
  unfold dhcpv4_check_options in C. rewrite forallb_forall in C. rewrite Z2Nat.id by lia. apply C. now apply list_elem_of_In.
Qed.

Lemma relay_opts_ok len router r opts :
  received len r -> (forall o, o ∈ opts -> o ∈ p_options r) ->
  exists l, relay_opts router r opts = Ok l /\ Forall valid_opt l /\ Forall (fun o => relayed router o.1 = true) l.
Proof.
  intros R. induction opts as [|o opts IH]; intros Hin; cbn [relay_opts]; [exists []; split_and!; [done|apply Forall_nil_2..]|].
  destruct IH as (l & E & V & K); [intros x Hx; apply Hin; now right|].
  destruct (opt_bytes_ok len r o R) as [Eb Vb]; [apply Hin; left|].
  destruct (relayed router (o_type o)) eqn:Er; [|eauto]. rewrite Eb, E. cbn [mbind res_bind]. eexists. split; [reflexivity|].
  split; apply Forall_cons; (split; [|done]); [|done]. unfold contents in *. cbn in *. exact Vb.
Qed.

Definition addr_ok (a : list Z) : Prop := length a = 4%nat /\ bytes_ok a.
Definition dhcp_conf_ok (cf : dhcp_conf) : Prop := addr_ok (conf_dns1 cf) /\ addr_ok (conf_dns2 cf) /\ addr_ok (conf_wins1 cf) /\ addr_ok (conf_wins2 cf).

Lemma valid_intro t bs : 0 < t < 255 -> (length bs < 256)%nat -> bytes_ok bs -> check_option t (Z.of_nat (length bs)) = true -> valid_opt (t, bs).
Proof. done. Qed.

Lemma valid_addr t a : addr_ok a -> 0 < t < 255 -> check_option t 4 = true -> valid_opt (t, a).
Proof. intros [L B] Ht C. apply valid_intro; rewrite ?L; try done. lia. Qed.

Lemma two_addrs_valid t a b : addr_ok a -> addr_ok b -> t = 6 \/ t = 44 -> (length (two_addrs a b) =? 0)%nat = false -> valid_opt (t, two_addrs a b).
Proof.
  intros [La Ba] [Lb Bb] Ht Hn. unfold two_addrs in *. destruct (nonzero a), (nonzero b); cbn [app] in *; try done;
    (apply valid_intro; rewrite ?length_app, ?La, ?Lb, ?app_nil_r; cbn [length]; [lia|lia|rewrite ?bytes_ok_app; auto|destruct Ht as [-> | ->]]; rewrite ?La, ?Lb; done).
Qed.

Lemma reply_opts_valid cf msg_type siaddr router mask lease renew rebind relay req82 :
  dhcp_conf_ok cf -> addr_ok siaddr -> addr_ok router -> Forall valid_opt relay -> (forall bs, req82 = Some bs -> valid_opt (82, bs)) ->
  Forall valid_opt (reply_opts cf msg_type siaddr router mask lease renew rebind relay req82).
Proof.
  intros (D1 & D2 & W1 & W2) Hs Hr Hrel H82. unfold reply_opts.
  assert (V4 : forall t v, 0 < t < 255 -> check_option t 4 = true -> valid_opt (t, be_encode 4 v)).
  { intros t v Ht C. apply valid_addr; [|done..]. split; [apply length_be_encode|apply be_encode_ok]. }
  rewrite !Forall_app. split_and!.
  - apply Forall_cons; split; [apply valid_intro; try done; [cbn; lia|]; apply Forall_singleton, u8_range|].
    apply Forall_cons; split; [now apply valid_addr|]. apply Forall_singleton. now apply V4.
  - destruct (renew =? 0); [apply Forall_nil_2|]. apply Forall_singleton. now apply V4.
  - destruct (rebind =? 0); [apply Forall_nil_2|]. apply Forall_singleton. now apply V4.
  - destruct (nonzero router); [|apply Forall_nil_2]. apply Forall_singleton. now apply valid_addr.
  - apply Forall_singleton. now apply V4.
  - done.
  - destruct (existsb _ relay); [apply Forall_nil_2|]. cbn [orb]. destruct (_ =? 0)%nat eqn:E; [apply Forall_nil_2|]. apply Forall_singleton, two_addrs_valid; auto.
  - destruct (existsb _ relay); [apply Forall_nil_2|]. cbn [orb]. destruct (_ =? 0)%nat eqn:E; [apply Forall_nil_2|]. apply Forall_singleton, two_addrs_valid; auto.
  - destruct req82; [|apply Forall_nil_2]. apply Forall_singleton. auto.
Qed.

(** The request's header, changed as in [reply_header_ok], and its meaning for a client. *)
Definition reply_head (req : dhcpv4_packet) (yiaddr : list Z) (hdr : list Z) : Prop :=
  length hdr = HDR /\ bytes_ok hdr /\ slice OP 1 hdr = Ok [DHCP_OP_REPLY] /\ slice YIADDR 4 hdr = Ok yiaddr /\
  slice HTYPE 1 hdr = Ok [1] /\ slice HLEN 1 hdr = Ok [6] /\ slice MAGIC 4 hdr = Ok DHCP_MAGIC /\
  slice XID 4 hdr = field XID 4 req /\ slice CHADDR 16 hdr = field CHADDR 16 req /\ slice GIADDR 4 hdr = field GIADDR 4 req.

Section Reply.
  Context (cf : dhcp_conf) (old : list Z) (msg_type : Z) (len : nat) (req : dhcpv4_packet) (yiaddr siaddr router : list Z)
    (mask lease renew rebind : Z) (relay : option dhcpv4_packet).
  Context (Lold : length old = BUF_SIZE) (Bold : bytes_ok old) (Hcf : dhcp_conf_ok cf) (Hreq : received len req)
    (Hrelay : forall r, relay = Some r -> exists n, received n r) (Hy : addr_ok yiaddr) (Hs : addr_ok siaddr) (Hr : addr_ok router).

(** The options of the reply, from those of the DHCP server and of the request. *)
Definition reply_options (opts : list (Z * list Z)) : Prop :=
  exists rel req82, opts = reply_opts cf msg_type siaddr router mask lease renew rebind rel req82 /\
    Forall (fun o => relayed (nonzero router) o.1 = true) rel /\
    match relay with Some r => relay_opts (nonzero router) r (p_options r) = Ok rel | None => rel = [] end /\
    match p_relay_agent req with Some o => opt_bytes req o = (bs ← res_of_option req82; Ok bs) | None => req82 = None end.

Lemma build_reply_spec :
  exists hdr opts, reply_head req yiaddr hdr /\ reply_options opts /\ Forall valid_opt opts /\
    match Nat.compare (HDR + length (wire opts)) BUF_SIZE with
    | Lt => exists p, build_reply cf old msg_type req yiaddr siaddr router mask lease renew rebind relay = Ok p /\
              p_ptr p = S (HDR + length (wire opts)) /\ length (p_data p) = BUF_SIZE /\ take (p_ptr p) (p_data p) = hdr ++ wire opts ++ [255]
    | Eq => build_reply cf old msg_type req yiaddr siaddr router mask lease renew rebind relay = Oob
    | Gt => build_reply cf old msg_type req yiaddr siaddr router mask lease renew rebind relay = Fail
    end.
Proof.
  destruct (dhcp_alloc_ok old Lold Bold) as (d0 & E0 & L0 & B0).
  assert (Hci : exists ci, field CIADDR 4 req = Ok ci /\ addr_ok ci).
  { destruct Hreq as (L & B & _). unfold field. rewrite slice_ok by (rewrite L; unfold CIADDR, BUF_SIZE; lia). eexists. split; [done|].
    split; [rewrite length_take, length_drop, L; unfold CIADDR, BUF_SIZE; lia|auto with accel]. }
  destruct Hci as (ci & Eci & Hci). set (ci' := if msg_type =? DHCPACK then ci else zero4).
  assert (Hci' : addr_ok ci') by (unfold ci'; destruct (_ =? _); [done|split; [done|bytes_lit]]).
  destruct (reply_header_ok len req ci' yiaddr (mk_pack d0 [] None None zero4 zero4 0 zero4 HDR)) as
    (d & Eh & Ld & Bd & F1 & F2 & _ & F4 & F5 & F6 & F7 & _ & F9 & F10); try done; try apply Hci'; try apply Hy.
  assert (Hrel : exists rel, match relay with Some r => relay_opts (nonzero router) r (p_options r) | None => mret [] end = Ok rel /\
            Forall valid_opt rel /\ Forall (fun o => relayed (nonzero router) o.1 = true) rel).
  { destruct relay as [r|]; [|exists []; split_and!; [done|apply Forall_nil_2..]]. destruct (Hrelay r eq_refl) as [n Hn].
    apply (relay_opts_ok n); auto. }
  destruct Hrel as (rel & Erel & Vrel & Krel).
  assert (H82 : exists r82, match p_relay_agent req with Some o => bs ← opt_bytes req o; mret (Some bs) | None => mret None end = Ok r82 /\
            (forall bs, r82 = Some bs -> valid_opt (82, bs)) /\
            match p_relay_agent req with Some o => opt_bytes req o = (bs ← res_of_option r82; Ok bs) | None => r82 = None end).
  { destruct (p_relay_agent req) as [o|] eqn:Ea; [|eexists; split_and!; [reflexivity|done|done]].
    assert (Ho : o ∈ p_options req /\ o_type o = 82) by (apply Hreq; done). destruct Ho as [Ho Et].
    destruct (opt_bytes_ok len req o Hreq Ho) as [Eb Vb]. rewrite Eb. cbn [mbind res_bind].
    eexists. split; [reflexivity|]. split; [|done]. intros bs [= <-]. unfold contents in *. rewrite Et in Vb. exact Vb. }
  destruct H82 as (r82 & E82 & V82 & K82).
  set (opts := reply_opts cf msg_type siaddr router mask lease renew rebind rel r82).
  assert (V : Forall valid_opt opts) by (now apply reply_opts_valid).
  exists (take HDR d), opts.
  assert (Lh : length (take HDR d) = HDR) by (rewrite length_take, Ld; unfold HDR, BUF_SIZE; lia).
  assert (Sl : forall off n, (off + n <= HDR)%nat -> slice off n (take HDR d) = slice off n d).
  { intros off n Ho. rewrite <- (take_drop HDR d) at 2. symmetry. apply slice_front. lia. }
  split; [|split; [|split; [done|]]].
  - unfold reply_head. rewrite !Sl by (unfold OP, YIADDR, HTYPE, HLEN, MAGIC, XID, CHADDR, GIADDR, HDR; lia). split_and!; auto with accel.
  - exists rel, r82. split_and!; try done. destruct relay; [done|]. now injection Erel.
  - unfold build_reply. rewrite E0. cbn [mbind res_bind]. rewrite Eci. cbn [mbind res_bind]. fold ci'. rewrite Eh. cbn [mbind res_bind].
    rewrite Erel. cbn [mbind res_bind]. rewrite E82. cbn [mbind res_bind]. fold opts.
    set (p0 := set_data _ d). assert (P0 : p_ptr p0 = HDR) by done. assert (D0 : p_data p0 = d) by done.
    pose proof (add_opts_spec opts p0 (take HDR d)) as A. rewrite P0, D0 in A.
    specialize (A ltac:(eapply Forall_impl; [exact V|apply valid_small]) Ld eq_refl ltac:(unfold HDR, BUF_SIZE; lia)).
    destruct (Nat.compare_spec (HDR + length (wire opts)) BUF_SIZE) as [C|C|C].
    + rewrite C, Nat.leb_refl in A. destruct A as (q & -> & Lq & Pq & _). cbn [mbind res_bind].
      unfold end_options, put_field, splice. rewrite decide_False by (rewrite Pq, Lq; cbn [length]; lia). done.
    + destruct (Nat.leb_spec (HDR + length (wire opts)) BUF_SIZE); [|lia]. destruct A as (q & -> & Lq & Pq & Tq & _). cbn [mbind res_bind].
      unfold end_options. destruct (put_field_ok (p_ptr q) [255] q) as (dq & -> & Sq & Ldq); [cbn [length]; lia|].
      eexists. split; [reflexivity|]. cbn [set_ptr set_data p_ptr p_data]. rewrite Pq in *. split_and!; [done|congruence|].
      rewrite splice_ok in Sq by (cbn [length]; lia). apply ok_inj in Sq. subst dq. rewrite Tq, app_assoc, (app_assoc (take HDR d)).
      rewrite take_app_length'; [done|]. rewrite !length_app, Lh. cbn [length]. lia.
    + destruct (Nat.leb_spec (HDR + length (wire opts)) BUF_SIZE); [lia|]. now rewrite A.
Qed.
End Reply.

(** ** What a client reads *)
Lemma note_keep opts p q :
  note_options opts p = Ok q -> Forall (fun o => o_type o <> 53 /\ o_type o <> 54) opts -> p_msg_type q = p_msg_type p /\ p_server_id q = p_server_id p.
Proof.
  intros E F. revert p E. induction F as [|o opts [H53 H54] F IH]; intros p; cbn [note_options]; [now intros [= <-]|].
  unfold note_option. destruct (Z.eqb_spec (o_type o) 53); [done|].
  destruct (Z.eqb_spec (o_type o) 82); [cbn [mbind res_bind]; intros E; apply (IH _ E)|].
  destruct (Z.eqb_spec (o_type o) 62); [cbn [mbind res_bind]; intros E; apply (IH _ E)|].
  destruct (Z.eqb_spec (o_type o) 50); [destruct (field _ 4 p); [|done..]; cbn [mbind res_bind]; intros E; apply (IH _ E)|].
  destruct (Z.eqb_spec (o_type o) 54); [done|]. cbn [mbind res_bind]. apply IH.
Qed.

Lemma located_types off opts (P : Z -> Prop) : Forall (fun o => P o.1) opts -> Forall (fun o => P (o_type o)) (located off opts).
Proof.
  intros F. revert off. induction F as [|[t bs] opts H F IH]; intros off; cbn [located]; [apply Forall_nil_2|]. apply Forall_cons. now split.
Qed.

Lemma located_in off opts len : Forall valid_opt opts -> (HDR <= off)%nat -> (off + length (wire opts) <= len)%nat -> Forall (opt_in len) (located off opts).
Proof.
  intros F. revert off. induction F as [|[t bs] opts (H & L & _) F IH]; intros off Ho Hl; cbn [located]; [apply Forall_nil_2|].
  change (wire ((t, bs) :: opts)) with (wire_opt (t, bs) ++ wire opts) in Hl. rewrite length_app in Hl. change (length (wire_opt (t, bs))) with (2 + length bs)%nat in Hl.
  cbn [fst snd] in *. apply Forall_cons. split; [|apply IH; lia]. unfold opt_in. cbn [o_data o_len o_type]. lia.
Qed.

Lemma located_checked off opts : Forall valid_opt opts -> dhcpv4_check_options (located off opts) = true.
Proof.
  intros F. revert off. induction F as [|[t bs] opts (_ & _ & _ & C) F IH]; intros off; cbn [located dhcpv4_check_options forallb]; [done|].
  cbn [o_type o_len]. apply andb_true_iff. split; [exact C|apply IH].
Qed.

Lemma wire_bytes opts : Forall valid_opt opts -> bytes_ok (wire opts).
Proof.
  induction 1 as [|[t bs] opts (H & L & B & _) F IH]; [apply Forall_nil_2|]. cbn [fst snd] in *.
  change (wire ((t, bs) :: opts)) with ([t; Z.of_nat (length bs)] ++ bs ++ wire opts). rewrite !bytes_ok_app. split_and!; [|done..].
  apply Forall_cons; split; [unfold byte_ok; lia|]. apply Forall_singleton. unfold byte_ok. lia.
Qed.

Lemma note_first a b l p m si :
  slice a 1 (p_data p) = Ok [m] -> slice b 4 (p_data p) = Ok si ->
  note_options (mk_opt 53 1 a :: mk_opt 54 4 b :: l) p =
    note_options l (mk_pack (p_data p) (p_options p) (p_client_id p) (p_relay_agent p) (p_request_ip p) si (be_decode [m]) (p_dst_addr p) (p_ptr p)).
Proof.
  intros H1 H2. cbn [note_options]. unfold note_option, field. cbn [o_type o_data Z.eqb Pos.eqb]. rewrite H1. cbn [mbind res_bind mret res_ret p_data].
  now rewrite H2.
Qed.

Lemma valid_first m si rest : 0 < m <= 8 -> addr_ok si -> Forall valid_opt rest -> Forall valid_opt ((53, [m]) :: (54, si) :: rest).
Proof.
  intros Hm Hs V. apply Forall_cons. split; [|apply Forall_cons; split; [now apply valid_addr|done]].
  assert (byte_ok m) by (unfold byte_ok; lia). apply valid_intro; [done|cbn [length]; lia|now apply Forall_singleton|done].
Qed.

(** A packet of a header and options that start with the type and the server is read back. *)
Lemma read_built buf hdr m si rest :
  length buf = BUF_SIZE -> bytes_ok buf -> length hdr = HDR -> bytes_ok hdr -> slice OP 1 hdr = Ok [DHCP_OP_REPLY] ->
  slice HTYPE 1 hdr = Ok [1] -> slice HLEN 1 hdr = Ok [6] -> slice MAGIC 4 hdr = Ok DHCP_MAGIC ->
  0 < m <= 8 -> addr_ok si -> Forall valid_opt rest -> Forall (fun o => o.1 <> 53 /\ o.1 <> 54) rest ->
  let opts := (53, [m]) :: (54, si) :: rest in
  let bs := bootp_pad (hdr ++ wire opts ++ [255]) in
  (length bs <= BUF_SIZE)%nat ->
  exists q, dhcpv4_relay_read buf bs = Ok q /\ map (contents (p_data q)) (p_options q) = opts /\ p_msg_type q = m /\ p_server_id q = si /\
    forall off n, (off + n <= HDR)%nat -> field off n q = slice off n hdr.
Proof.
  intros Lb Bb Lh Bh Hop Ht Hn Hm Hmsg Hsi V K opts bs Lbs.
  assert (Vo : Forall valid_opt opts) by (now apply valid_first).
  unfold dhcpv4_relay_read, receive. destruct (dhcp_alloc_ok buf Lb Bb) as (d0 & -> & L0 & B0). rewrite bind_ok, take_ge by done.
  match goal with |- context [put_field 0 bs ?x] => destruct (put_field_ok 0 bs x) as (d & -> & Sd & _) end; [cbn [p_data]; lia|]. rewrite bind_ok.
  cbn [p_data] in Sd. rewrite splice_ok in Sd by lia. apply ok_inj in Sd. rewrite take_0 in Sd. cbn [app Nat.add] in Sd. subst d.
  unfold set_data. cbn [p_options p_client_id p_relay_agent p_request_ip p_server_id p_msg_type p_dst_addr p_ptr].
  set (post := replicate (300 - length (hdr ++ wire opts ++ [255])) 0 ++ drop (length bs) d0).
  assert (Ed : bs ++ drop (length bs) d0 = hdr ++ wire opts ++ 255 :: post).
  { unfold bs at 1, post, bootp_pad. rewrite <- !app_assoc. done. }
  rewrite Ed. set (data := hdr ++ wire opts ++ 255 :: post). set (p := mk_pack data _ _ _ _ _ _ _ _).
  assert (Ld : length data = BUF_SIZE) by (unfold data; rewrite <- Ed, length_app, length_drop; lia).
  assert (Lw : (HDR + length (wire opts) < length bs)%nat) by (unfold bs, bootp_pad; rewrite !length_app; cbn [length]; lia).
  assert (Fl : forall off n, (off + n <= HDR)%nat -> field off n p = slice off n hdr).
  { intros off n Ho. unfold field, p, data. cbn [p_data]. apply slice_front. lia. }
  assert (Bd : bytes_ok data).
  { unfold data. rewrite <- Ed. rewrite bytes_ok_app. split; [|auto with accel]. unfold bs, bootp_pad. rewrite !bytes_ok_app.
    split_and!; [done|now apply wire_bytes|bytes_lit|]. apply Forall_replicate. unfold byte_ok. lia. }
  unfold dhcpv4_parse_packet. destruct (Nat.ltb_spec (length bs) HDR); [lia|].
  rewrite !Fl by (unfold HTYPE, HLEN, MAGIC, HDR; lia). rewrite Ht, Hn, Hm, !bind_ok. rewrite !bool_decide_eq_true_2 by done. cbn [negb].
  change (p_data p) with data. pose proof (parse_wire (S (length bs - HDR)) hdr opts post (length bs) []) as PW. rewrite Lh in PW. fold data in PW.
  rewrite PW; [|eapply Forall_impl; [exact Vo|intros x Hx; split; apply Hx]|lia..].
  rewrite bind_ok. cbn [app]. rewrite located_checked by done. cbn [negb].
  set (p1 := mk_pack data (located HDR opts) _ _ _ _ _ _ _).
  assert (In : Forall (opt_in (length bs)) (located HDR opts)) by (apply located_in; [done|lia..]).
  destruct (note_options_safe (length bs) (located HDR opts) (located HDR opts) p1) as (q & Eq & D & O' & _ & _ & _ & _);
    try done; [cbn [p_data p1]; lia|now apply located_checked|].
  assert (C0 : map (contents data) (located HDR opts) = opts).
  { rewrite <- Lh. apply contents_located. eapply Forall_impl; [exact Vo|apply valid_small]. }
  assert (MS : p_msg_type q = m /\ p_server_id q = si).
  { cbn [map located opts contents o_type o_len o_data length] in C0. injection C0 as C1 C2 _. rewrite ?Nat2Z.id, (proj1 Hsi) in *.
    revert Eq. unfold opts. cbn [located length]. rewrite (proj1 Hsi). change (Z.of_nat 1) with 1. change (Z.of_nat 4) with 4. rewrite (note_first _ _ _ _ m si).
    - intros Eq. apply note_keep in Eq; [|apply (located_types _ _ (fun t => t <> 53 /\ t <> 54)), K]. cbn in Eq. destruct Eq as [-> ->].
      split; [|done]. unfold be_decode. cbn. lia.
    - cbn [p_data p1]. rewrite slice_ok by (rewrite Ld; unfold HDR, BUF_SIZE; lia). f_equal. exact C1.
    - cbn [p_data p1]. rewrite slice_ok by (rewrite Ld; unfold HDR, BUF_SIZE; lia). f_equal. exact C2. }
  rewrite Eq, bind_ok. destruct MS as [M S].
  rewrite M. destruct (Z.eqb_spec m 0); [lia|]. destruct (Z.ltb_spec 8 m); [lia|]. cbn [orb]. rewrite bind_ret.
  assert (Fq : forall off n, (off + n <= HDR)%nat -> field off n q = slice off n hdr).
  { intros off k Ho. unfold field. rewrite D. now apply Fl. }
  rewrite Fq, Hop by (unfold OP, HDR; lia). rewrite bind_ok, bool_decide_eq_true_2 by done. cbn [negb].
  exists q. split; [done|]. rewrite D, O'. split_and!; done.
Qed.

(** Every reply starts with its type and its server, which are not among the rest. *)
Lemma reply_options_first cf msg_type req siaddr router mask lease renew rebind relay opts :
  0 < msg_type <= 8 -> reply_options cf msg_type req siaddr router mask lease renew rebind relay opts ->
  exists rest, opts = (53, [msg_type]) :: (54, siaddr) :: rest /\ Forall (fun o : Z * list Z => o.1 <> 53 /\ o.1 <> 54) rest.
Proof.
  intros Hm (rel & r82 & -> & K & _). eexists. split; [unfold reply_opts; cbn [app]; rewrite u8_small by lia; reflexivity|].
  assert (Kt : Forall (fun o : Z * list Z => o.1 <> 53 /\ o.1 <> 54) rel).
  { eapply Forall_impl; [exact K|]. intros [t bs] R. unfold relayed in R. cbn in *. bools; lia. }
  apply Forall_cons; split; [cbn; lia|]. rewrite !Forall_app.
  split_and!; [destruct (renew =? 0)|destruct (rebind =? 0)|destruct (nonzero router)|].
  7: { apply Forall_cons; split; [cbn; lia|]. rewrite !Forall_app. split_and!; [done|destruct (_ || _)|destruct (_ || _)|destruct r82];
       try apply Forall_nil_2; apply Forall_singleton; cbn; lia. }
  all: try apply Forall_nil_2; apply Forall_singleton; cbn; lia.
Qed.


(** A DISCOVER as it is received, and the offer of 10.0.0.7. *)
Definition sample_buffer : list Z := replicate BUF_SIZE 170.
Definition sample_datagram : list Z :=
  [1; 1; 6; 0; 222; 173; 190; 239] ++ replicate 20 0 ++ [2; 0; 0; 1; 2; 3] ++ replicate (Z.to_nat 202) 0 ++ DHCP_MAGIC ++
  wire [(53, [DHCPDISCOVER]); (82, [1; 2; 7; 9]); (50, [10; 0; 0; 7])] ++ [255].
Definition sample_request : dhcpv4_packet :=
  match receive sample_buffer sample_datagram with Ok p => p | _ => mk_pack [] [] None None [] [] 0 [] 0 end.
Definition sample_conf : dhcp_conf := mk_dhcp_conf [10; 0; 0; 1] zero4 zero4 [10; 0; 0; 2].

Definition accepted {A} (r : res A) : bool := match r with Ok _ => true | _ => false end.

Lemma sample_buffer_ok : length sample_buffer = BUF_SIZE /\ bytes_ok sample_buffer.
Proof. split; [now vm_compute|]. apply Forall_replicate. unfold byte_ok. lia. Qed.

Lemma dhcpv4_recv_safe_witness :
  p_msg_type sample_request = DHCPDISCOVER /\ p_request_ip sample_request = [10; 0; 0; 7] /\
  (exists p, dhcpv4_read sample_buffer sample_datagram zero4 = Ok p /\ received (length sample_datagram) p).
Proof.
  split; [now vm_compute|]. split; [now vm_compute|].
  destruct (dhcpv4_recv_safe sample_buffer sample_datagram zero4 (proj1 sample_buffer_ok) (proj2 sample_buffer_ok) ltac:(bytes_lit)) as [S _].
  assert (A : accepted (dhcpv4_read sample_buffer sample_datagram zero4) = true) by (vm_compute; reflexivity).
  destruct (dhcpv4_read sample_buffer sample_datagram zero4) as [p| |]; [|discriminate A..].
  exists p. split; [reflexivity|exact (proj1 S)].
Defined.

Lemma sample_received : received (length sample_datagram) sample_request.
Proof.
  pose proof (receive_safe sample_buffer sample_datagram (proj1 sample_buffer_ok) (proj2 sample_buffer_ok) ltac:(bytes_lit)) as S.
  assert (A : accepted (receive sample_buffer sample_datagram) = true) by (vm_compute; reflexivity).
  unfold sample_request. destruct (receive sample_buffer sample_datagram) as [p| |]; [exact S|discriminate A..].
Qed.

Lemma addr_lit a b c d : bytes_ok [a; b; c; d] -> addr_ok [a; b; c; d].
Proof. intros B. now split. Qed.

Lemma sample_conf_ok : dhcp_conf_ok sample_conf.
Proof. split_and!; apply addr_lit; bytes_lit. Qed.

Lemma no_packet r : None = Some r -> exists n, received n r.
Proof. done. Qed.


(** ** Checksums *)
Lemma word_sum_app a b : Nat.Even (length a) -> word_sum (a ++ b) = word_sum a + word_sum b.
Proof.
  intros [k E]. revert a E. induction k as [|k IH]; intros [|x [|y a]] E; cbn in E; try lia; [done|].
  cbn [app word_sum]. rewrite IH by lia. lia.
Qed.

Lemma word_sum_range l : bytes_ok l -> 0 <= word_sum l <= 32768 * (Z.of_nat (length l) + 1).
Proof.
  remember (length l) as n eqn:E. revert l E. induction n as [n IH] using lt_wf_ind. intros [|x [|y l]] -> B; cbn [word_sum length] in *.
  - lia.
  - apply Forall_cons in B as [H _]. unfold byte_ok in H. lia.
  - apply Forall_cons in B as [Hx B]. apply Forall_cons in B as [Hy B]. unfold byte_ok in *.
    specialize (IH (length l) ltac:(lia) l eq_refl B). lia.
Qed.

(** Two rounds leave a 16-bit word, congruent to the sum, which is 0 for the sum 0 only. *)
Lemma fold_carries_spec s : 0 <= s < 2 ^ 32 ->
  exists r k, fold_carries 3 s = r /\ 0 <= r < 65536 /\ s = r + 65535 * k /\ (r = 0 <-> s = 0).
Proof.
  intros H.
  assert (Step : forall x, 0 <= x -> Z.land x 65535 = x mod 65536 /\ Z.shiftr x 16 = x / 65536).
  { intros x _. split; [change 65535 with (Z.ones 16); now rewrite Z.land_ones by lia|now rewrite Z.shiftr_div_pow2 by lia]. }
  assert (D : forall x, x = 65536 * (x / 65536) + x mod 65536 /\ 0 <= x mod 65536 < 65536) by (intros x; split; [apply Z.div_mod; lia|apply Z.mod_pos_bound; lia]).
  cbn [fold_carries]. destruct (Step s ltac:(lia)) as [-> ->]. destruct (D s) as [D1 D2].
  destruct (Z.eqb_spec (s / 65536) 0); [exists s, 0; lia|].
  set (s1 := s mod 65536 + s / 65536). destruct (Step s1 ltac:(lia)) as [-> ->]. destruct (D s1) as [E1 E2].
  destruct (Z.eqb_spec (s1 / 65536) 0); [exists s1, (s / 65536); lia|].
  set (s2 := s1 mod 65536 + s1 / 65536). destruct (Step s2 ltac:(lia)) as [-> ->]. destruct (D s2) as [F1 F2].
  destruct (Z.eqb_spec (s2 / 65536) 0); [exists s2, (s / 65536 + s1 / 65536); lia|lia].
Qed.

Lemma lnot16 r : 0 <= r < 65536 -> Z.land (Z.lnot r) 65535 = 65535 - r.
Proof.
  intros H. change 65535 with (Z.ones 16) at 1. rewrite Z.land_ones by lia. unfold Z.lnot.
  symmetry. apply (Z.mod_unique _ _ (-1)); change (2 ^ 16) with 65536; lia.
Qed.

Lemma ip_csum_spec l : bytes_ok l -> (length l < Z.to_nat 100000)%nat ->
  exists r k, ip_csum l = 65535 - r /\ 0 <= r < 65536 /\ word_sum l = r + 65535 * k /\ (r = 0 <-> word_sum l = 0).
Proof.
  intros B L. pose proof (word_sum_range l B) as R. unfold ip_csum. rewrite u32_small by lia.
  destruct (fold_carries_spec (word_sum l)) as (r & k & -> & H & E & Z0); [lia|]. exists r, k. rewrite lnot16 by lia. done.
Qed.

(** The sum over a block that has its checksum, in place of zeros, is the sum without carries. *)
Lemma csum_valid a b :
  Nat.Even (length a) -> bytes_ok a -> bytes_ok b -> (length (a ++ [0%Z; 0%Z] ++ b) < Z.to_nat 100000)%nat ->
  ip_csum (a ++ le16 (ip_csum (a ++ [0; 0] ++ b)) ++ b) = 0 /\ bytes_ok (le16 (ip_csum (a ++ [0; 0] ++ b))).
Proof.
  intros Ev Ba Bb L. set (c := ip_csum (a ++ [0; 0] ++ b)).
  destruct (ip_csum_spec (a ++ [0; 0] ++ b)) as (r & k & Ec & Hr & Es & Z0); [rewrite !bytes_ok_app; split_and!; [done|bytes_lit|done]|done|]. fold c in Ec.
  assert (Bc : bytes_ok (le16 c)).
  { apply Forall_cons; split; [apply Z.mod_pos_bound; lia|]. apply Forall_singleton, Z.mod_pos_bound. lia. }
  split; [|done].
  destruct (ip_csum_spec (a ++ le16 c ++ b)) as (r' & k' & -> & Hr' & Es' & Z0'); [rewrite !bytes_ok_app; done|rewrite !length_app in *; done|].
  rewrite !word_sum_app in Es, Z0, Es', Z0' by done. cbn [word_sum app le16] in Es, Z0, Es', Z0'.
  assert (Wc : c mod 256 + 256 * (c / 256 mod 256) = c).
  { rewrite (Z.mod_small (c / 256)) by (split; [apply Z.div_pos; lia|apply Z.div_lt_upper_bound; lia]). pose proof (Z.div_mod c 256). lia. }
  pose proof (word_sum_range a Ba). pose proof (word_sum_range b Bb). lia.
Qed.

(** The checksum of UDP (RFC 768) is over the addresses, the protocol, the length and the UDP packet. *)
Definition pseudo_packet (saddr daddr udp : list Z) : list Z :=
  saddr ++ daddr ++ [0; IPPROTO_UDP] ++ be_encode 2 (Z.of_nat (length udp)) ++ udp.

Lemma length_bootp_pad l : length (bootp_pad l) = Nat.max (length l) 300.
Proof. unfold bootp_pad. rewrite length_app, length_replicate. lia. Qed.

Lemma word_sum_udp_ip len saddr daddr rest :
  length saddr = 4%nat -> length daddr = 4%nat ->
  word_sum (ip_header [0; 0] len 0 [0; 0] saddr daddr ++ rest) = word_sum (saddr ++ daddr ++ [0; IPPROTO_UDP] ++ be_encode 2 (u16 len) ++ rest).
Proof.
  intros Hs Hd. unfold ip_header. rewrite <- !app_assoc.
  rewrite !word_sum_app by (rewrite ?length_be_encode, ?Hs, ?Hd; (exists 0%nat; done) || (exists 1%nat; done) || (exists 2%nat; done)). cbn [word_sum]. lia.
Qed.

Lemma ip_csum_ext a b : word_sum a = word_sum b -> ip_csum a = ip_csum b.
Proof. intros E. unfold ip_csum. now rewrite E. Qed.

Lemma ip_header_valid tot saddr daddr :
  addr_ok saddr -> addr_ok daddr ->
  ip_csum (ip_header [69; 16] tot 128 (le16 (ip_csum (ip_header [69; 16] tot 128 [0; 0] saddr daddr))) saddr daddr) = 0.
Proof.
  intros [Ls Bs] [Ld Bd].
  destruct (csum_valid ([69; 16] ++ be_encode 2 (u16 tot) ++ [0; 0; 0; 0] ++ [128; IPPROTO_UDP]) (saddr ++ daddr)) as [C _].
  - rewrite !length_app, length_be_encode. now exists 5%nat.
  - rewrite !bytes_ok_app. split_and!; [bytes_lit|apply be_encode_ok|bytes_lit..].
  - now rewrite bytes_ok_app.
  - rewrite !length_app, length_be_encode, Ls, Ld. cbn [length]. lia.
  - unfold ip_header. rewrite <- !app_assoc in C. exact C.
Qed.

Lemma udp_header_valid dport len saddr daddr data :
  addr_ok saddr -> addr_ok daddr -> bytes_ok data -> (length data < Z.to_nat 65536)%nat ->
  let csum := ip_csum (ip_header [0; 0] len 0 [0; 0] saddr daddr ++ udp_header dport len [0; 0] ++ data) in
  ip_csum (saddr ++ daddr ++ [0; IPPROTO_UDP] ++ be_encode 2 (u16 len) ++ udp_header dport len (le16 csum) ++ data) = 0.
Proof.
  intros [Ls Bs] [Ld Bd] B L csum.
  destruct (csum_valid (ip_header [0; 0] len 0 [0; 0] saddr daddr ++ be_encode 2 DHCP_SERV_PORT ++ be_encode 2 (u16 dport) ++ be_encode 2 (u16 len)) data) as [C _].
  - unfold ip_header. rewrite !length_app, !length_be_encode, Ls, Ld. now exists 13%nat.
  - unfold ip_header. rewrite !bytes_ok_app. split_and!; try done; try apply be_encode_ok; bytes_lit.
  - done.
  - unfold ip_header. rewrite !length_app, !length_be_encode, Ls, Ld. cbn [length]. lia.
  - rewrite (ip_csum_ext _ _ (eq_sym (word_sum_udp_ip len saddr daddr _ Ls Ld))). unfold csum, udp_header. rewrite <- !app_assoc in *. exact C.
Qed.


