(* ===== verification/PppNcp.v ===== *)
(** * Network control protocols (accel-pppd/ppp/ppp_ipcp.c, ppp_ipv6cp.c)

    IPCP and IPv6CP are the same code with other names, options and a few other
    decisions.  What they share is defined here once, on top of the automaton of
    PppFsm.v; what differs is the class [NcpProtocol], whose instances are in
    PppIpcp.v and PppIpv6cp.v.

    [n_sent] are the frames given to the unit, [n_calls] the calls to the other
    layers and to the session.  [ap_session_terminate] finishes the layers that
    have been started, this one among them.  [n_fault] is set by an access outside
    of a buffer or through a null pointer.  [ses.terminating] and
    [ses.stop_time != 0] are both set by [ap_session_terminate] only and are one
    flag here. *)
From S2P Require Import Prelude Utils PppFsm PppLcp.

(** [IPCP_OPT_*], [IPV6CP_OPT_*] *)
Definition OPT_NONE : Z := 0.
Definition OPT_ACK : Z := 1.
Definition OPT_NAK : Z := -1.
Definition OPT_REJ : Z := -2.
Definition OPT_CLOSE : Z := -3.
Definition OPT_TERMACK : Z := -4.
Definition OPT_FAIL : Z := -5.

(** [IPV4_*], [IPV6_*] *)
Definition NCP_DENY : Z := 0.
Definition NCP_ALLOW : Z := 1.
Definition NCP_PREFERE : Z := 2.
Definition NCP_REQUIRE : Z := 3.

(** [sizeof(struct ipcp_hdr_t)] *)
Definition NCP_HDR : nat := 6.

(** [struct ipcp_option_t]; [no_addr] is the address of a DNS or WINS option. *)
Record ncp_option_t : Type := mk_nopt {
  no_id : Z;
  no_len : Z;
  no_state : Z;
  no_addr : Z
}.

Inductive ncp_call : Type :=
| CTerminate (cause : term_cause)
| CStarted                         (* ppp_layer_started *)
| CPassive                         (* ppp_layer_passive *)
| CFinished                        (* ppp_layer_finished *)
| CProtoRej.                       (* lcp_send_proto_rej *)

(** What a protocol brings: [np_strict], whether the end of the layer always
    ends the session; the handlers of its options.  They work on the part [Ses] of the
    session and with what they get from elsewhere, [X]: [np_request] gives the bytes of an
    option or a negative number, [np_nak] the bytes, [None] where a null pointer
    is followed, [np_judge] the verdict on an option received and whether the ack may have to
    wait for CCP. *)
Class NcpProtocol (Ses X : Type) : Type := {
  np_proto : Z;
  np_strict : bool;
  np_request : X -> ncp_option_t -> Ses -> Ses * (Z + list Z);
  np_nak : ncp_option_t -> Ses -> option (list Z);
  np_judge : X -> list Z -> ncp_option_t -> Ses -> Ses * Z * bool
}.

(** Configuration and results of calls: [ne_ccp] is [ccp_ipcp_started]. *)
Record ncp_env (X : Type) : Type := mk_nenv {
  ne_mode : Z;
  ne_ccp : bool;
  ne_ses_starting : bool;
  ne_timer_ok : bool;
  ne_x : X
}.
Arguments mk_nenv {X}.
Arguments ne_mode {X}.
Arguments ne_ccp {X}.
Arguments ne_ses_starting {X}.
Arguments ne_timer_ok {X}.
Arguments ne_x {X}.

Record ncp_t (Ses : Type) : Type := mk_ncp {
  n_options : list ncp_option_t;
  n_timeout : bool;
  n_ropts : list recv_opt_t;
  n_ropt_len : Z;
  n_delay_ack_buf : option (list Z);
  n_conf_req_len : Z;
  n_starting : bool;
  n_started : bool;
  n_delay_ack : bool;
  n_passive : bool;
  n_terminating : bool;
  n_buf : list Z;
  n_ses : Ses;
  n_sent : list (list Z);
  n_calls : list ncp_call;
  n_fault : bool
}.
Arguments mk_ncp {Ses}.
Arguments n_options {Ses}.
Arguments n_timeout {Ses}.
Arguments n_ropts {Ses}.
Arguments n_ropt_len {Ses}.
Arguments n_delay_ack_buf {Ses}.
Arguments n_conf_req_len {Ses}.
Arguments n_starting {Ses}.
Arguments n_started {Ses}.
Arguments n_delay_ack {Ses}.
Arguments n_passive {Ses}.
Arguments n_terminating {Ses}.
Arguments n_buf {Ses}.
Arguments n_ses {Ses}.
Arguments n_sent {Ses}.
Arguments n_calls {Ses}.
Arguments n_fault {Ses}.

Section ncp.
  Context {Ses X : Type} {P : NcpProtocol Ses X}.

(** ** Field updates *)
Definition nw_options (w : ncp_t Ses) (x : list ncp_option_t) (req_len : Z) : ncp_t Ses :=
  mk_ncp x (n_timeout w) (n_ropts w) (n_ropt_len w) (n_delay_ack_buf w) req_len (n_starting w) (n_started w) (n_delay_ack w)
    (n_passive w) (n_terminating w) (n_buf w) (n_ses w) (n_sent w) (n_calls w) (n_fault w).
Definition nw_timeout (w : ncp_t Ses) (x : bool) : ncp_t Ses :=
  mk_ncp (n_options w) x (n_ropts w) (n_ropt_len w) (n_delay_ack_buf w) (n_conf_req_len w) (n_starting w) (n_started w) (n_delay_ack w)
    (n_passive w) (n_terminating w) (n_buf w) (n_ses w) (n_sent w) (n_calls w) (n_fault w).
Definition nw_ropts (w : ncp_t Ses) (x : list recv_opt_t) (len : Z) : ncp_t Ses :=
  mk_ncp (n_options w) (n_timeout w) x len (n_delay_ack_buf w) (n_conf_req_len w) (n_starting w) (n_started w) (n_delay_ack w)
    (n_passive w) (n_terminating w) (n_buf w) (n_ses w) (n_sent w) (n_calls w) (n_fault w).
Definition nw_delay (w : ncp_t Ses) (x : bool) (buf : option (list Z)) : ncp_t Ses :=
  mk_ncp (n_options w) (n_timeout w) (n_ropts w) (n_ropt_len w) buf (n_conf_req_len w) (n_starting w) (n_started w) x
    (n_passive w) (n_terminating w) (n_buf w) (n_ses w) (n_sent w) (n_calls w) (n_fault w).
Definition nw_flags (w : ncp_t Ses) (starting started passive : bool) : ncp_t Ses :=
  mk_ncp (n_options w) (n_timeout w) (n_ropts w) (n_ropt_len w) (n_delay_ack_buf w) (n_conf_req_len w) starting started (n_delay_ack w)
    passive (n_terminating w) (n_buf w) (n_ses w) (n_sent w) (n_calls w) (n_fault w).
Definition nw_buf (w : ncp_t Ses) (x : list Z) : ncp_t Ses :=
  mk_ncp (n_options w) (n_timeout w) (n_ropts w) (n_ropt_len w) (n_delay_ack_buf w) (n_conf_req_len w) (n_starting w) (n_started w) (n_delay_ack w)
    (n_passive w) (n_terminating w) x (n_ses w) (n_sent w) (n_calls w) (n_fault w).
Definition nw_ses (w : ncp_t Ses) (x : Ses) : ncp_t Ses :=
  mk_ncp (n_options w) (n_timeout w) (n_ropts w) (n_ropt_len w) (n_delay_ack_buf w) (n_conf_req_len w) (n_starting w) (n_started w) (n_delay_ack w)
    (n_passive w) (n_terminating w) (n_buf w) x (n_sent w) (n_calls w) (n_fault w).
Definition nw_term (w : ncp_t Ses) : ncp_t Ses :=
  mk_ncp (n_options w) (n_timeout w) (n_ropts w) (n_ropt_len w) (n_delay_ack_buf w) (n_conf_req_len w) (n_starting w) (n_started w) (n_delay_ack w)
    (n_passive w) true (n_buf w) (n_ses w) (n_sent w) (n_calls w) (n_fault w).
Definition nw_fault (w : ncp_t Ses) : ncp_t Ses :=
  mk_ncp (n_options w) (n_timeout w) (n_ropts w) (n_ropt_len w) (n_delay_ack_buf w) (n_conf_req_len w) (n_starting w) (n_started w) (n_delay_ack w)
    (n_passive w) (n_terminating w) (n_buf w) (n_ses w) (n_sent w) (n_calls w) true.
(** [ppp_unit_send] *)
Definition unit_send (frame : list Z) (w : ncp_t Ses) : ncp_t Ses :=
  mk_ncp (n_options w) (n_timeout w) (n_ropts w) (n_ropt_len w) (n_delay_ack_buf w) (n_conf_req_len w) (n_starting w) (n_started w) (n_delay_ack w)
    (n_passive w) (n_terminating w) (n_buf w) (n_ses w) (n_sent w ++ [frame]) (n_calls w) (n_fault w).
Definition ncp_do (c : ncp_call) (w : ncp_t Ses) : ncp_t Ses :=
  mk_ncp (n_options w) (n_timeout w) (n_ropts w) (n_ropt_len w) (n_delay_ack_buf w) (n_conf_req_len w) (n_starting w) (n_started w) (n_delay_ack w)
    (n_passive w) (n_terminating w) (n_buf w) (n_ses w) (n_sent w) (n_calls w ++ [c]) (n_fault w).

Definition set_no_state (o : ncp_option_t) (x : Z) : ncp_option_t := mk_nopt (no_id o) (no_len o) x (no_addr o).
Definition set_no_addr (o : ncp_option_t) (x : Z) : ncp_option_t := mk_nopt (no_id o) (no_len o) (no_state o) x.

Definition on_ncp (g : ncp_t Ses -> ncp_t Ses) (s : fst_t (ncp_t Ses)) : fst_t (ncp_t Ses) := (fst s, g (snd s)).

(** ** The session *)

(** [ipcp_layer_finish] *)
Definition ncp_layer_finish (s : fst_t (ncp_t Ses)) : fst_t (ncp_t Ses) :=
  (set_state FSM_Closed (fst s), ncp_do CFinished (snd s)).

(** [ap_session_terminate(.., 0)]; [ppp_terminate] finishes the layers started.  Once
    terminating, nothing else happens here. *)
Definition ncp_terminate (cause : term_cause) (s : fst_t (ncp_t Ses)) : fst_t (ncp_t Ses) :=
  if n_terminating (snd s) then s
  else
    let s := on_ncp (fun w => ncp_do (CTerminate cause) (nw_term w)) s in
    if n_starting (snd s) then ncp_layer_finish s else s.

(** [ppp_layer_passive] *)
Definition ncp_layer_passive (w : ncp_t Ses) : ncp_t Ses :=
  if n_started w then ncp_do CPassive w else ncp_do CPassive (nw_flags w (n_starting w) (n_started w) true).

(** ** Messages *)
Definition ncp_frame (code id : Z) (payload : list Z) : list Z :=
  be_encode 2 np_proto ++ [u8 code; u8 id] ++ be_encode 2 (Z.of_nat (length payload) + 4) ++ payload.

(** The loop of [send_conf_req]. *)
Fixpoint request_loop (e : X) (opts : list ncp_option_t) (ses : Ses) : Ses * (Z + list Z) :=
  match opts with
  | [] => (ses, inr [])
  | o :: opts =>
      let '(ses, r) := np_request e o ses in
      match r with
      | inl n => (ses, inl n)
      | inr bs => let '(ses, r) := request_loop e opts ses in (ses, match r with inl n => inl n | inr rest => inr (bs ++ rest) end)
      end
  end.

(** A write of [n] bytes into the buffer of [_malloc(conf_req_len)]. *)
Definition check_room (n : nat) (w : ncp_t Ses) : ncp_t Ses := if n_conf_req_len w <? Z.of_nat n then nw_fault w else w.

Definition ncp_send_conf_req (e : ncp_env X) (s : fst_t (ncp_t Ses)) : fst_t (ncp_t Ses) * Z :=
  let '(f, w) := s in
  let '(ses, r) := request_loop (ne_x e) (n_options w) (n_ses w) in
  let w := nw_ses w ses in
  match r with
  | inl n =>
      if n =? OPT_TERMACK then (f, w, 0)
      else if (n =? OPT_CLOSE) && negb (ne_mode e =? NCP_REQUIRE) then (ppp_fsm_close2 (f, w), 0)
      else (f, w, -1)
  | inr payload => (f, unit_send (ncp_frame CONFREQ (fsm_id f) payload) (check_room (NCP_HDR + length payload) w), 0)
  end.

(** [hdr->code = CONFACK; ppp_unit_send(.., ntohs(hdr->len) + 2)] *)
Definition ack_frame (frame : list Z) : res (list Z) :=
  len ← u_read_be16 frame 4; slice 0 (Z.to_nat (len + 2)) (<[2%nat := CONFACK]> frame).

Definition ncp_send_conf_ack (s : fst_t (ncp_t Ses)) : fst_t (ncp_t Ses) :=
  on_ncp (fun w =>
    if n_delay_ack w then
      match (len ← u_read_be16 (n_buf w) 4; slice 0 (Z.to_nat (len + 2)) (n_buf w)) with
      | Ok frame => nw_delay w true (Some frame)
      | _ => nw_fault w
      end
    else
      match ack_frame (n_buf w) with
      | Ok frame => unit_send frame (nw_buf w (<[2%nat := CONFACK]> (n_buf w)))
      | _ => nw_fault w
      end) s.

Definition find_opt (id : Z) (opts : list ncp_option_t) : option ncp_option_t := List.find (fun o => no_id o =? id) opts.

(** The loop of [send_conf_nak] is over the options of the request. *)
Fixpoint nak_loop (ropts : list recv_opt_t) (opts : list ncp_option_t) (ses : Ses) : option (list Z) :=
  match ropts with
  | [] => Some []
  | ro :: ropts =>
      bs ← (if ro_state ro =? OPT_NAK then o ← find_opt (opt_id (ro_bytes ro)) opts; np_nak o ses else Some []);
      rest ← nak_loop ropts opts ses;
      Some (bs ++ rest)
  end.

Definition ncp_send_conf_nak (s : fst_t (ncp_t Ses)) : fst_t (ncp_t Ses) :=
  let '(f, w) := s in
  match nak_loop (n_ropts w) (n_options w) (n_ses w) with
  | None => (f, nw_fault w)
  | Some payload => (f, unit_send (ncp_frame CONFNAK (fsm_recv_id f) payload) (check_room (NCP_HDR + length payload) w))
  end.

Definition ncp_send_conf_rej (s : fst_t (ncp_t Ses)) : fst_t (ncp_t Ses) :=
  let '(f, w) := s in
  let payload := concat (map ro_bytes (List.filter (fun r => ro_state r =? OPT_REJ) (n_ropts w))) in
  let w := if n_ropt_len w + Z.of_nat NCP_HDR <? Z.of_nat (NCP_HDR + length payload) then nw_fault w else w in
  (f, unit_send (ncp_frame CONFREJ (fsm_recv_id f) payload) w).

Definition ncp_send_term_req (s : fst_t (ncp_t Ses)) : fst_t (ncp_t Ses) :=
  let f := set_id (u8 (fsm_id (fst s) + 1)) (fst s) in
  (f, unit_send (ncp_frame TERMREQ (fsm_id f) []) (snd s)).

Definition ncp_send_term_ack (s : fst_t (ncp_t Ses)) : fst_t (ncp_t Ses) :=
  (fst s, unit_send (ncp_frame TERMACK (fsm_recv_id (fst s)) []) (snd s)).

(** ** The layer *)

(** [__ipcp_layer_up] *)
Definition layer_up_now (w : ncp_t Ses) : ncp_t Ses :=
  if n_started w then w else ncp_do CStarted (nw_flags w (n_starting w) true (n_passive w)).

Definition ncp_layer_up (s : fst_t (ncp_t Ses)) : fst_t (ncp_t Ses) :=
  if n_delay_ack (snd s) then s else on_ncp layer_up_now s.

Definition ncp_layer_finished (e : ncp_env X) (s : fst_t (ncp_t Ses)) : fst_t (ncp_t Ses) :=
  let w := snd s in
  let s :=
    if negb (n_started w) then
      if ne_mode e =? NCP_REQUIRE then ncp_terminate TERM_USER_ERROR s else on_ncp ncp_layer_passive s
    else if negb (n_terminating w) then
      if np_strict || (ne_mode e =? NCP_REQUIRE) then ncp_terminate TERM_USER_ERROR s else s
    else s in
  goto FSM_Closed s.

(** [ipcp_layer_down] calls [ppp_fsm_close], which calls [ipcp_layer_down] in the state Closing, where
    it does nothing ([layer_down_closes]). *)
Definition ncp_ops_with (e : ncp_env X) (down : option (fst_t (ncp_t Ses) -> fst_t (ncp_t Ses))) : ppp_fsm_ops (ncp_t Ses) :=
  mk_fsm_ops (Some ncp_layer_up) down None (Some (ncp_layer_finished e)) (Some (ncp_send_conf_req e)) (Some ncp_send_conf_ack)
    (Some ncp_send_conf_nak) (Some ncp_send_conf_rej) None ncp_send_term_req ncp_send_term_ack (fun _ => ne_timer_ok e).
Definition ncp_layer_down (e : ncp_env X) (s : fst_t (ncp_t Ses)) : fst_t (ncp_t Ses) := ppp_fsm_close (ncp_ops_with e None) s.
Definition ncp_ops (e : ncp_env X) : ppp_fsm_ops (ncp_t Ses) := ncp_ops_with e (Some (ncp_layer_down e)).

Definition ncp_options_init (opts : list ncp_option_t) (w : ncp_t Ses) : ncp_t Ses :=
  nw_options w opts (foldl (fun n o => n + no_len o) (Z.of_nat NCP_HDR) opts).

(** The zeroed structure with what [ipcp_layer_init] sets. *)
Definition ncp_layer_init (fc : fsm_conf) (rnd mode : Z) (opts : list ncp_option_t) (ses : Ses) : fst_t (ncp_t Ses) :=
  (ppp_fsm_init fc rnd fsm_zeroed,
   ncp_options_init opts (mk_ncp [] false [] 0 None 0 false false false ((mode =? NCP_ALLOW) || (mode =? NCP_DENY)) false [] ses [] [] false)).

Definition ncp_layer_start (e : ncp_env X) (s : fst_t (ncp_t Ses)) : fst_t (ncp_t Ses) * Z :=
  let s := on_ncp (fun w => nw_flags w true (n_started w) (n_passive w)) s in
  if ne_mode e =? NCP_DENY then (s, 0)
  else if n_passive (snd s) then (on_ncp (fun w => nw_timeout w (ne_timer_ok e)) s, 0)
  else
    let s := fst (ppp_fsm_lower_up (ncp_ops e) s) in
    let '(s, r) := ppp_fsm_open (ncp_ops e) s in
    (s, if r =? 0 then 0 else -1).

(** [ipcp_start_timeout] *)
Definition ncp_start_timeout (e : ncp_env X) (s : fst_t (ncp_t Ses)) : fst_t (ncp_t Ses) :=
  let s := on_ncp (fun w => nw_timeout w false) s in
  if ne_ses_starting e then ncp_terminate TERM_USER_ERROR s else s.

(** ** Options received *)
Definition update_opt (id : Z) (g : ncp_option_t -> ncp_option_t) : list ncp_option_t -> list ncp_option_t :=
  map (fun o => if no_id o =? id then g o else o).

(** The loop over the options of a Configure-Request: [ret] is the worst verdict, but for an unknown
    option it is always Reject.  The third result is a [return] inside of the loop. *)
Fixpoint judge_loop (e : ncp_env X) (ropts : list recv_opt_t) (s : fst_t (ncp_t Ses)) (ret : Z)
    : fst_t (ncp_t Ses) * list recv_opt_t * Z * bool :=
  match ropts with
  | [] => (s, [], ret, false)
  | ro :: ropts =>
      let '(f, w) := s in
      let b := ro_bytes ro in
      match find_opt (opt_id b) (n_options w) with
      | None =>
          let '(s, done, ret, stop) := judge_loop e ropts s OPT_REJ in (s, mk_ropt b OPT_REJ :: done, ret, stop)
      | Some o =>
          let '(ses, r, acked) := np_judge (ne_x e) b o (n_ses w) in
          let w := nw_ses w ses in
          let w := if acked then nw_delay w (ne_ccp e) (n_delay_ack_buf w) else w in
          if r =? OPT_TERMACK then (ncp_send_term_ack (f, w), ro :: ropts, 0, true)
          else if r =? OPT_CLOSE then
            (if ne_mode e =? NCP_REQUIRE then ncp_terminate TERM_NAS_ERROR (f, w) else (f, ncp_do CProtoRej w), ro :: ropts, 0, true)
          else if n_terminating w then ((f, w), ro :: ropts, -1, true)
          else
            let w := nw_options w (update_opt (opt_id b) (fun o => set_no_state o r) (n_options w)) (n_conf_req_len w) in
            let '(s, done, ret, stop) := judge_loop e ropts (f, w) (if r <? ret then r else ret) in
            (s, mk_ropt b r :: done, ret, stop)
      end
  end.

Definition ncp_recv_conf_req (e : ncp_env X) (data : list Z) (s : fst_t (ncp_t Ses)) : fst_t (ncp_t Ses) * Z :=
  let '(bs, ok) := collect_opts (length data) data in
  let ropts := n_ropts (snd s) ++ map (fun b => mk_ropt b OPT_NONE) bs in
  let s := on_ncp (fun w => nw_ropts w ropts (Z.of_nat (length data))) s in
  if ok then
    let s := on_ncp (fun w => nw_options w (map (fun o => set_no_state o OPT_NONE) (n_options w)) (n_conf_req_len w)) s in
    let '(s, ropts, ret, stop) := judge_loop e ropts s 1 in
    (on_ncp (fun w => nw_ropts w ropts (n_ropt_len w)) s, ret)
  else (s, OPT_FAIL).

Definition ncp_free_conf_req (w : ncp_t Ses) : ncp_t Ses := nw_ropts w [] (n_ropt_len w).

(** The loop of [ipcp_recv_conf_rej], [ipcp_recv_conf_nak] and [ipcp_recv_conf_ack]: no option has a handler for
    them, which is an error for Rejects. *)
Fixpoint answer_opts (rej : bool) (fuel : nat) (data : list Z) (opts : list ncp_option_t) (res : Z) : Z :=
  match data, fuel with
  | [], _ => res
  | _, O => -1
  | _, Datatypes.S fuel =>
      match next_opt data with
      | None => -1
      | Some (b, rest) => answer_opts rej fuel rest opts (if rej && isset (find_opt (opt_id b) opts) then -1 else res)
      end
  end.

Definition ncp_recv_answer (rej : bool) (data : list Z) (w : ncp_t Ses) : Z := answer_opts rej (length data) data (n_options w) 0.

(** ** Reception *)
Definition ncp_recv_CONFREQ (e : ncp_env X) (data : list Z) (s : fst_t (ncp_t Ses)) : fst_t (ncp_t Ses) :=
  let delay_ack := n_delay_ack (snd s) in
  let '(s, r) := ncp_recv_conf_req e data s in
  if n_terminating (snd s) then on_ncp ncp_free_conf_req s
  else
    let s :=
      if negb (r =? 0) && n_passive (snd s) then
        let s := on_ncp (fun w => nw_flags w (n_starting w) (n_started w) false) s in
        let s := fst (ppp_fsm_lower_up (ncp_ops e) s) in
        let s := fst (ppp_fsm_open (ncp_ops e) s) in
        on_ncp (fun w => nw_timeout w false) s
      else s in
    let s := if delay_ack && negb (n_delay_ack (snd s)) then on_ncp layer_up_now s else s in
    let '(s, r) :=
      if n_started (snd s) || delay_ack then
        if r =? OPT_ACK then (ncp_send_conf_ack s, r) else (s, OPT_FAIL)
      else if r =? OPT_ACK then (ppp_fsm_recv_conf_req_ack (ncp_ops e) s, r)
      else if r =? OPT_NAK then (ppp_fsm_recv_conf_req_nak (ncp_ops e) s, r)
      else if r =? OPT_REJ then (ppp_fsm_recv_conf_req_rej (ncp_ops e) s, r)
      else (s, r) in
    let s := on_ncp ncp_free_conf_req s in
    if r =? OPT_FAIL then ncp_terminate TERM_USER_ERROR s else s.

Definition ncp_recv_ANSWER (r : Z) (k : fst_t (ncp_t Ses) -> fst_t (ncp_t Ses)) (s : fst_t (ncp_t Ses)) : fst_t (ncp_t Ses) :=
  if negb (r =? 0) then ncp_terminate TERM_USER_ERROR s else k s.

Definition ncp_dispatch (e : ncp_env X) (code : Z) (data : list Z) (s : fst_t (ncp_t Ses)) : fst_t (ncp_t Ses) :=
  if code =? CONFREQ then ncp_recv_CONFREQ e data s
  else if code =? CONFACK then ncp_recv_ANSWER (ncp_recv_answer false data (snd s)) (ppp_fsm_recv_conf_ack (ncp_ops e)) s
  else if code =? CONFNAK then ncp_recv_ANSWER (ncp_recv_answer false data (snd s)) (ppp_fsm_recv_conf_rej (ncp_ops e)) s
  else if code =? CONFREJ then ncp_recv_ANSWER (ncp_recv_answer true data (snd s)) (ppp_fsm_recv_conf_rej (ncp_ops e)) s
  else if code =? TERMREQ then
    let s := ppp_fsm_recv_term_req (ncp_ops e) s in
    if np_strict || (ne_mode e =? NCP_REQUIRE) then ncp_terminate TERM_USER_REQUEST s else on_ncp ncp_layer_passive s
  else if code =? TERMACK then s
  else if code =? CODEREJ then ppp_fsm_recv_code_rej_bad (ncp_ops e) s
  else ppp_fsm_recv_unk (ncp_ops e) s.

Definition ncp_recv (e : ncp_env X) (s : fst_t (ncp_t Ses)) : fst_t (ncp_t Ses) :=
  let '(f, w) := s in
  let closed := bool_decide (fsm_state f = FSM_Closed) in
  let deny := ne_mode e =? NCP_DENY in
  if negb (n_starting w) || closed || n_terminating w || deny then
    if n_terminating w then s else if closed || deny then (f, ncp_do CProtoRej w) else s
  else
    let buf_size := Z.of_nat (length (n_buf w)) in
    if buf_size <? PPP_HEADERLEN + 2 then s else
    match n_buf w with
    | _ :: _ :: code :: id :: len1 :: len0 :: rest =>
        let len := be_decode [len1; len0] in
        if (len <? PPP_HEADERLEN) || (buf_size - 2 <? len) then s
        else if is_answer code && negb (id =? fsm_id f) then s
        else
          match slice 0 (Z.to_nat (len - PPP_HDRLEN)) rest with
          | Ok data => ncp_dispatch e code data (set_recv_id id f, w)
          | _ => (f, nw_fault w)
          end
    | _ => (f, nw_fault w)
    end.

Definition ncp_recv_proto_rej (e : ncp_env X) (s : fst_t (ncp_t Ses)) : fst_t (ncp_t Ses) :=
  if bool_decide (fsm_state (fst s) = FSM_Initial) || bool_decide (fsm_state (fst s) = FSM_Closed) then s
  else ppp_fsm_close (ncp_ops e) (ppp_fsm_lower_down (ncp_ops e) s).

(** [ipcp_ccp_started] *)
Definition ncp_ccp_started (s : fst_t (ncp_t Ses)) : fst_t (ncp_t Ses) :=
  if negb (n_delay_ack (snd s)) then s
  else
    let s := on_ncp (fun w => nw_delay w false (n_delay_ack_buf w)) s in
    let s := if bool_decide (fsm_state (fst s) = FSM_Opened) then on_ncp layer_up_now s else s in
    on_ncp (fun w =>
      match n_delay_ack_buf w with
      | None => w
      | Some frame =>
          match ack_frame frame with
          | Ok frame => unit_send frame (nw_delay w (n_delay_ack w) None)
          | _ => nw_fault w
          end
      end) s.

(** ** Events *)
Inductive ncp_event : Type :=
| NFrame (frame : list Z)          (* a frame of the protocol, read into ppp->buf *)
| NRestart                         (* the timer of the automaton *)
| NTimeout                         (* the timer of a passive layer *)
| NProtoRej
| NCcp                             (* CCP has started or given up *)
| NTerminate (cause : term_cause)  (* another part ends the session *)
| NAddr (id addr : Z).             (* ev_dns, ev_wins *)

Definition ncp_step (s : fst_t (ncp_t Ses)) (ev : ncp_env X * ncp_event) : fst_t (ncp_t Ses) :=
  let '(e, ev) := ev in
  match ev with
  | NFrame frame => ncp_recv e (on_ncp (fun w => nw_buf w frame) s)
  | NRestart => restart_timer_func (ncp_ops e) s
  | NTimeout => ncp_start_timeout e s
  | NProtoRej => ncp_recv_proto_rej e s
  | NCcp => ncp_ccp_started s
  | NTerminate cause => ncp_terminate cause s
  | NAddr id addr => on_ncp (fun w => nw_options w (update_opt id (fun o => set_no_addr o addr) (n_options w)) (n_conf_req_len w)) s
  end.

Definition ncp_run (s : fst_t (ncp_t Ses)) (evs : list (ncp_env X * ncp_event)) : fst_t (ncp_t Ses) := foldl ncp_step s evs.

End ncp.
Arguments ncp_event : clear implicits.

(** ** What the protocols promise

    [np_opt_ok]: the options of the protocol; [np_agreed]: what the session and an option acknowledged have to
    do with each other. *)
Class NcpLaws (Ses X : Type) `{NcpProtocol Ses X} : Type := {
  np_opt_ok : ncp_option_t -> Prop;
  np_agreed : list Z -> Ses -> Prop;
  law_len o : np_opt_ok o -> 0 <= no_len o;
  law_same o o' : no_id o = no_id o' -> no_len o = no_len o' -> np_opt_ok o -> np_opt_ok o';
  law_request e o s s' r :
    np_opt_ok o -> np_request e o s = (s', r) ->
    (forall bs, r = inr bs -> Z.of_nat (length bs) <= no_len o) /\
    (forall b, np_agreed b s -> np_agreed b s') /\ (forall o', np_opt_ok o' -> isset (np_nak o' s) = true -> isset (np_nak o' s') = true);
  law_nak o s bs : np_opt_ok o -> np_nak o s = Some bs -> Z.of_nat (length bs) = no_len o;
  law_nak_same o o' s : no_id o = no_id o' -> isset (np_nak o s) = isset (np_nak o' s);
  law_judge e b o s s' r a :
    np_opt_ok o -> opt_wf b -> opt_id b = no_id o -> np_judge e b o s = (s', r, a) ->
    (r = OPT_NAK -> isset (np_nak o s') = true) /\ (r = OPT_ACK -> np_agreed b s') /\ r <= OPT_ACK /\
    (forall b, np_agreed b s -> np_agreed b s') /\ (forall o', np_opt_ok o' -> isset (np_nak o' s) = true -> isset (np_nak o' s') = true)
}.

Section laws.
  Context {Ses X : Type} {P : NcpProtocol Ses X} {L : NcpLaws Ses X}.

(** ** Invariants *)
Definition sum_len (opts : list ncp_option_t) : Z := foldr (fun o n => no_len o + n) 0 opts.

(** A list of options, all of them known and agreed on. *)
Definition all_agreed (opts : list ncp_option_t) (ses : Ses) (data : list Z) : Prop :=
  exists bs, data = concat bs /\ Forall opt_wf bs /\ Forall (fun b => np_agreed b ses /\ isset (find_opt (opt_id b) opts) = true) bs.

(** A frame that was sent: if it is an Ack, of such options only. *)
Definition sent_agreed (opts : list ncp_option_t) (ses : Ses) (frame : list Z) : Prop :=
  frame_code frame = CONFACK -> all_agreed opts ses (drop NCP_HDR frame).

(** A request that may be acknowledged. *)
Definition may_ack (opts : list ncp_option_t) (ses : Ses) (frame : list Z) : Prop :=
  exists len, u_read_be16 frame 4 = Ok len /\ 4 <= len /\ (Z.to_nat (len + 2) <= length frame)%nat /\
    all_agreed opts ses (take (Z.to_nat (len - 4)) (drop NCP_HDR frame)).

Record ncp_base (w : ncp_t Ses) : Prop := {
  nb_fault : n_fault w = false;
  nb_ids : NoDup (map no_id (n_options w));
  nb_opts : Forall np_opt_ok (n_options w);
  nb_len : n_conf_req_len w = Z.of_nat NCP_HDR + sum_len (n_options w);
  nb_sent : Forall (sent_agreed (n_options w) (n_ses w)) (n_sent w);
  nb_held : forall frame, n_delay_ack_buf w = Some frame -> may_ack (n_options w) (n_ses w) frame
}.

(** What is being answered. *)
Inductive stage : Type := Idle | Ack | Nak | Rej.

Definition stage_ok (st : stage) (w : ncp_t Ses) : Prop :=
  match st with
  | Idle => True
  | Ack => may_ack (n_options w) (n_ses w) (n_buf w)
  | Nak => NoDup (map (fun ro => opt_id (ro_bytes ro)) (n_ropts w)) /\
      Forall (fun ro => ro_state ro = OPT_NAK -> exists o, find_opt (opt_id (ro_bytes ro)) (n_options w) = Some o /\ isset (np_nak o (n_ses w)) = true) (n_ropts w)
  | Rej => Z.of_nat (length (concat (map ro_bytes (n_ropts w)))) <= n_ropt_len w
  end.

Definition ncp_inv (st : stage) (w : ncp_t Ses) : Prop := ncp_base w /\ stage_ok st w.

(** ** Lemmas on options *)
Lemma find_opt_same id opts opts' :
  Forall2 (fun o o' => no_id o = no_id o' /\ no_len o = no_len o') opts opts' ->
  match find_opt id opts, find_opt id opts' with
  | Some o, Some o' => no_id o = no_id o' /\ no_len o = no_len o'
  | None, None => True
  | _, _ => False
  end.
Proof.
  intros F. induction F as [|o o' opts opts' [Hi Hl] F IH]; [done|]. unfold find_opt in *. cbn [List.find]. rewrite <- Hi.
  destruct (no_id o =? id); [done|exact IH].
Qed.

Lemma find_opt_some id opts o : find_opt id opts = Some o -> o ∈ opts /\ no_id o = id.
Proof. unfold find_opt. intros H. apply find_some in H as [H Hid]. split; [now apply list_elem_of_In|lia]. Qed.

Lemma all_agreed_mono opts opts' ses ses' data :
  (forall b, np_agreed b ses -> np_agreed b ses') ->
  (forall id, isset (find_opt id opts) = true -> isset (find_opt id opts') = true) ->
  all_agreed opts ses data -> all_agreed opts' ses' data.
Proof.
  intros H1 H2 (bs & -> & W & F). exists bs. split_and!; [done..|]. eapply Forall_impl; [exact F|]. intros b [Ha Hf]. auto.
Qed.

Lemma may_ack_mono opts opts' ses ses' data :
  (forall b, np_agreed b ses -> np_agreed b ses') ->
  (forall id, isset (find_opt id opts) = true -> isset (find_opt id opts') = true) ->
  may_ack opts ses data -> may_ack opts' ses' data.
Proof. intros H1 H2 (len & R & G & Hl & A). exists len. split_and!; try done. eapply all_agreed_mono; eauto. Qed.

(** The bytes that distinct options need are not more than those of all options. *)
Definition len_of (opts : list ncp_option_t) (id : Z) : Z := match find_opt id opts with Some o => no_len o | None => 0 end.
Definition sum_ids (opts : list ncp_option_t) (ids : list Z) : Z := foldr (fun id n => len_of opts id + n) 0 ids.

Lemma len_of_cons o opts id : len_of (o :: opts) id = if no_id o =? id then no_len o else len_of opts id.
Proof. unfold len_of, find_opt. cbn [List.find]. now destruct (no_id o =? id). Qed.

Lemma sum_ids_other o opts ids : no_id o ∉ ids -> sum_ids (o :: opts) ids = sum_ids opts ids.
Proof.
  induction ids as [|id ids IH]; intros N; [done|]. unfold sum_ids in *. cbn [foldr]. rewrite len_of_cons, IH by (intros H; apply N; now right).
  destruct (Z.eqb_spec (no_id o) id) as [<-|]; [exfalso; apply N; left|done].
Qed.

Lemma len_of_pos opts id : Forall (fun o => 0 <= no_len o) opts -> 0 <= len_of opts id.
Proof.
  intros F. unfold len_of. destruct (find_opt id opts) as [x|] eqn:Hx; [|lia]. apply find_opt_some in Hx as [Hx _].
  exact (proj1 (Forall_forall _ _) F x Hx).
Qed.

Lemma sum_ids_cons o opts ids :
  0 <= no_len o -> Forall (fun o => 0 <= no_len o) opts -> NoDup ids -> sum_ids (o :: opts) ids <= no_len o + sum_ids opts ids.
Proof.
  intros Ho F N. induction N as [|id ids Hid N IH]; [cbn; lia|]. unfold sum_ids in *. cbn [foldr]. rewrite len_of_cons.
  destruct (Z.eqb_spec (no_id o) id) as [<-|]; [|lia].
  pose proof (sum_ids_other o opts ids Hid) as G. unfold sum_ids in G. rewrite G. pose proof (len_of_pos opts (no_id o) F). lia.
Qed.

Lemma sum_ids_all opts ids : Forall (fun o => 0 <= no_len o) opts -> NoDup ids -> sum_ids opts ids <= sum_len opts.
Proof.
  intros F N. induction F as [|o opts Ho F IH].
  - clear N. induction ids as [|id ids IHi]; [done|]. unfold sum_ids in *. cbn [foldr]. change (len_of [] id) with 0. exact IHi.
  - pose proof (sum_ids_cons o opts ids Ho F N). cbn [sum_len foldr]. fold (sum_len opts). lia.
Qed.

Lemma opts_len_ok opts : Forall np_opt_ok opts -> Forall (fun o => 0 <= no_len o) opts.
Proof. intros F. eapply Forall_impl; [exact F|apply law_len]. Qed.

(** ** The callbacks keep the invariants *)

(** A change of the state that matters to no invariant, but for frames sent that are no Acks. *)
Record ncp_same (w w' : ncp_t Ses) : Prop := {
  ns_options : n_options w' = n_options w;
  ns_ropts : n_ropts w' = n_ropts w;
  ns_ropt_len : n_ropt_len w' = n_ropt_len w;
  ns_held : n_delay_ack_buf w' = n_delay_ack_buf w;
  ns_req_len : n_conf_req_len w' = n_conf_req_len w;
  ns_buf : n_buf w' = n_buf w;
  ns_ses : n_ses w' = n_ses w;
  ns_sent : exists l, n_sent w' = n_sent w ++ l /\ Forall (fun f => frame_code f <> CONFACK) l;
  ns_fault : n_fault w' = n_fault w
}.

#[export] Instance ncp_same_preorder : PreOrder ncp_same.
Proof.
  split; [intros w; split; try done; exists []; now rewrite app_nil_r|].
  intros w1 w2 w3 [A1 A2 A3 A4 A5 A6 A7 (l1 & A8 & A8') A9] [B1 B2 B3 B4 B5 B6 B7 (l2 & B8 & B8') B9]. split; try congruence.
  exists (l1 ++ l2). rewrite B8, A8, app_assoc. split; [done|]. now apply Forall_app.
Qed.

Lemma ncp_same_keeps st w w' : ncp_same w w' -> ncp_inv st w -> ncp_inv st w'.
Proof.
  intros [Ho Hr Hrl Hh Hq Hb Hs (l & Hn & Hl) Hf] [[I1 I2 I3 I4 I5 I6] SO]. split; [split|].
  - congruence.
  - now rewrite Ho.
  - now rewrite Ho.
  - now rewrite Ho, Hq.
  - rewrite Ho, Hs, Hn. apply Forall_app. split; [done|]. eapply Forall_impl; [exact Hl|]. intros f N C. done.
  - now rewrite Ho, Hs, Hh.
  - destruct st; unfold stage_ok in *; rewrite ?Ho, ?Hr, ?Hrl, ?Hb, ?Hs; done.
Qed.

Lemma same_send frame w : frame_code frame <> CONFACK -> ncp_same w (unit_send frame w).
Proof. intros N. split; try done. exists [frame]. split; [done|]. now apply Forall_singleton. Qed.

Lemma ncp_frame_code code id payload : frame_code (ncp_frame code id payload) = u8 code.
Proof. reflexivity. Qed.

Lemma same_do c w : ncp_same w (ncp_do c w).
Proof. split; try done. exists []. now rewrite app_nil_r. Qed.

Lemma same_flags a b c w : ncp_same w (nw_flags w a b c).
Proof. split; try done. exists []. now rewrite app_nil_r. Qed.

Lemma same_term w : ncp_same w (nw_term w).
Proof. split; try done. exists []. now rewrite app_nil_r. Qed.

Lemma same_timeout x w : ncp_same w (nw_timeout w x).
Proof. split; try done. exists []. now rewrite app_nil_r. Qed.

Lemma same_delay x w : ncp_same w (nw_delay w x (n_delay_ack_buf w)).
Proof. split; try done. exists []. now rewrite app_nil_r. Qed.

Lemma same_finish s : ncp_same (snd s) (snd (ncp_layer_finish s)).
Proof. apply same_do. Qed.

Lemma same_terminate cause s : ncp_same (snd s) (snd (ncp_terminate cause s)).
Proof.
  unfold ncp_terminate. destruct (n_terminating (snd s)); [done|]. cbv zeta.
  assert (H : ncp_same (snd s) (ncp_do (CTerminate cause) (nw_term (snd s)))) by (transitivity (nw_term (snd s)); [apply same_term|apply same_do]).
  destruct (n_starting _); cbn [snd on_ncp ncp_layer_finish]; [|done]. etransitivity; [exact H|apply same_do].
Qed.

Lemma same_passive w : ncp_same w (ncp_layer_passive w).
Proof. unfold ncp_layer_passive. destruct (n_started w); [apply same_do|]. etransitivity; [apply same_flags|apply same_do]. Qed.

Lemma same_up_now w : ncp_same w (layer_up_now w).
Proof. unfold layer_up_now. destruct (n_started w); [done|]. etransitivity; [apply same_flags|apply same_do]. Qed.

Lemma same_up s : ncp_same (snd s) (snd (ncp_layer_up s)).
Proof. unfold ncp_layer_up. destruct (n_delay_ack _); [done|]. apply same_up_now. Qed.

Lemma same_finished e s : ncp_same (snd s) (snd (ncp_layer_finished e s)).
Proof.
  unfold ncp_layer_finished, goto. cbn [upd snd].
  repeat (case_match; try apply same_terminate; try apply same_passive); done.
Qed.

(** Requests. *)
Lemma request_loop_spec e opts ses ses' r :
  Forall np_opt_ok opts -> request_loop e opts ses = (ses', r) ->
  (forall bs, r = inr bs -> Z.of_nat (length bs) <= sum_len opts) /\ (forall b, np_agreed b ses -> np_agreed b ses') /\
  (forall o, np_opt_ok o -> isset (np_nak o ses) = true -> isset (np_nak o ses') = true).
Proof.
  intros F. revert ses ses' r. induction F as [|o opts Ho F IH]; intros ses ses' r; cbn [request_loop].
  - intros [= <- <-]. split_and!; [intros bs [= <-]; done|done..].
  - destruct (np_request e o ses) as [s1 r1] eqn:E1. destruct (law_request _ _ _ _ _ Ho E1) as (A1 & A2 & A3).
    destruct r1 as [n|b1]; [intros [= <- <-]; split_and!; done|].
    destruct (request_loop e opts s1) as [s2 r2] eqn:E2. destruct (IH _ _ _ E2) as (B1 & B2 & B3). intros [= <- <-].
    split_and!; [|auto..]. intros bs Hb. destruct r2 as [n|b2]; [done|]. injection Hb as <-. rewrite length_app.
    specialize (A1 b1 eq_refl). specialize (B1 b2 eq_refl). cbn [sum_len foldr]. fold (sum_len opts). lia.
Qed.

Lemma nw_ses_keeps st w ses' :
  (forall b, np_agreed b (n_ses w) -> np_agreed b ses') ->
  (forall o, np_opt_ok o -> isset (np_nak o (n_ses w)) = true -> isset (np_nak o ses') = true) ->
  ncp_inv st w -> ncp_inv st (nw_ses w ses').
Proof.
  intros HA HN [[I1 I2 I3 I4 I5 I6] SO]. split; [split|]; cbn; try done.
  - eapply Forall_impl; [exact I5|]. intros f S C. eapply all_agreed_mono; [exact HA|done|]. now apply S.
  - intros frame Hf. eapply may_ack_mono; [exact HA|done|auto].
  - destruct st; unfold stage_ok in *; cbn; try done.
    + eapply may_ack_mono; [exact HA|done|done].
    + destruct SO as [S1 S2]. split; [done|]. eapply Forall_impl; [exact S2|]. intros ro Hro E. destruct (Hro E) as (o & Fo & No).
      exists o. split; [done|]. apply HN; [|done]. apply find_opt_some in Fo as [Fo _]. exact (proj1 (Forall_forall _ _) I3 o Fo).
Qed.

Lemma check_room_ok st n w : ncp_inv st w -> Z.of_nat n <= Z.of_nat NCP_HDR + sum_len (n_options w) -> check_room n w = w.
Proof. intros [[_ _ _ I4 _ _] _] H. unfold check_room. rewrite I4. destruct (_ <? _) eqn:O; [zbool; lia|done]. Qed.

Lemma ncp_conf_req_keeps st e s : ncp_inv st (snd s) -> ncp_inv st (snd (fst (ncp_send_conf_req e s))).
Proof.
  destruct s as [f w]. cbn [snd]. intros I. unfold ncp_send_conf_req.
  destruct (request_loop (ne_x e) (n_options w) (n_ses w)) as [ses r] eqn:R.
  destruct (request_loop_spec _ _ _ _ _ (nb_opts _ (proj1 I)) R) as (A1 & A2 & A3).
  assert (I' : ncp_inv st (nw_ses w ses)) by (now apply nw_ses_keeps).
  destruct r as [n|payload]; [repeat case_match; exact I'|]. cbn [fst snd].
  rewrite (check_room_ok st) by (try done; cbn [n_options nw_ses]; specialize (A1 payload eq_refl); lia).
  eapply ncp_same_keeps; [apply same_send|exact I']. now rewrite ncp_frame_code.
Qed.

(** Acks: what is sent or held is the request, with another code. *)
Lemma insert_code_read (frame : list Z) c : u_read_be16 (<[2%nat := c]> frame) 4 = u_read_be16 frame 4.
Proof. unfold u_read_be16, slice. rewrite length_insert. case_decide; [|done]. now rewrite drop_insert_lt by lia. Qed.

Lemma ack_frame_ok opts ses frame :
  may_ack opts ses frame -> exists out, ack_frame frame = Ok out /\ sent_agreed opts ses out.
Proof.
  intros (len & R & G & Hl & A). unfold ack_frame. rewrite R. cbn [mbind res_bind].
  rewrite slice_ok by (rewrite length_insert; lia). eexists. split; [reflexivity|]. intros _. rewrite drop_0, skipn_firstn_comm.
  replace (Z.to_nat (len + 2) - NCP_HDR)%nat with (Z.to_nat (len - 4)) by (unfold NCP_HDR; lia).
  now rewrite drop_insert_lt by (unfold NCP_HDR; lia).
Qed.

Lemma hold_ok opts ses frame :
  may_ack opts ses frame ->
  exists out, (len ← u_read_be16 frame 4; slice 0 (Z.to_nat (len + 2)) frame) = Ok out /\ may_ack opts ses out.
Proof.
  intros (len & R & G & Hl & A). rewrite R. cbn [mbind res_bind]. rewrite slice_ok by lia. rewrite drop_0. eexists. split; [reflexivity|].
  exists len. split_and!; [|done|rewrite length_take; lia|].
  - rewrite <- R. rewrite <- (take_drop (Z.to_nat (len + 2)) frame) at 2. unfold u_read_be16. now rewrite slice_front by (rewrite length_take; lia).
  - rewrite skipn_firstn_comm. replace (Z.to_nat (len + 2) - NCP_HDR)%nat with (Z.to_nat (len - 4)) by (unfold NCP_HDR; lia).
    now rewrite take_take, Nat.min_id.
Qed.

Lemma may_ack_code opts ses frame c : may_ack opts ses frame -> may_ack opts ses (<[2%nat := c]> frame).
Proof.
  intros (len & R & G & Hl & A). exists len. rewrite insert_code_read, length_insert, drop_insert_lt by (unfold NCP_HDR; lia). done.
Qed.

Lemma conf_ack_inv s : ncp_inv Ack (snd s) -> ncp_inv Ack (snd (ncp_send_conf_ack s)).
Proof.
  destruct s as [f w]. intros [[I1 I2 I3 I4 I5 I6] M]. unfold ncp_send_conf_ack. cbn [snd on_ncp stage_ok] in *.
  destruct (n_delay_ack w).
  - destruct (hold_ok _ _ _ M) as (out & -> & Mo). split; [split|]; cbn; try done. now intros frame [= <-].
  - destruct (ack_frame_ok _ _ _ M) as (out & -> & So). split; [split|]; cbn; try done.
    + apply Forall_app. split; [done|]. now apply Forall_singleton.
    + now apply may_ack_code.
Qed.

Lemma nak_loop_ok ropts opts ses :
  Forall np_opt_ok opts ->
  Forall (fun ro => ro_state ro = OPT_NAK -> exists o, find_opt (opt_id (ro_bytes ro)) opts = Some o /\ isset (np_nak o ses) = true) ropts ->
  exists bs, nak_loop ropts opts ses = Some bs /\ Z.of_nat (length bs) <= sum_ids opts (map (fun ro => opt_id (ro_bytes ro)) ropts).
Proof.
  intros Fo F. induction F as [|ro ropts Hro F (rest & IH & Hl)]; [exists []; done|]. cbn [nak_loop map].
  pose proof (len_of_pos opts (opt_id (ro_bytes ro)) (opts_len_ok _ Fo)) as Pos. unfold sum_ids in *. cbn [foldr].
  destruct (Z.eqb_spec (ro_state ro) OPT_NAK) as [En|].
  - destruct (Hro En) as (o & Hf & Hn). rewrite Hf. cbn [mbind option_bind]. destruct (np_nak o ses) as [bs|] eqn:Eb; [|done].
    rewrite IH. eexists. split; [reflexivity|]. rewrite length_app. unfold len_of at 1. rewrite Hf.
    apply find_opt_some in Hf as [Hf _]. rewrite Nat2Z.inj_add, (law_nak o ses bs) by (try done; exact (proj1 (Forall_forall _ _) Fo o Hf)). lia.
  - cbn [mbind option_bind]. rewrite IH. eexists. split; [reflexivity|]. cbn [app]. lia.
Qed.

Lemma conf_nak_inv s : ncp_inv Nak (snd s) -> ncp_inv Nak (snd (ncp_send_conf_nak s)).
Proof.
  destruct s as [f w]. cbn [snd]. intros I. pose proof I as [B [N F]]. unfold ncp_send_conf_nak.
  destruct (nak_loop_ok (n_ropts w) (n_options w) (n_ses w) (nb_opts _ B) F) as (bs & -> & Hl). cbn [snd].
  pose proof (sum_ids_all (n_options w) _ (opts_len_ok _ (nb_opts _ B)) N) as Hs.
  rewrite (check_room_ok Nak) by (try done; lia). eapply ncp_same_keeps; [apply same_send|exact I]. now rewrite ncp_frame_code.
Qed.

Lemma rej_payload_len ropts : (length (concat (map ro_bytes (List.filter (fun r => (ro_state r =? OPT_REJ)%Z) ropts))) <= length (concat (map ro_bytes ropts)))%nat.
Proof. induction ropts as [|r l IH]; cbn; [done|]. destruct (_ =? _); cbn; rewrite !length_app; lia. Qed.

Lemma conf_rej_inv s : ncp_inv Rej (snd s) -> ncp_inv Rej (snd (ncp_send_conf_rej s)).
Proof.
  destruct s as [f w]. cbn [snd]. intros I. pose proof I as [B R]. cbn [stage_ok] in R. unfold ncp_send_conf_rej.
  pose proof (rej_payload_len (n_ropts w)) as Hp. destruct (_ <? _) eqn:O; [zbool; lia|]. cbn [snd].
  eapply ncp_same_keeps; [apply same_send|exact I]. now rewrite ncp_frame_code.
Qed.

(** The layer with the callbacks for one kind of answer only: the automaton calls no other while it handles a
    request of this kind. *)
Definition stage_ops (e : ncp_env X) (st : stage) (down : option (fst_t (ncp_t Ses) -> fst_t (ncp_t Ses))) : ppp_fsm_ops (ncp_t Ses) :=
  mk_fsm_ops (Some ncp_layer_up) down None (Some (ncp_layer_finished e)) (Some (ncp_send_conf_req e))
    (match st with Ack => Some ncp_send_conf_ack | _ => None end) (match st with Nak => Some ncp_send_conf_nak | _ => None end)
    (match st with Rej => Some ncp_send_conf_rej | _ => None end) None ncp_send_term_req ncp_send_term_ack (fun _ => ne_timer_ok e).

Lemma stage_keeping_down e st ops_st down : keeps_opt (ncp_inv st) down -> KeepingLayer (ncp_inv st) (stage_ops e ops_st down).
Proof.
  intros D. split; cbn; try done; intros s.
  - apply ncp_same_keeps, same_up.
  - apply ncp_same_keeps, same_finished.
  - apply ncp_conf_req_keeps.
  - apply ncp_same_keeps, same_send. now rewrite ncp_frame_code.
  - apply ncp_same_keeps, same_send. now rewrite ncp_frame_code.
Qed.

#[export] Instance stage_keeping e st ops_st : KeepingLayer (ncp_inv st) (stage_ops e ops_st (Some (ncp_layer_down e))).
Proof.
  apply stage_keeping_down. intros s. pose proof (stage_keeping_down e st Ack None I) as K. exact (close_keeps (ncp_inv st) (stage_ops e Ack None) s).
Qed.

#[export] Instance stage_answering e st : AnsweringLayer (ncp_inv st) (stage_ops e st (Some (ncp_layer_down e))).
Proof. destruct st; split; cbn; try done; intros s; [apply conf_ack_inv|apply conf_nak_inv|apply conf_rej_inv]. Qed.

(** ** Reception *)

(** What the loop over the options leaves alone. *)
Record judged (w w' : ncp_t Ses) : Prop := {
  jd_opts : Forall2 (fun o o' => no_id o = no_id o' /\ no_len o = no_len o') (n_options w) (n_options w');
  jd_buf : n_buf w' = n_buf w;
  jd_ropts : n_ropts w' = n_ropts w;
  jd_ropt_len : n_ropt_len w' = n_ropt_len w;
  jd_agreed : forall b, np_agreed b (n_ses w) -> np_agreed b (n_ses w');
  jd_nak : forall o, np_opt_ok o -> isset (np_nak o (n_ses w)) = true -> isset (np_nak o (n_ses w')) = true
}.

Lemma same_opts_refl (opts : list ncp_option_t) : Forall2 (fun o o' => no_id o = no_id o' /\ no_len o = no_len o') opts opts.
Proof. induction opts; constructor; auto. Qed.

Lemma same_opts_trans (a b c : list ncp_option_t) :
  Forall2 (fun o o' => no_id o = no_id o' /\ no_len o = no_len o') a b -> Forall2 (fun o o' => no_id o = no_id o' /\ no_len o = no_len o') b c ->
  Forall2 (fun o o' => no_id o = no_id o' /\ no_len o = no_len o') a c.
Proof.
  intros F. revert c. induction F as [|o1 o2 a b [] F IH]; intros c G; inversion G as [|? o3 ? ? []]; subst; constructor; [|auto]. split; congruence.
Qed.

#[export] Instance judged_preorder : PreOrder judged.
Proof.
  split; [intros w; split; try done; apply same_opts_refl|].
  intros w1 w2 w3 [A1 A2 A3 A4 A5 A6] [B1 B2 B3 B4 B5 B6]. split; try congruence; [eapply same_opts_trans; eauto|auto..].
Qed.

Lemma same_opts_sum (a b : list ncp_option_t) : Forall2 (fun o o' => no_id o = no_id o' /\ no_len o = no_len o') a b -> sum_len a = sum_len b.
Proof. unfold sum_len. induction 1 as [|? ? ? ? [] F IH]; cbn [foldr]; lia. Qed.

Lemma same_opts_ids (a b : list ncp_option_t) : Forall2 (fun o o' => no_id o = no_id o' /\ no_len o = no_len o') a b -> map no_id a = map no_id b.
Proof. induction 1 as [|? ? ? ? [] F IH]; cbn; congruence. Qed.

Lemma same_opts_ok a b : Forall2 (fun o o' => no_id o = no_id o' /\ no_len o = no_len o') a b -> Forall np_opt_ok a -> Forall np_opt_ok b.
Proof.
  induction 1 as [|o o' ? ? [] F IH]; intros G; [done|]. apply Forall_cons in G as [Ho G]. apply Forall_cons. split; [|auto].
  eapply law_same; [..|exact Ho]; done.
Qed.

Lemma same_opts_isset id a b :
  Forall2 (fun o o' => no_id o = no_id o' /\ no_len o = no_len o') a b -> isset (find_opt id a) = isset (find_opt id b).
Proof. intros F. pose proof (find_opt_same id a b F) as G. destruct (find_opt id a), (find_opt id b); done. Qed.

Lemma nw_options_keeps w opts :
  Forall2 (fun o o' => no_id o = no_id o' /\ no_len o = no_len o') (n_options w) opts ->
  ncp_base w -> ncp_base (nw_options w opts (n_conf_req_len w)).
Proof.
  intros F [I1 I2 I3 I4 I5 I6]. assert (G : forall id, isset (find_opt id (n_options w)) = true -> isset (find_opt id opts) = true).
  { intros id. now rewrite (same_opts_isset id _ _ F). }
  split; cbn; try done.
  - now rewrite <- (same_opts_ids _ _ F).
  - eapply same_opts_ok; eauto.
  - change (n_conf_req_len w = Z.of_nat NCP_HDR + sum_len opts). now rewrite <- (same_opts_sum _ _ F).
  - eapply Forall_impl; [exact I5|]. intros f S C. eapply all_agreed_mono; [|exact G|now apply S]. done.
  - intros frame Hf. eapply may_ack_mono; [|exact G|auto]. done.
Qed.

Lemma update_opt_same id g opts :
  (forall o, no_id (g o) = no_id o /\ no_len (g o) = no_len o) ->
  Forall2 (fun o o' => no_id o = no_id o' /\ no_len o = no_len o') opts (update_opt id g opts).
Proof. intros G. induction opts as [|o opts IH]; cbn; constructor; [|done]. destruct (_ =? _); [|done]. destruct (G o). done. Qed.

(** A stop of the loop ends the session, or answers nothing. *)
Lemma judge_loop_spec e ropts f w ret s' done ret' stop :
  ncp_base w -> Forall (fun ro => opt_wf (ro_bytes ro)) ropts -> ret <= OPT_ACK ->
  judge_loop e ropts (f, w) ret = (s', done, ret', stop) ->
  ncp_base (snd s') /\ judged w (snd s') /\ map ro_bytes done = map ro_bytes ropts /\ (stop = true -> ret' = 0 \/ n_terminating (snd s') = true) /\
  (stop = false ->
    Forall (fun ro => ro_state ro = OPT_NAK -> exists o, find_opt (opt_id (ro_bytes ro)) (n_options (snd s')) = Some o /\ isset (np_nak o (n_ses (snd s'))) = true) done /\
    ret' <= OPT_ACK /\ (ret' = OPT_ACK -> ret = OPT_ACK /\ Forall (fun ro => np_agreed (ro_bytes ro) (n_ses (snd s')) /\ isset (find_opt (opt_id (ro_bytes ro)) (n_options (snd s'))) = true) ropts)).
Proof.
  intros B F. revert f w ret s' done ret' stop B. induction F as [|ro ropts Wf F IH]; intros f w ret s' done ret' stop B Hret; cbn [judge_loop].
  - intros [= <- <- <- <-]. cbn [snd]. split_and!; [done|reflexivity|done|done|]. intros _. split_and!; [apply Forall_nil_2|done|]. intros ->. split; [done|apply Forall_nil_2].
  - destruct (find_opt _ (n_options w)) as [o|] eqn:Hf.
    + pose proof (find_opt_some _ _ _ Hf) as [Ho Hid]. assert (Ok : np_opt_ok o) by exact (proj1 (Forall_forall _ _) (nb_opts _ B) o Ho).
      destruct (np_judge _ _ o (n_ses w)) as [[ses r] acked] eqn:J.
      destruct (law_judge _ _ _ _ _ _ _ Ok Wf (eq_sym Hid) J) as (J1 & J2 & J3 & J4 & J5).
      set (w1 := if acked then _ else _).
      assert (B1 : ncp_base w1).
      { assert (I1 : ncp_inv Idle (nw_ses w ses)) by (apply nw_ses_keeps; [done..|split; [done|exact I]]).
        unfold w1. destruct acked; [|apply I1]. eapply (ncp_same_keeps Idle); [apply same_delay|exact I1]. }
      assert (D1 : judged w w1) by (unfold w1; destruct acked; split; try done; apply same_opts_refl).
      assert (S1 : n_ses w1 = ses) by (unfold w1; now destruct acked). assert (O1 : n_options w1 = n_options w) by (unfold w1; now destruct acked).
      destruct (r =? OPT_TERMACK).
      { intros [= <- <- <- <-]. cbn [snd ncp_send_term_ack]. split_and!; [| |done|auto|done].
        - eapply (ncp_same_keeps Idle); [apply same_send; now rewrite ncp_frame_code|split; [exact B1|exact I]].
        - etransitivity; [exact D1|]. split; try done; apply same_opts_refl. }
      destruct (r =? OPT_CLOSE).
      { intros [= <- <- <- <-]. split_and!; [| |done|auto|done].
        - destruct (ne_mode e =? NCP_REQUIRE); (eapply (ncp_same_keeps Idle); [|split; [exact B1|exact I]]); [apply (same_terminate _ (f, w1))|apply same_do].
        - etransitivity; [exact D1|]. destruct (ne_mode e =? NCP_REQUIRE); cbn [snd]; [|split; try done; apply same_opts_refl].
          pose proof (same_terminate TERM_NAS_ERROR (f, w1)) as [T1 T2 T3 T4 T5 T6 T7 T8 T9]. cbn [snd] in *. split; rewrite ?T1, ?T7; try done. apply same_opts_refl. }
      destruct (n_terminating w1) eqn:Tm; [intros [= <- <- <- <-]; cbn [snd]; split_and!; auto; done|].
      set (opts := update_opt _ _ _). set (w2 := nw_options w1 opts _).
      assert (Fo : Forall2 (fun o o' => no_id o = no_id o' /\ no_len o = no_len o') (n_options w1) opts) by (apply update_opt_same; done).
      assert (B2 : ncp_base w2) by (now apply nw_options_keeps).
      destruct (judge_loop e ropts (f, w2) _) as [[[s2 d2] r2] st2] eqn:Q. intros [= <- <- <- <-].
      assert (Hr : (if r <? ret then r else ret) <= OPT_ACK) by (destruct (r <? ret); done).
      destruct (IH f w2 _ _ _ _ _ B2 Hr Q) as (C1 & C2 & C3 & C4 & C5).
      assert (D2 : judged w (snd s2)).
      { etransitivity; [exact D1|]. etransitivity; [|exact C2]. split; try done. }
      split_and!; [done|done|cbn; congruence|done|]. intros E. destruct (C5 E) as (G1 & G2 & G3).
      assert (Io : isset (find_opt (opt_id (ro_bytes ro)) (n_options (snd s2))) = true) by (rewrite <- (same_opts_isset _ _ _ (jd_opts _ _ D2)), Hf; done).
      split_and!; [|done|].
      * apply Forall_cons. split; [|done]. cbn [ro_state ro_bytes]. intros En. destruct (find_opt _ (n_options (snd s2))) as [o2|] eqn:H2; [|done].
        exists o2. split; [done|]. pose proof (find_opt_same (opt_id (ro_bytes ro)) _ _ (jd_opts _ _ D2)) as M. rewrite Hf, H2 in M.
        rewrite <- (law_nak_same o o2) by apply M. apply (jd_nak _ _ C2); [done|]. cbn [n_ses w2 nw_options]. rewrite S1. now apply J1.
      * intros R2. destruct (G3 R2) as [R3 R4]. destruct (r <? ret) eqn:O; zbool; [unfold OPT_ACK in *; lia|]. split; [done|].
        apply Forall_cons. split; [|done]. split; [|done]. apply (jd_agreed _ _ C2). cbn [n_ses w2 nw_options]. rewrite S1. apply J2. unfold OPT_ACK in *. lia.
    + destruct (judge_loop e ropts (f, w) OPT_REJ) as [[[s2 d2] r2] st2] eqn:Q. intros [= <- <- <- <-].
      destruct (IH f w OPT_REJ _ _ _ _ B ltac:(done) Q) as (C1 & C2 & C3 & C4 & C5). split_and!; [done|done|cbn; congruence|done|].
      intros E. destruct (C5 E) as (G1 & G2 & G3). split_and!; [|done|].
      * apply Forall_cons. split; [done|done].
      * intros R2. destruct (G3 R2) as [R3 _]. done.
Qed.

(** The automaton with the callbacks of the layer. *)
Lemma ncp_lower_up_keeps st e s : ncp_inv st (snd s) -> ncp_inv st (snd (fst (ppp_fsm_lower_up (ncp_ops e) s))).
Proof. exact (lower_up_keeps (ncp_inv st) (stage_ops e st (Some (ncp_layer_down e))) s). Qed.
Lemma ncp_open_keeps st e s : ncp_inv st (snd s) -> ncp_inv st (snd (fst (ppp_fsm_open (ncp_ops e) s))).
Proof. exact (open_keeps (ncp_inv st) (stage_ops e st (Some (ncp_layer_down e))) s). Qed.
Lemma ncp_answer_keeps e s :
  (ncp_inv Ack (snd s) -> ncp_inv Ack (snd (ppp_fsm_recv_conf_req_ack (ncp_ops e) s))) /\
  (ncp_inv Nak (snd s) -> ncp_inv Nak (snd (ppp_fsm_recv_conf_req_nak (ncp_ops e) s))) /\
  (ncp_inv Rej (snd s) -> ncp_inv Rej (snd (ppp_fsm_recv_conf_req_rej (ncp_ops e) s))).
Proof.
  split_and!.
  - exact (conf_req_ack_keeps (ncp_inv Ack) (stage_ops e Ack (Some (ncp_layer_down e))) s).
  - exact (conf_req_nak_keeps (ncp_inv Nak) (stage_ops e Nak (Some (ncp_layer_down e))) s).
  - exact (conf_req_rej_keeps (ncp_inv Rej) (stage_ops e Rej (Some (ncp_layer_down e))) s).
Qed.
Lemma ncp_event_keeps st e s :
  ncp_inv st (snd s) ->
  ncp_inv st (snd (ppp_fsm_recv_conf_ack (ncp_ops e) s)) /\ ncp_inv st (snd (ppp_fsm_recv_conf_rej (ncp_ops e) s)) /\
  ncp_inv st (snd (ppp_fsm_recv_term_req (ncp_ops e) s)) /\ ncp_inv st (snd (ppp_fsm_recv_code_rej_bad (ncp_ops e) s)) /\
  ncp_inv st (snd (ppp_fsm_lower_down (ncp_ops e) s)) /\ ncp_inv st (snd (ppp_fsm_close (ncp_ops e) s)) /\
  ncp_inv st (snd (restart_timer_func (ncp_ops e) s)).
Proof.
  intros Inv. split_and!; revert Inv.
  - exact (recv_conf_ack_keeps (ncp_inv st) (stage_ops e st (Some (ncp_layer_down e))) s).
  - exact (recv_conf_rej_keeps (ncp_inv st) (stage_ops e st (Some (ncp_layer_down e))) s).
  - exact (recv_term_req_keeps (ncp_inv st) (stage_ops e st (Some (ncp_layer_down e))) s).
  - exact (code_rej_bad_keeps (ncp_inv st) (stage_ops e st (Some (ncp_layer_down e))) s).
  - exact (lower_down_keeps (ncp_inv st) (stage_ops e st (Some (ncp_layer_down e))) s).
  - exact (close_keeps (ncp_inv st) (stage_ops e st (Some (ncp_layer_down e))) s).
  - exact (restart_keeps (ncp_inv st) (stage_ops e st (Some (ncp_layer_down e))) s).
Qed.

Definition stage_of (r : Z) : stage := if r =? OPT_ACK then Ack else if r =? OPT_NAK then Nak else if r =? OPT_REJ then Rej else Idle.

(** The options of a request have different numbers. *)
Definition distinct (data : list Z) : Prop := NoDup (map opt_id (fst (collect_opts (length data) data))).

(** [data] is what follows the header in the buffer. *)
Definition in_buf (data : list Z) (w : ncp_t Ses) : Prop :=
  exists len, u_read_be16 (n_buf w) 4 = Ok len /\ 4 <= len /\ (Z.to_nat (len + 2) <= length (n_buf w))%nat /\
    data = take (Z.to_nat (len - 4)) (drop NCP_HDR (n_buf w)).

Lemma ncp_recv_conf_req_inv e data s s' r :
  ncp_inv Idle (snd s) -> n_ropts (snd s) = [] -> in_buf data (snd s) -> bytes_ok data -> distinct data ->
  ncp_recv_conf_req e data s = (s', r) ->
  n_terminating (snd s') = true /\ ncp_inv Idle (snd s') \/ ncp_inv (stage_of r) (snd s').
Proof.
  intros [B _] R0 (len & Rl & G & Hl & Ed) Bd Dd. unfold ncp_recv_conf_req, distinct in *. destruct (collect_opts _ _) as [bs ok] eqn:C.
  destruct (collect_opts_sound _ _ _ _ C) as (Lc & Ec & Wc). specialize (Wc Bd). cbn [fst] in Dd. rewrite R0. cbn [app].
  set (ropts := map _ bs). destruct s as [f w]. cbn [snd on_ncp fst] in *. cbv zeta. cbn [snd on_ncp fst].
  set (w1 := nw_ropts w ropts (Z.of_nat (length data))).
  assert (B1 : ncp_base w1) by (destruct B; split; done).
  destruct ok; [|intros [= <- <-]; right; split; [done|exact I]].
  set (w2 := nw_options w1 (map (fun o => set_no_state o OPT_NONE) (n_options w1)) (n_conf_req_len w1)).
  assert (F2 : Forall2 (fun o o' => no_id o = no_id o' /\ no_len o = no_len o') (n_options w1) (n_options w2)).
  { cbn [w2 nw_options n_options]. clear. induction (n_options w1); constructor; done. }
  assert (B2 : ncp_base w2) by (now apply nw_options_keeps).
  assert (Fr : Forall (fun ro => opt_wf (ro_bytes ro)) ropts) by (apply Forall_fmap; eapply Forall_impl; [exact Wc|done]).
  assert (Mr : map ro_bytes ropts = bs) by (unfold ropts; rewrite map_map; cbn; apply map_id).
  match goal with |- context [judge_loop e ropts ?x 1] => change x with (f, w2) end.
  destruct (judge_loop e ropts (f, w2) 1) as [[[s3 done] ret] stop] eqn:J.
  destruct (judge_loop_spec e ropts f w2 1 s3 done ret stop B2 Fr ltac:(done) J) as (C1 & C2 & C3 & C4 & C5).
  intros [= <- <-]. cbn [snd on_ncp].
  assert (B3 : ncp_base (nw_ropts (snd s3) done (n_ropt_len (snd s3)))) by (destruct C1; split; done).
  assert (Base : ncp_inv Idle (nw_ropts (snd s3) done (n_ropt_len (snd s3)))) by (split; [done|exact I]).
  destruct stop.
  { destruct (C4 eq_refl) as [->|T]; [right; exact Base|left; split; [exact T|exact Base]]. }
  right. destruct (C5 eq_refl) as (N1 & N2 & N3). split; [done|].
  unfold stage_of. destruct (Z.eqb_spec ret OPT_ACK) as [->|]; [|destruct (ret =? OPT_NAK); [|destruct (ret =? OPT_REJ); [|exact I]]]; cbn [stage_ok nw_ropts n_ropts n_options n_ses n_buf n_ropt_len].
  - destruct (N3 eq_refl) as [_ A]. rewrite (jd_buf _ _ C2). exists len. split_and!; try done. exists bs. split_and!.
    + rewrite <- (Ec eq_refl). exact (eq_sym Ed).
    + done.
    + rewrite <- Mr. apply Forall_fmap. exact A.
  - split; [|exact N1]. rewrite <- (map_map ro_bytes opt_id), C3, Mr. exact Dd.
  - rewrite C3, Mr, (jd_ropt_len _ _ C2). cbn [w2 w1 nw_options nw_ropts n_ropt_len]. lia.
Qed.

Lemma free_inv st w : ncp_inv st w -> ncp_inv Idle (ncp_free_conf_req w) /\ n_ropts (ncp_free_conf_req w) = [].
Proof. intros [[] _]. split; [|done]. split; [split; done|exact I]. Qed.

Lemma inv_idle st w : ncp_inv st w -> ncp_inv Idle w.
Proof. intros [B _]. split; [done|exact I]. Qed.

Lemma terminate_idle cause s :
  ncp_inv Idle (snd s) /\ n_ropts (snd s) = [] -> ncp_inv Idle (snd (ncp_terminate cause s)) /\ n_ropts (snd (ncp_terminate cause s)) = [].
Proof. intros [Inv R]. pose proof (same_terminate cause s) as T. split; [eapply ncp_same_keeps; eauto|]. now rewrite (ns_ropts _ _ T). Qed.

Lemma ncp_recv_CONFREQ_inv e data s :
  ncp_inv Idle (snd s) -> n_ropts (snd s) = [] -> in_buf data (snd s) -> bytes_ok data -> distinct data ->
  ncp_inv Idle (snd (ncp_recv_CONFREQ e data s)) /\ n_ropts (snd (ncp_recv_CONFREQ e data s)) = [].
Proof.
  intros Inv R0 Ib Bd Dd. unfold ncp_recv_CONFREQ. destruct (ncp_recv_conf_req e data s) as [s1 r] eqn:Q.
  pose proof (ncp_recv_conf_req_inv e data s s1 r Inv R0 Ib Bd Dd Q) as S1.
  destruct (n_terminating (snd s1)) eqn:T; [destruct S1 as [[_ S1]|S1]; eapply free_inv, S1|]. destruct S1 as [[? _]|S1]; [done|]. cbv zeta.
  set (s2 := if negb (r =? 0) && _ then _ else s1). assert (S2 : ncp_inv (stage_of r) (snd s2)).
  { unfold s2. destruct (negb (r =? 0) && _); [|done]. cbn [snd on_ncp]. eapply ncp_same_keeps; [apply same_timeout|].
    apply ncp_open_keeps, ncp_lower_up_keeps. cbn [snd on_ncp]. eapply ncp_same_keeps; [apply same_flags|exact S1]. }
  set (s3 := if _ && negb (n_delay_ack (snd s2)) then _ else s2). assert (S3 : ncp_inv (stage_of r) (snd s3)).
  { unfold s3. destruct (n_delay_ack (snd s) && _); [|exact S2]. cbn [snd on_ncp]. eapply ncp_same_keeps; [apply same_up_now|exact S2]. }
  clearbody s3. clear S1 S2 s2 Q. destruct (ncp_answer_keeps e s3) as (K1 & K2 & K3). unfold stage_of in S3.
  assert (Done : forall st s4 r4, ncp_inv st (snd s4) ->
    let s5 := on_ncp ncp_free_conf_req s4 in
    ncp_inv Idle (snd (if r4 =? OPT_FAIL then ncp_terminate TERM_USER_ERROR s5 else s5)) /\ n_ropts (snd (if r4 =? OPT_FAIL then ncp_terminate TERM_USER_ERROR s5 else s5)) = []).
  { intros st s4 r4 I4 s5. pose proof (free_inv st (snd s4) I4) as F5. destruct (r4 =? OPT_FAIL); [|exact F5]. now apply terminate_idle. }
  destruct (n_started (snd s3) || _).
  - destruct (r =? OPT_ACK); [apply (Done Ack), conf_ack_inv, S3|eapply Done, S3].
  - destruct (r =? OPT_ACK); [apply (Done Ack), K1, S3|]. destruct (r =? OPT_NAK); [apply (Done Nak), K2, S3|].
    destruct (r =? OPT_REJ); [apply (Done Rej), K3, S3|]. eapply Done, S3.
Qed.

(** ** Every run keeps the invariant *)

(** Between two events no option of a request is kept. *)
Definition ncp_rest (w : ncp_t Ses) : Prop := ncp_inv Idle w /\ n_ropts w = [].

Definition request_data (frame : list Z) : list Z :=
  take (Z.to_nat (be_decode (take 2 (drop 4 frame)) - 4)) (drop NCP_HDR frame).

(** A frame of bytes; the options of a request differ. *)
Definition frame_distinct (frame : list Z) : Prop :=
  bytes_ok frame /\ (frame_code frame = CONFREQ -> distinct (request_data frame)).

Definition event_distinct (ev : ncp_event) : Prop := match ev with NFrame frame => frame_distinct frame | _ => True end.

Lemma rest_same w w' : ncp_same w w' -> ncp_rest w -> ncp_rest w'.
Proof. intros S [Inv R]. split; [eapply ncp_same_keeps; eauto|]. now rewrite (ns_ropts _ _ S). Qed.

(** The received options are changed by the reception of requests only. *)
Definition no_ropts (w : ncp_t Ses) : Prop := n_ropts w = [].

Lemma no_ropts_keeping_down e st down : keeps_opt no_ropts down -> KeepingLayer no_ropts (stage_ops e st down).
Proof.
  intros D. split; cbn; try done; intros s; unfold no_ropts.
  - rewrite (ns_ropts _ _ (same_up s)). done.
  - rewrite (ns_ropts _ _ (same_finished e s)). done.
  - destruct s as [f w]. unfold ncp_send_conf_req. destruct (request_loop _ _ _) as [ses r]. destruct r; repeat case_match; cbn; try done.
    unfold check_room. now case_match.
  - done.
  - done.
Qed.

Lemma rest_keeping_down e st down : keeps_opt ncp_rest down -> KeepingLayer ncp_rest (stage_ops e st down).
Proof.
  intros D. pose proof (stage_keeping_down e Idle st None I) as [A1 A2 A3 A4 A5 A6 A7]. pose proof (no_ropts_keeping_down e st None I) as [B1 B2 B3 B4 B5 B6 B7].
  split; cbn in *; try done; intros s [Hi Hr]; split; auto; [exact (B1 s Hr)|exact (B4 s Hr)|exact (B5 s Hr)].
Qed.

#[export] Instance rest_keeping e st : KeepingLayer ncp_rest (stage_ops e st (Some (ncp_layer_down e))).
Proof. apply rest_keeping_down. intros s. pose proof (rest_keeping_down e st None I) as K. exact (close_keeps ncp_rest (stage_ops e st None) s). Qed.

Lemma rest_lower_up e s : ncp_rest (snd s) -> ncp_rest (snd (fst (ppp_fsm_lower_up (ncp_ops e) s))).
Proof. exact (lower_up_keeps ncp_rest (stage_ops e Idle (Some (ncp_layer_down e))) s). Qed.
Lemma rest_open e s : ncp_rest (snd s) -> ncp_rest (snd (fst (ppp_fsm_open (ncp_ops e) s))).
Proof. exact (open_keeps ncp_rest (stage_ops e Idle (Some (ncp_layer_down e))) s). Qed.

Lemma ncp_start_rest e s : ncp_rest (snd s) -> ncp_rest (snd (fst (ncp_layer_start e s))).
Proof.
  intros R. unfold ncp_layer_start. set (s0 := on_ncp _ s). assert (R0 : ncp_rest (snd s0)) by (eapply rest_same; [apply same_flags|exact R]).
  destruct (ne_mode e =? NCP_DENY); [exact R0|]. destruct (n_passive _); [eapply rest_same; [apply same_timeout|exact R0]|]. cbv zeta.
  pose proof (rest_open e _ (rest_lower_up e s0 R0)) as R2. destruct (ppp_fsm_open _ _) as [s2 r]. exact R2.
Qed.

Lemma ncp_dispatch_rest e code data s :
  ncp_rest (snd s) -> in_buf data (snd s) -> bytes_ok data -> (code = CONFREQ -> distinct data) -> ncp_rest (snd (ncp_dispatch e code data s)).
Proof.
  intros R Ib Bd Dd. unfold ncp_dispatch, ncp_recv_ANSWER.
  assert (T : forall c s, ncp_rest (snd s) -> ncp_rest (snd (ncp_terminate c s))) by (intros c s' R'; eapply rest_same; [apply same_terminate|exact R']).
  destruct (Z.eqb_spec code CONFREQ); [apply ncp_recv_CONFREQ_inv; [apply R|apply R|done|done|auto]|].
  destruct (code =? CONFACK); [destruct (negb _); [now apply T|exact (recv_conf_ack_keeps ncp_rest (stage_ops e Idle (Some (ncp_layer_down e))) s R)]|].
  destruct (code =? CONFNAK); [destruct (negb _); [now apply T|exact (recv_conf_rej_keeps ncp_rest (stage_ops e Idle (Some (ncp_layer_down e))) s R)]|].
  destruct (code =? CONFREJ); [destruct (negb _); [now apply T|exact (recv_conf_rej_keeps ncp_rest (stage_ops e Idle (Some (ncp_layer_down e))) s R)]|].
  destruct (code =? TERMREQ).
  { pose proof (recv_term_req_keeps ncp_rest (stage_ops e Idle (Some (ncp_layer_down e))) s R) as R'. cbv zeta. destruct (_ || _); [now apply T|].
    eapply rest_same; [apply same_passive|exact R']. }
  destruct (code =? TERMACK); [exact R|]. destruct (code =? CODEREJ); [exact (code_rej_bad_keeps ncp_rest (stage_ops e Idle (Some (ncp_layer_down e))) s R)|].
  exact R.
Qed.

Lemma ncp_recv_rest e s : frame_distinct (n_buf (snd s)) -> ncp_rest (snd s) -> ncp_rest (snd (ncp_recv e s)).
Proof.
  destruct s as [f w]. cbn [snd]. intros [Bf Df] R. unfold ncp_recv. destruct (_ || _ || _ || _).
  { destruct (n_terminating w); [exact R|]. destruct (_ || _); [|exact R]. eapply rest_same; [apply same_do|exact R]. }
  destruct (_ <? PPP_HEADERLEN + 2) eqn:Sh; [exact R|]. zbool. unfold PPP_HEADERLEN, PPP_HDRLEN in *.
  destruct (n_buf w) as [|p1 [|p0 [|code [|id [|len1 [|len0 rest]]]]]] eqn:Eb; try (cbn in Sh; lia).
  destruct (_ || (_ <? be_decode _)) eqn:Hlen; [exact R|]. bools. destruct (is_answer code && _); [exact R|].
  cbn [length] in *. rewrite slice_ok by (cbn in *; lia). rewrite drop_0.
  assert (Ed : take (Z.to_nat (be_decode [len1; len0] - 4)) rest = request_data (n_buf w)) by (rewrite Eb; reflexivity).
  apply ncp_dispatch_rest; [exact R| | |].
  - exists (be_decode [len1; len0]). cbn [snd]. rewrite Eb. split_and!; [reflexivity|lia|cbn in *; lia|reflexivity].
  - rewrite Ed. unfold request_data. apply bytes_ok_take, bytes_ok_drop. now rewrite Eb.
  - intros ->. rewrite Ed, Eb. apply Df. reflexivity.
Qed.

Lemma ncp_step_rest s ev : event_distinct (snd ev) -> ncp_rest (snd s) -> ncp_rest (snd (ncp_step s ev)).
Proof.
  destruct ev as [e ev]. cbn [snd]. intros D R. unfold ncp_step. destruct ev as [frame| | | | |cause|id addr]; cbn [event_distinct] in D.
  - apply ncp_recv_rest; [exact D|]. destruct R as [[[] _] Hr]. split; [split; [split; done|exact I]|done].
  - exact (restart_keeps ncp_rest (stage_ops e Idle (Some (ncp_layer_down e))) s R).
  - unfold ncp_start_timeout. assert (R' : ncp_rest (snd (on_ncp (fun w => nw_timeout w false) s))) by (eapply rest_same; [apply same_timeout|exact R]).
    destruct (ne_ses_starting e); [|exact R']. eapply rest_same; [apply same_terminate|exact R'].
  - unfold ncp_recv_proto_rej. destruct (_ || _); [exact R|].
    pose proof (lower_down_keeps ncp_rest (stage_ops e Idle (Some (ncp_layer_down e))) s R) as R'.
    exact (close_keeps ncp_rest (stage_ops e Idle (Some (ncp_layer_down e))) _ R').
  - unfold ncp_ccp_started. destruct (negb _); [exact R|]. cbv zeta. set (s1 := on_ncp _ s).
    assert (R1 : ncp_rest (snd s1)) by (eapply rest_same; [apply same_delay|exact R]). set (s2 := if bool_decide (fsm_state (fst s1) = FSM_Opened) then on_ncp layer_up_now s1 else s1).
    assert (R2 : ncp_rest (snd s2)) by (unfold s2; case_match; [eapply rest_same; [apply same_up_now|exact R1]|exact R1]).
    clearbody s2. destruct s2 as [f w]. cbn [snd on_ncp] in *. destruct (n_delay_ack_buf w) as [frame|] eqn:Hh; [|exact R2].
    destruct R2 as [[[I1 I2 I3 I4 I5 I6] _] Hr]. destruct (ack_frame_ok _ _ _ (I6 frame Hh)) as (out & -> & So).
    split; [|done]. split; [|exact I]. split; cbn; try done. apply Forall_app. split; [done|now apply Forall_singleton].
  - eapply rest_same; [apply same_terminate|exact R].
  - destruct R as [[B _] Hr]. split; [|done]. split; [|exact I]. apply nw_options_keeps; [|exact B]. now apply update_opt_same.
Qed.

Lemma ncp_run_rest evs s : Forall (fun ev => event_distinct (snd ev)) evs -> ncp_rest (snd s) -> ncp_rest (snd (ncp_run s evs)).
Proof. intros F. revert s. unfold ncp_run. induction F as [|ev evs D F IH]; intros s R; [exact R|]. apply IH. now apply ncp_step_rest. Qed.

Lemma sum_len_foldl opts n : foldl (fun n o => n + no_len o) n opts = n + sum_len opts.
Proof. unfold sum_len. revert n. induction opts as [|o opts IH]; intros n; cbn [foldl foldr]; [lia|]. rewrite IH. lia. Qed.

Lemma ncp_init_rest fc rnd mode opts ses : NoDup (map no_id opts) -> Forall np_opt_ok opts -> ncp_rest (snd (ncp_layer_init fc rnd mode opts ses)).
Proof.
  intros N F. split; [|done]. split; [|exact I]. split; cbn; try done. apply sum_len_foldl.
Qed.

(** What the layer of a session has done, from its creation on. *)
Definition ncp_session (fc : fsm_conf) (rnd : Z) (opts : list ncp_option_t) (ses : Ses) (e : ncp_env X) (evs : list (ncp_env X * ncp_event)) : fst_t (ncp_t Ses) :=
  ncp_run (fst (ncp_layer_start e (ncp_layer_init fc rnd (ne_mode e) opts ses))) evs.

Lemma ncp_session_rest fc rnd opts ses e evs :
  NoDup (map no_id opts) -> Forall np_opt_ok opts -> Forall (fun ev => event_distinct (snd ev)) evs ->
  ncp_rest (snd (ncp_session fc rnd opts ses e evs)).
Proof. intros N F D. apply ncp_run_rest; [done|]. apply ncp_start_rest. now apply ncp_init_rest. Qed.

Lemma ncp_session_snoc fc rnd opts ses e evs ev :
  ncp_session fc rnd opts ses e (evs ++ [ev]) = ncp_step (ncp_session fc rnd opts ses e evs) ev.
Proof. unfold ncp_session, ncp_run. now rewrite foldl_app. Qed.

(** What the invariant says of frames and of memory. *)
Lemma rest_safe w frame : ncp_rest w -> n_fault w = false /\ (frame ∈ n_sent w -> sent_agreed (n_options w) (n_ses w) frame).
Proof. intros [[[I1 _ _ _ I5 _] _] _]. split; [done|]. intros H. exact (proj1 (Forall_forall _ _) I5 frame H). Qed.
End laws.

(** The fuel of [answer_opts] is enough: each round passes two bytes at least. *)
Lemma answer_opts_fuel rej f1 f2 data opts r :
  (length data <= f1)%nat -> (length data <= f2)%nat -> answer_opts rej f1 data opts r = answer_opts rej f2 data opts r.
Proof.
  revert f2 data r. induction f1 as [|f1 IH]; intros f2 data r H1 H2; destruct data as [|x data]; cbn [length] in *; try lia.
  - now destruct f2.
  - now destruct f2.
  - destruct f2 as [|f2]; [lia|]. cbn [answer_opts]. destruct (next_opt (x :: data)) as [[b rest]|] eqn:N; [|done].
    apply next_opt_some in N as (E & L & _). apply (f_equal length) in E. rewrite length_app in E. cbn [length] in E. apply IH; lia.
Qed.

(** [ppp_fsm_close] and the layer call each other; the second call does nothing. *)
Lemma layer_down_closes {Ses X} {P : NcpProtocol Ses X} (e : ncp_env X) (s : fst_t (ncp_t Ses)) : ncp_layer_down e s = ppp_fsm_close (ncp_ops e) s.
Proof. unfold ncp_layer_down, ppp_fsm_close. destruct s as [f w]. destruct (fsm_state (fst (f, w))) eqn:Hs; reflexivity. Qed.

(** ** The answers to a Configure-Request *)
Section answers.
  Context {Ses X : Type} {P : NcpProtocol Ses X}.

Lemma ncp_frame_read code id payload :
  Z.of_nat (length payload) + 4 < 65536 -> u_read_be16 (ncp_frame code id payload) 4 = Ok (Z.of_nat (length payload) + 4).
Proof. intros H. apply (read_be16_app (be_encode 2 np_proto ++ [u8 code; u8 id]) (Z.of_nat (length payload) + 4) payload). lia. Qed.

Lemma ncp_frame_length code id payload : length (ncp_frame code id payload) = (6 + length payload)%nat.
Proof. unfold ncp_frame. rewrite !length_app, !length_be_encode. reflexivity. Qed.

Lemma ncp_frame_bytes code id payload :
  exists p1 p0, ncp_frame code id payload = p1 :: p0 :: u8 code :: u8 id :: be_encode 2 (Z.of_nat (length payload) + 4) ++ payload.
Proof. do 2 eexists. reflexivity. Qed.

(** A frame that is complete reaches the [switch] with its payload. *)
Lemma ncp_recv_frame e f (w : ncp_t Ses) code id payload :
  n_buf w = ncp_frame code id payload -> Z.of_nat (length payload) + 4 < 65536 ->
  0 <= code < 256 -> 0 <= id < 256 -> is_answer code = false -> n_starting w = true ->
  fsm_state f <> FSM_Closed -> n_terminating w = false -> ne_mode e <> NCP_DENY ->
  ncp_recv e (f, w) = ncp_dispatch e code payload (set_recv_id id f, w).
Proof.
  intros B L Hc Hi A St N T M. unfold ncp_recv. rewrite St, T, bool_decide_false by done. apply Z.eqb_neq in M. rewrite M. cbn [negb orb].
  rewrite B, ncp_frame_length. destruct (ncp_frame_bytes code id payload) as (p1 & p0 & ->). cbn [be_encode app].
  set (n := Z.of_nat (length payload) + 4) in *.
  assert (D : be_decode [(n `div` 256 ^ Z.of_nat 1) `mod` 256; (n `div` 256 ^ Z.of_nat 0) `mod` 256] = n).
  { change [_; _] with (be_encode 2 n). rewrite be_decode_encode. apply Z.mod_small. cbn. lia. }
  rewrite D, !u8_small, A by done. cbn [andb]. unfold PPP_HEADERLEN, PPP_HDRLEN.
  destruct (_ <? _) eqn:E1; [zbool; lia|]. destruct (_ || _) eqn:E2; [bools; lia|].
  replace (Z.to_nat (n - 4)) with (length payload) by lia. now rewrite slice_whole.
Qed.

Lemma ack_frame_whole code id payload :
  Z.of_nat (length payload) + 4 < 65536 -> ack_frame (ncp_frame code id payload) = Ok (ncp_frame CONFACK id payload).
Proof.
  intros L. unfold ack_frame. rewrite ncp_frame_read by done. cbn [mbind res_bind].
  change (<[2%nat := CONFACK]> (ncp_frame code id payload)) with (ncp_frame CONFACK id payload).
  replace (Z.to_nat (Z.of_nat (length payload) + 4 + 2)) with (length (ncp_frame CONFACK id payload)) by (rewrite ncp_frame_length; lia).
  apply slice_whole.
Qed.

Lemma ack_sent e f (w : ncp_t Ses) id payload :
  negotiating (fsm_state f) = true -> n_delay_ack w = false -> n_buf w = ncp_frame CONFREQ id payload -> Z.of_nat (length payload) + 4 < 65536 ->
  n_sent (snd (ppp_fsm_recv_conf_req_ack (ncp_ops e) (f, w))) = n_sent w ++ [ncp_frame CONFACK id payload].
Proof.
  intros N D B L. unfold ppp_fsm_recv_conf_req_ack. cbn [fst].
  assert (S : ncp_send_conf_ack (f, w) = (f, unit_send (ncp_frame CONFACK id payload) (nw_buf w (<[2%nat := CONFACK]> (n_buf w))))).
  { unfold ncp_send_conf_ack, on_ncp. cbn [fst snd]. rewrite D, B, ack_frame_whole by done. done. }
  destruct (fsm_state f); try discriminate; cbn [call ncp_ops ncp_ops_with send_conf_ack layer_up]; rewrite S; try reflexivity.
  unfold ncp_layer_up. cbn. rewrite D. unfold layer_up_now. cbn. now destruct (n_started w).
Qed.

Lemma nak_sent e f (w : ncp_t Ses) payload :
  negotiating (fsm_state f) = true -> conf_failure f + 1 <> max_failure f -> nak_loop (n_ropts w) (n_options w) (n_ses w) = Some payload ->
  n_sent (snd (ppp_fsm_recv_conf_req_nak (ncp_ops e) (f, w))) = n_sent w ++ [ncp_frame CONFNAK (fsm_recv_id f) payload] /\
  n_fault (snd (ppp_fsm_recv_conf_req_nak (ncp_ops e) (f, w))) = n_fault w || (n_conf_req_len w <? Z.of_nat (NCP_HDR + length payload)).
Proof.
  intros N C H. unfold ppp_fsm_recv_conf_req_nak, count_failure. cbn [fst upd set_conf_failure conf_failure max_failure].
  apply Z.eqb_neq in C. rewrite C. unfold ncp_ops, ncp_ops_with.
  destruct (fsm_state f); try discriminate; cbn -[nak_loop]; rewrite H; unfold check_room; cbn [snd]; destruct (_ <? _); cbn; rewrite ?orb_true_r, ?orb_false_r; done.
Qed.

Lemma rej_sent e f (w : ncp_t Ses) :
  negotiating (fsm_state f) = true -> conf_failure f + 1 <> max_failure f ->
  n_sent (snd (ppp_fsm_recv_conf_req_rej (ncp_ops e) (f, w))) = n_sent w ++
    [ncp_frame CONFREJ (fsm_recv_id f) (concat (map ro_bytes (List.filter (fun r => ro_state r =? OPT_REJ) (n_ropts w))))].
Proof.
  intros N C. unfold ppp_fsm_recv_conf_req_rej, count_failure. cbn [fst upd set_conf_failure conf_failure max_failure].
  apply Z.eqb_neq in C. rewrite C. destruct (fsm_state f); try discriminate; cbn; now case_match.
Qed.

(** The layer is negotiating, and CCP is not. *)
Definition negotiates (e : ncp_env X) (s : fst_t (ncp_t Ses)) : bool :=
  n_starting (snd s) && negb (n_passive (snd s)) && negb (n_started (snd s)) && negb (n_delay_ack (snd s)) && negb (n_terminating (snd s)) &&
  negb (ne_mode e =? NCP_DENY) && negb (ne_ccp e) && negotiating (fsm_state (fst s)) && negb (conf_failure (fst s) + 1 =? max_failure (fst s)).

(** The whole step, up to the answer of the automaton. *)
Lemma confreq_answered e f (w : ncp_t Ses) id data w1 r :
  negotiates e (f, w) = true -> Z.of_nat (length data) + 4 < 65536 -> 0 <= id < 256 ->
  ncp_recv_conf_req e data (set_recv_id id f, nw_buf w (ncp_frame CONFREQ id data)) = (set_recv_id id f, w1, r) ->
  n_terminating w1 = false -> n_passive w1 = false -> n_started w1 = false -> (r = OPT_ACK \/ r = OPT_NAK \/ r = OPT_REJ) ->
  ncp_step (f, w) (e, NFrame (ncp_frame CONFREQ id data)) =
    on_ncp ncp_free_conf_req
      (if r =? OPT_ACK then ppp_fsm_recv_conf_req_ack (ncp_ops e) (set_recv_id id f, w1)
       else if r =? OPT_NAK then ppp_fsm_recv_conf_req_nak (ncp_ops e) (set_recv_id id f, w1)
       else ppp_fsm_recv_conf_req_rej (ncp_ops e) (set_recv_id id f, w1)).
Proof.
  intros Ng L Hid Q T Pa St Hr. unfold negotiates in Ng. bools. cbn [fst snd] in *.
  set (w0 := nw_buf w (ncp_frame CONFREQ id data)) in *.
  match goal with |- _ = ?x => change (ncp_recv e (f, w0) = x) end.
  rewrite (ncp_recv_frame e f w0 CONFREQ id data) by (done || lia || (destruct (fsm_state f); done)).
  unfold ncp_dispatch. cbn [Z.eqb CONFREQ Pos.eqb]. unfold ncp_recv_CONFREQ. rewrite Q. cbn [fst snd].
  rewrite T, Pa, andb_false_r. replace (n_delay_ack w0) with false by done. cbn [andb snd]. rewrite St. cbn [orb].
  destruct Hr as [-> |[-> | ->]]; reflexivity.
Qed.

(** The state after a Reject in Req-Sent. *)
Lemma rej_req_sent e f (w : ncp_t Ses) :
  fsm_state f = FSM_Req_Sent -> conf_failure f + 1 <> max_failure f ->
  exists w', ppp_fsm_recv_conf_req_rej (ncp_ops e) (f, w) = (set_conf_failure (conf_failure f + 1) f, w') /\
    n_options w' = n_options w /\ n_ses w' = n_ses w /\ n_starting w' = n_starting w /\ n_started w' = n_started w /\ n_delay_ack w' = n_delay_ack w /\
    n_passive w' = n_passive w /\ n_terminating w' = n_terminating w.
Proof.
  intros F C. unfold ppp_fsm_recv_conf_req_rej, count_failure. cbn [fst upd set_conf_failure conf_failure max_failure]. apply Z.eqb_neq in C. rewrite F, C.
  cbn [ncp_ops ncp_ops_with call send_conf_rej]. unfold ncp_send_conf_rej. cbn [fst snd upd]. eexists. split; [reflexivity|]. cbn. case_match; auto 10.
Qed.

(** A passive layer opens with the first request. *)
Lemma open_from_initial e f (w : ncp_t Ses) ses payload :
  fsm_state f = FSM_Initial -> request_loop (ne_x e) (n_options w) (n_ses w) = (ses, inr payload) ->
  exists f', fst (ppp_fsm_open (ncp_ops e) (fst (ppp_fsm_lower_up (ncp_ops e) (f, w)))) =
      (f', unit_send (ncp_frame CONFREQ (fsm_id f) payload) (check_room (NCP_HDR + length payload) (nw_ses w ses))) /\
    fsm_state f' = FSM_Req_Sent /\ conf_failure f' = conf_failure f /\ max_failure f' = max_failure f.
Proof.
  intros F R. unfold ppp_fsm_lower_up. cbn [fst]. rewrite F. unfold ppp_fsm_open, init_req_counter, start_timer, call_conf_req_r.
  cbn [fst goto upd set_state fsm_state send_conf_req ncp_ops ncp_ops_with].
  destruct (restart_timer _); unfold ncp_send_conf_req; cbn [dec_counter goto upd fst snd]; rewrite R; cbn [Z.eqb fst]; eexists; split; (reflexivity || auto).
Qed.

Lemma passive_rejected e data f (w w1 : ncp_t Ses) ses payload :
  n_delay_ack w = false -> ncp_recv_conf_req e data (f, w) = (f, w1, OPT_REJ) ->
  n_terminating w1 = false -> n_passive w1 = true -> n_delay_ack w1 = false -> n_started w1 = false ->
  fsm_state f = FSM_Initial -> request_loop (ne_x e) (n_options w1) (n_ses w1) = (ses, inr payload) -> conf_failure f + 1 <> max_failure f ->
  exists f' w', ncp_recv_CONFREQ e data (f, w) = (f', w') /\
    fsm_state f' = FSM_Req_Sent /\ conf_failure f' = conf_failure f + 1 /\ max_failure f' = max_failure f /\
    n_options w' = n_options w1 /\ n_ses w' = ses /\ n_starting w' = n_starting w1 /\ n_started w' = false /\ n_delay_ack w' = false /\
    n_passive w' = false /\ n_terminating w' = false.
Proof.
  intros D Q T Pa D1 St F R C. unfold ncp_recv_CONFREQ. rewrite Q. cbn [snd]. rewrite T, Pa, D. cbn [Z.eqb negb andb OPT_REJ].
  change (on_ncp (fun w => nw_flags w (n_starting w) (n_started w) false) (f, w1)) with (f, nw_flags w1 (n_starting w1) (n_started w1) false).
  destruct (open_from_initial e f (nw_flags w1 (n_starting w1) (n_started w1) false) ses payload F R) as (f2 & -> & S2 & C2 & M2). cbn [fst snd on_ncp].
  set (w2 := nw_timeout _ false).
  assert (E2 : n_options w2 = n_options w1 /\ n_ses w2 = ses /\ n_starting w2 = n_starting w1 /\ n_started w2 = false /\ n_delay_ack w2 = false /\ n_passive w2 = false /\ n_terminating w2 = false).
  { unfold w2, check_room. destruct (_ <? _); cbn; auto 10. }
  destruct E2 as (E1 & E2 & E3 & E4 & E5 & E6 & E7). rewrite E4. cbn [orb].
  match goal with |- context [on_ncp (fun w => nw_timeout w false) ?x] => change (on_ncp (fun w => nw_timeout w false) x) with (f2, w2) end.
  cbn [Pos.eqb OPT_ACK OPT_NAK OPT_FAIL].
  destruct (rej_req_sent e f2 w2 S2 ltac:(congruence)) as (w3 & -> & H1 & H2 & H3 & H4 & H5 & H6 & H7).
  do 2 eexists. split; [reflexivity|]. cbn. split_and!; congruence.
Qed.
End answers.
