(* ===== verification/PppIpcp.v ===== *)
(** * IPCP and its options (accel-pppd/ppp/ppp_ipcp.c, ipcp_opt_ipaddr.c,
    ipcp_opt_dns.c, ipcp_opt_wins.c)

    The layer is the one of PppNcp.v; here are the options, the address of
    the peer and those of name servers.  The part of the session the options work on is
    [ses.ipv4].  What they get from elsewhere is [ipcp_x]: the address
    [ipdb_get_ipv4] would give, the type of the tunnel, the ranges of
    IpRange.v and the addresses of the other sessions.  Addresses are the
    numbers their four bytes stand for, in network order. *)
From S2P Require Import Prelude Utils PppFsm PppLcp IpRange PppNcp.

Definition PPP_IPCP : Z := 32801.

Definition CI_ADDR : Z := 3.
Definition CI_DNS1 : Z := 129.
Definition CI_DNS2 : Z := 131.
Definition CI_WINS1 : Z := 130.
Definition CI_WINS2 : Z := 132.

(** [struct ipv4db_item_t] *)
Record ipv4db_item_t : Type := mk_ipv4 {
  i4_addr : Z;
  i4_peer_addr : Z
}.

(** Another session: [terminating], [ipv4]. *)
Record other_ses : Type := mk_other {
  os_terminating : bool;
  os_ipv4 : option ipv4db_item_t
}.

Record ipcp_x : Type := mk_ipcp_x {
  ipdb_get_ipv4 : option ipv4db_item_t;
  ix_pppoe : bool;
  ix_ranges : iprange_state;
  ix_check_exists : bool;
  ses_list : list other_ses
}.

Definition check_exists (x : ipcp_x) (addr : Z) : bool :=
  existsb (fun o => negb (os_terminating o) && match os_ipv4 o with Some i => i4_peer_addr i =? addr | None => false end) (ses_list x).

(** The address is stored before it is checked. *)
Definition alloc_ip (x : ipcp_x) : option ipv4db_item_t * Z :=
  match ipdb_get_ipv4 x with
  | None => (None, OPT_CLOSE)
  | Some i =>
      (Some i,
       if negb (ix_pppoe x) && negb (iprange_tunnel_check (ix_ranges x) (i4_peer_addr i) =? 0) then OPT_FAIL
       else if ix_check_exists x && check_exists x (i4_peer_addr i) then OPT_FAIL else 0)
  end.

(** [if (!ses.ipv4) { r = alloc_ip(..); if (r) return r; }] *)
Definition need_ip (x : ipcp_x) (ses : option ipv4db_item_t) : option ipv4db_item_t * Z :=
  match ses with Some _ => (ses, 0) | None => alloc_ip x end.

(** [struct ipcp_opt32_t] *)
Definition opt32 (id val : Z) : list Z := [id; 6] ++ be_encode 4 val.
Definition opt_hdr_len (b : list Z) : Z := nth 1 b 0.
Definition opt32_val (b : list Z) : Z := be_decode (take 4 (drop 2 b)).

(** ** The address of the peer *)
Definition ipaddr_init : ncp_option_t := mk_nopt CI_ADDR 6 0 0.

Definition ipaddr_send_conf_req (x : ipcp_x) (ses : option ipv4db_item_t) : option ipv4db_item_t * (Z + list Z) :=
  let '(ses, r) := need_ip x ses in
  (ses, if r =? 0 then match ses with Some i => inr (opt32 CI_ADDR (i4_addr i)) | None => inl r end else inl r).

Definition ipaddr_send_conf_nak (ses : option ipv4db_item_t) : option (list Z) :=
  i ← ses; Some (opt32 CI_ADDR (i4_peer_addr i)).

Definition ipaddr_recv_conf_req (x : ipcp_x) (b : list Z) (ses : option ipv4db_item_t) : option ipv4db_item_t * Z * bool :=
  let '(ses, r) := need_ip x ses in
  if r =? 0 then
    if negb (opt_hdr_len b =? 6) then (ses, OPT_REJ, false)
    else match ses with
         | Some i => if i4_peer_addr i =? opt32_val b then (ses, OPT_ACK, true) else (ses, OPT_NAK, false)
         | None => (ses, OPT_NAK, false)
         end
  else (ses, r, false).

(** ** Name servers: the handlers of ipcp_opt_dns.c and ipcp_opt_wins.c are the same. *)
Definition dns1_init (conf_dns1 : Z) : ncp_option_t := mk_nopt CI_DNS1 6 0 conf_dns1.
Definition dns2_init (conf_dns2 : Z) : ncp_option_t := mk_nopt CI_DNS2 6 0 conf_dns2.
Definition wins1_init (conf_wins1 : Z) : ncp_option_t := mk_nopt CI_WINS1 6 0 conf_wins1.
Definition wins2_init (conf_wins2 : Z) : ncp_option_t := mk_nopt CI_WINS2 6 0 conf_wins2.

Definition dns_send_conf_nak (o : ncp_option_t) : list Z := opt32 (no_id o) (no_addr o).

Definition dns_recv_conf_req (b : list Z) (o : ncp_option_t) : Z :=
  if negb (opt_hdr_len b =? 6) then OPT_REJ
  else if no_addr o =? 0 then OPT_REJ
  else if no_addr o =? opt32_val b then OPT_ACK
  else OPT_NAK.

(** ** The protocol *)
#[export] Instance ipcp : NcpProtocol (option ipv4db_item_t) ipcp_x := {
  np_proto := PPP_IPCP;
  np_strict := true;
  np_request x o ses := if no_id o =? CI_ADDR then ipaddr_send_conf_req x ses else (ses, inr []);
  np_nak o ses := if no_id o =? CI_ADDR then ipaddr_send_conf_nak ses else Some (dns_send_conf_nak o);
  np_judge x b o ses := if no_id o =? CI_ADDR then ipaddr_recv_conf_req x b ses else (ses, dns_recv_conf_req b o, false)
}.

(** [ev_dns], [ev_wins] *)
Definition ev_dns (e : ncp_env ipcp_x) (dns1 dns2 : Z) : list (ncp_env ipcp_x * ncp_event) :=
  (if dns1 =? 0 then [] else [(e, NAddr CI_DNS1 dns1)]) ++ (if dns2 =? 0 then [] else [(e, NAddr CI_DNS2 dns2)]).
Definition ev_wins (e : ncp_env ipcp_x) (wins1 wins2 : Z) : list (ncp_env ipcp_x * ncp_event) :=
  (if wins1 =? 0 then [] else [(e, NAddr CI_WINS1 wins1)]) ++ (if wins2 =? 0 then [] else [(e, NAddr CI_WINS2 wins2)]).

(** ** What the options promise *)
Definition ipcp_opt_ok (o : ncp_option_t) : Prop := no_len o = 6.

(** An address that is acknowledged is the one the session has for its peer. *)
Definition ipcp_agreed (b : list Z) (ses : option ipv4db_item_t) : Prop :=
  opt_id b = CI_ADDR -> exists i, ses = Some i /\ opt_hdr_len b = 6 /\ opt32_val b = i4_peer_addr i.

Lemma opt32_length id val : length (opt32 id val) = 6%nat.
Proof. unfold opt32. now rewrite length_app, length_be_encode. Qed.

Lemma need_ip_some x ses ses' r : need_ip x ses = (ses', r) -> (forall i, ses = Some i -> ses' = Some i) /\ (r = 0 -> exists i, ses' = Some i) /\ (r = 0 \/ r = OPT_CLOSE \/ r = OPT_FAIL).
Proof.
  unfold need_ip, alloc_ip. intros H. destruct ses as [i0|].
  - injection H as <- <-. split_and!; eauto.
  - destruct (ipdb_get_ipv4 x) as [i|]; injection H as <- <-; split_and!; try done; eauto; repeat case_match; auto.
Qed.

Lemma agreed_kept b ses ses' : (forall i, ses = Some i -> ses' = Some i) -> ipcp_agreed b ses -> ipcp_agreed b ses'.
Proof. intros H A Hb. destruct (A Hb) as (i & E & ?). eauto. Qed.

Lemma nak_kept o ses ses' : (forall i, ses = Some i -> ses' = Some i) -> isset (np_nak o ses) = true -> isset (np_nak o ses') = true.
Proof. intros H. cbn. destruct (_ =? _); [|done]. unfold ipaddr_send_conf_nak. destruct ses as [i|]; [|done]. now rewrite (H i eq_refl). Qed.

#[export] Program Instance ipcp_laws : NcpLaws (option ipv4db_item_t) ipcp_x := {
  np_opt_ok := ipcp_opt_ok;
  np_agreed := ipcp_agreed
}.
Next Obligation. intros o H. unfold ipcp_opt_ok in H. lia. Qed.
Next Obligation. unfold ipcp_opt_ok. congruence. Qed.
Next Obligation.
  intros x o ses ses' r Ho H. cbn in H. unfold ipcp_opt_ok in Ho.
  assert (K : (forall i, ses = Some i -> ses' = Some i) /\ (forall bs, r = inr bs -> (length bs <= 6)%nat)).
  { destruct (_ =? _); [|injection H as <- <-; split; [done|intros bs [= <-]; cbn; lia]].
    unfold ipaddr_send_conf_req in H. destruct (need_ip x ses) as [s1 r1] eqn:N. apply need_ip_some in N as (N1 & N2 & _).
    injection H as <- <-. split; [done|]. intros bs. destruct (r1 =? 0); [|done]. destruct s1; [|done]. intros [= <-]. now rewrite opt32_length. }
  destruct K as [K1 K2]. split_and!; [intros bs Hb; specialize (K2 bs Hb); lia|intros b; now apply agreed_kept|intros o' _; now apply nak_kept].
Qed.
Next Obligation.
  intros o ses bs Ho H. unfold ipcp_opt_ok in Ho. cbn in H. rewrite Ho. destruct (_ =? _); [destruct ses; [|done]|]; injection H as <-; reflexivity.
Qed.
Next Obligation. intros o o' ses H. cbn. rewrite H. now destruct (_ =? _). Qed.
Next Obligation.
  intros x b o ses ses' r a Ho W Hid H. cbn in H. destruct (Z.eqb_spec (no_id o) CI_ADDR) as [E|E].
  - unfold ipaddr_recv_conf_req in H. destruct (need_ip x ses) as [s1 r1] eqn:N. apply need_ip_some in N as (N1 & N2 & N3).
    assert (ses' = s1) as -> by (repeat case_match; simplify_eq; done).
    destruct (Z.eqb_spec r1 0) as [->|N0]; [|injection H as -> <-; unfold OPT_NAK, OPT_ACK, OPT_CLOSE, OPT_FAIL in *; split_and!;
      [lia|lia|lia|intros b'; now apply agreed_kept|intros o' _; now apply nak_kept]].
    destruct (N2 eq_refl) as [i ->]. split_and!; [| | |intros b'; now apply agreed_kept|intros o' _; now apply nak_kept].
    + intros _. cbn. now rewrite E.
    + intros -> _. destruct (Z.eqb_spec (opt_hdr_len b) 6) as [L6|]; [|done]. destruct (Z.eqb_spec (i4_peer_addr i) (opt32_val b)); [|done]. eauto.
    + repeat case_match; simplify_eq; done.
  - injection H as <- <- <-. split_and!; try done.
    + intros _. cbn. apply Z.eqb_neq in E. now rewrite E.
    + intros _ C. congruence.
    + unfold dns_recv_conf_req. repeat case_match; done.
Qed.

(** ** The verdict on an option once the session has an address *)
Definition ipcp_verdict (i : ipv4db_item_t) (opts : list ncp_option_t) (b : list Z) : Z :=
  match find_opt (opt_id b) opts with
  | None => OPT_REJ
  | Some o =>
      if no_id o =? CI_ADDR then
        if negb (opt_hdr_len b =? 6) then OPT_REJ else if i4_peer_addr i =? opt32_val b then OPT_ACK else OPT_NAK
      else dns_recv_conf_req b o
  end.

(** What a Nak suggests. *)
Definition suggestion (i : ipv4db_item_t) (opts : list ncp_option_t) (b : list Z) : list Z :=
  opt32 (opt_id b)
    (match find_opt (opt_id b) opts with
     | Some o => if no_id o =? CI_ADDR then i4_peer_addr i else no_addr o
     | None => 0
     end).

Definition nopt_kept (o o' : ncp_option_t) : Prop := no_id o = no_id o' /\ no_len o = no_len o' /\ no_addr o = no_addr o'.

Lemma kept_find id opts opts' :
  Forall2 nopt_kept opts opts' ->
  match find_opt id opts, find_opt id opts' with Some o, Some o' => nopt_kept o o' | None, None => True | _, _ => False end.
Proof.
  intros F. induction F as [|o o' opts opts' K F IH]; [done|]. unfold find_opt in *. cbn [List.find]. destruct K as (K1 & K2 & K3). rewrite <- K1.
  destruct (no_id o =? id); [done|exact IH].
Qed.

Lemma kept_verdict i opts opts' b : Forall2 nopt_kept opts opts' -> ipcp_verdict i opts b = ipcp_verdict i opts' b /\ suggestion i opts b = suggestion i opts' b.
Proof.
  intros F. pose proof (kept_find (opt_id b) _ _ F) as K. unfold ipcp_verdict, suggestion, dns_recv_conf_req.
  destruct (find_opt _ opts), (find_opt _ opts'); try done. destruct K as (K1 & K2 & K3). now rewrite K1, K3.
Qed.

Lemma kept_refl opts : Forall2 nopt_kept opts opts.
Proof. induction opts; constructor; [done|auto]. Qed.

Lemma nopt_kept_trans a b c : Forall2 nopt_kept a b -> Forall2 nopt_kept b c -> Forall2 nopt_kept a c.
Proof.
  intros F. revert c. induction F as [|o1 o2 a b (K1 & K2 & K3) F IH]; intros c G; inversion G as [|? o3 ? ? (J1 & J2 & J3)]; subst; constructor; [|auto].
  split_and!; congruence.
Qed.

Lemma kept_state id r opts : Forall2 nopt_kept opts (update_opt id (fun o => set_no_state o r) opts).
Proof. unfold update_opt. induction opts as [|o l IH]; cbn; constructor; [|done]. now destruct (_ =? _). Qed.

Lemma ipcp_verdict_range i opts b : OPT_REJ <= ipcp_verdict i opts b <= OPT_ACK.
Proof. unfold ipcp_verdict, dns_recv_conf_req, OPT_REJ, OPT_ACK, OPT_NAK. repeat case_match; lia. Qed.

Lemma min_first v ret l : Z.min v (foldr Z.min ret l) = foldr Z.min (if v <? ret then v else ret) l.
Proof. induction l as [|y l IH]; cbn [foldr]; [destruct (v <? ret) eqn:O; zbool; lia|]. lia. Qed.

(** The loop judges every option by itself. *)
Lemma judge_lease e i ropts f w ret :
  n_terminating w = false -> n_ses w = Some i -> OPT_REJ <= ret <= OPT_ACK ->
  exists opts d, Forall2 nopt_kept (n_options w) opts /\ (ne_ccp e = false -> n_delay_ack w = false -> d = false) /\
    judge_loop e ropts (f, w) ret =
      (f, nw_delay (nw_options w opts (n_conf_req_len w)) d (n_delay_ack_buf w),
       map (fun ro => mk_ropt (ro_bytes ro) (ipcp_verdict i (n_options w) (ro_bytes ro))) ropts,
       foldr Z.min ret (map (fun ro => ipcp_verdict i (n_options w) (ro_bytes ro)) ropts), false).
Proof.
  revert w ret. induction ropts as [|ro ropts IH]; intros w ret T S R; cbn [judge_loop map foldr].
  - exists (n_options w), (n_delay_ack w). split_and!; [apply kept_refl|done|]. now destruct w.
  - destruct (find_opt _ (n_options w)) as [o|] eqn:Hf.
    2:{ destruct (IH w OPT_REJ T S) as (opts & d & K & D & ->); [done|]. exists opts, d. split_and!; [done..|].
        assert (V : ipcp_verdict i (n_options w) (ro_bytes ro) = OPT_REJ) by (unfold ipcp_verdict; now rewrite Hf). rewrite V.
        assert (M : forall l, Forall (fun v => OPT_REJ <= v) l -> foldr Z.min OPT_REJ l = OPT_REJ /\ Z.min OPT_REJ (foldr Z.min ret l) = OPT_REJ).
        { intros l. induction 1 as [|v l Hv F [IH1 IH2]]; cbn [foldr]; lia. }
        destruct (M (map (fun ro => ipcp_verdict i (n_options w) (ro_bytes ro)) ropts)) as [-> ->]; [|done].
        apply Forall_fmap, Forall_true. intros x. apply ipcp_verdict_range. }
    set (v := ipcp_verdict i (n_options w) (ro_bytes ro)). pose proof (ipcp_verdict_range i (n_options w) (ro_bytes ro)) as Rv. fold v in Rv.
    assert (J : exists a, np_judge (ne_x e) (ro_bytes ro) o (n_ses w) = (n_ses w, v, a)).
    { unfold v, ipcp_verdict. rewrite Hf, S. cbn. destruct (no_id o =? CI_ADDR); [|eauto]. unfold ipaddr_recv_conf_req. cbn. repeat case_match; simplify_eq; eauto. }
    destruct J as [a ->].
    replace (v =? OPT_TERMACK) with false by (unfold OPT_REJ, OPT_TERMACK in *; lia).
    replace (v =? OPT_CLOSE) with false by (unfold OPT_REJ, OPT_CLOSE in *; lia).
    set (w1 := if a then _ else _).
    assert (E1 : w1 = nw_delay w (if a then ne_ccp e else n_delay_ack w) (n_delay_ack_buf w)) by (unfold w1; destruct w, a; reflexivity).
    clearbody w1. subst w1. cbn [n_terminating nw_delay]. rewrite T. cbn [n_options n_conf_req_len nw_delay].
    set (opts1 := update_opt _ _ _). set (w2 := nw_options _ opts1 _).
    assert (K1 : Forall2 nopt_kept (n_options w) opts1).
    { apply kept_state. }
    destruct (IH w2 (if v <? ret then v else ret)) as (opts & d & K & D & ->); [done..|destruct (v <? ret); lia|].
    exists opts, d. split_and!.
    + eapply nopt_kept_trans; eauto.
    + intros C Dl. apply D; [done|]. cbn. now destruct a.
    + assert (Mv : map (fun ro => ipcp_verdict i (n_options w2) (ro_bytes ro)) ropts = map (fun ro => ipcp_verdict i (n_options w) (ro_bytes ro)) ropts).
      { apply map_ext. intros x. symmetry. now apply kept_verdict. }
      assert (Mr : map (fun ro => mk_ropt (ro_bytes ro) (ipcp_verdict i (n_options w2) (ro_bytes ro))) ropts = map (fun ro => mk_ropt (ro_bytes ro) (ipcp_verdict i (n_options w) (ro_bytes ro))) ropts).
      { apply map_ext. intros x. f_equal. symmetry. now apply kept_verdict. }
      rewrite Mv, Mr, <- min_first. reflexivity.
Qed.

(** ** Sessions *)
Definition ipcp_opts_ok (opts : list ncp_option_t) : Prop := NoDup (map no_id opts) /\ Forall ipcp_opt_ok opts.

Definition ipcp_reachable (s : fst_t (ncp_t (option ipv4db_item_t))) : Prop :=
  exists fc rnd opts e evs, ipcp_opts_ok opts /\ Forall (fun ev => event_distinct (snd ev)) evs /\ s = ncp_session fc rnd opts None e evs.

Lemma ipcp_reachable_rest s : ipcp_reachable s -> ncp_rest (snd s).
Proof. intros (fc & rnd & opts & e & evs & [N F] & D & ->). now apply ncp_session_rest. Qed.

Definition ipcp_worst (vs : list Z) : Z := foldr Z.min OPT_ACK vs.

Lemma verdict_cases i opts b : ipcp_verdict i opts b = OPT_ACK \/ ipcp_verdict i opts b = OPT_NAK \/ ipcp_verdict i opts b = OPT_REJ.
Proof. unfold ipcp_verdict, dns_recv_conf_req. repeat case_match; auto. Qed.

Lemma ipcp_worst_cases i opts bs :
  let r := ipcp_worst (map (ipcp_verdict i opts) bs) in r = OPT_ACK \/ r = OPT_NAK \/ r = OPT_REJ.
Proof.
  unfold ipcp_worst. induction bs as [|b bs IH]; cbn [map foldr]; [auto|]. cbv zeta in *. destruct (verdict_cases i opts b) as [-> |[-> | ->]], IH as [-> |[-> | ->]]; cbn; auto.
Qed.

Lemma recv_conf_req_lease e i bs f w :
  n_ropts w = [] -> Forall opt_wf bs -> n_terminating w = false -> n_ses w = Some i ->
  exists opts d, Forall2 nopt_kept (n_options w) opts /\ (ne_ccp e = false -> n_delay_ack w = false -> d = false) /\
    ncp_recv_conf_req e (concat bs) (f, w) =
      (f, nw_ropts (nw_delay (nw_options w opts (n_conf_req_len w)) d (n_delay_ack_buf w))
            (map (fun b => mk_ropt b (ipcp_verdict i (n_options w) b)) bs) (Z.of_nat (length (concat bs))),
       ipcp_worst (map (ipcp_verdict i (n_options w)) bs)).
Proof.
  intros R W T S. unfold ncp_recv_conf_req. rewrite collect_opts_concat by (done || lia). cbn [snd on_ncp fst]. rewrite R. cbn [app].
  set (ropts := map _ bs).
  set (w1 := nw_options (nw_ropts w ropts (Z.of_nat (length (concat bs)))) (map (fun o => set_no_state o OPT_NONE) (n_options w)) (n_conf_req_len w)).
  assert (K0 : Forall2 nopt_kept (n_options w) (n_options w1)).
  { cbn. clear. induction (n_options w) as [|o l IH]; cbn; constructor; done. }
  destruct (judge_lease e i ropts f w1 1) as (opts & d & K & D & J); [done..|].
  exists opts, d. split_and!; [eapply nopt_kept_trans; eauto|done|].
  match goal with |- context [judge_loop e ropts ?x 1] => change x with (f, w1) end. rewrite J. cbn [on_ncp fst snd].
  unfold ropts. rewrite !map_map. cbn [ro_bytes]. unfold ipcp_worst.
  rewrite (map_ext (fun b => mk_ropt b (ipcp_verdict i (n_options w1) b)) (fun b => mk_ropt b (ipcp_verdict i (n_options w) b))) by (intros b; f_equal; symmetry; now apply kept_verdict).
  rewrite (map_ext (ipcp_verdict i (n_options w1)) (ipcp_verdict i (n_options w))) by (intros b; symmetry; now apply kept_verdict).
  reflexivity.
Qed.

(** The whole step, up to the answer of the automaton. *)
Lemma confreq_step e i id bs s :
  negotiates e s = true -> n_ropts (snd s) = [] -> n_ses (snd s) = Some i ->
  Forall opt_wf bs -> Z.of_nat (length (concat bs)) + 4 < 65536 -> 0 <= id < 256 ->
  exists f w, fsm_state f = fsm_state (fst s) /\ conf_failure f = conf_failure (fst s) /\ max_failure f = max_failure (fst s) /\ fsm_recv_id f = id /\
    Forall2 nopt_kept (n_options (snd s)) (n_options w) /\ n_delay_ack w = false /\ n_buf w = ncp_frame CONFREQ id (concat bs) /\ n_ses w = Some i /\
    n_sent w = n_sent (snd s) /\ n_fault w = n_fault (snd s) /\ n_conf_req_len w = n_conf_req_len (snd s) /\
    n_ropts w = map (fun b => mk_ropt b (ipcp_verdict i (n_options (snd s)) b)) bs /\
    ncp_step s (e, NFrame (ncp_frame CONFREQ id (concat bs))) =
      (let r := ipcp_worst (map (ipcp_verdict i (n_options (snd s))) bs) in
       on_ncp ncp_free_conf_req
         (if r =? OPT_ACK then ppp_fsm_recv_conf_req_ack (ncp_ops e) (f, w)
          else if r =? OPT_NAK then ppp_fsm_recv_conf_req_nak (ncp_ops e) (f, w)
          else ppp_fsm_recv_conf_req_rej (ncp_ops e) (f, w))).
Proof.
  intros Ng R S W L Hid. destruct s as [f w]. cbn [fst snd] in *. pose proof Ng as Ng'. unfold negotiates in Ng'. bools. cbn [fst snd] in *.
  destruct (recv_conf_req_lease e i bs (set_recv_id id f) (nw_buf w (ncp_frame CONFREQ id (concat bs)))) as (opts & d & K & D & Q); [done..|].
  assert (d = false) as -> by (now apply D). set (w1 := nw_ropts _ _ _) in Q.
  exists (set_recv_id id f), w1. split_and!; try done.
  apply confreq_answered; try done. apply ipcp_worst_cases.
Qed.

Lemma nak_lease i opts bs :
  nak_loop (map (fun b => mk_ropt b (ipcp_verdict i opts b)) bs) opts (Some i) =
    Some (concat (map (suggestion i opts) (List.filter (fun b => ipcp_verdict i opts b =? OPT_NAK) bs))).
Proof.
  induction bs as [|b bs IH]; cbn [map nak_loop List.filter ro_state ro_bytes]; [done|]. rewrite IH.
  destruct (Z.eqb_spec (ipcp_verdict i opts b) OPT_NAK) as [V|]; cbn [map concat]; [|done].
  assert (G : (o ← find_opt (opt_id b) opts; np_nak o (Some i)) = Some (suggestion i opts b)).
  { unfold suggestion. unfold ipcp_verdict in V. destruct (find_opt _ opts) as [o|] eqn:Hf; [|done].
    apply find_opt_some in Hf as [_ Hid]. cbn [mbind option_bind]. rewrite <- Hid. cbn [np_nak ipcp].
    destruct (Z.eqb_spec (no_id o) CI_ADDR) as [->|]; reflexivity. }
  now rewrite G.
Qed.

Lemma kept_nak ropts opts opts' ses : Forall2 nopt_kept opts opts' -> nak_loop ropts opts' ses = nak_loop ropts opts ses.
Proof.
  intros F. induction ropts as [|ro ropts IH]; cbn [nak_loop]; [done|]. rewrite IH. destruct (_ =? OPT_NAK); [|done].
  pose proof (kept_find (opt_id (ro_bytes ro)) _ _ F) as K. destruct (find_opt _ opts), (find_opt _ opts'); try done.
  destruct K as (K1 & K2 & K3). cbn [mbind option_bind np_nak ipcp]. unfold dns_send_conf_nak. now rewrite K1, K3.
Qed.

Lemma worst_le v l : v ∈ l -> ipcp_worst l <= v.
Proof. unfold ipcp_worst. induction 1; cbn [foldr]; lia. Qed.

Lemma worst_in l : ipcp_worst l = OPT_ACK \/ ipcp_worst l ∈ l.
Proof.
  unfold ipcp_worst. induction l as [|v l IH]; cbn [foldr]; [auto|]. destruct (Z.min_spec v (foldr Z.min OPT_ACK l)) as [[_ ->]|[_ ->]]; [right; left|].
  destruct IH as [->|]; [auto|right; now right].
Qed.

Lemma ipcp_worst_ack i opts bs : Forall (fun b => ipcp_verdict i opts b = OPT_ACK) bs -> ipcp_worst (map (ipcp_verdict i opts) bs) = OPT_ACK.
Proof. intros F. destruct (worst_in (map (ipcp_verdict i opts) bs)) as [H|H]; [done|]. apply list_elem_of_fmap in H as (b & -> & Hb). exact (proj1 (Forall_forall _ _) F b Hb). Qed.

Lemma ipcp_worst_rej i opts bs : Exists (fun b => ipcp_verdict i opts b = OPT_REJ) bs -> ipcp_worst (map (ipcp_verdict i opts) bs) = OPT_REJ.
Proof.
  intros H. apply Exists_exists in H as (b & Hb & V). pose proof (worst_le (ipcp_verdict i opts b) (map (ipcp_verdict i opts) bs) (list_elem_of_fmap_2 _ _ _ Hb)) as Le.
  rewrite V in Le. destruct (ipcp_worst_cases i opts bs) as [H|[H|H]]; [rewrite H in Le; done..|exact H].
Qed.

Lemma ipcp_worst_nak i opts bs :
  Exists (fun b => ipcp_verdict i opts b = OPT_NAK) bs -> Forall (fun b => ipcp_verdict i opts b <> OPT_REJ) bs -> ipcp_worst (map (ipcp_verdict i opts) bs) = OPT_NAK.
Proof.
  intros H F. apply Exists_exists in H as (b & Hb & V). pose proof (worst_le (ipcp_verdict i opts b) (map (ipcp_verdict i opts) bs) (list_elem_of_fmap_2 _ _ _ Hb)) as Le.
  rewrite V in Le. destruct (ipcp_worst_cases i opts bs) as [H|[H|H]]; [rewrite H in Le; done|exact H|].
  exfalso. destruct (worst_in (map (ipcp_verdict i opts) bs)) as [E|E]; [rewrite H in E; done|]. apply list_elem_of_fmap in E as (c & E & Hc).
  apply (proj1 (Forall_forall _ _) F c Hc). congruence.
Qed.

Lemma nak_count i opts bs : length (concat (map (suggestion i opts) bs)) = (6 * length bs)%nat.
Proof. induction bs as [|b bs IH]; [done|]. cbn [map concat length]. rewrite length_app, IH. unfold suggestion. rewrite opt32_length. lia. Qed.

Lemma ropts_rej i opts bs :
  map ro_bytes (List.filter (fun r => ro_state r =? OPT_REJ) (map (fun b => mk_ropt b (ipcp_verdict i opts b)) bs)) = List.filter (fun b => ipcp_verdict i opts b =? OPT_REJ) bs.
Proof. induction bs as [|b bs IH]; cbn; [done|]. destruct (ipcp_verdict i opts b =? OPT_REJ); cbn; now rewrite IH. Qed.

Lemma confreq_distinct id bs :
  Forall opt_wf bs -> Forall bytes_ok bs -> NoDup (map opt_id bs) -> Z.of_nat (length (concat bs)) + 4 < 65536 ->
  frame_distinct (ncp_frame CONFREQ id (concat bs)).
Proof.
  intros W B N L. split.
  - unfold ncp_frame. rewrite !bytes_ok_app. split_and!; auto with accel.
    + repeat apply Forall_cons_2; [apply u8_range..|apply Forall_nil_2].
    + now apply Forall_concat.
  - intros _. unfold distinct. assert (E : request_data (ncp_frame CONFREQ id (concat bs)) = concat bs).
    { unfold request_data. change (drop NCP_HDR (ncp_frame CONFREQ id (concat bs))) with (concat bs).
      change (take 2 (drop 4 (ncp_frame CONFREQ id (concat bs)))) with (be_encode 2 (Z.of_nat (length (concat bs)) + 4)).
      rewrite be_decode_encode, Z.mod_small by (cbn; lia). rewrite take_ge by lia. done. }
    rewrite E, collect_opts_concat by (done || lia). exact N.
Qed.

(** A request that is in order is acknowledged. *)
Lemma confreq_acked e i id bs s :
  negotiates e s = true -> n_ropts (snd s) = [] -> n_ses (snd s) = Some i ->
  Forall opt_wf bs -> Z.of_nat (length (concat bs)) + 4 < 65536 -> 0 <= id < 256 -> Forall (fun b => ipcp_verdict i (n_options (snd s)) b = OPT_ACK) bs ->
  n_sent (snd (ncp_step s (e, NFrame (ncp_frame CONFREQ id (concat bs))))) = n_sent (snd s) ++ [ncp_frame CONFACK id (concat bs)].
Proof.
  intros Ng R S W L Hid H.
  destruct (confreq_step e i id bs s Ng R S W L Hid) as (f & w & F1 & F2 & F3 & F4 & K & D & Bw & Sw & Nw & Fw & Lw & Rw & St).
  rewrite St, ipcp_worst_ack by exact H. cbn [Z.eqb OPT_ACK Pos.eqb on_ncp snd]. cbn [ncp_free_conf_req nw_ropts n_sent].
  rewrite (ack_sent e f w id (concat bs)), Nw by (try done; rewrite F1; unfold negotiates in Ng; bools; done). done.
Qed.



(** C39. An option given often enough overflows the buffer of the answer: a Configure-Request that
    asks for a wrong address more often than the server has options makes [send_conf_nak] write
    past the [conf_req_len] bytes it has. *)
Theorem ipcp_nak_overflow (s : fst_t (ncp_t (option ipv4db_item_t))) (e : ncp_env ipcp_x) (i : ipv4db_item_t) (id addr : Z) (n : nat) :
  ipcp_reachable s -> negotiates e s = true -> n_ses (snd s) = Some i ->
  isset (find_opt CI_ADDR (n_options (snd s))) = true -> 0 <= addr < 2 ^ 32 -> addr <> i4_peer_addr i -> 0 <= id < 256 ->
  (length (n_options (snd s)) < n)%nat -> Z.of_nat (6 * n) + 4 < 65536 ->
  n_fault (snd (ncp_step s (e, NFrame (ncp_frame CONFREQ id (concat (replicate n (opt32 CI_ADDR addr))))))) = true.
Proof.
  intros R Ng S Ha Haddr Hne Hid Hn L. pose proof (ipcp_reachable_rest s R) as Rest. set (bs := replicate n (opt32 CI_ADDR addr)).
  assert (W : Forall opt_wf bs).
  { apply Forall_replicate. exists CI_ADDR, (be_encode 4 addr). split; [reflexivity|]. cbn. lia. }
  assert (Lc : length (concat bs) = (6 * n)%nat) by (unfold bs; clear; induction n as [|n IH]; cbn [replicate concat]; [done|]; rewrite length_app, IH, opt32_length; lia).
  destruct (confreq_step e i id bs s Ng (proj2 Rest) S W ltac:(lia) Hid) as (f & w & F1 & F2 & F3 & F4 & K & D & Bw & Sw & Nw & Fw & Lw & Rw & St).
  assert (Nf : negotiating (fsm_state f) = true /\ conf_failure f + 1 <> max_failure f) by (rewrite F1, F2, F3; unfold negotiates in Ng; bools; split; [done|lia]).
  destruct Nf as [Nf1 Nf2].
  assert (V : ipcp_verdict i (n_options (snd s)) (opt32 CI_ADDR addr) = OPT_NAK).
  { unfold ipcp_verdict. change (opt_id (opt32 CI_ADDR addr)) with CI_ADDR. destruct (find_opt CI_ADDR _) as [o|] eqn:Hf; [|done].
    apply find_opt_some in Hf as [_ ->]. cbn [Z.eqb CI_ADDR Pos.eqb]. change (opt_hdr_len _) with 6. cbn [negb Z.eqb Pos.eqb].
    unfold opt32_val. change (take 4 (drop 2 (opt32 CI_ADDR addr))) with (be_encode 4 addr). rewrite be_decode_encode, Z.mod_small by (cbn in *; lia).
    destruct (Z.eqb_spec (i4_peer_addr i) addr); [congruence|done]. }
  rewrite St, ipcp_worst_nak; cycle 1.
  { unfold bs. destruct n; [lia|]. now left. }
  { unfold bs. apply Forall_replicate. now rewrite V. }
  cbn [Z.eqb OPT_ACK OPT_NAK Pos.eqb on_ncp snd ncp_free_conf_req nw_ropts n_fault].
  edestruct (nak_sent e f w) as [_ ->]; [done|done|rewrite (kept_nak _ _ _ _ K), Rw, Sw; apply nak_lease|].
  rewrite nak_count, Lw. destruct Rest as [[[_ _ I3 I4 _ _] _] _]. rewrite I4.
  assert (Fl : List.filter (fun b => ipcp_verdict i (n_options (snd s)) b =? OPT_NAK) bs = bs).
  { unfold bs. clear - V. induction n as [|n IH]; cbn [replicate List.filter]; [done|]. rewrite V, IH. reflexivity. }
  rewrite Fl. unfold bs. rewrite length_replicate.
  assert (Sl : sum_len (n_options (snd s)) = 6 * Z.of_nat (length (n_options (snd s)))).
  { clear - I3. induction I3 as [|o l Ho F IH]; [done|]. cbn [sum_len foldr length]. fold (sum_len l). unfold np_opt_ok in Ho. cbn in Ho. unfold ipcp_opt_ok in Ho. lia. }
  rewrite Sl, orb_true_iff. right. apply Z.ltb_lt. unfold NCP_HDR. lia.
Qed.

(** ** The checks of an address *)

(** The option that asks for header compression, which the server does not know. *)
Definition vj_option : list Z := [2; 6; 0; 45; 15; 1].

Definition all_options (dns1 dns2 wins1 wins2 : Z) : list ncp_option_t :=
  [ipaddr_init; dns1_init dns1; dns2_init dns2; wins1_init wins1; wins2_init wins2].

Lemma all_options_ok dns1 dns2 wins1 wins2 : ipcp_opts_ok (all_options dns1 dns2 wins1 wins2).
Proof. split; [|repeat constructor]. apply (bool_decide_eq_true_1 (NoDup [3; 129; 131; 130; 132])). reflexivity. Qed.

Lemma opt32_val_eq id val : 0 <= val < 2 ^ 32 -> opt32_val (opt32 id val) = val.
Proof.
  intros H. unfold opt32_val. change (take 4 (drop 2 (opt32 id val))) with (be_encode 4 val). rewrite be_decode_encode, Z.mod_small by (cbn in *; lia). done.
Qed.

Lemma opt32_bytes val : bytes_ok (opt32 CI_ADDR val).
Proof. unfold opt32. apply bytes_ok_app. split; [repeat constructor; done|apply be_encode_ok]. Qed.

Lemma opt32_wf id val : opt_wf (opt32 id val).
Proof. exists id, (be_encode 4 val). split; [reflexivity|done]. Qed.

Lemma refused_request e f w i addr dns1 dns2 wins1 wins2 :
  n_ropts w = [] -> n_terminating w = false -> n_ses w = None -> n_options w = all_options dns1 dns2 wins1 wins2 ->
  alloc_ip (ne_x e) = (Some i, OPT_FAIL) ->
  exists opts ropts, Forall2 nopt_kept (all_options dns1 dns2 wins1 wins2) opts /\
    ncp_recv_conf_req e (concat [opt32 CI_ADDR addr; vj_option]) (f, w) =
      (f, nw_ropts (nw_ses (nw_options w opts (n_conf_req_len w)) (Some i)) ropts 12, OPT_REJ).
Proof.
  intros R T S O A. unfold ncp_recv_conf_req. rewrite collect_opts_concat; [|repeat constructor; [apply opt32_wf|exists 2, [0; 45; 15; 1]; done]|done].
  cbn [snd on_ncp fst]. rewrite R. cbn [app map judge_loop ro_bytes on_ncp fst snd].
  assert (F : forall w' : ncp_t (option ipv4db_item_t), n_options w' = map (fun o => set_no_state o OPT_NONE) (all_options dns1 dns2 wins1 wins2) ->
    find_opt (opt_id (opt32 CI_ADDR addr)) (n_options w') = Some (set_no_state ipaddr_init OPT_NONE)) by (intros w' ->; reflexivity).
  rewrite F by (cbn [n_options nw_options nw_ropts]; now rewrite O). cbn [n_ses nw_options nw_ropts]. rewrite S.
  assert (J : np_judge (ne_x e) (opt32 CI_ADDR addr) (set_no_state ipaddr_init OPT_NONE) None = (Some i, OPT_FAIL, false)).
  { cbn [np_judge ipcp no_id set_no_state ipaddr_init Z.eqb CI_ADDR Pos.eqb]. unfold ipaddr_recv_conf_req, need_ip. now rewrite A. }
  cbn [ro_bytes]. rewrite J. cbn [Z.eqb OPT_FAIL OPT_TERMACK OPT_CLOSE Pos.eqb n_terminating nw_ses nw_options nw_ropts]. rewrite T.
  set (opts := update_opt _ _ _). assert (K : Forall2 nopt_kept (all_options dns1 dns2 wins1 wins2) opts).
  { unfold opts. cbn [n_options nw_options nw_ropts nw_ses]. rewrite O. cbn. repeat (constructor; [done|]). constructor. }
  cbn [n_options]. assert (V : find_opt (opt_id vj_option) opts = None).
  { pose proof (kept_find (opt_id vj_option) _ _ K) as V. change (find_opt (opt_id vj_option) (all_options dns1 dns2 wins1 wins2)) with (@None ncp_option_t) in V. now destruct (find_opt _ opts). }
  cbn [n_options nw_options nw_ropts nw_ses]. rewrite V. exists opts. eexists. split; [exact K|]. cbn [on_ncp fst snd]. now destruct w.
Qed.

Lemma bypass_first fc rnd x i addr dns1 dns2 wins1 wins2 :
  2 < conf_max_failure fc -> alloc_ip x = (Some i, OPT_FAIL) ->
  let e := mk_nenv NCP_ALLOW false true true x in
  let s := ncp_session fc rnd (all_options dns1 dns2 wins1 wins2) None e [(e, NFrame (ncp_frame CONFREQ 1 (concat [opt32 CI_ADDR addr; vj_option])))] in
  n_ses (snd s) = Some i /\ negotiates e s = true /\ Forall2 nopt_kept (all_options dns1 dns2 wins1 wins2) (n_options (snd s)).
Proof.
  intros Mf Ha e s. set (opts := all_options dns1 dns2 wins1 wins2) in *. set (data := concat [opt32 CI_ADDR addr; vj_option]) in *.
  set (w0 := mk_ncp opts true [] 0 None 36 true false false true false (ncp_frame CONFREQ 1 data) (None : option ipv4db_item_t) [] [] false).
  set (f0 := set_recv_id 1 (ppp_fsm_init fc rnd fsm_zeroed)).
  assert (E : s = ncp_recv_CONFREQ e data (f0, w0)).
  { unfold s, ncp_session, ncp_run. cbn [foldl]. change (ncp_recv e (ppp_fsm_init fc rnd fsm_zeroed, w0) = ncp_recv_CONFREQ e data (f0, w0)).
    now rewrite (ncp_recv_frame e _ w0 CONFREQ 1 data) by done. }
  destruct (refused_request e f0 w0 i addr dns1 dns2 wins1 wins2) as (opts1 & ropts & K & Q); [done..|].
  assert (R : exists payload, request_loop x opts1 (Some i) = (Some i, inr payload)).
  { assert (R1 : forall l, exists p, request_loop x l (Some i) = (Some i, inr p)); [|apply R1].
    induction l as [|o l [p IH]]; [eexists; reflexivity|]. cbn [request_loop np_request ipcp]. destruct (_ =? _); cbn; rewrite IH; eexists; reflexivity. }
  destruct R as [payload R].
  destruct (passive_rejected e data f0 w0 _ (Some i) payload eq_refl Q) as (f' & w' & E' & H1 & H2 & H3 & H4 & H5 & H6 & H7 & H8 & H9 & H10); [done..|cbn; lia|].
  rewrite E, E'. unfold negotiates. cbn [fst snd]. rewrite H1, H2, H3, H4, H5, H6, H7, H8, H9, H10. split_and!; [done| |exact K].
  cbn -[Z.eqb]. destruct (Z.eqb_spec (0 + 1 + 1) (conf_max_failure fc)); [lia|done].
Qed.

(** C40. The checks of an address can be passed by: the address is stored before the tunnel ranges
    and the other sessions are looked at, and an unknown option after it turns the
    verdict Fail into Reject.  A client of a passive session that asks for an
    address and for header compression first, and for the address alone then,
    has its request acknowledged, though the address was refused. *)
Theorem ipcp_checks_bypassed (fc : fsm_conf) (rnd : Z) (x : ipcp_x) (i : ipv4db_item_t) (addr dns1 dns2 wins1 wins2 : Z) :
  2 < conf_max_failure fc -> alloc_ip x = (Some i, OPT_FAIL) -> 0 <= addr < 2 ^ 32 -> 0 <= i4_peer_addr i < 2 ^ 32 ->
  let e := mk_nenv NCP_ALLOW false true true x in
  let s := ncp_session fc rnd (all_options dns1 dns2 wins1 wins2) None e
             [(e, NFrame (ncp_frame CONFREQ 1 (concat [opt32 CI_ADDR addr; vj_option])));
              (e, NFrame (ncp_frame CONFREQ 2 (concat [opt32 CI_ADDR (i4_peer_addr i)])))] in
  ncp_frame CONFACK 2 (opt32 CI_ADDR (i4_peer_addr i)) ∈ n_sent (snd s).
Proof.
  intros Mf Ha Hr Hp e s. pose proof (bypass_first fc rnd x i addr dns1 dns2 wins1 wins2 Mf Ha) as B1. cbv zeta in B1. fold e in B1.
  pose (ev1 := NFrame (ncp_frame CONFREQ 1 (concat [opt32 CI_ADDR addr; vj_option]))). fold ev1 in B1.
  assert (E : s = ncp_step (ncp_session fc rnd (all_options dns1 dns2 wins1 wins2) None e [(e, ev1)]) (e, NFrame (ncp_frame CONFREQ 2 (concat [opt32 CI_ADDR (i4_peer_addr i)])))).
  { unfold s. fold ev1. exact (ncp_session_snoc _ _ _ _ _ [(e, ev1)] _). }
  rewrite E. clear E s. 
  set (s1 := ncp_session fc rnd (all_options dns1 dns2 wins1 wins2) None e [(e, ev1)]) in *.
  destruct B1 as (S1 & N1 & K1).
  assert (Rt : ncp_rest (snd s1)).
  { destruct (all_options_ok dns1 dns2 wins1 wins2). apply ncp_session_rest; [done..|]. apply Forall_singleton. cbn [snd event_distinct ev1].
    apply confreq_distinct; [repeat constructor; [apply opt32_wf|exists 2, [0; 45; 15; 1]; done]| | |done].
    - apply Forall_cons_2; [apply opt32_bytes|]. apply Forall_singleton. bytes_lit.
    - apply (bool_decide_eq_true_1 (NoDup [3; 2])). reflexivity. }
  assert (V : ipcp_verdict i (n_options (snd s1)) (opt32 CI_ADDR (i4_peer_addr i)) = OPT_ACK).
  { destruct (kept_verdict i _ _ (opt32 CI_ADDR (i4_peer_addr i)) K1) as [<- _]. unfold ipcp_verdict. change (find_opt _ _) with (Some ipaddr_init). cbn [no_id ipaddr_init Z.eqb CI_ADDR Pos.eqb].
    change (opt_hdr_len _) with 6. cbn [negb Z.eqb Pos.eqb]. rewrite opt32_val_eq by done. now rewrite Z.eqb_refl. }
  rewrite (confreq_acked e i 2 [opt32 CI_ADDR (i4_peer_addr i)] s1) by (done || apply Rt || (apply Forall_singleton; (exact V || apply opt32_wf))).
  cbn [concat]. rewrite app_nil_r. apply elem_of_app. right. left.
Qed.

(** ** Examples *)
Definition lease_ex : ipv4db_item_t := mk_ipv4 167772161 167772167.
Definition env_ex (mode : Z) (ranges : iprange_state) : ncp_env ipcp_x :=
  mk_nenv mode false true true (mk_ipcp_x (Some lease_ex) false ranges true []).
Definition opts_ex : list ncp_option_t := all_options 134744072 0 0 0.

(** A layer that has sent its request, 10.0.0.7 being the address of its peer. *)
Definition start_ex : fst_t (ncp_t (option ipv4db_item_t)) :=
  ncp_session fsm_conf_default 7 opts_ex None (env_ex NCP_PREFERE (mk_iprange_state [] true)) [].
Definition request_ex : list Z := ncp_frame CONFREQ 1 (concat [opt32 CI_ADDR 167772167]).
Definition acked_ex : fst_t (ncp_t (option ipv4db_item_t)) :=
  ncp_session fsm_conf_default 7 opts_ex None (env_ex NCP_PREFERE (mk_iprange_state [] true)) [(env_ex NCP_PREFERE (mk_iprange_state [] true), NFrame request_ex)].

Lemma start_ex_reachable : ipcp_reachable start_ex.
Proof. do 5 eexists. split; [apply all_options_ok|]. split; [apply Forall_nil_2|reflexivity]. Qed.

Lemma acked_ex_reachable : ipcp_reachable acked_ex.
Proof.
  do 5 eexists. split; [apply all_options_ok|]. split; [|reflexivity]. apply Forall_singleton. cbn [snd event_distinct].
  apply confreq_distinct; [apply Forall_singleton, opt32_wf|apply Forall_singleton, opt32_bytes| |done].
  apply (bool_decide_eq_true_1 (NoDup [3])). reflexivity.
Qed.



(** Six times the address 0.0.0.0. *)
Lemma ipcp_nak_overflow_witness :
  n_fault (snd (ncp_step start_ex (env_ex NCP_PREFERE (mk_iprange_state [] true), NFrame (ncp_frame CONFREQ 1 (concat (replicate 6 (opt32 CI_ADDR 0))))))) = true.
Proof.
  apply (ipcp_nak_overflow start_ex (env_ex NCP_PREFERE (mk_iprange_state [] true)) lease_ex 1 0 6 start_ex_reachable); try reflexivity; try done. vm_compute. lia.
Defined.

(** 10.0.0.7 is in a range of tunnel servers. *)
Lemma ipcp_checks_bypassed_witness :
  let e := env_ex NCP_ALLOW (mk_iprange_state [mk_iprange 167772160 167772175] false) in
  alloc_ip (ne_x e) = (Some lease_ex, OPT_FAIL) /\
  ncp_frame CONFACK 2 (opt32 CI_ADDR 167772167) ∈
    n_sent (snd (ncp_session fsm_conf_default 7 opts_ex None e
      [(e, NFrame (ncp_frame CONFREQ 1 (concat [opt32 CI_ADDR 0; vj_option]))); (e, NFrame (ncp_frame CONFREQ 2 (concat [opt32 CI_ADDR 167772167])))])).
Proof.
  split; [reflexivity|].
  apply (ipcp_checks_bypassed fsm_conf_default 7 (mk_ipcp_x (Some lease_ex) false (mk_iprange_state [mk_iprange 167772160 167772175] false) true []) lease_ex 0 134744072 0 0 0);
    [done|reflexivity|done|done].
Defined.
