(* ===== verification/PppIpv6cp.v ===== *)
(** * IPv6CP and its option (accel-pppd/ppp/ppp_ipv6cp.c, ipv6cp_opt_intfid.c)

    The layer is the one of PppNcp.v; here is its one option, the interface
    identifier.  The part of the session it works on is [ses.ipv6].  Identifiers
    are the numbers their eight bytes stand for, in network order.  What the option gets from
    elsewhere is [ipv6cp_x]: what [ipdb_get_ipv6] gives, the
    random bytes, the address of the peer, the prefixes of the other
    sessions, and the value a local variable has that is read without having been set. *)
From S2P Require Import Prelude Utils PppFsm PppLcp PppNcp.

Definition PPP_IPV6CP : Z := 32855.
Definition CI_INTFID : Z := 1.

Definition INTF_ID_FIXED : Z := 0.
Definition INTF_ID_RANDOM : Z := 1.
Definition INTF_ID_CSID : Z := 2.
Definition INTF_ID_IPV4 : Z := 3.

(** [struct ipv6db_item_t]; of the addresses the first 64 bits. *)
Record ipv6db_item_t : Type := mk_ipv6 {
  i6_intf_id : Z;
  i6_peer_intf_id : Z;
  i6_prefixes : list Z
}.

(** Another session: [terminating], [ipv6]. *)
Record other_ses6 : Type := mk_other6 {
  os6_terminating : bool;
  os6_ipv6 : option ipv6db_item_t
}.

Record ipv6cp_x : Type := mk_ipv6cp_x {
  conf_intf_id : Z;
  conf_intf_id_val : Z;
  conf_peer_intf_id : Z;
  conf_peer_intf_id_val : Z;
  conf_accept_peer_intf_id : bool;
  conf_check_exists6 : bool;
  ipdb_get_ipv6 : option ipv6db_item_t;
  x6_malloc_ok : bool;
  x6_urandom : Z;
  x6_unset : Z;
  x6_peer_addr : option Z;           (* ses.ipv4->peer_addr *)
  ses_list6 : list other_ses6
}.

Definition gen_ipv6_item : ipv6db_item_t := mk_ipv6 0 0 [].

Definition check_exists6 (x : ipv6cp_x) (self : ipv6db_item_t) : bool :=
  existsb (fun o => negb (os6_terminating o) &&
    match os6_ipv6 o with
    | Some i => existsb (fun a1 => existsb (fun a2 => a1 =? a2) (i6_prefixes self)) (i6_prefixes i)
    | None => false
    end) (ses_list6 x).

Definition generate_intf_id (x : ipv6cp_x) : Z := if conf_intf_id x =? INTF_ID_FIXED then conf_intf_id_val x else x6_urandom x.

(** [sprintf("%i")] and [sscanf("%x")]: the decimal digits of a byte read as hexadecimal ones. *)
Definition dec_as_hex (o : Z) : Z := (o / 100) * 256 + (o / 10 mod 10) * 16 + o mod 10.

Definition generate_peer_intf_id (x : ipv6cp_x) : Z :=
  if conf_peer_intf_id x =? INTF_ID_FIXED then conf_peer_intf_id_val x
  else if conf_peer_intf_id x =? INTF_ID_RANDOM then x6_urandom x
  else if conf_peer_intf_id x =? INTF_ID_CSID then x6_unset x
  else if conf_peer_intf_id x =? INTF_ID_IPV4 then
    match x6_peer_addr x with
    | Some addr => be_decode (concat (map (fun o => be_encode 2 (dec_as_hex o)) (be_encode 4 addr)))
    | None => 0
    end
  else x6_unset x.

Definition set_intf_id (i : ipv6db_item_t) (v : Z) : ipv6db_item_t := mk_ipv6 v (i6_peer_intf_id i) (i6_prefixes i).
Definition set_peer_intf_id (i : ipv6db_item_t) (v : Z) : ipv6db_item_t := mk_ipv6 (i6_intf_id i) v (i6_prefixes i).

Definition alloc_ip6 (x : ipv6cp_x) : option ipv6db_item_t * Z :=
  match (match ipdb_get_ipv6 x with Some i => Some i | None => if x6_malloc_ok x then Some gen_ipv6_item else None end) with
  | None => (None, OPT_CLOSE)
  | Some i =>
      let i := if i6_intf_id i =? 0 then set_intf_id i (generate_intf_id x) else i in
      (Some i, if conf_check_exists6 x && check_exists6 x i then OPT_FAIL else 0)
  end.

Definition need_ip6 (x : ipv6cp_x) (ses : option ipv6db_item_t) : option ipv6db_item_t * Z :=
  match ses with Some _ => (ses, 0) | None => alloc_ip6 x end.

(** [struct ipv6cp_opt64_t] *)
Definition opt64 (id val : Z) : list Z := [id; 10] ++ be_encode 8 val.
Definition opt6_len (b : list Z) : Z := nth 1 b 0.
Definition opt64_val (b : list Z) : Z := be_decode (take 8 (drop 2 b)).

Definition intfid_init : ncp_option_t := mk_nopt CI_INTFID 10 0 0.

Definition intfid_send_conf_req (x : ipv6cp_x) (ses : option ipv6db_item_t) : option ipv6db_item_t * (Z + list Z) :=
  let '(ses, r) := need_ip6 x ses in
  (ses, if r =? 0 then match ses with Some i => inr (opt64 CI_INTFID (i6_intf_id i)) | None => inl r end else inl r).

Definition intfid_send_conf_nak (ses : option ipv6db_item_t) : option (list Z) :=
  i ← ses; Some (opt64 CI_INTFID (i6_peer_intf_id i)).

(** The identifier the peer is to have: the one it asks for where that is accepted. *)
Definition choose_peer_id (x : ipv6cp_x) (val : Z) (i : ipv6db_item_t) : ipv6db_item_t :=
  if conf_accept_peer_intf_id x && negb (val =? 0) then set_peer_intf_id i val
  else if i6_peer_intf_id i =? 0 then set_peer_intf_id i (generate_peer_intf_id x)
  else i.

Definition intfid_recv_conf_req (x : ipv6cp_x) (b : list Z) (ses : option ipv6db_item_t) : option ipv6db_item_t * Z * bool :=
  if negb (opt6_len b =? 10) then (ses, OPT_REJ, false)
  else
    let '(ses, r) := need_ip6 x ses in
    if r =? 0 then
      match ses with
      | Some i =>
          let val := opt64_val b in
          let i := choose_peer_id x val i in
          if i6_peer_intf_id i =? 0 then (Some i, OPT_TERMACK, false)
          else if negb (val =? 0) && (i6_peer_intf_id i =? val) && negb (val =? i6_intf_id i) then (Some i, OPT_ACK, true)
          else (Some i, OPT_NAK, false)
      | None => (ses, OPT_NAK, false)
      end
    else (ses, r, false).

#[export] Instance ipv6cp : NcpProtocol (option ipv6db_item_t) ipv6cp_x := {
  np_proto := PPP_IPV6CP;
  np_strict := false;
  np_request x o ses := intfid_send_conf_req x ses;
  np_nak o ses := intfid_send_conf_nak ses;
  np_judge x b o ses := intfid_recv_conf_req x b ses
}.

(** The options are set up when the layer starts. *)
Definition ipv6cp_layer_start (e : ncp_env ipv6cp_x) (s : fst_t (ncp_t (option ipv6db_item_t))) : fst_t (ncp_t (option ipv6db_item_t)) * Z :=
  ncp_layer_start e (on_ncp (ncp_options_init [intfid_init]) s).

Definition ipv6cp_session (fc : fsm_conf) (rnd : Z) (e : ncp_env ipv6cp_x) (evs : list (ncp_env ipv6cp_x * ncp_event)) : fst_t (ncp_t (option ipv6db_item_t)) :=
  ncp_run (fst (ipv6cp_layer_start e (ncp_layer_init fc rnd (ne_mode e) [] None))) evs.

(** ** What the option promises *)
Definition ipv6cp_opt_ok (o : ncp_option_t) : Prop := no_len o = 10.

(** An identifier that is acknowledged is none of the two that would not do: zero, the server's own. *)
Definition ipv6cp_agreed (b : list Z) (ses : option ipv6db_item_t) : Prop :=
  exists i, ses = Some i /\ opt6_len b = 10 /\ opt64_val b <> 0 /\ opt64_val b <> i6_intf_id i.

(** Once the session has an item its own identifier stays. *)
Definition id_kept (ses ses' : option ipv6db_item_t) : Prop :=
  forall i, ses = Some i -> exists i', ses' = Some i' /\ i6_intf_id i' = i6_intf_id i.

#[export] Instance id_kept_preorder : PreOrder id_kept.
Proof.
  split; [intros s i ->; eauto|]. intros a b c H1 H2 i Hi. destruct (H1 i Hi) as (i1 & Hi1 & E1). destruct (H2 i1 Hi1) as (i2 & Hi2 & E2).
  exists i2. split; [done|congruence].
Qed.

Lemma opt64_length id val : length (opt64 id val) = 10%nat.
Proof. unfold opt64. now rewrite length_app, length_be_encode. Qed.

Lemma need_ip6_some x ses ses' r :
  need_ip6 x ses = (ses', r) -> id_kept ses ses' /\ (r = 0 -> exists i, ses' = Some i) /\ (r = 0 \/ r = OPT_CLOSE \/ r = OPT_FAIL).
Proof.
  unfold need_ip6, alloc_ip6. intros H. destruct ses as [i0|].
  - injection H as <- <-. split_and!; [reflexivity|eauto|auto].
  - destruct (match ipdb_get_ipv6 x with Some i => Some i | None => _ end) as [i|]; injection H as <- <-; split_and!; try done; eauto; repeat case_match; auto.
Qed.

Lemma choose_keeps x val i : i6_intf_id (choose_peer_id x val i) = i6_intf_id i.
Proof. unfold choose_peer_id. repeat case_match; done. Qed.

Lemma agreed6_kept b ses ses' : id_kept ses ses' -> ipv6cp_agreed b ses -> ipv6cp_agreed b ses'.
Proof. intros K (i & E & L & N & M). destruct (K i E) as (i' & E' & Hi). exists i'. rewrite Hi. auto. Qed.

Lemma nak6_kept ses ses' : id_kept ses ses' -> isset (intfid_send_conf_nak ses) = true -> isset (intfid_send_conf_nak ses') = true.
Proof. intros K. destruct ses as [i|]; [|done]. destruct (K i eq_refl) as (i' & -> & _). done. Qed.

Lemma judge6_spec x b ses ses' r a :
  intfid_recv_conf_req x b ses = (ses', r, a) ->
  id_kept ses ses' /\ (r = OPT_NAK -> exists i, ses' = Some i) /\ (r = OPT_ACK -> ipv6cp_agreed b ses') /\ r <= OPT_ACK.
Proof.
  unfold intfid_recv_conf_req. destruct (Z.eqb_spec (opt6_len b) 10) as [L|]; cbn [negb]; [|intros [= <- <- <-]; split_and!; done].
  destruct (need_ip6 x ses) as [s1 r1] eqn:N. apply need_ip6_some in N as (K & N1 & N2).
  destruct (Z.eqb_spec r1 0) as [->|N0].
  - destruct (N1 eq_refl) as [i ->]. set (i' := choose_peer_id x (opt64_val b) i).
    assert (K' : id_kept ses (Some i')).
    { etransitivity; [exact K|]. intros ? [= <-]. exists i'. split; [done|apply choose_keeps]. }
    destruct (i6_peer_intf_id i' =? 0); [intros [= <- <- <-]; split_and!; try done; eauto|].
    destruct (_ && _ && _) eqn:V; intros [= <- <- <-]; split_and!; try done; eauto. intros _. bools. exists i'. split_and!; try done; lia.
  - intros [= <- <- <-]. unfold OPT_NAK, OPT_ACK, OPT_CLOSE, OPT_FAIL in *. split_and!; [done|lia..].
Qed.

#[export] Program Instance ipv6cp_laws : NcpLaws (option ipv6db_item_t) ipv6cp_x := {
  np_opt_ok := ipv6cp_opt_ok;
  np_agreed := ipv6cp_agreed
}.
Next Obligation. intros o H. unfold ipv6cp_opt_ok in H. lia. Qed.
Next Obligation. unfold ipv6cp_opt_ok. congruence. Qed.
Next Obligation.
  intros x o ses ses' r Ho H. cbn in H. unfold ipv6cp_opt_ok in Ho. unfold intfid_send_conf_req in H.
  destruct (need_ip6 x ses) as [s1 r1] eqn:N. apply need_ip6_some in N as (K & N1 & N2). injection H as <- <-.
  split_and!; [|intros b; now apply agreed6_kept|intros o' _; now apply nak6_kept].
  intros bs. destruct (r1 =? 0); [|done]. destruct s1; [|done]. intros [= <-]. rewrite Ho. done.
Qed.
Next Obligation. intros o ses bs Ho H. unfold ipv6cp_opt_ok in Ho. cbn in H. rewrite Ho. destruct ses; [|done]. injection H as <-. reflexivity. Qed.
Next Obligation. done. Qed.
Next Obligation.
  intros x b o ses ses' r a Ho W Hid H. cbn in H. apply judge6_spec in H as (K & J1 & J2 & J3).
  split_and!; [|done|done|intros b'; now apply agreed6_kept|intros o' _; now apply nak6_kept]. intros E. destruct (J1 E) as [i ->]. done.
Qed.

(** ** Sessions *)
Definition ipv6cp_reachable (s : fst_t (ncp_t (option ipv6db_item_t))) : Prop :=
  exists fc rnd e evs, Forall (fun ev => event_distinct (snd ev)) evs /\ s = ipv6cp_session fc rnd e evs.

Lemma ipv6cp_reachable_rest s : ipv6cp_reachable s -> ncp_rest (snd s).
Proof.
  intros (fc & rnd & e & evs & D & ->). change (ncp_rest (snd (ncp_session fc rnd [intfid_init] None e evs))). apply ncp_session_rest; [|repeat constructor|done].
  apply (bool_decide_eq_true_1 (NoDup [1])). reflexivity.
Qed.

(** C18. IPv6CP keeps the two ends of a link apart: whatever the peer sends, as long as no
    request gives the option twice, no handler accesses memory outside of a buffer or through
    a null pointer, and every Configure-Ack has interface identifiers only that are of full
    length, not zero, and not the one of the server. *)
Theorem ipv6cp_acks_other_id (s : fst_t (ncp_t (option ipv6db_item_t))) (frame : list Z) :
  ipv6cp_reachable s ->
  n_fault (snd s) = false /\
  (frame ∈ n_sent (snd s) -> frame_code frame = CONFACK ->
   exists bs, drop NCP_HDR frame = concat bs /\ Forall opt_wf bs /\
     Forall (fun b => isset (find_opt (opt_id b) (n_options (snd s))) = true /\
       exists i, n_ses (snd s) = Some i /\ opt6_len b = 10 /\ opt64_val b <> 0 /\ opt64_val b <> i6_intf_id i) bs).
Proof.
  intros R. destruct (rest_safe (snd s) frame (ipv6cp_reachable_rest s R)) as [F A]. split; [exact F|]. intros Hin Hc.
  destruct (A Hin Hc) as (bs & E & W & G). exists bs. split_and!; [done..|]. eapply Forall_impl; [exact G|]. intros b [H1 H2]. split; [exact H2|exact H1].
Qed.

(** ** The same option many times *)
Lemma judge_repeated e f b ses1 n :
  intfid_recv_conf_req (ne_x e) b ses1 = (ses1, OPT_NAK, false) ->
  forall w ret, n_terminating w = false -> isset (find_opt (opt_id b) (n_options w)) = true -> (ret = OPT_ACK \/ ret = OPT_NAK) ->
  intfid_recv_conf_req (ne_x e) b (n_ses w) = (ses1, OPT_NAK, false) ->
  exists opts, length opts = length (n_options w) /\ isset (find_opt (opt_id b) opts) = true /\
    judge_loop e (replicate n (mk_ropt b OPT_NONE)) (f, w) ret =
      (f, nw_ses (nw_options w opts (n_conf_req_len w)) (if (n =? 0)%nat then n_ses w else ses1), replicate n (mk_ropt b OPT_NAK),
       if (n =? 0)%nat then ret else OPT_NAK, false).
Proof.
  intros J1. induction n as [|n IH]; intros w ret T F R J; cbn [replicate judge_loop ro_bytes].
  - exists (n_options w). split_and!; [done..|]. now destruct w.
  - destruct (find_opt (opt_id b) (n_options w)) as [o|] eqn:Hf; [|done]. cbn [np_judge ipv6cp]. rewrite J.
    cbn [Z.eqb OPT_NAK OPT_TERMACK OPT_CLOSE Pos.eqb n_terminating nw_ses]. rewrite T. cbn [n_options n_conf_req_len nw_ses].
    set (opts1 := update_opt _ _ _). set (w1 := nw_options _ opts1 _).
    assert (Fo : Forall2 (fun o o' => no_id o = no_id o' /\ no_len o = no_len o') (n_options w) opts1) by (apply update_opt_same; done).
    assert (F1 : isset (find_opt (opt_id b) (n_options w1)) = true) by (cbn [w1 nw_options n_options]; rewrite <- (same_opts_isset _ _ _ Fo), Hf; done).
    destruct (IH w1 (if OPT_NAK <? ret then OPT_NAK else ret) T F1) as (opts & Hl & Hi & Q); [destruct R as [-> | ->]; auto|exact J1|].
    match goal with |- context [judge_loop e _ ?x ?r] => change x with (f, w1); change r with (if OPT_NAK <? ret then OPT_NAK else ret) end.
    rewrite Q. exists opts. split_and!; [rewrite Hl; symmetry; eapply Forall2_length, Fo|done|].
    replace (if (n =? 0)%nat then if OPT_NAK <? ret then OPT_NAK else ret else OPT_NAK) with OPT_NAK by (destruct (n =? 0)%nat, R as [-> | ->]; done).
    replace (if (n =? 0)%nat then n_ses w1 else ses1) with ses1 by (destruct (n =? 0)%nat; done). reflexivity.
Qed.

Lemma repeated_length id val n : length (concat (replicate n (opt64 id val))) = (10 * n)%nat.
Proof. induction n as [|n IH]; [done|]. cbn [replicate concat]. rewrite length_app, IH, opt64_length. lia. Qed.

Lemma collect_repeated b n : opt_wf b -> collect_opts (length (concat (replicate n b))) (concat (replicate n b)) = (replicate n b, true).
Proof. intros W. apply collect_opts_concat; [now apply Forall_replicate|done]. Qed.

(** The answer to a request that has one option, [n] times, which is wrong. *)
Lemma repeated_nak e id b i1 n s :
  negotiates e s = true -> ncp_rest (snd s) -> opt_wf b -> isset (find_opt (opt_id b) (n_options (snd s))) = true -> n <> O ->
  Z.of_nat (length (concat (replicate n b))) + 4 < 65536 -> 0 <= id < 256 ->
  intfid_recv_conf_req (ne_x e) b (n_ses (snd s)) = (Some i1, OPT_NAK, false) -> intfid_recv_conf_req (ne_x e) b (Some i1) = (Some i1, OPT_NAK, false) ->
  let s' := ncp_step s (e, NFrame (ncp_frame CONFREQ id (concat (replicate n b)))) in
  n_sent (snd s') = n_sent (snd s) ++ [ncp_frame CONFNAK id (concat (replicate n (opt64 CI_INTFID (i6_peer_intf_id i1))))] /\
  n_fault (snd s') = (n_conf_req_len (snd s) <? Z.of_nat (6 + 10 * n)).
Proof.
  intros Ng Rest W F N L Hid J J1 s'. destruct s as [f w]. cbn [snd] in *. set (w0 := nw_buf w (ncp_frame CONFREQ id (concat (replicate n b)))).
  pose proof Ng as Ng'. unfold negotiates in Ng'. bools. cbn [fst snd] in *.
  set (wr := nw_options (nw_ropts w0 (replicate n (mk_ropt b OPT_NONE)) (Z.of_nat (length (concat (replicate n b))))) (map (fun o => set_no_state o OPT_NONE) (n_options w)) (n_conf_req_len w)).
  assert (Fr : isset (find_opt (opt_id b) (n_options wr)) = true).
  { rewrite <- (same_opts_isset (opt_id b) (n_options w)); [done|]. cbn. clear. induction (n_options w); constructor; done. }
  destruct (judge_repeated e (set_recv_id id f) b (Some i1) n J1 wr 1) as (opts & Hl & Hi & Q); [done..|auto|exact J|].
  apply Nat.eqb_neq in N. rewrite N in Q.
  set (w1 := nw_ropts (nw_ses (nw_options wr opts (n_conf_req_len wr)) (Some i1)) (replicate n (mk_ropt b OPT_NAK)) (Z.of_nat (length (concat (replicate n b))))).
  assert (Qr : ncp_recv_conf_req e (concat (replicate n b)) (set_recv_id id f, w0) = (set_recv_id id f, w1, OPT_NAK)).
  { unfold ncp_recv_conf_req. rewrite collect_repeated by done. cbn [snd on_ncp fst]. change (n_ropts w0) with (n_ropts w). rewrite (proj2 Rest).
    cbn [app]. rewrite (fmap_replicate (fun b => mk_ropt b OPT_NONE) n b : map (fun b => mk_ropt b OPT_NONE) (replicate n b) = _). match goal with |- context [judge_loop e _ ?x 1] => change x with (set_recv_id id f, wr) end. rewrite Q. reflexivity. }
  assert (Hs : s' = on_ncp ncp_free_conf_req (ppp_fsm_recv_conf_req_nak (ncp_ops e) (set_recv_id id f, w1))).
  { apply (confreq_answered e f w id _ w1 OPT_NAK); try done. auto. }
  assert (Nk : nak_loop (n_ropts w1) (n_options w1) (n_ses w1) = Some (concat (replicate n (opt64 CI_INTFID (i6_peer_intf_id i1))))).
  { cbn [w1 nw_ropts n_ropts n_options n_ses nw_ses nw_options]. clear - Hi. induction n as [|n IH]; [done|]. cbn [replicate nak_loop ro_state ro_bytes concat].
    destruct (find_opt (opt_id b) opts); [|done]. rewrite IH. reflexivity. }
  destruct (nak_sent e (set_recv_id id f) w1 _ ltac:(done) ltac:(cbn; lia) Nk) as [S1 S2].
  rewrite Hs. cbn [on_ncp snd ncp_free_conf_req nw_ropts n_sent n_fault]. rewrite S1, S2. split; [done|].
  rewrite repeated_length. replace (n_fault w1) with false; [done|]. symmetry. apply (rest_safe w [] Rest).
Qed.

Lemma opt64_wf id val : opt_wf (opt64 id val).
Proof. exists id, (be_encode 8 val). split; [reflexivity|done]. Qed.

Lemma opt64_val_eq id val : 0 <= val < 2 ^ 64 -> opt64_val (opt64 id val) = val.
Proof.
  intros H. unfold opt64_val. change (take 8 (drop 2 (opt64 id val))) with (be_encode 8 val). rewrite be_decode_encode, Z.mod_small by (cbn in *; lia). done.
Qed.

(** The interface identifier given twice overflows the buffer of the answer: where the server
    chooses the identifier of the peer, a request that asks for another one more often
    than there are options makes [send_conf_nak] write past the [conf_req_len] bytes it has. *)
Theorem ipv6cp_nak_overflow (s : fst_t (ncp_t (option ipv6db_item_t))) (e : ncp_env ipv6cp_x) (i : ipv6db_item_t) (id val : Z) (n : nat) :
  ipv6cp_reachable s -> negotiates e s = true -> n_ses (snd s) = Some i -> isset (find_opt CI_INTFID (n_options (snd s))) = true ->
  conf_accept_peer_intf_id (ne_x e) = false -> 0 <= val < 2 ^ 64 -> i6_peer_intf_id i <> 0 -> val <> i6_peer_intf_id i -> 0 <= id < 256 ->
  (length (n_options (snd s)) < n)%nat -> Z.of_nat (10 * n) + 4 < 65536 ->
  n_fault (snd (ncp_step s (e, NFrame (ncp_frame CONFREQ id (concat (replicate n (opt64 CI_INTFID val))))))) = true.
Proof.
  intros R Ng S F A Hv Hp Hne Hid Hn L. pose proof (ipv6cp_reachable_rest s R) as Rest.
  assert (J : intfid_recv_conf_req (ne_x e) (opt64 CI_INTFID val) (Some i) = (Some i, OPT_NAK, false)).
  { unfold intfid_recv_conf_req, choose_peer_id. change (opt6_len (opt64 CI_INTFID val)) with 10. cbn [negb Z.eqb Pos.eqb need_ip6]. rewrite A, opt64_val_eq by done. cbn [andb].
    apply Z.eqb_neq in Hp. rewrite Hp, Hp. destruct (Z.eqb_spec (i6_peer_intf_id i) val); [congruence|]. now rewrite andb_false_r. }
  assert (Lc : length (concat (replicate n (opt64 CI_INTFID val))) = (10 * n)%nat) by apply repeated_length.
  destruct (repeated_nak e id (opt64 CI_INTFID val) i n s Ng Rest (opt64_wf _ _)) as [_ ->]; try done; [lia|lia|now rewrite S|].
  destruct Rest as [[[_ _ I3 I4 _ _] _] _]. rewrite I4.
  assert (Sl : sum_len (n_options (snd s)) = 10 * Z.of_nat (length (n_options (snd s)))).
  { clear - I3. induction I3 as [|o l Ho F IH]; [done|]. cbn [sum_len foldr length]. fold (sum_len l). cbn in Ho. unfold ipv6cp_opt_ok in Ho. lia. }
  rewrite Sl. apply Z.ltb_lt. unfold NCP_HDR. lia.
Qed.

(** A peer that asks for the identifier of the server is told to use it: where the server
    accepts the identifiers of its peers, the Nak suggests the very identifier it refuses. *)
Theorem ipv6cp_nak_suggests_own_id (s : fst_t (ncp_t (option ipv6db_item_t))) (e : ncp_env ipv6cp_x) (i : ipv6db_item_t) (id : Z) :
  ipv6cp_reachable s -> negotiates e s = true -> n_ses (snd s) = Some i -> isset (find_opt CI_INTFID (n_options (snd s))) = true ->
  conf_accept_peer_intf_id (ne_x e) = true -> 0 < i6_intf_id i < 2 ^ 64 -> 0 <= id < 256 ->
  n_sent (snd (ncp_step s (e, NFrame (ncp_frame CONFREQ id (concat (replicate 1 (opt64 CI_INTFID (i6_intf_id i)))))))) =
    n_sent (snd s) ++ [ncp_frame CONFNAK id (concat (replicate 1 (opt64 CI_INTFID (i6_intf_id i))))].
Proof.
  intros R Ng S F A Hv Hid. set (v := i6_intf_id i) in *.
  assert (J : forall j, i6_intf_id j = v -> intfid_recv_conf_req (ne_x e) (opt64 CI_INTFID v) (Some j) = (Some (set_peer_intf_id j v), OPT_NAK, false)).
  { intros j Hj. unfold intfid_recv_conf_req, choose_peer_id. change (opt6_len (opt64 CI_INTFID v)) with 10. cbn [negb Z.eqb Pos.eqb need_ip6]. rewrite A, opt64_val_eq by lia.
    destruct (Z.eqb_spec v 0); [lia|]. cbn [andb negb set_peer_intf_id i6_peer_intf_id i6_intf_id]. rewrite Hj, Z.eqb_refl. destruct (Z.eqb_spec v 0); [lia|]. done. }
  destruct (repeated_nak e id (opt64 CI_INTFID v) (set_peer_intf_id i v) 1 s Ng (ipv6cp_reachable_rest s R) (opt64_wf _ _)) as [-> _]; try done.
  - rewrite S. now apply J.
  - now rewrite J.
Qed.

(** ** Examples *)
Definition env6_ex (accept : bool) : ncp_env ipv6cp_x :=
  mk_nenv NCP_PREFERE false true true (mk_ipv6cp_x INTF_ID_FIXED 1 INTF_ID_FIXED 2 accept false (Some (mk_ipv6 1 2 [])) true 0 0 None []).
Definition start6_ex (accept : bool) : fst_t (ncp_t (option ipv6db_item_t)) := ipv6cp_session fsm_conf_default 7 (env6_ex accept) [].
Definition acked6_ex : fst_t (ncp_t (option ipv6db_item_t)) :=
  ipv6cp_session fsm_conf_default 7 (env6_ex false) [(env6_ex false, NFrame (ncp_frame CONFREQ 1 (concat [opt64 CI_INTFID 2])))].

Lemma start6_reachable accept : ipv6cp_reachable (start6_ex accept).
Proof. do 4 eexists. split; [apply Forall_nil_2|reflexivity]. Qed.

(** The identifier 2 is acknowledged. *)
Lemma ipv6cp_acks_other_id_witness :
  n_fault (snd acked6_ex) = false /\
  exists bs, drop NCP_HDR (ncp_frame CONFACK 1 (opt64 CI_INTFID 2)) = concat bs /\ Forall opt_wf bs /\
    Forall (fun b => isset (find_opt (opt_id b) (n_options (snd acked6_ex))) = true /\
      exists i, n_ses (snd acked6_ex) = Some i /\ opt6_len b = 10 /\ opt64_val b <> 0 /\ opt64_val b <> i6_intf_id i) bs.
Proof.
  assert (R : ipv6cp_reachable acked6_ex).
  { do 4 eexists. split; [|reflexivity]. apply Forall_singleton. cbn [snd event_distinct]. split; [bytes_lit|]. intros _. unfold distinct.
    apply (bool_decide_eq_true_1 (NoDup [1])). reflexivity. }
  destruct (ipv6cp_acks_other_id acked6_ex (ncp_frame CONFACK 1 (opt64 CI_INTFID 2)) R) as [F A].
  split; [exact F|]. apply A; [|reflexivity]. vm_compute. right. left.
Defined.

(** The identifier 3, twice. *)
Lemma ipv6cp_nak_overflow_witness :
  n_fault (snd (ncp_step (start6_ex false) (env6_ex false, NFrame (ncp_frame CONFREQ 1 (concat (replicate 2 (opt64 CI_INTFID 3))))))) = true.
Proof. apply (ipv6cp_nak_overflow (start6_ex false) (env6_ex false) (mk_ipv6 1 2 []) 1 3 2 (start6_reachable false)); try reflexivity; try done. vm_compute. lia. Defined.

(** The identifier 1, which the server has. *)
Lemma ipv6cp_nak_suggests_own_id_witness :
  n_sent (snd (ncp_step (start6_ex true) (env6_ex true, NFrame (ncp_frame CONFREQ 1 (concat (replicate 1 (opt64 CI_INTFID 1))))))) =
    n_sent (snd (start6_ex true)) ++ [ncp_frame CONFNAK 1 (concat (replicate 1 (opt64 CI_INTFID 1)))].
Proof. apply (ipv6cp_nak_suggests_own_id (start6_ex true) (env6_ex true) (mk_ipv6 1 2 []) 1 (start6_reachable true)); try reflexivity; done. Defined.
